(* ===== verification/_CoqProject ===== *)
-Q . S2P
Prelude.v
Mmu.v
CString.v
Kalloc.v
Vm.v
VmSpec.v
VmUser.v
VmAlloc.v
VmGrow.v
VmKernel.v
VmCopy.v
VmPool.v
VmCopyout.v
VmExamples.v
Proc.v
Trap.v
ProcMem.v
ProcFork.v
ProcWait.v
ProcLazy.v
ProcState.v
ProcTree.v
ProcTrap.v
ProcExamples.v
Syscall.v
SyscallSpec.v
Pipe.v
Block.v
Bio.v
BioRing.v
BioSpec.v
Log.v
LogSpec.v
LogCrash.v
LogRecover.v
Fs.v
FsLaws.v
LogLaws.v
FsBits.v
FsAlloc.v
FsMap.v
FsRw.v
FsDir.v
FsExamples.v
Mkfs.v
MkfsBlocks.v
MkfsFiles.v
MkfsSpec.v
File.v
Exec.v
Sysfile.v
FsRefs.v
FileSpec.v
SysfileSpec.v
KernelRefs.v
KernelPages.v
Grep.v
Printf.v
Console.v
Kbd.v
ConsoleSpec.v
KbdSpec.v
Umalloc.v
UmallocSpec.v
UmallocAlloc.v
UmallocClient.v
Sh.v
ShSpec.v
ShRound.v
ShRun.v
Ide.v
Spinlock.v
Mp.v
Lapic.v
Boot.v
UserProgs.v
MyShell.v
Alu.v
Gear.v
SensorGraph.v
