(* ===== verification/Prelude.v ===== *)
(** * Verification of the programs of this repository

    The main program is xv6, a small Unix for 32-bit x86, extended with system calls for
    lazily mapped memory (src/mmap/xv6).  The other programs are a small shell (src/shell),
    a 16-bit ALU in VHDL, an Arduino gear shifter and a sensor display (src/Hardware).

    ** How programs are modelled

    A C function is a definition with the same name.  Code that changes state is a
    computation of the monad [M S A] of this file: on a state of type [S] it returns a value
    and a new state ([Ret]), stops in [panic] or with a fault ([Panic]), goes to sleep on a
    channel ([Asleep]), or runs out of fuel ([NoFuel]).  [rets m s Q] says that if [m]
    returns, [Q] holds of the result; [runs m s Q] says that [m] does return and that [Q]
    holds.  [zoom] runs a component on its part of a larger state.  Integers are in [Z], with
    the wrap-around of their width written out ([u32], [i32], [u16], [u8]).  A loop whose
    length is not that of a list takes fuel, computed from its arguments by the definition
    that calls it; where a theorem says [runs], or gives the result, the fuel is enough, and
    where the code can really loop for ever (a page fault that cannot be served, an unknown
    entry in the table of processors) it is not.  Code between the taking and the release of
    a lock is one step; interleavings of such steps are step relations ([Inductive]).

    ** The parts of xv6, from the hardware up

    - Address arithmetic of mmu.h and memlayout.h: Mmu.  Byte memory and string.c: CString.
    - Physical pages, kalloc.c: Kalloc.  The free list is threaded through the pages; in any
      sequence of allocations and frees every page is free or handed out, once.
    - Page tables, vm.c: Vm has the code, VmSpec the abstract page table and who owns which
      page, VmUser, VmAlloc, VmGrow, VmKernel, VmCopy and VmCopyout the specifications of
      mappages, allocuvm and deallocuvm, setupkvm, copyuvm, freevm, the page-fault handler and
      copyout.  Each operation conserves pages, and user memory is described byte by byte;
      VmPool states the same operations over a pool shared by many address spaces.
    - Processes, proc.c and trap.c: Proc and Trap have the code.  ProcMem and ProcFork,
      ProcWait and ProcLazy specify fork, wait, mmap with the faults that follow it, and sbrk,
      for a kernel in which all processes share one pool of pages.  ProcState and
      ProcTree have the process table as a state machine with its reachable states; ProcTrap
      the fairness of the scheduler and that a killed process does not return to user mode.
      Files are an interface here: the classes [FileOps], [FileRefs] and [FileCalm] of Proc.
    - System calls, syscall.c and sysproc.c: Syscall and SyscallSpec, with the arguments that
      the kernel reads from user memory, page faults included.
    - Pipes, pipe.c: Pipe, with any number of concurrent readers and writers.
    - Locks, spinlock.c: Spinlock, with any number of CPUs interleaved at each shared access.
    - The disk: Ide has the driver with its queue and the registers of the controller, and the
      driver of the memory disk; it refines the atomic [iderw] which the buffer cache uses,
      but for a read that the controller fails, which leaves the old data marked valid.
      Block has disk blocks as bytes.  Bio, BioRing and BioSpec are the buffer cache (bio.c,
      sleeplock.c).
    - The log, log.c: Log, LogSpec, LogCrash and LogRecover.  A transaction is on disk whole or
      not at all after a crash at any point, also when recovery crashes again and again.
    - The file system, fs.c: Fs is written over the interface [BufOps]; FsLaws is the contract
      [BufLaws] it relies on, and LogLaws shows that the log over the buffer cache keeps it.
      FsBits, FsAlloc, FsMap, FsRw and FsDir have the bitmap, the blocks of a file, reading and
      writing, directories and the layout of inodes.
    - mkfs.c: Mkfs, MkfsBlocks, MkfsFiles and MkfsSpec; the image it makes is one that the
      kernel's functions read back.
    - Open files and the system calls on them, file.c, exec.c and sysfile.c: File, Exec and
      Sysfile.  FsRefs, FileSpec and SysfileSpec follow the counts of references through every
      call.  KernelRefs puts the parts together: file.c, fs.c and log.c implement the
      interface of proc.c, and in every state that processes reach by calls of proc.c and
      sysfile.c the counts are exact and the process tree is well formed.  KernelPages does
      the same for memory: a logic over the pool of VmPool follows the pages each call has in
      its hands, and from boot on every page is free or has exactly one owner.
    - The console and the keyboard, console.c, kbd.c and uart.c: Console and Kbd, refined to a
      terminal with lines and a cursor in ConsoleSpec; KbdSpec has the interrupts.
    - Start: Boot is the boot loader (bootmain.c), Mp the tables of processors (mp.c), and Lapic
      the interrupt controllers, the CMOS clock and the start of the other processors (lapic.c,
      ioapic.c, picirq.c and main.c).
    - User programs: Umalloc, UmallocSpec, UmallocAlloc and UmallocClient (malloc and free, and
      what a client can rely on), Sh, ShSpec, ShRound and ShRun (the shell: its parser, the
      round trip of printing and parsing, the open files of the commands it runs, and whole
      sessions), Grep, Printf, and UserProgs (cat, wc, echo and part of ls).

    VmExamples, ProcExamples and FsExamples, and the ends of other files, have the concrete
    machines on which the theorems with hypotheses are instantiated.

    ** The other programs

    MyShell is the small shell of src/shell; Alu the netlist of the ALU, whose Kogge-Stone
    adder is proved equal to addition; Gear the gear shifter and SensorGraph the buffer of the
    accelerometer's graph, both on single-precision floats.

    ** What the theorems show

    - Conservation and ownership: pages (Kalloc, VmCopy, ProcFork, ProcWait, and of the
      whole kernel in KernelPages), references to files and inodes (KernelRefs), blocks of
      the heap (UmallocClient), blocks of the disk (FsRw, MkfsSpec).
    - Refinement of a simpler system: the log by an atomic update, the driver by a queue, the
      console by a terminal, pipes by a queue, the allocator by a map of blocks, fork by a copy
      of the process, the adder by arithmetic.
    - Concurrency: pipes, spinlocks, the driver with its interrupts, the process table.
    - Behaviour on every branch, errors included; the branches on which the code is wrong are
      part of the theorems (the panics of [copyuvm_spec] and [fork_spec], the failed reads of
      [ide_refines], the overflows of [my_shell_runs]) or theorems of their own (for instance
      [mmap_escapes], [kernel_fault_loses_page], [alu_spec]).

    ** Not modelled

    - Assembly (bootasm.S, entry.S, swtch.S, trapasm.S and so on): processor state is not part
      of the model, the running process is an argument, and a context switch is the end of a
      call.  A call that sleeps in the middle is followed up to its sleep; the states in which
      it resumes are followed for pipes, the console, wait and iderw only.
    - main and mpmain of main.c, which only call the initialisation of the parts in order.
    - The programs that test system calls (usertests.c and others).
    - Numerical programs in Fortran, Python and MATLAB: calls of LAPACK, NumPy, TensorFlow and
      MATLAB's library on floats, whose behaviour is that of the libraries; the calls of Android
      and OpenGL around the sensor graph. *)

From stdpp Require Export base numbers list gmap strings.
From Stdlib Require Export ZArith Lia.

#[global] Open Scope Z_scope.
Set Default Proof Using "Type".

(** ** Machine integers *)

Definition u32 (z : Z) : Z := z mod 2 ^ 32.
Definition u16 (z : Z) : Z := z mod 2 ^ 16.
Definition u8 (z : Z) : Z := z mod 2 ^ 8.
(** two's complement reading of the low 32 bits: a C [int] *)
Definition i32 (z : Z) : Z := (z + 2 ^ 31) mod 2 ^ 32 - 2 ^ 31.

Definition is_u32 (z : Z) : Prop := 0 ≤ z < 2 ^ 32.
Definition is_u8 (z : Z) : Prop := 0 ≤ z < 256.

(** Division and remainder by constants, then linear arithmetic. *)
Ltac zdm := Z.div_mod_to_equations; lia.

Lemma u32_id z : is_u32 z → u32 z = z.
Proof. intros. by apply Z.mod_small. Qed.

Lemma u32_range z : is_u32 (u32 z).
Proof. unfold is_u32, u32. apply Z.mod_pos_bound. lia. Qed.

Lemma i32_id z : - 2 ^ 31 ≤ z < 2 ^ 31 → i32 z = z.
Proof. intros. unfold i32. rewrite Z.mod_small; lia. Qed.

Lemma i32_range z : - 2 ^ 31 ≤ i32 z < 2 ^ 31.
Proof. unfold i32. pose proof (Z.mod_pos_bound (z + 2 ^ 31) (2 ^ 32)). lia. Qed.

Lemma u32_i32 z : u32 (i32 z) = u32 z.
Proof.
  unfold u32, i32. rewrite Zminus_mod_idemp_l.
  f_equal. lia.
Qed.

(** ** Bit-field arithmetic *)

Section bits.
Context (k : Z) (Hk : 0 ≤ k).

(** masking the low [k] bits is a remainder *)
Lemma land_low z : Z.land z (2 ^ k - 1) = z mod 2 ^ k.
Proof using Hk. rewrite <- Z.land_ones by done. f_equal. rewrite Z.ones_equiv. lia. Qed.

(** clearing the low [k] bits of a [w]-bit number *)
Lemma land_high w z :
  k ≤ w → 0 ≤ z < 2 ^ w → Z.land z (2 ^ w - 2 ^ k) = z - z mod 2 ^ k.
Proof using Hk.
  intros Hw Hz.
  replace (2 ^ w - 2 ^ k) with (Z.shiftl (2 ^ (w - k) - 1) k).
  2: { rewrite Z.shiftl_mul_pow2 by lia.
       replace w with ((w - k) + k) at 2 by lia. rewrite Z.pow_add_r by lia. lia. }
  apply Z.bits_inj'. intros n Hn.
  assert (Hs : z - z mod 2 ^ k = Z.shiftl (Z.shiftr z k) k).
  { rewrite Z.shiftl_mul_pow2, Z.shiftr_div_pow2 by lia.
    pose proof (Z.div_mod z (2 ^ k)). lia. }
  rewrite Hs, Z.land_spec.
  destruct (decide (n < k)).
  - rewrite !Z.shiftl_spec_low by lia. by rewrite andb_false_r.
  - rewrite !Z.shiftl_spec by lia. rewrite Z.shiftr_spec by lia.
    replace (2 ^ (w - k) - 1) with (Z.ones (w - k)) by (rewrite Z.ones_equiv; lia).
    replace (n - k + k) with n by lia.
    destruct (decide (n < w)).
    + rewrite Z.ones_spec_low by lia. by rewrite andb_true_r.
    + rewrite Z.ones_spec_high by lia. rewrite andb_false_r.
      symmetry. rewrite <- (Z.mod_small z (2 ^ w)) by done.
      apply Z.mod_pow2_bits_high. lia.
Qed.

(** or-ing a [k]-aligned number with a [k]-bit one is addition *)
Lemma lor_low a b :
  a mod 2 ^ k = 0 → 0 ≤ b < 2 ^ k → Z.lor a b = a + b.
Proof using Hk.
  intros Ha Hb. symmetry. rewrite <- Z.lxor_lor; [apply Z.add_nocarry_lxor|]; 
  (apply Z.bits_inj'; intros n Hn; rewrite Z.land_spec, Z.bits_0;
   destruct (decide (n < k));
   [ rewrite <- (Z.mod_pow2_bits_low a k) by lia; by rewrite Ha, Z.bits_0
   | rewrite <- (Z.mod_small b (2 ^ k)) by lia;
     rewrite (Z.mod_pow2_bits_high b) by lia; by rewrite andb_false_r ]).
Qed.

(** bitwise operations stay within the width *)
Lemma lor_range a b :
  0 ≤ a < 2 ^ k → 0 ≤ b < 2 ^ k → 0 ≤ Z.lor a b < 2 ^ k.
Proof using Hk.
  intros Ha Hb. assert (Z.lor a b = Z.lor a b mod 2 ^ k) as ->.
  { apply Z.bits_inj'. intros n Hn. destruct (decide (n < k)).
    - by rewrite Z.mod_pow2_bits_low by lia.
    - rewrite Z.mod_pow2_bits_high by lia. rewrite Z.lor_spec.
      rewrite <- (Z.mod_small a (2 ^ k)), <- (Z.mod_small b (2 ^ k)) by done.
      by rewrite !Z.mod_pow2_bits_high by lia. }
  apply Z.mod_pos_bound. lia.
Qed.
End bits.

(** ** Outcomes of kernel code

    A kernel routine runs on a state and either returns, panics (the kernel
    halts with a message), goes to sleep on a channel (the thread is suspended
    at a [sleep()] call), or exhausts the fuel of a loop of the model. *)

Inductive outcome (S A : Type) : Type :=
| Ret (a : A) (s : S)
| Panic (msg : string)
| Asleep (chan : Z) (s : S)
| NoFuel.
Arguments Ret {S A} _ _.
Arguments Panic {S A} _.
Arguments Asleep {S A} _ _.
Arguments NoFuel {S A}.

Definition M (S A : Type) : Type := S → outcome S A.

#[export] Instance M_ret {S} : MRet (M S) := λ A a s, Ret a s.
#[export] Instance M_bind {S} : MBind (M S) := λ A B k m s,
  match m s with
  | Ret a s' => k a s'
  | Panic msg => Panic msg
  | Asleep c s' => Asleep c s'
  | NoFuel => NoFuel
  end.

Definition panic {S A} (msg : string) : M S A := λ _, Panic msg.
Definition get {S} : M S S := λ s, Ret s s.
Definition put {S} (s : S) : M S unit := λ _, Ret () s.
Definition gets {S A} (f : S → A) : M S A := λ s, Ret (f s) s.
Definition modify {S} (f : S → S) : M S unit := λ s, Ret () (f s).

(** Run a routine of a component on its part of a larger state. *)
Definition zoom {S T A} (view : S → T) (upd : T → S → S) (m : M T A) : M S A :=
  λ s, match m (view s) with
       | Ret a t => Ret a (upd t s)
       | Panic msg => Panic msg
       | Asleep c t => Asleep c (upd t s)
       | NoFuel => NoFuel
       end.

Section monad.
Context {S : Type}.

Lemma bind_Ret {A B} (m : M S A) (k : A → M S B) s a s' :
  m s = Ret a s' → (m ≫= k) s = k a s'.
Proof. intros H. unfold mbind, M_bind. by rewrite H. Qed.

Lemma bind_Panic {A B} (m : M S A) (k : A → M S B) s msg :
  m s = Panic msg → (m ≫= k) s = Panic msg.
Proof. intros H. unfold mbind, M_bind. by rewrite H. Qed.

Lemma bind_Ret_inv {A B} (m : M S A) (k : A → M S B) s b s' :
  (m ≫= k) s = Ret b s' → ∃ a s1, m s = Ret a s1 ∧ k a s1 = Ret b s'.
Proof. unfold mbind, M_bind. destruct (m s); naive_solver. Qed.

Lemma bind_assoc {A B C} (m : M S A) (f : A → M S B) (g : B → M S C) s :
  ((m ≫= f) ≫= g) s = (m ≫= λ a, f a ≫= g) s.
Proof. unfold mbind, M_bind. by destruct (m s). Qed.
End monad.

Lemma zoom_Ret {S T A} (view : S → T) upd (m : M T A) s a t :
  m (view s) = Ret a t → zoom view upd m s = Ret a (upd t s).
Proof. intros H. unfold zoom. by rewrite H. Qed.

(** Execute the head of a monadic program whose outcome is already known
    ([mstep H]), or that is one of the primitive actions ([mrun]). *)
Ltac mstep H := erewrite bind_Ret by (eapply H; eauto); cbn beta.
Ltac mrun :=
  repeat first
    [ erewrite bind_Ret by (reflexivity); cbn beta
    | rewrite bind_assoc; cbn beta ].

(** ** Partial correctness

    [rets m s Q]: if [m] run on [s] returns, [Q] holds of the result. *)
Definition rets {S A} (m : M S A) (s : S) (Q : A → S → Prop) : Prop :=
  ∀ a s', m s = Ret a s' → Q a s'.

Section rets.
  Context {S : Type}.

Lemma rets_bind {A B} (m : M S A) (k : A → M S B) s Q :
  rets m s (λ a s1, rets (k a) s1 Q) → rets (m ≫= k) s Q.
Proof. intros Hm b s' (a & s1 & H1 & H2)%bind_Ret_inv. by apply (Hm a s1 H1). Qed.

Lemma rets_ret {A} (a : A) s (Q : A → S → Prop) : Q a s → rets (mret a) s Q.
Proof. intros HQ b s' [= <- <-]. done. Qed.

Lemma rets_any {A} (m : M S A) s (Q : A → S → Prop) : (∀ a s', Q a s') → rets m s Q.
Proof. intros HQ a s' _. apply HQ. Qed.

Lemma rets_panic {A} msg s (Q : A → S → Prop) : rets (panic msg) s Q.
Proof. by intros b s'. Qed.

Lemma rets_gets {A} (f : S → A) s (Q : A → S → Prop) : Q (f s) s → rets (gets f) s Q.
Proof. intros HQ b s' [= <- <-]. done. Qed.

Lemma rets_modify (f : S → S) s (Q : unit → S → Prop) : Q () (f s) → rets (modify f) s Q.
Proof. intros HQ b s' [= <- <-]. done. Qed.

Lemma rets_mono {A} (m : M S A) s (P Q : A → S → Prop) :
  rets m s P → (∀ a s', P a s' → Q a s') → rets m s Q.
Proof. intros HP HPQ a s' E. by apply HPQ, HP. Qed.
End rets.

(** ** Total correctness

    [runs m s Q]: [m] run on [s] returns, and [Q] holds of the result. *)
Definition runs {S A} (m : M S A) (s : S) (Q : A → S → Prop) : Prop :=
  ∃ a s', m s = Ret a s' ∧ Q a s'.

Section runs.
  Context {S : Type}.

Lemma runs_bind {A B} (m : M S A) (k : A → M S B) s Q :
  runs m s (λ a s1, runs (k a) s1 Q) → runs (m ≫= k) s Q.
Proof.
  intros (a & s1 & H1 & b & s2 & H2 & HQ). exists b, s2. split; [|done].
  by rewrite (bind_Ret _ _ _ _ _ H1).
Qed.

Lemma runs_ret {A} (a : A) s (Q : A → S → Prop) : Q a s → runs (mret a) s Q.
Proof. intros HQ. by exists a, s. Qed.

Lemma runs_gets {A} (f : S → A) s (Q : A → S → Prop) : Q (f s) s → runs (gets f) s Q.
Proof. intros HQ. by exists (f s), s. Qed.

Lemma runs_modify (f : S → S) s (Q : unit → S → Prop) : Q () (f s) → runs (modify f) s Q.
Proof. intros HQ. by exists (), (f s). Qed.

Lemma runs_mono {A} (m : M S A) s (P Q : A → S → Prop) :
  runs m s P → (∀ a s', P a s' → Q a s') → runs m s Q.
Proof. intros (a & s' & E & HP) HPQ. exists a, s'. auto. Qed.

Lemma runs_bind_mono {A B} (m : M S A) (k : A → M S B) s P Q :
  runs m s P → (∀ a s1, P a s1 → runs (k a) s1 Q) → runs (m ≫= k) s Q.
Proof. intros HP Hk. apply runs_bind. eapply runs_mono; eauto. Qed.

Lemma runs_rets {A} (m : M S A) s (P Q : A → S → Prop) :
  runs m s P → rets m s Q → runs m s (λ a s', P a s' ∧ Q a s').
Proof. intros (a & s' & E & HP) HQ. exists a, s'. auto. Qed.

End runs.

(** run a primitive action at the head *)
Ltac rprim := first [apply runs_bind, runs_gets | apply runs_bind, runs_modify | apply runs_bind, runs_ret].

(** ** Code that never sleeps *)

Definition awake {S A} (m : M S A) : Prop := ∀ s c s', m s ≠ Asleep c s'.

Section awake.
  Context {S : Type}.

Lemma awake_bind {A B} (m : M S A) (k : A → M S B) :
  awake m → (∀ a, awake (k a)) → awake (m ≫= k).
Proof.
  intros Hm Hk s c s'. unfold mbind, M_bind. destruct (m s) as [a s1|msg|c' s1|] eqn:E; try done.
  - apply Hk.
  - by apply Hm in E.
Qed.

End awake.
