(* ===== verification/Mmu.v ===== *)
(** * mmu.h, memlayout.h, types.h: x86 address arithmetic

    The macros that split a virtual address into directory index, table index
    and offset, round to pages, convert between kernel virtual and physical
    addresses, and pack segment and gate descriptors.  All arithmetic is on
    32-bit [uint]s, so every operation that can wrap carries its [u32]. *)

From S2P Require Import Prelude.

(** ** Constants (mmu.h, memlayout.h) *)

Definition FL_IF : Z := 0x200.

Definition SEG_KCODE : Z := 1.
Definition SEG_KDATA : Z := 2.
Definition SEG_UCODE : Z := 3.
Definition SEG_UDATA : Z := 4.
Definition SEG_TSS : Z := 5.
Definition DPL_USER : Z := 3.
Definition STA_X : Z := 8.
Definition STA_W : Z := 2.
Definition STA_R : Z := 2.
Definition STS_T32A : Z := 9.
Definition STS_IG32 : Z := 0xE.
Definition STS_TG32 : Z := 0xF.

Definition NPDENTRIES : Z := 1024.
Definition NPTENTRIES : Z := 1024.
Definition PGSIZE : Z := 4096.
Definition PTXSHIFT : Z := 12.
Definition PDXSHIFT : Z := 22.

Definition PTE_P : Z := 1.
Definition PTE_W : Z := 2.
Definition PTE_U : Z := 4.
Definition PTE_PS : Z := 0x80.

Definition EXTMEM : Z := 0x100000.
Definition PHYSTOP : Z := 0xE000000.
Definition DEVSPACE : Z := 0xFE000000.
Definition KERNBASE : Z := 0x80000000.
Definition KERNLINK : Z := KERNBASE + EXTMEM.

(** ** Address macros *)

Definition PDX (va : Z) : Z := Z.land (Z.shiftr (u32 va) PDXSHIFT) 0x3FF.
Definition PTX (va : Z) : Z := Z.land (Z.shiftr (u32 va) PTXSHIFT) 0x3FF.
Definition PGADDR (d t o : Z) : Z :=
  u32 (Z.lor (Z.lor (Z.shiftl d PDXSHIFT) (Z.shiftl t PTXSHIFT)) o).
Definition PGROUNDUP (sz : Z) : Z :=
  Z.land (u32 (sz + PGSIZE - 1)) (u32 (Z.lnot (PGSIZE - 1))).
Definition PGROUNDDOWN (a : Z) : Z := Z.land (u32 a) (u32 (Z.lnot (PGSIZE - 1))).
Definition PTE_ADDR (pte : Z) : Z := Z.land (u32 pte) (u32 (Z.lnot 0xFFF)).
Definition PTE_FLAGS (pte : Z) : Z := Z.land (u32 pte) 0xFFF.
Definition V2P (a : Z) : Z := u32 (a - KERNBASE).
Definition P2V (a : Z) : Z := u32 (a + KERNBASE).

(** ** Descriptors *)

(** the value kept by a [w]-bit bit-field *)
Definition bitf (w z : Z) : Z := z mod 2 ^ w.

Record segdesc := {
  sd_lim_15_0 : Z; sd_base_15_0 : Z; sd_base_23_16 : Z; sd_type : Z;
  sd_s : Z; sd_dpl : Z; sd_p : Z; sd_lim_19_16 : Z; sd_avl : Z; sd_rsv1 : Z;
  sd_db : Z; sd_g : Z; sd_base_31_24 : Z }.

Definition SEG (type base lim dpl : Z) : segdesc := {|
  sd_lim_15_0 := bitf 16 (Z.land (Z.shiftr lim 12) 0xffff);
  sd_base_15_0 := bitf 16 (Z.land (u32 base) 0xffff);
  sd_base_23_16 := bitf 8 (Z.land (Z.shiftr (u32 base) 16) 0xff);
  sd_type := bitf 4 type; sd_s := 1; sd_dpl := bitf 2 dpl; sd_p := 1;
  sd_lim_19_16 := bitf 4 (Z.shiftr (u32 lim) 28);
  sd_avl := 0; sd_rsv1 := 0; sd_db := 1; sd_g := 1;
  sd_base_31_24 := bitf 8 (Z.shiftr (u32 base) 24) |}.

Definition SEG16 (type base lim dpl : Z) : segdesc := {|
  sd_lim_15_0 := bitf 16 (Z.land lim 0xffff);
  sd_base_15_0 := bitf 16 (Z.land (u32 base) 0xffff);
  sd_base_23_16 := bitf 8 (Z.land (Z.shiftr (u32 base) 16) 0xff);
  sd_type := bitf 4 type; sd_s := 1; sd_dpl := bitf 2 dpl; sd_p := 1;
  sd_lim_19_16 := bitf 4 (Z.shiftr (u32 lim) 16);
  sd_avl := 0; sd_rsv1 := 0; sd_db := 1; sd_g := 0;
  sd_base_31_24 := bitf 8 (Z.shiftr (u32 base) 24) |}.

Record gatedesc := {
  gd_off_15_0 : Z; gd_cs : Z; gd_args : Z; gd_rsv1 : Z; gd_type : Z;
  gd_s : Z; gd_dpl : Z; gd_p : Z; gd_off_31_16 : Z }.

Definition SETGATE (istrap : bool) (sel off d : Z) : gatedesc := {|
  gd_off_15_0 := bitf 16 (Z.land (u32 off) 0xffff);
  gd_cs := bitf 16 sel; gd_args := 0; gd_rsv1 := 0;
  gd_type := bitf 4 (if istrap then STS_TG32 else STS_IG32);
  gd_s := 0; gd_dpl := bitf 2 d; gd_p := 1;
  gd_off_31_16 := bitf 16 (Z.shiftr (u32 off) 16) |}.

(** What the processor makes of a descriptor: the address a gate jumps to and
    the linear base and (byte) limit of a segment. *)
Definition gate_offset (g : gatedesc) : Z :=
  Z.lor (gd_off_15_0 g) (Z.shiftl (gd_off_31_16 g) 16).
Definition seg_base (d : segdesc) : Z :=
  Z.lor (Z.lor (sd_base_15_0 d) (Z.shiftl (sd_base_23_16 d) 16))
        (Z.shiftl (sd_base_31_24 d) 24).
Definition seg_limit (d : segdesc) : Z :=
  let raw := Z.lor (sd_lim_15_0 d) (Z.shiftl (sd_lim_19_16 d) 16) in
  if sd_g d =? 1 then Z.lor (Z.shiftl raw 12) 0xfff else raw.

(** ** Arithmetic readings of the macros *)

Ltac mmu_consts :=
  unfold KERNLINK, PDXSHIFT, PTXSHIFT, PGSIZE, NPDENTRIES, NPTENTRIES, KERNBASE, PHYSTOP,
    EXTMEM, DEVSPACE, PTE_P, PTE_W, PTE_U, is_u32 in *.

Lemma u32_lnot_pgmask : u32 (Z.lnot (PGSIZE - 1)) = 2 ^ 32 - 2 ^ 12.
Proof. reflexivity. Qed.

Lemma PDX_div va : is_u32 va → PDX va = va / 2 ^ 22.
Proof.
  intros Hva. unfold PDX, PDXSHIFT. rewrite u32_id by done.
  change 0x3FF with (2 ^ 10 - 1). rewrite land_low by lia.
  rewrite Z.shiftr_div_pow2 by lia. unfold is_u32 in Hva.
  rewrite Z.mod_small; [done|]. zdm.
Qed.

Lemma PTX_div va : is_u32 va → PTX va = (va / 4096) mod 1024.
Proof.
  intros Hva. unfold PTX, PTXSHIFT. rewrite u32_id by done.
  change 0x3FF with (2 ^ 10 - 1). rewrite land_low by lia.
  by rewrite Z.shiftr_div_pow2 by lia.
Qed.

Lemma PGROUNDDOWN_mod a : is_u32 a → PGROUNDDOWN a = a - a mod 4096.
Proof.
  intros. unfold PGROUNDDOWN. rewrite u32_lnot_pgmask, u32_id by done.
  by rewrite (land_high 12) by (done || lia).
Qed.

Lemma PGROUNDUP_mod sz :
  0 ≤ sz → sz + 4095 < 2 ^ 32 → PGROUNDUP sz = (sz + 4095) / 4096 * 4096.
Proof.
  intros. unfold PGROUNDUP. rewrite u32_lnot_pgmask.
  rewrite u32_id by (mmu_consts; lia).
  rewrite (land_high 12) by (mmu_consts; lia). mmu_consts. zdm.
Qed.

Lemma PTE_ADDR_mod v : is_u32 v → PTE_ADDR v = v - v mod 4096.
Proof.
  intros. unfold PTE_ADDR. change (u32 (Z.lnot 0xFFF)) with (2 ^ 32 - 2 ^ 12).
  rewrite u32_id by done. by rewrite (land_high 12) by (done || lia).
Qed.

Lemma PTE_FLAGS_mod v : is_u32 v → PTE_FLAGS v = v mod 4096.
Proof.
  intros. unfold PTE_FLAGS. change 0xFFF with (2 ^ 12 - 1).
  rewrite u32_id by done. by rewrite land_low by lia.
Qed.

Lemma PGADDR_sum d t o :
  0 ≤ d < 1024 → 0 ≤ t < 1024 → 0 ≤ o < 4096 →
  PGADDR d t o = d * 2 ^ 22 + t * 4096 + o.
Proof.
  intros. unfold PGADDR, PDXSHIFT, PTXSHIFT.
  rewrite !Z.shiftl_mul_pow2 by lia.
  rewrite (lor_low 22 ltac:(lia) (d * 2 ^ 22)) by zdm.
  rewrite (lor_low 12) by zdm.
  rewrite u32_id; mmu_consts; lia.
Qed.

Lemma V2P_sub a : KERNBASE ≤ a < 2 ^ 32 → V2P a = a - KERNBASE.
Proof. intros. unfold V2P. apply u32_id. mmu_consts. lia. Qed.

Lemma P2V_add a : 0 ≤ a < KERNBASE → P2V a = a + KERNBASE.
Proof. intros. unfold P2V. apply u32_id. mmu_consts. lia. Qed.

Lemma P2V_V2P a : is_u32 a → P2V (V2P a) = a.
Proof.
  intros. unfold P2V, V2P, u32. rewrite Zplus_mod_idemp_l.
  replace (a - KERNBASE + KERNBASE) with a by lia. by apply u32_id.
Qed.

(** ** Properties *)

(** splitting an address with [PDX], [PTX] and the page offset loses
    nothing: [PGADDR] rebuilds every 32-bit address from its parts. *)
Theorem pgaddr_roundtrip va :
  is_u32 va → PGADDR (PDX va) (PTX va) (va mod PGSIZE) = va.
Proof.
  intros Hva. rewrite PDX_div, PTX_div by done. mmu_consts.
  rewrite PGADDR_sum; zdm.
Qed.

Lemma gate_roundtrip istrap sel off d :
  is_u32 off → gate_offset (SETGATE istrap sel off d) = off.
Proof.
  intros Ho. unfold gate_offset, SETGATE, bitf; cbn -[Z.lor Z.land Z.pow].
  rewrite !(u32_id off) by done. change 0xffff with (2 ^ 16 - 1).
  rewrite land_low, Z.shiftr_div_pow2, Z.shiftl_mul_pow2 by lia.
  rewrite (Z.lor_comm (_ mod _ mod _)), (lor_low 16 ltac:(lia) (_ * 2 ^ 16)) by zdm.
  revert Ho. mmu_consts. intros. zdm.
Qed.

(** the descriptor macros scatter an address over bit-fields without losing
    any of it: the processor reads back the handler address from a gate, and the
    base and the page-granular limit from a segment. *)
Theorem gate_segment_roundtrip istrap sel off d type base lim dpl :
  is_u32 off → is_u32 base → is_u32 lim →
  gate_offset (SETGATE istrap sel off d) = off ∧
  seg_base (SEG type base lim dpl) = base ∧
  seg_limit (SEG type base lim dpl) = lim - lim mod PGSIZE + (PGSIZE - 1) ∧
  seg_base (SEG16 type base lim dpl) = base.
Proof.
  intros Ho Hb Hl. split; [by apply gate_roundtrip|].
  unfold seg_base, seg_limit, SEG, SEG16, bitf; cbn -[Z.lor Z.land Z.pow].
  rewrite !(u32_id base), !(u32_id lim) by done.
  change 0xffff with (2 ^ 16 - 1). change 0xff with (2 ^ 8 - 1).
  rewrite !land_low, !Z.shiftr_div_pow2, !Z.shiftl_mul_pow2 by lia.
  rewrite !(Z.lor_comm (_ mod _ mod _)).
  rewrite !(lor_low 16 ltac:(lia) (_ * 2 ^ 16)) by zdm.
  rewrite !(Z.lor_comm _ (_ * 2 ^ 24)).
  rewrite !(lor_low 24 ltac:(lia) (_ * 2 ^ 24)) by zdm.
  rewrite !(lor_low 12 ltac:(lia) (_ * 2 ^ 12)) by zdm.
  revert Hb Hl. mmu_consts. intros. split_and!; zdm.
Qed.

Example pgaddr_roundtrip_witness : PGADDR (PDX 0x80105123) (PTX 0x80105123) 0x123 = 0x80105123.
Proof. apply (pgaddr_roundtrip 0x80105123). mmu_consts. lia. Defined.

Example gate_segment_roundtrip_witness :
  gate_offset (SETGATE true 8 0x80105f2a 3) = 0x80105f2a ∧
  seg_base (SEG 10 0 0xffffffff 3) = 0 ∧ seg_limit (SEG 10 0 0xffffffff 3) = 0xffffffff ∧
  seg_base (SEG16 10 0 0xffffffff 3) = 0.
Proof. apply (gate_segment_roundtrip true 8 0x80105f2a 3 10 0 0xffffffff 3); mmu_consts; lia. Defined.
