(* ===== verification/CString.v ===== *)
(** * string.c and the string part of ulib.c, over a byte memory

    Memory is a finite map from addresses to bytes; an address that was never
    written reads as 0.  The routines loop over addresses exactly as the C
    code does, counting their [uint]/[int] argument down as a [nat]. *)

From S2P Require Import Prelude Mmu.

Abbreviation ram := (gmap Z Z).

Definition load8 (m : ram) (a : Z) : Z := u8 (default 0 (m !! a)).
Definition store8 (a v : Z) (m : ram) : ram := <[a := u8 v]> m.

(** little-endian 32-bit accesses *)
Definition load32 (m : ram) (a : Z) : Z :=
  load8 m a + load8 m (a + 1) * 2 ^ 8 + load8 m (a + 2) * 2 ^ 16 + load8 m (a + 3) * 2 ^ 24.
Definition store32 (a v : Z) (m : ram) : ram :=
  store8 (a + 3) (v / 2 ^ 24) (store8 (a + 2) (v / 2 ^ 16)
    (store8 (a + 1) (v / 2 ^ 8) (store8 a v m))).

(** ** x86.h: rep stosb / rep stosl *)

Fixpoint stosb (addr data : Z) (cnt : nat) (m : ram) : ram :=
  match cnt with
  | O => m
  | S cnt => stosb (addr + 1) data cnt (store8 addr data m)
  end.

Fixpoint stosl (addr data : Z) (cnt : nat) (m : ram) : ram :=
  match cnt with
  | O => m
  | S cnt => stosl (addr + 4) data cnt (store32 addr data m)
  end.

(** ** string.c *)

Definition memset (dst c n : Z) (m : ram) : ram :=
  if (Z.rem (i32 dst) 4 =? 0) && (n mod 4 =? 0) then
    let c := Z.land c 0xFF in
    stosl dst (u32 (Z.lor (Z.lor (Z.lor (Z.shiftl c 24) (Z.shiftl c 16)) (Z.shiftl c 8)) c))
      (Z.to_nat (n / 4)) m
  else stosb dst c (Z.to_nat n) m.

Fixpoint memcmp_loop (m : ram) (s1 s2 : Z) (n : nat) : Z :=
  match n with
  | O => 0
  | S n =>
      if load8 m s1 =? load8 m s2 then memcmp_loop m (s1 + 1) (s2 + 1) n
      else load8 m s1 - load8 m s2
  end.
Definition memcmp (m : ram) (v1 v2 n : Z) : Z := memcmp_loop m v1 v2 (Z.to_nat n).

(** [while(n-- > 0) *--d = *--s;] and [while(n-- > 0) *d++ = *s++;] *)
Fixpoint copy_down (d s : Z) (n : nat) (m : ram) : ram :=
  match n with
  | O => m
  | S n => copy_down (d - 1) (s - 1) n (store8 (d - 1) (load8 m (s - 1)) m)
  end.
Fixpoint copy_up (d s : Z) (n : nat) (m : ram) : ram :=
  match n with
  | O => m
  | S n => copy_up (d + 1) (s + 1) n (store8 d (load8 m s) m)
  end.

Definition memmove (dst src n : Z) (m : ram) : ram :=
  if (src <? dst) && (dst <? src + n) then
    copy_down (dst + n) (src + n) (Z.to_nat n) m
  else copy_up dst src (Z.to_nat n) m.

Definition memcpy (dst src n : Z) (m : ram) : ram := memmove dst src n m.

Fixpoint strncmp_loop (m : ram) (p q : Z) (n : nat) : Z :=
  match n with
  | O => 0
  | S n' =>
      if negb (load8 m p =? 0) && (load8 m p =? load8 m q)
      then strncmp_loop m (p + 1) (q + 1) n'
      else load8 m p - load8 m q
  end.
Definition strncmp (m : ram) (p q n : Z) : Z := strncmp_loop m p q (Z.to_nat n).

(** the zero-fill loop [while(n-- > 0) *s++ = 0;] *)
Fixpoint zero_fill (s : Z) (n : nat) (m : ram) : ram :=
  match n with
  | O => m
  | S n => zero_fill (s + 1) n (store8 s 0 m)
  end.
Fixpoint strncpy_loop (s t : Z) (n : nat) (m : ram) : ram :=
  match n with
  | O => m
  | S n =>
      let c := load8 m t in
      let m := store8 s c m in
      if c =? 0 then zero_fill (s + 1) n m else strncpy_loop (s + 1) (t + 1) n m
  end.
Definition strncpy (s t n : Z) (m : ram) : ram := strncpy_loop s t (Z.to_nat n) m.

(** [while(--n > 0 && ( *s++ = *t++) != 0);] then [*s = 0;], on [n - 1] *)
Fixpoint safestrcpy_loop (s t : Z) (n : nat) (m : ram) : ram :=
  match n with
  | O => store8 s 0 m
  | S n =>
      let c := load8 m t in
      let m := store8 s c m in
      if c =? 0 then store8 (s + 1) 0 m else safestrcpy_loop (s + 1) (t + 1) n m
  end.
Definition safestrcpy (s t n : Z) (m : ram) : ram :=
  if n <=? 0 then m else safestrcpy_loop s t (Z.to_nat (n - 1)) m.

(** [for(n = 0; s[n]; n++)], with the number of bytes it may look at *)
Fixpoint strlen_loop (m : ram) (s n : Z) (fuel : nat) : option Z :=
  match fuel with
  | O => None
  | S fuel => if load8 m (s + n) =? 0 then Some n else strlen_loop m s (n + 1) fuel
  end.
Definition strlen (fuel : nat) (m : ram) (s : Z) : option Z := strlen_loop m s 0 fuel.

(** ** Memory laws *)

Lemma load8_range m a : 0 ≤ load8 m a < 256.
Proof. unfold load8, u8. apply Z.mod_pos_bound. lia. Qed.

Lemma u8_load8 m a : u8 (load8 m a) = load8 m a.
Proof. unfold u8. apply Z.mod_small, load8_range. Qed.

Lemma load8_store8 m a v b :
  load8 (store8 a v m) b = if decide (b = a) then u8 v else load8 m b.
Proof.
  unfold load8, store8. rewrite lookup_insert.
  destruct (decide (b = a)) as [->|].
  - rewrite decide_True by done. cbn. unfold u8. by rewrite Z.mod_mod by lia.
  - by rewrite decide_False by congruence.
Qed.

Lemma load32_range m a : is_u32 (load32 m a).
Proof.
  unfold load32, is_u32.
  pose proof (load8_range m a). pose proof (load8_range m (a + 1)).
  pose proof (load8_range m (a + 2)). pose proof (load8_range m (a + 3)). lia.
Qed.

Lemma load8_store32 m a v b :
  load8 (store32 a v m) b =
  if decide (a ≤ b < a + 4) then u8 (v / 2 ^ (8 * (b - a))) else load8 m b.
Proof.
  unfold store32. rewrite !load8_store8.
  repeat case_decide; try lia; subst; try done;
    repeat match goal with
    | |- context [?x - ?x] => rewrite Z.sub_diag
    | |- context [?x + ?k - ?x] => replace (x + k - x) with k by lia
    end; try done; try (rewrite Z.div_1_r; done).
Qed.

Lemma load32_store32 m a v : load32 (store32 a v m) a = u32 v.
Proof.
  unfold load32. rewrite !load8_store32. rewrite !decide_True by lia.
  replace (a - a) with 0 by lia. replace (a + 1 - a) with 1 by lia.
  replace (a + 2 - a) with 2 by lia. replace (a + 3 - a) with 3 by lia.
  unfold u8, u32. cbn [Z.mul Pos.mul]. change (2 ^ (8 * 0)) with 1.
  change (2 ^ (8 * 1)) with 256. change (2 ^ (8 * 2)) with 65536.
  change (2 ^ (8 * 3)) with 16777216. change (2 ^ 8) with 256.
  change (2 ^ 16) with 65536. change (2 ^ 24) with 16777216.
  change (2 ^ 32) with 4294967296. zdm.
Qed.

Lemma load32_ext m m' a :
  (∀ b, a ≤ b < a + 4 → load8 m b = load8 m' b) → load32 m a = load32 m' a.
Proof. intros H. unfold load32. by rewrite !H by lia. Qed.

Lemma load32_store32_ne m a v b :
  b + 4 ≤ a ∨ a + 4 ≤ b → load32 (store32 a v m) b = load32 m b.
Proof.
  intros. apply load32_ext. intros c ?. rewrite load8_store32.
  by rewrite decide_False by lia.
Qed.

Lemma load8_stosb m addr data cnt b :
  load8 (stosb addr data cnt m) b =
  if decide (addr ≤ b < addr + Z.of_nat cnt) then u8 data else load8 m b.
Proof.
  revert addr m. induction cnt as [|cnt IH]; intros addr m; cbn [stosb].
  - by rewrite decide_False by lia.
  - rewrite IH, load8_store8. repeat case_decide; lia || done.
Qed.

Lemma load8_stosl m addr data cnt b :
  load8 (stosl addr data cnt m) b =
  if decide (addr ≤ b < addr + 4 * Z.of_nat cnt)
  then u8 (data / 2 ^ (8 * ((b - addr) mod 4))) else load8 m b.
Proof.
  revert addr m. induction cnt as [|cnt IH]; intros addr m; cbn [stosl].
  - by rewrite decide_False by lia.
  - rewrite IH, load8_store32. repeat case_decide; try lia; try done.
    + do 4 f_equal. replace (b - (addr + 4)) with ((b - addr) + (-1) * 4) by lia.
      by rewrite Z.mod_add by lia.
    + do 4 f_equal. rewrite Z.mod_small; lia.
Qed.

(** the 32-bit pattern [memset] broadcasts has the byte in every position *)
Lemma memset_pattern c k :
  0 ≤ c < 256 → 0 ≤ k < 4 →
  u8 (u32 (Z.lor (Z.lor (Z.lor (Z.shiftl c 24) (Z.shiftl c 16)) (Z.shiftl c 8)) c)
        / 2 ^ (8 * k)) = c.
Proof.
  intros Hc Hk. rewrite !Z.shiftl_mul_pow2 by lia.
  rewrite (lor_low 24 ltac:(lia) (c * 2 ^ 24) (c * 2 ^ 16)) by zdm.
  rewrite (lor_low 16 ltac:(lia) _ (c * 2 ^ 8)) by zdm.
  rewrite (lor_low 8 ltac:(lia) _ c) by zdm.
  rewrite u32_id by (unfold is_u32; lia). unfold u8.
  assert (k = 0 ∨ k = 1 ∨ k = 2 ∨ k = 3) as [->|[->|[->| ->]]] by lia;
    cbn [Z.mul Pos.mul Z.pow Z.pow_pos Pos.iter]; zdm.
Qed.

(** ** Properties of string.c *)

Theorem memset_ok dst c n m b :
  0 ≤ n →
  load8 (memset dst c n m) b =
  if decide (dst ≤ b < dst + n) then u8 c else load8 m b.
Proof.
  intros Hn. unfold memset.
  destruct ((Z.rem (i32 dst) 4 =? 0) && (n mod 4 =? 0)) eqn:E.
  - apply andb_true_iff in E as [_ E%Z.eqb_eq].
    change 0xFF with (2 ^ 8 - 1). rewrite land_low by lia.
    rewrite load8_stosl.
    replace (4 * Z.of_nat (Z.to_nat (n / 4))) with n by zdm.
    case_decide; [|done]. apply memset_pattern.
    + apply Z.mod_pos_bound. lia.
    + apply Z.mod_pos_bound. lia.
  - rewrite load8_stosb. by rewrite Z2Nat.id.
Qed.

Lemma load8_copy_up m d s n b :
  d ≤ s ∨ s + Z.of_nat n ≤ d →
  load8 (copy_up d s n m) b =
  if decide (d ≤ b < d + Z.of_nat n) then load8 m (s + (b - d)) else load8 m b.
Proof.
  revert d s m. induction n as [|n IH]; intros d s m H; cbn [copy_up].
  - by rewrite decide_False by lia.
  - rewrite IH by lia. rewrite !load8_store8, u8_load8.
    repeat case_decide; try lia; try done; subst; f_equal; lia.
Qed.

Lemma load8_copy_down m d s n b :
  s ≤ d →
  load8 (copy_down d s n m) b =
  if decide (d - Z.of_nat n ≤ b < d) then load8 m (s + (b - d)) else load8 m b.
Proof.
  revert d s m. induction n as [|n IH]; intros d s m H; cbn [copy_down].
  - by rewrite decide_False by lia.
  - rewrite IH by lia. rewrite !load8_store8, u8_load8.
    repeat case_decide; try lia; try done; subst; f_equal; lia.
Qed.

(** [memmove] copies the bytes the source held before the call, however
    the two regions overlap, and changes nothing else. *)
Theorem memmove_ok dst src n m b :
  0 ≤ n →
  load8 (memmove dst src n m) b =
  if decide (dst ≤ b < dst + n) then load8 m (src + (b - dst)) else load8 m b.
Proof.
  intros Hn. unfold memmove.
  destruct ((src <? dst) && (dst <? src + n)) eqn:E.
  - rewrite load8_copy_down by lia.
    replace (dst + n - Z.of_nat (Z.to_nat n)) with dst by lia.
    case_decide; [|done]. f_equal. lia.
  - rewrite load8_copy_up by lia. by rewrite Z2Nat.id.
Qed.

(** The C string of at most [n] bytes at [p]: the bytes before the first NUL. *)
Fixpoint cstrn (m : ram) (p : Z) (n : nat) : list Z :=
  match n with
  | O => []
  | S n => if load8 m p =? 0 then [] else load8 m p :: cstrn m (p + 1) n
  end.

Lemma cstrn_length m p n : (length (cstrn m p n) ≤ n)%nat.
Proof.
  revert p. induction n as [|n IH]; intros p; cbn; [lia|].
  destruct (_ =? 0); cbn; [lia|]. specialize (IH (p + 1)). lia.
Qed.

Lemma cstrn_ext m m' p p' n :
  (∀ i, 0 ≤ i < Z.of_nat n → load8 m (p + i) = load8 m' (p' + i)) →
  cstrn m p n = cstrn m' p' n.
Proof.
  revert p p'. induction n as [|n IH]; intros p p' H; cbn; [done|].
  pose proof (H 0 ltac:(lia)) as H0. rewrite !Z.add_0_r in H0. rewrite H0.
  destruct (_ =? 0); [done|]. f_equal. apply IH. intros i Hi.
  replace (p + 1 + i) with (p + (i + 1)) by lia.
  replace (p' + 1 + i) with (p' + (i + 1)) by lia. apply H. lia.
Qed.

(** [strncmp] returns 0 exactly when the two C strings, cut at [n] bytes,
    are equal; this is the name comparison of directory lookup. *)
Theorem strncmp_zero m p q n :
  strncmp m p q n = 0 ↔ cstrn m p (Z.to_nat n) = cstrn m q (Z.to_nat n).
Proof.
  unfold strncmp. generalize (Z.to_nat n) as k. clear n. intros k.
  revert p q. induction k as [|k IH]; intros p q; cbn; [done|].
  pose proof (load8_range m p). pose proof (load8_range m q).
  destruct (Z.eqb_spec (load8 m p) 0) as [Ep|Ep]; cbn [negb andb].
  - rewrite Ep. destruct (Z.eqb_spec (load8 m q) 0); split; lia || done.
  - destruct (Z.eqb_spec (load8 m p) (load8 m q)) as [Epq|Epq].
    + rewrite <- Epq, (proj2 (Z.eqb_neq _ 0) Ep), IH. split; congruence.
    + destruct (Z.eqb_spec (load8 m q) 0); split; intros; simplify_eq; lia.
Qed.

Lemma load8_zero_fill m s n b :
  load8 (zero_fill s n m) b =
  if decide (s ≤ b < s + Z.of_nat n) then 0 else load8 m b.
Proof.
  revert s m. induction n as [|n IH]; intros s m; cbn [zero_fill].
  - by rewrite decide_False by lia.
  - rewrite IH, load8_store8. repeat case_decide; lia || done.
Qed.

(** where a copy loop that stops at the first NUL reads its bytes from *)
Lemma load8_strncpy_loop m s t n b :
  s + Z.of_nat n ≤ t ∨ t + Z.of_nat n ≤ s →
  load8 (strncpy_loop s t n m) b =
  if decide (s ≤ b < s + Z.of_nat n)
  then nth (Z.to_nat (b - s)) (cstrn m t n) 0 else load8 m b.
Proof.
  revert s t m. induction n as [|n IH]; intros s t m H; cbn [strncpy_loop].
  - by rewrite decide_False by lia.
  - cbn [cstrn]. destruct (Z.eqb_spec (load8 m t) 0) as [E|E].
    + rewrite load8_zero_fill, load8_store8, E.
      assert (Hn : ∀ k, nth k (@nil Z) 0 = 0) by (by intros []).
      rewrite Hn. repeat case_decide; lia || done.
    + rewrite IH by lia.
      rewrite (cstrn_ext (store8 s (load8 m t) m) m (t + 1) (t + 1) n).
      2: { intros i Hi. rewrite load8_store8. by rewrite decide_False by lia. }
      rewrite load8_store8, u8_load8. repeat case_decide; try lia; try done.
      * replace (Z.to_nat (b - s)) with (S (Z.to_nat (b - (s + 1)))) by lia. done.
      * subst. by rewrite Z.sub_diag.
Qed.

(** [safestrcpy] into an [n]-byte buffer (not overlapping the source) always
    leaves a NUL-terminated string, which is the source cut at [n-1] bytes, and
    writes no byte outside the buffer. *)
Theorem safestrcpy_spec m s t n :
  0 < n → s + n ≤ t ∨ t + n ≤ s →
  let m' := safestrcpy s t n m in
  cstrn m' s (Z.to_nat n) = cstrn m t (Z.to_nat (n - 1)) ∧
  load8 m' (s + Z.of_nat (length (cstrn m t (Z.to_nat (n - 1))))) = 0 ∧
  (∀ b, ¬ (s ≤ b < s + n) → load8 m' b = load8 m b).
Proof.
  intros Hn Hov. cbn zeta. unfold safestrcpy.
  rewrite (proj2 (Z.leb_gt n 0)) by lia.
  replace (Z.to_nat n) with (S (Z.to_nat (n - 1))) by lia.
  remember (Z.to_nat (n - 1)) as k eqn:Hk.
  assert (Hov' : s + Z.of_nat k < t ∨ t + Z.of_nat k < s) by lia.
  assert (Hb : ∀ b, ¬ (s ≤ b < s + n) → ¬ (s ≤ b ≤ s + Z.of_nat k)) by lia.
  clear Hov Hn Hk.
  enough (cstrn (safestrcpy_loop s t k m) s (S k) = cstrn m t k ∧
    load8 (safestrcpy_loop s t k m) (s + Z.of_nat (length (cstrn m t k))) = 0 ∧
    ∀ b, ¬ (s ≤ b ≤ s + Z.of_nat k) → load8 (safestrcpy_loop s t k m) b = load8 m b)
    by (destruct_and!; split_and!; auto).
  clear Hb n. revert s t m Hov'. induction k as [|k IH]; intros s t m Hov.
  - cbn. rewrite Z.add_0_r, load8_store8, decide_True by done. cbn.
    split_and!; [done..|]. intros b ?. rewrite load8_store8.
    by rewrite decide_False by lia.
  - cbn [safestrcpy_loop]. destruct (Z.eqb_spec (load8 m t) 0) as [E|E].
    + cbn [cstrn]. rewrite E. cbn. rewrite Z.add_0_r, !load8_store8.
      rewrite decide_False, decide_True by lia. cbn.
      split_and!; [done..|]. intros b ?. rewrite !load8_store8.
      by rewrite !decide_False by lia.
    + destruct (IH (s + 1) (t + 1) (store8 s (load8 m t) m)) as (H1 & H2 & H3); [lia|].
      assert (Hs : load8 (safestrcpy_loop (s + 1) (t + 1) k (store8 s (load8 m t) m)) s
                   = load8 m t).
      { rewrite H3 by lia. rewrite load8_store8, decide_True by done. apply u8_load8. }
      rewrite (cstrn_ext (store8 s (load8 m t) m) m (t + 1) (t + 1) k) in H1, H2.
      2,3: (intros i Hi; rewrite load8_store8; by rewrite decide_False by lia).
      cbn [cstrn]. rewrite Hs, (proj2 (Z.eqb_neq _ 0) E).
      cbn [cstrn] in H1. rewrite H1. split_and!; [done| |].
      * rewrite <- H2. f_equal. cbn [length]. lia.
      * intros b ?. rewrite H3 by lia. rewrite load8_store8. by rewrite decide_False by lia.
Qed.
