(* ===== verification/Kalloc.v ===== *)
(** * kalloc.c: the physical page allocator

    The free list is threaded through the free pages themselves: the first
    word of a free page holds the kernel virtual address of the next one.
    Memory is indexed by kernel virtual address.  The critical sections under
    [kmem.lock] are single steps of the model. *)

From S2P Require Import Prelude Mmu CString.

(** Symbols the linker provides (kernel.ld): [end], the first address after
    the kernel, and [data], the page-aligned start of its data segment. *)
Class KernelImage := {
  kend : Z;
  kdata : Z;
  kdata_aligned : kdata mod PGSIZE = 0;
  kdata_above : KERNLINK < kdata;
  kend_above : kdata < kend;
  kend_below : kend < KERNBASE + PHYSTOP }.

(** the image recorded in kernel.sym *)
#[export] Program Instance kernel_sym : KernelImage | 100 :=
  {| kend := 0x801154a8; kdata := 0x80108000 |}.
Solve All Obligations with (cbn; done || (mmu_consts; lia)).

Record phys := { mem : ram; use_lock : bool; freelist : Z }.

Definition set_mem (m : ram) (s : phys) : phys :=
  {| mem := m; use_lock := use_lock s; freelist := freelist s |}.
Definition set_use_lock (b : bool) (s : phys) : phys :=
  {| mem := mem s; use_lock := b; freelist := freelist s |}.
Definition set_freelist (f : Z) (s : phys) : phys :=
  {| mem := mem s; use_lock := use_lock s; freelist := f |}.

Definition rd32 (a : Z) : M phys Z := gets (λ s, load32 (mem s) a).
Definition wr32 (a v : Z) : M phys unit := modify (λ s, set_mem (store32 a v (mem s)) s).
Definition on_mem (f : ram → ram) : M phys unit := modify (λ s, set_mem (f (mem s)) s).

Section kalloc.
  Context `{KernelImage}.

Definition kfree (v : Z) : M phys unit :=
  if negb (v mod PGSIZE =? 0) || (v <? kend) || (PHYSTOP <=? V2P v)
  then panic "kfree"
  else
    _ ← on_mem (memset v 1 PGSIZE);
    head ← gets freelist;
    _ ← wr32 v head;
    modify (set_freelist v).

Definition kalloc : M phys Z :=
  r ← gets freelist;
  if r =? 0 then mret r
  else
    next ← rd32 r;
    _ ← modify (set_freelist next);
    mret r.

Fixpoint freerange_loop (fuel : nat) (p vend : Z) : M phys unit :=
  match fuel with
  | O => λ _, NoFuel
  | S fuel =>
      if u32 (p + PGSIZE) <=? vend then
        _ ← kfree p;
        freerange_loop fuel (u32 (p + PGSIZE)) vend
      else mret ()
  end.

(** one iteration per page of the range, and one to leave the loop *)
Definition freerange (vstart vend : Z) : M phys unit :=
  let p := PGROUNDUP vstart in
  freerange_loop (S (Z.to_nat ((vend - p) / PGSIZE))) p vend.

Definition kinit1 (vstart vend : Z) : M phys unit :=
  _ ← modify (set_use_lock false);
  freerange vstart vend.

Definition kinit2 (vstart vend : Z) : M phys unit :=
  _ ← freerange vstart vend;
  modify (set_use_lock true).

(** ** The allocator invariant *)

(** a page the allocator may hold: what [kfree] accepts *)
Definition is_page (p : Z) : Prop :=
  p mod PGSIZE = 0 ∧ kend ≤ p ∧ p < KERNBASE + PHYSTOP.

#[export] Instance is_page_dec p : Decision (is_page p).
Proof. unfold is_page. apply _. Defined.

(** the chain of pages starting at [head] *)
Fixpoint chain (m : ram) (head : Z) (l : list Z) : Prop :=
  match l with
  | [] => head = 0
  | p :: l => head = p ∧ chain m (load32 m p) l
  end.

#[export] Instance chain_dec m head l : Decision (chain m head l).
Proof. revert head. induction l as [|p l IH]; intros head; cbn; apply _. Defined.

Record kmem_ok (s : phys) (fl : list Z) : Prop := {
  km_chain : chain (mem s) (freelist s) fl;
  km_pages : Forall is_page fl;
  km_nodup : NoDup fl }.

(** two memories that agree outside a set of pages *)
Definition same_outside (ps : list Z) (m m' : ram) : Prop :=
  ∀ b, (∀ p, p ∈ ps → ¬ (p ≤ b < p + PGSIZE)) → load8 m' b = load8 m b.

Lemma is_page_range p : is_page p → KERNLINK < p < KERNBASE + PHYSTOP ∧ p mod 4096 = 0.
Proof.
  intros (? & ? & ?). pose proof kdata_above. pose proof kend_above.
  unfold PGSIZE in *. lia.
Qed.

Lemma is_page_u32 p : is_page p → is_u32 p.
Proof. intros Hp%is_page_range. mmu_consts. lia. Qed.

Lemma is_page_nonzero p : is_page p → p ≠ 0.
Proof. intros Hp%is_page_range. mmu_consts. lia. Qed.

Lemma is_page_V2P p : is_page p → V2P p = p - KERNBASE.
Proof. intros Hp%is_page_range. apply V2P_sub. mmu_consts. lia. Qed.

(** distinct pages do not overlap *)
Lemma page_disjoint p q b :
  is_page p → is_page q → p ≠ q → p ≤ b < p + PGSIZE → ¬ (q ≤ b < q + PGSIZE).
Proof. intros Hp%is_page_range Hq%is_page_range. mmu_consts. intros. zdm. Qed.

Lemma same_outside_refl ps m : same_outside ps m m.
Proof. by intros b ?. Qed.

Lemma same_outside_trans ps m1 m2 m3 :
  same_outside ps m1 m2 → same_outside ps m2 m3 → same_outside ps m1 m3.
Proof. intros H1 H2 b Hb. by rewrite H2, H1. Qed.

Lemma same_outside_mono ps qs m m' :
  ps ⊆ qs → same_outside ps m m' → same_outside qs m m'.
Proof. intros Hsub Hs b Hb. apply Hs. eauto. Qed.

Lemma same_outside_load32 ps m m' q a :
  same_outside ps m m' → Forall is_page ps → is_page q → q ∉ ps →
  q ≤ a → a + 4 ≤ q + PGSIZE → load32 m' a = load32 m a.
Proof.
  intros Hs Hps Hq Hnin Ha Ha'. apply load32_ext. intros b Hb. apply Hs.
  intros p Hp Hin. rewrite Forall_forall in Hps.
  apply (page_disjoint p q b); [by apply Hps|done|by intros ->|done|lia].
Qed.

Lemma chain_same m m' head l :
  (∀ p, p ∈ l → load32 m' p = load32 m p) → chain m head l → chain m' head l.
Proof.
  revert head. induction l as [|p l IH]; intros head Heq Hc; [done|].
  destruct Hc as [-> Hc]. split; [done|]. rewrite Heq by set_solver.
  apply IH; [set_solver|done].
Qed.

Lemma chain_same_outside ps m m' head l :
  same_outside ps m m' → Forall is_page ps → Forall is_page l →
  (∀ p, p ∈ l → p ∉ ps) → chain m head l → chain m' head l.
Proof.
  intros Hs Hps Hl Hdis. apply chain_same. intros p Hp.
  rewrite Forall_forall in Hl.
  apply (same_outside_load32 ps m m' p); auto; unfold PGSIZE; lia.
Qed.

(** the allocator survives any change of memory outside its free pages *)
Lemma kmem_ok_same s m' fl ps :
  kmem_ok s fl → same_outside ps (mem s) m' → Forall is_page ps →
  (∀ p, p ∈ fl → p ∉ ps) → kmem_ok (set_mem m' s) fl.
Proof.
  intros [Hc Hp Hn] Hs Hps Hd. split; [|done..].
  by eapply chain_same_outside.
Qed.

(** ** Operations *)

Lemma kalloc_nil s : kmem_ok s [] → kalloc s = Ret 0 s.
Proof.
  intros [Hc _ _]. cbn in Hc. unfold kalloc.
  erewrite bind_Ret by reflexivity. by rewrite Hc.
Qed.

Lemma kalloc_cons s p fl :
  kmem_ok s (p :: fl) →
  kalloc s = Ret p (set_freelist (load32 (mem s) p) s) ∧
  kmem_ok (set_freelist (load32 (mem s) p) s) fl ∧ is_page p ∧ p ∉ fl.
Proof.
  intros [[Hh Hc] Hp Hn]. apply Forall_cons in Hp as [Hp Hps].
  apply NoDup_cons in Hn as [Hnin Hn].
  unfold kalloc. erewrite bind_Ret by reflexivity. rewrite Hh.
  rewrite (proj2 (Z.eqb_neq p 0)) by (by apply is_page_nonzero).
  by split_and!.
Qed.

Lemma same_outside_memset p c n m :
  0 ≤ n ≤ PGSIZE → same_outside [p] m (memset p c n m).
Proof.
  intros Hn b Hb. rewrite memset_ok by lia. rewrite decide_False; [done|].
  intros ?. apply (Hb p); [by apply list_elem_of_singleton|lia].
Qed.

Lemma same_outside_store32 p a v m :
  p ≤ a → a + 4 ≤ p + PGSIZE → same_outside [p] m (store32 a v m).
Proof.
  intros ?? b Hb. rewrite load8_store32. rewrite decide_False; [done|].
  intros ?. apply (Hb p); [by apply list_elem_of_singleton|lia].
Qed.

Definition kfreed (p : Z) (s : phys) : phys :=
  set_freelist p (set_mem (store32 p (freelist s) (memset p 1 PGSIZE (mem s))) s).

Lemma kfree_eval s p : is_page p → kfree p s = Ret () (kfreed p s).
Proof.
  intros Hp. unfold kfree. rewrite is_page_V2P by done. destruct Hp as (H1 & H2 & H3).
  rewrite (proj2 (Z.eqb_eq _ 0) H1), (proj2 (Z.ltb_ge _ _) H2).
  rewrite (proj2 (Z.leb_gt PHYSTOP (p - KERNBASE))) by lia. cbn [negb orb].
  reflexivity.
Qed.

Lemma kfreed_same p s : same_outside [p] (mem s) (mem (kfreed p s)).
Proof.
  apply (same_outside_trans _ _ (memset p 1 PGSIZE (mem s))).
  - apply same_outside_memset. unfold PGSIZE. lia.
  - apply same_outside_store32; unfold PGSIZE; lia.
Qed.

Lemma kfreed_ok s p fl :
  kmem_ok s fl → is_page p → p ∉ fl → kmem_ok (kfreed p s) (p :: fl).
Proof.
  intros [Hc Hp Hn] Hpp Hnin. split; [|by constructor..].
  cbn. split; [done|]. rewrite load32_store32.
  assert (freelist s = u32 (freelist s)) as <-.
  { symmetry. apply u32_id. destruct fl as [|q fl]; cbn in Hc; [by rewrite Hc|].
    destruct Hc as [-> _]. apply is_page_u32. by inversion Hp. }
  eapply (chain_same_outside [p]); [apply kfreed_same|by constructor|done| |done].
  intros q Hq ->%list_elem_of_singleton. done.
Qed.

(** [kfree] panics on anything that is not a page of the pool *)
Lemma kfree_panic s p :
  KERNBASE ≤ p < 2 ^ 32 → ¬ is_page p → kfree p s = Panic "kfree".
Proof.
  intros Hr Hnp. unfold kfree. rewrite V2P_sub by done.
  destruct (Z.eqb_spec (p mod PGSIZE) 0); cbn; [|done].
  destruct (Z.ltb_spec p kend); cbn; [done|].
  destruct (Z.leb_spec PHYSTOP (p - KERNBASE)); cbn; [done|].
  destruct Hnp. unfold is_page. lia.
Qed.

(** ** Initialisation *)

(** the [n] pages from [p] on *)
Fixpoint pages (p : Z) (n : nat) : list Z :=
  match n with
  | O => []
  | S n => p :: pages (p + PGSIZE) n
  end.

Lemma elem_of_pages q p n :
  q ∈ pages p n ↔ ∃ k, 0 ≤ k < Z.of_nat n ∧ q = p + k * PGSIZE.
Proof.
  revert p. induction n as [|n IH]; intros p; cbn [pages].
  - split; [set_solver|]. intros (k & ? & _). lia.
  - rewrite elem_of_cons, IH. split.
    + intros [->|(k & ? & ->)]; [exists 0; lia|]. exists (k + 1). lia.
    + intros (k & ? & ->). destruct (decide (k = 0)) as [->|]; [left; lia|].
      right. exists (k - 1). lia.
Qed.

Lemma freerange_loop_spec n p vend s fl :
  0 ≤ p ≤ KERNBASE + PHYSTOP → vend ≤ KERNBASE + PHYSTOP → Z.to_nat ((vend - p) / PGSIZE) = n →
  Forall is_page (pages p n) → (∀ q, q ∈ fl → q ∉ pages p n) → kmem_ok s fl →
  ∃ s', freerange_loop (S n) p vend s = Ret () s' ∧
    kmem_ok s' (reverse (pages p n) ++ fl) ∧
    same_outside (pages p n) (mem s) (mem s') ∧ use_lock s' = use_lock s.
Proof.
  revert p s fl. induction n as [|n IH]; intros p s fl Hp Hv Hn Hpages Hfl Hok.
  - cbn. rewrite u32_id by (mmu_consts; zdm).
    rewrite (proj2 (Z.leb_gt _ _)) by (mmu_consts; zdm). cbn.
    eexists. split; [done|]. by split_and!.
  - pose proof Hpages as [Hpp Hrest]%Forall_cons.
    assert (Hle : p + PGSIZE ≤ vend) by (mmu_consts; zdm).
    cbn [freerange_loop]. rewrite u32_id by (mmu_consts; lia).
    rewrite (proj2 (Z.leb_le _ _) Hle).
    erewrite bind_Ret by (by apply kfree_eval).
    destruct (IH (p + PGSIZE) (kfreed p s) (p :: fl)) as (s' & Hrun & Hok' & Hs & Hu).
    + mmu_consts. lia.
    + done.
    + mmu_consts. zdm.
    + done.
    + cbn [pages] in Hfl. intros q [->|Hq]%elem_of_cons; [|set_solver].
      rewrite elem_of_pages. intros (k & ? & ?). unfold PGSIZE in *. lia.
    + apply kfreed_ok; [done..|]. intros ?. apply (Hfl p); cbn; [done|]. set_solver.
    + exists s'. split; [done|]. cbn [pages]. rewrite reverse_cons, <- app_assoc.
      split_and!; [done| |by rewrite Hu].
      eapply same_outside_trans; (eapply same_outside_mono; [|eassumption || apply kfreed_same]);
        set_solver.
Qed.

(** the pages that lie wholly inside [vstart, vend) *)
Definition range_pages (vstart vend : Z) : list Z :=
  pages (PGROUNDUP vstart) (Z.to_nat ((vend - PGROUNDUP vstart) / PGSIZE)).

Lemma freerange_spec vstart vend s fl :
  kend ≤ vstart ≤ vend → vend ≤ KERNBASE + PHYSTOP →
  (∀ q, q ∈ fl → q ∉ range_pages vstart vend) → kmem_ok s fl →
  ∃ s', freerange vstart vend s = Ret () s' ∧
    kmem_ok s' (reverse (range_pages vstart vend) ++ fl) ∧
    same_outside (range_pages vstart vend) (mem s) (mem s') ∧
    use_lock s' = use_lock s.
Proof.
  intros Hs He Hfl Hok.
  pose proof kdata_above. pose proof kend_above.
  unfold freerange, range_pages in *.
  rewrite PGROUNDUP_mod in * by (mmu_consts; lia).
  apply freerange_loop_spec; [mmu_consts; zdm|lia|done| |done|done].
  apply Forall_forall. intros q (k & Hk & ->)%elem_of_pages.
  unfold is_page. mmu_consts. zdm.
Qed.

(** [kinit1] puts exactly the whole pages of [[vstart, vend)] on the free
    list (the highest first), with the list well formed: every entry is a page
    [kfree] would accept, and no page is on it twice. *)
Theorem kinit1_spec vstart vend s :
  kend ≤ vstart ≤ vend → vend ≤ KERNBASE + PHYSTOP → freelist s = 0 →
  ∃ s', kinit1 vstart vend s = Ret () s' ∧
    kmem_ok s' (reverse (range_pages vstart vend)) ∧
    same_outside (range_pages vstart vend) (mem s) (mem s') ∧
    use_lock s' = false.
Proof.
  intros Hs He Hf. unfold kinit1. erewrite bind_Ret by reflexivity.
  destruct (freerange_spec vstart vend (set_use_lock false s) []) as (s' & H1 & H2 & H3 & H4);
    [done|done|set_solver|by split; [|constructor..]|].
  rewrite app_nil_r in H2. eauto.
Qed.

(** ** Clients of the allocator

    A client holds a list of pages: it obtains them with [kalloc], writes to
    them at will, and gives them back with [kfree]. *)
Inductive client : phys * list Z → phys * list Z → Prop :=
| client_alloc s held p s' :
    kalloc s = Ret p s' → p ≠ 0 → client (s, held) (s', p :: held)
| client_alloc_fail s held s' :
    kalloc s = Ret 0 s' → client (s, held) (s', held)
| client_write s held m' :
    same_outside held (mem s) m' → client (s, held) (set_mem m' s, held)
| client_free s held1 p held2 s' :
    kfree p s = Ret () s' → client (s, held1 ++ p :: held2) (s', held1 ++ held2).

Definition client_inv (pool : list Z) (c : phys * list Z) : Prop :=
  ∃ fl, kmem_ok c.1 fl ∧ c.2 ++ fl ≡ₚ pool.

Lemma client_preserves pool c c' :
  Forall is_page pool → NoDup pool → client_inv pool c → client c c' → client_inv pool c'.
Proof.
  intros Hpool Hnd (fl & Hok & Hperm) Hstep.
  assert (Hall : ∀ q, q ∈ c.2 ++ fl → is_page q).
  { intros q Hq. rewrite Hperm in Hq. by rewrite Forall_forall in Hpool; apply Hpool. }
  assert (Hdup : NoDup (c.2 ++ fl)) by (by rewrite Hperm).
  destruct Hstep as [s held p s' Hk Hp|s held s' Hk|s held m' Hs|s held1 p held2 s' Hk]; cbn in *.
  - destruct fl as [|q fl]; [rewrite kalloc_nil in Hk by done; congruence|].
    destruct (kalloc_cons _ _ _ Hok) as (Hk' & Hok' & _).
    rewrite Hk' in Hk. injection Hk as <- <-.
    exists fl. split; [done|]. rewrite <- Hperm. cbn. by rewrite Permutation_middle.
  - destruct fl as [|q fl].
    + rewrite kalloc_nil in Hk by done. simplify_eq. by exists [].
    + destruct (kalloc_cons _ _ _ Hok) as (Hk' & Hok' & Hq & _).
      rewrite Hk' in Hk. simplify_eq. by destruct (is_page_nonzero 0).
  - exists fl. split; [|done]. eapply kmem_ok_same; [done..| |].
    + apply Forall_forall. intros q ?. apply Hall. set_solver.
    + apply NoDup_app in Hdup as (_ & Hd & _). cbn. intros q Hq Hq'. by apply (Hd q).
  - assert (Hp : is_page p) by (apply Hall; set_solver).
    rewrite kfree_eval in Hk by done. simplify_eq. exists (p :: fl). split.
    + apply kfreed_ok; [done..|]. apply NoDup_app in Hdup as (_ & Hd & _).
      apply Hd. set_solver.
    + cbn. rewrite <- Hperm. solve_Permutation.
Qed.

(** C10: whatever sequence of allocations, writes to held pages and frees a
    client performs, the pages it holds together with the free list are always
    a permutation of the original pool (so no page is ever handed out twice,
    lost, or corrupted into the list), and freeing a held page never panics. *)
Theorem allocator_conserves s fl s' held :
  kmem_ok s fl → rtc client (s, []) (s', held) →
  (∃ fl', kmem_ok s' fl' ∧ held ++ fl' ≡ₚ fl ∧ NoDup (held ++ fl')) ∧
  (∀ p, p ∈ held → ∃ s'', kfree p s' = Ret () s'').
Proof.
  intros Hok Hrun.
  assert (Hinv : client_inv fl (s', held)).
  { remember (s, @nil Z) as c0 eqn:E0. remember (s', held) as c1 eqn:E1.
    assert (Hi : client_inv fl c0) by (subst; exists fl; by split).
    clear E0 E1. induction Hrun; [done|].
    apply IHHrun. destruct Hok. eapply client_preserves; eauto. }
  destruct Hinv as (fl' & Hok' & Hperm). cbn in *. split.
  - exists fl'. split_and!; [done..|]. rewrite Hperm. by destruct Hok.
  - intros p Hp. eexists. apply kfree_eval.
    assert (Hin : p ∈ held ++ fl') by set_solver. rewrite Hperm in Hin.
    destruct Hok as [_ Hpages _]. rewrite Forall_forall in Hpages. by apply Hpages.
Qed.

End kalloc.
