(* ===== verification/Vm.v ===== *)
(** * vm.c: page tables and user memory

    Page directories and page tables are 4096-byte pages of the same memory
    the allocator manages; an entry is a little-endian word.  Messages printed
    with [cprintf] are not part of the state. *)

From S2P Require Import Prelude Mmu CString Kalloc.

Section vm.
  Context `{KernelImage}.

(** the test [v & PTE_P] *)
Definition pbit (v : Z) : bool := negb (Z.land v PTE_P =? 0).

Definition walkpgdir (pgdir va : Z) (alloc : bool) : M phys Z :=
  let pde := pgdir + 4 * PDX va in
  v ← rd32 pde;
  if pbit v then mret (P2V (PTE_ADDR v) + 4 * PTX va)
  else if negb alloc then mret 0
  else
    pgtab ← kalloc;
    if pgtab =? 0 then mret 0
    else
      _ ← on_mem (memset pgtab 0 PGSIZE);
      _ ← wr32 pde (Z.lor (Z.lor (Z.lor (V2P pgtab) PTE_P) PTE_W) PTE_U);
      mret (pgtab + 4 * PTX va).

(** the entry [mappages] writes *)
Definition mkpte (pa perm : Z) : Z := u32 (Z.lor (Z.lor pa perm) PTE_P).

Fixpoint mappages_loop (fuel : nat) (pgdir a last pa perm : Z) : M phys Z :=
  match fuel with
  | O => λ _, NoFuel
  | S fuel =>
      pte ← walkpgdir pgdir a true;
      if pte =? 0 then mret (-1)
      else
        v ← rd32 pte;
        if pbit v then panic "remap"
        else
          _ ← wr32 pte (mkpte pa perm);
          if a =? last then mret 0
          else mappages_loop fuel pgdir (u32 (a + PGSIZE)) last (u32 (pa + PGSIZE)) perm
  end.

Definition mappages (pgdir va size pa perm : Z) : M phys Z :=
  let a := PGROUNDDOWN va in
  let last := PGROUNDDOWN (u32 (va + size - 1)) in
  mappages_loop (S (Z.to_nat (u32 (last - a) / PGSIZE))) pgdir a last pa perm.

(** ** Deallocation *)

(** [for(; a < oldsz; a += PGSIZE)] of [deallocuvm]; a missing page table
    skips to the next directory entry *)
Fixpoint deallocuvm_loop (fuel : nat) (pgdir a oldsz : Z) : M phys unit :=
  match fuel with
  | O => λ _, NoFuel
  | S fuel =>
      if a <? oldsz then
        pte ← walkpgdir pgdir a false;
        if pte =? 0 then
          let a := u32 (PGADDR (PDX a + 1) 0 0 - PGSIZE) in
          deallocuvm_loop fuel pgdir (u32 (a + PGSIZE)) oldsz
        else
          v ← rd32 pte;
          if pbit v then
            let pa := PTE_ADDR v in
            if pa =? 0 then panic "kfree"
            else
              _ ← kfree (P2V pa);
              _ ← wr32 pte 0;
              deallocuvm_loop fuel pgdir (u32 (a + PGSIZE)) oldsz
          else deallocuvm_loop fuel pgdir (u32 (a + PGSIZE)) oldsz
      else mret ()
  end.

Definition deallocuvm (pgdir oldsz newsz : Z) : M phys Z :=
  if oldsz <=? newsz then mret oldsz
  else
    let a := PGROUNDUP newsz in
    _ ← deallocuvm_loop (S (Z.to_nat ((oldsz - a + PGSIZE - 1) / PGSIZE))) pgdir a oldsz;
    mret newsz.

(** [for(i = 0; i < NPDENTRIES; i++)] of [freevm], counting the entries left *)
Fixpoint freevm_loop (n : nat) (pgdir i : Z) : M phys unit :=
  match n with
  | O => mret ()
  | S n =>
      v ← rd32 (pgdir + 4 * i);
      _ ← (if pbit v then kfree (P2V (PTE_ADDR v)) else mret ());
      freevm_loop n pgdir (i + 1)
  end.

Definition freevm (pgdir : Z) : M phys unit :=
  if pgdir =? 0 then panic "freevm: no pgdir"
  else
    _ ← deallocuvm pgdir KERNBASE 0;
    _ ← freevm_loop (Z.to_nat NPDENTRIES) pgdir 0;
    kfree pgdir.

(** ** The kernel part of every address space *)

Record kmap_entry := { km_virt : Z; km_start : Z; km_end : Z; km_perm : Z }.

Definition kmap : list kmap_entry := [
  {| km_virt := KERNBASE; km_start := 0; km_end := EXTMEM; km_perm := PTE_W |};
  {| km_virt := KERNLINK; km_start := V2P KERNLINK; km_end := V2P kdata; km_perm := 0 |};
  {| km_virt := kdata; km_start := V2P kdata; km_end := PHYSTOP; km_perm := PTE_W |};
  {| km_virt := DEVSPACE; km_start := DEVSPACE; km_end := 0; km_perm := PTE_W |} ].

Fixpoint setupkvm_loop (ks : list kmap_entry) (pgdir : Z) : M phys Z :=
  match ks with
  | [] => mret pgdir
  | k :: ks =>
      r ← mappages pgdir (km_virt k) (u32 (km_end k - km_start k)) (km_start k) (km_perm k);
      if r <? 0 then
        _ ← freevm pgdir;
        mret 0
      else setupkvm_loop ks pgdir
  end.

Definition setupkvm : M phys Z :=
  pgdir ← kalloc;
  if pgdir =? 0 then mret 0
  else
    _ ← on_mem (memset pgdir 0 PGSIZE);
    if DEVSPACE <? P2V PHYSTOP then panic "PHYSTOP too high"
    else setupkvm_loop kmap pgdir.

(** ** User memory *)

Definition inituvm (pgdir init sz : Z) : M phys unit :=
  if PGSIZE <=? sz then panic "inituvm: more than a page"
  else
    mem ← kalloc;
    _ ← on_mem (memset mem 0 PGSIZE);
    _ ← mappages pgdir 0 PGSIZE (V2P mem) (Z.lor PTE_W PTE_U);
    on_mem (memmove mem init sz).

(** [readi dst off n] is [readi(ip, dst, off, n)] of fs.c on the inode being
    loaded: it returns the number of bytes read, or -1. *)
Fixpoint loaduvm_loop (readi : Z → Z → Z → M phys Z) (fuel : nat)
    (pgdir addr offset sz i : Z) : M phys Z :=
  match fuel with
  | O => λ _, NoFuel
  | S fuel =>
      if i <? sz then
        pte ← walkpgdir pgdir (u32 (addr + i)) false;
        if pte =? 0 then panic "loaduvm: address should exist"
        else
          v ← rd32 pte;
          let pa := PTE_ADDR v in
          let n := if sz - i <? PGSIZE then sz - i else PGSIZE in
          r ← readi (P2V pa) (u32 (offset + i)) n;
          if r =? n then loaduvm_loop readi fuel pgdir addr offset sz (u32 (i + PGSIZE))
          else mret (-1)
      else mret 0
  end.

Definition loaduvm (readi : Z → Z → Z → M phys Z) (pgdir addr offset sz : Z) : M phys Z :=
  if negb (addr mod PGSIZE =? 0) then panic "loaduvm: addr must be page aligned"
  else loaduvm_loop readi (S (Z.to_nat ((sz + PGSIZE - 1) / PGSIZE))) pgdir addr offset sz 0.

Fixpoint allocuvm_loop (fuel : nat) (pgdir a oldsz newsz : Z) : M phys Z :=
  match fuel with
  | O => λ _, NoFuel
  | S fuel =>
      if a <? newsz then
        mem ← kalloc;
        if mem =? 0 then
          _ ← deallocuvm pgdir newsz oldsz;
          mret 0
        else
          _ ← on_mem (memset mem 0 PGSIZE);
          r ← mappages pgdir a PGSIZE (V2P mem) (Z.lor PTE_W PTE_U);
          if r <? 0 then
            _ ← deallocuvm pgdir newsz oldsz;
            _ ← kfree mem;
            mret 0
          else allocuvm_loop fuel pgdir (u32 (a + PGSIZE)) oldsz newsz
      else mret newsz
  end.

Definition allocuvm (pgdir oldsz newsz : Z) : M phys Z :=
  if KERNBASE <=? newsz then mret 0
  else if newsz <? oldsz then mret oldsz
  else
    let a := PGROUNDUP oldsz in
    allocuvm_loop (S (Z.to_nat ((newsz - a + PGSIZE - 1) / PGSIZE))) pgdir a oldsz newsz.

Definition clearpteu (pgdir uva : Z) : M phys unit :=
  pte ← walkpgdir pgdir uva false;
  if pte =? 0 then panic "clearpteu"
  else
    v ← rd32 pte;
    wr32 pte (Z.land v (u32 (Z.lnot PTE_U))).

Fixpoint copyuvm_loop (fuel : nat) (pgdir d i sz : Z) : M phys Z :=
  match fuel with
  | O => λ _, NoFuel
  | S fuel =>
      if i <? sz then
        pte ← walkpgdir pgdir i false;
        if pte =? 0 then panic "copyuvm: pte should exist"
        else
          v ← rd32 pte;
          if negb (pbit v) then panic "copyuvm: page not present"
          else
            let pa := PTE_ADDR v in
            let flags := PTE_FLAGS v in
            mem ← kalloc;
            if mem =? 0 then
              _ ← freevm d;
              mret 0
            else
              _ ← on_mem (memmove mem (P2V pa) PGSIZE);
              r ← mappages d i PGSIZE (V2P mem) flags;
              if r <? 0 then
                _ ← kfree mem;
                _ ← freevm d;
                mret 0
              else copyuvm_loop fuel pgdir d (u32 (i + PGSIZE)) sz
      else mret d
  end.

Definition copyuvm (pgdir sz : Z) : M phys Z :=
  d ← setupkvm;
  if d =? 0 then mret 0
  else copyuvm_loop (S (Z.to_nat ((sz + PGSIZE - 1) / PGSIZE))) pgdir d 0 sz.

(** [*pte] with [pte == 0] faults; the model stops there *)
Definition uva2ka (pgdir uva : Z) : M phys Z :=
  pte ← walkpgdir pgdir uva false;
  if pte =? 0 then panic "fault: null pte in uva2ka"
  else
    v ← rd32 pte;
    if Z.land v PTE_P =? 0 then mret 0
    else if Z.land v PTE_U =? 0 then mret 0
    else mret (P2V (PTE_ADDR v)).

Fixpoint copyout_loop (fuel : nat) (pgdir va buf len : Z) : M phys Z :=
  match fuel with
  | O => λ _, NoFuel
  | S fuel =>
      if 0 <? len then
        let va0 := PGROUNDDOWN va in
        pa0 ← uva2ka pgdir va0;
        if pa0 =? 0 then mret (-1)
        else
          let n := PGSIZE - (va - va0) in
          let n := if len <? n then len else n in
          _ ← on_mem (memmove (pa0 + (va - va0)) buf n);
          copyout_loop fuel pgdir (u32 (va0 + PGSIZE)) (buf + n) (len - n)
      else mret 0
  end.

(** every round copies at least one byte *)
Definition copyout (pgdir va p len : Z) : M phys Z :=
  copyout_loop (S (Z.to_nat len)) pgdir va p len.

Definition page_fault_handler (pgdir a : Z) : M phys Z :=
  mem ← kalloc;
  if mem =? 0 then mret 0
  else
    _ ← on_mem (memset mem 0 PGSIZE);
    r ← mappages pgdir a PGSIZE (V2P mem) (Z.lor PTE_W PTE_U);
    if r <? 0 then
      _ ← kfree mem;
      mret 0
    else mret 1.

End vm.
