(* ===== verification/VmSpec.v ===== *)
(** * vm.c: what the page-table code computes

    The abstract view of a page directory is the function from virtual
    addresses to page-table entries ([pte], 0 where no table is present).
    [vm_ok] says that a directory and its tables are pages of the pool,
    pairwise distinct and distinct from the free pages and from the pages
    [rest] that belong to others; [as_ok] adds that every user frame is such
    an owned page, mapped once. *)

From S2P Require Import Prelude Mmu CString Kalloc Vm.

Section vmspec.
  Context `{KernelImage}.

(** ** The abstract page table *)

Definition pde (m : ram) (pgdir i : Z) : Z := load32 m (pgdir + 4 * i).
Definition tab (v : Z) : Z := P2V (PTE_ADDR v).

(** the page-table page a directory entry points to *)
Definition table_at (m : ram) (pgdir i : Z) : option Z :=
  if pbit (pde m pgdir i) then Some (tab (pde m pgdir i)) else None.
Definition tables (m : ram) (pgdir : Z) : list Z := omap (table_at m pgdir) (seqZ 0 1024).

Definition pte_addr (m : ram) (pgdir va : Z) : option Z :=
  t ← table_at m pgdir (PDX va); Some (t + 4 * PTX va).
Definition pte (m : ram) (pgdir va : Z) : Z :=
  match pte_addr m pgdir va with Some a => load32 m a | None => 0 end.

(** the frame a user page is mapped to, and all of them *)
Definition frame_at (m : ram) (pgdir vpn : Z) : option Z :=
  let v := pte m pgdir (vpn * PGSIZE) in if pbit v then Some (tab v) else None.
Definition uframes (m : ram) (pgdir : Z) : list Z :=
  omap (frame_at m pgdir) (seqZ 0 (KERNBASE / PGSIZE)).

Record vm_ok (s : phys) (fl : list Z) (pgdir : Z) (rest : list Z) : Prop := {
  vo_kmem : kmem_ok s fl;
  vo_pages : Forall is_page (pgdir :: tables (mem s) pgdir ++ rest);
  vo_nodup : NoDup (fl ++ pgdir :: tables (mem s) pgdir ++ rest) }.

Definition as_ok (s : phys) (fl : list Z) (pgdir : Z) (other : list Z) : Prop :=
  vm_ok s fl pgdir (uframes (mem s) pgdir ++ other).

(** ** Generic facts *)

Ltac pages_ok := rewrite ?Forall_app, ?Forall_cons; intuition (done || apply Forall_nil_2).

Lemma omap_set {A B} (f g : A → option B) (l : list A) (i : A) (x : B) :
  NoDup l → i ∈ l → f i = None → g i = Some x → (∀ j, j ∈ l → j ≠ i → g j = f j) →
  omap g l ≡ₚ x :: omap f l.
Proof.
  intros Hnd Hi Hf Hg Hrest. induction l as [|j l IH]; [set_solver|].
  apply NoDup_cons in Hnd as [Hj Hnd]. apply elem_of_cons in Hi as [<-|Hi].
  - cbn. rewrite Hf, Hg. f_equiv. apply reflexive_eq, list_omap_ext.
    apply Forall_Forall2_diag, Forall_forall. intros k Hk. apply Hrest; [set_solver|].
    by intros ->.
  - cbn. rewrite Hrest by set_solver.
    destruct (f j); rewrite IH by set_solver; [|done]. by rewrite Permutation_swap.
Qed.

Lemma omap_same {A B} (f g : A → option B) (l : list A) :
  (∀ j, j ∈ l → g j = f j) → omap g l = omap f l.
Proof.
  intros Hrest. apply list_omap_ext.
  apply Forall_Forall2_diag, Forall_forall. auto.
Qed.

Lemma omap_inj {A B} (f : A → option B) (l : list A) i j x :
  NoDup (omap f l) → NoDup l → i ∈ l → j ∈ l → f i = Some x → f j = Some x → i = j.
Proof.
  intros Hnd Hl Hi Hj Hfi Hfj. induction l as [|k l IH]; [set_solver|].
  apply NoDup_cons in Hl as [Hk Hl].
  assert (Hin : ∀ k', k' ∈ l → f k' = Some x → x ∈ omap f l).
  { intros k' ??. apply list_elem_of_omap. eauto. }
  cbn in Hnd. apply elem_of_cons in Hi as [->|Hi]; apply elem_of_cons in Hj as [->|Hj]; auto.
  - rewrite Hfi in Hnd. apply NoDup_cons in Hnd as [Hx _]. by destruct Hx; eauto.
  - rewrite Hfj in Hnd. apply NoDup_cons in Hnd as [Hx _]. by destruct Hx; eauto.
  - apply IH; auto. destruct (f k); [by apply NoDup_cons in Hnd as [_ ?]|done].
Qed.

Lemma load32_memzero m a : (∀ b, a ≤ b < a + 4 → load8 m b = 0) → load32 m a = 0.
Proof. intros Hz. unfold load32. by rewrite !Hz by lia. Qed.

(** ** Bits of entries *)

Lemma pbit_mod v : pbit v = (v mod 2 =? 1).
Proof.
  unfold pbit, PTE_P. change 1 with (2 ^ 1 - 1) at 1. rewrite land_low by lia.
  change (2 ^ 1) with 2. pose proof (Z.mod_pos_bound v 2 ltac:(lia)).
  destruct (Z.eqb_spec (v mod 2) 0), (Z.eqb_spec (v mod 2) 1); cbn; lia || done.
Qed.

Lemma lor_flags pa perm :
  pa mod 4096 = 0 → 0 ≤ perm < 4096 →
  Z.lor (Z.lor pa perm) PTE_P = pa + Z.lor perm PTE_P ∧ 0 ≤ Z.lor perm PTE_P < 4096 ∧
  Z.lor perm PTE_P mod 2 = 1.
Proof.
  intros Hpa Hperm.
  assert (Hr : 0 ≤ Z.lor perm PTE_P < 4096) by (apply (lor_range 12); unfold PTE_P; lia).
  split_and!; [|lia..|].
  - rewrite <- Z.lor_assoc. by apply (lor_low 12).
  - rewrite <- Z.bit0_mod, Z.lor_spec. unfold PTE_P. by rewrite orb_true_r.
Qed.

Lemma tab_entry p flags :
  is_page p → 0 ≤ flags < 4096 → tab (p - KERNBASE + flags) = p.
Proof.
  intros Hp Hf. apply is_page_range in Hp. unfold tab.
  rewrite PTE_ADDR_mod by (mmu_consts; lia).
  rewrite P2V_add; mmu_consts; zdm.
Qed.

(** ** Indices and addresses *)

Lemma PDX_range va : is_u32 va → 0 ≤ PDX va < 1024.
Proof. intros Hva. rewrite PDX_div by done. mmu_consts. zdm. Qed.

Lemma PTX_range va : is_u32 va → 0 ≤ PTX va < 1024.
Proof. intros Hva. rewrite PTX_div by done. zdm. Qed.

(** two addresses share both indices exactly when they are in the same page *)
Lemma same_indices va va' :
  is_u32 va → is_u32 va' →
  PDX va = PDX va' → PTX va = PTX va' → va / PGSIZE = va' / PGSIZE.
Proof.
  intros H1 H2. rewrite !PDX_div, !PTX_div by done. mmu_consts. intros. zdm.
Qed.

Lemma same_page_indices va va' :
  is_u32 va → is_u32 va' → va / PGSIZE = va' / PGSIZE →
  PDX va = PDX va' ∧ PTX va = PTX va'.
Proof.
  intros H1 H2. rewrite !PDX_div, !PTX_div by done. mmu_consts. intros. split; zdm.
Qed.

Lemma pte_same_page m pgdir va va' :
  is_u32 va → is_u32 va' → va / PGSIZE = va' / PGSIZE →
  pte m pgdir va = pte m pgdir va'.
Proof.
  intros H1 H2 Hp. destruct (same_page_indices va va') as [E1 E2]; [done..|].
  unfold pte, pte_addr. by rewrite E1, E2.
Qed.

Lemma tables_eq m pgdir : tables m pgdir = omap (table_at m pgdir) (seqZ 0 1024).
Proof. reflexivity. Qed.

Lemma length_omap {A B} (f : A → option B) l : (length (omap f l) ≤ length l)%nat.
Proof. induction l as [|x l IH]; cbn; [lia|]. destruct (f x); cbn; lia. Qed.

Lemma tables_length m pgdir : (length (tables m pgdir) ≤ 1024)%nat.
Proof. rewrite tables_eq. etrans; [apply length_omap|]. by rewrite length_seqZ. Qed.

Lemma elem_of_tables m pgdir t :
  t ∈ tables m pgdir ↔ ∃ i, 0 ≤ i < 1024 ∧ table_at m pgdir i = Some t.
Proof.
  unfold tables. rewrite list_elem_of_omap. split.
  - intros (i & Hi%elem_of_seqZ & ?). exists i. split; [lia|done].
  - intros (i & ? & ?). exists i. split; [apply elem_of_seqZ; lia|done].
Qed.

Lemma vpn_u32 k : 0 ≤ k < KERNBASE / PGSIZE → is_u32 (k * PGSIZE).
Proof. mmu_consts. intros. zdm. Qed.

Lemma elem_of_uframes m pgdir f :
  f ∈ uframes m pgdir ↔ ∃ k, 0 ≤ k < KERNBASE / PGSIZE ∧ frame_at m pgdir k = Some f.
Proof.
  unfold uframes. rewrite list_elem_of_omap. split.
  - intros (i & Hi%elem_of_seqZ & ?). exists i. split; [lia|done].
  - intros (i & ? & ?). exists i. split; [apply elem_of_seqZ; lia|done].
Qed.

(** changing pages that belong to neither a directory nor its tables does not
    change the address space *)
Lemma view_same ps m m' pgdir :
  same_outside ps m m' → Forall is_page ps →
  Forall is_page (pgdir :: tables m pgdir) →
  (∀ p, p ∈ pgdir :: tables m pgdir → p ∉ ps) →
  (∀ i, 0 ≤ i < 1024 → table_at m' pgdir i = table_at m pgdir i) ∧
  (∀ va, is_u32 va → pte m' pgdir va = pte m pgdir va).
Proof.
  intros Hs Hps [Hpg Htabs]%Forall_cons Hd.
  assert (Hpde : ∀ i, 0 ≤ i < 1024 → pde m' pgdir i = pde m pgdir i).
  { intros i Hi. unfold pde. eapply (same_outside_load32 ps _ _ pgdir); auto.
    - apply Hd. set_solver.
    - lia.
    - mmu_consts. lia. }
  assert (Htab : ∀ i, 0 ≤ i < 1024 → table_at m' pgdir i = table_at m pgdir i).
  { intros i Hi. unfold table_at. by rewrite Hpde. }
  split; [done|]. intros va Hva. unfold pte, pte_addr.
  pose proof (PDX_range _ Hva). pose proof (PTX_range _ Hva).
  rewrite Htab by done. destruct (table_at m pgdir (PDX va)) as [t|] eqn:Et; [|done].
  cbn. assert (t ∈ tables m pgdir) by (apply elem_of_tables; eauto).
  rewrite Forall_forall in Htabs.
  apply (same_outside_load32 ps _ _ t); auto.
  - apply Hd. set_solver.
  - lia.
  - mmu_consts. lia.
Qed.

Lemma tables_ext m m' pgdir :
  (∀ i, 0 ≤ i < 1024 → table_at m' pgdir i = table_at m pgdir i) →
  tables m' pgdir = tables m pgdir.
Proof. intros Ht. apply omap_same. intros i Hi%elem_of_seqZ. apply Ht. lia. Qed.

Lemma frame_at_ext m m' pgdir k :
  pte m' pgdir (k * PGSIZE) = pte m pgdir (k * PGSIZE) → frame_at m' pgdir k = frame_at m pgdir k.
Proof. intros Hp. unfold frame_at. by rewrite Hp. Qed.

Lemma uframes_ext m m' pgdir :
  (∀ va, is_u32 va → pte m' pgdir va = pte m pgdir va) → uframes m' pgdir = uframes m pgdir.
Proof.
  intros Hp. apply omap_same. intros k Hk%elem_of_seqZ. apply frame_at_ext, Hp, vpn_u32. lia.
Qed.

Lemma uframes_length m pgdir k :
  0 ≤ k ≤ KERNBASE / PGSIZE →
  (∀ va, is_u32 va → va < KERNBASE → k ≤ va / PGSIZE → pbit (pte m pgdir va) = false) →
  Z.of_nat (length (uframes m pgdir)) ≤ k.
Proof.
  intros Hk Hn. unfold uframes.
  replace (KERNBASE / PGSIZE) with (k + (KERNBASE / PGSIZE - k)) by lia.
  rewrite seqZ_app, omap_app, length_app by lia.
  assert (omap (frame_at m pgdir) (seqZ (0 + k) (KERNBASE / PGSIZE - k)) = []) as ->.
  { apply elem_of_nil_inv. intros f (j & Hj%elem_of_seqZ & Hf)%list_elem_of_omap.
    revert Hf. unfold frame_at. cbn zeta. rewrite Hn; [done|apply vpn_u32; lia|..];
      revert Hj Hk; mmu_consts; zdm. }
  pose proof (length_omap (frame_at m pgdir) (seqZ 0 k)) as Hl. rewrite length_seqZ in Hl.
  cbn [length]. lia.
Qed.

Lemma uframes_eq m pgdir :
  uframes m pgdir = omap (frame_at m pgdir) (seqZ 0 (KERNBASE / PGSIZE)).
Proof. reflexivity. Qed.

(** from here on these lists are only reasoned about, never unfolded *)
#[local] Opaque tables uframes.

(** ** Consequences of the invariant *)

Section inv.
Context (s : phys) (fl : list Z) (pgdir : Z) (rest : list Z).
Context (Hok : vm_ok s fl pgdir rest).

Lemma vo_pgdir : is_page pgdir.
Proof using Hok. destruct Hok as [_ [? _]%Forall_cons _]. done. Qed.

Lemma vo_tables : Forall is_page (tables (mem s) pgdir).
Proof using Hok. destruct Hok as [_ [_ [? _]%Forall_app]%Forall_cons _]. done. Qed.

Lemma vo_rest : Forall is_page rest.
Proof using Hok. destruct Hok as [_ [_ [_ ?]%Forall_app]%Forall_cons _]. done. Qed.

Lemma vo_table_page i t :
  0 ≤ i < 1024 → table_at (mem s) pgdir i = Some t → is_page t ∧ t ∈ tables (mem s) pgdir.
Proof using Hok.
  intros Hi Ht. assert (t ∈ tables (mem s) pgdir) by (apply elem_of_tables; eauto).
  split; [|done]. pose proof vo_tables as Hp. rewrite Forall_forall in Hp. auto.
Qed.

Lemma vo_pgdir_notin : pgdir ∉ fl ∧ pgdir ∉ tables (mem s) pgdir ∧ pgdir ∉ rest.
Proof using Hok.
  destruct Hok as [_ _ Hn]. apply NoDup_app in Hn as (_ & Hd & Hn).
  apply NoDup_cons in Hn as [Hn _]. set_solver.
Qed.

Lemma vo_table_notin t :
  t ∈ tables (mem s) pgdir → t ∉ fl ∧ t ≠ pgdir ∧ t ∉ rest.
Proof using Hok.
  intros Ht. destruct Hok as [_ _ Hn]. apply NoDup_app in Hn as (_ & Hd & Hn).
  apply NoDup_cons in Hn as [Hn1 Hn]. apply NoDup_app in Hn as (_ & Hd' & _).
  split_and!.
  - intros ?. apply (Hd t); set_solver.
  - intros ->. set_solver.
  - by apply Hd'.
Qed.

Lemma vo_fl_notin p :
  p ∈ fl → p ≠ pgdir ∧ p ∉ tables (mem s) pgdir ∧ p ∉ rest ∧ is_page p.
Proof using Hok.
  intros Hp. destruct Hok as [[_ Hpg _] _ Hn]. apply NoDup_app in Hn as (_ & Hd & _).
  specialize (Hd p Hp). rewrite Forall_forall in Hpg. specialize (Hpg p Hp). set_solver.
Qed.

Lemma vo_rest_notin p : p ∈ rest → p ∉ fl ∧ p ≠ pgdir ∧ p ∉ tables (mem s) pgdir.
Proof using Hok.
  intros Hp. destruct Hok as [_ _ Hn]. apply NoDup_app in Hn as (_ & Hd & Hn).
  apply NoDup_cons in Hn as [Hn1 Hn]. apply NoDup_app in Hn as (_ & Hd' & _).
  split_and!.
  - intros ?. apply (Hd p); set_solver.
  - intros ->. set_solver.
  - intros ?. by apply (Hd' p).
Qed.

Lemma vo_tables_inj i j t :
  0 ≤ i < 1024 → 0 ≤ j < 1024 →
  table_at (mem s) pgdir i = Some t → table_at (mem s) pgdir j = Some t → i = j.
Proof using Hok.
  intros Hi Hj Hti Htj. destruct Hok as [_ _ Hn]. apply NoDup_app in Hn as (_ & _ & Hn).
  apply NoDup_cons in Hn as [_ Hn]. apply NoDup_app in Hn as (Hn & _ & _).
  rewrite tables_eq in Hn.
  refine (omap_inj _ _ i j t Hn (NoDup_seqZ _ _) _ _ Hti Htj); apply elem_of_seqZ; lia.
Qed.

Lemma pte_addr_page va a :
  is_u32 va → pte_addr (mem s) pgdir va = Some a →
  ∃ t, table_at (mem s) pgdir (PDX va) = Some t ∧ t ∈ tables (mem s) pgdir ∧
    is_page t ∧ a = t + 4 * PTX va ∧ t ≤ a ∧ a + 4 ≤ t + PGSIZE ∧ a ≠ 0.
Proof using Hok.
  intros Hva. unfold pte_addr. pose proof (PDX_range _ Hva). pose proof (PTX_range _ Hva).
  destruct (table_at (mem s) pgdir (PDX va)) as [t|] eqn:Et; [|done].
  intros [= <-]. destruct (vo_table_page (PDX va) t) as [Ht ?]; [done..|].
  pose proof (is_page_range _ Ht). exists t. split_and!; auto; mmu_consts; lia.
Qed.

(** [walkpgdir] without [alloc] finds the entry's address and changes nothing *)
Lemma walkpgdir_false va :
  walkpgdir pgdir va false s = Ret (default 0 (pte_addr (mem s) pgdir va)) s.
Proof.
  unfold walkpgdir, pte_addr, table_at, pde. erewrite bind_Ret by reflexivity.
  by destruct (pbit _).
Qed.
(** a directory entry that gets a fresh zeroed table *)
Definition with_table (p va : Z) : phys :=
  set_mem (store32 (pgdir + 4 * PDX va) (Z.lor (Z.lor (Z.lor (V2P p) PTE_P) PTE_W) PTE_U)
             (memset p 0 PGSIZE (mem s)))
    (set_freelist (load32 (mem s) p) s).

Lemma walkpgdir_true_present va a :
  pte_addr (mem s) pgdir va = Some a → walkpgdir pgdir va true s = Ret a s.
Proof.
  unfold walkpgdir, pte_addr, table_at, pde, tab. erewrite bind_Ret by reflexivity.
  destruct (pbit _); [|done]. by intros [= <-].
Qed.

Lemma walkpgdir_true_nomem va :
  pte_addr (mem s) pgdir va = None → fl = [] → walkpgdir pgdir va true s = Ret 0 s.
Proof using Hok.
  intros Hn ->. unfold walkpgdir, pte_addr, table_at, pde in *.
  erewrite bind_Ret by reflexivity. destruct (pbit _); [done|]. cbn [negb].
  erewrite bind_Ret by (apply kalloc_nil, Hok). done.
Qed.

Lemma walkpgdir_true_alloc va p fl' :
  is_u32 va → pte_addr (mem s) pgdir va = None → fl = p :: fl' →
  walkpgdir pgdir va true s = Ret (p + 4 * PTX va) (with_table p va).
Proof using Hok.
  intros Hva Hn ->. unfold walkpgdir, pte_addr, table_at, pde in *.
  erewrite bind_Ret by reflexivity. destruct (pbit _); [done|]. cbn [negb].
  destruct (kalloc_cons _ _ _ (vo_kmem _ _ _ _ Hok)) as (Hk & _ & Hp & _).
  erewrite bind_Ret by exact Hk.
  rewrite (proj2 (Z.eqb_neq p 0)) by (by apply is_page_nonzero). reflexivity.
Qed.

Lemma fresh_entry p :
  is_page p →
  let v := Z.lor (Z.lor (Z.lor (V2P p) PTE_P) PTE_W) PTE_U in
  is_u32 v ∧ pbit v = true ∧ tab v = p.
Proof.
  intros Hp. rewrite is_page_V2P by done. cbn zeta.
  rewrite <- !Z.lor_assoc. change (Z.lor PTE_P (Z.lor PTE_W PTE_U)) with 7.
  pose proof (is_page_range _ Hp). rewrite (lor_low 12); [|lia|mmu_consts; zdm|lia].
  split_and!; [mmu_consts; lia| |by apply tab_entry; [done|lia]].
  rewrite pbit_mod. apply Z.eqb_eq. mmu_consts. zdm.
Qed.

(** the new table changes no translation *)
Lemma with_table_ok va p fl' :
  is_u32 va → pte_addr (mem s) pgdir va = None → fl = p :: fl' →
  let s' := with_table p va in
  vm_ok s' fl' pgdir rest ∧
  pte_addr (mem s') pgdir va = Some (p + 4 * PTX va) ∧
  tables (mem s') pgdir ≡ₚ p :: tables (mem s) pgdir ∧
  (∀ va', is_u32 va' → pte (mem s') pgdir va' = pte (mem s) pgdir va') ∧
  same_outside [p; pgdir] (mem s) (mem s').
Proof using Hok.
  intros Hva Hn Hfl. cbn zeta.
  pose proof (PDX_range _ Hva) as Hi. pose proof vo_pgdir as Hpg.
  destruct (vo_fl_notin p) as (Hp1 & Hp2 & Hp3 & Hp); [set_solver|].
  destruct (fresh_entry p Hp) as (Hv & Hvp & Hvt).
  set (v := Z.lor _ PTE_U) in *.
  assert (Hnt : table_at (mem s) pgdir (PDX va) = None).
  { revert Hn. unfold pte_addr. by destruct (table_at _ _ _). }
  assert (Hsm : same_outside [p] (mem s) (memset p 0 PGSIZE (mem s)))
    by (apply same_outside_memset; unfold PGSIZE; lia).
  assert (Hs : same_outside [p; pgdir] (mem s) (mem (with_table p va))).
  { eapply same_outside_trans; (eapply same_outside_mono;
      [|exact Hsm || (apply same_outside_store32 with (p := pgdir); mmu_consts; lia)]);
      set_solver. }
  (* directory entries of the new memory *)
  assert (Hpde : ∀ j, 0 ≤ j < 1024 →
    pde (mem (with_table p va)) pgdir j = if decide (j = PDX va) then v else pde (mem s) pgdir j).
  { intros j Hj. unfold pde, with_table. cbn [mem set_mem].
    case_decide as E.
    - rewrite E, load32_store32. by apply u32_id.
    - rewrite load32_store32_ne by lia.
      eapply (same_outside_load32 [p] _ _ pgdir); [done|pages_ok|done|set_solver|lia|].
      mmu_consts; lia. }
  assert (Htab : ∀ j, 0 ≤ j < 1024 → table_at (mem (with_table p va)) pgdir j =
    if decide (j = PDX va) then Some p else table_at (mem s) pgdir j).
  { intros j Hj. unfold table_at. rewrite Hpde by done. case_decide; [|done].
    by rewrite Hvp, Hvt. }
  assert (Hperm : tables (mem (with_table p va)) pgdir ≡ₚ p :: tables (mem s) pgdir).
  { rewrite !tables_eq. apply (omap_set _ _ _ (PDX va)).
    - apply NoDup_seqZ.
    - apply elem_of_seqZ; lia.
    - done.
    - rewrite Htab by done. by rewrite decide_True.
    - intros j Hj%elem_of_seqZ Hne. rewrite Htab by lia. by rewrite decide_False. }
  assert (Hkm : kmem_ok (with_table p va) fl').
  { pose proof (vo_kmem _ _ _ _ Hok) as Hk. rewrite Hfl in Hk.
    destruct (kalloc_cons _ _ _ Hk) as (_ & Hk' & _ & Hpfl).
    eapply (kmem_ok_same _ _ _ [p; pgdir]) in Hk'; [exact Hk'|done|pages_ok|].
    destruct vo_pgdir_notin as [Hpgfl _]. rewrite Hfl in Hpgfl. set_solver. }
  split_and!; [split; [done|..]| |done| |done].
  - rewrite Hperm. destruct Hok as [_ Hpages _]. revert Hpages. cbn. pages_ok.
  - rewrite Hperm. destruct Hok as [_ _ Hnd]. rewrite Hfl in Hnd. revert Hnd.
    apply NoDup_Permutation_proper. solve_Permutation.
  - unfold pte_addr. rewrite Htab by done. by rewrite decide_True.
  - intros va' Hva'. unfold pte, pte_addr. pose proof (PDX_range _ Hva').
    pose proof (PTX_range _ Hva').
    rewrite Htab by done. case_decide as E; [rewrite E, Hnt|].
    + cbn. rewrite load32_memzero; [done|].
      intros b Hb. cbn [with_table mem set_mem]. rewrite load8_store32, decide_False.
      * rewrite memset_ok by (unfold PGSIZE; lia). by rewrite decide_True by (mmu_consts; lia).
      * intros Hb'. apply (page_disjoint p pgdir b); auto; mmu_consts; lia.
    + destruct (table_at (mem s) pgdir (PDX va')) as [t|] eqn:Et; [|done]. cbn.
      destruct (vo_table_page (PDX va') t) as [Htp Htin]; [done..|].
      destruct (vo_table_notin t Htin) as (Hf & Htne & _).
      eapply (same_outside_load32 [p; pgdir] _ _ t);
        [done|pages_ok|done|set_solver|lia|mmu_consts; lia].
Qed.
(** writing a page-table entry changes the translation of that page only *)
Lemma set_pte va a v :
  is_u32 va → pte_addr (mem s) pgdir va = Some a →
  let s' := set_mem (store32 a v (mem s)) s in
  vm_ok s' fl pgdir rest ∧
  tables (mem s') pgdir = tables (mem s) pgdir ∧
  (∀ va', is_u32 va' → pte_addr (mem s') pgdir va' = pte_addr (mem s) pgdir va') ∧
  (∀ va', is_u32 va' → pte (mem s') pgdir va' =
     if decide (va' / PGSIZE = va / PGSIZE) then u32 v else pte (mem s) pgdir va') ∧
  same_outside (tables (mem s) pgdir) (mem s) (mem s').
Proof using Hok.
  intros Hva Ha. destruct (pte_addr_page va a Hva Ha) as (t & Ht & Htin & Htp & Eat & Ha1 & Ha2 & _).
  destruct (vo_table_notin t Htin) as (Htf & Htpg & Htr). pose proof vo_pgdir as Hpg.
  cbn zeta. set (m' := store32 a v (mem s)).
  assert (Hs1 : same_outside [t] (mem s) m') by (by apply same_outside_store32).
  assert (Hs : same_outside (tables (mem s) pgdir) (mem s) m')
    by (eapply same_outside_mono; [|done]; set_solver).
  assert (Htab : ∀ j, 0 ≤ j < 1024 → table_at m' pgdir j = table_at (mem s) pgdir j).
  { intros j Hj. unfold table_at, pde.
    by rewrite !(same_outside_load32 [t] (mem s) m' pgdir)
      by (pages_ok || set_solver || (mmu_consts; lia)). }
  assert (Htabs : tables m' pgdir = tables (mem s) pgdir) by (by apply tables_ext).
  assert (Haddr : ∀ va', is_u32 va' → pte_addr m' pgdir va' = pte_addr (mem s) pgdir va').
  { intros va' Hva'. unfold pte_addr. rewrite Htab; [done|]. by apply PDX_range. }
  split_and!; [split|done|done| |done].
  - eapply kmem_ok_same; [apply Hok|exact Hs1|pages_ok|].
    intros q Hq Hq'%list_elem_of_singleton. by subst.
  - cbn. rewrite Htabs. apply Hok.
  - cbn. rewrite Htabs. apply Hok.
  - cbn [mem set_mem]. intros va' Hva'. unfold pte. rewrite Haddr by done.
    case_decide as E.
    + destruct (same_page_indices va' va) as [E1 E2]; [done..|].
      assert (pte_addr (mem s) pgdir va' = Some a) as ->.
      { rewrite <- Ha. unfold pte_addr. by rewrite E1, E2. }
      apply load32_store32.
    + destruct (pte_addr (mem s) pgdir va') as [a'|] eqn:Ea'; [|done].
      destruct (pte_addr_page va' a' Hva' Ea') as (t' & Ht' & Htin' & Htp' & Ea & Ha1' & Ha2' & _).
      destruct (decide (t' = t)) as [->|Hne].
      * apply load32_store32_ne.
        assert (PDX va' = PDX va) by (eapply vo_tables_inj; eauto using PDX_range).
        assert (PTX va' ≠ PTX va) by (intros ?; apply E; by apply same_indices). lia.
      * apply (same_outside_load32 [t] _ _ t'); [done|pages_ok|done|set_solver|done|done].
Qed.
End inv.

(** ** mappages *)

Record mapped (s : phys) (fl : list Z) (pgdir : Z) (rest : list Z) (a n pa perm : Z)
    (s' : phys) (fl' : list Z) : Prop := {
  md_ok : vm_ok s' fl' pgdir rest;
  md_pte : ∀ va, is_u32 va → pte (mem s') pgdir va =
    let k := va / PGSIZE - a / PGSIZE in
    if decide (0 ≤ k < n) then mkpte (u32 (pa + k * PGSIZE)) perm else pte (mem s) pgdir va;
  md_pages : fl' ++ tables (mem s') pgdir ≡ₚ fl ++ tables (mem s) pgdir;
  md_tables : tables (mem s) pgdir ⊆ tables (mem s') pgdir;
  md_same : same_outside (pgdir :: tables (mem s') pgdir) (mem s) (mem s') }.

(** pages only leave the free list *)
Lemma mapped_sub s fl pgdir rest a n pa perm s' fl' :
  mapped s fl pgdir rest a n pa perm s' fl' → fl' ⊆ fl.
Proof.
  intros Hm q Hq. destruct Hm as [Hok _ Hp Ht _].
  assert (Hin : q ∈ fl' ++ tables (mem s') pgdir) by set_solver. rewrite Hp in Hin.
  apply elem_of_app in Hin as [?|Hin]; [done|].
  destruct (vo_fl_notin _ _ _ _ Hok q) as (_ & Hn & _); [done|]. set_solver.
Qed.

Lemma mapped_zero s fl pgdir rest a pa perm :
  vm_ok s fl pgdir rest → mapped s fl pgdir rest a 0 pa perm s fl.
Proof.
  intros Hok. split; [done| |done|done|apply same_outside_refl].
  intros va ?. cbn zeta. by rewrite decide_False by lia.
Qed.

(** make sure the page table for [va] exists *)
Lemma walkpgdir_true s fl pgdir rest va :
  vm_ok s fl pgdir rest → is_u32 va →
  (fl = [] ∧ pte_addr (mem s) pgdir va = None ∧ walkpgdir pgdir va true s = Ret 0 s) ∨
  ∃ a s' fl', walkpgdir pgdir va true s = Ret a s' ∧
    pte_addr (mem s') pgdir va = Some a ∧ a ≠ 0 ∧ (length fl ≤ S (length fl'))%nat ∧
    ∀ a0 pa perm, mapped s fl pgdir rest a0 0 pa perm s' fl'.
Proof.
  intros Hok Hva. destruct (pte_addr (mem s) pgdir va) as [a|] eqn:Ea.
  - right. exists a, s, fl. split_and!.
    + by apply walkpgdir_true_present.
    + done.
    + by destruct (pte_addr_page _ _ _ _ Hok va a) as (t & _ & _ & _ & _ & _ & _ & ?).
    + lia.
    + intros a0 pa perm. by apply mapped_zero.
  - destruct fl as [|p fl']; [left|right].
    { split_and!; [done..|]. by apply (walkpgdir_true_nomem _ _ _ _ Hok). }
    destruct (with_table_ok _ _ _ _ Hok va p fl') as (Hok' & Ha & Hperm & Hpte & Hs); [done..|].
    eexists _, _, fl'. split_and!.
    + by eapply (walkpgdir_true_alloc _ _ _ _ Hok).
    + done.
    + by destruct (pte_addr_page _ _ _ _ Hok' va (p + 4 * PTX va)) as (t & _ & _ & _ & _ & _ & _ & ?).
    + done.
    + intros a0 pa perm.
      assert (Hsub : ∀ q, q ∈ p :: tables (mem s) pgdir → q ∈ tables (mem (with_table s pgdir p va)) pgdir)
        by (intros q; by rewrite Hperm).
      split; [done| | | |].
      * intros va' ?. cbn zeta. rewrite decide_False by lia. by apply Hpte.
      * rewrite Hperm. solve_Permutation.
      * set_solver.
      * eapply same_outside_mono; [|done]. set_solver.
Qed.

Lemma mapped_trans s0 s1 s2 fl0 fl1 fl2 pgdir rest a n pa perm :
  0 ≤ n → is_u32 a → is_u32 (a + n * PGSIZE) →
  mapped s0 fl0 pgdir rest a n pa perm s1 fl1 →
  ∀ k, 0 ≤ k →
  mapped s1 fl1 pgdir rest (a + n * PGSIZE) k (u32 (pa + n * PGSIZE)) perm s2 fl2 →
  mapped s0 fl0 pgdir rest a (n + k) pa perm s2 fl2.
Proof.
  intros Hn Ha Han H1 k Hk H2. split.
  - apply H2.
  - intros va Hva. cbn zeta. rewrite (md_pte _ _ _ _ _ _ _ _ _ _ H2) by done.
    rewrite (md_pte _ _ _ _ _ _ _ _ _ _ H1) by done. cbn zeta.
    replace ((a + n * PGSIZE) / PGSIZE) with (a / PGSIZE + n) by (mmu_consts; zdm).
    repeat case_decide; try lia; try done. f_equal. unfold u32.
    rewrite Zplus_mod_idemp_l. f_equal. lia.
  - rewrite (md_pages _ _ _ _ _ _ _ _ _ _ H2). apply H1.
  - etrans; [apply H1|apply H2].
  - pose proof (md_tables _ _ _ _ _ _ _ _ _ _ H2).
    eapply same_outside_trans; (eapply same_outside_mono; [|apply H1 || apply H2]); set_solver.
Qed.

(** a single entry, once its table is there *)
Lemma mapped_one s fl pgdir rest va a pa perm :
  vm_ok s fl pgdir rest → is_u32 va → is_u32 pa → pte_addr (mem s) pgdir va = Some a →
  mapped s fl pgdir rest va 1 pa perm (set_mem (store32 a (mkpte pa perm) (mem s)) s) fl.
Proof.
  intros Hok Hva Hpa Ha.
  destruct (set_pte _ _ _ _ Hok va a (mkpte pa perm)) as (H1 & H2 & _ & H4 & H5); [done..|].
  split; [done| |by rewrite H2|by rewrite H2|].
  - intros va' Hva'. cbn zeta. rewrite H4 by done. repeat case_decide; try lia.
    replace (va' / PGSIZE - va / PGSIZE) with 0 by lia.
    rewrite Z.mul_0_l, Z.add_0_r. rewrite (u32_id pa) by done. unfold mkpte at 1.
    apply u32_id, u32_range.
  - rewrite H2. eapply same_outside_mono; [|done]. set_solver.
Qed.

(** one round of the loop, followed by [k] *)
Definition map_body (pgdir a pa perm : Z) (k : M phys Z) : M phys Z :=
  pte ← walkpgdir pgdir a true;
  if pte =? 0 then mret (-1)
  else
    v ← rd32 pte;
    if pbit v then panic "remap"
    else _ ← wr32 pte (mkpte pa perm); k.

Lemma map_step s fl pgdir rest a pa perm k :
  vm_ok s fl pgdir rest → is_u32 a → is_u32 pa → pbit (pte (mem s) pgdir a) = false →
  (map_body pgdir a pa perm k s = Ret (-1) s ∧ fl = []) ∨
  ∃ s' fl', map_body pgdir a pa perm k s = k s' ∧ mapped s fl pgdir rest a 1 pa perm s' fl' ∧
    (length fl ≤ S (length fl'))%nat.
Proof.
  intros Hok Ha Hpa Hp. unfold map_body.
  destruct (walkpgdir_true s fl pgdir rest a) as
    [(-> & Hnone & Hw)|(ad & s1 & fl1 & Hw & Had & Hnz & Hcnt & Hm)]; [done..|left|right].
  { by erewrite bind_Ret by exact Hw. }
  specialize (Hm a pa perm). pose proof (md_ok _ _ _ _ _ _ _ _ _ _ Hm) as Hok1.
  erewrite bind_Ret by exact Hw. rewrite (proj2 (Z.eqb_neq ad 0) Hnz).
  erewrite bind_Ret by reflexivity.
  assert (load32 (mem s1) ad = pte (mem s) pgdir a) as ->.
  { transitivity (pte (mem s1) pgdir a); [unfold pte; by rewrite Had|].
    rewrite (md_pte _ _ _ _ _ _ _ _ _ _ Hm) by done. cbn zeta. by rewrite decide_False by lia. }
  rewrite Hp. erewrite bind_Ret by reflexivity.
  eexists _, fl1. split; [reflexivity|]. split; [|done].
  replace 1 with (0 + 1) by lia. eapply mapped_trans; [done..| |exact Hm|lia|].
  - mmu_consts. lia.
  - rewrite !Z.mul_0_l, !Z.add_0_r, (u32_id pa) by done. by apply mapped_one.
Qed.

(** mapping a page that is present stops the kernel *)
Lemma map_remap s fl pgdir rest a pa perm k :
  vm_ok s fl pgdir rest → is_u32 a → pbit (pte (mem s) pgdir a) = true →
  map_body pgdir a pa perm k s = Panic "remap".
Proof.
  intros Hok Ha Hp. unfold map_body, pte in *.
  destruct (pte_addr (mem s) pgdir a) as [ad|] eqn:Ead; [|done].
  destruct (pte_addr_page _ _ _ _ Hok a ad) as (t & _ & _ & _ & _ & _ & _ & Hnz); [done..|].
  erewrite bind_Ret by (by apply walkpgdir_true_present).
  rewrite (proj2 (Z.eqb_neq ad 0) Hnz). erewrite bind_Ret by reflexivity. by rewrite Hp.
Qed.

Lemma mappages_loop_unfold n pgdir a last pa perm :
  mappages_loop (S n) pgdir a last pa perm =
  map_body pgdir a pa perm (if a =? last then mret 0 else
    mappages_loop n pgdir (u32 (a + PGSIZE)) last (u32 (pa + PGSIZE)) perm).
Proof. reflexivity. Qed.

Lemma mappages_loop_spec n s fl pgdir rest a pa perm :
  vm_ok s fl pgdir rest → 0 ≤ a → a mod PGSIZE = 0 → is_u32 (a + Z.of_nat n * PGSIZE) →
  is_u32 pa →
  (∀ k, 0 ≤ k ≤ Z.of_nat n → pbit (pte (mem s) pgdir (a + k * PGSIZE)) = false) →
  ∃ r s' fl' k,
    mappages_loop (S n) pgdir a (a + Z.of_nat n * PGSIZE) pa perm s = Ret r s' ∧
    mapped s fl pgdir rest a k pa perm s' fl' ∧
    (r = 0 ∧ k = Z.of_nat n + 1 ∨ r = -1 ∧ 0 ≤ k ≤ Z.of_nat n ∧ fl' = []) ∧
    Z.of_nat (length fl) ≤ Z.of_nat (length fl') + k.
Proof.
  revert s fl a pa. induction n as [n IH] using lt_wf_ind.
  intros s fl a pa Hok Ha Hal Hlast Hpa Hfree.
  assert (Hau : is_u32 a) by (mmu_consts; lia).
  assert (Hp : pbit (pte (mem s) pgdir a) = false)
    by (specialize (Hfree 0); rewrite Z.mul_0_l, Z.add_0_r in Hfree; apply Hfree; lia).
  rewrite mappages_loop_unfold.
  match goal with |- context [map_body _ _ _ _ ?k _] =>
    destruct (map_step s fl pgdir rest a pa perm k) as [[Hb ->]|(s1 & fl1 & Hb & Hm & Hc)];
      [done..| |] end; rewrite Hb.
  { exists (-1), s, [], 0. split_and!; [done|by apply mapped_zero|right; split_and!; lia || done|done]. }
  destruct n as [|n].
  - rewrite (proj2 (Z.eqb_eq a _)) by lia. exists 0, s1, fl1, 1.
    split_and!; [done..|left; lia|lia].
  - rewrite (proj2 (Z.eqb_neq a _)) by (mmu_consts; lia).
    rewrite (u32_id (a + PGSIZE)) by (mmu_consts; lia).
    destruct (IH n ltac:(lia) s1 fl1 (a + PGSIZE) (u32 (pa + PGSIZE)))
      as (r & s' & fl' & k & Hrun & Hm' & Hr & Hc').
    + apply Hm.
    + mmu_consts; lia.
    + mmu_consts; zdm.
    + mmu_consts; lia.
    + apply u32_range.
    + intros k Hk. rewrite (md_pte _ _ _ _ _ _ _ _ _ _ Hm) by (mmu_consts; lia).
      cbn zeta. rewrite decide_False by (mmu_consts; zdm).
      replace (a + PGSIZE + k * PGSIZE) with (a + (k + 1) * PGSIZE) by lia. apply Hfree. lia.
    + exists r, s', fl', (1 + k). replace (a + Z.of_nat (S n) * PGSIZE)
        with (a + PGSIZE + Z.of_nat n * PGSIZE) by lia.
      split; [done|]. split; [|split; [destruct_or!; [left|right]; destruct_and!; split_and!; lia || done|lia]].
      eapply mapped_trans; [lia|done| |exact Hm|destruct_or!; lia|].
      * mmu_consts. lia.
      * by rewrite !Z.mul_1_l.
Qed.

(** number of pages touched by the byte range [va, va+size) *)
Definition npages (va size : Z) : Z := (va + size - 1) / PGSIZE - va / PGSIZE + 1.

(** [mappages] on a range none of whose pages is present either installs
    [pa], [pa+PGSIZE], ... with the requested permissions for exactly the pages
    the range touches and returns 0, or runs out of page-table pages (the free
    list is empty) and returns -1 having mapped a proper prefix of them; in both
    cases every other translation is unchanged, only the directory, its tables
    and pages taken from the free list are written, and the structural
    invariant is kept. *)
Lemma mappages_ok s fl pgdir rest va size pa perm :
  vm_ok s fl pgdir rest → is_u32 va → 0 < size → va + size ≤ 2 ^ 32 → is_u32 pa →
  (∀ va', is_u32 va' → va / PGSIZE ≤ va' / PGSIZE ≤ (va + size - 1) / PGSIZE →
     pbit (pte (mem s) pgdir va') = false) →
  ∃ r s' fl' k,
    mappages pgdir va size pa perm s = Ret r s' ∧
    mapped s fl pgdir rest va k pa perm s' fl' ∧
    (r = 0 ∧ k = npages va size ∨ r = -1 ∧ 0 ≤ k < npages va size ∧ fl' = []) ∧
    Z.of_nat (length fl) ≤ Z.of_nat (length fl') + k.
Proof.
  intros Hok Hva Hsz Hend Hpa Hfree. unfold mappages, npages.
  rewrite (u32_id (va + size - 1)) by (mmu_consts; lia).
  rewrite !PGROUNDDOWN_mod by (mmu_consts; lia).
  set (a := va - va mod 4096). set (last := va + size - 1 - (va + size - 1) mod 4096).
  assert (Hpg : a / PGSIZE = va / PGSIZE) by (unfold a; mmu_consts; zdm).
  rewrite (u32_id (last - a)) by (unfold a, last; mmu_consts; zdm).
  set (n := Z.to_nat ((last - a) / PGSIZE)).
  assert (Hn : Z.of_nat n = (va + size - 1) / PGSIZE - va / PGSIZE)
    by (unfold n, a, last; mmu_consts; zdm).
  replace last with (a + Z.of_nat n * PGSIZE) by (rewrite Hn; unfold a, last; mmu_consts; zdm).
  destruct (mappages_loop_spec n s fl pgdir rest a pa perm)
    as (r & s' & fl' & k & Hrun & Hm & Hr & Hc); [done|..|done| |].
  - unfold a. mmu_consts. zdm.
  - unfold a. mmu_consts. zdm.
  - rewrite Hn. unfold a. mmu_consts. zdm.
  - intros k Hk. apply Hfree; [|].
    + rewrite Hn in Hk. unfold a. mmu_consts. zdm.
    + replace ((a + k * PGSIZE) / PGSIZE) with (a / PGSIZE + k) by (mmu_consts; zdm). lia.
  - exists r, s', fl', k. split; [done|]. split.
    + destruct Hm as [H1 H2 H3 H4 H5]. split; [done| |done..]. by rewrite <- Hpg.
    + split; [|done]. destruct_or!; destruct_and!; [left|right]; split_and!; lia || done.
Qed.

End vmspec.
