(* ===== verification/VmUser.v ===== *)
(** * vm.c: user address spaces

    Specifications of the operations that move pages between the free list and
    a user address space, in terms of the abstract page table of [VmSpec].
    Every operation conserves pages: what leaves the free list becomes a page
    table or a user frame of the directory, and conversely. *)

From S2P Require Import Prelude Mmu CString Kalloc Vm VmSpec.

#[local] Opaque tables uframes.

Section vmuser.
  Context `{KernelImage}.

(** all pages an address space owns *)
Definition owned (m : ram) (pgdir : Z) : list Z :=
  pgdir :: tables m pgdir ++ uframes m pgdir.

(** ** Moving pages in and out of [rest] *)

Lemma vm_ok_perm s fl pgdir rest rest' :
  rest ≡ₚ rest' → vm_ok s fl pgdir rest → vm_ok s fl pgdir rest'.
Proof. intros Hp [H1 H2 H3]. split; [done|..]; by rewrite <- Hp. Qed.

Lemma vm_views s fl pgdir rest ps m' :
  vm_ok s fl pgdir rest → same_outside ps (mem s) m' → Forall is_page ps →
  (∀ p, p ∈ ps → p ≠ pgdir ∧ p ∉ tables (mem s) pgdir) →
  tables m' pgdir = tables (mem s) pgdir ∧
  (∀ va, is_u32 va → pte_addr m' pgdir va = pte_addr (mem s) pgdir va) ∧
  (∀ va, is_u32 va → pte m' pgdir va = pte (mem s) pgdir va).
Proof.
  intros Hok Hs Hps Hd.
  destruct (view_same ps (mem s) m' pgdir) as [Ht Hp].
  - done.
  - done.
  - apply Forall_cons. split; [by eapply vo_pgdir|by eapply vo_tables].
  - intros p Hp Hin. destruct (Hd p Hin). set_solver.
  - split_and!; [by apply tables_ext| |done].
    intros va Hva. unfold pte_addr. rewrite Ht; [done|]. by apply PDX_range.
Qed.

Lemma vm_alloc s p fl pgdir rest :
  vm_ok s (p :: fl) pgdir rest →
  ∃ s', kalloc s = Ret p s' ∧ mem s' = mem s ∧ is_page p ∧ vm_ok s' fl pgdir (p :: rest).
Proof.
  intros Hok. destruct (kalloc_cons s p fl) as (Hk & Hk' & Hp & Hnin); [apply Hok|].
  eexists. split_and!; [exact Hk|done|done|].
  destruct Hok as [_ Hpages Hnd]. split; [done|..]; cbn [mem set_freelist].
  - revert Hpages. rewrite !Forall_cons, !Forall_app, !Forall_cons. naive_solver.
  - revert Hnd. apply NoDup_Permutation_proper. solve_Permutation.
Qed.

Lemma vm_free s fl pgdir p rest :
  vm_ok s fl pgdir (p :: rest) →
  kfree p s = Ret () (kfreed p s) ∧ is_page p ∧
  vm_ok (kfreed p s) (p :: fl) pgdir rest ∧
  same_outside [p] (mem s) (mem (kfreed p s)) ∧
  tables (mem (kfreed p s)) pgdir = tables (mem s) pgdir ∧
  (∀ va, is_u32 va → pte_addr (mem (kfreed p s)) pgdir va = pte_addr (mem s) pgdir va) ∧
  (∀ va, is_u32 va → pte (mem (kfreed p s)) pgdir va = pte (mem s) pgdir va).
Proof.
  intros Hok.
  assert (Hp : is_page p) by (pose proof (vo_rest _ _ _ _ Hok) as Hr; by apply Forall_cons in Hr as [? _]).
  destruct (vo_rest_notin _ _ _ _ Hok p) as (H1 & H2 & H3); [set_solver|].
  destruct (vm_views _ _ _ _ [p] (mem (kfreed p s)) Hok) as (Ht & Ha & Hv).
  { apply kfreed_same. } { by apply Forall_singleton. } { set_solver. }
  split_and!; [by apply kfree_eval|done| |apply kfreed_same|done|done|done].
  destruct Hok as [Hk Hpages Hnd]. split.
  - by apply kfreed_ok.
  - rewrite Ht. revert Hpages. rewrite !Forall_cons, !Forall_app, !Forall_cons. naive_solver.
  - rewrite Ht. revert Hnd. apply NoDup_Permutation_proper. solve_Permutation.
Qed.

Lemma vm_write s fl pgdir rest ps m' :
  vm_ok s fl pgdir rest → same_outside ps (mem s) m' → (∀ p, p ∈ ps → p ∈ rest) →
  vm_ok (set_mem m' s) fl pgdir rest ∧
  tables m' pgdir = tables (mem s) pgdir ∧
  (∀ va, is_u32 va → pte_addr m' pgdir va = pte_addr (mem s) pgdir va) ∧
  (∀ va, is_u32 va → pte m' pgdir va = pte (mem s) pgdir va).
Proof.
  intros Hok Hs Hsub.
  assert (Hps : Forall is_page ps).
  { apply Forall_forall. intros q Hq. pose proof (vo_rest _ _ _ _ Hok) as Hr.
    rewrite Forall_forall in Hr. auto. }
  destruct (vm_views _ _ _ _ ps m' Hok) as (Ht & Ha & Hv); [done|done| |].
  { intros q Hq. destruct (vo_rest_notin _ _ _ _ Hok q) as (? & ? & ?); auto. }
  split_and!; [|done..]. destruct Hok as [Hk Hpages Hnd] eqn:E. split.
  - eapply kmem_ok_same; [done..|]. intros q Hq Hq'.
    destruct (vo_rest_notin _ _ _ _ Hok q) as (? & _); auto.
  - cbn. by rewrite Ht.
  - cbn. by rewrite Ht.
Qed.

(** ** Frames *)

Lemma uframes_set m m' pgdir k p :
  0 ≤ k < KERNBASE / PGSIZE → frame_at m pgdir k = None → frame_at m' pgdir k = Some p →
  (∀ j, 0 ≤ j < KERNBASE / PGSIZE → j ≠ k → frame_at m' pgdir j = frame_at m pgdir j) →
  uframes m' pgdir ≡ₚ p :: uframes m pgdir.
Proof.
  intros Hk Hn Hs Hrest. rewrite !uframes_eq. apply (omap_set _ _ _ k); auto.
  - apply NoDup_seqZ.
  - apply elem_of_seqZ. lia.
  - intros j Hj%elem_of_seqZ ?. apply Hrest; lia.
Qed.

Lemma page_base_u32 k : 0 ≤ k < 2 ^ 20 → is_u32 (k * PGSIZE) ∧ k * PGSIZE / PGSIZE = k.
Proof. intros. mmu_consts. split; zdm. Qed.

Lemma mkpte_frame p perm :
  is_page p → 0 ≤ perm < 4096 →
  pbit (mkpte (V2P p) perm) = true ∧ tab (mkpte (V2P p) perm) = p ∧
  PTE_FLAGS (mkpte (V2P p) perm) = Z.lor perm PTE_P ∧
  PTE_ADDR (mkpte (V2P p) perm) = V2P p.
Proof.
  intros Hp Hperm. pose proof (is_page_range _ Hp).
  rewrite is_page_V2P by done. unfold mkpte.
  destruct (lor_flags (p - KERNBASE) perm) as (-> & Hr & Hodd); [mmu_consts; zdm|done|].
  rewrite u32_id by (mmu_consts; lia). split_and!.
  - rewrite pbit_mod. apply Z.eqb_eq. mmu_consts. zdm.
  - by apply tab_entry.
  - rewrite PTE_FLAGS_mod by (mmu_consts; lia). mmu_consts. zdm.
  - rewrite PTE_ADDR_mod by (mmu_consts; lia). mmu_consts. zdm.
Qed.

(** ** deallocuvm *)

(** the user pages numbered [lo .. hi-1] have been given back *)
Record freed (s : phys) (fl : list Z) (pgdir : Z) (other : list Z) (lo hi : Z)
    (s' : phys) (fl' : list Z) : Prop := {
  fr_ok : as_ok s' fl' pgdir other;
  fr_tables : tables (mem s') pgdir = tables (mem s) pgdir;
  fr_pte : ∀ va, is_u32 va → pte (mem s') pgdir va =
    if bool_decide (lo ≤ va / PGSIZE < hi) && pbit (pte (mem s) pgdir va)
    then 0 else pte (mem s) pgdir va;
  fr_pages : fl' ++ uframes (mem s') pgdir ≡ₚ fl ++ uframes (mem s) pgdir;
  fr_sub : fl ⊆ fl';
  fr_same : same_outside (tables (mem s) pgdir ++ fl') (mem s) (mem s') }.

Lemma pbit_0 : pbit 0 = false.
Proof. reflexivity. Qed.

Lemma freed_none s fl pgdir other lo hi :
  as_ok s fl pgdir other →
  (∀ va, is_u32 va → lo ≤ va / PGSIZE < hi → pbit (pte (mem s) pgdir va) = false) →
  freed s fl pgdir other lo hi s fl.
Proof.
  intros Hok Hn. split; [done|done| |done|done|apply same_outside_refl].
  intros va Hva. case_bool_decide; cbn; [|done]. by rewrite Hn.
Qed.

Lemma freed_trans s0 fl0 s1 fl1 s2 fl2 pgdir other lo mid hi :
  lo ≤ mid ≤ hi →
  freed s0 fl0 pgdir other lo mid s1 fl1 → freed s1 fl1 pgdir other mid hi s2 fl2 →
  freed s0 fl0 pgdir other lo hi s2 fl2.
Proof.
  intros Hle [A1 A2 A3 A4 A5 A6] [B1 B2 B3 B4 B5 B6]. split.
  - done.
  - congruence.
  - intros va Hva. rewrite B3, A3 by done.
    destruct (pbit (pte (mem s0) pgdir va)) eqn:E; rewrite ?andb_true_r, ?andb_false_r.
    + repeat case_bool_decide; cbn; rewrite ?E; lia || done.
    + by rewrite E, andb_false_r.
  - by rewrite B4, A4.
  - by etrans.
  - eapply same_outside_trans; (eapply same_outside_mono; [|eassumption]).
    + set_solver.
    + rewrite A2. done.
Qed.

Lemma frame_not_null m pgdir k p :
  frame_at m pgdir k = Some p → is_page p →
  let v := pte m pgdir (k * PGSIZE) in
  pbit v = true ∧ P2V (PTE_ADDR v) = p ∧ PTE_ADDR v ≠ 0.
Proof.
  unfold frame_at, tab. intros Hf Hp. cbn zeta in *.
  destruct (pbit _); [|done]. injection Hf as Hf. split_and!; [done..|].
  intros E. rewrite E in Hf. apply is_page_range in Hp. subst p. revert Hp.
  rewrite P2V_add; mmu_consts; lia.
Qed.

(** the body of the loop on a page that is present *)
Lemma dealloc_page s fl pgdir other k ad p :
  as_ok s fl pgdir other → 0 ≤ k < KERNBASE / PGSIZE →
  pte_addr (mem s) pgdir (k * PGSIZE) = Some ad → frame_at (mem s) pgdir k = Some p →
  let s' := set_mem (store32 ad 0 (mem (kfreed p s))) (kfreed p s) in
  kfree p s = Ret () (kfreed p s) ∧ freed s fl pgdir other k (k + 1) s' (p :: fl).
Proof.
  intros Hok Hk Had Hf. cbn zeta.
  destruct (page_base_u32 k) as [Hku Hkd]; [revert Hk; mmu_consts; zdm|].
  assert (Hin : p ∈ uframes (mem s) pgdir) by (apply elem_of_uframes; eauto).
  apply elem_of_Permutation in Hin as [uf Huf].
  assert (Hok1 : vm_ok s fl pgdir (p :: uf ++ other)).
  { eapply vm_ok_perm; [|exact Hok]. by rewrite Huf. }
  destruct (vm_free _ _ _ _ _ Hok1) as (Hkf & Hp & Hok2 & Hs & Ht & Ha & Hv).
  split; [done|].
  destruct (set_pte _ _ _ _ Hok2 (k * PGSIZE) ad 0) as (Hok3 & Ht3 & _ & Hv3 & Hs3);
    [done|by rewrite Ha|]. cbn zeta in *.
  set (s' := set_mem _ _) in *.
  assert (Hpte : ∀ va, is_u32 va → pte (mem s') pgdir va =
    if decide (va / PGSIZE = k) then 0 else pte (mem s) pgdir va).
  { intros va Hva. rewrite Hv3 by done. rewrite Hkd, Hv by done. by case_decide. }
  assert (Hperm : uframes (mem s) pgdir ≡ₚ p :: uframes (mem s') pgdir).
  { apply (uframes_set _ _ _ k); [done| |done|].
    - unfold frame_at. rewrite Hpte by done. by rewrite Hkd, decide_True.
    - intros j Hj Hne. symmetry. apply frame_at_ext.
      destruct (page_base_u32 j) as [Hju Hjd]; [revert Hj; mmu_consts; zdm|].
      rewrite Hpte by done. by rewrite Hjd, decide_False. }
  assert (Hufs : uf ≡ₚ uframes (mem s') pgdir).
  { apply (Permutation_cons_inv (a := p)). by rewrite <- Huf. }
  split.
  - unfold as_ok. eapply vm_ok_perm; [|exact Hok3]. by rewrite Hufs.
  - by rewrite Ht3, Ht.
  - intros va Hva. rewrite Hpte by done.
    case_decide; case_bool_decide; cbn; try lia.
    assert (E : pte (mem s) pgdir va = pte (mem s) pgdir (k * PGSIZE)).
    { apply pte_same_page; [done|done|]. rewrite Hkd. lia. }
    rewrite E. revert Hf. unfold frame_at. cbn zeta. by destruct (pbit _).
  - rewrite Hperm. solve_Permutation.
  - set_solver.
  - eapply same_outside_trans; (eapply same_outside_mono; [|exact Hs || exact Hs3]).
    + set_solver.
    + rewrite Ht. set_solver.
Qed.

Lemma freed_prepend s fl s' fl' pgdir other lo mid hi :
  lo ≤ mid →
  (∀ va, is_u32 va → lo ≤ va / PGSIZE < mid → pbit (pte (mem s) pgdir va) = false) →
  freed s fl pgdir other mid hi s' fl' → freed s fl pgdir other lo hi s' fl'.
Proof.
  intros Hle Hn [A1 A2 A3 A4 A5 A6]. split; [done|done| |done..].
  intros va Hva. rewrite A3 by done. specialize (Hn va Hva).
  destruct (pbit (pte (mem s) pgdir va)) eqn:E; [|by rewrite !andb_false_r].
  rewrite !andb_true_r. repeat case_bool_decide; try done; [lia|].
  assert (lo ≤ va / PGSIZE < mid) by lia. by discriminate Hn.
Qed.

(** the first page of the next directory entry *)
Lemma next_pde k :
  0 ≤ k < KERNBASE / PGSIZE →
  let a := u32 (PGADDR (PDX (k * PGSIZE) + 1) 0 0 - PGSIZE) in
  ∃ k', u32 (a + PGSIZE) = k' * PGSIZE ∧ k < k' ≤ KERNBASE / PGSIZE ∧
    ∀ va, is_u32 va → k ≤ va / PGSIZE < k' → PDX va = PDX (k * PGSIZE).
Proof.
  intros Hk. destruct (page_base_u32 k) as [Hku Hkd]; [revert Hk; mmu_consts; zdm|].
  cbn zeta. exists ((k / 1024 + 1) * 1024).
  assert (E : PDX (k * PGSIZE) = k / 1024) by (rewrite PDX_div by done; mmu_consts; zdm).
  rewrite E, PGADDR_sum by (revert Hk; mmu_consts; zdm).
  split_and!.
  - rewrite (u32_id (_ - PGSIZE)) by (revert Hk; mmu_consts; zdm).
    rewrite u32_id by (revert Hk; mmu_consts; zdm). mmu_consts. lia.
  - zdm.
  - revert Hk. mmu_consts. zdm.
  - intros va Hva Hr. rewrite PDX_div by done. revert Hr. mmu_consts. zdm.
Qed.

Lemma dealloc_loop_spec pgdir other oldsz n s fl k :
  as_ok s fl pgdir other → 0 ≤ k → 0 ≤ oldsz ≤ KERNBASE → k ≤ KERNBASE / PGSIZE →
  (oldsz + PGSIZE - 1) / PGSIZE - k ≤ Z.of_nat n →
  ∃ s' fl', deallocuvm_loop (S n) pgdir (k * PGSIZE) oldsz s = Ret () s' ∧
    freed s fl pgdir other k ((oldsz + PGSIZE - 1) / PGSIZE) s' fl'.
Proof.
  set (hi := (oldsz + PGSIZE - 1) / PGSIZE).
  revert s fl k. induction n as [n IH] using lt_wf_ind. intros s fl k Hok Hk Ho Hkb Hn.
  cbn [deallocuvm_loop].
  destruct (Z.ltb_spec (k * PGSIZE) oldsz) as [Hlt|Hge].
  2: { exists s, fl. split; [done|]. apply freed_none; [done|]. unfold hi.
       revert Hge. mmu_consts. zdm. }
  assert (Hkr : 0 ≤ k < KERNBASE / PGSIZE) by (revert Hlt Ho; mmu_consts; zdm).
  assert (Hhi : k < hi) by (unfold hi; revert Hlt; mmu_consts; zdm).
  destruct n as [|n]; [lia|].
  destruct (page_base_u32 k) as [Hku Hkd]; [revert Hkr; mmu_consts; zdm|].
  assert (Hnext : u32 (k * PGSIZE + PGSIZE) = (k + 1) * PGSIZE)
    by (rewrite u32_id; revert Hkr; mmu_consts; zdm).
  erewrite bind_Ret by apply walkpgdir_false.
  destruct (pte_addr (mem s) pgdir (k * PGSIZE)) as [ad|] eqn:Had; cbn [from_option id].
  - destruct (pte_addr_page _ _ _ _ Hok _ _ Hku Had) as (t & _ & _ & _ & _ & _ & _ & Hnz).
    rewrite (proj2 (Z.eqb_neq ad 0) Hnz). erewrite bind_Ret by reflexivity.
    assert (load32 (mem s) ad = pte (mem s) pgdir (k * PGSIZE)) as ->
      by (unfold pte; by rewrite Had).
    destruct (frame_at (mem s) pgdir k) as [p|] eqn:Hf.
    + assert (Hp : is_page p).
      { pose proof (vo_rest _ _ _ _ Hok) as Hr. rewrite Forall_forall in Hr. apply Hr.
        apply elem_of_app. left. apply elem_of_uframes. eauto. }
      destruct (frame_not_null _ _ _ _ Hf Hp) as (-> & E & Ene).
      rewrite (proj2 (Z.eqb_neq _ 0) Ene), E.
      destruct (dealloc_page _ _ _ _ k ad p Hok Hkr Had Hf) as [Hkf Hfr].
      erewrite bind_Ret by exact Hkf. erewrite bind_Ret by reflexivity.
      cbn beta. rewrite Hnext.
      destruct (IH n ltac:(lia) _ _ (k + 1) (fr_ok _ _ _ _ _ _ _ _ Hfr)) as (s' & fl' & Hrun & Hfr');
        [lia..|].
      exists s', fl'. split; [exact Hrun|]. eapply freed_trans; [|exact Hfr|exact Hfr']. lia.
    + assert (Hnp : pbit (pte (mem s) pgdir (k * PGSIZE)) = false).
      { revert Hf. unfold frame_at. cbn zeta. by destruct (pbit _). }
      rewrite Hnp, Hnext.
      destruct (IH n ltac:(lia) s fl (k + 1)) as (s' & fl' & Hrun & Hfr'); [done|lia..|].
      exists s', fl'. split; [done|]. eapply freed_prepend; [|  |exact Hfr']; [lia|].
      intros va Hva Hr. rewrite (pte_same_page _ _ va (k * PGSIZE)); [done|done|done|].
      rewrite Hkd. lia.
  - change (0 =? 0) with true. cbv iota.
    destruct (next_pde k Hkr) as (k' & -> & Hk' & Hpd).
    destruct (IH n ltac:(lia) s fl k') as (s' & fl' & Hrun & Hfr'); [done|lia..|].
    exists s', fl'. split; [done|]. eapply freed_prepend; [| |exact Hfr']; [lia|].
    intros va Hva Hr. unfold pte. revert Had. unfold pte_addr. rewrite <- (Hpd va Hva Hr).
    by destruct (table_at _ _ _).
Qed.

(** [deallocuvm] shrinking user memory from [oldsz] to [newsz] unmaps
    exactly the present pages from [PGROUNDUP(newsz)] up to [oldsz] and puts
    their frames on the free list; it changes no other translation, frees no
    page table, and terminates although it skips whole directory entries. *)
Lemma deallocuvm_ok s fl pgdir other oldsz newsz :
  as_ok s fl pgdir other → 0 ≤ newsz < oldsz → oldsz ≤ KERNBASE →
  ∃ s' fl', deallocuvm pgdir oldsz newsz s = Ret newsz s' ∧
    freed s fl pgdir other ((newsz + PGSIZE - 1) / PGSIZE) ((oldsz + PGSIZE - 1) / PGSIZE) s' fl'.
Proof.
  intros Hok Hn Ho. unfold deallocuvm. rewrite (proj2 (Z.leb_gt _ _)) by lia.
  set (k := (newsz + PGSIZE - 1) / PGSIZE).
  assert (E : PGROUNDUP newsz = k * PGSIZE).
  { rewrite PGROUNDUP_mod by (revert Ho; mmu_consts; lia). unfold k. mmu_consts.
    do 2 f_equal. lia. }
  rewrite E.
  destruct (dealloc_loop_spec pgdir other oldsz
    (Z.to_nat ((oldsz - k * PGSIZE + PGSIZE - 1) / PGSIZE)) s fl k) as (s' & fl' & Hrun & Hfr);
    [done|..].
  1-4: unfold k; revert Ho; mmu_consts; zdm.
  exists s', fl'. split; [|done]. by erewrite bind_Ret by exact Hrun.
Qed.

(** ** freevm *)

Lemma uframes_nil m pgdir :
  (∀ va, is_u32 va → va / PGSIZE < KERNBASE / PGSIZE → pbit (pte m pgdir va) = false) →
  uframes m pgdir = [].
Proof.
  intros Hn. apply elem_of_nil_inv. intros p (k & Hk & Hf)%elem_of_uframes.
  destruct (page_base_u32 k) as [Hku Hkd]; [revert Hk; mmu_consts; zdm|].
  revert Hf. unfold frame_at. cbn zeta. rewrite Hn; [done|done|]. rewrite Hkd. lia.
Qed.

Lemma freevm_loop_spec pgdir m0 n i s fl :
  0 ≤ i → i + Z.of_nat n ≤ 1024 → is_page pgdir → kmem_ok s fl →
  (∀ j, 0 ≤ j < 1024 → pde (mem s) pgdir j = pde m0 pgdir j) →
  let ts := omap (table_at m0 pgdir) (seqZ i (Z.of_nat n)) in
  Forall is_page ts → pgdir ∉ ts → NoDup (fl ++ ts) →
  ∃ s' fl', freevm_loop n pgdir i s = Ret () s' ∧ kmem_ok s' fl' ∧
    fl' ≡ₚ fl ++ ts ∧ same_outside ts (mem s) (mem s').
Proof.
  intros Hi Hn Hpg. revert i s fl Hi Hn. induction n as [|n IH]; intros i s fl Hi Hn Hk Hpde ts Hts Hnin Hnd.
  { exists s, fl. split_and!; [done|done| |apply same_outside_refl].
    subst ts. cbn. by rewrite app_nil_r. }
  subst ts. rewrite seqZ_cons in * by lia. replace (Z.pred (Z.of_nat (S n))) with (Z.of_nat n) in * by lia.
  change (Z.succ i) with (i + 1) in *. cbn [freevm_loop].
  erewrite bind_Ret by reflexivity.
  change (load32 (mem s) (pgdir + 4 * i)) with (pde (mem s) pgdir i). rewrite Hpde by lia.
  cbn [omap list_omap] in *.
  assert (Et : table_at m0 pgdir i =
    if pbit (pde m0 pgdir i) then Some (tab (pde m0 pgdir i)) else None) by done.
  rewrite Et in *. clear Et. destruct (pbit (pde m0 pgdir i)).
  - fold (tab (pde m0 pgdir i)). set (p := tab (pde m0 pgdir i)) in *.
    set (ts := omap (table_at m0 pgdir) (seqZ (i + 1) (Z.of_nat n))) in *.
    apply Forall_cons in Hts as [Hp Hts].
    assert (Hpfl : p ∉ fl) by (apply NoDup_app in Hnd as (_ & Hd & _); set_solver).
    erewrite bind_Ret by (by apply kfree_eval).
    destruct (IH (i + 1) (kfreed p s) (p :: fl)) as (s' & fl' & Hrun & Hk' & Hperm & Hs).
    + lia.
    + lia.
    + by apply kfreed_ok.
    + intros j Hj. rewrite <- Hpde by done. unfold pde.
      apply (same_outside_load32 [p] _ _ pgdir); [apply kfreed_same|by apply Forall_singleton|done| |lia|].
      * intros Hq%list_elem_of_singleton. apply Hnin. rewrite Hq. by left.
      * mmu_consts. lia.
    + done.
    + set_solver.
    + revert Hnd. apply NoDup_Permutation_proper. fold ts. solve_Permutation.
    + exists s', fl'. split_and!; [done|done| |].
      * rewrite Hperm. fold ts. solve_Permutation.
      * eapply same_outside_trans; (eapply same_outside_mono; [|apply kfreed_same || exact Hs]); set_solver.
  - erewrite bind_Ret by reflexivity. apply IH; done || lia.
Qed.

(** [freevm] returns every page an address space owns (its directory, all its
    page tables, user and kernel half, and every user frame) to the free list,
    once each, and touches no other page. *)
Lemma freevm_ok s fl pgdir other :
  as_ok s fl pgdir other →
  ∃ s' fl', freevm pgdir s = Ret () s' ∧ kmem_ok s' fl' ∧
    fl' ≡ₚ fl ++ owned (mem s) pgdir ∧
    same_outside (fl ++ owned (mem s) pgdir) (mem s) (mem s').
Proof.
  intros Hok. pose proof (vo_pgdir _ _ _ _ Hok) as Hpg.
  unfold freevm. rewrite (proj2 (Z.eqb_neq pgdir 0)) by (by apply is_page_nonzero).
  destruct (deallocuvm_ok s fl pgdir other KERNBASE 0) as (s1 & fl1 & Hrun & Hfr);
    [done|mmu_consts; lia|done|].
  erewrite bind_Ret by exact Hrun.
  destruct Hfr as [Hok1 Ht Hpte Hperm Hsub Hs].
  assert (Huf : uframes (mem s1) pgdir = []).
  { apply uframes_nil. intros va Hva Hlt. rewrite Hpte by done.
    destruct (pbit (pte (mem s) pgdir va)) eqn:E; [|by rewrite andb_false_r, E].
    rewrite bool_decide_eq_true_2; [done|]. revert Hva Hlt. mmu_consts. zdm. }
  rewrite Huf, app_nil_r in Hperm.
  assert (Hts : tables (mem s1) pgdir = omap (table_at (mem s1) pgdir) (seqZ 0 (Z.of_nat (Z.to_nat NPDENTRIES))))
    by (by rewrite tables_eq).
  destruct (vo_pgdir_notin _ _ _ _ Hok1) as (N1 & N2 & N3).
  pose proof (vo_nodup _ _ _ _ Hok1) as Hnd. rewrite Huf in Hnd.
  destruct (freevm_loop_spec pgdir (mem s1) (Z.to_nat NPDENTRIES) 0 s1 fl1)
    as (s2 & fl2 & Hrun2 & Hk2 & Hperm2 & Hs2); [lia|done|done|apply Hok1|done|..].
  1-3: cbn zeta; rewrite <- Hts.
  - eapply vo_tables, Hok1.
  - done.
  - clear Hts. apply NoDup_app in Hnd as (? & Hd & [_ [? _]%NoDup_app]%NoDup_cons).
    apply NoDup_app. split_and!; [done| |done]. set_solver.
  - cbn zeta in Hperm2, Hs2. rewrite <- Hts in Hperm2, Hs2.
    erewrite bind_Ret by exact Hrun2. erewrite kfree_eval by done. clear Hts Hrun Hrun2.
    assert (Hpgfl : pgdir ∉ fl2) by (rewrite Hperm2; set_solver).
    eexists _, (pgdir :: fl2). split_and!; [done|by apply kfreed_ok| |].
    + rewrite Hperm2, Hperm, Ht. unfold owned. solve_Permutation.
    + unfold owned.
      eapply (same_outside_trans _ _ (mem s2)); [eapply (same_outside_trans _ _ (mem s1))|].
      * eapply same_outside_mono; [|exact Hs]. intros q. rewrite !elem_of_app, elem_of_cons, Hperm. set_solver.
      * eapply same_outside_mono; [|exact Hs2]. rewrite Ht. set_solver.
      * eapply same_outside_mono; [|apply kfreed_same]. set_solver.
Qed.

End vmuser.
