(* ===== verification/VmAlloc.v ===== *)
(** * vm.c: growing user address spaces

    Allocating and mapping one zeroed frame, the step shared by [allocuvm],
    [copyuvm] and the page-fault handler, and its iteration. *)

From S2P Require Import Prelude Mmu CString Kalloc Vm VmSpec VmUser.

#[local] Opaque tables uframes.

Section vmalloc.
  Context `{KernelImage}.

(** ** Allocating and mapping one user page *)

(** page [k] has been given the frame [p], whose contents are those in [m2] *)
Record one_more (s : phys) (fl : list Z) (pgdir : Z) (other : list Z) (k p perm : Z)
    (m2 : ram) (s' : phys) (fl' : list Z) : Prop := {
  om_ok : as_ok s' fl' pgdir other;
  om_pte : ∀ va, is_u32 va → pte (mem s') pgdir va =
    if decide (va / PGSIZE = k) then mkpte (V2P p) perm else pte (mem s) pgdir va;
  om_frame : p ∈ fl;
  om_pages : fl' ++ owned (mem s') pgdir ≡ₚ fl ++ owned (mem s) pgdir;
  om_tables : tables (mem s) pgdir ⊆ tables (mem s') pgdir;
  om_sub : fl' ⊆ fl;
  om_data : ∀ b, p ≤ b < p + PGSIZE → load8 (mem s') b = load8 m2 b;
  om_count : (length fl ≤ length fl' + 2)%nat;
  om_same : same_outside (fl ++ pgdir :: tables (mem s) pgdir) (mem s) (mem s') }.

(** the page tables ran out: the frame is still the caller's *)
Record no_more (s : phys) (fl : list Z) (pgdir : Z) (other : list Z) (p : Z)
    (s' : phys) : Prop := {
  nm_ok : as_ok s' [] pgdir (p :: other);
  nm_pte : ∀ va, is_u32 va → pte (mem s') pgdir va = pte (mem s) pgdir va;
  nm_pages : p :: owned (mem s') pgdir ≡ₚ fl ++ owned (mem s) pgdir;
  nm_tables : tables (mem s) pgdir ⊆ tables (mem s') pgdir;
  nm_free : fl = [p];
  nm_same : same_outside (fl ++ pgdir :: tables (mem s) pgdir) (mem s) (mem s') }.

Lemma alloc_one s fl pgdir other k perm :
  as_ok s fl pgdir other → 0 ≤ k < KERNBASE / PGSIZE → 0 ≤ perm < 4096 →
  pbit (pte (mem s) pgdir (k * PGSIZE)) = false →
  (fl = [] ∧ kalloc s = Ret 0 s) ∨
  ∃ p s1, is_page p ∧ p ∈ fl ∧ kalloc s = Ret p s1 ∧ mem s1 = mem s ∧
    ∀ m2, same_outside [p] (mem s) m2 →
    ∃ r s3 fl3,
      mappages pgdir (k * PGSIZE) PGSIZE (V2P p) perm (set_mem m2 s1) = Ret r s3 ∧
      (r = 0 ∧ one_more s fl pgdir other k p perm m2 s3 fl3 ∨
       r = -1 ∧ no_more s fl pgdir other p s3).
Proof.
  intros Hok Hk Hperm Hnp. destruct fl as [|p fl]; [left|right].
  { split; [done|]. apply kalloc_nil, Hok. }
  destruct (page_base_u32 k) as [Hku Hkd]; [revert Hk; mmu_consts; zdm|].
  destruct (vm_alloc _ _ _ _ _ Hok) as (s1 & Hk1 & Em & Hp & Hok1).
  exists p, s1. split_and!; [done|by left|done|done|]. intros m2 Hs2.
  rewrite <- Em in Hs2.
  destruct (vm_write _ _ _ _ [p] m2 Hok1 Hs2) as (Hok2 & Ht2 & _ & Hv2).
  { intros q ->%list_elem_of_singleton. by left. }
  rewrite Em in Hs2, Ht2, Hv2.
  assert (Hv2p : is_u32 (V2P p)) by (rewrite is_page_V2P by done;
    pose proof (is_page_range _ Hp); mmu_consts; lia).
  assert (Hnpg : npages (k * PGSIZE) PGSIZE = 1) by (unfold npages; mmu_consts; zdm).
  destruct (mappages_ok _ _ _ _ (k * PGSIZE) PGSIZE (V2P p) perm Hok2)
    as (r & s3 & fl3 & j & Hrun & Hm & Hr & Hc); [done|..].
  { mmu_consts; lia. } { revert Hk. mmu_consts. zdm. } { done. }
  { intros va' Hva' Hr. cbn [mem set_mem]. rewrite Hv2 by done.
    rewrite (pte_same_page _ _ va' (k * PGSIZE)); [done..|].
    revert Hr. mmu_consts. zdm. }
  exists r, s3, fl3. split; [done|]. cbn [mem set_mem] in *.
  pose proof (md_tables _ _ _ _ _ _ _ _ _ _ Hm) as Hts. cbn [mem set_mem] in Hts.
  rewrite Ht2 in Hts.
  pose proof (md_pages _ _ _ _ _ _ _ _ _ _ Hm) as Hpg. cbn [mem set_mem] in Hpg.
  rewrite Ht2 in Hpg.
  assert (Hs3 : same_outside (p :: fl ++ pgdir :: tables (mem s) pgdir) (mem s) (mem s3)).
  { eapply (same_outside_trans _ _ m2).
    - eapply same_outside_mono; [|exact Hs2]. set_solver.
    - eapply same_outside_mono; [|exact (md_same _ _ _ _ _ _ _ _ _ _ Hm)].
      intros q [->|Hq]%elem_of_cons; [set_solver|].
      assert (q ∈ fl3 ++ tables (mem s3) pgdir) as Hq' by set_solver.
      rewrite Hpg in Hq'. set_solver. }
  destruct Hr as [(-> & ->)|(-> & Hj & ->)]; [left|right]; (split; [done|]).
  - assert (Hpte : ∀ va, is_u32 va → pte (mem s3) pgdir va =
      if decide (va / PGSIZE = k) then mkpte (V2P p) perm else pte (mem s) pgdir va).
    { intros va Hva. rewrite (md_pte _ _ _ _ _ _ _ _ _ _ Hm) by done. cbn [mem set_mem].
      cbn zeta. rewrite Hnpg, Hkd, Hv2 by done. repeat case_decide; try lia.
      replace (va / PGSIZE - k) with 0 by lia. by rewrite Z.mul_0_l, Z.add_0_r, u32_id. }
    destruct (mkpte_frame p perm Hp Hperm) as (Hb & Htab & _).
    assert (Huf : uframes (mem s3) pgdir ≡ₚ p :: uframes (mem s) pgdir).
    { apply (uframes_set _ _ _ k); [done|..].
      - unfold frame_at. cbn zeta. by rewrite Hnp.
      - unfold frame_at. rewrite Hpte by done. rewrite Hkd, decide_True by done.
        cbn zeta. by rewrite Hb, Htab.
      - intros q Hq Hne. apply frame_at_ext.
        destruct (page_base_u32 q) as [Hqu Hqd]; [revert Hq; mmu_consts; zdm|].
        rewrite Hpte by done. by rewrite Hqd, decide_False. }
    split; [|done|by left| |done| | |cbn; lia|done].
    + eapply vm_ok_perm; [|exact (md_ok _ _ _ _ _ _ _ _ _ _ Hm)]. rewrite Huf. solve_Permutation.
    + unfold owned. rewrite Huf.
      transitivity ((fl3 ++ tables (mem s3) pgdir) ++ pgdir :: p :: uframes (mem s) pgdir);
        [solve_Permutation|]. rewrite Hpg. solve_Permutation.
    + etrans; [by eapply mapped_sub|]. set_solver.
    + intros b Hb'. apply (md_same _ _ _ _ _ _ _ _ _ _ Hm).
      intros q Hq Hqb. pose proof (md_ok _ _ _ _ _ _ _ _ _ _ Hm) as Hok3.
      destruct (vo_rest_notin _ _ _ _ Hok3 p) as (_ & Hn1 & Hn2); [by left|].
      pose proof (vo_pages _ _ _ _ Hok3) as Hps. rewrite Forall_forall in Hps.
      apply (page_disjoint q p b); [apply Hps; set_solver|done|set_solver|done|done].
  - assert (Hpte : ∀ va, is_u32 va → pte (mem s3) pgdir va = pte (mem s) pgdir va).
    { intros va Hva. rewrite (md_pte _ _ _ _ _ _ _ _ _ _ Hm) by done. cbn [mem set_mem].
      cbn zeta. rewrite decide_False by lia. by apply Hv2. }
    assert (Huf : uframes (mem s3) pgdir = uframes (mem s) pgdir) by (by apply uframes_ext).
    split; [|done| |done| |done].
    + eapply vm_ok_perm; [|exact (md_ok _ _ _ _ _ _ _ _ _ _ Hm)]. rewrite Huf. solve_Permutation.
    + unfold owned. rewrite Huf. cbn [app] in Hpg. rewrite Hpg. solve_Permutation.
    + destruct fl; [done|]. cbn in Hc. lia.
Qed.

Lemma memset_page_same p m : same_outside [p] m (memset p 0 PGSIZE m).
Proof. apply same_outside_memset. unfold PGSIZE. lia. Qed.

Definition zero_page (m : ram) (p : Z) : Prop := ∀ b, p ≤ b < p + PGSIZE → load8 m b = 0.

Lemma memset_page_zero p m : zero_page (memset p 0 PGSIZE m) p.
Proof. intros b Hb. rewrite memset_ok by (unfold PGSIZE; lia). by rewrite decide_True. Qed.

(** ** Growing by several pages *)

(** pages of others keep their contents *)
Lemma rest_protected s fl pgdir rest q m' b :
  vm_ok s fl pgdir rest → q ∈ rest →
  same_outside (fl ++ pgdir :: tables (mem s) pgdir) (mem s) m' →
  q ≤ b < q + PGSIZE → load8 m' b = load8 (mem s) b.
Proof.
  intros Hok Hq Hs Hb. apply Hs. intros p Hp Hpb.
  destruct (vo_rest_notin _ _ _ _ Hok q Hq) as (N1 & N2 & N3).
  pose proof (vo_rest _ _ _ _ Hok) as Hr. rewrite Forall_forall in Hr.
  assert (is_page p).
  { apply elem_of_app in Hp as [Hp|Hp]; [by apply (vo_fl_notin _ _ _ _ Hok)|].
    pose proof (vo_pages _ _ _ _ Hok) as Hps. rewrite Forall_forall in Hps. apply Hps.
    clear -Hp. set_solver. }
  apply (page_disjoint p q b); auto. intros ->. clear -Hp N1 N2 N3. set_solver.
Qed.

(** user pages [lo .. hi-1] are now mapped to fresh zeroed frames *)
Record grown (s : phys) (fl : list Z) (pgdir : Z) (other : list Z) (lo hi : Z)
    (s' : phys) (fl' : list Z) : Prop := {
  gr_ok : as_ok s' fl' pgdir other;
  gr_in : ∀ va, is_u32 va → lo ≤ va / PGSIZE < hi →
    ∃ p, p ∈ fl ∧ is_page p ∧ zero_page (mem s') p ∧
      pte (mem s') pgdir va = mkpte (V2P p) (Z.lor PTE_W PTE_U);
  gr_out : ∀ va, is_u32 va → ¬ (lo ≤ va / PGSIZE < hi) →
    pte (mem s') pgdir va = pte (mem s) pgdir va;
  gr_pages : fl' ++ owned (mem s') pgdir ≡ₚ fl ++ owned (mem s) pgdir;
  gr_tables : tables (mem s) pgdir ⊆ tables (mem s') pgdir;
  gr_sub : fl' ⊆ fl;
  gr_count : Z.of_nat (length fl) ≤ Z.of_nat (length fl') + 2 * Z.max 0 (hi - lo);
  gr_same : same_outside (fl ++ pgdir :: tables (mem s) pgdir) (mem s) (mem s') }.

Lemma grown_none s fl pgdir other lo hi :
  as_ok s fl pgdir other → hi ≤ lo → grown s fl pgdir other lo hi s fl.
Proof.
  intros Hok Hle. split; try done; [intros va _ ?; lia|lia].
Qed.

Lemma fl_tables_sub s fl pgdir s' fl' other :
  as_ok s fl pgdir other → as_ok s' fl' pgdir other →
  fl' ++ owned (mem s') pgdir ≡ₚ fl ++ owned (mem s) pgdir →
  uframes (mem s) pgdir ⊆ uframes (mem s') pgdir →
  fl' ++ pgdir :: tables (mem s') pgdir ⊆ fl ++ pgdir :: tables (mem s) pgdir.
Proof.
  intros Hok Hok' Hpg Huf q Hq.
  assert (Hin : q ∈ fl' ++ owned (mem s') pgdir)
    by (clear -Hq; unfold owned; set_solver).
  rewrite Hpg in Hin. unfold owned in Hin.
  rewrite elem_of_app, elem_of_cons, elem_of_app in Hin.
  rewrite elem_of_app, elem_of_cons. destruct Hin as [?|[?|[?|Hin]]]; auto.
  apply Huf in Hin. exfalso.
  destruct (vo_rest_notin _ _ _ _ Hok' q) as (N1 & N2 & N3); [apply elem_of_app; by left|].
  clear -Hq N1 N2 N3. set_solver.
Qed.

Lemma grown_frames s fl pgdir other lo hi s' fl' :
  grown s fl pgdir other lo hi s' fl' →
  (∀ va, is_u32 va → lo ≤ va / PGSIZE < hi → pbit (pte (mem s) pgdir va) = false) →
  uframes (mem s) pgdir ⊆ uframes (mem s') pgdir.
Proof.
  intros Hg Hn q (j & Hj & Hf)%elem_of_uframes. apply elem_of_uframes. exists j.
  split; [done|]. destruct (page_base_u32 j) as [Hju Hjd]; [revert Hj; mmu_consts; zdm|].
  rewrite (frame_at_ext (mem s)); [done|]. apply (gr_out _ _ _ _ _ _ _ _ Hg); [done|].
  intros Hr. specialize (Hn _ Hju Hr). revert Hf. unfold frame_at. cbn zeta. by rewrite Hn.
Qed.

Lemma grown_trans s0 fl0 s1 fl1 s2 fl2 pgdir other lo mid hi :
  lo ≤ mid ≤ hi → hi ≤ KERNBASE / PGSIZE → 0 ≤ lo → as_ok s0 fl0 pgdir other →
  (∀ va, is_u32 va → lo ≤ va / PGSIZE < hi → pbit (pte (mem s0) pgdir va) = false) →
  grown s0 fl0 pgdir other lo mid s1 fl1 → grown s1 fl1 pgdir other mid hi s2 fl2 →
  grown s0 fl0 pgdir other lo hi s2 fl2.
Proof.
  intros Hle Hhi Hlo Hok0 Hn HA HB.
  assert (Huf : uframes (mem s0) pgdir ⊆ uframes (mem s1) pgdir)
    by (eapply grown_frames; [exact HA|]; intros; apply Hn; [done|lia]).
  pose proof (fl_tables_sub _ _ _ _ _ _ Hok0 (gr_ok _ _ _ _ _ _ _ _ HA)
    (gr_pages _ _ _ _ _ _ _ _ HA) Huf) as Hsub.
  destruct HA as [A1 A2 A3 A4 A5 A6 A8 A7], HB as [B1 B2 B3 B4 B5 B6 B8 B7]. split.
  - done.
  - intros va Hva Hr. destruct (decide (va / PGSIZE < mid)).
    + destruct (A2 va) as (p & Hp & Hpg & Hz & Hpte); [done|lia|].
      exists p. split_and!; [done..| |].
      * intros b Hb. rewrite <- (Hz b Hb). eapply rest_protected; [exact A1| |exact B7|exact Hb].
        apply elem_of_app. left. apply elem_of_uframes. exists (va / PGSIZE).
        split; [lia|]. destruct (page_base_u32 (va / PGSIZE)) as [Hju Hjd];
          [revert Hr Hhi; mmu_consts; zdm|].
        unfold frame_at. cbn zeta.
        rewrite (pte_same_page _ _ _ va), Hpte by done.
        by destruct (mkpte_frame p (Z.lor PTE_W PTE_U)) as (-> & -> & _).
      * rewrite B3; [done|done|lia].
    + destruct (B2 va) as (p & Hp & ?); [done|lia|]. exists p. split; [by apply A6|done].
  - intros va Hva Hr. rewrite B3, A3; [done|done|lia|done|lia].
  - by rewrite B4.
  - by etrans.
  - by etrans.
  - lia.
  - eapply same_outside_trans; [exact A7|]. by eapply same_outside_mono.
Qed.

Lemma grown_one s fl pgdir other k p s' fl' m2 :
  one_more s fl pgdir other k p (Z.lor PTE_W PTE_U) m2 s' fl' → is_page p → zero_page m2 p →
  grown s fl pgdir other k (k + 1) s' fl'.
Proof.
  intros [H1 H2 H3 H4 H5 H6 H7 H9 H8] Hp Hz. split; try done; [| |lia].
  - intros va Hva Hr. exists p. split_and!; [done..| |].
    + intros b Hb. rewrite H7 by done. by apply Hz.
    + rewrite H2 by done. by rewrite decide_True by lia.
  - intros va Hva Hr. rewrite H2 by done. by rewrite decide_False by lia.
Qed.

End vmalloc.
