(* ===== verification/VmGrow.v ===== *)
(** * vm.c: allocuvm

    Growing an address space page by page, and giving everything back when a
    page or a page table cannot be allocated half way. *)

From S2P Require Import Prelude Mmu CString Kalloc Vm VmSpec VmUser VmAlloc.

#[local] Opaque tables uframes.

Section vmgrow.
  Context `{KernelImage}.

(** a growth from page [lo] that has reached page [k]; [extra] are the frames
    in the hands of the code *)
Record partial (s0 : phys) (fl0 : list Z) (pgdir : Z) (lo k : Z) (extra : list Z)
    (s : phys) (fl : list Z) : Prop := {
  pa_out : ∀ va, is_u32 va → ¬ (lo ≤ va / PGSIZE < k) →
    pte (mem s) pgdir va = pte (mem s0) pgdir va;
  pa_pages : extra ++ fl ++ owned (mem s) pgdir ≡ₚ fl0 ++ owned (mem s0) pgdir;
  pa_same : same_outside (fl0 ++ pgdir :: tables (mem s0) pgdir) (mem s0) (mem s) }.

Lemma grown_partial s0 fl0 pgdir other lo k s fl :
  grown s0 fl0 pgdir other lo k s fl → partial s0 fl0 pgdir lo k [] s fl.
Proof. intros []. by split. Qed.

Lemma frames_kept m0 m pgdir lo hi q :
  (∀ va, is_u32 va → lo ≤ va / PGSIZE < hi → pbit (pte m0 pgdir va) = false) →
  (∀ va, is_u32 va → ¬ (lo ≤ va / PGSIZE < hi) → pte m pgdir va = pte m0 pgdir va) →
  q ∈ uframes m0 pgdir → q ∈ uframes m pgdir.
Proof.
  intros Hn Hout (j & Hj & Hf)%elem_of_uframes. apply elem_of_uframes. exists j.
  split; [done|]. destruct (page_base_u32 j) as [Hju Hjd]; [revert Hj; mmu_consts; zdm|].
  rewrite (frame_at_ext m0); [done|]. apply Hout; [done|]. intros Hr.
  specialize (Hn _ Hju Hr). revert Hf. unfold frame_at. cbn zeta. by rewrite Hn.
Qed.

(** after the pages [lo .. hi-1] are freed again, nothing of the growth is left *)
Lemma partial_freed s0 fl0 pgdir other lo k hi extra s fl s4 fl4 :
  (∀ va, is_u32 va → lo ≤ va / PGSIZE < hi → pbit (pte (mem s0) pgdir va) = false) →
  k ≤ hi → partial s0 fl0 pgdir lo k extra s fl →
  freed s fl pgdir (extra ++ other) lo hi s4 fl4 →
  (∀ va, is_u32 va → pbit (pte (mem s4) pgdir va) = pbit (pte (mem s0) pgdir va)) ∧
  partial s0 fl0 pgdir lo hi extra s4 fl4.
Proof.
  intros Hn Hk [P1 P2 P3] [F1 F2 F3 F4 F5 F6].
  assert (Hout : ∀ va, is_u32 va → ¬ (lo ≤ va / PGSIZE < hi) →
    pte (mem s4) pgdir va = pte (mem s0) pgdir va).
  { intros va Hva Hr. rewrite F3 by done. rewrite bool_decide_eq_false_2 by done. cbn.
    apply P1; [done|lia]. }
  assert (Hpg : extra ++ fl4 ++ owned (mem s4) pgdir ≡ₚ fl0 ++ owned (mem s0) pgdir).
  { rewrite <- P2. unfold owned. rewrite F2.
    transitivity (extra ++ pgdir :: tables (mem s) pgdir ++ (fl4 ++ uframes (mem s4) pgdir));
      [solve_Permutation|]. rewrite F4. solve_Permutation. }
  split.
  - intros va Hva. destruct (decide (lo ≤ va / PGSIZE < hi)) as [Hr|Hr].
    + rewrite (Hn va Hva Hr), F3 by done. rewrite bool_decide_eq_true_2 by done. cbn.
      destruct (pbit (pte (mem s) pgdir va)) eqn:E; [done|]. exact E.
    + by rewrite Hout.
  - split; [exact Hout|exact Hpg|].
    eapply same_outside_trans; [exact P3|]. eapply same_outside_mono; [|exact F6].
    intros q Hq. rewrite <- F2 in Hq.
    assert (Hin : q ∈ fl0 ++ owned (mem s0) pgdir).
    { rewrite <- Hpg. clear -Hq. unfold owned. set_solver. }
    unfold owned in Hin. rewrite elem_of_app, elem_of_cons, elem_of_app in Hin.
    rewrite elem_of_app, elem_of_cons. destruct Hin as [?|[?|[?|Hin]]]; auto. exfalso.
    apply (frames_kept _ _ _ _ _ _ Hn Hout) in Hin.
    destruct (vo_rest_notin _ _ _ _ F1 q) as (N1 & N2 & N3); [apply elem_of_app; by left|].
    clear -Hq N1 N3. set_solver.
Qed.

(** the pages that grow the address space from [oldsz] to [newsz] *)
Definition grow_lo (oldsz : Z) : Z := (oldsz + PGSIZE - 1) / PGSIZE.

(** nothing happened, except that empty page tables may have been added *)
Record undone (s0 : phys) (fl0 : list Z) (pgdir : Z) (other : list Z)
    (s : phys) (fl : list Z) : Prop := {
  un_ok : as_ok s fl pgdir other;
  un_present : ∀ va, is_u32 va → pbit (pte (mem s) pgdir va) = pbit (pte (mem s0) pgdir va);
  un_pte : ∀ va, is_u32 va → pbit (pte (mem s0) pgdir va) = true →
    pte (mem s) pgdir va = pte (mem s0) pgdir va;
  un_pages : fl ++ owned (mem s) pgdir ≡ₚ fl0 ++ owned (mem s0) pgdir;
  un_same : same_outside (fl0 ++ pgdir :: tables (mem s0) pgdir) (mem s0) (mem s) }.

Lemma partial_undone s0 fl0 pgdir other lo hi s fl :
  (∀ va, is_u32 va → lo ≤ va / PGSIZE < hi → pbit (pte (mem s0) pgdir va) = false) →
  as_ok s fl pgdir other →
  (∀ va, is_u32 va → pbit (pte (mem s) pgdir va) = pbit (pte (mem s0) pgdir va)) →
  partial s0 fl0 pgdir lo hi [] s fl → undone s0 fl0 pgdir other s fl.
Proof.
  intros Hn Hok Hp [P1 P2 P3]. split; try done. intros va Hva Hb. apply P1; [done|].
  intros Hr. by rewrite (Hn va Hva Hr) in Hb.
Qed.

(** the failure path of [allocuvm]: free what was mapped, then the spare frame *)
Lemma alloc_backout s0 fl0 pgdir other oldsz newsz k extra s fl :
  0 ≤ oldsz < newsz → newsz ≤ KERNBASE → grow_lo oldsz ≤ k ≤ grow_lo newsz →
  (∀ va, is_u32 va → grow_lo oldsz ≤ va / PGSIZE < grow_lo newsz →
     pbit (pte (mem s0) pgdir va) = false) →
  as_ok s fl pgdir (extra ++ other) →
  partial s0 fl0 pgdir (grow_lo oldsz) k extra s fl →
  ∃ s4 fl4, deallocuvm pgdir newsz oldsz s = Ret oldsz s4 ∧
    as_ok s4 fl4 pgdir (extra ++ other) ∧
    (∀ va, is_u32 va → pbit (pte (mem s4) pgdir va) = pbit (pte (mem s0) pgdir va)) ∧
    partial s0 fl0 pgdir (grow_lo oldsz) (grow_lo newsz) extra s4 fl4.
Proof.
  intros Ho Hnk Hk Hn Hok Hpa.
  destruct (deallocuvm_ok s fl pgdir (extra ++ other) newsz oldsz) as (s4 & fl4 & Hrun & Hfr);
    [done|lia|lia|].
  exists s4, fl4. split; [done|]. split; [apply Hfr|].
  eapply partial_freed; [exact Hn| |exact Hpa|exact Hfr]. lia.
Qed.

Lemma partial_kfree s0 fl0 pgdir other lo hi p s fl :
  (∀ va, is_u32 va → lo ≤ va / PGSIZE < hi → pbit (pte (mem s0) pgdir va) = false) →
  as_ok s fl pgdir (p :: other) → partial s0 fl0 pgdir lo hi [p] s fl →
  kfree p s = Ret () (kfreed p s) ∧ as_ok (kfreed p s) (p :: fl) pgdir other ∧
  (∀ va, is_u32 va → pte (mem (kfreed p s)) pgdir va = pte (mem s) pgdir va) ∧
  partial s0 fl0 pgdir lo hi [] (kfreed p s) (p :: fl).
Proof.
  intros Hn Hok Hpa.
  assert (Hok' : vm_ok s fl pgdir (p :: uframes (mem s) pgdir ++ other))
    by (eapply vm_ok_perm; [|exact Hok]; solve_Permutation).
  destruct (vm_free _ _ _ _ _ Hok') as (Hkf & Hp & Hok2 & Hs2 & Ht2 & _ & Hv2).
  assert (Huf : uframes (mem (kfreed p s)) pgdir = uframes (mem s) pgdir) by (by apply uframes_ext).
  destruct Hpa as [P1 P2 P3]. split_and!; [done| |done|split].
  - unfold as_ok. by rewrite Huf.
  - intros va Hva Hr. rewrite Hv2 by done. by apply P1.
  - unfold owned in *. rewrite Ht2, Huf, <- P2. solve_Permutation.
  - eapply same_outside_trans; [exact P3|]. eapply same_outside_mono; [|exact Hs2].
    intros q ->%list_elem_of_singleton.
    assert (Hin : p ∈ fl0 ++ owned (mem s0) pgdir) by (rewrite <- P2; by left).
    unfold owned in Hin. rewrite elem_of_app, elem_of_cons, elem_of_app in Hin.
    rewrite elem_of_app, elem_of_cons. destruct Hin as [?|[?|[?|Hin]]]; auto. exfalso.
    apply (frames_kept _ (mem s) _ _ _ _ Hn P1) in Hin.
    pose proof (vo_nodup _ _ _ _ Hok') as Hnd.
    rewrite NoDup_app, NoDup_cons, NoDup_app, NoDup_cons in Hnd.
    destruct Hnd as (_ & _ & _ & _ & _ & Hnd & _). clear -Hnd Hin. set_solver.
Qed.

Lemma no_more_partial s0 fl0 pgdir other lo k s fl p s3 :
  as_ok s0 fl0 pgdir other →
  (∀ va, is_u32 va → lo ≤ va / PGSIZE < k → pbit (pte (mem s0) pgdir va) = false) →
  grown s0 fl0 pgdir other lo k s fl → no_more s fl pgdir other p s3 →
  as_ok s3 [] pgdir (p :: other) ∧ partial s0 fl0 pgdir lo k [p] s3 [].
Proof.
  intros Hok Hn Hg [N1 N2 N3 N4 N6 N5]. split; [done|].
  pose proof (fl_tables_sub _ _ _ _ _ _ Hok (gr_ok _ _ _ _ _ _ _ _ Hg)
    (gr_pages _ _ _ _ _ _ _ _ Hg) (grown_frames _ _ _ _ _ _ _ _ Hg Hn)) as Hsub.
  destruct Hg as [G1 G2 G3 G4 G5 G6 G8 G7]. split.
  - intros va Hva Hr. rewrite N2 by done. by apply G3.
  - cbn [app]. by rewrite N3.
  - eapply same_outside_trans; [exact G7|]. by eapply same_outside_mono.
Qed.

(** [allocuvm] either maps the whole range or undoes what it did *)
Definition alloc_result (s0 : phys) (fl0 : list Z) (pgdir : Z) (other : list Z)
    (oldsz newsz r : Z) (s : phys) (fl : list Z) : Prop :=
  r = newsz ∧ grown s0 fl0 pgdir other (grow_lo oldsz) (grow_lo newsz) s fl ∨
  r = 0 ∧ undone s0 fl0 pgdir other s fl ∧
    Z.of_nat (length fl0) < 2 * (grow_lo newsz - grow_lo oldsz).

Lemma alloc_loop_spec s0 fl0 pgdir other oldsz newsz n k s fl :
  as_ok s0 fl0 pgdir other → 0 ≤ oldsz → newsz ≤ KERNBASE →
  (∀ va, is_u32 va → grow_lo oldsz ≤ va / PGSIZE < grow_lo newsz →
     pbit (pte (mem s0) pgdir va) = false) →
  grow_lo oldsz ≤ k ≤ grow_lo newsz → grow_lo newsz - k < Z.of_nat n →
  grown s0 fl0 pgdir other (grow_lo oldsz) k s fl →
  ∃ r s' fl', allocuvm_loop n pgdir (k * PGSIZE) oldsz newsz s = Ret r s' ∧
    alloc_result s0 fl0 pgdir other oldsz newsz r s' fl'.
Proof.
  intros Hok Ho Hnb Hn. revert k s fl. induction n as [|n IH]; intros k s fl Hk Hfuel Hg; [lia|].
  cbn [allocuvm_loop]. destruct (Z.ltb_spec (k * PGSIZE) newsz) as [E|E].
  2: { exists newsz, s, fl. split; [done|]. left. split; [done|].
       replace (grow_lo newsz) with k; [done|]. revert E Hk. unfold grow_lo. mmu_consts. zdm. }
  assert (Hkr : 0 ≤ k < KERNBASE / PGSIZE).
  { revert E Hk Ho Hnb. unfold grow_lo. mmu_consts. zdm. }
  assert (Hk1 : k + 1 ≤ grow_lo newsz) by (revert E; unfold grow_lo; mmu_consts; zdm).
  assert (Hon : oldsz < newsz) by (revert E Hk; unfold grow_lo; mmu_consts; zdm).
  destruct (page_base_u32 k) as [Hku Hkd]; [revert Hkr; mmu_consts; zdm|].
  assert (Hn' : ∀ va, is_u32 va → grow_lo oldsz ≤ va / PGSIZE < k →
    pbit (pte (mem s0) pgdir va) = false) by (intros; apply Hn; [done|lia]).
  destruct (alloc_one s fl pgdir other k (Z.lor PTE_W PTE_U))
    as [[-> Hk0]|(p & s1 & Hp & Hin & Hka & Em & Hmap)]; [apply Hg|done|done| |..].
  { rewrite (gr_out _ _ _ _ _ _ _ _ Hg) by (done || lia). apply Hn; [done|lia]. }
  { erewrite bind_Ret by exact Hk0. cbn [Z.eqb].
    destruct (alloc_backout s0 fl0 pgdir other oldsz newsz k [] s [])
      as (s4 & fl4 & Hrun & Hok4 & Hp4 & Hpa4); [lia|done|lia|done|apply Hg|by eapply grown_partial|].
    erewrite bind_Ret by exact Hrun. exists 0, s4, fl4. split; [done|]. right. split; [done|].
    pose proof (gr_count _ _ _ _ _ _ _ _ Hg) as Hcnt. cbn [length] in Hcnt.
    split; [eapply partial_undone; [exact Hn|exact Hok4|exact Hp4|exact Hpa4]|lia]. }
  erewrite bind_Ret by exact Hka. rewrite (proj2 (Z.eqb_neq p 0)) by (by apply is_page_nonzero).
  erewrite bind_Ret by reflexivity. cbn beta.
  destruct (Hmap (memset p 0 PGSIZE (mem s1))) as (r & s3 & fl3 & Hrun & Hr).
  { rewrite Em. apply memset_page_same. }
  erewrite bind_Ret by exact Hrun. destruct Hr as [[-> Hom]|[-> Hnm]]; cbn [Z.ltb Z.compare].
  - replace (u32 (k * PGSIZE + PGSIZE)) with ((k + 1) * PGSIZE)
      by (rewrite u32_id; [lia|]; revert Hkr; mmu_consts; zdm).
    apply IH with (fl := fl3); [lia|lia|].
    eapply grown_trans; [| | |done| |exact Hg|].
    + lia.
    + revert Hkr. lia.
    + revert Ho. unfold grow_lo. mmu_consts. zdm.
    + intros va Hva Hr. apply Hn; [done|lia].
    + eapply grown_one; [exact Hom|done|apply memset_page_zero].
  - destruct (no_more_partial _ _ _ _ _ _ _ _ _ _ Hok Hn' Hg Hnm) as [Hok3 Hpa].
    destruct (alloc_backout s0 fl0 pgdir other oldsz newsz k [p] s3 [])
      as (s4 & fl4 & Hrun4 & Hok4 & Hp4 & Hpa4); [lia|done|lia|done..|].
    erewrite bind_Ret by exact Hrun4.
    destruct (partial_kfree _ _ _ _ _ _ _ _ _ Hn Hok4 Hpa4) as (Hkf & Hok5 & Hv5 & Hpa5).
    erewrite bind_Ret by exact Hkf. exists 0, (kfreed p s4), (p :: fl4). split; [done|].
    pose proof (gr_count _ _ _ _ _ _ _ _ Hg) as Hcnt.
    rewrite (nm_free _ _ _ _ _ _ Hnm) in Hcnt. cbn [length] in Hcnt.
    right. split; [done|]. split; [|lia]. eapply partial_undone; [exact Hn|done| |done].
    intros va Hva. rewrite Hv5 by done. by apply Hp4.
Qed.

(** [allocuvm] growing user memory from [oldsz] to [newsz] below KERNBASE
    either returns [newsz], having mapped every page from [PGROUNDUP(oldsz)] up
    to [newsz] user-writable to a distinct zero-filled frame taken from the free
    list, or returns 0 with every mapping as before and every page it took given
    back (empty page tables may remain in the directory). *)
Lemma allocuvm_ok s fl pgdir other oldsz newsz :
  as_ok s fl pgdir other → 0 ≤ oldsz ≤ newsz → newsz < KERNBASE →
  (∀ va, is_u32 va → grow_lo oldsz ≤ va / PGSIZE < grow_lo newsz →
     pbit (pte (mem s) pgdir va) = false) →
  ∃ r s' fl', allocuvm pgdir oldsz newsz s = Ret r s' ∧
    alloc_result s fl pgdir other oldsz newsz r s' fl'.
Proof.
  intros Hok Ho Hnk Hn. unfold allocuvm.
  rewrite (proj2 (Z.leb_gt _ _)), (proj2 (Z.ltb_ge _ _)) by lia.
  rewrite PGROUNDUP_mod by (revert Hnk; mmu_consts; lia).
  replace ((oldsz + 4095) / 4096 * 4096) with (grow_lo oldsz * PGSIZE)
    by (unfold grow_lo; mmu_consts; zdm).
  apply (alloc_loop_spec s fl pgdir other oldsz newsz _ _ s fl); [done|lia|lia|done| | |].
  - unfold grow_lo. mmu_consts. zdm.
  - unfold grow_lo. mmu_consts. zdm.
  - apply grown_none; [done|lia].
Qed.
(** ** Lazy allocation: the page-fault handler

    On a fault at an unmapped user page the handler either maps exactly that
    page, user-writable, to a zero-filled frame taken from the free list and
    returns 1, or returns 0 with every translation unchanged; no page is leaked,
    the invariant is kept, and no page other than free pages and page tables of
    this address space is written. *)
Lemma page_fault_handler_ok s fl pgdir other k :
  as_ok s fl pgdir other → 0 ≤ k < KERNBASE / PGSIZE →
  pbit (pte (mem s) pgdir (k * PGSIZE)) = false →
  ∃ r s' fl', page_fault_handler pgdir (k * PGSIZE) s = Ret r s' ∧
    as_ok s' fl' pgdir other ∧
    fl' ++ owned (mem s') pgdir ≡ₚ fl ++ owned (mem s) pgdir ∧
    same_outside (fl ++ pgdir :: tables (mem s) pgdir) (mem s) (mem s') ∧
    (r = 1 ∧ (length fl ≤ length fl' + 2)%nat ∧
     (∃ p, p ∈ fl ∧ zero_page (mem s') p ∧ ∀ va, is_u32 va →
        pte (mem s') pgdir va =
        if decide (va / PGSIZE = k) then mkpte (V2P p) (Z.lor PTE_W PTE_U)
        else pte (mem s) pgdir va) ∨
     r = 0 ∧ (length fl ≤ 1)%nat ∧
       (∀ va, is_u32 va → pte (mem s') pgdir va = pte (mem s) pgdir va)).
Proof.
  intros Hok Hk Hnp. unfold page_fault_handler.
  destruct (alloc_one s fl pgdir other k (Z.lor PTE_W PTE_U))
    as [[-> Hk0]|(p & s1 & Hp & Hin & Hk1 & Em & Hmap)]; [done|done|done|done|..].
  { erewrite bind_Ret by exact Hk0. exists 0, s, []. split_and!; try done. right. split_and!; [done|cbn; lia|done]. }
  erewrite bind_Ret by exact Hk1. rewrite (proj2 (Z.eqb_neq p 0)) by (by apply is_page_nonzero).
  erewrite bind_Ret by reflexivity. cbn beta.
  destruct (Hmap (memset p 0 PGSIZE (mem s1))) as (r & s3 & fl3 & Hrun & Hr).
  { rewrite Em. apply memset_page_same. }
  erewrite bind_Ret by exact Hrun.
  destruct Hr as [[-> [H1 H2 H3 H4 H5 H6 H7 H9 H8]]|[-> Hnm]]; cbn [Z.ltb Z.compare].
  - exists 1, s3, fl3. split_and!; try done. left. split; [done|]. split; [done|]. exists p.
    split_and!; [done| |done]. intros b Hb. rewrite H7 by done. by apply memset_page_zero.
  - pose proof (nm_free _ _ _ _ _ _ Hnm) as Hfl.
    apply (no_more_partial s fl pgdir other k k s fl) in Hnm as [Hok3 Hpa];
      [|done|by intros; lia|by apply grown_none].
    destruct (partial_kfree s fl pgdir other k k p s3 []) as (Hkf & Hok4 & Hv4 & [P1 P2 P3]);
      [by intros; lia|done|done|].
    erewrite bind_Ret by exact Hkf. exists 0, (kfreed p s3), [p].
    split; [done|]. split; [exact Hok4|]. cbn [app] in P2 |- *. split; [exact P2|]. split; [exact P3|].
    right. split; [done|]. split; [rewrite Hfl; cbn; lia|]. intros va Hva. apply P1; [done|lia].
Qed.

(** a fault on a page that is present (a protection violation: a write to a
    read-only or kernel page, or an access to the guard page below the stack)
    is not a lazy allocation, yet the handler tries to map it: as soon as a
    frame is available the kernel stops with panic "remap". *)
Theorem page_fault_present_panics s p fl pgdir other k :
  as_ok s (p :: fl) pgdir other → 0 ≤ k < 2 ^ 20 →
  pbit (pte (mem s) pgdir (k * PGSIZE)) = true →
  page_fault_handler pgdir (k * PGSIZE) s = Panic "remap".
Proof.
  intros Hok Hk Hpr. destruct (page_base_u32 k Hk) as [Hku Hkd].
  destruct (vm_alloc _ _ _ _ _ Hok) as (s1 & Hk1 & Em & Hp & Hok1).
  unfold page_fault_handler. erewrite bind_Ret by exact Hk1.
  rewrite (proj2 (Z.eqb_neq p 0)) by (by apply is_page_nonzero).
  erewrite bind_Ret by reflexivity. cbn beta.
  destruct (vm_write _ _ _ _ [p] (memset p 0 PGSIZE (mem s1)) Hok1) as (Hok2 & _ & _ & Hv2).
  { apply memset_page_same. } { intros q ->%list_elem_of_singleton. by left. }
  apply bind_Panic. unfold mappages.
  rewrite (PGROUNDDOWN_mod (k * PGSIZE)) by done.
  replace (k * PGSIZE - (k * PGSIZE) mod 4096) with (k * PGSIZE) by (mmu_consts; zdm).
  rewrite mappages_loop_unfold. eapply map_remap; [exact Hok2|done|].
  cbn [mem set_mem]. rewrite Hv2 by done. by rewrite Em.
Qed.


End vmgrow.
