(* ===== verification/VmKernel.v ===== *)
(** * vm.c: the kernel half of an address space

    [setupkvm] builds a page directory whose upper half maps the kernel as the
    table [kmap] says.  [kernel_pte] is the mapping it is meant to produce. *)

From S2P Require Import Prelude Mmu CString Kalloc Vm VmSpec VmUser.

#[local] Opaque tables uframes.

Section vmkernel.
  Context `{KernelImage}.

(** the entry of the kernel map for the page of [va]: physical memory below
    PHYSTOP appears at KERNBASE, read-only where the kernel's text is, device
    space is mapped to itself, and nothing else is mapped *)
Definition kernel_pte (va : Z) : Z :=
  let base := va - va mod PGSIZE in
  if va <? KERNBASE then 0
  else if va <? P2V PHYSTOP then
    mkpte (base - KERNBASE) (if (KERNLINK <=? va) && (va <? kdata) then 0 else PTE_W)
  else if va <? DEVSPACE then 0
  else mkpte base PTE_W.

(** one entry of [kmap] laid over a map *)
Definition km_size (k : kmap_entry) : Z := u32 (km_end k - km_start k).
Definition overlay (f : Z → Z) (k : kmap_entry) (va : Z) : Z :=
  let i := va / PGSIZE - km_virt k / PGSIZE in
  if decide (0 ≤ i < npages (km_virt k) (km_size k))
  then mkpte (u32 (km_start k + i * PGSIZE)) (km_perm k) else f va.

(** the entry is a proper range of page-aligned kernel addresses, none mapped yet *)
Record fresh_entry (f : Z → Z) (k : kmap_entry) : Prop := {
  fe_virt : KERNBASE ≤ km_virt k < 2 ^ 32;
  fe_size : 0 < km_size k;
  fe_end : km_virt k + km_size k ≤ 2 ^ 32;
  fe_start : is_u32 (km_start k);
  fe_free : ∀ va, is_u32 va →
    km_virt k / PGSIZE ≤ va / PGSIZE ≤ (km_virt k + km_size k - 1) / PGSIZE →
    pbit (f va) = false }.

Fixpoint fresh_entries (f : Z → Z) (ks : list kmap_entry) : Prop :=
  match ks with
  | [] => True
  | k :: ks => fresh_entry f k ∧ fresh_entries (overlay f k) ks
  end.

Lemma kdata_range : KERNLINK < kdata < KERNBASE + PHYSTOP.
Proof. pose proof kdata_above. pose proof kend_above. pose proof kend_below. lia. Qed.

Lemma kdata_arith :
  V2P kdata = kdata - KERNBASE ∧
  u32 (V2P kdata - V2P KERNLINK) = kdata - KERNLINK ∧
  u32 (PHYSTOP - V2P kdata) = KERNBASE + PHYSTOP - kdata.
Proof.
  pose proof kdata_range as Hk.
  assert (E1 : V2P kdata = kdata - KERNBASE)
    by (unfold V2P; rewrite u32_id; [lia|]; revert Hk; mmu_consts; lia).
  change (V2P KERNLINK) with EXTMEM.
  rewrite E1. split_and!; [done|..]; rewrite u32_id; revert Hk; mmu_consts; lia.
Qed.

(** the page ranges of the four entries *)
Lemma kmap_pages d :
  kdata = d * PGSIZE →
  map (λ k, (km_virt k / PGSIZE, npages (km_virt k) (km_size k), km_start k)) kmap =
  [(0x80000, 0x100, 0); (0x80100, d - 0x80100, EXTMEM);
   (d, 0x8E000 - d, d * PGSIZE - KERNBASE); (0xFE000, 0x2000, DEVSPACE)].
Proof.
  intros Hd. pose proof kdata_range as Hk.
  destruct kdata_arith as (E1 & E2 & E3).
  cbn [map kmap km_virt km_start]. unfold npages, km_size. cbn [km_virt km_start km_end].
  rewrite E2, E3, E1, Hd. clear E1 E2 E3. rewrite Hd in Hk. clear Hd.
  repeat f_equal; try done; revert Hk; mmu_consts; zdm.
Qed.

Lemma kmap_final va :
  is_u32 va → foldl overlay (λ _, 0) kmap va = kernel_pte va.
Proof.
  intros Hva. pose proof kdata_range as Hk. pose proof kdata_aligned as Ha.
  assert (Hd : kdata = kdata / PGSIZE * PGSIZE) by (revert Ha; mmu_consts; zdm).
  pose proof (kmap_pages _ Hd) as Hp. revert Hd Hp. generalize (kdata / PGSIZE). intros d Hd.
  cbn [map kmap]. intros [= Hn2 Hv3 Hn3 Hs3].
  cbn [foldl kmap]. unfold overlay. cbn zeta.
  cbn [km_virt km_start km_end km_perm] in *. rewrite Hn2, Hn3. clear Hn2 Hn3.
  rewrite Hv3, Hs3. unfold kernel_pte. change (npages DEVSPACE _) with 0x2000.
  change (npages KERNBASE _) with 0x100. set (j := va / PGSIZE). change (V2P KERNLINK) with EXTMEM.
  change (KERNBASE / PGSIZE) with 0x80000. change (KERNLINK / PGSIZE) with 0x80100.
  change (DEVSPACE / PGSIZE) with 0xFE000. change (P2V PHYSTOP) with 0x8E000000.
  assert (Hj : va = j * PGSIZE + va mod PGSIZE ∧ 0 ≤ va mod PGSIZE < PGSIZE)
    by (unfold j; mmu_consts; zdm).
  revert Hj. generalize (va mod PGSIZE). intros o [Hj Ho].
  assert (Hb : va - o = j * PGSIZE) by lia.
  cbn zeta. rewrite Hb, Hd in *. clear Hb Ha Hv3 Hs3 Hd. revert Hk Hj Ho Hva.
  mmu_consts. intros.
  destruct (Z.ltb_spec va 2147483648), (Z.ltb_spec va 0x8E000000),
    (Z.ltb_spec va 0xFE000000), (Z.leb_spec (0x80000000 + 0x100000) va), (Z.ltb_spec va (d * 4096));
    repeat case_decide; try lia; cbn [andb]; try done;
    (f_equal; rewrite ?u32_id by (unfold is_u32; lia); lia).
Qed.

Lemma overlay_absent f k va :
  pbit (f va) = false →
  ¬ (km_virt k / PGSIZE ≤ va / PGSIZE < km_virt k / PGSIZE + npages (km_virt k) (km_size k)) →
  pbit (overlay f k va) = false.
Proof. intros Hf Hr. unfold overlay. cbn zeta. by rewrite decide_False by lia. Qed.

Lemma kmap_fresh : fresh_entries (λ _, 0) kmap.
Proof.
  pose proof kdata_range as Hk. pose proof kdata_aligned as Ha.
  assert (Hd : kdata = kdata / PGSIZE * PGSIZE) by (revert Ha; mmu_consts; zdm).
  pose proof (kmap_pages _ Hd) as Hp. revert Hd Hp. generalize (kdata / PGSIZE). intros d Hd.
  destruct kdata_arith as (E1 & E2 & E3).
  assert (E4 : u32 (0 - DEVSPACE) = 0x2000000) by done.
  assert (E5 : u32 (EXTMEM - 0) = EXTMEM) by done.
  intros _. cbn [fresh_entries kmap].
  split_and!; [split..|done].
  all: unfold km_size; cbn [km_virt km_start km_end km_perm].
  all: try (rewrite ?E2, ?E3, ?E4, ?E5, ?E1; change (V2P KERNLINK) with EXTMEM;
    revert Hk; mmu_consts; lia).
  all: rewrite ?E2, ?E3, ?E4, ?E5.
  all: intros va Hva Hr; repeat apply overlay_absent; [done|..];
    unfold npages, km_size; cbn [km_virt km_start km_end]; rewrite ?E2, ?E3, ?E4, ?E5.
  all: rewrite Hd in *; clear Hd E1 E2 E3 E4 E5 Ha; revert Hk Hr; mmu_consts; zdm.
Qed.

(** ** A fresh directory *)

Lemma zero_dir m pgdir :
  (∀ b, pgdir ≤ b < pgdir + PGSIZE → load8 m b = 0) →
  tables m pgdir = [] ∧ ∀ va, is_u32 va → pte m pgdir va = 0.
Proof.
  intros Hz.
  assert (Ht : ∀ i, 0 ≤ i < 1024 → table_at m pgdir i = None).
  { intros i Hi. unfold table_at, pde. rewrite load32_memzero; [done|].
    intros b Hb. apply Hz. revert Hb. mmu_consts. lia. }
  split.
  - apply elem_of_nil_inv. intros t (i & Hi & E)%elem_of_tables. by rewrite Ht in E.
  - intros va Hva. unfold pte, pte_addr. by rewrite Ht by (by apply PDX_range).
Qed.

(** the address space [pgdir] has no user page and the kernel mapping [f] *)
Record kspace (s0 : phys) (fl0 : list Z) (other : list Z) (f : Z → Z) (pgdir : Z)
    (s : phys) (fl : list Z) : Prop := {
  ks_ok : vm_ok s fl pgdir other;
  ks_pte : ∀ va, is_u32 va → pte (mem s) pgdir va = f va;
  ks_pages : fl ++ pgdir :: tables (mem s) pgdir ≡ₚ fl0;
  ks_same : same_outside fl0 (mem s0) (mem s) }.

Definition user_empty (f : Z → Z) : Prop :=
  ∀ va, is_u32 va → va < KERNBASE → pbit (f va) = false.

Lemma kspace_uframes s0 fl0 other f pgdir s fl :
  user_empty f → kspace s0 fl0 other f pgdir s fl → uframes (mem s) pgdir = [].
Proof.
  intros Hu Hk. apply uframes_nil. intros va Hva Hlt. rewrite (ks_pte _ _ _ _ _ _ _ Hk) by done.
  apply Hu; [done|]. revert Hlt. mmu_consts. zdm.
Qed.

(** the failure path: [freevm] gives all pages back *)
Lemma kspace_freevm s0 fl0 other f pgdir s fl :
  user_empty f → kspace s0 fl0 other f pgdir s fl →
  ∃ s' fl', freevm pgdir s = Ret () s' ∧ kmem_ok s' fl' ∧ fl' ≡ₚ fl0 ∧
    same_outside fl0 (mem s0) (mem s').
Proof.
  intros Hu Hk. pose proof (kspace_uframes _ _ _ _ _ _ _ Hu Hk) as Huf.
  destruct Hk as [K1 K2 K3 K4].
  destruct (freevm_ok s fl pgdir other) as (s' & fl' & Hrun & Hok & Hfl & Hs).
  { unfold as_ok. by rewrite Huf. }
  unfold owned in Hfl, Hs. rewrite Huf, app_nil_r in *. rewrite K3 in Hfl.
  exists s', fl'. split_and!; [done..|]. eapply same_outside_trans; [exact K4|].
  eapply same_outside_mono; [|exact Hs]. intros q Hq. by rewrite <- K3.
Qed.

Lemma kspace_mapped s0 fl0 other f pgdir s fl k n s' fl' :
  kspace s0 fl0 other f pgdir s fl →
  mapped s fl pgdir other (km_virt k) n (km_start k) (km_perm k) s' fl' →
  kspace s0 fl0 other (λ va,
    let i := va / PGSIZE - km_virt k / PGSIZE in
    if decide (0 ≤ i < n) then mkpte (u32 (km_start k + i * PGSIZE)) (km_perm k) else f va)
    pgdir s' fl'.
Proof.
  intros [K1 K2 K3 K4] [M1 M2 M3 M4 M5].
  assert (Hp : fl' ++ pgdir :: tables (mem s') pgdir ≡ₚ fl0).
  { rewrite <- K3. transitivity (pgdir :: (fl' ++ tables (mem s') pgdir)); [solve_Permutation|].
    rewrite M3. solve_Permutation. }
  split; [done| |done|].
  - intros va Hva. rewrite M2 by done. cbn zeta. by rewrite K2.
  - eapply same_outside_trans; [exact K4|]. eapply same_outside_mono; [|exact M5].
    intros q Hq. rewrite <- Hp. apply elem_of_app. by right.
Qed.

Lemma user_empty_over f k n :
  user_empty f → KERNBASE ≤ km_virt k < 2 ^ 32 →
  user_empty (λ va,
    let i := va / PGSIZE - km_virt k / PGSIZE in
    if decide (0 ≤ i < n) then mkpte (u32 (km_start k + i * PGSIZE)) (km_perm k) else f va).
Proof.
  intros Hu Hk va Hva Hlt. cbn zeta. rewrite decide_False; [by apply Hu|].
  revert Hlt Hk. mmu_consts. zdm.
Qed.

Lemma setupkvm_loop_spec s0 fl0 other ks pgdir f s fl :
  pgdir ≠ 0 → user_empty f → fresh_entries f ks → kspace s0 fl0 other f pgdir s fl →
  ∃ r s' fl', setupkvm_loop ks pgdir s = Ret r s' ∧
    (r = pgdir ∧ kspace s0 fl0 other (foldl overlay f ks) pgdir s' fl' ∨
     r = 0 ∧ (kmem_ok s' fl' ∧ fl' ≡ₚ fl0 ∧ same_outside fl0 (mem s0) (mem s')) ∧
       (length fl0 ≤ 1025)%nat).
Proof.
  intros Hpd. revert f s fl. induction ks as [|k ks IH]; intros f s fl Hu Hf Hk.
  { exists pgdir, s, fl. split; [done|]. by left. }
  destruct Hf as [[F1 F2 F3 F4 F5] Hf]. cbn [setupkvm_loop foldl]. fold (km_size k).
  destruct (mappages_ok s fl pgdir other (km_virt k) (km_size k) (km_start k) (km_perm k))
    as (r & s1 & fl1 & n & Hrun & Hm & Hr & _).
  { apply Hk. } { revert F1. mmu_consts. lia. } { done. } { done. } { done. }
  { intros va Hva Hr. rewrite (ks_pte _ _ _ _ _ _ _ Hk) by done. by apply F5. }
  erewrite bind_Ret by exact Hrun. destruct Hr as [[-> ->]|(-> & Hn & ->)]; cbn [Z.ltb Z.compare].
  - apply IH with (fl := fl1); [|done|].
    + by apply user_empty_over.
    + eapply kspace_mapped; [exact Hk|exact Hm].
  - assert (Hks := kspace_mapped _ _ _ _ _ _ _ _ _ _ _ Hk Hm).
    destruct (kspace_freevm _ _ _ _ _ _ _ (user_empty_over _ _ _ Hu F1) Hks)
      as (s2 & fl2 & Hrun2 & ?).
    erewrite bind_Ret by exact Hrun2. exists 0, s2, fl2. split; [done|]. right.
    split; [done|]. split; [done|]. rewrite <- (ks_pages _ _ _ _ _ _ _ Hks). cbn [app length].
    pose proof (tables_length (mem s1) pgdir). lia.
Qed.

(** [setupkvm]: the outcome, for a free list [fl] and pages [other] in use *)
Lemma setupkvm_ok s fl other :
  kmem_ok s fl → Forall is_page other → NoDup (fl ++ other) →
  ∃ r s' fl', setupkvm s = Ret r s' ∧
    (r ≠ 0 ∧ kspace s fl other kernel_pte r s' fl' ∨
     r = 0 ∧ (kmem_ok s' fl' ∧ fl' ≡ₚ fl ∧ same_outside fl (mem s) (mem s')) ∧
       (length fl ≤ 1025)%nat).
Proof.
  intros Hok Ho Hnd. unfold setupkvm. destruct fl as [|p fl].
  { erewrite bind_Ret by (by apply kalloc_nil). exists 0, s, []. split; [done|]. right.
    split_and!; [done..|apply same_outside_refl|cbn; lia]. }
  destruct (kalloc_cons _ _ _ Hok) as (Hk & Hok1 & Hp & Hnin).
  erewrite bind_Ret by exact Hk. rewrite (proj2 (Z.eqb_neq p 0)) by (by apply is_page_nonzero).
  erewrite bind_Ret by reflexivity. cbn beta.
  change (DEVSPACE <? P2V PHYSTOP) with false. cbn match.
  set (m1 := memset p 0 PGSIZE (mem s)).
  destruct (zero_dir m1 p) as [Ht Hpte].
  { intros b Hb. unfold m1. rewrite memset_ok by (unfold PGSIZE; lia). by rewrite decide_True. }
  assert (Hsm : same_outside [p] (mem s) m1)
    by (apply same_outside_memset; unfold PGSIZE; lia).
  cbn [app] in Hnd. apply NoDup_cons in Hnd as [Hpn Hnd].
  destruct (setupkvm_loop_spec s (p :: fl) other kmap p (λ _, 0)
    (set_mem m1 (set_freelist (load32 (mem s) p) s)) fl) as (r & s' & fl' & Hrun & Hr).
  - by apply is_page_nonzero.
  - by intros va _ _.
  - apply kmap_fresh.
  - split; cbn [mem set_mem]; [split; cbn [mem set_mem]| | |].
    + apply (kmem_ok_same _ _ _ [p]); [done|done|by apply Forall_singleton|].
      by intros q Hq ->%list_elem_of_singleton.
    + rewrite Ht. by apply Forall_cons.
    + rewrite Ht. apply NoDup_app in Hnd as (N1 & N2 & N3). apply NoDup_app.
      split_and!; [done| |apply NoDup_cons; set_solver]. set_solver.
    + done.
    + rewrite Ht. solve_Permutation.
    + eapply same_outside_mono; [|exact Hsm]. set_solver.
  - exists r, s', fl'. split; [exact Hrun|]. destruct Hr as [[-> Hks]|?]; [left|by right].
    split; [by apply is_page_nonzero|]. destruct Hks as [K1 K2 K3 K4].
    split; [done| |done|done]. intros va Hva. rewrite K2 by done. by apply kmap_final.
Qed.

Lemma kernel_pte_user : user_empty kernel_pte.
Proof. intros va _ Hlt. unfold kernel_pte. by rewrite (proj2 (Z.ltb_lt _ _)). Qed.

Lemma owned_kspace s0 fl0 other f d s fl :
  user_empty f → kspace s0 fl0 other f d s fl →
  as_ok s fl d other ∧ fl ++ owned (mem s) d ≡ₚ fl0.
Proof.
  intros Hu Hk. pose proof (kspace_uframes _ _ _ _ _ _ _ Hu Hk) as Huf.
  destruct Hk as [K1 K2 K3 K4]. unfold as_ok, owned. rewrite Huf, app_nil_r. by split.
Qed.

(** [setupkvm] either returns a fresh directory in which no user page is
    mapped and every kernel address translates as [kernel_pte] says (physical
    memory below PHYSTOP at KERNBASE, kernel text read-only, device space
    identity-mapped, user access nowhere), or, with at most 1025 free pages,
    returns 0 with all pages given back; the page-table code panics on no path. *)
Theorem setupkvm_spec s fl other :
  kmem_ok s fl → Forall is_page other → NoDup (fl ++ other) →
  ∃ r s' fl', setupkvm s = Ret r s' ∧ same_outside fl (mem s) (mem s') ∧
    (r ≠ 0 ∧ as_ok s' fl' r other ∧ fl' ++ owned (mem s') r ≡ₚ fl ∧
       (∀ va, is_u32 va → pte (mem s') r va = kernel_pte va) ∨
     r = 0 ∧ (length fl ≤ 1025)%nat ∧ kmem_ok s' fl' ∧ fl' ≡ₚ fl).
Proof.
  intros Hok Ho Hn. destruct (setupkvm_ok s fl other Hok Ho Hn) as (r & s' & fl' & Hrun & Hr).
  exists r, s', fl'. split; [done|]. destruct Hr as [[Hr Hk]|(-> & (H1 & H2 & H3) & Hl)].
  - destruct (owned_kspace _ _ _ _ _ _ _ kernel_pte_user Hk) as [Ha Hpg].
    destruct Hk as [K1 K2 K3 K4]. split; [done|]. left. by split_and!.
  - split; [done|]. by right.
Qed.

End vmkernel.
