(* ===== verification/VmCopy.v ===== *)
(** * vm.c: copying address spaces

    User memory as a map from addresses to bytes; [page_fault_handler] as the user
    sees it, [copyuvm], which gives a forked child its own copy of the parent's
    memory, and [freevm]. *)

From S2P Require Import Prelude Mmu CString Kalloc Vm VmSpec VmUser VmAlloc VmGrow VmKernel.

#[local] Opaque tables uframes.

Section vmcopy.
  Context `{KernelImage}.

(** ** User memory as the user sees it *)

(** the byte at user address [va], if its page is present *)
Definition uread (m : ram) (pgdir va : Z) : option Z :=
  let v := pte m pgdir va in
  if pbit v then Some (load8 m (tab v + va mod PGSIZE)) else None.

Lemma frame_in m pgdir va :
  is_u32 va → va < KERNBASE → pbit (pte m pgdir va) = true →
  tab (pte m pgdir va) ∈ uframes m pgdir.
Proof.
  intros Hva Hu Hb. apply elem_of_uframes. exists (va / PGSIZE).
  split; [revert Hva Hu; mmu_consts; zdm|].
  destruct (page_base_u32 (va / PGSIZE)) as [Hku Hkd]; [revert Hva; mmu_consts; zdm|].
  unfold frame_at. cbn zeta. by rewrite (pte_same_page _ _ _ va), Hb by done.
Qed.

(** a change confined to pages that are not this address space's is invisible to it *)
Lemma uread_same s fl pgdir other ps m' :
  as_ok s fl pgdir other → same_outside ps (mem s) m' → Forall is_page ps →
  (∀ p, p ∈ ps → p ∉ owned (mem s) pgdir) →
  (∀ va, is_u32 va → pte m' pgdir va = pte (mem s) pgdir va) ∧
  (∀ va, is_u32 va → va < KERNBASE → uread m' pgdir va = uread (mem s) pgdir va).
Proof.
  intros Hok Hs Hps Hd. unfold owned in Hd.
  destruct (vm_views _ _ _ _ ps m' Hok Hs Hps) as (_ & _ & Hv).
  { intros p Hp. specialize (Hd p Hp). clear -Hd. set_solver. }
  split; [exact Hv|]. intros va Hva Hu. unfold uread. cbn zeta. rewrite Hv by done.
  destruct (pbit (pte (mem s) pgdir va)) eqn:Hb; [|done]. f_equal. apply Hs.
  intros p Hp Hin. set (f := tab (pte (mem s) pgdir va)) in *.
  assert (Hf : f ∈ uframes (mem s) pgdir) by (by apply frame_in).
  rewrite Forall_forall in Hps. specialize (Hps p Hp).
  pose proof (vo_rest _ _ _ _ Hok) as Hr. rewrite Forall_forall in Hr.
  assert (is_page f) by (apply Hr, elem_of_app; by left).
  apply (page_disjoint p f (f + va mod PGSIZE)); [done|done| |done|].
  - intros ->. apply (Hd f Hp). apply elem_of_cons. right. apply elem_of_app. by right.
  - mmu_consts. zdm.
Qed.

(** ** Growing and shrinking *)

(** present pages whose entry is unchanged keep their bytes *)
Lemma uread_kept s fl pgdir other m' va :
  as_ok s fl pgdir other →
  same_outside (fl ++ pgdir :: tables (mem s) pgdir) (mem s) m' →
  is_u32 va → va < KERNBASE → pte m' pgdir va = pte (mem s) pgdir va →
  uread m' pgdir va = uread (mem s) pgdir va.
Proof.
  intros Hok Hs Hva Hu E. unfold uread. cbn zeta. rewrite E.
  destruct (pbit (pte (mem s) pgdir va)) eqn:Hb; [|done]. f_equal.
  eapply rest_protected; [exact Hok|apply elem_of_app; left; by apply frame_in|exact Hs|].
  mmu_consts. zdm.
Qed.

Lemma grown_uread s fl pgdir other lo hi s' fl' va :
  as_ok s fl pgdir other → grown s fl pgdir other lo hi s' fl' → is_u32 va → va < KERNBASE →
  uread (mem s') pgdir va =
    if decide (lo ≤ va / PGSIZE < hi) then Some 0 else uread (mem s) pgdir va.
Proof.
  intros Hok [G1 G2 G3 G4 G5 G6 _ G7] Hva Hu. case_decide as Hd.
  - destruct (G2 va Hva Hd) as (p & Hp & Hpp & Hz & E).
    destruct (mkpte_frame p (Z.lor PTE_W PTE_U) Hpp) as (E1 & E2 & _); [done|].
    unfold uread. cbn zeta. rewrite E, E1, E2. f_equal. apply Hz. mmu_consts. zdm.
  - eapply uread_kept; [exact Hok|exact G7|done|done|by apply G3].
Qed.

Lemma undone_uread s fl pgdir other s' fl' va :
  as_ok s fl pgdir other → undone s fl pgdir other s' fl' → is_u32 va → va < KERNBASE →
  uread (mem s') pgdir va = uread (mem s) pgdir va.
Proof.
  intros Hok [U1 U2 U3 U4 U5] Hva Hu. destruct (pbit (pte (mem s) pgdir va)) eqn:Hb.
  - eapply uread_kept; [exact Hok|exact U5|done|done|by apply U3].
  - unfold uread. cbn zeta. by rewrite U2, Hb by done.
Qed.

(** the frames are those from before; only page tables may have been added *)
Lemma undone_frames s fl pgdir other s' fl' : undone s fl pgdir other s' fl' →
  uframes (mem s') pgdir = uframes (mem s) pgdir ∧ fl' ++ tables (mem s') pgdir ≡ₚ fl ++ tables (mem s) pgdir.
Proof.
  intros [_ U2 U3 U4 _]. assert (E : uframes (mem s') pgdir = uframes (mem s) pgdir).
  { rewrite !uframes_eq. apply omap_same. intros k Hk%elem_of_seqZ. assert (Hu : is_u32 (k * PGSIZE)) by (apply vpn_u32; lia). specialize (U2 _ Hu).
    destruct (pbit (pte (mem s) pgdir (k * PGSIZE))) eqn:Eb; [by apply frame_at_ext, U3|]. unfold frame_at. cbn zeta. by rewrite U2, Eb. }
  split; [done|]. revert U4. unfold owned. rewrite E. intros Hp. apply (Permutation_app_inv_l (pgdir :: uframes (mem s) pgdir)).
  etrans; [|etrans; [exact Hp|]]; solve_Permutation.
Qed.

Lemma freed_uread s fl pgdir other lo hi s' fl' va :
  as_ok s fl pgdir other → freed s fl pgdir other lo hi s' fl' → is_u32 va → va < KERNBASE →
  uread (mem s') pgdir va =
    if decide (lo ≤ va / PGSIZE < hi) then None else uread (mem s) pgdir va.
Proof.
  intros Hok [F1 F2 F3 F4 F5 F6] Hva Hu. unfold uread. cbn zeta. rewrite F3 by done.
  case_decide as Hd.
  - rewrite bool_decide_eq_true_2 by done. cbn [andb].
    destruct (pbit (pte (mem s) pgdir va)) eqn:Hb; [done|]. by rewrite Hb.
  - rewrite bool_decide_eq_false_2 by done. cbn [andb].
    destruct (pbit (pte (mem s) pgdir va)) eqn:Hb; [|done]. f_equal.
    assert (Hin : tab (pte (mem s) pgdir va) ∈ uframes (mem s') pgdir).
    { replace (pte (mem s) pgdir va) with (pte (mem s') pgdir va)
        by (rewrite F3 by done; by rewrite bool_decide_eq_false_2).
      apply frame_in; [done|done|]. rewrite F3 by done. by rewrite bool_decide_eq_false_2. }
    apply F6. intros q Hq Hin'.
    pose proof (vo_rest _ _ _ _ F1) as Hr. rewrite Forall_forall in Hr.
    destruct (vo_rest_notin _ _ _ _ F1 (tab (pte (mem s) pgdir va))) as (N1 & N2 & N3);
      [apply elem_of_app; by left|].
    apply (page_disjoint q (tab (pte (mem s) pgdir va)) (tab (pte (mem s) pgdir va) + va mod PGSIZE)).
    + apply elem_of_app in Hq as [Hq|Hq]; [|by apply (vo_fl_notin _ _ _ _ F1)].
      pose proof (vo_tables _ _ _ _ Hok) as Ht. rewrite Forall_forall in Ht. by apply Ht.
    + apply Hr, elem_of_app. by left.
    + intros ->. rewrite F2 in N3. apply elem_of_app in Hq as [?|?]; done.
    + done.
    + mmu_consts. zdm.
Qed.

(** C24: [allocuvm] growing user memory from [oldsz] to [newsz] below KERNBASE,
    with nothing mapped in between, either returns [newsz] with the new pages
    present and zero and all other user memory as before, or, when there are fewer
    free pages than two for each new page, returns 0 with user memory exactly as
    before and the same frames behind it, so that of the free pages only those that
    became page tables are missing.  Pages of the free list and of the address space
    are conserved in both cases, and [deallocuvm] back to [oldsz] unmaps exactly the
    new pages again. *)
Theorem allocuvm_spec s fl pgdir other oldsz newsz :
  as_ok s fl pgdir other → 0 ≤ oldsz < newsz → newsz < KERNBASE →
  (∀ va, is_u32 va → grow_lo oldsz ≤ va / PGSIZE < grow_lo newsz →
     pbit (pte (mem s) pgdir va) = false) →
  ∃ r s' fl', allocuvm pgdir oldsz newsz s = Ret r s' ∧ as_ok s' fl' pgdir other ∧
    fl' ++ owned (mem s') pgdir ≡ₚ fl ++ owned (mem s) pgdir ∧
    (r = 0 ∧ Z.of_nat (length fl) < 2 * (grow_lo newsz - grow_lo oldsz) ∧
     uframes (mem s') pgdir = uframes (mem s) pgdir ∧
     fl' ++ tables (mem s') pgdir ≡ₚ fl ++ tables (mem s) pgdir ∧
     (∀ va, is_u32 va → va < KERNBASE → uread (mem s') pgdir va = uread (mem s) pgdir va) ∨
     r = newsz ∧
     (∀ va, is_u32 va → va < KERNBASE → uread (mem s') pgdir va =
        if decide (grow_lo oldsz ≤ va / PGSIZE < grow_lo newsz) then Some 0
        else uread (mem s) pgdir va) ∧
     ∃ s'' fl'', deallocuvm pgdir newsz oldsz s' = Ret oldsz s'' ∧ as_ok s'' fl'' pgdir other ∧
       ∀ va, is_u32 va → va < KERNBASE → uread (mem s'') pgdir va = uread (mem s) pgdir va).
Proof.
  intros Hok Ho Hn Hno.
  destruct (allocuvm_ok s fl pgdir other oldsz newsz Hok) as (r & s' & fl' & Hrun & Hr);
    [lia|done|done|].
  exists r, s', fl'. split; [done|]. destruct Hr as [[-> Hg]|(-> & Hun & Hl)].
  - split; [apply Hg|]. split; [apply Hg|]. right. split; [done|].
    split; [intros; by eapply grown_uread|].
    destruct (deallocuvm_ok s' fl' pgdir other newsz oldsz (gr_ok _ _ _ _ _ _ _ _ Hg))
      as (s'' & fl'' & Hrun' & Hf); [lia|lia|].
    exists s'', fl''. split; [done|]. split; [apply Hf|]. intros va Hva Hu.
    rewrite (freed_uread _ _ _ _ _ _ _ _ _ (gr_ok _ _ _ _ _ _ _ _ Hg) Hf) by done.
    rewrite (grown_uread _ _ _ _ _ _ _ _ _ Hok Hg) by done. unfold grow_lo in *.
    case_decide as Hd; [|done]. unfold uread. cbn zeta. by rewrite Hno.
  - split; [apply Hun|]. split; [apply Hun|]. left. split; [done|]. split; [done|].
    destruct (undone_frames _ _ _ _ _ _ Hun). split_and!; [done|done|]. intros. by eapply undone_uread.
Qed.

(** ** Demand-zero pages *)

(** the same fault, seen by the user *)
Lemma page_fault_uread s fl pgdir other k :
  as_ok s fl pgdir other → 0 ≤ k < KERNBASE / PGSIZE →
  pbit (pte (mem s) pgdir (k * PGSIZE)) = false →
  ∃ r s' fl', page_fault_handler pgdir (k * PGSIZE) s = Ret r s' ∧
    as_ok s' fl' pgdir other ∧
    fl' ++ owned (mem s') pgdir ≡ₚ fl ++ owned (mem s) pgdir ∧
    same_outside (fl ++ pgdir :: tables (mem s) pgdir) (mem s) (mem s') ∧
    (r = 1 ∧ (length fl ≤ length fl' + 2)%nat ∧
     (∀ va, is_u32 va → pbit (pte (mem s') pgdir va) =
        bool_decide (va / PGSIZE = k) || pbit (pte (mem s) pgdir va)) ∧
     (∀ va, is_u32 va → va < KERNBASE → uread (mem s') pgdir va =
        if decide (va / PGSIZE = k) then Some 0 else uread (mem s) pgdir va) ∨
     r = 0 ∧ (length fl ≤ 1)%nat ∧ (∀ va, is_u32 va → pte (mem s') pgdir va = pte (mem s) pgdir va) ∧
     (∀ va, is_u32 va → va < KERNBASE → uread (mem s') pgdir va = uread (mem s) pgdir va)).
Proof.
  intros Hok Hk Hnp.
  destruct (page_fault_handler_ok _ _ _ _ _ Hok Hk Hnp) as (r & s' & fl' & Hrun & Hok' & Hpg & Hs & Hr).
  exists r, s', fl'. split; [exact Hrun|]. split; [done|]. split; [done|]. split; [done|].
  assert (Hold : ∀ va, is_u32 va → va < KERNBASE →
    pte (mem s') pgdir va = pte (mem s) pgdir va → uread (mem s') pgdir va = uread (mem s) pgdir va)
    by (intros; by eapply uread_kept).
  destruct Hr as [(-> & Hl & p & Hp & Hz & Hpte)|(-> & Hl & Hpte)]; [left|right; split_and!; [done|done|done|]].
  - assert (Hpp : is_page p) by (by apply (vo_fl_notin _ _ _ _ Hok)).
    destruct (mkpte_frame p (Z.lor PTE_W PTE_U) Hpp) as (E1 & E2 & _); [done|].
    split_and!; [done|done|..].
    + intros va Hva. rewrite Hpte by done. case_decide as Hd.
      * by rewrite bool_decide_eq_true_2.
      * by rewrite bool_decide_eq_false_2.
    + intros va Hva Hu. case_decide as Hd; [|apply Hold; [done|done|]; by rewrite Hpte, decide_False].
      unfold uread. cbn zeta. rewrite Hpte, decide_True by done. rewrite E1, E2. f_equal.
      apply Hz. mmu_consts. zdm.
  - intros va Hva Hu. apply Hold; [done|done|]. by apply Hpte.
Qed.

(** C12: on a fault at an unmapped user page the handler either makes exactly that
    page present and user-writable, reading as zeros, backed by a page of the free
    list, and returns 1; or, only when at most one page is free, returns 0 with
    every translation unchanged.  All other
    user memory reads as before, the free list and the pages of the address space
    are conserved, and no page of anyone else is written. *)
Theorem page_fault_handler_spec s fl pgdir other k :
  as_ok s fl pgdir other → 0 ≤ k < KERNBASE / PGSIZE →
  pbit (pte (mem s) pgdir (k * PGSIZE)) = false →
  ∃ r s' fl', page_fault_handler pgdir (k * PGSIZE) s = Ret r s' ∧
    as_ok s' fl' pgdir other ∧
    fl' ++ owned (mem s') pgdir ≡ₚ fl ++ owned (mem s) pgdir ∧
    (∀ q b, q ∈ other → q ≤ b < q + PGSIZE → load8 (mem s') b = load8 (mem s) b) ∧
    (r = 1 ∧ (∀ va, is_u32 va → va < KERNBASE → uread (mem s') pgdir va =
        if decide (va / PGSIZE = k) then Some 0 else uread (mem s) pgdir va) ∨
     r = 0 ∧ (length fl ≤ 1)%nat ∧
       (∀ va, is_u32 va → pte (mem s') pgdir va = pte (mem s) pgdir va)).
Proof.
  intros Hok Hk Hnp.
  destruct (page_fault_uread _ _ _ _ _ Hok Hk Hnp) as (r & s' & fl' & Hrun & Hok' & Hpg & Hs & Hr).
  exists r, s', fl'. split; [exact Hrun|]. split; [done|]. split; [done|]. split.
  - intros q b Hq Hb. eapply rest_protected; [exact Hok| |exact Hs|exact Hb].
    apply elem_of_app. by right.
  - destruct Hr as [(-> & _ & _ & Hr)|(-> & Hl & Hr & _)]; [by left|by right].
Qed.

(** ** copyuvm *)

Record copied (s0 : phys) (fl0 : list Z) (pgdir : Z) (other : list Z) (k d : Z)
    (s : phys) (fl : list Z) : Prop := {
  cp_ok : as_ok s fl d (owned (mem s0) pgdir ++ other);
  cp_flags : ∀ va, is_u32 va → va / PGSIZE < k →
    pbit (pte (mem s) d va) = true ∧
    PTE_FLAGS (pte (mem s) d va) = PTE_FLAGS (pte (mem s0) pgdir va);
  cp_data : ∀ va, is_u32 va → va / PGSIZE < k → uread (mem s) d va = uread (mem s0) pgdir va;
  cp_out : ∀ va, is_u32 va → k ≤ va / PGSIZE → pte (mem s) d va = kernel_pte va;
  cp_pages : fl ++ owned (mem s) d ≡ₚ fl0;
  cp_same : same_outside fl0 (mem s0) (mem s) }.

(** all pages are given back *)
Definition given_back (s0 : phys) (fl0 : list Z) (s : phys) (fl : list Z) : Prop :=
  kmem_ok s fl ∧ fl ≡ₚ fl0 ∧ same_outside fl0 (mem s0) (mem s).

(** the parent as seen while the child is being built *)
Lemma parent_view s0 fl0 pgdir other m' :
  as_ok s0 fl0 pgdir other → same_outside fl0 (mem s0) m' →
  (∀ va, is_u32 va → pte_addr m' pgdir va = pte_addr (mem s0) pgdir va) ∧
  (∀ va, is_u32 va → pte m' pgdir va = pte (mem s0) pgdir va) ∧
  (∀ va, is_u32 va → va < KERNBASE → uread m' pgdir va = uread (mem s0) pgdir va).
Proof.
  intros Hok Hs.
  assert (Hps : Forall is_page fl0)
    by (apply Forall_forall; intros p Hp; by apply (vo_fl_notin _ _ _ _ Hok)).
  destruct (vm_views _ _ _ _ fl0 m' Hok Hs Hps) as (_ & Ha & Hv).
  { intros p Hp. by destruct (vo_fl_notin _ _ _ _ Hok p Hp) as (? & ? & _). }
  split; [done|]. apply (uread_same _ _ _ _ fl0 m' Hok Hs Hps).
  intros p Hp. destruct (vo_fl_notin _ _ _ _ Hok p Hp) as (H1 & H2 & H3 & _).
  unfold owned. rewrite elem_of_cons, elem_of_app. intros [?|[?|?]]; [done|done|].
  apply H3, elem_of_app. by left.
Qed.

Lemma copied_start s0 fl0 pgdir other d s fl :
  kspace s0 fl0 (owned (mem s0) pgdir ++ other) kernel_pte d s fl →
  copied s0 fl0 pgdir other 0 d s fl.
Proof.
  intros Hk. destruct (owned_kspace _ _ _ _ _ _ _ kernel_pte_user Hk) as [Hok Hpg].
  destruct Hk as [K1 K2 K3 K4].
  split; [done|..|done|done]; intros va Hva Hlt; [| |by apply K2];
    exfalso; revert Hva Hlt; mmu_consts; zdm.
Qed.

Lemma lor_odd x : x mod 2 = 1 → Z.lor x PTE_P = x.
Proof.
  intros Hx. rewrite Zmod_odd in Hx. destruct (Z.odd x) eqn:E; [|done].
  apply Z.bits_inj'. intros n Hn. rewrite Z.lor_spec. unfold PTE_P.
  destruct (decide (n = 0)) as [->|].
  - by rewrite !Z.bit0_odd, E.
  - rewrite (Z.bits_above_log2 1) by (cbn; lia). apply orb_false_r.
Qed.

Lemma flags_present v :
  pbit v = true → 0 ≤ PTE_FLAGS v < 4096 ∧ Z.lor (PTE_FLAGS v) PTE_P = PTE_FLAGS v.
Proof.
  rewrite pbit_mod. intros Hb%Z.eqb_eq. unfold PTE_FLAGS, u32.
  change 0xFFF with (2 ^ 12 - 1). rewrite land_low by lia. split; [zdm|].
  apply lor_odd. zdm.
Qed.

Lemma copied_step s0 fl0 pgdir other k d s fl p s' fl' :
  as_ok s0 fl0 pgdir other → 0 ≤ k < KERNBASE / PGSIZE →
  let v := pte (mem s0) pgdir (k * PGSIZE) in
  pbit v = true → is_page p →
  copied s0 fl0 pgdir other k d s fl →
  one_more s fl d (owned (mem s0) pgdir ++ other) k p (PTE_FLAGS v)
    (memmove p (tab v) PGSIZE (mem s)) s' fl' →
  copied s0 fl0 pgdir other (k + 1) d s' fl'.
Proof.
  intros Hok0 Hk v Hb Hp [C1 C2 C3 C4 C5 C6] [O1 O2 O3 O4 O5 O6 O7 _ O8].
  destruct (page_base_u32 k) as [Hku Hkd]; [revert Hk; mmu_consts; zdm|].
  destruct (flags_present _ Hb) as [Hf1 Hf2].
  destruct (mkpte_frame p _ Hp Hf1) as (E1 & E2 & E3 & _). rewrite Hf2 in E3.
  destruct (parent_view _ _ _ _ _ Hok0 C6) as (_ & _ & Hpv).
  assert (Hpk : ∀ va, is_u32 va → va / PGSIZE = k → pte (mem s0) pgdir va = v)
    by (intros va Hva Hk'; apply pte_same_page; congruence).
  split.
  - done.
  - intros va Hva Hlt. rewrite O2 by done. case_decide as Hd; [|apply C2; [done|lia]].
    rewrite Hpk by done. by rewrite E1, E3.
  - intros va Hva Hlt. assert (Hu : va < KERNBASE) by (revert Hlt Hk; mmu_consts; zdm).
    assert (Ho : 0 ≤ va mod PGSIZE < PGSIZE) by (apply Z.mod_pos_bound; done).
    unfold uread at 1. cbn zeta. rewrite O2 by done. case_decide as Hd.
    + rewrite E1, E2, O7, memmove_ok by lia. rewrite decide_True by lia.
      rewrite <- Hpv by done. unfold uread. cbn zeta.
      destruct (parent_view _ _ _ _ _ Hok0 C6) as (_ & Hv & _).
      rewrite Hv, Hpk, Hb by done. do 2 f_equal. lia.
    + rewrite <- C3 by (done || lia). destruct (C2 va) as [Hpb _]; [done|lia|].
      unfold uread. cbn zeta. rewrite Hpb. f_equal.
      eapply rest_protected; [exact C1| |exact O8|].
      * apply elem_of_app. left. by apply frame_in.
      * lia.
  - intros va Hva Hle. rewrite O2 by done. rewrite decide_False by lia. apply C4; [done|lia].
  - by rewrite O4.
  - eapply same_outside_trans; [exact C6|]. eapply same_outside_mono; [|exact O8].
    intros q Hq. rewrite <- C5. unfold owned. clear -Hq. set_solver.
Qed.

(** ** Failure: the half-built child is freed *)

Lemma child_freevm s0 fl0 d rest s fl :
  as_ok s fl d rest → fl ++ owned (mem s) d ≡ₚ fl0 → same_outside fl0 (mem s0) (mem s) →
  ∃ s' fl', freevm d s = Ret () s' ∧ given_back s0 fl0 s' fl'.
Proof.
  intros Hok Hpg Hs. destruct (freevm_ok _ _ _ _ Hok) as (s' & fl' & Hrun & Hk & Hfl & Hs').
  exists s', fl'. split; [done|]. split; [done|]. split; [by rewrite Hfl|].
  eapply same_outside_trans; [exact Hs|]. eapply same_outside_mono; [|exact Hs'].
  intros q Hq. by rewrite <- Hpg.
Qed.

Lemma child_nomore s0 fl0 pgdir other k d s fl p s3 :
  copied s0 fl0 pgdir other k d s fl →
  no_more s fl d (owned (mem s0) pgdir ++ other) p s3 →
  ∃ s' fl', kfree p s3 = Ret () (kfreed p s3) ∧
    freevm d (kfreed p s3) = Ret () s' ∧ given_back s0 fl0 s' fl'.
Proof.
  intros [C1 C2 C3 C4 C5 C6] [N1 N2 N3 N4 _ N5].
  assert (Hok' : vm_ok s3 [] d (p :: uframes (mem s3) d ++ owned (mem s0) pgdir ++ other))
    by (eapply vm_ok_perm; [|exact N1]; solve_Permutation).
  destruct (vm_free _ _ _ _ _ Hok') as (Hkf & Hp & Hok2 & Hs2 & Ht2 & _ & Hv2).
  assert (Huf : uframes (mem (kfreed p s3)) d = uframes (mem s3) d) by (by apply uframes_ext).
  assert (Hpg : [p] ++ owned (mem (kfreed p s3)) d ≡ₚ fl0).
  { rewrite <- C5, <- N3. unfold owned. by rewrite Ht2, Huf. }
  destruct (child_freevm s0 fl0 d (owned (mem s0) pgdir ++ other) (kfreed p s3) [p])
    as (s' & fl' & Hrun & Hg); [unfold as_ok; by rewrite Huf|done| |].
  - eapply same_outside_trans; [exact C6|]. eapply (same_outside_trans _ _ (mem s3)).
    + eapply same_outside_mono; [|exact N5]. intros q Hq. rewrite <- C5.
      unfold owned. clear -Hq. set_solver.
    + eapply same_outside_mono; [|exact Hs2]. intros q ->%list_elem_of_singleton.
      rewrite <- Hpg. by left.
  - exists s', fl'. by split_and!.
Qed.

Lemma same_outside_memmove p src n m :
  0 ≤ n ≤ PGSIZE → same_outside [p] m (memmove p src n m).
Proof.
  intros Hn b Hb. rewrite memmove_ok by lia. rewrite decide_False; [done|].
  intros ?. apply (Hb p); [by apply list_elem_of_singleton|lia].
Qed.

(** ** The loop *)

Definition copy_outcome (s0 : phys) (fl0 : list Z) (pgdir : Z) (other : list Z)
    (j hi d : Z) (o : outcome phys Z) : Prop :=
  (∃ s' fl', o = Ret 0 s' ∧ given_back s0 fl0 s' fl' ∧ Z.of_nat (length fl0) ≤ 1026 + hi) ∨
  (j = hi ∧ ∃ s' fl', o = Ret d s' ∧ copied s0 fl0 pgdir other hi d s' fl') ∨
  (j < hi ∧ ∃ msg, o = Panic msg).

(** a half-built child uses at most its directory, 1024 tables and [k] frames *)
Lemma copied_count s0 fl0 pgdir other k d s fl :
  0 ≤ k ≤ KERNBASE / PGSIZE → copied s0 fl0 pgdir other k d s fl →
  Z.of_nat (length fl0) ≤ Z.of_nat (length fl) + 1025 + k.
Proof.
  intros Hk Hc. rewrite <- (cp_pages _ _ _ _ _ _ _ _ Hc). unfold owned.
  rewrite length_app. cbn [length]. rewrite length_app.
  pose proof (tables_length (mem s) d).
  pose proof (uframes_length (mem s) d k Hk) as Hu.
  assert (Z.of_nat (length (uframes (mem s) d)) ≤ k); [|lia]. apply Hu.
  intros va Hva Hlt Hle. rewrite (cp_out _ _ _ _ _ _ _ _ Hc) by done. by apply kernel_pte_user.
Qed.

Lemma copy_loop_spec s0 fl0 pgdir other sz j d n k s fl :
  let hi := (sz + PGSIZE - 1) / PGSIZE in
  as_ok s0 fl0 pgdir other → 0 ≤ sz ≤ KERNBASE → 0 ≤ k ≤ j → j ≤ hi →
  (∀ va, is_u32 va → va / PGSIZE < j → pbit (pte (mem s0) pgdir va) = true) →
  (j < hi → pbit (pte (mem s0) pgdir (j * PGSIZE)) = false) →
  hi - k < Z.of_nat n → copied s0 fl0 pgdir other k d s fl →
  copy_outcome s0 fl0 pgdir other j hi d (copyuvm_loop n pgdir d (k * PGSIZE) sz s).
Proof.
  intros hi Hok Hsz Hkj Hj Hin Hno. revert k s fl Hkj.
  induction n as [|n IH]; intros k s fl Hkj Hfuel Hc; [lia|].
  cbn [copyuvm_loop]. destruct (Z.ltb_spec (k * PGSIZE) sz) as [E|E].
  2: { assert (k = hi) by (unfold hi in *; revert E Hkj Hj; mmu_consts; zdm).
       right. left. split; [lia|]. exists s, fl. split; [done|]. by replace hi with k. }
  assert (Hkr : 0 ≤ k < KERNBASE / PGSIZE) by (revert E Hsz Hkj; mmu_consts; zdm).
  assert (Hkhi : k < hi) by (unfold hi; revert E; mmu_consts; zdm).
  destruct (page_base_u32 k) as [Hku Hkd]; [revert Hkr; mmu_consts; zdm|].
  pose proof (cp_same _ _ _ _ _ _ _ _ Hc) as Hs.
  destruct (parent_view _ _ _ _ _ Hok Hs) as (Hpa & Hpt & _).
  erewrite bind_Ret by apply walkpgdir_false. rewrite Hpa by done.
  pose proof (Hpt _ Hku) as Hv. unfold pte at 1 in Hv. rewrite Hpa in Hv by done.
  destruct (pte_addr (mem s0) pgdir (k * PGSIZE)) as [ad|] eqn:Had; cbn [from_option id].
  2: { right. right. split; [|eexists; done]. destruct (decide (k < j)); [|lia].
       specialize (Hin (k * PGSIZE) Hku ltac:(lia)). by rewrite <- Hv in Hin. }
  destruct (pte_addr_page _ _ _ _ Hok _ _ Hku Had) as (t & _ & _ & _ & _ & _ & _ & Hnz).
  rewrite (proj2 (Z.eqb_neq ad 0) Hnz). erewrite bind_Ret by reflexivity. rewrite Hv.
  destruct (decide (k = j)) as [->|Hne].
  { rewrite (Hno Hkhi). cbn [negb]. right. right. split; [lia|]. by eexists. }
  assert (Hb : pbit (pte (mem s0) pgdir (k * PGSIZE)) = true) by (apply Hin; [done|lia]).
  rewrite Hb. cbn [negb]. destruct (flags_present _ Hb) as [Hf1 Hf2].
  destruct (alloc_one s fl d (owned (mem s0) pgdir ++ other) k
    (PTE_FLAGS (pte (mem s0) pgdir (k * PGSIZE))))
    as [[-> Hk0]|(p & s1 & Hp & Hpin & Hka & Em & Hmap)]; [apply Hc|done|done| |..].
  { rewrite (cp_out _ _ _ _ _ _ _ _ Hc) by (done || lia). apply kernel_pte_user; [done|].
    revert Hkr. mmu_consts. zdm. }
  { erewrite bind_Ret by exact Hk0. cbn [Z.eqb].
    destruct (child_freevm s0 fl0 d _ s [] (cp_ok _ _ _ _ _ _ _ _ Hc)
      (cp_pages _ _ _ _ _ _ _ _ Hc) Hs) as (s' & fl' & Hrun & Hg).
    pose proof (copied_count _ _ _ _ _ _ _ _ (conj (proj1 Hkr) (Z.lt_le_incl _ _ (proj2 Hkr))) Hc).
    erewrite bind_Ret by exact Hrun. left. exists s', fl'. cbn [length] in *. split_and!; [done|done|lia]. }
  erewrite bind_Ret by exact Hka. rewrite (proj2 (Z.eqb_neq p 0)) by (by apply is_page_nonzero).
  erewrite bind_Ret by reflexivity. cbn beta.
  destruct (Hmap (memmove p (tab (pte (mem s0) pgdir (k * PGSIZE))) PGSIZE (mem s1)))
    as (r & s3 & fl3 & Hrun & Hr).
  { rewrite Em. apply same_outside_memmove. mmu_consts. lia. }
  erewrite bind_Ret by exact Hrun. rewrite Em in Hr.
  destruct Hr as [[-> Hom]|[-> Hnm]]; cbn [Z.ltb Z.compare].
  - replace (u32 (k * PGSIZE + PGSIZE)) with ((k + 1) * PGSIZE)
      by (rewrite u32_id; [lia|]; revert Hkr; mmu_consts; zdm).
    apply (IH (k + 1) s3 fl3); [lia|lia|]. by eapply copied_step.
  - destruct (child_nomore _ _ _ _ _ _ _ _ _ _ Hc Hnm) as (s' & fl' & Hkf & Hfv & Hg).
    pose proof (copied_count _ _ _ _ _ _ _ _ (conj (proj1 Hkr) (Z.lt_le_incl _ _ (proj2 Hkr))) Hc) as Hcnt.
    rewrite (nm_free _ _ _ _ _ _ Hnm) in Hcnt. cbn [length] in Hcnt.
    erewrite bind_Ret by exact Hkf. erewrite bind_Ret by exact Hfv. left. exists s', fl'.
    split_and!; [done|done|lia].
Qed.

Lemma copyuvm_ok s fl pgdir other sz j :
  let hi := (sz + PGSIZE - 1) / PGSIZE in
  as_ok s fl pgdir other → 0 ≤ sz ≤ KERNBASE → 0 ≤ j ≤ hi →
  (∀ va, is_u32 va → va / PGSIZE < j → pbit (pte (mem s) pgdir va) = true) →
  (j < hi → pbit (pte (mem s) pgdir (j * PGSIZE)) = false) →
  ∃ d, copy_outcome s fl pgdir other j hi d (copyuvm pgdir sz s).
Proof.
  intros hi Hok Hsz Hj Hin Hno. unfold copyuvm.
  destruct (setupkvm_ok s fl (owned (mem s) pgdir ++ other)) as (d & s1 & fl1 & Hrun & Hr).
  - apply Hok.
  - destruct Hok as [_ Hp _]. unfold owned. by rewrite <- app_comm_cons, <- app_assoc.
  - destruct Hok as [_ _ Hn]. unfold owned. by rewrite <- app_comm_cons, <- app_assoc.
  - erewrite bind_Ret by exact Hrun. destruct Hr as [[Hd Hks]|(-> & Hg & Hl)].
    + rewrite (proj2 (Z.eqb_neq d 0) Hd). exists d.
      apply (copy_loop_spec s fl pgdir other sz j d _ 0 s1 fl1); auto with lia.
      by apply copied_start.
    + exists 0. left. exists s1, fl1. split_and!; [done|done|lia].
Qed.

(** every page below [sz] is mapped, as it is in a process that has used all its memory *)
Definition touched (m : ram) (pgdir sz : Z) : Prop :=
  ∀ va, is_u32 va → va / PGSIZE < (sz + PGSIZE - 1) / PGSIZE → pbit (pte m pgdir va) = true.

Lemma first_absent m pgdir n : Z.of_nat n ≤ KERNBASE / PGSIZE →
  ∃ j, 0 ≤ j ≤ Z.of_nat n ∧ (∀ va, is_u32 va → va / PGSIZE < j → pbit (pte m pgdir va) = true) ∧
    (j < Z.of_nat n → pbit (pte m pgdir (j * PGSIZE)) = false).
Proof.
  induction n as [|n IH]; intros Hn.
  { exists 0. split_and!; [lia|lia| |lia]. intros va Hva Hlt. revert Hva Hlt. mmu_consts. zdm. }
  destruct IH as (j & Hj & Hin & Hno); [lia|]. destruct (decide (j < Z.of_nat n)) as [Hlt|Hge].
  { exists j. split_and!; [lia|lia|done|auto]. }
  assert (j = Z.of_nat n) as -> by lia. destruct (pbit (pte m pgdir (Z.of_nat n * PGSIZE))) eqn:E.
  - exists (Z.of_nat (S n)). split_and!; [lia|lia| |lia]. intros va Hva Hlt.
    destruct (decide (va / PGSIZE = Z.of_nat n)) as [He|He]; [|apply Hin; [done|lia]].
    destruct (page_base_u32 (Z.of_nat n)) as [Hu Hd]; [revert Hn; mmu_consts; zdm|]. by rewrite (pte_same_page _ _ va (Z.of_nat n * PGSIZE)) by congruence.
  - exists (Z.of_nat n). split_and!; [lia|lia|done|done].
Qed.

(** the three outcomes, whatever pages are mapped *)
Lemma copyuvm_cases s fl pgdir other sz :
  let hi := (sz + PGSIZE - 1) / PGSIZE in
  as_ok s fl pgdir other → 0 ≤ sz ≤ KERNBASE →
  (∃ s' fl', copyuvm pgdir sz s = Ret 0 s' ∧ given_back s fl s' fl' ∧ Z.of_nat (length fl) ≤ 1026 + hi) ∨
  (touched (mem s) pgdir sz ∧ ∃ d s' fl', copyuvm pgdir sz s = Ret d s' ∧ d ≠ 0 ∧ copied s fl pgdir other hi d s' fl') ∨
  (¬ touched (mem s) pgdir sz ∧ ∃ msg, copyuvm pgdir sz s = Panic msg).
Proof.
  intros hi Hok Hsz. assert (Hhi : 0 ≤ hi ≤ KERNBASE / PGSIZE) by (unfold hi; revert Hsz; mmu_consts; zdm).
  destruct (first_absent (mem s) pgdir (Z.to_nat hi)) as (j & Hj & Hin & Hno); [lia|]. rewrite Z2Nat.id in Hj, Hno by lia.
  destruct (copyuvm_ok s fl pgdir other sz j Hok Hsz Hj Hin Hno) as (d & [Ho|[(-> & s' & fl' & Hrun & Hc)|[Hlt Ho]]]); [by left| |].
  - right. left. split; [exact Hin|]. exists d, s', fl'. split_and!; [done| |done].
    apply is_page_nonzero, (vo_pgdir _ _ _ _ (cp_ok _ _ _ _ _ _ _ _ Hc)).
  - right. right. split; [|done]. intros Ht. destruct (page_base_u32 j) as [Hu Hd]; [revert Hj Hhi; mmu_consts; zdm|].
    specialize (Ht _ Hu). rewrite Hd, (Hno Hlt) in Ht. by specialize (Ht Hlt).
Qed.

(** C3: [copyuvm], in whatever state the address space is.  When every page below [sz] is
    mapped, it either returns a new directory whose user memory below [sz] holds the same
    bytes with the same permissions, in frames that are not the parent's, with the kernel
    mapping above and nothing in between, while the parent reads exactly as before; or,
    when the free list is no longer than the pages to copy plus 1026 (the directory and its
    possible tables), returns 0 with every page it took given back.  When a page below [sz]
    was never touched, as [mmap] leaves them, there is no copy: it runs out of memory in
    the same way or stops the kernel with a panic. *)
Theorem copyuvm_spec s fl pgdir other sz :
  as_ok s fl pgdir other → 0 ≤ sz ≤ KERNBASE →
  (∃ r s' fl', copyuvm pgdir sz s = Ret r s' ∧
    (∀ va, is_u32 va → va < KERNBASE → uread (mem s') pgdir va = uread (mem s) pgdir va) ∧
    (r ≠ 0 ∧ touched (mem s) pgdir sz ∧ copied s fl pgdir other ((sz + PGSIZE - 1) / PGSIZE) r s' fl' ∨
     r = 0 ∧ given_back s fl s' fl' ∧ Z.of_nat (length fl) ≤ 1026 + (sz + PGSIZE - 1) / PGSIZE)) ∨
  (¬ touched (mem s) pgdir sz ∧ ∃ msg, copyuvm pgdir sz s = Panic msg).
Proof.
  intros Hok Hsz. destruct (copyuvm_cases _ _ _ _ _ Hok Hsz) as [(s' & fl' & Hrun & Hg)|[(Ht & d & s' & fl' & Hrun & Hd & Hc)|Hp]]; [left..|by right].
  - exists 0, s', fl'. split; [done|]. split; [|by right]. apply (parent_view s fl pgdir other); [done|apply Hg].
  - exists d, s', fl'. split; [done|]. split; [|by left]. apply (parent_view s fl pgdir other); [done|apply Hc].
Qed.

(** C23: [freevm], in whatever state user code left its pages, returns every page
    the address space owns (its directory, all page tables of both halves, every
    user frame) to the free list, once each; so building a space with [setupkvm],
    [allocuvm] or [copyuvm] and then freeing it leaks nothing. *)
Theorem freevm_spec s fl pgdir other m2 :
  as_ok s fl pgdir other → same_outside (uframes (mem s) pgdir) (mem s) m2 →
  ∃ s3 fl3, freevm pgdir (set_mem m2 s) = Ret () s3 ∧ kmem_ok s3 fl3 ∧
    fl3 ≡ₚ fl ++ owned (mem s) pgdir ∧ NoDup (fl3 ++ other) ∧
    same_outside (fl ++ owned (mem s) pgdir) (mem s) (mem s3).
Proof.
  intros Hok Hs.
  destruct (vm_write _ _ _ _ _ m2 Hok Hs) as (Hok2 & Ht & _ & Hv).
  { intros p Hp. apply elem_of_app. by left. }
  assert (Huf : uframes m2 pgdir = uframes (mem s) pgdir) by (by apply uframes_ext).
  assert (Eo : owned m2 pgdir = owned (mem s) pgdir) by (unfold owned; by rewrite Huf, Ht).
  destruct (freevm_ok (set_mem m2 s) fl pgdir other) as (s3 & fl3 & Hrun & Hk & Hfl & Hs3).
  { unfold as_ok. cbn [mem set_mem]. by rewrite Huf. }
  cbn [mem set_mem] in Hfl, Hs3. rewrite Eo in Hfl, Hs3.
  exists s3, fl3. split_and!; [done..| |].
  - rewrite Hfl. pose proof (vo_nodup _ _ _ _ Hok) as Hn. unfold owned.
    by rewrite <- app_assoc, <- app_comm_cons, <- app_assoc.
  - eapply same_outside_trans; [|exact Hs3]. eapply same_outside_mono; [|exact Hs].
    intros q Hq. unfold owned. rewrite elem_of_app, elem_of_cons, elem_of_app. auto.
Qed.

End vmcopy.
