(* ===== verification/VmPool.v ===== *)
(** * Pages of one pool

    The free list, the address spaces and the other pages in the kernel's hands as parts of
    one pool.  [holds ds held s]: in [s] every page of the pool is on the free list, in one
    of the address spaces [ds], or one of the pages [held], and in one place only.  Each
    function of kalloc.c and vm.c has a rule that says what it does to [ds] and [held]; the
    rules are partial ([rets]), since a page that is mapped twice is a panic. *)

From S2P Require Import Prelude Mmu CString Kalloc Vm VmSpec VmUser VmAlloc VmGrow VmKernel VmCopy.

#[local] Opaque tables uframes memset memmove store32 load32.

Section vmpool.
  Context `{KernelImage}.
  Context (pool : list Z) (Hnodup : NoDup pool) (Hpages : Forall is_page pool).

Lemma kmem_unique s fl fl' : kmem_ok s fl → kmem_ok s fl' → fl = fl'.
Proof.
  intros [C P _] [C' P' _]. revert C C'. generalize (freelist s). revert fl' P'.
  induction P as [|p fl Hp _ IH]; intros fl' P' h; destruct P' as [|p' fl' Hp' P']; cbn [chain]; [done|..].
  - intros -> [<- _]. by apply is_page_nonzero in Hp'.
  - intros [-> _] ->. by apply is_page_nonzero in Hp.
  - intros [-> C] [-> C']. f_equal. by eapply IH.
Qed.

(** ** Address spaces *)

(** the kernel's half is the one [setupkvm] builds *)
Definition khalf (m : ram) (d : Z) : Prop :=
  ∀ va, is_u32 va → KERNBASE ≤ va → pte m d va = kernel_pte va.
(** the first [n] pages are present *)
Definition low (m : ram) (d n : Z) : Prop :=
  ∀ va, is_u32 va → va < KERNBASE → va / PGSIZE < n → pbit (pte m d va) = true.

(** a directory, with a number of pages that are known to be present and some addresses
    that are known to hold a zero byte *)
Record space := Sp { sp_dir : Z; sp_low : Z; sp_zeros : list Z }.
Definition space_ok (m : ram) (x : space) : Prop :=
  khalf m (sp_dir x) ∧ low m (sp_dir x) (sp_low x) ∧
  Forall (λ z, is_u32 z ∧ z < KERNBASE ∧ uread m (sp_dir x) z = Some 0) (sp_zeros x).
Definition spaces (m : ram) (ds : list space) : list Z := ds ≫= λ x, owned m (sp_dir x).

Definition pooled (ds : list space) (held : list Z) (s : phys) (fl : list Z) : Prop :=
  kmem_ok s fl ∧ fl ++ spaces (mem s) ds ++ held ≡ₚ pool ∧ Forall (space_ok (mem s)) ds.
Definition holds (ds : list space) (held : list Z) (s : phys) : Prop := ∃ fl, pooled ds held s fl.

#[export] Instance spaces_perm m : Proper ((≡ₚ) ==> (≡ₚ)) (spaces m).
Proof. intros ds ds' E. unfold spaces. by rewrite E. Qed.
#[export] Instance holds_perm : Proper ((≡ₚ) ==> (≡ₚ) ==> eq ==> iff) holds.
Proof.
  assert (Hi : ∀ ds ds' held held' s, ds ≡ₚ ds' → held ≡ₚ held' → holds ds held s → holds ds' held' s).
  { intros ds ds' held held' s E1 E2 (fl & F1 & F2 & F3). exists fl. split_and!; [done|by rewrite <- E1, <- E2|by rewrite <- E1]. }
  intros ds ds' E1 held held' E2 s ? <-. split; by apply Hi.
Qed.

(** the bytes of the mapped pages of [d] are the same in [m'] *)
Definition same_user (m m' : ram) (d : Z) : Prop :=
  ∀ p b, p ∈ uframes m d → p ≤ b < p + PGSIZE → load8 m' b = load8 m b.

Lemma zeros_same m m' d zs : (∀ va, is_u32 va → va < KERNBASE → pbit (pte m d va) = true → pte m' d va = pte m d va) → same_user m m' d →
  Forall (λ z, is_u32 z ∧ z < KERNBASE ∧ uread m d z = Some 0) zs → Forall (λ z, is_u32 z ∧ z < KERNBASE ∧ uread m' d z = Some 0) zs.
Proof.
  intros E Hs Hzs. eapply Forall_impl; [exact Hzs|]. intros z (Hz & Hu & Hr). split_and!; [done..|]. unfold uread in *. cbn zeta in *. destruct (pbit (pte m d z)) eqn:Hb; [|done].
  rewrite E, Hb by done. injection Hr as Hr. f_equal. rewrite (Hs (tab (pte m d z))); [done|by apply frame_in|]. mmu_consts. zdm.
Qed.
Lemma space_ext m m' x : (∀ va, is_u32 va → pte m' (sp_dir x) va = pte m (sp_dir x) va) →
  sp_zeros x = [] ∨ same_user m m' (sp_dir x) → space_ok m x → space_ok m' x.
Proof.
  intros E Hz (S1 & S2 & S3). split_and!; [intros va Hva; rewrite E by done; by apply S1|intros va Hva; rewrite E by done; by apply S2|].
  destruct Hz as [->|Hz]; [done|]. eapply zeros_same; [|done|done]. intros va Hva _ _. by apply E.
Qed.
Lemma low_mono m d n n' : n' ≤ n → low m d n → low m d n'.
Proof. intros Hn Hl va Hva Hu Hlt. apply Hl; [done..|lia]. Qed.

(** knowing less of the same spaces *)
Definition sub_space (x y : space) : Prop := sp_dir x = sp_dir y ∧ sp_low x ≤ sp_low y ∧ sp_zeros x ⊆ sp_zeros y.
#[export] Instance sub_space_refl : Reflexive sub_space.
Proof. intros x. by split_and!. Qed.
Lemma holds_sub ds ds' held s : Forall2 sub_space ds' ds → holds ds held s → holds ds' held s.
Proof.
  intros Hs (fl & F1 & F2 & F3).
  assert (E : spaces (mem s) ds' = spaces (mem s) ds ∧ Forall (space_ok (mem s)) ds').
  { clear F2. induction Hs as [|x y ds' ds (E & Hn & Hz) _ IH]; [done|]. apply Forall_cons in F3 as [(K & L & Z) F3]. destruct (IH F3) as [E1 E2].
    cbn [spaces mbind list_bind]. unfold spaces in E1. split; [by rewrite E, E1|]. constructor; [|done]. unfold space_ok. rewrite E.
    split_and!; [done|by eapply low_mono|]. rewrite Forall_forall in Z |- *. intros z Hin. by apply Z, Hz. }
  destruct E as [E Hf]. exists fl. split_and!; [done|by rewrite E|done].
Qed.
Lemma holds_weaken d n n' zs zs' ds held s : n' ≤ n → zs' ⊆ zs → holds (Sp d n zs :: ds) held s → holds (Sp d n' zs' :: ds) held s.
Proof. intros Hn Hz. apply holds_sub. constructor; [by split_and!|]. reflexivity. Qed.
Lemma holds_low d n n' zs ds held s : n' ≤ n → holds (Sp d n zs :: ds) held s → holds (Sp d n' zs :: ds) held s.
Proof. intros Hn. by apply holds_weaken. Qed.
(** a zero byte that was read *)
Lemma holds_zero d n z zs ds held s : holds (Sp d n zs :: ds) held s → is_u32 z → z < KERNBASE → uread (mem s) d z = Some 0 →
  holds (Sp d n (z :: zs) :: ds) held s.
Proof.
  intros (fl & F1 & F2 & [(K & L & Z) F3]%Forall_cons) Hz Hu Hr. exists fl. split_and!; [done|done|]. constructor; [|done]. split_and!; [done|done|]. by constructor.
Qed.

(** ** The frame rule *)

Lemma pooled_pages ds held s fl p : pooled ds held s fl → p ∈ fl ++ spaces (mem s) ds ++ held → is_page p.
Proof. intros (_ & F2 & _) Hp. rewrite F2 in Hp. rewrite Forall_forall in Hpages. by apply Hpages. Qed.
Lemma pooled_nodup ds held s fl : pooled ds held s fl → NoDup (fl ++ spaces (mem s) ds ++ held).
Proof. intros (_ & F2 & _). by rewrite F2. Qed.

(** a space whose pages are not written stays as it is *)
Lemma space_frame m m' ps x :
  same_outside ps m m' → Forall is_page ps → Forall is_page (owned m (sp_dir x)) → (∀ p, p ∈ owned m (sp_dir x) → p ∉ ps) →
  owned m' (sp_dir x) = owned m (sp_dir x) ∧ (space_ok m x → space_ok m' x).
Proof.
  intros Hs Hps Ho Hd. unfold owned in *. destruct (view_same ps m m' (sp_dir x)) as [Ht Hv]; [done|done| | |].
  { rewrite Forall_cons, Forall_app in Ho. constructor; tauto. }
  { intros p Hp. apply Hd. set_solver. }
  rewrite (tables_ext _ _ _ Ht), (uframes_ext _ _ _ Hv). split; [done|]. apply space_ext; [done|]. right. intros p b Hp Hb. apply Hs. intros q Hq.
  rewrite Forall_forall in Hps, Ho. apply (page_disjoint p q b); [apply Ho; set_solver|by apply Hps| |done]. intros ->. apply (Hd q); set_solver.
Qed.
Lemma spaces_frame m m' ps ds :
  same_outside ps m m' → Forall is_page ps → Forall is_page (spaces m ds) → (∀ p, p ∈ spaces m ds → p ∉ ps) →
  spaces m' ds = spaces m ds ∧ (Forall (space_ok m) ds → Forall (space_ok m') ds).
Proof.
  intros Hs Hps. induction ds as [|x ds IH]; [done|]. cbn [spaces mbind list_bind]. intros [Ho Hos]%Forall_app Hd.
  destruct (space_frame m m' ps x) as [E1 S1]; [done|done|done| |]. { intros p Hp. apply Hd. set_solver. }
  destruct IH as [E2 S2]; [done| |]. { intros p Hp. apply Hd. apply elem_of_app. by right. }
  unfold spaces in E2. rewrite E1, E2. split; [done|]. intros [? ?]%Forall_cons. constructor; auto.
Qed.

(** the spaces [ds1] and the pages [held] change, the spaces [ds] do not *)
Lemma pooled_step ds1 ds1' ds held held' s s' fl fl' ps :
  pooled (ds1 ++ ds) held s fl → same_outside ps (mem s) (mem s') → ps ⊆ fl ++ spaces (mem s) ds1 ++ held → kmem_ok s' fl' →
  fl' ++ spaces (mem s') ds1' ++ held' ≡ₚ fl ++ spaces (mem s) ds1 ++ held → Forall (space_ok (mem s')) ds1' →
  pooled (ds1' ++ ds) held' s' fl'.
Proof.
  intros Hp Hs Hsub Hk Hperm Hok. pose proof (pooled_nodup _ _ _ _ Hp) as Hn.
  assert (Hpg : ∀ p, p ∈ fl ++ spaces (mem s) (ds1 ++ ds) ++ held → is_page p) by (intros p; by apply pooled_pages).
  destruct Hp as (F1 & F2 & F3). assert (Eb : ∀ m x y, spaces m (x ++ y) = spaces m x ++ spaces m y) by (intros; apply bind_app).
  rewrite Eb in F2, Hpg, Hn. apply Forall_app in F3 as [_ F3].
  assert (Hq : fl ++ (spaces (mem s) ds1 ++ spaces (mem s) ds) ++ held ≡ₚ (fl ++ spaces (mem s) ds1 ++ held) ++ spaces (mem s) ds) by solve_Permutation.
  rewrite Hq in Hn. apply NoDup_app in Hn as (_ & Hd & _).
  destruct (spaces_frame (mem s) (mem s') ps ds) as [E S]; [done|..].
  { apply Forall_forall. intros p Hin%Hsub. apply Hpg. rewrite Hq. apply elem_of_app. by left. }
  { apply Forall_forall. intros p Hin. apply Hpg. rewrite Hq. apply elem_of_app. by right. }
  { intros p Hin Hin'%Hsub. by apply (Hd p). }
  split_and!; [done| |apply Forall_app; auto]. rewrite Eb, E, <- F2, Hq, <- Hperm. solve_Permutation.
Qed.
Lemma holds_step ds1 ds1' ds held held' s s' fl fl' ps :
  pooled (ds1 ++ ds) held s fl → same_outside ps (mem s) (mem s') → ps ⊆ fl ++ spaces (mem s) ds1 ++ held → kmem_ok s' fl' →
  fl' ++ spaces (mem s') ds1' ++ held' ≡ₚ fl ++ spaces (mem s) ds1 ++ held → Forall (space_ok (mem s')) ds1' →
  holds (ds1' ++ ds) held' s'.
Proof. intros. exists fl'. by eapply pooled_step. Qed.

(** an address space by itself *)
Lemma pooled_focus d n zs ds held s fl : pooled (Sp d n zs :: ds) held s fl → as_ok s fl d (spaces (mem s) ds ++ held).
Proof.
  intros Hp. pose proof (pooled_nodup _ _ _ _ Hp) as Hn. assert (Hpg := λ p, pooled_pages _ _ _ _ p Hp). destruct Hp as (F1 & _ & _).
  cbn [spaces mbind list_bind] in Hn, Hpg. unfold owned in *.
  assert (Hq : fl ++ ((d :: tables (mem s) d ++ uframes (mem s) d) ++ spaces (mem s) ds) ++ held ≡ₚ
    fl ++ d :: tables (mem s) d ++ uframes (mem s) d ++ spaces (mem s) ds ++ held) by solve_Permutation.
  unfold spaces in *. split; [done| |].
  - apply Forall_forall. intros p Hin. apply Hpg. rewrite Hq. apply elem_of_app. by right.
  - by rewrite <- Hq.
Qed.

(** ** kalloc.c *)

Lemma pool_kalloc ds held s : holds ds held s →
  rets kalloc s (λ p s', mem s' = mem s ∧ (p = 0 ∧ holds ds held s' ∨ is_page p ∧ holds ds (p :: held) s')).
Proof.
  intros (fl & Hp). pose proof Hp as (F1 & F2 & F3). destruct fl as [|q fl].
  - intros p s'. rewrite (kalloc_nil s F1). intros [= <- <-]. split; [done|]. left. split; [done|]. by exists [].
  - destruct (kalloc_cons s q fl F1) as (E & Hk & Hq & _). intros p s'. rewrite E. intros [= <- <-]. split; [done|]. right. split; [done|].
    apply (holds_step [] [] ds held (q :: held) s _ (q :: fl) fl []); [done|apply same_outside_refl|set_solver|done| |done].
    cbn. solve_Permutation.
Qed.

Lemma pool_kfree p ds held s : holds ds (p :: held) s → rets (kfree p) s (λ _ s', holds ds held s').
Proof.
  intros (fl & Hp). assert (Hpg := λ p, pooled_pages _ _ _ _ p Hp). pose proof (pooled_nodup _ _ _ _ Hp) as Hn. pose proof Hp as (F1 & F2 & F3).
  assert (Hq : is_page p) by (apply Hpg; set_solver). intros [] s'. rewrite (kfree_eval s p Hq). intros [= <-].
  apply (holds_step [] [] ds (p :: held) held s _ fl (p :: fl) [p]); [done|apply kfreed_same|set_solver| | |done].
  - apply kfreed_ok; [done..|]. apply NoDup_app in Hn as (_ & Hd & _). intros Hin. apply (Hd p Hin). set_solver.
  - cbn. solve_Permutation.
Qed.

(** writing to a page in hand *)
Lemma pool_write f p ds held s : holds ds held s → p ∈ held → same_outside [p] (mem s) (f (mem s)) → holds ds held (set_mem (f (mem s)) s).
Proof.
  intros (fl & Hp) Hin Hs. assert (Hpg := λ p, pooled_pages _ _ _ _ p Hp). pose proof (pooled_nodup _ _ _ _ Hp) as Hn. pose proof Hp as (F1 & F2 & F3).
  apply (holds_step [] [] ds held held s _ fl fl [p]); [done|done|set_solver| |done|done].
  apply (kmem_ok_same s _ fl [p]); [done|done|constructor; [apply Hpg; set_solver|done]|].
  intros q Hq ->%list_elem_of_singleton. apply NoDup_app in Hn as (_ & Hd & _). apply (Hd p Hq). set_solver.
Qed.
Lemma pool_on_mem f p ds held s : holds ds held s → p ∈ held → same_outside [p] (mem s) (f (mem s)) → rets (on_mem f) s (λ _ s', holds ds held s').
Proof. intros Hs Hp Hf. apply rets_modify. by apply (pool_write f p). Qed.

(** ** Address spaces as wholes *)

Lemma pool_freevm d n zs ds held s : holds (Sp d n zs :: ds) held s → rets (freevm d) s (λ _ s', holds ds held s').
Proof.
  intros (fl & Hp). pose proof (pooled_focus _ _ _ _ _ _ _ Hp) as Hok. destruct (freevm_ok _ _ _ _ Hok) as (s1 & fl1 & E & Hk & Hperm & Hs).
  intros [] s'. rewrite E. intros [= <-]. apply (holds_step [Sp d n zs] [] ds held held s s1 fl fl1 (fl ++ owned (mem s) d)); [done|done| |done| |done].
  - cbn. set_solver.
  - cbn [spaces mbind list_bind]. rewrite Hperm. cbn [sp_dir app]. rewrite app_nil_r. solve_Permutation.
Qed.

Lemma pooled_setupkvm ds held s fl : pooled ds held s fl →
  rets setupkvm s (λ d s', d = 0 ∧ holds ds held s' ∨
    d ≠ 0 ∧ ∃ fl', pooled (Sp d 0 [] :: ds) held s' fl' ∧ (length fl ≤ length fl' + 1025)%nat ∧ user_empty (pte (mem s') d)).
Proof.
  intros Hp. pose proof (pooled_nodup _ _ _ _ Hp) as Hn. assert (Hpg := λ p, pooled_pages _ _ _ _ p Hp). pose proof Hp as (F1 & F2 & F3).
  destruct (setupkvm_ok s fl (spaces (mem s) ds ++ held)) as (d & s1 & fl1 & E & Hr); [done| |done|].
  { apply Forall_forall. intros p Hin. apply Hpg. apply elem_of_app. by right. }
  intros d' s'. rewrite E. intros [= <- <-]. destruct Hr as [[Hd Hk]|(-> & (Hk & Hperm & Hs) & _)]; [right|left]; (split; [done|]).
  - destruct (owned_kspace _ _ _ _ _ _ _ kernel_pte_user Hk) as [Hok Hperm]. destruct Hk as [K1 K2 K3 K4]. exists fl1. split_and!.
    + apply (pooled_step [] [Sp d 0 []] ds held held s s1 fl fl1 fl); [done|done|set_solver|apply Hok| |].
      * cbn [spaces mbind list_bind sp_dir]. rewrite app_nil_r, app_assoc, Hperm. done.
      * constructor; [|done]. split_and!; cbn [sp_dir sp_low sp_zeros]; [|intros va Hva _ Hlt; exfalso; revert Hlt Hva; mmu_consts; zdm|done].
        intros va Hva _. by apply K2.
    + apply Permutation_length in K3. rewrite length_app in K3. cbn [length] in K3. pose proof (tables_length (mem s1) d). lia.
    + intros va Hva Hu. rewrite K2 by done. by apply kernel_pte_user.
  - apply (holds_step [] [] ds held held s s1 fl fl1 fl); [done|done|set_solver|done| |done]. cbn. by rewrite Hperm.
Qed.
Lemma pool_setupkvm ds held s : holds ds held s →
  rets setupkvm s (λ d s', d = 0 ∧ holds ds held s' ∨ d ≠ 0 ∧ holds (Sp d 0 [] :: ds) held s').
Proof.
  intros (fl & Hp). eapply rets_mono; [by apply pooled_setupkvm|]. intros d s' [Hl|(Hd & fl' & Hp' & _)]; [by left|]. right. split; [done|]. by exists fl'.
Qed.

Lemma pool_dealloc d n ds held s oldsz newsz : holds (Sp d n [] :: ds) held s → 0 ≤ newsz → oldsz ≤ KERNBASE →
  rets (deallocuvm d oldsz newsz) s (λ r s', r = Z.min oldsz newsz ∧ holds (Sp d (Z.min n (grow_lo newsz)) [] :: ds) held s').
Proof.
  intros Hh Hnew Hold. destruct (Z.leb_spec oldsz newsz) as [Hle|Hlt].
  { unfold deallocuvm. rewrite (proj2 (Z.leb_le _ _) Hle). apply rets_ret. split; [lia|]. eapply holds_low; [|done]. lia. }
  destruct Hh as (fl & Hp). pose proof (pooled_focus _ _ _ _ _ _ _ Hp) as Hok.
  destruct (deallocuvm_ok _ _ _ _ oldsz newsz Hok) as (s1 & fl1 & E & [R1 R2 R3 R4 R5 R6]); [lia|done|].
  intros r s'. rewrite E. intros [= <- <-]. split; [lia|]. pose proof Hp as (_ & _ & [(K & L & Hz) _]%Forall_cons).
  assert (Hperm : fl1 ++ owned (mem s1) d ≡ₚ fl ++ owned (mem s) d).
  { unfold owned. rewrite R2. transitivity ((fl1 ++ uframes (mem s1) d) ++ d :: tables (mem s) d); [solve_Permutation|]. rewrite R4. solve_Permutation. }
  apply (holds_step [Sp d n []] [Sp d (Z.min n (grow_lo newsz)) []] ds held held s s1 fl fl1 (tables (mem s) d ++ fl1)); [done|done| |apply R1| |].
  - cbn [spaces mbind list_bind sp_dir]. intros p [Hin|Hin]%elem_of_app; [unfold owned; set_solver|].
    assert (p ∈ fl1 ++ owned (mem s1) d) as Hin' by set_solver. rewrite Hperm in Hin'. set_solver.
  - cbn [spaces mbind list_bind sp_dir]. rewrite !app_nil_r, !app_assoc, Hperm. done.
  - constructor; [|done]. split_and!; cbn [sp_dir sp_low sp_zeros] in *; [intros va Hva Hu|intros va Hva Hu Hv|done]; rewrite R3 by done.
    + destruct (bool_decide _) eqn:Hb; [|by apply K]. apply bool_decide_eq_true in Hb. exfalso. revert Hb Hu Hold. mmu_consts. zdm.
    + rewrite bool_decide_eq_false_2; [cbn; apply L; [done..|lia]|]. unfold grow_lo in Hv. lia.
Qed.

(** ** One page *)

(** a step inside one address space *)
Lemma pooled_one d n n' zs zs' ds held held' s s' fl fl' :
  pooled (Sp d n zs :: ds) held s fl → same_outside (fl ++ owned (mem s) d ++ held) (mem s) (mem s') → kmem_ok s' fl' →
  fl' ++ owned (mem s') d ++ held' ≡ₚ fl ++ owned (mem s) d ++ held → space_ok (mem s') (Sp d n' zs') →
  holds (Sp d n' zs' :: ds) held' s'.
Proof.
  intros Hp Hs Hk Hperm Hok. eapply (holds_step [Sp d n zs] [Sp d n' zs'] ds held held' s s' fl fl'); [exact Hp|exact Hs| |done| |].
  - cbn [spaces mbind list_bind sp_dir]. by rewrite app_nil_r.
  - cbn [spaces mbind list_bind sp_dir]. by rewrite !app_nil_r.
  - by constructor.
Qed.

Lemma mappages_present s fl d rest k pa perm : vm_ok s fl d rest → 0 ≤ k < 2 ^ 20 → pbit (pte (mem s) d (k * PGSIZE)) = true →
  mappages d (k * PGSIZE) PGSIZE pa perm s = Panic "remap".
Proof.
  intros Hok Hk Hpr. destruct (page_base_u32 k Hk) as [Hku Hkd]. unfold mappages. rewrite (PGROUNDDOWN_mod (k * PGSIZE)) by done.
  replace (k * PGSIZE - (k * PGSIZE) mod 4096) with (k * PGSIZE) by (mmu_consts; zdm).
  rewrite mappages_loop_unfold. by eapply map_remap.
Qed.

(** mapping a page in hand at page [k]; it stays in hand when there is no page for the table *)
Lemma pool_map d n zs ds p held s k perm : holds (Sp d n zs :: ds) (p :: held) s → 0 ≤ k < KERNBASE / PGSIZE → 0 ≤ perm < 4096 →
  rets (mappages d (k * PGSIZE) PGSIZE (V2P p) perm) s (λ r s',
    r = 0 ∧ holds (Sp d (if decide (k = n) then n + 1 else n) zs :: ds) held s' ∨ r = -1 ∧ holds (Sp d n zs :: ds) (p :: held) s').
Proof.
  intros (fl & Hp) Hk Hperm. pose proof (pooled_focus _ _ _ _ _ _ _ Hp) as Hok. assert (Hpp : is_page p) by (eapply pooled_pages; [exact Hp|set_solver]).
  assert (Hk' : 0 ≤ k < 2 ^ 20) by (revert Hk; mmu_consts; zdm). destruct (page_base_u32 k Hk') as [Hku Hkd].
  destruct (pbit (pte (mem s) d (k * PGSIZE))) eqn:Hb; [intros r s'; by rewrite (mappages_present _ _ _ _ _ _ _ Hok Hk' Hb)|].
  assert (Hv2p : is_u32 (V2P p)) by (rewrite is_page_V2P by done; pose proof (is_page_range _ Hpp); mmu_consts; lia).
  destruct (mappages_ok _ _ _ _ (k * PGSIZE) PGSIZE (V2P p) perm Hok) as (r & s1 & fl1 & j & E & [M1 M2 M3 M4 M5] & Hr & _); [done|..].
  { mmu_consts. lia. } { revert Hk. mmu_consts. zdm. } { done. }
  { intros va' Hva' Hr. rewrite (pte_same_page _ _ va' (k * PGSIZE)); [done..|]. revert Hr. mmu_consts. zdm. }
  intros r' s'. rewrite E. intros [= <- <-]. pose proof Hp as (_ & _ & [(K & L & Hz) _]%Forall_cons). cbn [sp_dir sp_low sp_zeros] in K, L, Hz.
  assert (Hpte : ∀ va, is_u32 va → pte (mem s1) d va = if decide (r = 0 ∧ va / PGSIZE = k) then mkpte (V2P p) perm else pte (mem s) d va).
  { intros va Hva. rewrite M2 by done. cbn zeta. rewrite Hkd. assert (npages (k * PGSIZE) PGSIZE = 1) as E1 by (unfold npages; mmu_consts; zdm).
    destruct Hr as [[-> ->]|(-> & Hj & _)]; [|by rewrite !decide_False by lia]. rewrite E1. repeat case_decide; try lia.
    replace (va / PGSIZE - k) with 0 by lia. by rewrite Z.mul_0_l, Z.add_0_r, u32_id. }
  assert (Hs : same_outside (fl ++ owned (mem s) d ++ p :: held) (mem s) (mem s1)).
  { eapply same_outside_mono; [|exact M5]. unfold owned. intros q [->|Hq]%elem_of_cons; [set_solver|].
    assert (q ∈ fl1 ++ tables (mem s1) d) as Hq' by set_solver. rewrite M3 in Hq'. set_solver. }
  assert (Hkh : khalf (mem s1) d).
  { intros va Hva Hu. rewrite Hpte by done. rewrite decide_False; [by apply K|]. intros [_ <-]. revert Hk Hu. mmu_consts. zdm. }
  assert (Hzs : Forall (λ z, is_u32 z ∧ z < KERNBASE ∧ uread (mem s1) d z = Some 0) zs).
  { eapply zeros_same; [| |exact Hz].
    - intros va Hva Hu Hpv. rewrite Hpte by done. rewrite decide_False; [done|]. intros [_ Hd]. rewrite (pte_same_page _ _ va (k * PGSIZE)) in Hpv; [congruence|done|done|lia].
    - intros q b Hq Hqb. destruct (vo_rest_notin _ _ _ _ M1 q) as (_ & Hn1 & Hn2); [apply elem_of_app; by left|]. pose proof (vo_pages _ _ _ _ M1) as Hps.
      rewrite Forall_forall in Hps. apply M5. intros x Hx. apply (page_disjoint q x b); [apply Hps; set_solver|apply Hps; set_solver|set_solver|done]. }
  destruct (mkpte_frame p perm Hpp Hperm) as (Hpb & Htab & _). destruct Hr as [[-> ->]|(-> & Hj & ->)]; [left|right]; (split; [done|]).
  - assert (Huf : uframes (mem s1) d ≡ₚ p :: uframes (mem s) d).
    { apply (uframes_set _ _ _ k); [done|..].
      - unfold frame_at. cbn zeta. by rewrite Hb.
      - unfold frame_at. rewrite Hpte by done. rewrite Hkd, decide_True by done. cbn zeta. by rewrite Hpb, Htab.
      - intros q Hq Hne. apply frame_at_ext. destruct (page_base_u32 q) as [Hqu Hqd]; [revert Hq; mmu_consts; zdm|].
        rewrite Hpte by done. by rewrite Hqd, decide_False by tauto. }
    eapply (pooled_one d n _ zs zs ds (p :: held) held s s1 fl fl1); [done|done|apply M1| |split_and!; [done| |done]].
    + unfold owned. rewrite Huf. transitivity ((fl1 ++ tables (mem s1) d) ++ d :: p :: uframes (mem s) d ++ held); [solve_Permutation|].
      rewrite M3. solve_Permutation.
    + intros va Hva Hu Hlt. cbn [sp_dir sp_low sp_zeros] in *. rewrite Hpte by done. destruct (decide (0 = 0 ∧ _)) as [|Hd]; [done|]. apply L; [done..|]. case_decide; lia.
  - eapply (pooled_one d n n zs zs ds (p :: held) (p :: held) s s1 fl []); [done|done|apply M1| |split_and!; [done| |done]].
    + unfold owned. rewrite (uframes_ext (mem s) (mem s1)); [|intros va Hva; rewrite Hpte by done; by rewrite decide_False by lia].
      cbn [app] in M3. transitivity (tables (mem s1) d ++ d :: uframes (mem s) d ++ p :: held); [solve_Permutation|]. rewrite M3. solve_Permutation.
    + intros va Hva Hu Hlt. cbn [sp_dir sp_low sp_zeros] in *. rewrite Hpte by done. rewrite decide_False by lia. by apply L.
Qed.

(** writing to a mapped page *)
Lemma pool_user f d n zs va ds held s : holds (Sp d n zs :: ds) held s → is_u32 va → va < KERNBASE → pbit (pte (mem s) d va) = true →
  same_outside [tab (pte (mem s) d va)] (mem s) (f (mem s)) → holds (Sp d n [] :: ds) held (set_mem (f (mem s)) s).
Proof.
  intros (fl & Hp) Hva Hu Hb Hs. pose proof (pooled_focus _ _ _ _ _ _ _ Hp) as Hok. pose proof (frame_in _ _ _ Hva Hu Hb) as Hin.
  destruct (vm_write _ _ _ _ [tab (pte (mem s) d va)] (f (mem s)) Hok Hs) as (Hok1 & Ht & _ & Hv).
  { intros q ->%list_elem_of_singleton. apply elem_of_app. by left. }
  pose proof Hp as (_ & _ & [(K & L & _) _]%Forall_cons). eapply (pooled_one d n n zs [] ds held held s _ fl fl); [done| |apply Hok1| |].
  - eapply same_outside_mono; [|exact Hs]. intros q ->%list_elem_of_singleton. unfold owned. set_solver.
  - cbn [mem set_mem]. unfold owned. by rewrite Ht, (uframes_ext (mem s) (f (mem s))).
  - eapply (space_ext (mem s)); [done|by left|]. by split_and!.
Qed.

(** ** Functions that allocate *)

Lemma pool_zeroed p ds held s : holds ds (p :: held) s → rets (on_mem (memset p 0 PGSIZE)) s (λ _ s', holds ds (p :: held) s').
Proof. intros Hs. apply (pool_on_mem _ p); [done|by left|apply memset_page_same]. Qed.

Lemma pool_page_fault d zs ds held s k : holds (Sp d 0 zs :: ds) held s → 0 ≤ k < KERNBASE / PGSIZE →
  rets (page_fault_handler d (k * PGSIZE)) s (λ _ s', holds (Sp d 0 zs :: ds) held s').
Proof.
  intros Hs Hk. unfold page_fault_handler. apply rets_bind. eapply rets_mono; [by apply pool_kalloc|].
  intros p s1 [_ [[-> H1]|[Hp H1]]]; [by apply rets_ret|]. rewrite (proj2 (Z.eqb_neq p 0)) by (by apply is_page_nonzero).
  apply rets_bind. eapply rets_mono; [by apply pool_zeroed|]. intros [] s2 H2. apply rets_bind.
  eapply rets_mono; [by apply (pool_map _ _ _ _ _ _ _ _ _ H2 Hk)|]. intros r s3 [[-> H3]|[-> H3]]; cbn [Z.ltb Z.compare].
  - apply rets_ret. eapply holds_low; [|exact H3]. case_decide; lia.
  - apply rets_bind. eapply rets_mono; [by apply pool_kfree|]. intros [] s4 H4. by apply rets_ret.
Qed.

Lemma pool_alloc_loop fuel d n ds held s k oldsz newsz : holds (Sp d n [] :: ds) held s → 0 ≤ oldsz → newsz ≤ KERNBASE →
  grow_lo oldsz ≤ k ≤ grow_lo newsz → n = k ∨ n < grow_lo oldsz →
  rets (allocuvm_loop fuel d (k * PGSIZE) oldsz newsz) s (λ r s',
    r = 0 ∧ holds (Sp d (Z.min n (grow_lo oldsz)) [] :: ds) held s' ∨
    r = newsz ∧ holds (Sp d (if decide (n = k) then grow_lo newsz else n) [] :: ds) held s').
Proof.
  intros Hs Ho Hb Hk Hn. revert n s k Hs Hk Hn. induction fuel as [|fuel IH]; intros n s k Hs Hk Hn; [done|]. cbn [allocuvm_loop].
  destruct (Z.ltb_spec (k * PGSIZE) newsz) as [E|E].
  2: { apply rets_ret. right. split; [done|]. case_decide; [|done]. eapply holds_low; [|exact Hs]. revert E Hk. unfold grow_lo. mmu_consts. zdm. }
  assert (Hkr : 0 ≤ k < KERNBASE / PGSIZE) by (revert E Hk Ho Hb; unfold grow_lo; mmu_consts; zdm).
  assert (Hk1 : k + 1 ≤ grow_lo newsz) by (revert E; unfold grow_lo; mmu_consts; zdm).
  assert (Hback : ∀ m held' s', n ≤ m → holds (Sp d m [] :: ds) held' s' →
    rets (deallocuvm d newsz oldsz) s' (λ _ s2, holds (Sp d (Z.min n (grow_lo oldsz)) [] :: ds) held' s2)).
  { intros m held' s' Hm Hs'. eapply rets_mono; [by apply (pool_dealloc _ _ _ _ _ _ _ Hs')|]. intros r s2 [_ H2]. eapply holds_low; [|exact H2]. lia. }
  apply rets_bind. eapply rets_mono; [by apply pool_kalloc|]. intros p s1 [_ [[-> H1]|[Hp H1]]].
  { cbn [Z.eqb]. apply rets_bind. eapply rets_mono; [by apply (Hback n)|]. intros r s2 H2. apply rets_ret. by left. }
  rewrite (proj2 (Z.eqb_neq p 0)) by (by apply is_page_nonzero).
  apply rets_bind. eapply rets_mono; [by apply pool_zeroed|]. intros [] s2 H2. apply rets_bind.
  eapply rets_mono; [by apply (pool_map _ _ _ _ _ _ _ _ _ H2 Hkr)|]. intros r s3 [[-> H3]|[-> H3]]; cbn [Z.ltb Z.compare].
  - replace (u32 (k * PGSIZE + PGSIZE)) with ((k + 1) * PGSIZE) by (rewrite u32_id; [lia|]; revert Hkr; mmu_consts; zdm).
    eapply rets_mono; [apply (IH _ _ _ H3); [lia|case_decide; lia]|]. intros r s4 [[-> H4]|[-> H4]]; [left|right]; (split; [done|]).
    + eapply holds_low; [|exact H4]. repeat case_decide; lia.
    + eapply holds_low; [|exact H4]. repeat case_decide; lia.
  - apply rets_bind. eapply rets_mono; [by apply (Hback n (p :: held))|]. intros r s4 H4. apply rets_bind. eapply rets_mono; [exact (pool_kfree _ _ _ _ H4)|].
    intros [] s5 H5. apply rets_ret. by left.
Qed.

Lemma grow_lo_mono a b : a ≤ b → grow_lo a ≤ grow_lo b.
Proof. unfold grow_lo. mmu_consts. zdm. Qed.
Lemma pgroundup_lo sz : 0 ≤ sz ≤ KERNBASE → PGROUNDUP sz = grow_lo sz * PGSIZE.
Proof. intros Hsz. rewrite PGROUNDUP_mod; [|revert Hsz; mmu_consts; lia..]. unfold grow_lo. mmu_consts. zdm. Qed.

(** [allocuvm] gives up with nothing lost, or all pages below its result are present *)
Lemma pool_allocuvm d n ds held s oldsz newsz : holds (Sp d n [] :: ds) held s → 0 ≤ oldsz ≤ KERNBASE → n ≤ grow_lo oldsz →
  rets (allocuvm d oldsz newsz) s (λ r s', r = 0 ∧ holds (Sp d n [] :: ds) held s' ∨
    0 ≤ r ≤ KERNBASE ∧ newsz ≤ r ∧ oldsz ≤ r ∧ holds (Sp d (if decide (n = grow_lo oldsz) then grow_lo r else n) [] :: ds) held s').
Proof.
  intros Hs Ho Hn. unfold allocuvm. destruct (Z.leb_spec KERNBASE newsz) as [Hk|Hk]; [apply rets_ret; by left|].
  destruct (Z.ltb_spec newsz oldsz) as [Hlt|Hge].
  { apply rets_ret. right. split_and!; [lia..|]. case_decide; [by subst n|done]. }
  rewrite pgroundup_lo by lia. eapply rets_mono; [apply (pool_alloc_loop _ d n ds held); [done|lia|lia| |lia]|].
  - pose proof (grow_lo_mono oldsz newsz). lia.
  - intros r s' [[-> H1]|[-> H1]]; [left|right].
    + split; [done|]. eapply holds_low; [|exact H1]. lia.
    + split_and!; [lia..|done].
Qed.

Lemma walk_reads d va s : rets (walkpgdir d va false) s (λ _ s', s' = s).
Proof. unfold walkpgdir. apply rets_bind, rets_gets. destruct (pbit _); by apply rets_ret. Qed.

Lemma memmove_same p src m : same_outside [p] m (memmove p src PGSIZE m).
Proof.
  intros b Hb. rewrite memmove_ok by (mmu_consts; lia). rewrite decide_False; [done|]. intros Hin. apply (Hb p); [by left|]. lia.
Qed.

Lemma pool_copy_loop fuel pd d ds held s k sz : d ≠ 0 → holds (Sp d 0 [] :: ds) held s → 0 ≤ k → sz ≤ KERNBASE →
  rets (copyuvm_loop fuel pd d (k * PGSIZE) sz) s (λ r s', r = 0 ∧ holds ds held s' ∨ r ≠ 0 ∧ holds (Sp r 0 [] :: ds) held s').
Proof.
  intros Hd Hs Hk Hsz. revert s k Hs Hk. induction fuel as [|fuel IH]; intros s k Hs Hk; [done|]. cbn [copyuvm_loop].
  destruct (Z.ltb_spec (k * PGSIZE) sz) as [E|E]; [|apply rets_ret; by right].
  assert (Hkr : 0 ≤ k < KERNBASE / PGSIZE) by (revert E Hk Hsz; mmu_consts; zdm).
  apply rets_bind. eapply rets_mono; [apply walk_reads|]. intros a ? ->. destruct (a =? 0); [apply rets_panic|].
  apply rets_bind, rets_gets. destruct (negb _) eqn:Hb; [apply rets_panic|].
  apply rets_bind. eapply rets_mono; [by apply pool_kalloc|]. intros p s1 [_ [[-> H1]|[Hp H1]]].
  { cbn [Z.eqb]. apply rets_bind. eapply rets_mono; [by apply (pool_freevm d 0 [])|]. intros [] s2 H2. apply rets_ret. by left. }
  rewrite (proj2 (Z.eqb_neq p 0)) by (by apply is_page_nonzero).
  apply rets_bind. eapply rets_mono; [apply (pool_on_mem _ p); [exact H1|by left|apply memmove_same]|]. intros [] s2 H2. apply rets_bind.
  eapply rets_mono; [apply (pool_map _ _ _ _ _ _ _ _ _ H2 Hkr)|].
  { by apply flags_present, negb_false_iff. }
  intros r s3 [[-> H3]|[-> H3]]; cbn [Z.ltb Z.compare].
  - replace (u32 (k * PGSIZE + PGSIZE)) with ((k + 1) * PGSIZE) by (rewrite u32_id; [lia|]; revert Hkr; mmu_consts; zdm).
    apply IH; [|lia]. eapply holds_low; [|exact H3]. case_decide; lia.
  - apply rets_bind. eapply rets_mono; [by apply pool_kfree|]. intros [] s4 H4. apply rets_bind.
    eapply rets_mono; [by apply (pool_freevm d 0 [])|]. intros [] s5 H5. apply rets_ret. by left.
Qed.

Lemma pool_copyuvm pd ds held s sz : holds ds held s → sz ≤ KERNBASE →
  rets (copyuvm pd sz) s (λ d s', d = 0 ∧ holds ds held s' ∨ d ≠ 0 ∧ holds (Sp d 0 [] :: ds) held s').
Proof.
  intros Hs Hsz. unfold copyuvm. apply rets_bind. eapply rets_mono; [by apply pool_setupkvm|]. intros d s1 [[-> H1]|[Hd H1]].
  { apply rets_ret. by left. }
  rewrite (proj2 (Z.eqb_neq d 0) Hd). by apply (pool_copy_loop _ _ _ _ _ _ 0).
Qed.

(** ** User pages and the kernel's own *)

Lemma land_user v : 0 ≤ v → v / 4 mod 2 = 0 → Z.land v PTE_U = 0.
Proof.
  intros Hv Hb. apply Z.bits_inj'. intros i Hi. rewrite Z.land_spec, Z.bits_0. change PTE_U with (2 ^ 2).
  rewrite Z.pow2_bits_eqb by lia. destruct (Z.eqb_spec 2 i) as [<-|]; [|apply andb_false_r]. rewrite andb_true_r.
  rewrite Z.testbit_odd, Z.shiftr_div_pow2 by lia. change (2 ^ 2) with 4. by rewrite Zodd_mod, Hb.
Qed.
Lemma mkpte_nouser b perm : is_u32 b → b mod 4096 = 0 → perm = 0 ∨ perm = PTE_W → Z.land (mkpte b perm) PTE_U = 0.
Proof.
  intros Hb Hm Hp. unfold mkpte. destruct (lor_flags b perm) as (E & _ & _); [done|mmu_consts; destruct Hp as [-> | ->]; lia|].
  rewrite E. assert (Z.lor perm PTE_P = 1 ∨ Z.lor perm PTE_P = 3) as Hf by (destruct Hp as [-> | ->]; [by left|by right]).
  apply land_user; [apply u32_range|]. rewrite u32_id; destruct Hf as [-> | ->]; revert Hb Hm; mmu_consts; zdm.
Qed.
Lemma kernel_pte_nouser va : is_u32 va → Z.land (kernel_pte va) PTE_U = 0.
Proof.
  intros Hva. unfold kernel_pte. cbn zeta. destruct (Z.ltb_spec va KERNBASE); [done|].
  assert (Hb : is_u32 (va - va mod PGSIZE) ∧ (va - va mod PGSIZE) mod 4096 = 0 ∧ KERNBASE ≤ va - va mod PGSIZE) by (split_and!; revert Hva; mmu_consts; zdm).
  destruct (_ <? P2V PHYSTOP); [|destruct (_ <? DEVSPACE); [done|]].
  - apply mkpte_nouser; [revert Hb; mmu_consts; lia|destruct Hb as (_ & ? & _); mmu_consts; zdm|]. destruct (_ && _); auto.
  - apply mkpte_nouser; tauto.
Qed.

(** what [uva2ka] returns is a page of the space *)
Lemma pool_uva2ka d n zs ds held s va : holds (Sp d n zs :: ds) held s → is_u32 va →
  rets (uva2ka d va) s (λ r s', s' = s ∧ (r = 0 ∨ va < KERNBASE ∧ pbit (pte (mem s) d va) = true ∧ r = tab (pte (mem s) d va))).
Proof.
  intros (fl & Hp) Hva. pose proof (pooled_focus _ _ _ _ _ _ _ Hp) as Hok. pose proof Hp as (_ & _ & [[K _] _]%Forall_cons). cbn in K.
  unfold uva2ka. intros r s'. erewrite bind_Ret by apply walkpgdir_false. destruct (pte_addr (mem s) d va) as [a|] eqn:Ha; [|done]. cbn [from_option id].
  assert (Ev : load32 (mem s) a = pte (mem s) d va) by (unfold pte; by rewrite Ha).
  destruct (a =? 0); [done|]. erewrite bind_Ret by reflexivity. rewrite Ev.
  destruct (Z.land _ PTE_P =? 0) eqn:Hb; [intros [= <- <-]; auto|]. destruct (Z.eqb_spec (Z.land (pte (mem s) d va) PTE_U) 0) as [|Hu]; [intros [= <- <-]; auto|].
  intros [= <- <-]. split; [done|]. right. split_and!; [|unfold pbit; by rewrite Hb|done].
  destruct (Z.ltb_spec va KERNBASE) as [|Hge]; [done|]. rewrite K in Hu by done. by rewrite kernel_pte_nouser in Hu.
Qed.

Lemma clear_user v : pbit (Z.land v (u32 (Z.lnot PTE_U))) = pbit v ∧ tab (Z.land v (u32 (Z.lnot PTE_U))) = tab v.
Proof.
  split.
  - unfold pbit. by rewrite <- Z.land_assoc.
  - unfold tab, PTE_ADDR, u32. rewrite <- !(Z.land_ones _ 32) by lia. rewrite <- !Z.land_assoc. done.
Qed.

Lemma pool_clearpteu d n ds held s va : holds (Sp d n [] :: ds) held s → is_u32 va → va < KERNBASE →
  rets (clearpteu d va) s (λ _ s', holds (Sp d n [] :: ds) held s').
Proof.
  intros (fl & Hp) Hva Hu. pose proof (pooled_focus _ _ _ _ _ _ _ Hp) as Hok. pose proof Hp as (_ & _ & [(K & L & Hz) _]%Forall_cons). cbn [sp_dir sp_low sp_zeros] in K, L, Hz.
  unfold clearpteu. intros [] s'. erewrite bind_Ret by apply walkpgdir_false. destruct (pte_addr (mem s) d va) as [a|] eqn:Ha; [|done]. cbn [from_option id].
  assert (Ev : load32 (mem s) a = pte (mem s) d va) by (unfold pte; by rewrite Ha).
  destruct (a =? 0); [done|]. erewrite bind_Ret by reflexivity. rewrite Ev. intros [= <-].
  destruct (set_pte _ _ _ _ Hok va a (Z.land (pte (mem s) d va) (u32 (Z.lnot PTE_U))) Hva Ha) as (Hok1 & Ht & _ & Hv & Hs).
  set (s1 := set_mem _ s) in *. destruct (clear_user (pte (mem s) d va)) as [Eb Et].
  assert (Hr : is_u32 (Z.land (pte (mem s) d va) (u32 (Z.lnot PTE_U)))).
  { split; [apply Z.land_nonneg; right; by vm_compute|]. change (u32 (Z.lnot PTE_U)) with (Z.land (Z.ones 32) (u32 (Z.lnot PTE_U))).
    rewrite Z.land_assoc, (Z.land_comm _ (u32 _)), Z.land_assoc, Z.land_ones by lia. apply Z.mod_pos_bound. lia. }
  assert (Hb : ∀ x, is_u32 x → pbit (pte (mem s1) d x) = pbit (pte (mem s) d x) ∧ (pbit (pte (mem s) d x) = true → tab (pte (mem s1) d x) = tab (pte (mem s) d x))).
  { intros x Hx. rewrite Hv by done. case_decide as Hd; [|done]. rewrite (u32_id _ Hr), (pte_same_page _ _ x va Hx Hva Hd). by rewrite Eb, Et. }
  assert (Huf : uframes (mem s1) d = uframes (mem s) d).
  { rewrite !uframes_eq. apply omap_same. intros k Hk%elem_of_seqZ. unfold frame_at. cbn zeta.
    destruct (page_base_u32 k) as [Hku _]; [revert Hk; mmu_consts; zdm|]. destruct (Hb _ Hku) as [-> Htab]. destruct (pbit (pte (mem s) d (k * PGSIZE))); [|done]. by rewrite Htab. }
  eapply (pooled_one d n n [] [] ds held held s s1 fl fl); [done| |apply Hok1|unfold owned; by rewrite Ht, Huf|].
  - eapply same_outside_mono; [|exact Hs]. unfold owned. set_solver.
  - split_and!; cbn [sp_dir sp_low sp_zeros]; [| |done].
    + intros x Hx Hk. rewrite Hv by done. rewrite decide_False; [by apply K|]. revert Hk Hu. mmu_consts. zdm.
    + intros x Hx Hk Hlt. destruct (Hb x Hx) as [-> _]. by apply L.
Qed.

(** ** The first process *)

(** [inituvm] tests neither [kalloc] nor [mappages]; two free pages are enough *)
Lemma pool_inituvm d ds held s fl init sz : pooled (Sp d 0 [] :: ds) held s fl → (2 ≤ length fl)%nat → user_empty (pte (mem s) d) → 0 ≤ sz →
  rets (inituvm d init sz) s (λ _ s', holds (Sp d 0 [] :: ds) held s').
Proof.
  intros Hp Hl He Hsz. unfold inituvm. destruct (Z.leb_spec PGSIZE sz) as [|Hlt]; [apply rets_panic|]. pose proof (pooled_focus _ _ _ _ _ _ _ Hp) as Hok.
  pose proof Hp as (_ & _ & [(K & L & Hz) _]%Forall_cons). cbn [sp_dir sp_low sp_zeros] in K, L, Hz.
  destruct (alloc_one s fl d _ 0 (Z.lor PTE_W PTE_U) Hok) as [[-> _]|(p & s1 & Hpp & Hin & Hk & Em & Hmap)]; [mmu_consts; zdm|done| |cbn in Hl; lia|].
  { rewrite He; [done|by mmu_consts|mmu_consts; lia]. }
  intros [] s'. erewrite bind_Ret by exact Hk. erewrite bind_Ret by reflexivity. cbn beta.
  destruct (Hmap (memset p 0 PGSIZE (mem s1))) as (r & s2 & fl2 & E2 & Hr); [rewrite Em; apply memset_page_same|].
  erewrite bind_Ret by exact E2. destruct Hr as [[-> [O1 O2 O3 O4 O5 O6 O7 O8 O9]]|[_ [_ _ _ _ -> _]]]; [|cbn in Hl; lia].
  destruct (mkpte_frame p (Z.lor PTE_W PTE_U) Hpp) as (Hb & Ht & _); [done|].
  assert (H2 : holds (Sp d 0 [] :: ds) held s2).
  { eapply (pooled_one d 0 0 [] [] ds held held s s2 fl fl2); [done| |apply O1| |split_and!; [| |done]].
    - eapply same_outside_mono; [|exact O9]. unfold owned. set_solver.
    - rewrite !app_assoc. by rewrite O4.
    - intros va Hva Hu. rewrite O2 by done. rewrite decide_False; [by apply K|]. revert Hu. mmu_consts. zdm.
    - intros va Hva _ Hlt'. cbn in Hlt'. exfalso. revert Hlt' Hva. mmu_consts. zdm. }
  intros [= <-]. eapply (pool_user _ d 0 [] 0); [exact H2|by mmu_consts|mmu_consts; lia|rewrite O2 by (by mmu_consts); done|].
  rewrite O2 by (by mmu_consts). rewrite decide_True by done. rewrite Ht. intros b Hb'. rewrite memmove_ok by done. rewrite decide_False; [done|].
  intros Hin'. apply (Hb' p); [by left|]. lia.
Qed.
End vmpool.

(** ** A fault above the user half

    [page_fault_handler] maps a page at any address that is not mapped, also between the end of
    the kernel's memory and the devices.  [freevm] looks for frames below KERNBASE only: when
    the process is gone the page is on no list. *)

Section lost.
  Context `{KernelImage}.

(** C40: A fault at an unmapped address above KERNBASE loses a page: with two free pages left,
    the handler maps one of them there, in the kernel's half and writable by user code, and
    when the address space is freed all its pages but this one are free again. *)
Theorem kernel_fault_loses_page s fl d other k :
  as_ok s fl d other → KERNBASE / PGSIZE ≤ k < 2 ^ 20 → pbit (pte (mem s) d (k * PGSIZE)) = false → (2 ≤ length fl)%nat →
  ∃ p s1 s2 fl2, page_fault_handler d (k * PGSIZE) s = Ret 1 s1 ∧
    p ∈ fl ∧ pte (mem s1) d (k * PGSIZE) = mkpte (V2P p) (Z.lor PTE_W PTE_U) ∧
    freevm d s1 = Ret () s2 ∧ kmem_ok s2 fl2 ∧ p :: fl2 ≡ₚ fl ++ owned (mem s) d ∧ p ∉ fl2.
Proof.
  intros Hok Hk Hb Hl. destruct fl as [|p fl]; [cbn in Hl; lia|]. destruct (page_base_u32 k) as [Hku Hkd]; [revert Hk; mmu_consts; zdm|].
  destruct (vm_alloc _ _ _ _ _ Hok) as (s1 & Hk1 & Em & Hp & Hok1). set (m2 := memset p 0 PGSIZE (mem s1)).
  destruct (vm_write _ _ _ _ [p] m2 Hok1) as (Hok2 & Ht2 & _ & Hv2); [apply memset_page_same|intros q ->%list_elem_of_singleton; by left|]. rewrite Em in Ht2, Hv2.
  assert (Hv2p : is_u32 (V2P p)) by (rewrite is_page_V2P by done; pose proof (is_page_range _ Hp); mmu_consts; lia).
  destruct (mappages_ok _ _ _ _ (k * PGSIZE) PGSIZE (V2P p) (Z.lor PTE_W PTE_U) Hok2) as (r & s3 & fl3 & j & Hrun & [M1 M2 M3 _ _] & Hr & Hc); [done|..].
  { mmu_consts. lia. } { revert Hk. mmu_consts. zdm. } { done. }
  { intros va' Hva' Hr. cbn [mem set_mem]. rewrite Hv2 by done. rewrite (pte_same_page _ _ va' (k * PGSIZE)); [done..|]. revert Hr. mmu_consts. zdm. }
  assert (E1 : npages (k * PGSIZE) PGSIZE = 1) by (unfold npages; mmu_consts; zdm). cbn [mem set_mem] in *. rewrite Ht2 in M3. cbn [length] in Hl.
  destruct Hr as [[-> ->]|(_ & Hj & ->)]; [|cbn in Hc; lia].
  assert (Huf : uframes (mem s3) d = uframes (mem s) d).
  { rewrite !uframes_eq. apply omap_same. intros x Hx%elem_of_seqZ. apply frame_at_ext. destruct (page_base_u32 x) as [Hxu Hxd]; [revert Hx; mmu_consts; zdm|].
    rewrite M2 by done. cbn zeta. rewrite decide_False; [by apply Hv2|]. rewrite Hkd, Hxd, E1. lia. }
  destruct (freevm_ok s3 fl3 d (p :: other)) as (s4 & fl4 & Hf & Hk4 & Hp4 & _).
  { eapply vm_ok_perm; [|exact M1]. rewrite Huf. solve_Permutation. }
  assert (Hperm : p :: fl4 ≡ₚ (p :: fl) ++ owned (mem s) d).
  { rewrite Hp4. unfold owned. rewrite Huf. transitivity (p :: (fl3 ++ tables (mem s3) d) ++ d :: uframes (mem s) d); [solve_Permutation|]. rewrite M3. solve_Permutation. }
  exists p, s3, s4, fl4. split_and!; [|left| |done|done|done|].
  - unfold page_fault_handler. erewrite bind_Ret by exact Hk1. rewrite (proj2 (Z.eqb_neq p 0)) by (by apply is_page_nonzero).
    erewrite bind_Ret by reflexivity. cbn beta. by erewrite bind_Ret by exact Hrun.
  - rewrite M2 by done. cbn zeta. rewrite E1, decide_True, Z.sub_diag, Z.mul_0_l, Z.add_0_r, u32_id by (done || lia). done.
  - assert (Hn : NoDup (((p :: fl) ++ owned (mem s) d) ++ other)) by (destruct Hok as [_ _ Hn]; unfold owned; rewrite <- app_assoc; cbn; by rewrite <- app_assoc).
    apply NoDup_app in Hn as (Hn & _). rewrite <- Hperm in Hn. by apply NoDup_cons in Hn as [? _].
Qed.
End lost.
