(* ===== verification/VmCopyout.v ===== *)
(** * vm.c: writing into user memory

    [uva2ka] and [copyout], which the kernel uses to write at user addresses of
    a directory that need not be the current one. *)

From S2P Require Import Prelude Mmu CString Kalloc Vm VmSpec VmUser VmCopy.

#[local] Opaque tables uframes.

Section vmcopyout.
  Context `{KernelImage}.

(** present and accessible to the user *)
Definition user_ok (m : ram) (pgdir va : Z) : Prop :=
  pbit (pte m pgdir va) = true ∧ Z.land (pte m pgdir va) PTE_U ≠ 0.

Lemma uva2ka_ok s fl pgdir other va :
  as_ok s fl pgdir other → is_u32 va → user_ok (mem s) pgdir va →
  uva2ka pgdir va s = Ret (tab (pte (mem s) pgdir va)) s.
Proof.
  intros Hok Hva [Hb Hu]. unfold uva2ka. erewrite bind_Ret by apply walkpgdir_false.
  destruct (pte_addr (mem s) pgdir va) as [ad|] eqn:Had; cbn [from_option id].
  2: { unfold pte in Hb. by rewrite Had in Hb. }
  destruct (pte_addr_page _ _ _ _ Hok _ _ Hva Had) as (t & _ & _ & _ & _ & _ & _ & Hnz).
  rewrite (proj2 (Z.eqb_neq ad 0) Hnz). erewrite bind_Ret by reflexivity.
  assert (load32 (mem s) ad = pte (mem s) pgdir va) as -> by (unfold pte; by rewrite Had).
  unfold pbit in Hb. apply negb_true_iff in Hb. rewrite Hb, (proj2 (Z.eqb_neq _ 0) Hu). done.
Qed.

(** distinct user pages have distinct frames *)
Lemma frames_inj s fl pgdir other va va' :
  as_ok s fl pgdir other → is_u32 va → is_u32 va' → va < KERNBASE → va' < KERNBASE →
  pbit (pte (mem s) pgdir va) = true → pbit (pte (mem s) pgdir va') = true →
  tab (pte (mem s) pgdir va) = tab (pte (mem s) pgdir va') → va / PGSIZE = va' / PGSIZE.
Proof.
  intros Hok Hva Hva' Hu Hu' Hb Hb' E.
  assert (Hf : ∀ v, is_u32 v → v < KERNBASE → pbit (pte (mem s) pgdir v) = true →
    0 ≤ v / PGSIZE < KERNBASE / PGSIZE ∧
    frame_at (mem s) pgdir (v / PGSIZE) = Some (tab (pte (mem s) pgdir v))).
  { intros v Hv Hvk Hvb. split; [revert Hv Hvk; mmu_consts; zdm|].
    destruct (page_base_u32 (v / PGSIZE)) as [Hku Hkd]; [revert Hv; mmu_consts; zdm|].
    unfold frame_at. cbn zeta. by rewrite (pte_same_page _ _ _ v), Hvb by done. }
  destruct (Hf va) as [R1 F1]; [done..|]. destruct (Hf va') as [R2 F2]; [done..|].
  apply (omap_inj (frame_at (mem s) pgdir) (seqZ 0 (KERNBASE / PGSIZE))
    _ _ (tab (pte (mem s) pgdir va))); [|apply NoDup_seqZ|apply elem_of_seqZ; lia..|done|by rewrite E].
  rewrite <- uframes_eq. pose proof (vo_nodup _ _ _ _ Hok) as Hn.
  apply NoDup_app in Hn as (_ & _ & [_ Hn]%NoDup_cons).
  apply NoDup_app in Hn as (_ & _ & [Hn _]%NoDup_app). done.
Qed.

(** one [memmove] into the frame of [va0]'s page *)
Lemma copy_chunk s fl pgdir other va0 o buf n :
  as_ok s fl pgdir other → is_u32 va0 → va0 < KERNBASE → va0 mod PGSIZE = 0 →
  0 ≤ o → 0 ≤ n → o + n ≤ PGSIZE → pbit (pte (mem s) pgdir va0) = true →
  let f := tab (pte (mem s) pgdir va0) in
  let m' := memmove (f + o) buf n (mem s) in
  as_ok (set_mem m' s) fl pgdir other ∧ same_outside (uframes (mem s) pgdir) (mem s) m' ∧
  (∀ va, is_u32 va → pte m' pgdir va = pte (mem s) pgdir va) ∧
  (∀ va, is_u32 va → va < KERNBASE → uread m' pgdir va =
     if decide (va0 + o ≤ va < va0 + o + n) then Some (load8 (mem s) (buf + (va - (va0 + o))))
     else uread (mem s) pgdir va).
Proof.
  intros Hok Hva0 Hk0 Hal Ho Hn Hon Hb f m'.
  assert (Hfin : f ∈ uframes (mem s) pgdir) by (by apply frame_in).
  pose proof (vo_rest _ _ _ _ Hok) as Hr. rewrite Forall_forall in Hr.
  assert (Hfp : is_page f) by (apply Hr, elem_of_app; by left).
  assert (Hs : same_outside [f] (mem s) m').
  { intros b Hnb. unfold m'. rewrite memmove_ok by lia. rewrite decide_False; [done|].
    intros ?. apply (Hnb f); [by apply list_elem_of_singleton|lia]. }
  destruct (vm_write _ _ _ _ [f] m' Hok Hs) as (Hok' & Ht & _ & Hv).
  { intros q ->%list_elem_of_singleton. apply elem_of_app. by left. }
  assert (Huf : uframes m' pgdir = uframes (mem s) pgdir) by (by apply uframes_ext).
  split; [|split; [|split; [done|]]].
  - unfold as_ok. cbn [mem set_mem]. by rewrite Huf.
  - eapply same_outside_mono; [|exact Hs]. by intros q ->%list_elem_of_singleton.
  - intros va Hva Hk. unfold uread. cbn zeta. rewrite Hv by done.
    assert (Hmod : 0 ≤ va mod PGSIZE < PGSIZE) by (apply Z.mod_pos_bound; done).
    destruct (pbit (pte (mem s) pgdir va)) eqn:Hb'.
    + destruct (decide (va / PGSIZE = va0 / PGSIZE)) as [Hpg|Hpg].
      * rewrite (pte_same_page (mem s) pgdir va va0) by done. fold f.
        unfold m'. rewrite memmove_ok by lia.
        assert (va = va0 + va mod PGSIZE) by (revert Hpg Hal; mmu_consts; zdm).
        repeat case_decide; try lia; do 2 f_equal; lia.
      * rewrite decide_False by (revert Hpg Hal Hon; mmu_consts; zdm). f_equal.
        apply Hs. intros q ->%list_elem_of_singleton Hin.
        apply Hpg, (frames_inj s fl pgdir other); try done.
        destruct (decide (tab (pte (mem s) pgdir va) = f)) as [E|E]; [by rewrite E|].
        exfalso. eapply (page_disjoint f _ _ Hfp); [|apply not_eq_sym, E|exact Hin|lia].
        apply Hr, elem_of_app. left. by apply frame_in.
    + rewrite decide_False; [done|]. intros Hin.
      assert (va / PGSIZE = va0 / PGSIZE) by (revert Hin Hal Hon; mmu_consts; zdm).
      by rewrite (pte_same_page _ _ va va0), Hb in Hb'.
Qed.

(** the kernel buffer is not in the user's frames *)
Definition apart (m : ram) (pgdir buf len : Z) : Prop :=
  ∀ b f, buf ≤ b < buf + len → f ∈ uframes m pgdir → ¬ (f ≤ b < f + PGSIZE).

Record copied_out (s : phys) (fl : list Z) (pgdir : Z) (other : list Z) (va buf len : Z)
    (s' : phys) : Prop := {
  co_ok : as_ok s' fl pgdir other;
  co_pte : ∀ v, is_u32 v → pte (mem s') pgdir v = pte (mem s) pgdir v;
  co_data : ∀ v, is_u32 v → v < KERNBASE → uread (mem s') pgdir v =
    if decide (va ≤ v < va + len) then Some (load8 (mem s) (buf + (v - va)))
    else uread (mem s) pgdir v;
  co_same : same_outside (uframes (mem s) pgdir) (mem s) (mem s') }.

Lemma copied_out_trans s s1 s2 fl pgdir other va buf n len :
  0 ≤ n ≤ len → apart (mem s) pgdir buf len →
  copied_out s fl pgdir other va buf n s1 →
  copied_out s1 fl pgdir other (va + n) (buf + n) (len - n) s2 →
  copied_out s fl pgdir other va buf len s2.
Proof.
  intros Hn Hap [A1 A2 A3 A4] [B1 B2 B3 B4].
  assert (Huf : uframes (mem s1) pgdir = uframes (mem s) pgdir) by (by apply uframes_ext).
  rewrite Huf in B4. split; [done| | |].
  - intros v Hv. by rewrite B2, A2.
  - intros v Hv Hk. rewrite B3, A3 by done. repeat case_decide; try lia; try done.
    f_equal. replace (buf + n + (v - (va + n))) with (buf + (v - va)) by lia.
    apply A4. intros f Hf Hin. apply (Hap (buf + (v - va)) f); [lia|done|done].
  - by eapply same_outside_trans.
Qed.

Lemma copyout_loop_spec s fl pgdir other n va buf len :
  as_ok s fl pgdir other → 0 ≤ va → 0 ≤ len → va + len ≤ KERNBASE → len < Z.of_nat n →
  (∀ v, va ≤ v < va + len → user_ok (mem s) pgdir v) → apart (mem s) pgdir buf len →
  ∃ s', copyout_loop n pgdir va buf len s = Ret 0 s' ∧ copied_out s fl pgdir other va buf len s'.
Proof.
  revert s va buf len. induction n as [|n IH]; intros s va buf len Hok Hva Hlen Hend Hfuel Hu Hap;
    [lia|].
  cbn [copyout_loop]. destruct (Z.ltb_spec 0 len) as [Hl|Hl].
  2: { exists s. split; [done|]. split; [done..| |apply same_outside_refl].
       intros v _ _. by rewrite decide_False by lia. }
  assert (Hvu : is_u32 va) by (revert Hend; mmu_consts; lia).
  rewrite (PGROUNDDOWN_mod va) by done. set (va0 := va - va mod 4096).
  assert (Hv0 : va0 ≤ va < va0 + PGSIZE ∧ va0 mod PGSIZE = 0 ∧ 0 ≤ va0 ∧
    va0 / PGSIZE = va / PGSIZE) by (unfold va0; mmu_consts; zdm).
  destruct Hv0 as (Hr0 & Hm0 & Hp0 & Hd0).
  assert (Hv0u : is_u32 va0) by (revert Hvu; mmu_consts; lia).
  assert (Epte : pte (mem s) pgdir va0 = pte (mem s) pgdir va) by (by apply pte_same_page).
  assert (Hu0 : user_ok (mem s) pgdir va0) by (unfold user_ok; rewrite Epte; apply Hu; lia).
  erewrite bind_Ret by (by eapply uva2ka_ok).
  assert (Hfp : is_page (tab (pte (mem s) pgdir va0))).
  { pose proof (vo_rest _ _ _ _ Hok) as Hr. rewrite Forall_forall in Hr.
    apply Hr, elem_of_app. left. apply frame_in; [done|lia|apply Hu0]. }
  rewrite (proj2 (Z.eqb_neq _ 0)) by (by apply is_page_nonzero).
  set (c := if len <? PGSIZE - (va - va0) then len else PGSIZE - (va - va0)).
  assert (Hc : 0 < c ≤ len ∧ (va - va0) + c ≤ PGSIZE ∧
    (c < len → va + c = va0 + PGSIZE)).
  { unfold c. destruct (Z.ltb_spec len (PGSIZE - (va - va0))); lia. }
  destruct Hc as (Hc1 & Hc2 & Hc3). erewrite bind_Ret by reflexivity. cbn beta.
  destruct (copy_chunk s fl pgdir other va0 (va - va0) buf c) as (K1 & K2 & K3 & K4);
    [done|done|lia|done|lia|lia|lia|apply Hu0|].
  replace (va0 + (va - va0)) with va in K4 by lia.
  set (s1 := set_mem _ s) in *.
  assert (Hco : copied_out s fl pgdir other va buf c s1) by (by split).
  assert (Huf : uframes (mem s1) pgdir = uframes (mem s) pgdir) by (by apply uframes_ext).
  destruct (decide (c = len)) as [Ec|Ec].
  - destruct n as [|n]; [lia|]. exists s1. rewrite Ec in Hco |- *. split; [|done].
    cbn [copyout_loop]. by rewrite (proj2 (Z.ltb_ge 0 (len - len))) by lia.
  - rewrite u32_id by (revert Hend Hc3; mmu_consts; lia). rewrite <- Hc3 by lia.
    destruct (IH s1 (va + c) (buf + c) (len - c)) as (s2 & Hrun & Hco2);
      [done|lia|lia|lia|lia| | |].
    + intros v Hv. unfold user_ok. cbn [mem set_mem s1].
      rewrite K3 by (revert Hend; mmu_consts; lia). apply Hu. lia.
    + intros b f Hb Hf. rewrite Huf in Hf. apply Hap; [lia|done].
    + exists s2. split; [done|]. by eapply copied_out_trans; [| |exact Hco|exact Hco2]; [lia|].
Qed.

(** [copyout] to a range of user-accessible pages below KERNBASE returns 0
    and leaves user memory with exactly the bytes [va .. va+len-1] replaced by
    the buffer's, across page boundaries and whatever frames back the pages; no
    page-table entry and no other page changes. *)
Theorem copyout_spec s fl pgdir other va p len :
  as_ok s fl pgdir other → 0 ≤ va → 0 ≤ len → va + len ≤ KERNBASE →
  (∀ v, va ≤ v < va + len → user_ok (mem s) pgdir v) → apart (mem s) pgdir p len →
  ∃ s', copyout pgdir va p len s = Ret 0 s' ∧ copied_out s fl pgdir other va p len s'.
Proof. intros Hok Hva Hlen Hend Hu Hap. apply copyout_loop_spec; try done. lia. Qed.

(** [uva2ka] dereferences the entry pointer without testing it, so a
    [copyout] to an address in a 4 MB region that has no page table faults in the
    kernel instead of returning -1. *)
Theorem copyout_null_pte pgdir va p len s :
  is_u32 va → 0 < len → pte_addr (mem s) pgdir (PGROUNDDOWN va) = None →
  copyout pgdir va p len s = Panic "fault: null pte in uva2ka".
Proof.
  intros Hva Hlen Hn. unfold copyout. cbn [copyout_loop].
  rewrite (proj2 (Z.ltb_lt 0 len)) by done. apply bind_Panic. unfold uva2ka.
  erewrite bind_Ret by apply walkpgdir_false. by rewrite Hn.
Qed.

End vmcopyout.
