(* ===== verification/VmExamples.v ===== *)
(** * A small concrete machine

    Address spaces on which the theorems about vm.c are instantiated: [demo0]
    has an empty directory and three free pages, [demo1] has its page 0 mapped to
    a frame that holds one non-zero byte. *)

From S2P Require Import Prelude Mmu CString Kalloc Vm VmSpec VmUser.
From S2P Require Import VmAlloc VmGrow VmKernel VmCopy VmPool VmCopyout.

#[local] Opaque tables uframes.

Definition pg (n : Z) : Z := 0x80400000 + n * PGSIZE.
Definition demo_mem : ram :=
  store8 (pg 4 + 5) 42 (store32 (pg 1) (pg 2) (store32 (pg 2) (pg 3) ∅)).
Definition demo0 : phys := {| mem := demo_mem; use_lock := true; freelist := pg 1 |}.
Lemma demo_pages : Forall is_page [pg 0; pg 1; pg 2; pg 3; pg 4].
Proof. apply (bool_decide_unpack _). vm_compute. done. Qed.

Lemma demo_kmem : kmem_ok demo0 [pg 1; pg 2; pg 3].
Proof.
  split.
  - apply (bool_decide_unpack _). vm_compute. done.
  - pose proof demo_pages as Hp. rewrite !Forall_cons in Hp. rewrite !Forall_cons. intuition.
  - apply (bool_decide_unpack _). vm_compute. done.
Qed.

Lemma demo_zero : tables (mem demo0) (pg 0) = [] ∧ ∀ va, is_u32 va → pte (mem demo0) (pg 0) va = 0.
Proof.
  apply zero_dir. intros b Hb. cbn [mem demo0]. unfold demo_mem.
  rewrite load8_store8, !load8_store32. rewrite !decide_False; [done|..];
    revert Hb; unfold pg; mmu_consts; lia.
Qed.

Lemma demo_vm other : Forall is_page other → NoDup ([pg 1; pg 2; pg 3; pg 0] ++ other) →
  vm_ok demo0 [pg 1; pg 2; pg 3] (pg 0) other.
Proof.
  intros Ho Hn. destruct demo_zero as [Ht _].
  pose proof demo_pages as Hp. rewrite !Forall_cons in Hp. split.
  - apply demo_kmem.
  - rewrite Ht. apply Forall_cons. cbn. intuition.
  - rewrite Ht. done.
Qed.

Lemma demo0_ok : as_ok demo0 [pg 1; pg 2; pg 3] (pg 0) [].
Proof.
  unfold as_ok. rewrite uframes_nil.
  - apply demo_vm; [apply Forall_nil_2|]. apply (bool_decide_unpack _). vm_compute. done.
  - intros va Hva _. by rewrite (proj2 demo_zero).
Qed.

(** an empty address space whose page 0 is then mapped to the frame [f] *)
Definition map_first (s : phys) (d t f : Z) : phys :=
  let s := with_table s d t 0 in
  set_mem (store32 t (mkpte (V2P f) (Z.lor PTE_W PTE_U)) (mem s)) s.

Lemma map_first_ok s fl d t f other :
  vm_ok s (t :: fl) d (f :: other) → (∀ va, is_u32 va → pte (mem s) d va = 0) →
  pte_addr (mem s) d 0 = None →
  as_ok (map_first s d t f) fl d other ∧
  (∀ va, is_u32 va → pte (mem (map_first s d t f)) d va =
    if decide (va / PGSIZE = 0) then mkpte (V2P f) (Z.lor PTE_W PTE_U) else 0) ∧
  same_outside [t; d] (mem s) (mem (map_first s d t f)).
Proof.
  intros Hok Hz Hn. assert (H0 : is_u32 0) by (mmu_consts; lia).
  assert (Hf : is_page f) by (pose proof (vo_rest _ _ _ _ Hok) as Hr; by rewrite Forall_cons in Hr; destruct Hr).
  assert (Hperm : 0 ≤ Z.lor PTE_W PTE_U < 4096) by done.
  destruct (with_table_ok _ _ _ _ Hok 0 t fl H0 Hn eq_refl) as (Hok1 & Ha & _ & Hv & Hs1).
  change (4 * PTX 0) with 0 in Ha. rewrite Z.add_0_r in Ha.
  destruct (set_pte _ _ _ _ Hok1 0 t (mkpte (V2P f) (Z.lor PTE_W PTE_U)) H0 Ha)
    as (Hok2 & _ & _ & Hv2 & _).
  fold (map_first s d t f) in Hok2, Hv2. set (s' := map_first s d t f) in *.
  assert (Hpte : ∀ va, is_u32 va → pte (mem s') d va =
    if decide (va / PGSIZE = 0) then mkpte (V2P f) (Z.lor PTE_W PTE_U) else 0).
  { intros va Hva. rewrite Hv2, Hv, Hz by done. change (0 / PGSIZE) with 0.
    case_decide; [|done]. apply u32_id, u32_range. }
  assert (Hs : same_outside [t; d] (mem s) (mem s')).
  { eapply same_outside_trans; [exact Hs1|].
    eapply same_outside_mono, (same_outside_store32 t); [|lia|mmu_consts; lia].
    intros x ->%list_elem_of_singleton. by left. }
  clearbody s'. split; [|by split]. unfold as_ok.
  destruct (mkpte_frame f (Z.lor PTE_W PTE_U) Hf Hperm) as (E1 & E2 & _).
  assert (Huf : uframes (mem s') d ≡ₚ f :: uframes (mem s) d).
  { apply (uframes_set _ _ _ 0); [by mmu_consts|..].
    - unfold frame_at. cbn zeta. by rewrite Hz.
    - unfold frame_at. cbn zeta. rewrite Hpte by done. by rewrite decide_True, E1, E2.
    - intros j Hj Hne. destruct (page_base_u32 j) as [Hju Hjd]; [revert Hj; mmu_consts; zdm|].
      unfold frame_at. cbn zeta. by rewrite Hpte, Hjd, decide_False, Hz by done. }
  rewrite (uframes_nil (mem s)) in Huf by (intros va Hva _; by rewrite Hz).
  apply Permutation_singleton_r in Huf. by rewrite Huf.
Qed.

Definition demo1 : phys := map_first demo0 (pg 0) (pg 1) (pg 4).

Lemma demo1_ok other : Forall is_page other → NoDup ([pg 1; pg 2; pg 3; pg 0; pg 4] ++ other) →
  as_ok demo1 [pg 2; pg 3] (pg 0) other ∧
  (∀ va, is_u32 va → pte (mem demo1) (pg 0) va =
    if decide (va / PGSIZE = 0) then mkpte (V2P (pg 4)) (Z.lor PTE_W PTE_U) else 0) ∧
  same_outside [pg 1; pg 0] demo_mem (mem demo1).
Proof.
  intros Ho Hn. apply map_first_ok; [|apply demo_zero|by vm_compute].
  pose proof demo_pages as Hp. rewrite !Forall_cons in Hp. apply demo_vm; [|exact Hn].
  apply Forall_cons. intuition.
Qed.

Lemma demo1_facts :
  as_ok demo1 [pg 2; pg 3] (pg 0) [] ∧
  ∀ va, is_u32 va → pte (mem demo1) (pg 0) va =
    if decide (va / PGSIZE = 0) then mkpte (V2P (pg 4)) (Z.lor PTE_W PTE_U) else 0.
Proof.
  destruct (demo1_ok []) as (? & ? & _); [apply Forall_nil_2| |done].
  apply (bool_decide_unpack _). vm_compute. done.
Qed.

(** ** Instances *)

Definition boot : phys := {| mem := ∅; use_lock := true; freelist := 0 |}.

Example kinit1_spec_witness :
  ∃ s', kinit1 0x801154a8 0x80118000 boot = Ret () s' ∧
    kmem_ok s' (reverse (range_pages 0x801154a8 0x80118000)) ∧
    same_outside (range_pages 0x801154a8 0x80118000) (mem boot) (mem s') ∧ use_lock s' = false.
Proof. apply (kinit1_spec 0x801154a8 0x80118000 boot); cbn; mmu_consts; lia || done. Defined.

Definition demo0' : phys := set_freelist (pg 2) demo0.

Lemma demo_alloc : rtc client (demo0, []) (demo0', [pg 1]).
Proof.
  apply rtc_once. apply client_alloc; [|by vm_compute].
  destruct (kalloc_cons _ _ _ demo_kmem) as [-> _]. done.
Qed.

Example allocator_conserves_witness :
  (∃ fl', kmem_ok demo0' fl' ∧ [pg 1] ++ fl' ≡ₚ [pg 1; pg 2; pg 3] ∧ NoDup ([pg 1] ++ fl')) ∧
  (∀ p, p ∈ [pg 1] → ∃ s'', kfree p demo0' = Ret () s'').
Proof. exact (allocator_conserves demo0 _ demo0' [pg 1] demo_kmem demo_alloc). Defined.

Example setupkvm_spec_witness :
  ∃ r s' fl', setupkvm demo0 = Ret r s' ∧ same_outside [pg 1; pg 2; pg 3] (mem demo0) (mem s') ∧
    (r ≠ 0 ∧ as_ok s' fl' r [] ∧ fl' ++ owned (mem s') r ≡ₚ [pg 1; pg 2; pg 3] ∧
       (∀ va, is_u32 va → pte (mem s') r va = kernel_pte va) ∨
     r = 0 ∧ (length [pg 1; pg 2; pg 3] ≤ 1025)%nat ∧ kmem_ok s' fl' ∧ fl' ≡ₚ [pg 1; pg 2; pg 3]).
Proof.
  apply (setupkvm_spec demo0 [pg 1; pg 2; pg 3] [] demo_kmem); [apply Forall_nil_2|].
  apply (bool_decide_unpack _). vm_compute. done.
Defined.

Lemma demo0_absent va : is_u32 va → pbit (pte (mem demo0) (pg 0) va) = false.
Proof. intros Hva. by rewrite (proj2 demo_zero). Qed.

Example allocuvm_spec_witness :
  ∃ r s' fl', allocuvm (pg 0) 0 5000 demo0 = Ret r s' ∧ as_ok s' fl' (pg 0) [] ∧
    fl' ++ owned (mem s') (pg 0) ≡ₚ [pg 1; pg 2; pg 3] ++ owned (mem demo0) (pg 0) ∧
    (r = 0 ∧ Z.of_nat (length [pg 1; pg 2; pg 3]) < 2 * (grow_lo 5000 - grow_lo 0) ∧
     uframes (mem s') (pg 0) = uframes (mem demo0) (pg 0) ∧
     fl' ++ tables (mem s') (pg 0) ≡ₚ [pg 1; pg 2; pg 3] ++ tables (mem demo0) (pg 0) ∧
     (∀ va, is_u32 va → va < KERNBASE → uread (mem s') (pg 0) va = uread (mem demo0) (pg 0) va) ∨
     r = 5000 ∧
     (∀ va, is_u32 va → va < KERNBASE → uread (mem s') (pg 0) va =
        if decide (grow_lo 0 ≤ va / PGSIZE < grow_lo 5000) then Some 0
        else uread (mem demo0) (pg 0) va) ∧
     ∃ s'' fl'', deallocuvm (pg 0) 5000 0 s' = Ret 0 s'' ∧ as_ok s'' fl'' (pg 0) [] ∧
       ∀ va, is_u32 va → va < KERNBASE → uread (mem s'') (pg 0) va = uread (mem demo0) (pg 0) va).
Proof.
  apply (allocuvm_spec demo0 [pg 1; pg 2; pg 3] (pg 0) [] 0 5000 demo0_ok); [lia|by mmu_consts|].
  intros va Hva _. by apply demo0_absent.
Defined.

Example page_fault_handler_spec_witness :
  ∃ r s' fl', page_fault_handler (pg 0) (7 * PGSIZE) demo0 = Ret r s' ∧
    as_ok s' fl' (pg 0) [] ∧
    fl' ++ owned (mem s') (pg 0) ≡ₚ [pg 1; pg 2; pg 3] ++ owned (mem demo0) (pg 0) ∧
    (∀ q b, q ∈ [] → q ≤ b < q + PGSIZE → load8 (mem s') b = load8 (mem demo0) b) ∧
    r = 1 ∧ (∀ va, is_u32 va → va < KERNBASE → uread (mem s') (pg 0) va =
        if decide (va / PGSIZE = 7) then Some 0 else uread (mem demo0) (pg 0) va).
Proof.
  destruct (page_fault_handler_spec demo0 [pg 1; pg 2; pg 3] (pg 0) [] 7 demo0_ok)
    as (r & s' & fl' & H1 & H2 & H3 & H4 & [[-> H5]|(_ & Hl & _)]).
  - mmu_consts. zdm.
  - apply demo0_absent. mmu_consts. lia.
  - exists 1, s', fl'. by split_and!.
  - cbn in Hl. lia.
Defined.

Example kernel_fault_loses_page_witness :
  ∃ p s1 s2 fl2, page_fault_handler (pg 0) (0x90000 * PGSIZE) demo0 = Ret 1 s1 ∧
    p ∈ [pg 1; pg 2; pg 3] ∧ pte (mem s1) (pg 0) (0x90000 * PGSIZE) = mkpte (V2P p) (Z.lor PTE_W PTE_U) ∧
    freevm (pg 0) s1 = Ret () s2 ∧ kmem_ok s2 fl2 ∧ p :: fl2 ≡ₚ [pg 1; pg 2; pg 3] ++ owned (mem demo0) (pg 0) ∧ p ∉ fl2.
Proof.
  apply (kernel_fault_loses_page demo0 [pg 1; pg 2; pg 3] (pg 0) [] 0x90000 demo0_ok).
  - mmu_consts. zdm.
  - apply demo0_absent. mmu_consts. lia.
  - cbn. lia.
Defined.

Lemma demo1_present va : is_u32 va → va / PGSIZE < 1 →
  pte (mem demo1) (pg 0) va = mkpte (V2P (pg 4)) (Z.lor PTE_W PTE_U).
Proof.
  intros Hva Hlt. rewrite (proj2 demo1_facts) by done. rewrite decide_True; [done|].
  revert Hva Hlt. mmu_consts. zdm.
Qed.

Lemma demo_pte_bits :
  pbit (mkpte (V2P (pg 4)) (Z.lor PTE_W PTE_U)) = true ∧
  Z.land (mkpte (V2P (pg 4)) (Z.lor PTE_W PTE_U)) PTE_U ≠ 0 ∧
  tab (mkpte (V2P (pg 4)) (Z.lor PTE_W PTE_U)) = pg 4.
Proof. by vm_compute. Qed.

Example page_fault_present_panics_witness :
  page_fault_handler (pg 0) (0 * PGSIZE) demo1 = Panic "remap".
Proof.
  apply (page_fault_present_panics demo1 (pg 2) [pg 3] (pg 0) [] 0 (proj1 demo1_facts)); [lia|].
  rewrite demo1_present by (mmu_consts; zdm). apply demo_pte_bits.
Defined.

Lemma demo1_touched : touched (mem demo1) (pg 0) 4096.
Proof. intros va Hva Hlt. rewrite demo1_present by done. apply demo_pte_bits. Qed.

Lemma demo1_untouched : ¬ touched (mem demo1) (pg 0) 8192.
Proof.
  intros Ht. specialize (Ht 4096 ltac:(mmu_consts; lia) ltac:(by mmu_consts)).
  rewrite (proj2 demo1_facts) in Ht by (mmu_consts; lia). by rewrite decide_False in Ht.
Qed.

(** one page, and the same with a second one that was never touched *)
Example copyuvm_spec_witness :
  (∃ r s' fl', copyuvm (pg 0) 4096 demo1 = Ret r s' ∧
    (∀ va, is_u32 va → va < KERNBASE → uread (mem s') (pg 0) va = uread (mem demo1) (pg 0) va) ∧
    (r ≠ 0 ∧ touched (mem demo1) (pg 0) 4096 ∧ copied demo1 [pg 2; pg 3] (pg 0) [] ((4096 + PGSIZE - 1) / PGSIZE) r s' fl' ∨
     r = 0 ∧ given_back demo1 [pg 2; pg 3] s' fl' ∧
       Z.of_nat (length [pg 2; pg 3]) ≤ 1026 + (4096 + PGSIZE - 1) / PGSIZE)) ∧
  ((∃ s' fl', copyuvm (pg 0) 8192 demo1 = Ret 0 s' ∧ given_back demo1 [pg 2; pg 3] s' fl') ∨
   ∃ msg, copyuvm (pg 0) 8192 demo1 = Panic msg).
Proof.
  split.
  - destruct (copyuvm_spec demo1 [pg 2; pg 3] (pg 0) [] 4096 (proj1 demo1_facts)) as [H|[Hn _]]; [mmu_consts; lia|exact H|].
    destruct (Hn demo1_touched).
  - destruct (copyuvm_spec demo1 [pg 2; pg 3] (pg 0) [] 8192 (proj1 demo1_facts)) as [H|[_ H]]; [mmu_consts; lia| |right; exact H].
    destruct H as (r & s' & fl' & Hr & _ & [(_ & Ht & _)|(-> & Hg & _)]); [destruct (demo1_untouched Ht)|]. left. exists s', fl'. exact (conj Hr Hg).
Defined.

Example freevm_spec_witness :
  ∃ s3 fl3, freevm (pg 0) (set_mem (mem demo1) demo1) = Ret () s3 ∧ kmem_ok s3 fl3 ∧
    fl3 ≡ₚ [pg 2; pg 3] ++ owned (mem demo1) (pg 0) ∧ NoDup (fl3 ++ []) ∧
    same_outside ([pg 2; pg 3] ++ owned (mem demo1) (pg 0)) (mem demo1) (mem s3).
Proof.
  apply (freevm_spec demo1 [pg 2; pg 3] (pg 0) [] (mem demo1) (proj1 demo1_facts)).
  apply same_outside_refl.
Defined.

Example copyout_spec_witness :
  ∃ s', copyout (pg 0) 4000 0x80105000 90 demo1 = Ret 0 s' ∧
    copied_out demo1 [pg 2; pg 3] (pg 0) [] 4000 0x80105000 90 s'.
Proof.
  apply (copyout_spec demo1 [pg 2; pg 3] (pg 0) [] 4000 0x80105000 90 (proj1 demo1_facts));
    [lia|lia|mmu_consts; lia| |].
  - intros v Hv. unfold user_ok. rewrite demo1_present by (mmu_consts; zdm).
    destruct demo_pte_bits as (? & ? & _). done.
  - intros b f Hb Hf Hin. pose proof (vo_rest _ _ _ _ (proj1 demo1_facts)) as Hr.
    rewrite Forall_forall in Hr. destruct (Hr f) as (_ & Hk & _); [apply elem_of_app; by left|].
    revert Hk Hin Hb. cbn. mmu_consts. lia.
Defined.

Example copyout_null_pte_witness :
  copyout (pg 0) 0x400000 0x80105000 4 demo0 = Panic "fault: null pte in uva2ka".
Proof. apply (copyout_null_pte (pg 0) 0x400000 0x80105000 4 demo0); [mmu_consts; lia|lia|by vm_compute]. Defined.
