(* ===== verification/Proc.v ===== *)
(** * proc.c: processes

    The process table, process creation and destruction, sleep and wakeup, and
    the system calls added for lazily mapped memory.  [myproc()] is the argument
    [me], the slot of the running process; a section of code run under
    [ptable.lock] is one step.  Open files and inodes belong to another part of
    the kernel: the operations of that part which proc.c calls are the class
    [FileOps], over a state that proc.c does not look into. *)

From S2P Require Import Prelude Mmu CString Kalloc Vm.

Definition NPROC : nat := 64.
Definition KSTACKSIZE : Z := 4096.
Definition NOFILE : nat := 16.

Inductive procstate := UNUSED | EMBRYO | SLEEPING | RUNNABLE | RUNNING | ZOMBIE.

#[export] Instance procstate_eq_dec : EqDecision procstate.
Proof. solve_decision. Defined.

(** [p_parent] is the slot the parent pointer points to; pointers to files and
    inodes are addresses, 0 when null; [p_name] is the array [name] *)
Record proc := {
  p_sz : Z; p_pgdir : Z; p_kstack : Z; p_state : procstate; p_pid : Z;
  p_parent : option nat; p_tf : Z; p_context : Z; p_chan : Z; p_killed : bool;
  p_ofile : list Z; p_cwd : Z; p_name : list Z }.

Definition set_sz (v : Z) (p : proc) : proc :=
  {| p_sz := v; p_pgdir := p_pgdir p; p_kstack := p_kstack p; p_state := p_state p;
     p_pid := p_pid p; p_parent := p_parent p; p_tf := p_tf p; p_context := p_context p;
     p_chan := p_chan p; p_killed := p_killed p; p_ofile := p_ofile p; p_cwd := p_cwd p;
     p_name := p_name p |}.
Definition set_pgdir (v : Z) (p : proc) : proc :=
  {| p_sz := p_sz p; p_pgdir := v; p_kstack := p_kstack p; p_state := p_state p;
     p_pid := p_pid p; p_parent := p_parent p; p_tf := p_tf p; p_context := p_context p;
     p_chan := p_chan p; p_killed := p_killed p; p_ofile := p_ofile p; p_cwd := p_cwd p;
     p_name := p_name p |}.
Definition set_kstack (v : Z) (p : proc) : proc :=
  {| p_sz := p_sz p; p_pgdir := p_pgdir p; p_kstack := v; p_state := p_state p;
     p_pid := p_pid p; p_parent := p_parent p; p_tf := p_tf p; p_context := p_context p;
     p_chan := p_chan p; p_killed := p_killed p; p_ofile := p_ofile p; p_cwd := p_cwd p;
     p_name := p_name p |}.
Definition set_state (v : procstate) (p : proc) : proc :=
  {| p_sz := p_sz p; p_pgdir := p_pgdir p; p_kstack := p_kstack p; p_state := v;
     p_pid := p_pid p; p_parent := p_parent p; p_tf := p_tf p; p_context := p_context p;
     p_chan := p_chan p; p_killed := p_killed p; p_ofile := p_ofile p; p_cwd := p_cwd p;
     p_name := p_name p |}.
Definition set_pid (v : Z) (p : proc) : proc :=
  {| p_sz := p_sz p; p_pgdir := p_pgdir p; p_kstack := p_kstack p; p_state := p_state p;
     p_pid := v; p_parent := p_parent p; p_tf := p_tf p; p_context := p_context p;
     p_chan := p_chan p; p_killed := p_killed p; p_ofile := p_ofile p; p_cwd := p_cwd p;
     p_name := p_name p |}.
Definition set_parent (v : option nat) (p : proc) : proc :=
  {| p_sz := p_sz p; p_pgdir := p_pgdir p; p_kstack := p_kstack p; p_state := p_state p;
     p_pid := p_pid p; p_parent := v; p_tf := p_tf p; p_context := p_context p;
     p_chan := p_chan p; p_killed := p_killed p; p_ofile := p_ofile p; p_cwd := p_cwd p;
     p_name := p_name p |}.
Definition set_tf (v : Z) (p : proc) : proc :=
  {| p_sz := p_sz p; p_pgdir := p_pgdir p; p_kstack := p_kstack p; p_state := p_state p;
     p_pid := p_pid p; p_parent := p_parent p; p_tf := v; p_context := p_context p;
     p_chan := p_chan p; p_killed := p_killed p; p_ofile := p_ofile p; p_cwd := p_cwd p;
     p_name := p_name p |}.
Definition set_context (v : Z) (p : proc) : proc :=
  {| p_sz := p_sz p; p_pgdir := p_pgdir p; p_kstack := p_kstack p; p_state := p_state p;
     p_pid := p_pid p; p_parent := p_parent p; p_tf := p_tf p; p_context := v;
     p_chan := p_chan p; p_killed := p_killed p; p_ofile := p_ofile p; p_cwd := p_cwd p;
     p_name := p_name p |}.
Definition set_chan (v : Z) (p : proc) : proc :=
  {| p_sz := p_sz p; p_pgdir := p_pgdir p; p_kstack := p_kstack p; p_state := p_state p;
     p_pid := p_pid p; p_parent := p_parent p; p_tf := p_tf p; p_context := p_context p;
     p_chan := v; p_killed := p_killed p; p_ofile := p_ofile p; p_cwd := p_cwd p;
     p_name := p_name p |}.
Definition set_killed (v : bool) (p : proc) : proc :=
  {| p_sz := p_sz p; p_pgdir := p_pgdir p; p_kstack := p_kstack p; p_state := p_state p;
     p_pid := p_pid p; p_parent := p_parent p; p_tf := p_tf p; p_context := p_context p;
     p_chan := p_chan p; p_killed := v; p_ofile := p_ofile p; p_cwd := p_cwd p;
     p_name := p_name p |}.
Definition set_ofile (v : list Z) (p : proc) : proc :=
  {| p_sz := p_sz p; p_pgdir := p_pgdir p; p_kstack := p_kstack p; p_state := p_state p;
     p_pid := p_pid p; p_parent := p_parent p; p_tf := p_tf p; p_context := p_context p;
     p_chan := p_chan p; p_killed := p_killed p; p_ofile := v; p_cwd := p_cwd p;
     p_name := p_name p |}.
Definition set_cwd (v : Z) (p : proc) : proc :=
  {| p_sz := p_sz p; p_pgdir := p_pgdir p; p_kstack := p_kstack p; p_state := p_state p;
     p_pid := p_pid p; p_parent := p_parent p; p_tf := p_tf p; p_context := p_context p;
     p_chan := p_chan p; p_killed := p_killed p; p_ofile := p_ofile p; p_cwd := v;
     p_name := p_name p |}.
Definition set_name (v : list Z) (p : proc) : proc :=
  {| p_sz := p_sz p; p_pgdir := p_pgdir p; p_kstack := p_kstack p; p_state := p_state p;
     p_pid := p_pid p; p_parent := p_parent p; p_tf := p_tf p; p_context := p_context p;
     p_chan := p_chan p; p_killed := p_killed p; p_ofile := p_ofile p; p_cwd := p_cwd p;
     p_name := v |}.

(** a slot as the kernel's zeroed data segment has it *)
Definition proc0 : proc :=
  {| p_sz := 0; p_pgdir := 0; p_kstack := 0; p_state := UNUSED; p_pid := 0; p_parent := None;
     p_tf := 0; p_context := 0; p_chan := 0; p_killed := false; p_ofile := replicate NOFILE 0;
     p_cwd := 0; p_name := replicate 16 0 |}.

(** addresses the linker chose *)
Class ProcImage := {
  ptable_proc : Z;
  forkret_addr : Z;
  trapret_addr : Z;
  initcode_start : Z;
  initcode_size : Z }.

(** as recorded in kernel.sym *)
#[export] Instance proc_sym : ProcImage | 100 :=
  {| ptable_proc := 0x80112d54; forkret_addr := 0x80103860; trapret_addr := 0x80105aee;
     initcode_start := 0x8010a460; initcode_size := 0x2c |}.

Record kern (F : Type) := {
  k_phys : phys; k_fs : F; k_procs : list proc; k_nextpid : Z; k_initproc : option nat }.
Arguments k_phys {F}. Arguments k_fs {F}. Arguments k_procs {F}.
Arguments k_nextpid {F}. Arguments k_initproc {F}. Arguments Build_kern {F}.

(** what proc.c uses of file.c, fs.c and log.c.  Closing the last reference to a pipe
    frees its page and wakes processes, so that it runs in the kernel state, called by
    the process in slot [me]; [iput] is called with the pid of the caller *)
Class FileOps (F : Type) := {
  filedup : Z → M F Z;
  fileclose : nat → Z → M (kern F) unit;
  idup : Z → M F Z;
  iput : Z → Z → M F unit;
  begin_op : M F unit;
  end_op : M F unit;
  namei : list Z → M F Z }.

(** what they promise: [fs_inv f files inodes] says that [f] counts the
    references in the lists [files] and [inodes]; taking another reference to
    something already referenced succeeds, without sleeping, and returns it, as long as
    the counters do not overflow *)
Class FileRefs (F : Type) `{FileOps F} := {
  fs_inv : F → list Z → list Z → Prop;
  fs_inv_perm f fr fr' ir ir' : fs_inv f fr ir → fr ≡ₚ fr' → ir ≡ₚ ir' → fs_inv f fr' ir';
  filedup_ok f fr ir x : fs_inv f fr ir → x ∈ fr → Z.of_nat (length fr) < 2 ^ 30 →
    ∃ f', filedup x f = Ret x f' ∧ fs_inv f' (x :: fr) ir;
  idup_ok f fr ir x : fs_inv f fr ir → x ∈ ir → Z.of_nat (length ir) < 2 ^ 30 →
    ∃ f', idup x f = Ret x f' ∧ fs_inv f' fr (x :: ir) }.

(** all that closing a file does to the processes is to wake some *)
Definition woken (l l' : list proc) : Prop :=
  ∀ j, l' !! j = l !! j ∨ ∃ p, l !! j = Some p ∧ p_state p = SLEEPING ∧ l' !! j = Some (set_state RUNNABLE p).

Class FileCalm (F : Type) `{FileOps F} :=
  fileclose_calm me x k : rets (fileclose me x) k (λ _ k', k_initproc k' = k_initproc k ∧ woken (k_procs k) (k_procs k')).

Section proc.
  Context `{KernelImage} `{ProcImage} {F : Type} `{FileOps F}.

Abbreviation K := (M (kern F)).

(** ** Access to the parts of the kernel state *)

Definition in_phys {A} : M phys A → K A :=
  zoom k_phys (λ s k, Build_kern s (k_fs k) (k_procs k) (k_nextpid k) (k_initproc k)).
Definition in_fs {A} : M F A → K A :=
  zoom k_fs (λ f k, Build_kern (k_phys k) f (k_procs k) (k_nextpid k) (k_initproc k)).
Definition with_procs (f : list proc → list proc) (k : kern F) : kern F :=
  Build_kern (k_phys k) (k_fs k) (f (k_procs k)) (k_nextpid k) (k_initproc k).
Definition set_nextpid (n : Z) (k : kern F) : kern F :=
  Build_kern (k_phys k) (k_fs k) (k_procs k) n (k_initproc k).
Definition set_initproc (i : option nat) (k : kern F) : kern F :=
  Build_kern (k_phys k) (k_fs k) (k_procs k) (k_nextpid k) i.

Definition procs : K (list proc) := gets k_procs.
(** the slot a pointer into the table points to *)
Definition proc_at (i : nat) : K proc :=
  l ← procs;
  match l !! i with Some p => mret p | None => panic "fault: not a slot of ptable" end.
Definition upd (i : nat) (f : proc → proc) : K unit := modify (with_procs (alter f i)).
Definition upd_all (f : nat → proc → proc) : K unit := modify (with_procs (imap f)).

(** [&ptable.proc[i]] as a sleep channel *)
Definition procp (i : nat) : Z := ptable_proc + 124 * Z.of_nat i.

(** ** Allocation of a slot *)

Definition find_slot (P : proc → bool) (l : list proc) : option nat :=
  fst <$> list_find (λ p, Is_true (P p)) l.

Definition TF_SIZE : Z := 76.
Definition TF_eax : Z := 28.
Definition TF_es : Z := 40.
Definition TF_ds : Z := 44.
Definition TF_eip : Z := 56.
Definition TF_cs : Z := 60.
Definition TF_eflags : Z := 64.
Definition TF_esp : Z := 68.
Definition TF_ss : Z := 72.
Definition CONTEXT_SIZE : Z := 20.
Definition CONTEXT_eip : Z := 16.

Definition allocproc : K (option nat) :=
  l ← procs;
  match find_slot (λ p, bool_decide (p_state p = UNUSED)) l with
  | None => mret None
  | Some i =>
      _ ← upd i (set_state EMBRYO);
      pid ← gets k_nextpid;
      _ ← modify (set_nextpid (i32 (pid + 1)));
      _ ← upd i (set_pid pid);
      kstack ← in_phys kalloc;
      _ ← upd i (set_kstack kstack);
      if kstack =? 0 then
        _ ← upd i (set_state UNUSED);
        mret None
      else
        let sp := kstack + KSTACKSIZE in
        let sp := sp - TF_SIZE in
        _ ← upd i (set_tf sp);
        let sp := sp - 4 in
        _ ← in_phys (wr32 sp trapret_addr);
        let sp := sp - CONTEXT_SIZE in
        _ ← upd i (set_context sp);
        _ ← in_phys (on_mem (memset sp 0 CONTEXT_SIZE));
        _ ← in_phys (wr32 (sp + CONTEXT_eip) forkret_addr);
        mret (Some i)
  end.

(** ** Names: safestrcpy on the array [name] *)

Fixpoint copy_name (n : nat) (src : list Z) : list Z :=
  match n, src with
  | S n, c :: src => if c =? 0 then [] else c :: copy_name n src
  | _, _ => []
  end.
Definition safestrcpy_name (dst src : list Z) : list Z :=
  let s := copy_name (length dst - 1) src ++ [0] in s ++ drop (length s) dst.

Definition wr16 (a v : Z) : M phys unit :=
  on_mem (λ m, store8 (a + 1) (v / 2 ^ 8) (store8 a v m)).

Definition userinit (initname : list Z) : K unit :=
  mp ← allocproc;
  match mp with
  | None => panic "fault: null proc in userinit"
  | Some i =>
      _ ← modify (set_initproc (Some i));
      pgdir ← in_phys setupkvm;
      _ ← upd i (set_pgdir pgdir);
      if pgdir =? 0 then panic "userinit: out of memory?"
      else
        _ ← in_phys (inituvm pgdir initcode_start initcode_size);
        _ ← upd i (set_sz PGSIZE);
        p ← proc_at i;
        let tf := p_tf p in
        _ ← in_phys (on_mem (memset tf 0 TF_SIZE));
        let ucode := Z.lor (Z.shiftl SEG_UCODE 3) DPL_USER in
        let udata := Z.lor (Z.shiftl SEG_UDATA 3) DPL_USER in
        _ ← in_phys (wr16 (tf + TF_cs) ucode);
        _ ← in_phys (wr16 (tf + TF_ds) udata);
        _ ← in_phys (wr16 (tf + TF_es) udata);
        _ ← in_phys (wr16 (tf + TF_ss) udata);
        _ ← in_phys (wr32 (tf + TF_eflags) FL_IF);
        _ ← in_phys (wr32 (tf + TF_esp) PGSIZE);
        _ ← in_phys (wr32 (tf + TF_eip) 0);
        _ ← upd i (λ p, set_name (safestrcpy_name (p_name p) initname) p);
        cwd ← in_fs (namei [47]);
        _ ← upd i (set_cwd cwd);
        upd i (set_state RUNNABLE)
  end.

(** ** Memory of the current process *)

(** [switchuvm]: its checks; the registers it loads are not part of the model *)
Definition switchuvm (i : nat) : K unit :=
  p ← proc_at i;
  if p_kstack p =? 0 then panic "switchuvm: no kstack"
  else if p_pgdir p =? 0 then panic "switchuvm: no pgdir"
  else mret ().

Definition growproc (me : nat) (n : Z) : K Z :=
  p ← proc_at me;
  let sz := p_sz p in
  if 0 <? n then
    sz' ← in_phys (allocuvm (p_pgdir p) sz (u32 (sz + n)));
    if sz' =? 0 then mret (-1)
    else
      _ ← upd me (set_sz sz');
      _ ← switchuvm me;
      mret 0
  else if n <? 0 then
    sz' ← in_phys (deallocuvm (p_pgdir p) sz (u32 (sz + n)));
    if sz' =? 0 then mret (-1)
    else
      _ ← upd me (set_sz sz');
      _ ← switchuvm me;
      mret 0
  else
    _ ← upd me (set_sz sz);
    _ ← switchuvm me;
    mret 0.

(** ** fork, exit, wait *)

(** [for(i = 0; i < NOFILE; i++) if(curproc->ofile[i]) np->ofile[i] = filedup(...)] *)
Fixpoint dup_files (src dst : list Z) : M F (list Z) :=
  match src, dst with
  | f :: src, d :: dst =>
      d' ← (if f =? 0 then mret d else filedup f);
      dst' ← dup_files src dst;
      mret (d' :: dst')
  | _, _ => mret dst
  end.

Definition fork (me : nat) : K Z :=
  mnp ← allocproc;
  match mnp with
  | None => mret (-1)
  | Some np =>
      cur ← proc_at me;
      pgdir ← in_phys (copyuvm (p_pgdir cur) (p_sz cur));
      _ ← upd np (set_pgdir pgdir);
      if pgdir =? 0 then
        n ← proc_at np;
        _ ← in_phys (kfree (p_kstack n));
        _ ← upd np (set_kstack 0);
        _ ← upd np (set_state UNUSED);
        mret (-1)
      else
        _ ← upd np (set_sz (p_sz cur));
        _ ← upd np (set_parent (Some me));
        n ← proc_at np;
        _ ← in_phys (on_mem (memmove (p_tf n) (p_tf cur) TF_SIZE));
        _ ← in_phys (wr32 (p_tf n + TF_eax) 0);
        fs ← in_fs (dup_files (p_ofile cur) (p_ofile n));
        _ ← upd np (set_ofile fs);
        cwd ← in_fs (idup (p_cwd cur));
        _ ← upd np (set_cwd cwd);
        _ ← upd np (λ n, set_name (safestrcpy_name (p_name n) (p_name cur)) n);
        _ ← upd np (set_state RUNNABLE);
        mret (p_pid n)
  end.

Definition wake (chan : Z) (p : proc) : proc :=
  if decide (p_state p = SLEEPING ∧ p_chan p = chan) then set_state RUNNABLE p else p.
Definition wakeup1 (chan : Z) : K unit := upd_all (λ _, wake chan).
Definition wakeup (chan : Z) : K unit := wakeup1 chan.

(** the loop over the descriptors from [fd] on *)
Fixpoint close_files (n fd me : nat) : K unit :=
  match n with
  | O => mret ()
  | S n =>
      cur ← proc_at me;
      _ ← (if p_ofile cur !!! fd =? 0 then mret ()
           else
             _ ← fileclose me (p_ofile cur !!! fd);
             upd me (λ p, set_ofile (<[fd := 0]> (p_ofile p)) p));
      close_files n (S fd) me
  end.

(** the loop that passes abandoned children to init *)
Fixpoint reparent_loop (n : nat) (i me : nat) (init : option nat) : K unit :=
  match n with
  | O => mret ()
  | S n =>
      p ← proc_at i;
      _ ← (if decide (p_parent p = Some me) then
             _ ← upd i (set_parent init);
             if decide (p_state p = ZOMBIE)
             then wakeup1 (match init with Some j => procp j | None => 0 end)
             else mret ()
           else mret ());
      reparent_loop n (S i) me init
  end.

(** [exit] up to the switch to the scheduler, from which it does not return *)
Definition exit (me : nat) : K unit :=
  init ← gets k_initproc;
  if decide (init = Some me) then panic "init exiting"
  else
    _ ← close_files NOFILE 0 me;
    cur ← proc_at me;
    _ ← in_fs begin_op;
    _ ← in_fs (iput (p_pid cur) (p_cwd cur));
    _ ← in_fs end_op;
    _ ← upd me (set_cwd 0);
    cur ← proc_at me;
    _ ← wakeup1 (match p_parent cur with Some j => procp j | None => 0 end);
    _ ← reparent_loop NPROC 0 me init;
    upd me (set_state ZOMBIE).

(** going to sleep: the caller is resumed after a [wakeup] of [chan] (or a
    [kill]) with [sleep_resume] *)
Definition sleep {A} (me : nat) (chan : Z) : K A := λ k,
  Asleep chan (with_procs (alter (λ p, set_state SLEEPING (set_chan chan p)) me) k).
Definition sleep_resume (me : nat) : K unit := upd me (set_chan 0).

(** one round of the loop of [wait]; a process that wakes up starts the next *)
Definition wait (me : nat) : K Z :=
  l ← procs;
  cur ← proc_at me;
  match find_slot (λ p, bool_decide (p_parent p = Some me ∧ p_state p = ZOMBIE)) l with
  | Some i =>
      p ← proc_at i;
      _ ← in_phys (kfree (p_kstack p));
      _ ← upd i (set_kstack 0);
      _ ← in_phys (freevm (p_pgdir p));
      _ ← upd i (set_pid 0);
      _ ← upd i (set_parent None);
      _ ← upd i (λ p, set_name (<[0%nat := 0]> (p_name p)) p);
      _ ← upd i (set_killed false);
      _ ← upd i (set_state UNUSED);
      mret (p_pid p)
  | None =>
      let havekids := find_slot (λ p, bool_decide (p_parent p = Some me)) l in
      if bool_decide (havekids = None) || p_killed cur then mret (-1)
      else sleep me (procp me)
  end.

Definition kill (pid : Z) : K Z :=
  l ← procs;
  match find_slot (λ p, p_pid p =? pid) l with
  | Some i =>
      _ ← upd i (set_killed true);
      p ← proc_at i;
      _ ← (if decide (p_state p = SLEEPING) then upd i (set_state RUNNABLE) else mret ());
      mret 0
  | None => mret (-1)
  end.

(** ** Scheduling *)

Definition yield (me : nat) : K unit := upd me (set_state RUNNABLE).

(** the scheduler's [for] loop from slot [c] on: the next process it switches to *)
Definition pick (c : nat) (l : list proc) : option nat :=
  (λ i, (c + i)%nat) <$> find_slot (λ p, bool_decide (p_state p = RUNNABLE)) (drop c l).

(** switching to the process found; [None] when the pass over the table ends *)
Definition scheduler_step (c : nat) : K (option nat) :=
  l ← procs;
  match pick c l with
  | None => mret None
  | Some i =>
      _ ← switchuvm i;
      _ ← upd i (set_state RUNNING);
      mret (Some i)
  end.

(** the slots [scheduler] switches to, given the tables it finds each time it
    looks for the next one *)
Fixpoint scheduler (c : nat) (ls : list (list proc)) : list nat :=
  match ls with
  | [] => []
  | l :: ls =>
      match pick c l with
      | Some i => i :: scheduler (S i) ls
      | None => scheduler 0 ls
      end
  end.

(** ** Calls added to xv6 *)

Definition getNumProc : K Z :=
  l ← procs;
  mret (Z.of_nat (length (filter (λ p, p_state p ≠ UNUSED) l))).

(** the pids [showAncestry] prints; following the parent of init reads through
    the null pointer *)
Fixpoint showAncestry_loop (n : nat) (cur : option nat) : K (list Z) :=
  match n with
  | O => mret []
  | S n =>
      match cur with
      | None => panic "fault: null proc in showAncestry"
      | Some i =>
          p ← proc_at i;
          if 1 <=? p_pid p then
            ps ← showAncestry_loop n (p_parent p);
            mret (p_pid p :: ps)
          else mret []
      end
  end.
Definition showAncestry (me : nat) : K (list Z) := showAncestry_loop 10 (Some me).

(** proc.c's own [walkpgdir] never allocates, and returns present entries only *)
Definition walkpgdir_present (pgdir va : Z) : M phys Z :=
  v ← rd32 (pgdir + 4 * PDX va);
  if pbit v then
    let pgtab := P2V (PTE_ADDR v) in
    e ← rd32 (pgtab + 4 * PTX va);
    if pbit e then mret (pgtab + 4 * PTX va) else mret 0
  else mret 0.

Definition numvp (me : nat) : K Z :=
  p ← proc_at me;
  if p_sz p mod PGSIZE =? 0 then mret (i32 (p_sz p / PGSIZE))
  else mret (i32 (p_sz p / PGSIZE + 1)).

Fixpoint numpp_loop (fuel : nat) (pgdir i sz num_pp : Z) : M phys Z :=
  match fuel with
  | O => λ _, NoFuel
  | S fuel =>
      if i <? sz then
        pte ← walkpgdir_present pgdir i;
        numpp_loop fuel pgdir (u32 (i + PGSIZE)) sz
          (if pte =? 0 then num_pp else i32 (num_pp + 1))
      else mret num_pp
  end.

Definition numpp (me : nat) : K Z :=
  p ← proc_at me;
  let sz := p_sz p in
  in_phys (numpp_loop (S (Z.to_nat ((sz + PGSIZE - 1) / PGSIZE))) (p_pgdir p) 0 sz 0).

Definition mmap (me : nat) (size : Z) : K Z :=
  p ← proc_at me;
  let addr := i32 (p_sz p) in
  _ ← upd me (set_sz (u32 (p_sz p + size)));
  mret addr.

End proc.
