(* ===== verification/Trap.v ===== *)
(** * trap.c and traps.h: interrupts, exceptions and the page-fault path

    [trap] as the dispatcher it is: the system-call handler and the interrupt
    handlers of the devices are arguments.  [myproc()] is the argument [me]
    ([None] on an idle processor), [rcr2()] the argument [cr2].  A call of
    [exit] does not return, and a call of [yield] returns when the process is
    scheduled again: both end the part of the trap that runs now.  [tf->cs] is read once:
    no handler changes the code segment in the trap frame. *)

From S2P Require Import Prelude Mmu CString Kalloc Vm Proc.

Definition T_PGFLT : Z := 14.
Definition T_SYSCALL : Z := 64.
Definition T_IRQ0 : Z := 32.
Definition IRQ_TIMER : Z := 0.
Definition IRQ_KBD : Z := 1.
Definition IRQ_COM1 : Z := 4.
Definition IRQ_IDE : Z := 14.
Definition IRQ_SPURIOUS : Z := 31.

(** ** The interrupt descriptor table *)

Definition tvinit (vectors : list Z) : list gatedesc :=
  let idt := (λ v, SETGATE false (Z.shiftl SEG_KCODE 3) v 0) <$> vectors in
  <[Z.to_nat T_SYSCALL :=
      SETGATE true (Z.shiftl SEG_KCODE 3) (vectors !!! Z.to_nat T_SYSCALL) DPL_USER]> idt.

(** ** The dispatcher *)

Definition TF_trapno : Z := 48.

(** how the part of a trap that runs now ends *)
Inductive trap_end := Tret | Texit | Tyield.

Section trap.
  Context `{KernelImage} `{ProcImage} {F : Type} `{FileOps F}.
  (** [&ticks], the channel of sys_sleep *)
  Context (ticks_addr : Z).
  (** [syscall] tells whether it returns: a system call may end the process *)
  Context (syscall : nat → M (kern F * Z) bool).
  Context (ideintr kbdintr uartintr : M (kern F) unit).

Abbreviation T := (M (kern F * Z)).

Definition in_kern {A} : M (kern F) A → T A := zoom fst (λ k s, (k, s.2)).

(** [case T_PGFLT] *)
Definition pgfault (me : option nat) (cr2 : Z) : M (kern F) Z :=
  match me with
  | None => panic "fault: null proc in trap"
  | Some me =>
      p ← proc_at me;
      r ← in_phys (page_fault_handler (p_pgdir p) (PGROUNDDOWN cr2));
      _ ← switchuvm me;
      mret r
  end.

(** the checks [myproc() && myproc()->killed && (tf->cs&3) == DPL_USER] *)
Definition must_exit (me : option nat) (cs : Z) : M (kern F) bool :=
  match me with
  | None => mret false
  | Some me => p ← proc_at me; mret (p_killed p && (Z.land cs 3 =? DPL_USER))
  end.

(** the end of [trap], after the [yield]: also what runs when a process that
    yielded is scheduled again *)
Definition trap_resume (me : option nat) (cs : Z) : T trap_end :=
  x ← in_kern (must_exit me cs);
  match me, (x : bool) with
  | Some me, true => _ ← in_kern (exit me); mret Texit
  | _, _ => mret Tret
  end.

Definition trap_tail (me : option nat) (trapno cs : Z) : T trap_end :=
  x ← in_kern (must_exit me cs);
  match me with
  | None => mret Tret
  | Some i =>
      if (x : bool) then _ ← in_kern (exit i); mret Texit
      else
        p ← in_kern (proc_at i);
        if bool_decide (p_state p = RUNNING) && (trapno =? T_IRQ0 + IRQ_TIMER)
        then _ ← in_kern (yield i); mret Tyield
        else trap_resume me cs
  end.

Definition syscall_trap (me : option nat) (tf : Z) : T trap_end :=
  match me with
  | None => panic "fault: null proc in trap"
  | Some me =>
      p ← in_kern (proc_at me);
      if p_killed p then _ ← in_kern (exit me); mret Texit
      else
        _ ← in_kern (upd me (set_tf tf));
        back ← syscall me;
        if (back : bool) then
          p ← in_kern (proc_at me);
          if p_killed p then _ ← in_kern (exit me); mret Texit
          else mret Tret
        else mret Texit
  end.

Definition trap (cpu0 : bool) (me : option nat) (cr2 tf : Z) : T trap_end :=
  trapno ← in_kern (in_phys (rd32 (tf + TF_trapno)));
  cs ← in_kern (in_phys (rd32 (tf + TF_cs)));
  let cs := u16 cs in
  if trapno =? T_SYSCALL then syscall_trap me tf
  else if trapno =? T_IRQ0 + IRQ_TIMER then
    _ ← (if cpu0 then
           _ ← modify (λ s, (s.1, u32 (s.2 + 1)));
           in_kern (wakeup ticks_addr)
         else mret ());
    trap_tail me trapno cs
  else if trapno =? T_IRQ0 + IRQ_IDE then _ ← in_kern ideintr; trap_tail me trapno cs
  else if trapno =? T_IRQ0 + IRQ_IDE + 1 then trap_tail me trapno cs
  else if trapno =? T_IRQ0 + IRQ_KBD then _ ← in_kern kbdintr; trap_tail me trapno cs
  else if trapno =? T_IRQ0 + IRQ_COM1 then _ ← in_kern uartintr; trap_tail me trapno cs
  else if (trapno =? T_IRQ0 + 7) || (trapno =? T_IRQ0 + IRQ_SPURIOUS)
  then trap_tail me trapno cs
  else if trapno =? T_PGFLT then _ ← in_kern (pgfault me cr2); trap_tail me trapno cs
  else
    match me with
    | None => panic "trap"
    | Some i =>
        if Z.land cs 3 =? 0 then panic "trap"
        else _ ← in_kern (upd i (set_killed true)); trap_tail me trapno cs
    end.

End trap.
