(* ===== verification/ProcMem.v ===== *)
(** * proc.c: the memory of processes

    [sys_ok] says that the free pages, the kernel stacks and the address spaces
    of all processes are pages of one pool, each owned once.  Creating, growing,
    faulting in and reaping processes preserves it and loses no page. *)

From S2P Require Import Prelude Mmu CString Kalloc Vm VmSpec VmUser VmAlloc VmGrow.
From S2P Require Import VmKernel VmCopy Proc.

#[local] Opaque tables uframes.

(** ** Running the pieces *)

Section running.
  Context {F : Type}.

Lemma in_phys_Ret {A} (m : M phys A) s (f : F) l n ip a s' :
  m s = Ret a s' → in_phys m (Build_kern s f l n ip) = Ret a (Build_kern s' f l n ip).
Proof. intros E. unfold in_phys, zoom. cbn. by rewrite E. Qed.

Lemma in_fs_Ret {A} (m : M F A) s f l n ip a f' :
  m f = Ret a f' → in_fs m (Build_kern s f l n ip) = Ret a (Build_kern s f' l n ip).
Proof. intros E. unfold in_fs, zoom. cbn. by rewrite E. Qed.

Lemma proc_at_Ret s (f : F) l n ip i p :
  l !! i = Some p → proc_at i (Build_kern s f l n ip) = Ret p (Build_kern s f l n ip).
Proof. intros E. unfold proc_at. erewrite bind_Ret by reflexivity. cbn. by rewrite E. Qed.

End running.

(** run one primitive action on an explicit kernel state *)
Ltac kstep :=
  erewrite bind_Ret by reflexivity; unfold with_procs, set_nextpid, set_initproc;
  cbn [k_phys k_fs k_procs k_nextpid k_initproc].
Ltac kphys E := erewrite bind_Ret by (apply in_phys_Ret; exact E).
Ltac kfs E := erewrite bind_Ret by (apply in_fs_Ret; exact E).

Section procmem.
  Context `{KernelImage} `{ProcImage} {F : Type} `{FileRefs F}.

Lemma find_slot_Some P l i :
  find_slot P l = Some i → ∃ p, l !! i = Some p ∧ P p = true ∧
    ∀ j q, (j < i)%nat → l !! j = Some q → P q = false.
Proof.
  unfold find_slot. intros Hf.
  destruct (list_find (λ p, Is_true (P p)) l) as [[i' p]|] eqn:E; [|done].
  cbn in Hf. injection Hf as ->. apply list_find_Some in E as (Hl & Hp & Hn).
  exists p. split_and!; [done|by apply Is_true_eq_true|]. intros j q Hj Hq.
  apply not_true_is_false. intros Hq'. by eapply (Hn j q); [done| |rewrite Hq'].
Qed.

Lemma find_slot_None P l : find_slot P l = None → ∀ i p, l !! i = Some p → P p = false.
Proof.
  unfold find_slot. intros Hf.
  destruct (list_find (λ p, Is_true (P p)) l) as [[i' q]|] eqn:E; [done|].
  apply list_find_None in E. intros i p Hp. rewrite Forall_lookup in E.
  apply not_true_is_false. intros Hq. by eapply (E i p); [|rewrite Hq].
Qed.

(** ** Who owns which page *)

Definition powned (m : ram) (p : proc) : list Z :=
  if decide (p_state p = UNUSED) then [] else p_kstack p :: owned m (p_pgdir p).
Definition all_owned (m : ram) (l : list proc) : list Z := mjoin (powned m <$> l).

Record sys_ok (s : phys) (l : list proc) (fl held : list Z) : Prop := {
  so_kmem : kmem_ok s fl;
  so_pages : Forall is_page (all_owned (mem s) l ++ held);
  so_nodup : NoDup (fl ++ all_owned (mem s) l ++ held) }.

Lemma all_owned_delete m l i p :
  l !! i = Some p → all_owned m l ≡ₚ powned m p ++ all_owned m (delete i l).
Proof.
  intros Hl. unfold all_owned. rewrite (delete_Permutation l i p Hl) at 1. done.
Qed.

Lemma delete_alter {A} (f : A → A) i (l : list A) : delete i (alter f i l) = delete i l.
Proof. revert i. induction l as [|x l IH]; intros [|i]; cbn; f_equal; auto. Qed.

Lemma all_owned_alter m l i f p :
  l !! i = Some p → all_owned m (alter f i l) ≡ₚ powned m (f p) ++ all_owned m (delete i l).
Proof.
  intros Hl. rewrite (all_owned_delete m _ i (f p)) by (by rewrite list_lookup_alter_eq, Hl).
  by rewrite delete_alter.
Qed.

(** the address space of one process, in the presence of everything else *)
Lemma focus s l fl held i p :
  sys_ok s l fl held → l !! i = Some p → p_state p ≠ UNUSED →
  as_ok s fl (p_pgdir p) (p_kstack p :: all_owned (mem s) (delete i l) ++ held).
Proof.
  intros [S1 S2 S3] Hl Hs.
  assert (Hperm : all_owned (mem s) l ++ held ≡ₚ
    p_pgdir p :: tables (mem s) (p_pgdir p) ++ uframes (mem s) (p_pgdir p) ++
    p_kstack p :: all_owned (mem s) (delete i l) ++ held).
  { rewrite (all_owned_delete _ _ _ _ Hl). unfold powned, owned.
    rewrite decide_False by done. solve_Permutation. }
  split; [done| |].
  - by rewrite <- Hperm.
  - by rewrite <- Hperm.
Qed.

(** a change confined to pages no process in [l'] owns *)
Lemma powned_same s l fl held ps m' i p :
  sys_ok s l fl held → l !! i = Some p → same_outside ps (mem s) m' → Forall is_page ps →
  (∀ q, q ∈ ps → q ∉ powned (mem s) p) → powned m' p = powned (mem s) p.
Proof.
  intros Hok Hl Hs Hps Hd. unfold powned in *. case_decide as Hu; [done|].
  pose proof (focus _ _ _ _ _ _ Hok Hl Hu) as Ha.
  destruct (vm_views _ _ _ _ ps m' Ha Hs Hps) as (Ht & _ & Hv).
  { intros q Hq. specialize (Hd q Hq). unfold owned in Hd. clear -Hd. set_solver. }
  unfold owned. rewrite Ht. by rewrite (uframes_ext (mem s) m') by done.
Qed.

Lemma elem_of_all_owned m l q :
  q ∈ all_owned m l ↔ ∃ i p, l !! i = Some p ∧ q ∈ powned m p.
Proof.
  unfold all_owned. rewrite list_elem_of_join. split.
  - intros (x & Hq & Hx). apply list_elem_of_fmap in Hx as (p & -> & Hp).
    apply list_elem_of_lookup in Hp as [i Hi]. eauto.
  - intros (i & p & Hp & Hq). exists (powned m p). split; [done|].
    apply list_elem_of_fmap. exists p. split; [done|]. by eapply list_elem_of_lookup_2.
Qed.

Lemma others_same s l fl held ps m' i :
  sys_ok s l fl held → same_outside ps (mem s) m' → Forall is_page ps →
  (∀ q, q ∈ ps → q ∉ all_owned (mem s) (delete i l)) →
  all_owned m' (delete i l) = all_owned (mem s) (delete i l).
Proof.
  intros Hok Hs Hps Hd. unfold all_owned. f_equal. apply list_fmap_ext. intros j p Hp.
  assert (Hl : ∃ j', l !! j' = Some p).
  { destruct (decide (j < i)%nat).
    - exists j. rewrite <- Hp. symmetry. by apply list_lookup_delete_lt.
    - exists (S j). rewrite <- Hp. symmetry. apply list_lookup_delete_ge. lia. }
  destruct Hl as [j' Hl]. eapply powned_same; [done..|].
  intros q Hq Hin. apply (Hd q Hq), elem_of_all_owned. eauto.
Qed.

(** after an operation on the address space and the slot of process [i], given
    what it now owns *)
Lemma unfocus s l fl held i p f s' fl' ps :
  sys_ok s l fl held → l !! i = Some p →
  same_outside ps (mem s) (mem s') → (∀ q, q ∈ ps → q ∈ fl ∨ q ∈ powned (mem s) p) →
  kmem_ok s' fl' →
  fl' ++ powned (mem s') (f p) ≡ₚ fl ++ powned (mem s) p →
  sys_ok s' (alter f i l) fl' held ∧
  all_owned (mem s') (alter f i l) ≡ₚ
    powned (mem s') (f p) ++ all_owned (mem s) (delete i l).
Proof.
  intros Hok Hl Hs Hps Hk Hperm. pose proof Hok as [S1 S2 S3].
  rewrite (all_owned_delete _ _ _ _ Hl) in S2, S3.
  assert (Hpp : Forall is_page ps).
  { apply Forall_forall. intros q Hq. destruct S1 as [_ Hf _].
    apply Forall_app in S2 as [[S2 _]%Forall_app _]. rewrite Forall_forall in Hf, S2.
    destruct (Hps q Hq); [by apply Hf|by apply S2]. }
  assert (Eo : all_owned (mem s') (delete i l) = all_owned (mem s) (delete i l)).
  { eapply others_same; [done..|]. intros q Hq Hin.
    rewrite <- app_assoc, NoDup_app in S3. destruct S3 as (_ & D1 & S3).
    rewrite NoDup_app in S3. destruct S3 as (_ & D2 & _).
    destruct (Hps q Hq) as [Hf|Hf]; [apply (D1 q Hf)|apply (D2 q Hf)]; clear -Hin; set_solver. }
  pose proof (all_owned_alter (mem s') l i f p Hl) as Ha. rewrite Eo in Ha.
  split; [|done]. split; [done|rewrite Ha|rewrite Ha].
  - rewrite <- app_assoc. rewrite !Forall_app in S2 |- *. destruct S2 as [[S2 S2'] S2''].
    split_and!; [|done..]. rewrite Forall_forall. intros q Hq.
    assert (q ∈ fl ++ powned (mem s) p) as Hin by (rewrite <- Hperm; apply elem_of_app; by right).
    rewrite Forall_forall in S2. apply elem_of_app in Hin as [Hin|Hin]; [|by apply S2].
    destruct S1 as [_ Hf _]. rewrite Forall_forall in Hf. by apply Hf.
  - assert (fl' ++ (powned (mem s') (f p) ++ all_owned (mem s) (delete i l)) ++ held ≡ₚ
      fl ++ (powned (mem s) p ++ all_owned (mem s) (delete i l)) ++ held) as ->; [|done].
    rewrite <- !app_assoc, (app_assoc fl'), (app_assoc fl). by rewrite Hperm.
Qed.

(** pages move between the free list and the kernel's hands; only such pages
    are written *)
Lemma sys_frame s l fl held ps s' fl' held' :
  sys_ok s l fl held → same_outside ps (mem s) (mem s') → ps ⊆ fl ++ held →
  kmem_ok s' fl' → fl' ++ held' ≡ₚ fl ++ held →
  sys_ok s' l fl' held' ∧ all_owned (mem s') l = all_owned (mem s) l.
Proof.
  intros Hok Hs Hsub Hk Hperm. pose proof Hok as [S1 S2 S3].
  apply Forall_app in S2 as [S2 S2'].
  assert (Hfl : Forall is_page (fl ++ held)) by (apply Forall_app; split; [apply S1|done]).
  assert (Hn : NoDup ((fl ++ held) ++ all_owned (mem s) l))
    by (rewrite <- app_assoc, (Permutation_app_comm held); done).
  apply NoDup_app in Hn as (N1 & N2 & N3).
  assert (Eo : all_owned (mem s') l = all_owned (mem s) l).
  { unfold all_owned. f_equal. apply list_fmap_ext. intros i p Hp.
    eapply powned_same; [done|done|exact Hs| |].
    - rewrite Forall_forall in Hfl |- *. intros q Hq. by apply Hfl, Hsub.
    - intros q Hq Hin. apply (N2 q); [by apply Hsub|]. apply elem_of_all_owned. eauto. }
  split; [|done]. split; rewrite ?Eo.
  - done.
  - apply Forall_app. split; [done|]. rewrite <- Hperm in Hfl. by apply Forall_app in Hfl as [_ ?].
  - assert (fl' ++ all_owned (mem s) l ++ held' ≡ₚ fl ++ all_owned (mem s) l ++ held) as ->; [|done].
    rewrite (Permutation_app_comm _ held'), (Permutation_app_comm _ held), !app_assoc.
    by rewrite Hperm.
Qed.

(** a slot changes without changing what it owns *)
Lemma sys_slot s l fl held i p f :
  sys_ok s l fl held → l !! i = Some p → powned (mem s) (f p) = powned (mem s) p →
  sys_ok s (alter f i l) fl held ∧ all_owned (mem s) (alter f i l) ≡ₚ all_owned (mem s) l.
Proof.
  intros [S1 S2 S3] Hl E.
  assert (Hp : all_owned (mem s) (alter f i l) ≡ₚ all_owned (mem s) l).
  { by rewrite (all_owned_alter _ _ _ _ _ Hl), (all_owned_delete _ _ _ _ Hl), E. }
  split; [|done]. split; [done|by rewrite Hp..].
Qed.

(** an unused slot takes over pages from the kernel's hands *)
Lemma sys_adopt s l fl held i p f :
  sys_ok s l fl (powned (mem s) (f p) ++ held) → l !! i = Some p → p_state p = UNUSED →
  sys_ok s (alter f i l) fl held ∧
  all_owned (mem s) (alter f i l) ≡ₚ powned (mem s) (f p) ++ all_owned (mem s) l.
Proof.
  intros [S1 S2 S3] Hl Hu.
  assert (Hp : all_owned (mem s) (alter f i l) ≡ₚ powned (mem s) (f p) ++ all_owned (mem s) l).
  { rewrite (all_owned_alter _ _ _ _ _ Hl), (all_owned_delete _ _ _ _ Hl).
    unfold powned at 3. by rewrite decide_True. }
  assert (Hh : all_owned (mem s) (alter f i l) ++ held ≡ₚ
    all_owned (mem s) l ++ powned (mem s) (f p) ++ held) by (rewrite Hp; solve_Permutation).
  split; [|done]. split; [done|by rewrite Hh..].
Qed.

(** ** allocproc *)

Definition is_unused (p : proc) : bool := bool_decide (p_state p = UNUSED).

(** the slot [allocproc] returns, with [q] the page of its kernel stack *)
Definition embryo (pid q : Z) (p : proc) : proc :=
  set_context (q + KSTACKSIZE - TF_SIZE - 4 - CONTEXT_SIZE)
    (set_tf (q + KSTACKSIZE - TF_SIZE)
       (set_kstack q (set_pid pid (set_state EMBRYO p)))).

(** a slot whose stack could not be allocated keeps its new pid *)
Definition stillborn (pid : Z) (p : proc) : proc :=
  set_state UNUSED (set_kstack 0 (set_pid pid (set_state EMBRYO p))).

Lemma allocproc_full s (f : F) l n ip :
  find_slot is_unused l = None →
  allocproc (Build_kern s f l n ip) = Ret None (Build_kern s f l n ip).
Proof. intros E. unfold allocproc, is_unused in *. kstep. by rewrite E. Qed.

Lemma allocproc_nomem s (f : F) l n ip i :
  find_slot is_unused l = Some i → kmem_ok s [] →
  allocproc (Build_kern s f l n ip) =
    Ret None (Build_kern s f (alter (stillborn n) i l) (i32 (n + 1)) ip).
Proof.
  intros E Hk. unfold allocproc, is_unused in *. kstep. rewrite E. do 4 kstep.
  kphys (kalloc_nil _ Hk). kstep. cbn [Z.eqb]. kstep. by rewrite !list_alter_alter_eq.
Qed.

Lemma allocproc_ok s (f : F) l n ip i q fl :
  find_slot is_unused l = Some i → kmem_ok s (q :: fl) →
  ∃ s', allocproc (Build_kern s f l n ip) =
      Ret (Some i) (Build_kern s' f (alter (embryo n q) i l) (i32 (n + 1)) ip) ∧
    kmem_ok s' fl ∧ is_page q ∧ q ∉ fl ∧ same_outside [q] (mem s) (mem s').
Proof.
  intros E Hk. destruct (kalloc_cons _ _ _ Hk) as (Hka & Hk' & Hq & Hn).
  unfold allocproc, is_unused in *. kstep. rewrite E. do 4 kstep. kphys Hka. kstep.
  rewrite (proj2 (Z.eqb_neq q 0)) by (by apply is_page_nonzero). do 5 kstep.
  rewrite !list_alter_alter_eq.
  set (sp := q + KSTACKSIZE - TF_SIZE - 4).
  set (m1 := store32 sp trapret_addr (mem s)).
  set (m2 := memset (sp - CONTEXT_SIZE) 0 CONTEXT_SIZE m1).
  set (m3 := store32 (sp - CONTEXT_SIZE + CONTEXT_eip) forkret_addr m2).
  assert (Hs : same_outside [q] (mem s) m3).
  { eapply (same_outside_trans _ _ m1); [|eapply (same_outside_trans _ _ m2)].
    - apply same_outside_store32; unfold sp, KSTACKSIZE, TF_SIZE; mmu_consts; lia.
    - intros b Hb. unfold m2. rewrite memset_ok by (unfold CONTEXT_SIZE; lia).
      rewrite decide_False; [done|]. intros Hin. apply (Hb q); [by left|].
      revert Hin. unfold sp, KSTACKSIZE, TF_SIZE, CONTEXT_SIZE. mmu_consts. lia.
    - apply same_outside_store32; unfold sp, KSTACKSIZE, TF_SIZE, CONTEXT_SIZE, CONTEXT_eip;
        mmu_consts; lia. }
  exists (set_mem m3 (set_freelist (load32 (mem s) q) s)). split_and!; [reflexivity| |done..].
  apply (kmem_ok_same _ _ _ [q]); [done|done|by apply Forall_singleton|].
  by intros p Hp ->%list_elem_of_singleton.
Qed.

End procmem.
