(* ===== verification/ProcFork.v ===== *)
(** * proc.c: fork *)

From S2P Require Import Prelude Mmu CString Kalloc Vm VmSpec VmUser VmAlloc VmGrow.
From S2P Require Import VmKernel VmCopy Proc ProcMem.

#[local] Opaque tables uframes memmove memset store32 load32.

Section procfork.
  Context `{KernelImage} `{ProcImage} {F : Type} `{FileRefs F}.

(** ** The invariant of the kernel's process state *)

(** references to files and inodes held by the table *)
Definition pfiles (p : proc) : list Z := filter (λ f, f ≠ 0) (p_ofile p).
Definition pinodes (p : proc) : list Z := if decide (p_cwd p = 0) then [] else [p_cwd p].
Definition file_refs (l : list proc) : list Z := mjoin (pfiles <$> l).
Definition inode_refs (l : list proc) : list Z := mjoin (pinodes <$> l).

Record slot_ok (p : proc) : Prop := {
  sl_files : length (p_ofile p) = NOFILE;
  sl_name : length (p_name p) = 16%nat;
  sl_dead : p_state p = UNUSED ∨ p_state p = ZOMBIE →
    p_ofile p = replicate NOFILE 0 ∧ p_cwd p = 0;
  sl_tf : p_state p ≠ UNUSED → p_kstack p ≤ p_tf p ∧ p_tf p + TF_SIZE ≤ p_kstack p + PGSIZE }.

Record kern_ok (k : kern F) (fl held hfiles hinodes : list Z) : Prop := {
  ko_sys : sys_ok (k_phys k) (k_procs k) fl held;
  ko_fs : fs_inv (k_fs k) (file_refs (k_procs k) ++ hfiles) (inode_refs (k_procs k) ++ hinodes);
  ko_slots : Forall slot_ok (k_procs k) }.

(** ** References *)

Lemma refs_alter {B} (g : proc → list B) l i f p :
  l !! i = Some p →
  mjoin (g <$> alter f i l) ≡ₚ g (f p) ++ mjoin (g <$> delete i l) ∧
  mjoin (g <$> l) ≡ₚ g p ++ mjoin (g <$> delete i l).
Proof.
  intros Hl.
  assert (Hd : ∀ l' p', l' !! i = Some p' → mjoin (g <$> l') ≡ₚ g p' ++ mjoin (g <$> delete i l')).
  { intros l' p' Hl'. rewrite (delete_Permutation l' i p' Hl') at 1. done. }
  split; [|by apply Hd]. rewrite <- (delete_alter f i l). apply Hd.
  by rewrite list_lookup_alter_eq, Hl.
Qed.

Lemma dup_files_ok src f fr ir :
  fs_inv f fr ir → (∀ x, x ∈ src → x ≠ 0 → x ∈ fr) → Z.of_nat (length src + length fr) < 2 ^ 30 →
  ∃ f', dup_files src (replicate (length src) 0) f = Ret src f' ∧
    fs_inv f' (filter (λ x, x ≠ 0) src ++ fr) ir.
Proof.
  revert f fr. induction src as [|x src IH]; intros f fr Hinv Hin Hb; cbn [dup_files length replicate] in *.
  { exists f. split; [done|]. done. }
  destruct (Z.eqb_spec x 0) as [->|Hx].
  - erewrite bind_Ret by reflexivity.
    destruct (IH f fr Hinv) as (f' & Hrun & Hinv'); [set_solver|lia|].
    erewrite bind_Ret by exact Hrun. exists f'. split; [done|].
    by rewrite filter_cons_False by (intros ?; done).
  - destruct (filedup_ok f fr ir x Hinv) as (f1 & Hdup & Hinv1); [set_solver|lia|].
    erewrite bind_Ret by exact Hdup.
    destruct (IH f1 (x :: fr) Hinv1) as (f' & Hrun & Hinv'); [set_solver|cbn [length]; lia|].
    erewrite bind_Ret by exact Hrun. exists f'. split; [done|].
    rewrite filter_cons_True by done. eapply fs_inv_perm; [exact Hinv'| |done].
    by rewrite <- Permutation_middle.
Qed.

(** ** What fork produces *)

Record forked (k : kern F) (me : nat) (cur : proc) (k' : kern F) (i : nat) (child : proc) : Prop := {
  fk_table : ∃ p, k_procs k !! i = Some p ∧ p_state p = UNUSED ∧ k_procs k' = <[i := child]> (k_procs k);
  fk_state : p_state child = RUNNABLE;
  fk_pid : p_pid child = k_nextpid k;
  fk_parent : p_parent child = Some me;
  fk_sz : p_sz child = p_sz cur;
  fk_files : p_ofile child = p_ofile cur ∧ p_cwd child = p_cwd cur;
  fk_mem : ∀ va, is_u32 va → va / PGSIZE < (p_sz cur + PGSIZE - 1) / PGSIZE →
    uread (mem (k_phys k')) (p_pgdir child) va = uread (mem (k_phys k)) (p_pgdir cur) va;
  fk_parent_mem : ∀ va, is_u32 va → va < KERNBASE →
    uread (mem (k_phys k')) (p_pgdir cur) va = uread (mem (k_phys k)) (p_pgdir cur) va;
  fk_tf : ∀ o, 0 ≤ o < TF_SIZE → ¬ (TF_eax ≤ o < TF_eax + 4) →
    load8 (mem (k_phys k')) (p_tf child + o) = load8 (mem (k_phys k)) (p_tf cur + o);
  fk_eax : load32 (mem (k_phys k')) (p_tf child + TF_eax) = 0 }.

Definition born (pid q d sz : Z) (me : nat) (ofile : list Z) (cwd : Z) (nm : list Z) : proc → proc :=
  set_state RUNNABLE ∘ (λ n, set_name (safestrcpy_name (p_name n) nm) n) ∘ set_cwd cwd ∘
  set_ofile ofile ∘ (set_parent (Some me) ∘ set_sz sz ∘ set_pgdir d ∘ embryo pid q).

Definition child_tf (q : Z) : Z := q + KSTACKSIZE - TF_SIZE.

(** the trap frame of the child, in its kernel stack [q] *)
Definition child_mem (q tf : Z) (m : ram) : ram :=
  store32 (child_tf q + TF_eax) 0 (memmove (child_tf q) tf TF_SIZE m).

Lemma fork_run s (f : F) l n ip me cur i p q s1 d s2 f1 f2 :
  l !! me = Some cur → l !! i = Some p → i ≠ me →
  allocproc (Build_kern s f l n ip) =
    Ret (Some i) (Build_kern s1 f (alter (embryo n q) i l) (i32 (n + 1)) ip) →
  copyuvm (p_pgdir cur) (p_sz cur) s1 = Ret d s2 → d ≠ 0 →
  dup_files (p_ofile cur) (p_ofile p) f = Ret (p_ofile cur) f1 →
  idup (p_cwd cur) f1 = Ret (p_cwd cur) f2 →
  fork me (Build_kern s f l n ip) =
    Ret n (Build_kern (set_mem (child_mem q (p_tf cur) (mem s2)) s2) f2
      (alter (born n q d (p_sz cur) me (p_ofile cur) (p_cwd cur) (p_name cur)) i l)
      (i32 (n + 1)) ip).
Proof.
  intros Hme Hi Hne Ha Hc Hd Hf Hcw. unfold fork. erewrite bind_Ret by exact Ha. cbv beta iota.
  erewrite bind_Ret by (apply proc_at_Ret; rewrite list_lookup_alter_ne by done; exact Hme).
  kphys Hc. kstep. rewrite (proj2 (Z.eqb_neq d 0) Hd). do 2 kstep.
  rewrite !list_alter_alter_eq.
  erewrite bind_Ret by (apply proc_at_Ret; rewrite list_lookup_alter_eq, Hi; reflexivity).
  do 2 kstep. kfs Hf. kstep. kfs Hcw. do 3 kstep. rewrite !list_alter_alter_eq.
  apply (f_equal2 (λ s l, Ret n (Build_kern s f2 l (i32 (n + 1)) ip))).
  - reflexivity.
  - reflexivity.
Qed.

Lemma fork_fail_run s (f : F) l n ip me cur i p q s1 s2 :
  l !! me = Some cur → l !! i = Some p → i ≠ me → is_page q →
  allocproc (Build_kern s f l n ip) =
    Ret (Some i) (Build_kern s1 f (alter (embryo n q) i l) (i32 (n + 1)) ip) →
  copyuvm (p_pgdir cur) (p_sz cur) s1 = Ret 0 s2 →
  fork me (Build_kern s f l n ip) =
    Ret (-1) (Build_kern (kfreed q s2) f
      (alter (λ p, set_state UNUSED (set_kstack 0 (set_pgdir 0 (embryo n q p)))) i l)
      (i32 (n + 1)) ip).
Proof.
  intros Hme Hi Hne Hq Ha Hc. unfold fork. erewrite bind_Ret by exact Ha. cbv beta iota.
  erewrite bind_Ret by (apply proc_at_Ret; rewrite list_lookup_alter_ne by done; exact Hme).
  kphys Hc. kstep. cbn [Z.eqb]. rewrite !list_alter_alter_eq.
  erewrite bind_Ret by (apply proc_at_Ret; rewrite list_lookup_alter_eq, Hi; reflexivity).
  kphys (kfree_eval s2 q Hq). do 2 kstep. rewrite !list_alter_alter_eq. reflexivity.
Qed.

Lemma fork_panic_run s (f : F) l n ip me cur i q s1 msg :
  l !! me = Some cur → i ≠ me →
  allocproc (Build_kern s f l n ip) =
    Ret (Some i) (Build_kern s1 f (alter (embryo n q) i l) (i32 (n + 1)) ip) →
  copyuvm (p_pgdir cur) (p_sz cur) s1 = Panic msg → fork me (Build_kern s f l n ip) = Panic msg.
Proof.
  intros Hme Hne Ha Hc. unfold fork. erewrite bind_Ret by exact Ha. cbv beta iota.
  erewrite bind_Ret by (apply proc_at_Ret; rewrite list_lookup_alter_ne by done; exact Hme).
  apply bind_Panic. unfold in_phys, zoom. cbn [k_phys]. by rewrite Hc.
Qed.

(** ** Pages during a fork *)

(** pages of a process keep their bytes when only free or kernel-held pages are written *)
Lemma owned_bytes s l fl held ps m' i p q b :
  sys_ok s l fl held → l !! i = Some p → q ∈ powned (mem s) p →
  same_outside ps (mem s) m' → ps ⊆ fl ++ held → q ≤ b < q + PGSIZE →
  load8 m' b = load8 (mem s) b.
Proof.
  intros [S1 S2 S3] Hl Hq Hs Hsub Hb.
  assert (Hqa : q ∈ all_owned (mem s) l) by (apply elem_of_all_owned; eauto).
  apply Hs. intros x Hx Hin. apply Forall_app in S2 as [S2 S2']. rewrite Forall_forall in S2, S2'.
  apply Hsub, elem_of_app in Hx.
  apply (page_disjoint x q b); [|by apply S2| |done|done].
  - destruct Hx as [Hx|Hx]; [|by apply S2']. destruct S1 as [_ Hf _].
    rewrite Forall_forall in Hf. by apply Hf.
  - intros ->. apply NoDup_app in S3 as (_ & D1 & S3). apply NoDup_app in S3 as (_ & D2 & _).
    destruct Hx as [Hx|Hx]; [apply (D1 q Hx), elem_of_app; by left|by apply (D2 q Hqa)].
Qed.

Lemma child_mem_same q tf m :
  is_page q → same_outside [q] m (child_mem q tf m).
Proof.
  intros Hq. unfold child_mem, child_tf.
  eapply (same_outside_trans _ _ (memmove (q + KSTACKSIZE - TF_SIZE) tf TF_SIZE m)).
  - intros b Hb. rewrite memmove_ok by done. rewrite decide_False; [done|].
    intros Hin. apply (Hb q); [by left|]. revert Hin. unfold KSTACKSIZE, TF_SIZE. mmu_consts. lia.
  - apply same_outside_store32; unfold KSTACKSIZE, TF_SIZE, TF_eax; mmu_consts; lia.
Qed.

Lemma child_mem_tf q tf m o :
  0 ≤ o < TF_SIZE → ¬ (TF_eax ≤ o < TF_eax + 4) →
  load8 (child_mem q tf m) (child_tf q + o) = load8 m (tf + o).
Proof.
  intros Ho He. unfold child_mem. rewrite load8_store32, decide_False by lia.
  rewrite memmove_ok by done. rewrite decide_True by lia. f_equal. lia.
Qed.

(** *** the kernel stack of a new process is taken from the free list *)
Lemma sys_embryo s l q fl held s1 :
  sys_ok s l (q :: fl) held → kmem_ok s1 fl → same_outside [q] (mem s) (mem s1) →
  sys_ok s1 l fl (q :: held) ∧ all_owned (mem s1) l = all_owned (mem s) l.
Proof.
  intros Hok Hk Hs. eapply sys_frame; [exact Hok|exact Hs| |done|solve_Permutation].
  intros x ->%list_elem_of_singleton. by left.
Qed.

(** the address space of the parent while the child is built *)
Lemma focus_me s l fl held me cur :
  sys_ok s l fl held → l !! me = Some cur → p_state cur ≠ UNUSED →
  ∃ other, as_ok s fl (p_pgdir cur) other ∧
    owned (mem s) (p_pgdir cur) ++ other ≡ₚ all_owned (mem s) l ++ held.
Proof.
  intros Hok Hl Hu. eexists. split; [by apply (focus _ _ _ _ _ _ Hok Hl Hu)|].
  rewrite (all_owned_delete _ _ _ _ Hl). unfold powned. rewrite decide_False by done.
  solve_Permutation.
Qed.

(** *** when [copyuvm] fails, the stack page is freed too *)
Lemma sys_abort s l fl q held s2 fl2 :
  sys_ok s l fl (q :: held) → kmem_ok s2 fl2 → fl2 ≡ₚ fl → same_outside fl (mem s) (mem s2) →
  sys_ok (kfreed q s2) l (q :: fl2) held ∧
  all_owned (mem (kfreed q s2)) l = all_owned (mem s) l.
Proof.
  intros Hok Hk Hp Hs.
  destruct (sys_frame s l fl (q :: held) fl s2 fl2 (q :: held)) as [Hok2 E2];
    [done|done|set_solver|done|by rewrite Hp|].
  pose proof Hok2 as [S1 S2 S3]. apply Forall_app in S2 as [_ [Hq _]%Forall_cons].
  assert (Hn : q ∉ fl2).
  { apply NoDup_app in S3 as (_ & D & _). intros Hin. apply (D q Hin). set_solver. }
  destruct (sys_frame s2 l fl2 (q :: held) [q] (kfreed q s2) (q :: fl2) held) as [Hok3 E3].
  - done.
  - apply kfreed_same.
  - intros x ->%list_elem_of_singleton. apply elem_of_app. right. by left.
  - by apply kfreed_ok.
  - solve_Permutation.
  - split; [done|]. congruence.
Qed.

Lemma sys_child s1 l fl1 q held me cur other hi d s2 fl2 :
  sys_ok s1 l fl1 (q :: held) → l !! me = Some cur → p_state cur ≠ UNUSED →
  as_ok s1 fl1 (p_pgdir cur) other →
  copied s1 fl1 (p_pgdir cur) other hi d s2 fl2 → hi ≤ KERNBASE / PGSIZE →
  let m3 := child_mem q (p_tf cur) (mem s2) in
  let s3 := set_mem m3 s2 in
  sys_ok s3 l fl2 ((q :: owned m3 d) ++ held) ∧ all_owned m3 l = all_owned (mem s1) l ∧
  fl2 ++ owned m3 d ≡ₚ fl1 ∧ same_outside (q :: fl1) (mem s1) m3 ∧
  (∀ va, is_u32 va → va / PGSIZE < hi → uread m3 d va = uread (mem s1) (p_pgdir cur) va).
Proof.
  intros Hok Hl Hu Ha [C1 C2 C3 C4 C5 C6] Hhi m3 s3.
  destruct (sys_frame s1 l fl1 (q :: held) fl1 s2 fl2 (owned (mem s2) d ++ q :: held)) as [Hok2 E2].
  { done. } { done. } { set_solver. } { apply C1. } { rewrite app_assoc. by rewrite C5. }
  pose proof Hok2 as [S1 S2 S3].
  assert (Hq : is_page q).
  { apply Forall_app in S2 as [_ [_ [Hq _]%Forall_cons]%Forall_app]. done. }
  assert (Hqd : q ∉ owned (mem s2) d).
  { apply NoDup_app in S3 as (_ & _ & [_ [_ S3]]%NoDup_app). apply NoDup_app in S3 as (_ & D & _).
    intros Hin. apply (D q Hin). by left. }
  assert (Hqf : q ∉ fl2).
  { apply NoDup_app in S3 as (_ & D & _). intros Hin. apply (D q Hin). clear. set_solver. }
  pose proof (child_mem_same q (p_tf cur) (mem s2) Hq) as Hs3. fold m3 in Hs3.
  assert (Hpq : Forall is_page [q]) by (by apply Forall_singleton).
  assert (Hdisj : ∀ p, p ∈ [q] → p ∉ owned (mem s2) d) by (by intros p ->%list_elem_of_singleton).
  destruct (vm_views _ _ _ _ [q] m3 C1 Hs3 Hpq) as (Ht & _ & Hv).
  { intros p Hp. specialize (Hdisj p Hp). unfold owned in Hdisj. clear -Hdisj. set_solver. }
  destruct (uread_same _ _ _ _ [q] m3 C1 Hs3 Hpq Hdisj) as (_ & Hur).
  assert (Eo : owned m3 d = owned (mem s2) d).
  { unfold owned. rewrite Ht. by rewrite (uframes_ext (mem s2) m3). }
  destruct (sys_frame s2 l fl2 (owned (mem s2) d ++ q :: held) [q] s3 fl2 ((q :: owned m3 d) ++ held))
    as [Hok3 E3].
  { done. } { done. } { intros p ->%list_elem_of_singleton. clear. set_solver. }
  { apply (kmem_ok_same s2 m3 fl2 [q]); [done|done|done|].
    by intros p Hp ->%list_elem_of_singleton. }
  { rewrite Eo. solve_Permutation. }
  split_and!; [exact Hok3|cbn [mem set_mem s3] in E3; congruence|by rewrite Eo| |].
  - eapply (same_outside_trans _ _ (mem s2)); (eapply same_outside_mono; [|eassumption]);
      [set_solver|]. by intros p ->%list_elem_of_singleton; left.
  - intros va Hva Hlt. rewrite Hur; [by apply C3|done|]. revert Hlt Hhi. mmu_consts. zdm.
Qed.

(** *** references of the child *)
Lemma fork_refs (f : F) l fr ir me cur i p :
  fs_inv f (file_refs l ++ fr) (inode_refs l ++ ir) →
  l !! me = Some cur → l !! i = Some p → slot_ok cur → slot_ok p → p_state p = UNUSED →
  p_cwd cur ≠ 0 → Z.of_nat (NOFILE + length (file_refs l ++ fr) + length (inode_refs l ++ ir)) < 2 ^ 30 →
  ∃ f1 f2, dup_files (p_ofile cur) (p_ofile p) f = Ret (p_ofile cur) f1 ∧
    idup (p_cwd cur) f1 = Ret (p_cwd cur) f2 ∧
    ∀ g, p_ofile (g p) = p_ofile cur → p_cwd (g p) = p_cwd cur →
      fs_inv f2 (file_refs (alter g i l) ++ fr) (inode_refs (alter g i l) ++ ir).
Proof.
  intros Hinv Hme Hi [L1 _ _ _] [_ _ Lu _] Hu Hcw Hb. destruct (Lu (or_introl Hu)) as [Eof Ecw].
  destruct (dup_files_ok (p_ofile cur) f _ _ Hinv) as (f1 & Hd & Hinv1).
  { intros x Hx Hnz. apply elem_of_app. left. unfold file_refs. apply list_elem_of_join.
    exists (pfiles cur). split; [by apply list_elem_of_filter|].
    apply list_elem_of_fmap. exists cur. split; [done|]. by eapply list_elem_of_lookup_2. }
  { rewrite L1. lia. }
  destruct (idup_ok f1 _ _ (p_cwd cur) Hinv1) as (f2 & Hid & Hinv2).
  { apply elem_of_app. left. unfold inode_refs. apply list_elem_of_join.
    exists (pinodes cur). split; [unfold pinodes; rewrite decide_False by done; by left|].
    apply list_elem_of_fmap. exists cur. split; [done|]. by eapply list_elem_of_lookup_2. }
  { lia. }
  exists f1, f2. split_and!; [by rewrite Eof, <- L1|done|]. intros g E1 E2.
  destruct (refs_alter pfiles l i g p Hi) as [A1 A2].
  destruct (refs_alter pinodes l i g p Hi) as [B1 B2].
  assert (pfiles (g p) = pfiles cur) as P1 by (unfold pfiles; by rewrite E1).
  assert (pfiles p = []) as P2 by (unfold pfiles; by rewrite Eof).
  assert (pinodes (g p) = [p_cwd cur]) as P3 by (unfold pinodes; by rewrite E2, decide_False).
  assert (pinodes p = []) as P4 by (unfold pinodes; by rewrite decide_True).
  unfold file_refs, inode_refs in *. eapply fs_inv_perm; [exact Hinv2|..].
  - rewrite A1, A2, P1, P2. unfold pfiles. solve_Permutation.
  - rewrite B1, B2, P3, P4. solve_Permutation.
Qed.

(** a table of [NPROC] slots holds few references *)
Lemma refs_few l : Forall (λ p, length (p_ofile p) = NOFILE) l →
  (length (file_refs l) ≤ NOFILE * length l)%nat ∧ (length (inode_refs l) ≤ length l)%nat.
Proof.
  unfold file_refs, inode_refs. induction 1 as [|p l L1 _ [IH1 IH2]]; [done|].
  rewrite !fmap_cons. cbn [mjoin list_join length]. rewrite !length_app. split.
  - etrans; [apply Nat.add_le_mono; [apply length_filter|exact IH1]|]. lia.
  - assert (length (pinodes p) ≤ 1)%nat by (unfold pinodes; case_decide; cbn; lia). etrans; [apply Nat.add_le_mono; [done|exact IH2]|]. lia.
Qed.

(** *** the new slot *)
Lemma copy_name_length n src : (length (copy_name n src) ≤ n)%nat.
Proof.
  revert src. induction n as [|n IH]; intros [|c src]; cbn; try lia.
  destruct (c =? 0); cbn; [lia|]. specialize (IH src). lia.
Qed.

Lemma safestrcpy_name_length dst src :
  (0 < length dst)%nat → length (safestrcpy_name dst src) = length dst.
Proof.
  intros Hd. unfold safestrcpy_name. pose proof (copy_name_length (length dst - 1) src) as Hc.
  cbn zeta. rewrite length_app, length_drop, length_app. cbn [length]. lia.
Qed.

Lemma born_slot_ok pid q d sz me ofile cwd nm p :
  slot_ok p → length ofile = NOFILE → slot_ok (born pid q d sz me ofile cwd nm p).
Proof.
  intros [L1 L2 L3 L4] Ho. split.
  - done.
  - change (length (safestrcpy_name (p_name p) nm) = 16%nat).
    rewrite safestrcpy_name_length; rewrite L2; [done|lia].
  - by intros [Hs|Hs].
  - intros _. change (q ≤ child_tf q ∧ child_tf q + TF_SIZE ≤ q + PGSIZE).
    unfold child_tf, KSTACKSIZE, TF_SIZE. mmu_consts. lia.
Qed.

(** a slot that stays unused, whatever pid and pointers it was left with *)
Lemma unused_slot_ok p p' :
  slot_ok p → p_state p = UNUSED → p_state p' = UNUSED → p_ofile p' = p_ofile p →
  p_cwd p' = p_cwd p → p_name p' = p_name p → slot_ok p'.
Proof.
  intros [L1 L2 L3 L4] Hu Hu' E1 E2 E3. split.
  - by rewrite E1.
  - by rewrite E3.
  - intros _. rewrite E1, E2. apply L3. by left.
  - done.
Qed.

Lemma fork_none s (f : F) l fl held hf hi n ip i p g s' fl' :
  kern_ok (Build_kern s f l n ip) fl held hf hi → l !! i = Some p → p_state p = UNUSED →
  p_state (g p) = UNUSED → p_ofile (g p) = p_ofile p → p_cwd (g p) = p_cwd p →
  p_name (g p) = p_name p →
  sys_ok s' l fl' held → all_owned (mem s') l = all_owned (mem s) l → fl' ≡ₚ fl →
  let k' := Build_kern s' f (alter g i l) (i32 (n + 1)) ip in
  kern_ok k' fl' held hf hi ∧
  fl' ++ all_owned (mem s') (alter g i l) ≡ₚ fl ++ all_owned (mem s) l ∧
  ∀ j q, l !! j = Some q → p_state q ≠ UNUSED → alter g i l !! j = Some q.
Proof.
  intros [K1 K2 K3] Hi Hu Hg E1 E2 E3 Hs Ea Hp k'. cbn in K2, K3.
  destruct (sys_slot s' l fl' held i p g Hs Hi) as [Hs' Ep].
  { unfold powned. by rewrite !decide_True. }
  destruct (refs_alter pfiles l i g p Hi) as [A1 A2].
  destruct (refs_alter pinodes l i g p Hi) as [B1 B2].
  assert (pfiles (g p) = pfiles p) as P1 by (unfold pfiles; by rewrite E1).
  assert (pinodes (g p) = pinodes p) as P2 by (unfold pinodes; by rewrite E2).
  rewrite P1, <- A2 in A1. rewrite P2, <- B2 in B1.
  split_and!.
  - split; cbn [k' k_phys k_fs k_procs]; [done| |].
    + eapply fs_inv_perm; [exact K2|..]; unfold file_refs, inode_refs; by rewrite ?A1, ?B1.
    + apply Forall_alter; [done|]. intros x Hx Hok. rewrite Hi in Hx. injection Hx as <-.
      by apply (unused_slot_ok p).
  - rewrite Ep, Ea. by rewrite Hp.
  - intros j q Hj Hq. destruct (decide (i = j)) as [<-|Hne]; [congruence|].
    by rewrite list_lookup_alter_ne.
Qed.

(** the result of a successful [copyuvm] and the references taken, put together *)
Lemma fork_success s (f : F) l fl held hf hi n ip me cur i p q s1 fl1 other d s2 fl2 (f2 : F) :
  let cnt := (p_sz cur + PGSIZE - 1) / PGSIZE in
  kern_ok (Build_kern s f l n ip) (q :: fl1) held hf hi → fl = q :: fl1 →
  l !! me = Some cur → p_state cur ≠ UNUSED → l !! i = Some p → p_state p = UNUSED →
  sys_ok s1 l fl1 (q :: held) → all_owned (mem s1) l = all_owned (mem s) l →
  same_outside [q] (mem s) (mem s1) →
  as_ok s1 fl1 (p_pgdir cur) other → copied s1 fl1 (p_pgdir cur) other cnt d s2 fl2 →
  cnt ≤ KERNBASE / PGSIZE →
  (∀ g, p_ofile (g p) = p_ofile cur → p_cwd (g p) = p_cwd cur →
      fs_inv f2 (file_refs (alter g i l) ++ hf) (inode_refs (alter g i l) ++ hi)) →
  let g := born n q d (p_sz cur) me (p_ofile cur) (p_cwd cur) (p_name cur) in
  let k' := Build_kern (set_mem (child_mem q (p_tf cur) (mem s2)) s2) f2 (alter g i l)
              (i32 (n + 1)) ip in
  kern_ok k' fl2 held hf hi ∧
  fl2 ++ all_owned (mem (k_phys k')) (k_procs k') ≡ₚ fl ++ all_owned (mem s) l ∧
  forked (Build_kern s f l n ip) me cur k' i (g p).
Proof.
  intros cnt [K1 K2 K3] -> Hme Hlive Hi Hu Hs1 Ea Hsm Ha Hc Hcnt Hrefs g k'.
  cbn [k_phys k_fs k_procs] in K1, K2, K3.
  destruct (sys_child _ _ _ _ _ _ _ _ _ _ _ _ Hs1 Hme Hlive Ha Hc Hcnt)
    as (Hs3 & E3 & Hp3 & Hsame & Hread).
  set (m3 := child_mem q (p_tf cur) (mem s2)) in *. set (s3 := set_mem m3 s2) in *.
  assert (Epo : powned m3 (g p) = q :: owned m3 d)
    by (unfold powned; by rewrite decide_False by discriminate).
  destruct (sys_adopt s3 l fl2 held i p g) as [Hs4 E4].
  { change (mem s3) with m3. by rewrite Epo. } { done. } { done. }
  change (mem s3) with m3 in E4. rewrite Epo in E4.
  assert (Hslots : slot_ok cur ∧ slot_ok p)
    by (rewrite Forall_lookup in K3; split; by eapply K3).
  assert (Hbytes : ∀ b x, x ∈ powned (mem s) cur → x ≤ b < x + PGSIZE →
    load8 (mem s2) b = load8 (mem s) b).
  { intros b x Hx Hb. eapply (owned_bytes s l (q :: fl1) held (q :: fl1) _ me cur x);
      [exact K1|done|done| |set_solver|done].
    eapply (same_outside_trans _ _ (mem s1)); (eapply same_outside_mono; [|by apply Hsm || apply Hc]);
      set_solver. }
  assert (Hpar : ∀ m', same_outside (q :: fl1) (mem s) m' → ∀ va, is_u32 va → va < KERNBASE →
    uread m' (p_pgdir cur) va = uread (mem s) (p_pgdir cur) va).
  { intros m' Hm'. destruct (focus_me _ _ _ _ _ _ K1 Hme Hlive) as (o & Ho & _).
    by apply (parent_view s (q :: fl1) (p_pgdir cur) o). }
  split; [|split].
  - split; cbn [k' k_phys k_fs k_procs]; [done|by apply Hrefs|].
    apply Forall_alter; [done|]. intros x Hx _. rewrite Hi in Hx. injection Hx as <-.
    apply born_slot_ok; [apply Hslots|apply Hslots].
  - cbn [k' k_phys k_procs]. change (mem s3) with m3. rewrite E4, E3, Ea, <- Hp3. solve_Permutation.
  - assert (Hsm3 : same_outside (q :: fl1) (mem s) m3)
      by (eapply same_outside_trans; [|exact Hsame]; eapply same_outside_mono; [|exact Hsm]; set_solver).
    split; cbn [k' k_phys k_procs k_nextpid].
    + exists p. split_and!; [done..|]. apply list_eq. intros j.
      destruct (decide (i = j)) as [<-|Hne].
      * rewrite list_lookup_alter_eq, Hi, list_lookup_insert_eq; [done|]. by eapply lookup_lt_Some.
      * by rewrite list_lookup_alter_ne, list_lookup_insert_ne.
    + done.
    + done.
    + done.
    + done.
    + done.
    + intros va Hva Hlt. change (p_pgdir (g p)) with d. rewrite Hread by done.
      apply Hpar; [|done|revert Hlt Hcnt; fold cnt; mmu_consts; zdm].
      eapply same_outside_mono; [|exact Hsm]. set_solver.
    + by apply Hpar.
    + intros o Ho He. change (p_tf (g p)) with (child_tf q). change (mem s3) with m3. unfold m3.
      rewrite child_mem_tf by done. destruct Hslots as [[_ _ _ L4] _]. destruct (L4 Hlive) as [T1 T2].
      apply (Hbytes _ (p_kstack cur)); [|lia]. unfold powned. rewrite decide_False by done. by left.
    + change (p_tf (g p)) with (child_tf q). change (mem s3) with m3. unfold m3, child_mem. by rewrite load32_store32.
Qed.

(** C5: [fork] in a process whose pages below [sz] are all mapped creates in an
    unused slot a runnable child of [me] with the next pid, the same open files and
    directory, a memory that reads the same below [sz], and the parent's trap
    frame except that [eax] is 0.  Only when no slot is unused, or when there are
    no more free pages than the pages to copy plus 1027 (kernel stack, directory,
    tables), it returns -1 instead, with every live process as it was.  The
    parent's memory is unchanged, file and inode references are counted, and no
    page is lost or shared.  In a process with a page below [sz] that was never
    touched there is no child: [fork] fails for these reasons or stops the kernel with
    a panic. *)
Theorem fork_spec k fl held hf hi me cur :
  kern_ok k fl held hf hi → k_procs k !! me = Some cur → p_state cur = RUNNING →
  p_cwd cur ≠ 0 → 0 ≤ p_sz cur ≤ KERNBASE →
  (length (k_procs k) ≤ NPROC)%nat → Z.of_nat (length hf + length hi) < 2 ^ 20 →
  (∃ r k' fl', fork me k = Ret r k' ∧ kern_ok k' fl' held hf hi ∧
    fl' ++ all_owned (mem (k_phys k')) (k_procs k') ≡ₚ
      fl ++ all_owned (mem (k_phys k)) (k_procs k) ∧
    ((touched (mem (k_phys k)) (p_pgdir cur) (p_sz cur) ∧
      ∃ i child, r = k_nextpid k ∧ forked k me cur k' i child) ∨
     (r = -1 ∧ fl' ≡ₚ fl ∧
      (find_slot is_unused (k_procs k) = None ∨
       Z.of_nat (length fl) ≤ 1027 + (p_sz cur + PGSIZE - 1) / PGSIZE) ∧
      ∀ j p, k_procs k !! j = Some p → p_state p ≠ UNUSED → k_procs k' !! j = Some p))) ∨
  (¬ touched (mem (k_phys k)) (p_pgdir cur) (p_sz cur) ∧ ∃ msg, fork me k = Panic msg).
Proof.
  destruct k as [s f l n ip]. cbn [k_phys k_procs k_nextpid].
  intros Hok Hme Hrun Hcw Hsz Hlen Hfew. pose proof Hok as [K1 K2 K3]. cbn [k_phys k_fs k_procs] in *.
  assert (Hlive : p_state cur ≠ UNUSED) by congruence.
  destruct (find_slot is_unused l) as [i|] eqn:Hf.
  2: { left. exists (-1), (Build_kern s f l n ip), fl. split_and!; [|done|done|right; split_and!; [done|done|by left|done]].
       unfold fork. by erewrite bind_Ret by (by apply allocproc_full). }
  destruct (find_slot_Some _ _ _ Hf) as (p & Hi & Hu & _). apply bool_decide_eq_true in Hu.
  assert (Hne : i ≠ me) by congruence.
  assert (Hcnt : 0 ≤ (p_sz cur + PGSIZE - 1) / PGSIZE ≤ KERNBASE / PGSIZE) by (revert Hsz; mmu_consts; zdm).
  destruct fl as [|q fl1].
  { destruct (fork_none s f l [] held hf hi n ip i p (stillborn n) s []) as (H1' & H2' & H3'); try done.
    left. exists (-1), (Build_kern s f (alter (stillborn n) i l) (i32 (n + 1)) ip), [].
    split_and!; [|done|done|right; split_and!; [done|done|right; cbn; lia|done]]. unfold fork.
    by erewrite bind_Ret by (apply allocproc_nomem; [done|apply K1]). }
  destruct (allocproc_ok s f l n ip i q fl1 Hf (so_kmem _ _ _ _ K1)) as (s1 & Hal & Hk1 & Hq & Hqn & Hsm).
  destruct (sys_embryo _ _ _ _ _ _ K1 Hk1 Hsm) as [Hs1 Ea].
  destruct (focus_me _ _ _ _ _ _ Hs1 Hme Hlive) as (other & Ha & _).
  set (cnt := (p_sz cur + PGSIZE - 1) / PGSIZE) in *.
  assert (Hto : touched (mem s1) (p_pgdir cur) (p_sz cur) ↔ touched (mem s) (p_pgdir cur) (p_sz cur)).
  { destruct (focus_me _ _ _ _ _ _ K1 Hme Hlive) as (o & Ho & _).
    destruct (parent_view s (q :: fl1) (p_pgdir cur) o (mem s1) Ho) as (_ & Hpv & _); [eapply same_outside_mono; [|exact Hsm]; set_solver|].
    split; intros Ht va Hva Hlt; [rewrite <- Hpv by done|rewrite Hpv by done]; by apply Ht. }
  destruct (copyuvm_cases s1 fl1 (p_pgdir cur) other (p_sz cur) Ha Hsz) as [Ho|[(Ht & d & s2 & fl2 & Hrun2 & Hd0 & Hc)|[Hn (msg & Hp)]]].
  3: { right. split; [by rewrite <- Hto|]. exists msg. by eapply fork_panic_run. }
  - destruct Ho as (s2 & fl2 & Hrun2 & Hg & Hl). fold cnt in Hl. left. destruct Hg as (G1 & G2 & G3).
    destruct (sys_abort _ _ _ _ _ _ _ Hs1 G1 G2 G3) as [Hs3 E3].
    set (g := λ p, set_state UNUSED (set_kstack 0 (set_pgdir 0 (embryo n q p)))).
    destruct (fork_none s f l (q :: fl1) held hf hi n ip i p g (kfreed q s2) (q :: fl2))
      as (H1' & H2' & H3'); try done; [congruence|by rewrite G2|].
    eexists (-1), _, (q :: fl2). split; [by eapply fork_fail_run|].
    split_and!; [done|done|]. right. split_and!; [done|by rewrite G2|right; cbn [length]; lia|done].
  - fold cnt in Hc. left. destruct (fork_refs f l hf hi me cur i p K2 Hme Hi) as (f1 & f2 & Hd & Hid & Hrefs);
      [rewrite Forall_lookup in K3; by eapply K3|rewrite Forall_lookup in K3; by eapply K3|done|done| |].
    { destruct (refs_few l (Forall_impl _ _ _ K3 sl_files)). rewrite !length_app. unfold NOFILE, NPROC in *. lia. }
    destruct (fork_success s f l (q :: fl1) held hf hi n ip me cur i p q s1 fl1 other d s2 fl2 f2)
      as (H1' & H2' & H3'); try done; [lia|].
    eexists n, _, fl2. split; [by eapply fork_run|]. split_and!; [done|done|]. left. split; [by apply Hto|]. eexists i, _. by split.
Qed.

End procfork.
