(* ===== verification/ProcWait.v ===== *)
(** * proc.c: wait, growproc and lazily mapped memory *)

From S2P Require Import Prelude Mmu CString Kalloc Vm VmSpec VmUser VmAlloc VmGrow.
From S2P Require Import VmKernel VmCopy Proc ProcMem ProcFork.

#[local] Opaque tables uframes memmove memset store32 load32.

Section procwait.
  Context `{KernelImage} `{ProcImage} {F : Type} `{FileRefs F}.

Definition is_zombie_of (me : nat) (p : proc) : bool :=
  bool_decide (p_parent p = Some me ∧ p_state p = ZOMBIE).
Definition is_child_of (me : nat) (p : proc) : bool := bool_decide (p_parent p = Some me).

(** the slot of a reaped child *)
Definition reaped : proc → proc :=
  set_state UNUSED ∘ set_killed false ∘ (λ p, set_name (<[0%nat := 0]> (p_name p)) p) ∘
  set_parent None ∘ set_pid 0 ∘ set_kstack 0.

Lemma wait_run s (f : F) l n ip me cur i p s1 s2 :
  l !! me = Some cur → find_slot (is_zombie_of me) l = Some i → l !! i = Some p →
  kfree (p_kstack p) s = Ret () s1 → freevm (p_pgdir p) s1 = Ret () s2 →
  wait me (Build_kern s f l n ip) = Ret (p_pid p) (Build_kern s2 f (alter reaped i l) n ip).
Proof.
  intros Hme Hf Hi Hk Hfv. unfold wait. kstep.
  erewrite bind_Ret by (by apply proc_at_Ret). unfold is_zombie_of in Hf. rewrite Hf.
  erewrite bind_Ret by (apply proc_at_Ret; exact Hi).
  kphys Hk. kstep. kphys Hfv. do 5 kstep. rewrite !list_alter_alter_eq. reflexivity.
Qed.

(** the memory of a zombie goes back to the free list *)
Lemma reap_mem s l fl held i p :
  sys_ok s l fl held → l !! i = Some p → p_state p ≠ UNUSED →
  ∃ s2 fl2, kfree (p_kstack p) s = Ret () (kfreed (p_kstack p) s) ∧
    freevm (p_pgdir p) (kfreed (p_kstack p) s) = Ret () s2 ∧
    sys_ok s2 (alter reaped i l) fl2 held ∧ fl2 ≡ₚ powned (mem s) p ++ fl ∧
    all_owned (mem s2) (alter reaped i l) ≡ₚ all_owned (mem s) (delete i l) ∧
    same_outside (fl ++ powned (mem s) p) (mem s) (mem s2).
Proof.
  intros Hok Hi Hu. pose proof (focus _ _ _ _ _ _ Hok Hi Hu) as Ha.
  set (rest := all_owned (mem s) (delete i l) ++ held) in *.
  assert (Ha' : vm_ok s fl (p_pgdir p) (p_kstack p :: uframes (mem s) (p_pgdir p) ++ rest))
    by (eapply vm_ok_perm; [|exact Ha]; solve_Permutation).
  destruct (vm_free _ _ _ _ _ Ha') as (Hkf & Hpk & Hok1 & Hs1 & Ht & _ & Hv).
  assert (Huf : uframes (mem (kfreed (p_kstack p) s)) (p_pgdir p) = uframes (mem s) (p_pgdir p))
    by (by apply uframes_ext).
  assert (Eo : owned (mem (kfreed (p_kstack p) s)) (p_pgdir p) = owned (mem s) (p_pgdir p))
    by (unfold owned; by rewrite Ht, Huf).
  destruct (freevm_ok (kfreed (p_kstack p) s) (p_kstack p :: fl) (p_pgdir p) rest)
    as (s2 & fl2 & Hfv & Hk2 & Hp2 & Hs2).
  { unfold as_ok. by rewrite Huf. }
  rewrite Eo in Hp2, Hs2.
  assert (Epo : powned (mem s) p = p_kstack p :: owned (mem s) (p_pgdir p))
    by (unfold powned; by rewrite decide_False).
  assert (Hs : same_outside (fl ++ powned (mem s) p) (mem s) (mem s2)).
  { rewrite Epo. eapply same_outside_trans; (eapply same_outside_mono; [|exact Hs1 || exact Hs2]).
    - intros x ->%list_elem_of_singleton. clear. set_solver.
    - clear. set_solver. }
  assert (Er : powned (mem s2) (reaped p) = []) by (unfold powned; by rewrite decide_True).
  destruct (unfocus s l fl held i p reaped s2 fl2 (fl ++ powned (mem s) p)) as [U1 U2];
    [done|done|done|by intros x Hx%elem_of_app|done| |].
  { rewrite Er, Epo, Hp2. solve_Permutation. }
  rewrite Er in U2. exists s2, fl2. split_and!; [done|done|done| |done|done].
  rewrite Hp2, Epo. solve_Permutation.
Qed.

Lemma reaped_slot_ok p : slot_ok p → p_state p = ZOMBIE → slot_ok (reaped p).
Proof.
  intros [L1 L2 L3 L4] Hz. split.
  - done.
  - change (length (<[0%nat := 0]> (p_name p)) = 16%nat). by rewrite length_insert.
  - intros _. change (p_ofile p = replicate NOFILE 0 ∧ p_cwd p = 0). apply L3. by right.
  - done.
Qed.

(** C25: [wait] has three outcomes.  With a zombie child it returns the pid of the
    first one in the table, whose slot becomes unused and whose kernel stack,
    page tables and frames are all back on the free list, every other process
    being untouched; without children, or when killed, it returns -1 and changes
    nothing; otherwise it goes to sleep on its own address. *)
Theorem wait_spec k fl held hf hi me cur :
  kern_ok k fl held hf hi → k_procs k !! me = Some cur →
  (∃ i p k' fl', find_slot (is_zombie_of me) (k_procs k) = Some i ∧ k_procs k !! i = Some p ∧
     wait me k = Ret (p_pid p) k' ∧ kern_ok k' fl' held hf hi ∧
     k_procs k' = alter reaped i (k_procs k) ∧
     fl' ≡ₚ powned (mem (k_phys k)) p ++ fl ∧
     fl' ++ all_owned (mem (k_phys k')) (k_procs k') ≡ₚ
       fl ++ all_owned (mem (k_phys k)) (k_procs k)) ∨
  (find_slot (is_zombie_of me) (k_procs k) = None ∧
   if bool_decide (find_slot (is_child_of me) (k_procs k) = None) || p_killed cur
   then wait me k = Ret (-1) k
   else wait me k = Asleep (procp me)
          (with_procs (alter (λ p, set_state SLEEPING (set_chan (procp me) p)) me) k)).
Proof.
  destruct k as [s f l n ip]. cbn [k_phys k_procs]. intros Hok Hme.
  destruct (find_slot (is_zombie_of me) l) as [i|] eqn:Hf; [left|right; split; [done|]].
  - destruct (find_slot_Some _ _ _ Hf) as (p & Hi & Hz & _).
    apply bool_decide_eq_true in Hz as [Hpar Hz]. pose proof Hok as [K1 K2 K3].
    cbn [k_phys k_fs k_procs] in K1, K2, K3.
    destruct (reap_mem s l fl held i p K1 Hi) as (s2 & fl2 & R1 & R2 & R3 & R4 & R5 & _); [congruence|].
    exists i, p, (Build_kern s2 f (alter reaped i l) n ip), fl2.
    split_and!; [done|done|by eapply wait_run| |done|done|].
    + destruct (refs_alter pfiles l i reaped p Hi) as [A1 A2].
      destruct (refs_alter pinodes l i reaped p Hi) as [B1 B2].
      assert (Hslot : slot_ok p) by (rewrite Forall_lookup in K3; by eapply K3).
      split; cbn [k_phys k_fs k_procs]; [done| |].
      * eapply fs_inv_perm; [exact K2|..]; unfold file_refs, inode_refs; by rewrite ?A1, ?A2, ?B1, ?B2.
      * apply Forall_alter; [done|]. intros x Hx _. rewrite Hi in Hx. injection Hx as <-.
        by apply reaped_slot_ok.
    + cbn [k_phys k_procs]. rewrite R4, R5, (all_owned_delete _ _ _ _ Hi). solve_Permutation.
  - unfold wait. kstep. erewrite bind_Ret by (by apply proc_at_Ret).
    unfold is_zombie_of, is_child_of in *. rewrite Hf. by destruct (_ || _).
Qed.

End procwait.
