(* ===== verification/ProcLazy.v ===== *)
(** * proc.c: growproc, mmap, numvp, numpp and faults on lazily mapped pages *)

From S2P Require Import Prelude Mmu CString Kalloc Vm VmSpec VmUser VmAlloc VmGrow.
From S2P Require Import VmKernel VmCopy Proc Trap ProcMem ProcFork.

#[local] Opaque tables uframes memmove memset store32 load32.

Section proclazy.
  Context `{KernelImage} `{ProcImage} {F : Type} `{FileRefs F}.

(** ** Counting pages *)

(** how many of the pages [lo .. lo+n-1] are present *)
Definition present (m : ram) (pgdir lo n : Z) : Z :=
  Z.of_nat (length (filter (λ k, pbit (pte m pgdir (k * PGSIZE)) = true) (seqZ lo n))).

Lemma walkpgdir_present_ok s fl pgdir rest va :
  vm_ok s fl pgdir rest → is_u32 va →
  ∃ a, walkpgdir_present pgdir va s = Ret a s ∧ (a =? 0) = negb (pbit (pte (mem s) pgdir va)).
Proof.
  intros Hok Hva. unfold walkpgdir_present. erewrite bind_Ret by reflexivity. cbn beta.
  destruct (pte_addr (mem s) pgdir va) as [a|] eqn:Ea.
  - destruct (pte_addr_page _ _ _ _ Hok _ _ Hva Ea) as (t & Ht & _ & _ & -> & _ & _ & Hnz).
    assert (Ep : pte (mem s) pgdir va = load32 (mem s) (t + 4 * PTX va)) by (unfold pte; by rewrite Ea).
    revert Ht. unfold table_at, pde, tab. destruct (pbit (load32 (mem s) (pgdir + 4 * PDX va)));
      [|done]. intros [= <-]. erewrite bind_Ret by reflexivity. cbn beta.
    rewrite Ep. destruct (pbit _); eexists; (split; [reflexivity|]); [|done].
    by apply Z.eqb_neq.
  - revert Ea. unfold pte. destruct (pte_addr (mem s) pgdir va) eqn:Ea; [done|]. intros _.
    revert Ea. unfold pte_addr, table_at, pde. destruct (pbit _); [done|]. intros _.
    by exists 0.
Qed.

Lemma present_cons m pgdir lo n :
  0 < n → present m pgdir lo n =
    (if pbit (pte m pgdir (lo * PGSIZE)) then 1 else 0) + present m pgdir (lo + 1) (n - 1).
Proof.
  intros Hn. unfold present. rewrite (seqZ_cons lo n) by done. cbn [filter].
  rewrite filter_cons. unfold Z.succ, Z.pred. replace (n + -1) with (n - 1) by lia.
  destruct (pbit _); case_decide; try done; cbn [length]; lia.
Qed.

Lemma present_range m pgdir lo n : 0 ≤ n → 0 ≤ present m pgdir lo n ≤ n.
Proof.
  intros Hn. unfold present. split; [lia|].
  etrans; [apply inj_le, length_filter|]. rewrite length_seqZ. lia.
Qed.

Lemma numpp_loop_ok s fl pgdir rest sz fuel k acc :
  let hi := (sz + PGSIZE - 1) / PGSIZE in
  vm_ok s fl pgdir rest → 0 ≤ sz ≤ 2 ^ 32 - PGSIZE → 0 ≤ k ≤ hi → hi - k < Z.of_nat fuel →
  0 ≤ acc ≤ k →
  numpp_loop fuel pgdir (k * PGSIZE) sz acc s = Ret (acc + present (mem s) pgdir k (hi - k)) s.
Proof.
  intros hi Hok Hsz. revert k acc. induction fuel as [|fuel IH]; intros k acc Hk Hf Ha; [lia|].
  cbn [numpp_loop]. destruct (Z.ltb_spec (k * PGSIZE) sz) as [E|E].
  - assert (Hkh : k < hi) by (unfold hi; revert E; mmu_consts; zdm).
    assert (Hh : hi ≤ 2 ^ 20) by (unfold hi; revert Hsz; mmu_consts; zdm).
    destruct (page_base_u32 k) as [Hku _]; [lia|].
    destruct (walkpgdir_present_ok _ _ _ _ _ Hok Hku) as (a & Hw & Ea).
    erewrite bind_Ret by exact Hw. rewrite Ea.
    rewrite u32_id by (revert E Hsz; mmu_consts; lia).
    replace (k * PGSIZE + PGSIZE) with ((k + 1) * PGSIZE) by lia.
    rewrite present_cons by lia. destruct (pbit _); cbn [negb].
    + rewrite i32_id by lia. rewrite IH by lia. f_equal. replace (hi - k - 1) with (hi - (k + 1)) by lia. lia.
    + rewrite IH by lia. f_equal. replace (hi - k - 1) with (hi - (k + 1)) by lia. lia.
  - assert (k = hi) by (unfold hi in *; revert E Hk; mmu_consts; zdm).
    replace (hi - k) with 0 by lia. by rewrite Z.add_0_r.
Qed.

Definition npages_of (sz : Z) : Z := (sz + PGSIZE - 1) / PGSIZE.

Lemma numpp_ok s (fs : F) l fl held n ip me cur :
  sys_ok s l fl held → l !! me = Some cur → p_state cur ≠ UNUSED →
  0 ≤ p_sz cur ≤ 2 ^ 32 - PGSIZE →
  numpp me (Build_kern s fs l n ip) =
    Ret (present (mem s) (p_pgdir cur) 0 (npages_of (p_sz cur))) (Build_kern s fs l n ip).
Proof.
  intros Hs Hme Hu Hsz. pose proof (focus _ _ _ _ _ _ Hs Hme Hu) as Ha.
  set (cnt := npages_of (p_sz cur)).
  assert (Hc : 0 ≤ cnt < 2 ^ 20) by (unfold cnt, npages_of; revert Hsz; mmu_consts; zdm).
  unfold numpp. erewrite bind_Ret by (by apply proc_at_Ret).
  erewrite in_phys_Ret; [reflexivity|].
  pose proof (numpp_loop_ok s fl (p_pgdir cur) _ (p_sz cur) (S (Z.to_nat cnt)) 0 0 Ha) as Hn.
  cbn zeta in Hn. fold (npages_of (p_sz cur)) in Hn. fold cnt in Hn.
  rewrite Z.mul_0_l, Z.sub_0_r in Hn. apply Hn; lia.
Qed.

Lemma numvp_ok s (fs : F) l n ip me cur :
  l !! me = Some cur → 0 ≤ p_sz cur < 2 ^ 32 →
  numvp me (Build_kern s fs l n ip) = Ret (npages_of (p_sz cur)) (Build_kern s fs l n ip).
Proof.
  intros Hme Hsz. unfold numvp. erewrite bind_Ret by (by apply proc_at_Ret).
  assert (Hc : 0 ≤ npages_of (p_sz cur) ≤ 2 ^ 20) by (unfold npages_of; revert Hsz; mmu_consts; zdm).
  destruct (Z.eqb_spec (p_sz cur mod PGSIZE) 0) as [E|E].
  - replace (p_sz cur / PGSIZE) with (npages_of (p_sz cur)) by (unfold npages_of; revert E; mmu_consts; zdm).
    by rewrite i32_id by lia.
  - replace (p_sz cur / PGSIZE + 1) with (npages_of (p_sz cur))
      by (unfold npages_of; revert E; mmu_consts; zdm).
    by rewrite i32_id by lia.
Qed.

Lemma present_app m pgdir lo a b :
  0 ≤ a → 0 ≤ b → present m pgdir lo (a + b) = present m pgdir lo a + present m pgdir (lo + a) b.
Proof.
  intros Ha Hb. unfold present. rewrite seqZ_app by done. rewrite filter_app, length_app. lia.
Qed.

Lemma filter_ext_in {A} (P Q : A → Prop) `{∀ x, Decision (P x)} `{∀ x, Decision (Q x)} (l : list A) :
  (∀ x, x ∈ l → P x ↔ Q x) → filter P l = filter Q l.
Proof.
  induction l as [|x l IH]; intros Hpq; [done|]. rewrite !filter_cons, IH by set_solver.
  specialize (Hpq x ltac:(by left)). repeat case_decide; naive_solver.
Qed.

Lemma present_ext m m' pgdir lo n :
  (∀ k, lo ≤ k < lo + n → pbit (pte m' pgdir (k * PGSIZE)) = pbit (pte m pgdir (k * PGSIZE))) →
  present m' pgdir lo n = present m pgdir lo n.
Proof.
  intros Hext. unfold present. f_equal. f_equal. apply filter_ext_in.
  intros k Hk%elem_of_seqZ. by rewrite Hext by lia.
Qed.

Lemma present_absent m pgdir lo n :
  (∀ k, lo ≤ k < lo + n → pbit (pte m pgdir (k * PGSIZE)) = false) → present m pgdir lo n = 0.
Proof.
  intros Hn. unfold present. rewrite (filter_ext_in _ (λ _, False)).
  - by induction (seqZ lo n).
  - intros k Hk%elem_of_seqZ. by rewrite Hn by lia.
Qed.

(** one more page becomes present *)
Lemma present_one m m' pgdir n j :
  0 ≤ j < n →
  (∀ k, 0 ≤ k < n → pbit (pte m' pgdir (k * PGSIZE)) =
     bool_decide (k = j) || pbit (pte m pgdir (k * PGSIZE))) →
  pbit (pte m pgdir (j * PGSIZE)) = false →
  present m' pgdir 0 n = present m pgdir 0 n + 1.
Proof.
  intros Hj Hext Hno. replace n with (j + (1 + (n - j - 1))) by lia.
  rewrite !(present_app _ _ 0 j), !(present_app _ _ (0 + j) 1) by lia.
  rewrite !(present_cons _ _ (0 + j) 1) by lia. rewrite !Z.add_0_l.
  rewrite Hext, Hno, bool_decide_eq_true_2 by lia. cbn [orb].
  rewrite (present_ext m m' pgdir 0 j), (present_ext m m' pgdir (j + 1) (n - j - 1)).
  - rewrite (present_ext m m' pgdir (j + 1) (1 - 1)) by lia. lia.
  - intros k Hk. rewrite Hext by lia. by rewrite bool_decide_eq_false_2 by lia.
  - intros k Hk. rewrite Hext by lia. by rewrite bool_decide_eq_false_2 by lia.
Qed.

(** ** Operations on the address space of the current process *)

(** a slot update that keeps everything but the size *)
Definition keeps (f : proc → proc) (p : proc) : Prop :=
  p_state (f p) = p_state p ∧ p_pgdir (f p) = p_pgdir p ∧ p_kstack (f p) = p_kstack p ∧
  p_tf (f p) = p_tf p ∧ p_ofile (f p) = p_ofile p ∧ p_cwd (f p) = p_cwd p ∧ p_name (f p) = p_name p.

Lemma space_step s (fs : F) l fl held hf hi n ip me cur f s' fl' ps :
  kern_ok (Build_kern s fs l n ip) fl held hf hi → l !! me = Some cur → p_state cur ≠ UNUSED →
  keeps f cur → kmem_ok s' fl' →
  fl' ++ owned (mem s') (p_pgdir cur) ≡ₚ fl ++ owned (mem s) (p_pgdir cur) →
  same_outside ps (mem s) (mem s') → ps ⊆ fl ++ owned (mem s) (p_pgdir cur) →
  kern_ok (Build_kern s' fs (alter f me l) n ip) fl' held hf hi ∧
  fl' ++ all_owned (mem s') (alter f me l) ≡ₚ fl ++ all_owned (mem s) l.
Proof.
  intros [K1 K2 K3] Hme Hu (E1 & E2 & E3 & E4 & E5 & E6 & E7) Hk Hp Hs Hsub.
  cbn [k_phys k_fs k_procs] in *.
  assert (P1 : ∀ m, powned m (f cur) = p_kstack cur :: owned m (p_pgdir cur))
    by (intros m; unfold powned; by rewrite E1, E2, E3, decide_False).
  assert (P2 : powned (mem s) cur = p_kstack cur :: owned (mem s) (p_pgdir cur))
    by (unfold powned; by rewrite decide_False).
  assert (Hpp : fl' ++ powned (mem s') (f cur) ≡ₚ fl ++ powned (mem s) cur).
  { rewrite P1, P2, <- !Permutation_middle. by rewrite Hp. }
  destruct (unfocus s l fl held me cur f s' fl' ps) as [U1 U2]; [done|done|done| |done|done|].
  { intros q Hq. rewrite P2. apply Hsub, elem_of_app in Hq as [?|?]; [by left|right; by right]. }
  destruct (refs_alter pfiles l me f cur Hme) as [A1 A2].
  destruct (refs_alter pinodes l me f cur Hme) as [B1 B2].
  assert (F1 : pfiles (f cur) = pfiles cur) by (unfold pfiles; by rewrite E5).
  assert (F2 : pinodes (f cur) = pinodes cur) by (unfold pinodes; by rewrite E6).
  rewrite F1, <- A2 in A1. rewrite F2, <- B2 in B1. split; [split; cbn [k_phys k_fs k_procs]|].
  - done.
  - eapply fs_inv_perm; [exact K2|..]; unfold file_refs, inode_refs; by rewrite ?A1, ?B1.
  - apply Forall_alter; [done|]. intros x Hx [L1 L2 L3 L4]. rewrite Hme in Hx. injection Hx as <-.
    split; by rewrite ?E1, ?E3, ?E4, ?E5, ?E6, ?E7.
  - rewrite U2, (all_owned_delete _ _ _ _ Hme).
    rewrite !app_assoc. by rewrite Hpp.
Qed.

Lemma alter_same {A} (f : A → A) i (l : list A) :
  (∀ x, l !! i = Some x → f x = x) → alter f i l = l.
Proof.
  intros Hf. apply list_eq. intros j. rewrite list_lookup_alter. case_decide as Hd; [|done].
  subst j. destruct (l !! i) as [x|] eqn:E; [|done]. cbn. by rewrite Hf.
Qed.

Lemma switchuvm_ok s (fs : F) l fl held n ip i p :
  sys_ok s l fl held → l !! i = Some p → p_state p ≠ UNUSED →
  switchuvm i (Build_kern s fs l n ip) = Ret () (Build_kern s fs l n ip).
Proof.
  intros Hs Hi Hu. unfold switchuvm. erewrite bind_Ret by (by apply proc_at_Ret).
  pose proof (focus _ _ _ _ _ _ Hs Hi Hu) as Ha.
  pose proof (vo_pgdir _ _ _ _ Ha) as Hpg. pose proof (vo_rest _ _ _ _ Ha) as Hr.
  assert (Hks : is_page (p_kstack p)).
  { rewrite Forall_forall in Hr. apply Hr. apply elem_of_app. right. by left. }
  rewrite !(proj2 (Z.eqb_neq _ 0)) by (by apply is_page_nonzero). done.
Qed.

(** ** Faults and mmap *)

Lemma pgfault_ok s (fs : F) l fl held hf hi n ip me cur va :
  kern_ok (Build_kern s fs l n ip) fl held hf hi → l !! me = Some cur → p_state cur ≠ UNUSED →
  is_u32 va → va < KERNBASE → pbit (pte (mem s) (p_pgdir cur) va) = false →
  ∃ r s' fl', pgfault (Some me) va (Build_kern s fs l n ip) = Ret r (Build_kern s' fs l n ip) ∧
    kern_ok (Build_kern s' fs l n ip) fl' held hf hi ∧
    fl' ++ all_owned (mem s') l ≡ₚ fl ++ all_owned (mem s) l ∧
    (r = 1 ∧ (length fl ≤ length fl' + 2)%nat ∧
     (∀ v, is_u32 v → pbit (pte (mem s') (p_pgdir cur) v) =
        bool_decide (v / PGSIZE = va / PGSIZE) || pbit (pte (mem s) (p_pgdir cur) v)) ∧
     (∀ v, is_u32 v → v < KERNBASE → uread (mem s') (p_pgdir cur) v =
        if decide (v / PGSIZE = va / PGSIZE) then Some 0 else uread (mem s) (p_pgdir cur) v) ∨
     r = 0 ∧ (length fl ≤ 1)%nat ∧ (∀ v, is_u32 v → pte (mem s') (p_pgdir cur) v = pte (mem s) (p_pgdir cur) v) ∧
     (∀ v, is_u32 v → v < KERNBASE → uread (mem s') (p_pgdir cur) v = uread (mem s) (p_pgdir cur) v)).
Proof.
  intros Hok Hme Hu Hva Hk Hno. pose proof Hok as [K1 _ _]. cbn [k_phys k_procs] in K1.
  pose proof (focus _ _ _ _ _ _ K1 Hme Hu) as Ha.
  set (j := va / PGSIZE) in *.
  assert (Hj : 0 ≤ j < KERNBASE / PGSIZE) by (unfold j; revert Hva Hk; mmu_consts; zdm).
  destruct (page_base_u32 j) as [Hju Hjd]; [revert Hj; mmu_consts; zdm|].
  assert (Ej : PGROUNDDOWN va = j * PGSIZE)
    by (rewrite (PGROUNDDOWN_mod va) by done; unfold j; mmu_consts; zdm).
  destruct (page_fault_uread s fl (p_pgdir cur) _ j Ha Hj) as (r & s' & fl' & Hrun & Hok' & Hpg & Hs & Hr).
  { rewrite (pte_same_page _ _ (j * PGSIZE) va) by done. done. }
  destruct (space_step s fs l fl held hf hi n ip me cur id s' fl'
    (fl ++ p_pgdir cur :: tables (mem s) (p_pgdir cur))) as [Hok2 Hcons]; [done|done|done| | |done|done| |].
  { done. } { apply Hok'. } { unfold owned. clear. set_solver. }
  rewrite (alter_same id) in Hok2, Hcons by done.
  exists r, s', fl'. split_and!; [|done|done|exact Hr].
  unfold pgfault. erewrite bind_Ret by (by apply proc_at_Ret). rewrite Ej. kphys Hrun.
  pose proof Hok2 as [K1' _ _]. by erewrite bind_Ret by (by eapply switchuvm_ok).
Qed.

(** [mmap] moves [sz] and does nothing else *)
Lemma mmap_ok s (fs : F) l fl held hf hi n ip me cur size :
  kern_ok (Build_kern s fs l n ip) fl held hf hi → l !! me = Some cur → p_state cur ≠ UNUSED →
  0 ≤ p_sz cur → 0 ≤ size → p_sz cur + size ≤ KERNBASE → p_sz cur < 2 ^ 31 →
  let l1 := alter (set_sz (p_sz cur + size)) me l in
  mmap me size (Build_kern s fs l n ip) = Ret (p_sz cur) (Build_kern s fs l1 n ip) ∧
  kern_ok (Build_kern s fs l1 n ip) fl held hf hi ∧ l1 !! me = Some (set_sz (p_sz cur + size) cur).
Proof.
  intros Hok Hme Hu Hsz Hs Hend Hlt l1. pose proof Hok as [K1 _ _]. cbn [k_phys k_procs] in K1. split_and!.
  - unfold mmap. erewrite bind_Ret by (by apply proc_at_Ret). rewrite i32_id by lia.
    rewrite u32_id by (revert Hend Hsz Hs; mmu_consts; lia). by kstep.
  - destruct (space_step s fs l fl held hf hi n ip me cur (set_sz (p_sz cur + size)) s fl [])
      as [Hok1 _]; [done|done|done|done|apply K1|done|apply same_outside_refl|set_solver|done].
  - unfold l1. by rewrite list_lookup_alter_eq, Hme.
Qed.

(** a fault counts one page more, or none *)
Lemma fault_numpp s (fs : F) l fl held hf hi n ip me cur va :
  kern_ok (Build_kern s fs l n ip) fl held hf hi → l !! me = Some cur → p_state cur ≠ UNUSED →
  0 ≤ va < p_sz cur → p_sz cur ≤ KERNBASE → pbit (pte (mem s) (p_pgdir cur) va) = false →
  let pp := present (mem s) (p_pgdir cur) 0 (npages_of (p_sz cur)) in
  ∃ r s' fl', let k' := Build_kern s' fs l n ip in
    pgfault (Some me) va (Build_kern s fs l n ip) = Ret r k' ∧ kern_ok k' fl' held hf hi ∧
    (r = 1 ∧ numpp me k' = Ret (pp + 1) k' ∧
     (∀ v, is_u32 v → v < KERNBASE → uread (mem s') (p_pgdir cur) v =
        if decide (v / PGSIZE = va / PGSIZE) then Some 0 else uread (mem s) (p_pgdir cur) v) ∨
     r = 0 ∧ (length fl ≤ 1)%nat ∧ numpp me k' = Ret pp k' ∧
     (∀ v, is_u32 v → v < KERNBASE → uread (mem s') (p_pgdir cur) v = uread (mem s) (p_pgdir cur) v)).
Proof.
  intros Hok Hme Hu Hva Hend Hno pp. assert (Hvu : is_u32 va ∧ va < KERNBASE) by (revert Hend Hva; mmu_consts; lia).
  destruct (pgfault_ok s fs l fl held hf hi n ip me cur va) as (r & s' & fl' & R1 & R2 & _ & R4); [done|done|done|apply Hvu|apply Hvu|done|].
  exists r, s', fl'. split; [done|]. split; [done|]. pose proof R2 as [K2 _ _]. cbn [k_phys k_procs] in K2.
  assert (Hn2 := numpp_ok s' fs l fl' held n ip me cur K2 Hme Hu ltac:(revert Hend Hva; mmu_consts; lia)).
  assert (Hin : ∀ k, 0 ≤ k < npages_of (p_sz cur) → is_u32 (k * PGSIZE) ∧ k * PGSIZE / PGSIZE = k).
  { intros k Hk. apply page_base_u32. revert Hk Hend. unfold npages_of. mmu_consts. zdm. }
  assert (Hvp : 0 ≤ va / PGSIZE < npages_of (p_sz cur)) by (unfold npages_of; revert Hva; mmu_consts; zdm).
  destruct R4 as [(-> & _ & R5 & R6)|(-> & Hl & R5 & R6)]; [left|right].
  - split_and!; [done| |done]. rewrite Hn2. f_equal. apply (present_one _ _ _ _ (va / PGSIZE)); [done|..].
    + intros k Hk. destruct (Hin k Hk) as [H1' H2']. by rewrite R5, H2' by done.
    + destruct (Hin _ Hvp) as [H1' H2']. by rewrite (pte_same_page _ _ _ va) by (done || apply Hvu).
  - split_and!; [done|done| |done]. rewrite Hn2. f_equal. apply present_ext. intros k Hk. destruct (Hin k) as [H1' _]; [lia|]. by rewrite R5.
Qed.

(** C26: lazily mapped memory, up to KERNBASE.  [mmap] of [size] bytes only moves [sz]: it
    returns the old size and allocates nothing.  [numvp] becomes the number of pages of the
    new size, and [numpp] does not change, but for the pages that were mapped above the old
    size already, by stray accesses: these count from now on.  Then the first access to a new
    page that is not mapped either makes it read as zeros, with [numpp] one larger and all
    other user memory unchanged, or fails, with at most one free page left, and changes
    nothing the process can see. *)
Theorem mmap_touch k fl held hf hi me cur size va :
  kern_ok k fl held hf hi → k_procs k !! me = Some cur → p_state cur = RUNNING →
  0 ≤ p_sz cur → p_sz cur + size ≤ KERNBASE → p_sz cur ≤ va < p_sz cur + size →
  pbit (pte (mem (k_phys k)) (p_pgdir cur) va) = false →
  let n0 := npages_of (p_sz cur) in
  let n1 := npages_of (p_sz cur + size) in
  let pp := present (mem (k_phys k)) (p_pgdir cur) 0 n0 in
  let stray := present (mem (k_phys k)) (p_pgdir cur) n0 (n1 - n0) in
  numpp me k = Ret pp k ∧ numvp me k = Ret n0 k ∧
  ∃ k1, mmap me size k = Ret (p_sz cur) k1 ∧ k_phys k1 = k_phys k ∧ kern_ok k1 fl held hf hi ∧
    numvp me k1 = Ret n1 k1 ∧ numpp me k1 = Ret (pp + stray) k1 ∧
    ((∀ j, n0 ≤ j < n1 → pbit (pte (mem (k_phys k)) (p_pgdir cur) (j * PGSIZE)) = false) → stray = 0) ∧
    ∃ r k2 fl2, pgfault (Some me) va k1 = Ret r k2 ∧ kern_ok k2 fl2 held hf hi ∧
      (r = 1 ∧ numpp me k2 = Ret (pp + stray + 1) k2 ∧
       (∀ v, is_u32 v → v < KERNBASE → uread (mem (k_phys k2)) (p_pgdir cur) v =
          if decide (v / PGSIZE = va / PGSIZE) then Some 0
          else uread (mem (k_phys k)) (p_pgdir cur) v) ∨
       r = 0 ∧ (length fl ≤ 1)%nat ∧ numpp me k2 = Ret (pp + stray) k2 ∧
       (∀ v, is_u32 v → v < KERNBASE → uread (mem (k_phys k2)) (p_pgdir cur) v =
          uread (mem (k_phys k)) (p_pgdir cur) v)).
Proof.
  destruct k as [s fs l n ip]. intros Hok Hme Hrun Hsz Hend Hva Hno n0 n1 pp stray. cbn [k_phys k_procs] in *.
  assert (Hu : p_state cur ≠ UNUSED) by congruence. pose proof Hok as [K1 _ _]. cbn [k_phys k_procs] in K1.
  assert (Hb : p_sz cur + size ≤ 2 ^ 31) by (revert Hend; mmu_consts; lia).
  destruct (mmap_ok s fs l fl held hf hi n ip me cur size Hok Hme Hu) as (Hmm & Hok1 & Hme1); [lia..|].
  set (l1 := alter _ me l) in *. set (cur1 := set_sz _ cur) in *. pose proof Hok1 as [K1' _ _]. cbn [k_phys k_procs] in K1'.
  assert (Hpp : present (mem s) (p_pgdir cur) 0 n1 = pp + stray).
  { unfold pp, stray. rewrite <- (Z.add_0_l n0) at 2. rewrite <- present_app; [f_equal; lia|..]; unfold n0, n1, npages_of; revert Hsz Hva; mmu_consts; zdm. }
  split; [by eapply numpp_ok; [..|unfold PGSIZE; lia]|]. split; [apply numvp_ok; [done|lia]|].
  exists (Build_kern s fs l1 n ip). split_and!; [done|done|done| | | |].
  - apply (numvp_ok _ _ _ _ _ _ cur1); [done|]. cbn. lia.
  - rewrite <- Hpp. apply (numpp_ok _ _ _ fl held _ _ _ cur1); [done..|]. cbn. unfold PGSIZE. lia.
  - intros Hz. apply present_absent. intros j Hj. apply Hz. lia.
  - destruct (fault_numpp s fs l1 fl held hf hi n ip me cur1 va) as (r & s' & fl' & R1 & R2 & R3); [done..|cbn; lia|done|done|].
    change (p_pgdir cur1) with (p_pgdir cur) in R3. change (p_sz cur1) with (p_sz cur + size) in R3. fold n1 in R3. rewrite Hpp in R3.
    by exists r, (Build_kern s' fs l1 n ip), fl'.
Qed.

End proclazy.

(** ** proc.c: growproc, the memory call behind sbrk *)

#[local] Opaque tables uframes memmove memset store32 load32.

Section procgrow.
  Context `{KernelImage} `{ProcImage} {F : Type} `{FileRefs F}.

(** [growproc(n)] with [n > 0], for a process with nothing mapped between its
    size and the new one, returns 0 with [sz] increased, the new pages present and
    zero and the old memory unchanged, or, with fewer free pages than two for each
    new page, returns -1 and leaves size and memory as they were; no page is lost
    and no other process is touched. *)
Theorem growproc_grow k fl held hf hi me cur n :
  kern_ok k fl held hf hi → k_procs k !! me = Some cur → p_state cur = RUNNING →
  0 ≤ p_sz cur → 0 < n → p_sz cur + n < KERNBASE →
  (∀ va, is_u32 va → grow_lo (p_sz cur) ≤ va / PGSIZE < grow_lo (p_sz cur + n) →
     pbit (pte (mem (k_phys k)) (p_pgdir cur) va) = false) →
  ∃ r k' fl', growproc me n k = Ret r k' ∧ kern_ok k' fl' held hf hi ∧
    fl' ++ all_owned (mem (k_phys k')) (k_procs k') ≡ₚ
      fl ++ all_owned (mem (k_phys k)) (k_procs k) ∧
    (r = 0 ∧ k_procs k' = alter (set_sz (p_sz cur + n)) me (k_procs k) ∧
     (∀ va, is_u32 va → va < KERNBASE → uread (mem (k_phys k')) (p_pgdir cur) va =
        if decide (grow_lo (p_sz cur) ≤ va / PGSIZE < grow_lo (p_sz cur + n)) then Some 0
        else uread (mem (k_phys k)) (p_pgdir cur) va) ∨
     r = -1 ∧ Z.of_nat (length fl) < 2 * (grow_lo (p_sz cur + n) - grow_lo (p_sz cur)) ∧
     k_procs k' = k_procs k ∧
     (∀ va, is_u32 va → va < KERNBASE →
        uread (mem (k_phys k')) (p_pgdir cur) va = uread (mem (k_phys k)) (p_pgdir cur) va)).
Proof.
  destruct k as [s fs l np ip]. cbn [k_phys k_procs]. intros Hok Hme Hrun Hsz Hn Hend Hno.
  assert (Hu : p_state cur ≠ UNUSED) by congruence. pose proof Hok as [K1 _ _]. cbn [k_phys k_procs] in K1.
  pose proof (focus _ _ _ _ _ _ K1 Hme Hu) as Ha. set (sz := p_sz cur) in *.
  destruct (allocuvm_ok s fl (p_pgdir cur) _ sz (sz + n) Ha) as (r & s' & fl' & Hal & Hr);
    [lia|done|done|].
  assert (Erun : ∀ o, (if r =? 0 then mret (-1) else
      _ ← upd me (set_sz r); _ ← switchuvm me; mret 0) (Build_kern s' fs l np ip) = o →
    growproc me n (Build_kern s fs l np ip) = o).
  { intros o <-. unfold growproc. erewrite bind_Ret by (by apply proc_at_Ret). fold sz.
    rewrite (proj2 (Z.ltb_lt 0 n)), u32_id by (done || (revert Hend; mmu_consts; lia)).
    by kphys Hal. }
  destruct Hr as [[-> Hg]|(-> & Hun & Hl)].
  - destruct (space_step s fs l fl held hf hi np ip me cur (set_sz (sz + n)) s' fl'
      (fl ++ p_pgdir cur :: tables (mem s) (p_pgdir cur))) as [Hok2 Hc];
      [done|done|done|done|apply Hg|apply Hg|apply Hg|unfold owned; clear; set_solver|].
    exists 0, (Build_kern s' fs (alter (set_sz (sz + n)) me l) np ip), fl'.
    split; [|split; [done|split; [done|left]]].
    + apply Erun. rewrite (proj2 (Z.eqb_neq (sz + n) 0)) by lia. kstep.
      pose proof Hok2 as [K2 _ _].
      by erewrite bind_Ret by (eapply (switchuvm_ok _ _ _ _ _ _ _ _ (set_sz (sz + n) cur));
        [exact K2|by rewrite list_lookup_alter_eq, Hme|done]).
    + split_and!; [done|done|]. intros va Hva Hlt. by eapply grown_uread.
  - destruct (space_step s fs l fl held hf hi np ip me cur id s' fl'
      (fl ++ p_pgdir cur :: tables (mem s) (p_pgdir cur))) as [Hok2 Hc];
      [done|done|done|done|apply Hun|apply Hun|apply Hun|unfold owned; clear; set_solver|].
    rewrite (alter_same id) in Hok2, Hc by done.
    exists (-1), (Build_kern s' fs l np ip), fl'.
    split; [by apply Erun|split; [done|split; [done|right]]].
    split_and!; [done|done|done|]. intros va Hva Hlt. by eapply undone_uread.
Qed.

(** [growproc(n)] with [-sz <= n < 0] unmaps exactly the pages from the new
    size up and frees their frames.  It returns 0 with [sz] updated, except when
    the new size is 0: then it reports failure with -1 and leaves [sz] at its old
    value although all the memory is gone. *)
Theorem growproc_shrink k fl held hf hi me cur n :
  kern_ok k fl held hf hi → k_procs k !! me = Some cur → p_state cur = RUNNING →
  p_sz cur ≤ KERNBASE → n < 0 → 0 ≤ p_sz cur + n →
  let sz := p_sz cur + n in
  ∃ k' fl', growproc me n k = Ret (if sz =? 0 then -1 else 0) k' ∧ kern_ok k' fl' held hf hi ∧
    k_procs k' = alter (set_sz (if sz =? 0 then p_sz cur else sz)) me (k_procs k) ∧
    fl' ++ all_owned (mem (k_phys k')) (k_procs k') ≡ₚ
      fl ++ all_owned (mem (k_phys k)) (k_procs k) ∧
    ∀ va, is_u32 va → va < KERNBASE → uread (mem (k_phys k')) (p_pgdir cur) va =
      if decide (grow_lo sz ≤ va / PGSIZE < grow_lo (p_sz cur)) then None
      else uread (mem (k_phys k)) (p_pgdir cur) va.
Proof.
  destruct k as [s fs l np ip]. cbn [k_phys k_procs]. intros Hok Hme Hrun Hend Hn Hsz.
  set (sz := p_sz cur + n).
  assert (Hu : p_state cur ≠ UNUSED) by congruence. pose proof Hok as [K1 _ _]. cbn [k_phys k_procs] in K1.
  pose proof (focus _ _ _ _ _ _ K1 Hme Hu) as Ha.
  destruct (deallocuvm_ok s fl (p_pgdir cur) _ (p_sz cur) sz Ha) as (s' & fl' & Hd & Hf);
    [unfold sz; lia|done|].
  set (f := set_sz (if sz =? 0 then p_sz cur else sz)).
  destruct (space_step s fs l fl held hf hi np ip me cur f s' fl'
    (tables (mem s) (p_pgdir cur) ++ fl')) as [Hok2 Hc].
  { done. } { done. } { done. } { done. } { apply Hf. }
  { destruct Hf as [_ E _ Hp _ _]. unfold owned. rewrite E.
    transitivity (p_pgdir cur :: tables (mem s) (p_pgdir cur) ++ (fl' ++ uframes (mem s') (p_pgdir cur)));
      [solve_Permutation|]. rewrite Hp. solve_Permutation. }
  { apply Hf. }
  { destruct Hf as [_ _ _ Hp _ _]. intros q [Hq|Hq]%elem_of_app; unfold owned.
    - clear -Hq. set_solver.
    - assert (q ∈ fl ++ uframes (mem s) (p_pgdir cur)) as Hin by (rewrite <- Hp; apply elem_of_app; by left).
      clear -Hin. set_solver. }
  exists (Build_kern s' fs (alter f me l) np ip), fl'. split_and!; [|done|done|done|].
  - unfold growproc. erewrite bind_Ret by (by apply proc_at_Ret).
    rewrite (proj2 (Z.ltb_ge 0 n)), (proj2 (Z.ltb_lt n 0)) by lia. fold sz.
    rewrite u32_id by (revert Hend; unfold sz; mmu_consts; lia). kphys Hd. unfold f.
    destruct (sz =? 0) eqn:E.
    + f_equal. f_equal. symmetry. apply alter_same. intros x Hx. rewrite Hme in Hx.
      injection Hx as <-. by destruct cur.
    + kstep. pose proof Hok2 as [K2 _ _]. cbn [k_phys k_procs] in K2. subst f.
      by erewrite bind_Ret by (eapply (switchuvm_ok _ _ _ _ _ _ _ _ (set_sz sz cur));
        [exact K2|by rewrite list_lookup_alter_eq, Hme|done]).
  - intros va Hva Hlt. by eapply freed_uread.
Qed.

End procgrow.
