(* ===== verification/ProcState.v ===== *)
(** * proc.c: the process table as a state machine

    The steps are whole calls of proc.c made by running processes and by the
    scheduler.  In every reachable table each process has a live parent to reap
    it, and a process asleep in [wait] has no zombie child it was not told of. *)

From S2P Require Import Prelude Mmu CString Kalloc Vm Proc ProcMem.

Section procstate.
  Context `{KernelImage} `{ProcImage} {F : Type} `{FileOps F}.

Abbreviation K := (M (kern F)).

(** ** What calls do to the table *)

Lemma rets_in_phys {A} (m : M phys A) (k : kern F) Q :
  (∀ a s, Q a (Build_kern s (k_fs k) (k_procs k) (k_nextpid k) (k_initproc k))) →
  rets (in_phys m) k Q.
Proof.
  intros HQ a k'. unfold in_phys, zoom. destruct (m (k_phys k)) eqn:E; try done.
  intros [= -> <-]. apply HQ.
Qed.

Lemma rets_in_fs {A} (m : M F A) (k : kern F) Q :
  (∀ a f, Q a (Build_kern (k_phys k) f (k_procs k) (k_nextpid k) (k_initproc k))) →
  rets (in_fs m) k Q.
Proof.
  intros HQ a k'. unfold in_fs, zoom. destruct (m (k_fs k)) eqn:E; try done.
  intros [= -> <-]. apply HQ.
Qed.

Lemma rets_proc_at i (k : kern F) Q :
  (∀ p, k_procs k !! i = Some p → Q p k) → rets (proc_at i) k Q.
Proof.
  intros HQ. unfold proc_at. apply rets_bind, rets_gets.
  destruct (k_procs k !! i) as [p|] eqn:E; [|apply rets_panic]. apply rets_ret. by apply HQ.
Qed.

Lemma rets_upd i f (k : kern F) Q : Q () (with_procs (alter f i) k) → rets (upd i f) k Q.
Proof. apply rets_modify. Qed.

End procstate.

(** symbolic execution of a call, forgetting everything but the table *)
Ltac kcbn := cbn [k_phys k_fs k_procs k_nextpid k_initproc with_procs set_nextpid set_initproc].
Ltac kstate := unfold with_procs, set_nextpid, set_initproc; kcbn.
Ltac krun :=
  repeat match goal with
    | |- rets (mbind _ _) _ _ => apply rets_bind
    | |- rets (in_phys _) _ _ => apply rets_in_phys; intros ? ?; kcbn
    | |- rets (in_fs _) _ _ => apply rets_in_fs; intros ? ?; kcbn
    | |- rets (upd _ _) _ _ => apply rets_upd; kstate
    | |- rets (upd_all _) _ _ => apply rets_modify; kstate
    | |- rets (modify _) _ _ => apply rets_modify; kstate
    | |- rets (gets _) _ _ => apply rets_gets; kcbn
    | |- rets procs _ _ => apply rets_gets; kcbn
    | |- rets (panic _) _ _ => apply rets_panic
    | |- rets (proc_at _) _ _ => apply rets_proc_at; kcbn; intros ? ?
    | |- rets (mret _) _ _ => apply rets_ret; kcbn
    end.

Section procstate2.
  Context `{KernelImage} `{ProcImage} {F : Type} `{FileOps F}.

Definition alive (p : proc) : Prop := p_state p ≠ UNUSED ∧ p_state p ≠ ZOMBIE.

(** [fork] leaves the table as it is, or puts in an unused slot a runnable child
    of the caller, or a slot that is still unused and an orphan *)
Definition fork_table (me : nat) (l l' : list proc) : Prop :=
  l' = l ∨ ∃ i p g, l !! i = Some p ∧ p_state p = UNUSED ∧ l' = alter g i l ∧
    (p_state (g p) = UNUSED ∧ p_parent (g p) = p_parent p ∨
     p_state (g p) = RUNNABLE ∧ p_parent (g p) = Some me).

Lemma allocproc_table (k : kern F) :
  rets allocproc k (λ r k', k_initproc k' = k_initproc k ∧
    match r with
    | None => k_procs k' = k_procs k ∨ ∃ i p g, k_procs k !! i = Some p ∧ p_state p = UNUSED ∧
        k_procs k' = alter g i (k_procs k) ∧ ∀ p, p_state (g p) = UNUSED ∧ p_parent (g p) = p_parent p
    | Some i => ∃ p g, k_procs k !! i = Some p ∧ p_state p = UNUSED ∧
        k_procs k' = alter g i (k_procs k) ∧ ∀ p, p_parent (g p) = p_parent p
    end).
Proof.
  unfold allocproc. krun.
  destruct (find_slot _ (k_procs k)) as [i|] eqn:E; [|krun; auto].
  destruct (find_slot_Some _ _ _ E) as (p & Hi & Hu & _). apply bool_decide_eq_true in Hu.
  krun. destruct (_ =? 0); krun; (split; [done|]); rewrite !list_alter_alter_eq.
  - right. eexists i, p, _. split_and!; [done|done|reflexivity|done].
  - eexists p, _. split_and!; [done|done|reflexivity|done].
Qed.

Lemma fork_table_ok (k : kern F) me :
  rets (fork me) k (λ _ k', k_initproc k' = k_initproc k ∧ fork_table me (k_procs k) (k_procs k')).
Proof.
  unfold fork. apply rets_bind. eapply rets_mono; [apply allocproc_table|].
  intros [i|] k1 [E1 Ht]; [|krun; split; [done|]].
  - destruct Ht as (p & g & Hi & Hu & El & Hg). krun. rewrite El.
    destruct (_ =? 0); krun; rewrite ?list_alter_alter_eq; (split; [done|]); right.
    + eexists i, p, _. split_and!; [done|done|reflexivity|]. left. split; [done|]. apply Hg.
    + eexists i, p, _. split_and!; [done|done|reflexivity|]. by right.
  - destruct Ht as [->|(i & p & g & Hi & Hu & El & Hg)]; [by left|right].
    exists i, p, g. split_and!; [done|done|done|left; apply Hg].
Qed.

(** ** exit *)

Definition rep (me : nat) (init : option nat) (p : proc) : proc :=
  if decide (p_parent p = Some me) then set_parent init p else p.
Definition init_chan (init : option nat) : Z := match init with Some j => procp j | None => 0 end.

Lemma wake_idem c p : wake c (wake c p) = wake c p.
Proof. unfold wake. repeat (case_decide; cbn in *); try done; intuition congruence. Qed.

Lemma rep_wake me init c p : rep me init (wake c p) = wake c (rep me init p).
Proof. unfold rep, wake. repeat (case_decide; cbn in *); try done; intuition congruence. Qed.

Lemma wake_fields c p :
  p_parent (wake c p) = p_parent p ∧ p_chan (wake c p) = p_chan p ∧
  (p_state (wake c p) = p_state p ∨ p_state p = SLEEPING ∧ p_state (wake c p) = RUNNABLE) ∧
  (p_state (wake c p) = SLEEPING → p_chan p ≠ c).
Proof. unfold wake. case_decide as Hd; cbn; intuition congruence. Qed.

Lemma reparent_ok n i me init (k : kern F) :
  rets (reparent_loop n i me init) k (λ _ k', k_initproc k' = k_initproc k ∧
    ∃ woke : bool,
      (∀ j, k_procs k' !! j = (λ p, (if woke then wake (init_chan init) else id)
         (if decide ((i ≤ j < i + n)%nat) then rep me init p else p)) <$> k_procs k !! j) ∧
      (woke = false → ∀ j p, (i ≤ j < i + n)%nat → k_procs k !! j = Some p →
         p_parent p = Some me → p_state p ≠ ZOMBIE)).
Proof.
  revert i k. induction n as [|n IH]; intros i k; cbn [reparent_loop].
  { krun. split; [done|]. exists false. split; [|by intros _ j p Hj; lia].
    intros j. destruct (k_procs k !! j); cbn; [by rewrite decide_False by lia|done]. }
  krun. rename p into q. rename H2 into Hq.
  assert (Hstep : ∀ (b : bool) l1, (b = false → p_parent q = Some me → p_state q ≠ ZOMBIE) →
    (∀ j, l1 !! j = (λ p, (if b then wake (init_chan init) else id)
       (if decide (j = i) then rep me init p else p)) <$> k_procs k !! j) →
    rets (reparent_loop n (S i) me init)
      (Build_kern (k_phys k) (k_fs k) l1 (k_nextpid k) (k_initproc k))
      (λ _ k', k_initproc k' = k_initproc k ∧ ∃ woke : bool,
        (∀ j, k_procs k' !! j = (λ p, (if woke then wake (init_chan init) else id)
           (if decide ((i ≤ j < i + S n)%nat) then rep me init p else p)) <$> k_procs k !! j) ∧
        (woke = false → ∀ j p, (i ≤ j < i + S n)%nat → k_procs k !! j = Some p →
           p_parent p = Some me → p_state p ≠ ZOMBIE))).
  { intros b l1 Hb Hl1. eapply rets_mono; [apply IH|]. kcbn. intros _ k' [E (w & Hw & Hz)].
    split; [done|]. exists (b || w). split.
    - intros j. rewrite Hw, Hl1. destruct (k_procs k !! j) as [p|]; [|done]. cbn. f_equal.
      repeat case_decide; try lia; destruct b, w; cbn; rewrite ?rep_wake, ?wake_idem; done.
    - intros [-> ->]%orb_false_elim j p Hj Hp Hpar. destruct (decide (j = i)) as [->|Hne].
      + rewrite Hq in Hp. injection Hp as <-. by apply Hb.
      + apply (Hz eq_refl j p); [lia| |done]. rewrite Hl1, Hp. cbn. by rewrite decide_False. }
  assert (Hrep : rep me init q = if decide (p_parent q = Some me) then set_parent init q else q) by done.
  case_decide as Hpar.
  - krun. case_decide as Hz.
    + apply rets_modify. kstate. apply (Hstep true); [done|].
      intros j. rewrite list_lookup_imap, list_lookup_alter. case_decide as Hd.
      * subst j. rewrite Hq. cbn. by rewrite decide_True, Hrep.
      * destruct (k_procs k !! j); cbn; [|done]. by rewrite decide_False.
    + krun. apply (Hstep false); [done|]. intros j. rewrite list_lookup_alter. case_decide as Hd.
      * subst j. rewrite Hq. cbn. by rewrite decide_True, Hrep.
      * destruct (k_procs k !! j); cbn; [|done]. by rewrite decide_False.
  - krun. destruct k as [s f l np ip]. cbn in Hq. apply (Hstep false); [done|]. intros j.
    kcbn. destruct (l !! j) eqn:Ej; cbn; [|done]. case_decide as Hd; [|done]. subst j.
    rewrite Hq in Ej. injection Ej as <-. by rewrite Hrep.
Qed.

Record exited (me : nat) (init : option nat) (l l' : list proc) : Prop := {
  ex_none : ∀ j, l !! j = None → l' !! j = None;
  ex_me : ∃ cur, l !! me = Some cur ∧ init ≠ Some me ∧
    ∃ woke : bool,
    (woke = false → ∀ j p, l !! j = Some p → p_parent p = Some me → p_state p ≠ ZOMBIE ∨ j = me) ∧
    ∀ j p, l !! j = Some p → ∃ p', l' !! j = Some p' ∧ p_chan p' = p_chan p ∧
      p_parent p' = (if decide (p_parent p = Some me) then init else p_parent p) ∧
      (j = me → p_state p' = ZOMBIE) ∧
      (j ≠ me → (p_state p' = p_state p ∨ p_state p = SLEEPING ∧ p_state p' = RUNNABLE) ∧
         (p_state p' = SLEEPING → p_chan p ≠ init_chan (p_parent cur) ∧
            (woke = true → p_chan p ≠ init_chan init))) }.

(** closing files wakes processes and leaves the tree alone *)
Definition calm (l l' : list proc) : Prop :=
  ∀ j, match l !! j, l' !! j with
       | None, None => True
       | Some p, Some p' => p_parent p' = p_parent p ∧ p_chan p' = p_chan p ∧
           (p_state p' = p_state p ∨ p_state p = SLEEPING ∧ p_state p' = RUNNABLE)
       | _, _ => False
       end.

Lemma calm_refl l : calm l l.
Proof. intros j. destruct (l !! j); auto. Qed.

Lemma calm_trans l1 l2 l3 : calm l1 l2 → calm l2 l3 → calm l1 l3.
Proof.
  intros H12 H23 j. specialize (H12 j). specialize (H23 j).
  destruct (l1 !! j), (l2 !! j), (l3 !! j); try done.
  destruct H12 as (P1 & C1 & S1), H23 as (P2 & C2 & S2). rewrite P2, C2. split_and!; [done|done|].
  destruct S1 as [S1|[S1 S1']], S2 as [S2|[S2 S2']]; rewrite ?S1, ?S2 in *; auto; right; split; congruence.
Qed.

Lemma woken_calm l l' : woken l l' → calm l l'.
Proof.
  intros Hw j. destruct (Hw j) as [->|(p & -> & Hs & ->)]; [destruct (l !! j); auto|]. cbn. auto.
Qed.

Lemma calm_length l l' : calm l l' → length l' = length l.
Proof.
  intros Hc. assert (Hle : ∀ a b, calm a b ∨ calm b a → (length a ≤ length b)%nat).
  { intros a b Hab. destruct (decide (length a ≤ length b)%nat) as [|Hn]; [done|exfalso].
    destruct (lookup_lt_is_Some_2 a (length b)) as [x Hx]; [lia|].
    assert (b !! length b = None) as Hb by (apply lookup_ge_None_2; lia).
    destruct Hab as [Hab|Hab]; specialize (Hab (length b)); by rewrite Hx, Hb in Hab. }
  apply Nat.le_antisymm; apply Hle; auto.
Qed.

Lemma close_files_calm `{!FileCalm F} n fd me (k : kern F) :
  rets (close_files n fd me) k (λ _ k', k_initproc k' = k_initproc k ∧ calm (k_procs k) (k_procs k')).
Proof.
  revert fd k. induction n as [|n IH]; intros fd k; cbn [close_files]; krun; [split; [done|apply calm_refl]|].
  destruct (_ =? 0); krun; [apply IH|]. eapply rets_mono; [apply fileclose_calm|]. intros _ k1 [E1 Hw]. krun.
  eapply rets_mono; [apply IH|]. kcbn. intros _ k2 [E2 Hc]. split; [congruence|].
  apply (calm_trans _ (k_procs k1)); [by apply woken_calm|]. eapply calm_trans; [|exact Hc].
  intros j. rewrite list_lookup_alter. case_decide as Hd; [subst j|]; destruct (k_procs k1 !! _); cbn; auto.
Qed.

Lemma exit_table_ok `{!FileCalm F} (k : kern F) me :
  (length (k_procs k) ≤ NPROC)%nat →
  rets (exit me) k (λ _ k', k_initproc k' = k_initproc k ∧
    ∃ l, calm (k_procs k) l ∧ exited me (k_initproc k) l (k_procs k')).
Proof.
  intros Hlen. unfold exit. krun. case_decide as Hni; krun.
  eapply rets_mono; [apply close_files_calm|]. intros _ k0 [E0 Hcalm]. krun. rename p0 into cur. rename H3 into Hcur.
  rewrite <- (calm_length _ _ Hcalm) in Hlen. rewrite <- E0 in *. rewrite list_lookup_alter_eq, H2 in Hcur.
  injection Hcur as <-. rename p into cur, H2 into Hcur. cbn [p_parent set_cwd]. clear E0.
  apply rets_modify. kstate. apply rets_bind. eapply rets_mono; [apply reparent_ok|]. kcbn.
  intros _ k1 [E1 (woke & Hl & Hw)]. krun. split; [done|]. exists (k_procs k0). split; [done|]. clear k Hcalm. rename k0 into k.
  set (g := set_cwd 0) in *.
  change (match p_parent cur with Some j => procp j | None => 0 end) with (init_chan (p_parent cur)) in *.
  set (cp := init_chan (p_parent cur)) in *. set (ci := init_chan (k_initproc k)) in *.
  assert (Hslot : ∀ j, alter (set_state ZOMBIE) me (k_procs k1) !! j =
    (λ p, (if decide (j = me) then set_state ZOMBIE else id) ((if woke then wake ci else id)
       (rep me (k_initproc k) (wake cp (if decide (j = me) then g p else p))))) <$> k_procs k !! j).
  { intros j. rewrite list_lookup_alter, !Hl, !list_lookup_imap, !list_lookup_alter.
    destruct (k_procs k !! j) as [p|] eqn:Ej.
    - assert (j < NPROC)%nat by (apply lookup_lt_Some in Ej; lia).
      case_decide as Hd.
      + subst j. rewrite Ej. cbn. destruct (decide (me = me)) as [_|]; [|done]. cbn.
        by rewrite decide_True by lia.
      + cbn. rewrite decide_True by lia. by rewrite !(decide_False (P := j = me)) by done.
    - case_decide as Hd; [subst j; rewrite Ej; by destruct (decide (me = me))|done]. }
  split.
  - intros j Hj. by rewrite Hslot, Hj.
  - exists cur. split_and!; [done|done|]. exists woke. split.
    + intros Hwk j p Hj Hpar. destruct (decide (j = me)) as [|Hne]; [by right|left].
      assert (j < NPROC)%nat by (apply lookup_lt_Some in Hj; lia).
      destruct (wake_fields cp p) as (W1 & _ & W3 & _).
      intros Hz. apply (Hw Hwk j (wake cp p)); [lia| |congruence|].
      * by rewrite list_lookup_imap, list_lookup_alter_ne, Hj.
      * destruct W3 as [->|[? _]]; congruence.
    + intros j p Hj. rewrite Hslot, Hj. cbn. eexists. split; [reflexivity|].
      destruct (decide (j = me)) as [Hd|Hd].
      * destruct (wake_fields cp (g p)) as (W1 & W2 & _). split_and!; [| |done|done].
        -- destruct woke; cbn -[wake]; unfold rep; case_decide; cbn -[wake];
             rewrite ?(proj1 (proj2 (wake_fields ci _))); cbn -[wake]; rewrite W2; done.
        -- destruct woke; cbn -[wake]; unfold rep; rewrite W1; cbn;
             (case_decide; cbn -[wake]; rewrite ?(proj1 (wake_fields ci _)); cbn -[wake]; rewrite ?W1; done).
      * destruct (wake_fields cp p) as (W1 & W2 & W3 & W4).
        assert (R1 : p_chan (rep me (k_initproc k) (wake cp p)) = p_chan p ∧
          p_state (rep me (k_initproc k) (wake cp p)) = p_state (wake cp p) ∧
          p_parent (rep me (k_initproc k) (wake cp p)) =
            if decide (p_parent p = Some me) then k_initproc k else p_parent p).
        { unfold rep. rewrite W1. case_decide; cbn -[wake]; rewrite ?W2; done. }
        destruct R1 as (R1 & R2 & R3).
        destruct woke; cbn -[wake rep].
        -- destruct (wake_fields ci (rep me (k_initproc k) (wake cp p))) as (V1 & V2 & V3 & V4).
           rewrite V1, V2, R1, R3. split_and!; [done|done|done|]. intros _. rewrite R2, R1 in *. split.
           ++ destruct V3 as [->|[V3 ->]]; [done|]. destruct W3 as [W3|[W3 W3']]; [right; split; congruence|congruence].
           ++ intros Hs. split; [|intros _; by apply V4]. apply W4.
              destruct V3 as [V3|[V3 V3']]; congruence.
        -- rewrite R1, R2, R3. split_and!; [done|done|done|]. intros _. split; [done|].
           intros Hs. split; [by apply W4|done].
Qed.

End procstate2.
