(* ===== verification/ProcTree.v ===== *)
(** * proc.c: reachable process tables *)

From S2P Require Import Prelude Mmu CString Kalloc Vm Proc Trap ProcMem ProcState.

Section proctree.
  Context `{KI : KernelImage} `{PI : ProcImage} {F : Type} `{FO : FileOps F} `{FC : !FileCalm F}.

(** ** The invariant *)

Record tree_ok (init : option nat) (l : list proc) : Prop := {
  tr_len : (length l ≤ NPROC)%nat;
  tr_init : ∃ i p, init = Some i ∧ l !! i = Some p ∧ alive p ∧ p_parent p = None;
  tr_unused : ∀ i p, l !! i = Some p → p_state p = UNUSED → p_parent p = None;
  tr_parent : ∀ i p, l !! i = Some p → p_state p ≠ UNUSED → init ≠ Some i →
    ∃ j q, p_parent p = Some j ∧ j ≠ i ∧ l !! j = Some q ∧ alive q;
  tr_wait : ∀ i p j q, l !! i = Some p → p_state p = SLEEPING → p_chan p = procp i →
    l !! j = Some q → p_parent q = Some i → p_state q ≠ ZOMBIE }.

(** a parent pointer always leads to a live slot *)
Lemma tree_parent_alive init l i p j :
  tree_ok init l → l !! i = Some p → p_parent p = Some j → ∃ q, l !! j = Some q ∧ alive q.
Proof.
  intros [_ Hi Hu Hp _] Hl Hpar. destruct Hi as (i0 & p0 & -> & H0 & _ & H0').
  destruct (decide (p_state p = UNUSED)) as [Hs|Hs]; [by rewrite (Hu i p) in Hpar|].
  destruct (decide (i = i0)) as [->|Hne]; [congruence|].
  destruct (Hp i p) as (j' & q & E & _ & Hq & Ha); [done|done|congruence|].
  rewrite E in Hpar. injection Hpar as <-. eauto.
Qed.

(** ** Steps that only change states and channels *)

Definition mild (l l' : list proc) : Prop :=
  ∀ j, match l !! j, l' !! j with
       | None, None => True
       | Some p, Some p' => p_parent p' = p_parent p ∧
           (p_state p' = p_state p ∧ p_chan p' = p_chan p ∨
            alive p ∧ alive p' ∧ (p_state p' = SLEEPING → p_chan p' ≠ procp j))
       | _, _ => False
       end.

Lemma mild_length l l' : mild l l' → (length l' ≤ length l)%nat.
Proof.
  intros Hm. destruct (decide (length l' ≤ length l)%nat) as [|Hn]; [done|exfalso].
  specialize (Hm (length l)). rewrite (lookup_ge_None_2 l) in Hm by done.
  destruct (lookup_lt_is_Some_2 l' (length l)) as [x Hx]; [lia|]. by rewrite Hx in Hm.
Qed.

Lemma mild_fwd l l' j p : mild l l' → l !! j = Some p → ∃ p', l' !! j = Some p' ∧
  p_parent p' = p_parent p ∧ (p_state p' = p_state p ∧ p_chan p' = p_chan p ∨
            alive p ∧ alive p' ∧ (p_state p' = SLEEPING → p_chan p' ≠ procp j)).
Proof. intros Hm Hl. specialize (Hm j). rewrite Hl in Hm. destruct (l' !! j); [eauto|done]. Qed.

Lemma mild_bwd l l' j p' : mild l l' → l' !! j = Some p' → ∃ p, l !! j = Some p ∧
  p_parent p' = p_parent p ∧ (p_state p' = p_state p ∧ p_chan p' = p_chan p ∨
            alive p ∧ alive p' ∧ (p_state p' = SLEEPING → p_chan p' ≠ procp j)).
Proof. intros Hm Hl. specialize (Hm j). rewrite Hl in Hm. destruct (l !! j); [eauto|done]. Qed.

Lemma mild_tree init l l' : mild l l' → tree_ok init l → tree_ok init l'.
Proof.
  intros Hm [T1 T2 T3 T4 T5]. split.
  - pose proof (mild_length _ _ Hm). lia.
  - destruct T2 as (i & p & -> & Hi & Ha & Hp).
    destruct (mild_fwd _ _ _ _ Hm Hi) as (p' & Hi' & E & Hs). exists i, p'.
    split_and!; [done|done| |congruence]. unfold alive in *. destruct Hs as [[-> _]|(_ & ? & _)]; done.
  - intros i p' Hi' Hu. destruct (mild_bwd _ _ _ _ Hm Hi') as (p & Hi & E & Hs). rewrite E.
    apply (T3 i p Hi). unfold alive in *. destruct Hs as [[<- _]|(_ & ? & _)]; [done|naive_solver].
  - intros i p' Hi' Hu Hne. destruct (mild_bwd _ _ _ _ Hm Hi') as (p & Hi & E & Hs).
    destruct (T4 i p Hi) as (j & q & Ep & Hji & Hj & Ha); [|done|].
    { unfold alive in *. destruct Hs as [[<- _]|(? & _)]; [done|naive_solver]. }
    destruct (mild_fwd _ _ _ _ Hm Hj) as (q' & Hj' & _ & Hs'). exists j, q'.
    split_and!; [congruence|done|done|]. unfold alive in *. destruct Hs' as [[-> _]|(_ & ? & _)]; done.
  - intros i p' j q' Hi' Hsl Hch Hj' Hpar.
    destruct (mild_bwd _ _ _ _ Hm Hi') as (p & Hi & _ & Hs).
    destruct (mild_bwd _ _ _ _ Hm Hj') as (q & Hj & Eq & Hs').
    destruct Hs as [[E1 E2]|(_ & _ & Hn)]; [|by destruct (Hn Hsl)].
    unfold alive in *. destruct Hs' as [[-> _]|(_ & [_ ?] & _)]; [|done].
    apply (T5 i p j q); congruence.
Qed.

Lemma mild_alter l i f :
  (∀ p, l !! i = Some p → p_parent (f p) = p_parent p ∧
     (p_state (f p) = p_state p ∧ p_chan (f p) = p_chan p ∨
      alive p ∧ alive (f p) ∧ (p_state (f p) = SLEEPING → p_chan (f p) ≠ procp i))) →
  mild l (alter f i l).
Proof.
  intros Hf j. rewrite list_lookup_alter. case_decide as Hd.
  - subst j. destruct (l !! i) as [p|] eqn:E; cbn; [|done]. by apply Hf.
  - destruct (l !! j); [|done]. auto.
Qed.

Lemma mild_wake c l : mild l (imap (λ _, wake c) l).
Proof.
  intros j. rewrite list_lookup_imap. destruct (l !! j) as [p|]; cbn; [|done].
  unfold wake, alive. case_decide as Hd; cbn; [|auto]. destruct Hd as [-> _].
  split; [done|]. right. split_and!; done.
Qed.

Lemma mild_refl l : mild l l.
Proof. intros j. destruct (l !! j); auto. Qed.

Lemma mild_calm l l' : calm l l' → mild l l'.
Proof.
  intros Hc j. specialize (Hc j). destruct (l !! j), (l' !! j); try done.
  destruct Hc as (-> & -> & [->|[E1 E2]]); (split; [done|]); [auto|]. right. unfold alive. rewrite E1, E2. split_and!; done.
Qed.

Lemma calm_running l l' i p : calm l l' → l !! i = Some p → p_state p = RUNNING → ∃ p', l' !! i = Some p' ∧ p_state p' = RUNNING.
Proof.
  intros Hc Hi Hr. specialize (Hc i). rewrite Hi in Hc. destruct (l' !! i) as [p'|]; [|done].
  exists p'. split; [done|]. destruct Hc as (_ & _ & [->|[? _]]); congruence.
Qed.

(** ** fork, exit and wait *)

Lemma tree_fork init l l' me cur :
  tree_ok init l → l !! me = Some cur → alive cur → fork_table me l l' → tree_ok init l'.
Proof.
  intros Ht Hme Ha [->|(i & p & g & Hi & Hu & -> & Hg)]; [done|].
  assert (Hne : i ≠ me) by (intros ->; unfold alive in Ha; naive_solver).
  destruct Ht as [T1 T2 T3 T4 T5].
  assert (Hlk : ∀ j q', alter g i l !! j = Some q' → j = i ∧ q' = g p ∨ j ≠ i ∧ l !! j = Some q').
  { intros j q'. rewrite list_lookup_alter. case_decide; [subst j; rewrite Hi; cbn; naive_solver|naive_solver]. }
  assert (Hlive : ∀ j q, l !! j = Some q → alive q → alter g i l !! j = Some q).
  { intros j q Hj Hq. rewrite list_lookup_alter_ne; [done|]. intros <-. unfold alive in Hq. naive_solver. }
  split.
  - by rewrite length_alter.
  - destruct T2 as (i0 & p0 & -> & H0 & Ha0 & Hp0). exists i0, p0. split_and!; auto.
  - intros j q' [[-> ->]|[_ Hj]]%Hlk Hs; [|by eapply T3].
    destruct Hg as [[_ ->]|[? _]]; [by apply (T3 i p)|congruence].
  - intros j q' [[-> ->]|[Hji Hj]]%Hlk Hs Hni.
    + destruct Hg as [[? _]|[_ E]]; [done|]. exists me, cur. split_and!; auto.
    + destruct (T4 j q' Hj Hs Hni) as (x & q & E & Hx & Hq & Hqa). exists x, q. auto.
  - intros a pa j q' Hpa Hsl Hch Hq' Hpar.
    apply Hlk in Hpa as [[-> ->]|[Hai Hpa]]; [destruct Hg as [[? _]|[? _]]; congruence|].
    apply Hlk in Hq' as [[-> ->]|[Hji Hj]]; [destruct Hg as [[? _]|[? _]]; congruence|].
    exact (T5 a pa j q' Hpa Hsl Hch Hj Hpar).
Qed.

Lemma tree_exit init l l' me cur :
  tree_ok init l → l !! me = Some cur → alive cur → exited me init l l' → tree_ok init l'.
Proof.
  intros Ht Hme Hac [Hno (cur' & Hme' & Hni & woke & Hw & Hs)].
  rewrite Hme in Hme'. injection Hme' as <-. pose proof Ht as [T1 T2 T3 T4 T5].
  destruct T2 as (i0 & p0 & -> & H0 & Ha0 & Hp0).
  assert (Hb : ∀ j p', l' !! j = Some p' → ∃ p, l !! j = Some p).
  { intros j p' Hj. destruct (l !! j) as [p|] eqn:E; [eauto|]. by rewrite (Hno j E) in Hj. }
  (* a live process other than the one exiting stays live *)
  assert (Hlive : ∀ j q, l !! j = Some q → alive q → j ≠ me → ∃ q', l' !! j = Some q' ∧ alive q').
  { intros j q Hj Hq Hne. destruct (Hs j q Hj) as (q' & Hj' & _ & _ & _ & Hst).
    destruct (Hst Hne) as [Hst' _].
    exists q'. split; [done|]. unfold alive in *. destruct Hst' as [->|[_ ->]]; done. }
  assert (Hi0 : i0 ≠ me) by congruence.
  destruct (Hs i0 p0 H0) as (p0' & H0l & _ & E0 & _). rewrite Hp0 in E0.
  rewrite decide_False in E0 by done.
  split.
  - destruct (decide (length l' ≤ length l)%nat) as [|Hn]; [lia|].
    destruct (lookup_lt_is_Some_2 l' (length l)) as [x Hx]; [lia|].
    rewrite Hno in Hx; [done|]. by apply lookup_ge_None_2.
  - destruct (Hlive i0 p0 H0 Ha0 Hi0) as (q' & Hq' & Hqa). rewrite H0l in Hq'. injection Hq' as <-.
    exists i0, p0'. auto.
  - intros j p' Hj' Hu. destruct (Hb j p' Hj') as [p Hj].
    destruct (Hs j p Hj) as (p'' & Hj'' & _ & E & Ez & Hst). rewrite Hj' in Hj''. injection Hj'' as <-.
    destruct (decide (j = me)) as [->|Hne]; [by rewrite Ez in Hu|].
    destruct (Hst Hne) as [[Es|[_ Es]] _]; [|congruence].
    rewrite E, (T3 j p Hj) by congruence. by rewrite decide_False.
  - intros j p' Hj' Hu Hji. destruct (Hb j p' Hj') as [p Hj].
    destruct (Hs j p Hj) as (p'' & Hj'' & _ & E & Ez & Hst). rewrite Hj' in Hj''. injection Hj'' as <-.
    destruct (T4 j p Hj) as (x & q & Ep & Hxj & Hx & Hxa); [|done|].
    { destruct (decide (j = me)) as [->|Hne]; [unfold alive in Hac; naive_solver|].
      destruct (Hst Hne) as [[Es|[Es _]] _]; congruence. }
    rewrite Ep in E. case_decide as Hd.
    + destruct (Hlive i0 p0 H0 Ha0 Hi0) as (q' & Hq' & Hqa). exists i0, q'.
      split_and!; [done|congruence|done|done].
    + destruct (Hlive x q Hx Hxa) as (q' & Hq' & Hqa); [congruence|]. exists x, q'. auto.
  - intros i p' j q' Hi' Hsl Hch Hj' Hpar Hz.
    destruct (Hb i p' Hi') as [p Hi]. destruct (Hb j q' Hj') as [q Hj].
    destruct (Hs i p Hi) as (p'' & Hi'' & Ec & _ & Ez & Hst). rewrite Hi' in Hi''. injection Hi'' as <-.
    destruct (Hs j q Hj) as (q'' & Hj'' & _ & Eq & Ezq & Hstq). rewrite Hj' in Hj''. injection Hj'' as <-.
    destruct (decide (i = me)) as [->|Hnei]; [by rewrite Ez in Hsl|].
    destruct (Hst Hnei) as [Hst' Hch']. destruct (Hch' Hsl) as [Hcp Hci].
    assert (Hsli : p_state p = SLEEPING) by (destruct Hst' as [E|[E _]]; congruence).
    assert (Hpc : p_chan p = procp i) by congruence.
    rewrite Hpar in Eq. case_decide as Hd.
    + (* [q] was a child of the exiting process: it is now init's *)
      injection Eq as ->. destruct woke; [by apply Hci|].
      destruct (Hw eq_refl j q Hj Hd) as [Hnz| ->].
      * destruct (decide (j = me)) as [->|Hnej]; [|destruct (Hstq Hnej) as [[E|[_ E]] _]; congruence].
        destruct (T4 me q Hj) as (x & q0 & E & Hx & _); [|done|congruence].
        rewrite Hme in Hj. injection Hj as <-. apply Hac.
      * destruct (T4 me q Hj) as (x & q0 & E & Hx & _); [|done|congruence].
        rewrite Hme in Hj. injection Hj as <-. apply Hac.
    + destruct (decide (j = me)) as [->|Hnej].
      * rewrite Hme in Hj. injection Hj as <-. apply Hcp. by rewrite <- Eq.
      * destruct (Hstq Hnej) as [[E|[_ E]] _]; [|congruence].
        apply (T5 i p j q); congruence.
Qed.

(** the slot of a reaped child: nobody's parent, since zombies have no children *)
Lemma tree_reap init l i p g :
  tree_ok init l → l !! i = Some p → p_state p = ZOMBIE →
  p_state (g p) = UNUSED → p_parent (g p) = None → tree_ok init (alter g i l).
Proof.
  intros Ht Hi Hz Hg Hgp. pose proof Ht as [T1 T2 T3 T4 T5].
  assert (Hlk : ∀ j q', alter g i l !! j = Some q' → j = i ∧ q' = g p ∨ j ≠ i ∧ l !! j = Some q').
  { intros j q'. rewrite list_lookup_alter. case_decide; [subst j; rewrite Hi; cbn; naive_solver|naive_solver]. }
  assert (Hlive : ∀ j q, l !! j = Some q → alive q → alter g i l !! j = Some q).
  { intros j q Hj Hq. rewrite list_lookup_alter_ne; [done|]. intros <-. unfold alive in Hq. naive_solver. }
  split.
  - by rewrite length_alter.
  - destruct T2 as (i0 & p0 & -> & H0 & Ha0 & Hp0). exists i0, p0. split_and!; auto.
  - intros j q' [[-> ->]|[_ Hj]]%Hlk Hs; [done|by eapply T3].
  - intros j q' [[-> ->]|[Hji Hj]]%Hlk Hs Hni; [done|].
    destruct (T4 j q' Hj Hs Hni) as (x & q & E & Hx & Hq & Hqa). exists x, q. auto.
  - intros a pa j q' Hpa Hsl Hch Hq' Hpar.
    apply Hlk in Hpa as [[-> ->]|[Hai Hpa]]; [congruence|].
    apply Hlk in Hq' as [[-> ->]|[Hji Hj]]; [congruence|].
    exact (T5 a pa j q' Hpa Hsl Hch Hj Hpar).
Qed.

Lemma wait_table_ok (k : kern F) me :
  tree_ok (k_initproc k) (k_procs k) →
  rets (wait me) k (λ _ k', k_initproc k' = k_initproc k ∧ tree_ok (k_initproc k) (k_procs k')).
Proof.
  intros Ht. unfold wait. krun.
  destruct (find_slot _ (k_procs k)) as [i|] eqn:E.
  - destruct (find_slot_Some _ _ _ E) as (q & Hi & Hz & _). apply bool_decide_eq_true in Hz as [_ Hz].
    krun. rewrite !list_alter_alter_eq. split; [done|].
    eapply (tree_reap _ _ i q); [done|done|done|reflexivity|reflexivity].
  - destruct (_ || _); krun; [done|]. by intros a k'.
Qed.

(** freeing memory never sleeps, so [wait] only sleeps where it means to *)
Lemma awake_kfree p : awake (kfree p).
Proof.
  unfold kfree. destruct (_ || _); [done|]. by repeat (apply awake_bind; [done|intros ?]).
Qed.

Lemma awake_deallocuvm_loop n pgdir a sz : awake (deallocuvm_loop n pgdir a sz).
Proof.
  revert a. induction n as [|n IH]; intros a; cbn [deallocuvm_loop]; [done|].
  destruct (a <? sz); [|done]. apply awake_bind; [|intros ad].
  - unfold walkpgdir, rd32. apply awake_bind; [done|]. intros v. by destruct (pbit v).
  - destruct (ad =? 0); [apply IH|]. apply awake_bind; [done|]. intros v.
    destruct (pbit v); [|apply IH]. destruct (_ =? 0); [done|].
    apply awake_bind; [apply awake_kfree|]. intros _. apply awake_bind; [done|]. intros _. apply IH.
Qed.

Lemma awake_freevm pgdir : awake (freevm pgdir).
Proof.
  unfold freevm. destruct (_ =? 0); [done|]. apply awake_bind; [|intros _; apply awake_bind].
  - unfold deallocuvm. destruct (_ <=? _); [done|].
    apply awake_bind; [apply awake_deallocuvm_loop|done].
  - generalize (Z.to_nat NPDENTRIES), 0. intros n. induction n as [|n IH]; intros i; [done|].
    cbn [freevm_loop]. apply awake_bind; [done|]. intros v. apply awake_bind; [|intros _; apply IH].
    destruct (pbit v); [apply awake_kfree|done].
  - intros _. apply awake_kfree.
Qed.

Lemma awake_in_phys {A} (m : M phys A) : awake m → awake (in_phys (F := F) m).
Proof.
  intros Hm k c k'. unfold in_phys, zoom. destruct (m (k_phys k)) eqn:E; try done. by apply Hm in E.
Qed.

Lemma awake_proc_at i : awake (proc_at (F := F) i).
Proof. unfold proc_at. apply awake_bind; [done|]. intros l. by destruct (l !! i). Qed.

Lemma wait_sleeps (k k' : kern F) me c :
  wait me k = Asleep c k' →
  c = procp me ∧ find_slot (λ p, bool_decide (p_parent p = Some me ∧ p_state p = ZOMBIE)) (k_procs k) = None ∧
  k' = with_procs (alter (λ p, set_state SLEEPING (set_chan (procp me) p)) me) k.
Proof.
  unfold wait. intros E.
  erewrite bind_Ret in E by reflexivity. unfold mbind at 1, M_bind at 1 in E.
  destruct (proc_at me k) as [cur k1|msg|c' k1|] eqn:Ep; try done.
  2: { by apply awake_proc_at in Ep. }
  assert (k1 = k) as ->.
  { revert Ep. unfold proc_at. erewrite bind_Ret by reflexivity. destruct (_ !! me); [|done].
    by intros [= _ ->]. }
  destruct (find_slot _ (k_procs k)) as [i|] eqn:Ef.
  - exfalso. revert E. apply awake_bind; [apply awake_proc_at|]. intros p.
    repeat (apply awake_bind; [first [apply awake_in_phys; apply awake_kfree || apply awake_freevm|done]|intros _]).
    done.
  - destruct (_ || _); [done|]. by injection E as <- <-.
Qed.

(** ** The state machine *)

Definition running (me : nat) (k : kern F) : Prop :=
  ∃ p, k_procs k !! me = Some p ∧ p_state p = RUNNING.

Inductive pstep : kern F → kern F → Prop :=
| ps_fork me k r k' : running me k → fork me k = Ret r k' → pstep k k'
| ps_exit me k k' : running me k → exit me k = Ret () k' → pstep k k'
| ps_wait me k r k' : running me k → wait me k = Ret r k' → pstep k k'
| ps_wait_sleep me k c k' : running me k → wait me k = Asleep c k' → pstep k k'
| ps_sleep me k c k' : running me k → (∀ i, c ≠ procp i) →
    sleep (A := unit) me c k = Asleep c k' → pstep k k'
| ps_resume me k k' : running me k → sleep_resume me k = Ret () k' → pstep k k'
| ps_wakeup k c k' : wakeup c k = Ret () k' → pstep k k'
| ps_kill k pid r k' : kill pid k = Ret r k' → pstep k k'
| ps_yield me k k' : running me k → yield me k = Ret () k' → pstep k k'
| ps_sched k c r k' : scheduler_step c k = Ret r k' → pstep k k'
| ps_growproc me k n r k' : running me k → growproc me n k = Ret r k' → pstep k k'
| ps_mmap me k n r k' : running me k → mmap me n k = Ret r k' → pstep k k'
| ps_pgfault me k cr2 r k' : running me k → pgfault (Some me) cr2 k = Ret r k' → pstep k k'.

(** the table as [userinit] leaves it *)
Definition booted (k : kern F) : Prop :=
  ∃ k0 initname, (length (k_procs k0) ≤ NPROC)%nat ∧
    (∀ i p, k_procs k0 !! i = Some p → p_state p = UNUSED ∧ p_parent p = None) ∧
    userinit initname k0 = Ret () k.

Definition kern_tree (k : kern F) : Prop := tree_ok (k_initproc k) (k_procs k).

Lemma kern_tree_mild (k k' : kern F) :
  kern_tree k → k_initproc k' = k_initproc k → mild (k_procs k) (k_procs k') → kern_tree k'.
Proof. unfold kern_tree. intros Ht -> Hm. by eapply mild_tree. Qed.

Lemma mild_quiet l i f :
  (∀ p, p_parent (f p) = p_parent p ∧ p_state (f p) = p_state p ∧ p_chan (f p) = p_chan p) →
  mild l (alter f i l).
Proof. intros Hf. apply mild_alter. intros p _. destruct (Hf p) as (? & ? & ?). auto. Qed.

Lemma mild_running l i f p :
  l !! i = Some p → alive p → p_parent (f p) = p_parent p → alive (f p) →
  (p_state (f p) = SLEEPING → p_chan (f p) ≠ procp i) → mild l (alter f i l).
Proof. intros Hi Ha Hp Ha' Hc. apply mild_alter. intros p' Hp'. naive_solver. Qed.

Lemma rets_switchuvm i (k : kern F) Q : Q () k → rets (switchuvm i) k Q.
Proof. intros HQ. unfold switchuvm. krun. repeat (destruct (_ =? 0); krun). done. Qed.

Definition mildly {A} (m : M (kern F) A) (k : kern F) : Prop :=
  rets m k (λ _ k', k_initproc k' = k_initproc k ∧ mild (k_procs k) (k_procs k')).

Lemma mildly_tree {A} (m : M (kern F) A) k a k' :
  mildly m k → m k = Ret a k' → kern_tree k → kern_tree k'.
Proof. intros Hm E Ht. destruct (Hm a k' E). by eapply kern_tree_mild. Qed.

Lemma kill_mildly pid k : mildly (kill pid) k.
Proof.
  unfold mildly, kill. krun. destruct (find_slot _ _) as [i|]; krun; [|split; [done|apply mild_refl]].
  case_decide as Hd; krun; (split; [done|]).
  - rewrite list_alter_alter_eq. rewrite list_lookup_alter_eq in H.
    destruct (k_procs k !! i) as [q|] eqn:E; [|done]. injection H as <-. cbn in Hd.
    apply (mild_running _ _ _ q); unfold alive; cbn; rewrite ?Hd; done.
  - by apply mild_quiet.
Qed.

Lemma growproc_mildly me n k : mildly (growproc me n) k.
Proof.
  assert (Hq : ∀ z (k : kern F), mildly (_ ← upd me (set_sz z); _ ← switchuvm me; mret 0) k).
  { intros z k1. unfold mildly. krun. apply rets_switchuvm. krun. split; [done|]. by apply mild_quiet. }
  assert (Hd : ∀ z (k : kern F), mildly (if z =? 0 then mret (-1) else
     _ ← upd me (set_sz z); _ ← switchuvm me; mret 0) k).
  { intros z k1. destruct (z =? 0); [|apply Hq]. unfold mildly. krun. split; [done|apply mild_refl]. }
  unfold mildly, growproc. krun. destruct (0 <? n); [|destruct (n <? 0)].
  - krun. apply (Hd _ (Build_kern _ _ _ _ _)).
  - krun. apply (Hd _ (Build_kern _ _ _ _ _)).
  - apply Hq.
Qed.

Lemma scheduler_mildly c k : mildly (scheduler_step c) k.
Proof.
  unfold mildly, scheduler_step. krun. destruct (pick c _) as [i|] eqn:E; [|krun; split; [done|apply mild_refl]].
  unfold pick in E. apply fmap_Some in E as (d & E & ->).
  destruct (find_slot_Some _ _ _ E) as (p & Hi & Hu & _). apply bool_decide_eq_true in Hu.
  rewrite lookup_drop in Hi.
  krun. apply rets_switchuvm. krun. split; [done|].
  apply (mild_running _ _ _ p); unfold alive; cbn; rewrite ?Hu; done.
Qed.

Lemma tree_wait_sleep me (k : kern F) :
  kern_tree k → running me k →
  find_slot (λ p, bool_decide (p_parent p = Some me ∧ p_state p = ZOMBIE)) (k_procs k) = None →
  kern_tree (with_procs (alter (λ p, set_state SLEEPING (set_chan (procp me) p)) me) k).
Proof.
  unfold kern_tree. kstate. intros [T1 T2 T3 T4 T5] (cur & Hme & Hs) Hz.
  set (f := λ p, set_state SLEEPING (set_chan (procp me) p)). set (l := k_procs k) in *.
  assert (Hb : ∀ j q', alter f me l !! j = Some q' → ∃ q, l !! j = Some q ∧
    p_parent q' = p_parent q ∧ (j = me ∧ q' = f q ∧ q = cur ∨ j ≠ me ∧ q' = q)).
  { intros j q'. rewrite list_lookup_alter. case_decide as Hd; [subst j; rewrite Hme; cbn|]; naive_solver. }
  assert (Hl : ∀ j q, l !! j = Some q → alive q → ∃ q', alter f me l !! j = Some q' ∧ alive q' ∧
    p_parent q' = p_parent q).
  { intros j q Hj Ha. rewrite list_lookup_alter. case_decide as Hd; [subst j|]; rewrite Hj.
    - eexists. by split_and!.
    - eauto. }
  split.
  - by rewrite length_alter.
  - destruct T2 as (i & p & -> & Hi & Ha & Hp). destruct (Hl i p Hi Ha) as (p' & Hi' & Ha' & Hp').
    exists i, p'. split_and!; [done..|congruence].
  - intros i p' (p & Hi & -> & [(_ & -> & _)|[_ ->]])%Hb; [done|]. by apply (T3 i).
  - intros i p' (p & Hi & -> & Hc)%Hb Hu Hni.
    destruct (T4 i p Hi) as (j & q & Ep & Hji & Hj & Ha); [|done|].
    { destruct Hc as [(_ & _ & ->)|[_ <-]]; [by rewrite Hs|done]. }
    destruct (Hl j q Hj Ha) as (q' & ? & ? & _). eauto 8.
  - intros i p' j q' (p & Hi & _ & Hc)%Hb Hsl Hch (q & Hj & -> & Hc')%Hb Hpar.
    destruct Hc' as [(_ & -> & _)|[_ ->]]; [done|].
    destruct Hc as [(-> & _)|[_ ->]]; [|by apply (T5 i p j q)].
    intros Hzq. apply (find_slot_None _ _ Hz) in Hj. by apply bool_decide_eq_false in Hj as [].
Qed.

Lemma tree_booted (k : kern F) : booted k → kern_tree k.
Proof.
  intros (k0 & initname & Hlen & Hu & E). revert E.
  enough (Hr : rets (userinit initname) k0 (λ _ k, kern_tree k)) by apply Hr.
  unfold userinit. apply rets_bind. eapply rets_mono; [apply allocproc_table|].
  intros [i|] k1 [E1 Ht]; [|krun].
  destruct Ht as (p & g & Hi & _ & El & Hg). krun. destruct (_ =? 0); krun.
  rewrite El. unfold kern_tree. kcbn. rewrite !list_alter_alter_eq.
  match goal with |- tree_ok _ (alter ?f i _) => set (h := f) end.
  assert (Hh : p_state (h p) = RUNNABLE ∧ p_parent (h p) = None).
  { split; [done|]. change (p_parent (g p) = None). rewrite Hg. by apply (Hu i). }
  destruct Hh as [Hs Hp]. clearbody h.
  assert (Hlk : ∀ j q, alter h i (k_procs k0) !! j = Some q →
    j = i ∧ q = h p ∨ j ≠ i ∧ p_state q = UNUSED ∧ p_parent q = None).
  { intros j q. rewrite list_lookup_alter. case_decide as Hd; [subst j; rewrite Hi; cbn; naive_solver|].
    intros Hj. right. split; [done|]. by apply (Hu j). }
  split.
  - by rewrite length_alter.
  - exists i, (h p). unfold alive. rewrite list_lookup_alter_eq, Hi, Hs. split_and!; done.
  - intros j q [[-> ->]|(_ & _ & ?)]%Hlk; done.
  - intros j q [[-> ->]|(_ & ? & _)]%Hlk; [congruence|done].
  - intros ? ? ? ? [[-> ->]|(_ & ? & _)]%Hlk; congruence.
Qed.

Lemma pstep_tree (k k' : kern F) : pstep k k' → kern_tree k → kern_tree k'.
Proof.
  intros Hst Ht. destruct Hst as
    [me k r k' Hrun E|me k k' Hrun E|me k r k' Hrun E|me k c k' Hrun E|me k c k' Hrun Hc E
    |me k k' Hrun E|k c k' E|k pid r k' E|me k k' Hrun E|k c r k' E|me k n r k' Hrun E
    |me k n r k' Hrun E|me k cr2 r k' Hrun E].
  - destruct Hrun as (cur & Hme & Hs). apply (fork_table_ok k me) in E as [E1 Hf].
    unfold kern_tree. rewrite E1. eapply tree_fork; [done|done|by unfold alive; rewrite Hs|done].
  - destruct Hrun as (cur & Hme & Hs). apply (exit_table_ok k me) in E as (E1 & l1 & Hc & Hf); [|apply Ht].
    destruct (calm_running _ _ _ _ Hc Hme Hs) as (cur1 & Hme1 & Hs1). unfold kern_tree. rewrite E1.
    eapply (tree_exit _ l1); [by eapply mild_tree; [apply mild_calm|]|done|by unfold alive; rewrite Hs1|done].
  - apply (wait_table_ok k me) in E as [E1 Hf]; [|done]. unfold kern_tree. by rewrite E1.
  - apply wait_sleeps in E as (-> & Hz & ->). by apply tree_wait_sleep.
  - injection E as <-. destruct Hrun as (cur & Hme & Hs). eapply kern_tree_mild; [done|done|].
    apply (mild_running _ _ _ cur); unfold alive; cbn; rewrite ?Hs; done.
  - injection E as <-. destruct Hrun as (cur & Hme & Hs). eapply kern_tree_mild; [done|done|].
    apply (mild_running _ _ _ cur); unfold alive; cbn; rewrite ?Hs; done.
  - injection E as <-. eapply kern_tree_mild; [done|done|apply mild_wake].
  - by eapply mildly_tree; [apply kill_mildly| |].
  - injection E as <-. destruct Hrun as (cur & Hme & Hs). eapply kern_tree_mild; [done|done|].
    apply (mild_running _ _ _ cur); unfold alive; cbn; rewrite ?Hs; done.
  - by eapply mildly_tree; [apply scheduler_mildly| |].
  - by eapply mildly_tree; [apply growproc_mildly| |].
  - eapply mildly_tree; [|done|done]. unfold mildly, mmap. krun. split; [done|]. by apply mild_quiet.
  - eapply mildly_tree; [|done|done]. unfold mildly, pgfault. krun. apply rets_switchuvm. krun.
    split; [done|apply mild_refl].
Qed.

(** C11: In every table reachable from the one [userinit] leaves (or from any
    table with the property below whose length fits) by forks, exits, waits, sleeps,
    wakeups, kills, yields, scheduling, and memory calls: every process in use
    other than init has a parent, different from itself, that is neither unused
    nor a zombie (so there is always a process that can reap it), and a process
    asleep in [wait] has no zombie child (no wakeup of a parent is lost). *)
Theorem reachable_tree (k0 k : kern F) :
  booted k0 ∨ kern_tree k0 → rtc pstep k0 k → kern_tree k ∧
  (∀ i p, k_procs k !! i = Some p → p_state p ≠ UNUSED → k_initproc k ≠ Some i →
     ∃ j q, p_parent p = Some j ∧ j ≠ i ∧ k_procs k !! j = Some q ∧
       p_state q ≠ UNUSED ∧ p_state q ≠ ZOMBIE) ∧
  (∀ i p j q, k_procs k !! i = Some p → p_state p = SLEEPING → p_chan p = procp i →
     k_procs k !! j = Some q → p_parent q = Some i → p_state q ≠ ZOMBIE).
Proof.
  intros Hb Hr. assert (Ht : kern_tree k).
  { assert (Ht : kern_tree k0) by (destruct Hb; [by apply tree_booted|done]). clear Hb. induction Hr as [|? ? ? Hs _ IH]; [done|]. by apply IH, (pstep_tree _ _ Hs). }
  split; [done|]. destruct Ht as [_ _ _ T4 T5]. auto.
Qed.

End proctree.
