(* ===== verification/ProcTrap.v ===== *)
(** * trap.c, scheduling and signals: who runs, and who may come back *)

From S2P Require Import Prelude Mmu CString Kalloc Vm Proc Trap ProcMem ProcState.

(** ** The scheduler is fair *)

Lemma pick_le c l i p :
  (c ≤ i)%nat → l !! i = Some p → p_state p = RUNNABLE → ∃ j, pick c l = Some j ∧ (c ≤ j ≤ i)%nat.
Proof.
  intros Hc Hi Hr. unfold pick.
  replace (l !! i) with (drop c l !! (i - c)%nat) in Hi by (rewrite lookup_drop; f_equal; lia).
  destruct (find_slot _ (drop c l)) as [d|] eqn:E.
  - exists (c + d)%nat. split; [done|]. destruct (find_slot_Some _ _ _ E) as (q & Hd & _ & Hmin).
    destruct (decide (d ≤ i - c)%nat) as [|Hn]; [lia|].
    specialize (Hmin (i - c)%nat p ltac:(lia) Hi). by rewrite bool_decide_eq_true_2 in Hmin.
  - apply (find_slot_None _ _ E) in Hi. by rewrite bool_decide_eq_true_2 in Hi.
Qed.

Lemma pick_ge c l j : pick c l = Some j → (c ≤ j < length l)%nat.
Proof.
  unfold pick. intros (d & E & ->)%fmap_Some. destruct (find_slot_Some _ _ _ E) as (q & Hd & _).
  apply lookup_lt_Some in Hd. rewrite length_drop in Hd. lia.
Qed.

Definition runnable_at (i : nat) (l : list proc) : Prop :=
  (length l ≤ NPROC)%nat ∧ ∃ p, l !! i = Some p ∧ p_state p = RUNNABLE.

Lemma scheduler_reaches i ls : Forall (runnable_at i) ls → ∀ c, (c ≤ i)%nat →
  (i - c < length ls)%nat → i ∈ scheduler c ls.
Proof.
  induction 1 as [|l ls [_ (p & Hi & Hr)] _ IH]; intros c Hc Hlen; cbn [length] in Hlen; [lia|].
  destruct (pick_le c l i p Hc Hi Hr) as (j & E & Hj). cbn. rewrite E.
  destruct (decide (j = i)) as [->|Hne]; [by left|]. right. apply IH; lia.
Qed.

Lemma scheduler_wraps i ls : Forall (runnable_at i) ls → ∀ c, (i < c)%nat → (c ≤ NPROC)%nat →
  (NPROC - c + i + 1 < length ls)%nat → i ∈ scheduler c ls.
Proof.
  induction 1 as [|l ls [Hle _] Hf IH]; intros c Hc Hc' Hlen; cbn [length] in Hlen; [lia|]. cbn.
  destruct (pick c l) as [j|] eqn:E; [|by apply scheduler_reaches; [|lia|lia]].
  apply pick_ge in E. right. apply IH; lia.
Qed.

(** C29: No runnable process starves: whatever the processes that run in between
    do to the table, a process that stays runnable is switched to before the
    scheduler has looked for a next process [NPROC + 1] times, wherever in the
    table it is. *)
Theorem scheduler_fair i c ls :
  (c ≤ NPROC)%nat → Forall (runnable_at i) ls → (NPROC < length ls)%nat → i ∈ scheduler c ls.
Proof.
  intros Hc Hf Hlen.
  assert (Hi : (i < NPROC)%nat).
  { destruct Hf as [|l ls' [Hle (p & Hp%lookup_lt_Some & _)] _]; cbn [length] in Hlen; lia. }
  destruct (decide (c ≤ i)%nat); [apply scheduler_reaches|apply scheduler_wraps]; done || lia.
Qed.

(** ** The interrupt descriptor table *)

(** [tvinit] makes only the system-call gate reachable by a user's [int]
    instruction, makes it a trap gate and every other one an interrupt gate
    (which the processor enters with interrupts off), and every gate enters the
    kernel's code segment at its vector. *)
Theorem tvinit_gates vectors i v g :
  vectors !! i = Some v → is_u32 v → tvinit vectors !! i = Some g →
  gate_offset g = v ∧ gd_cs g = Z.shiftl SEG_KCODE 3 ∧ gd_p g = 1 ∧ gd_s g = 0 ∧
  gd_dpl g = (if decide (i = Z.to_nat T_SYSCALL) then DPL_USER else 0) ∧
  gd_type g = (if decide (i = Z.to_nat T_SYSCALL) then STS_TG32 else STS_IG32).
Proof.
  intros Hv Hr. unfold tvinit. rewrite list_lookup_insert. case_decide as Hd.
  - destruct Hd as [<- _]. rewrite (list_lookup_total_correct _ _ _ Hv). intros [= <-].
    rewrite gate_roundtrip by done. rewrite !decide_True by done. done.
  - rewrite list_lookup_fmap, Hv. intros [= <-]. rewrite gate_roundtrip by done.
    apply lookup_lt_Some in Hv.
    rewrite !(decide_False (P := i = _)); [done| |]; intros ->; apply Hd; rewrite length_fmap; done.
Qed.

(** ** A killed process does not come back *)

Section killed.
  Context `{KI : KernelImage} `{PI : ProcImage} {F : Type} `{FO : FileOps F}.
  Context (ticks_addr : Z) (syscall : nat → M (kern F * Z) bool).
  Context (ideintr kbdintr uartintr : M (kern F) unit).

(** user mode: the privilege bits of the saved code segment *)
Definition from_user (s : kern F * Z) (tf : Z) : Prop :=
  Z.land (u16 (load32 (mem (k_phys s.1)) (tf + TF_cs))) 3 = DPL_USER.

Definition spared (i : nat) (r : trap_end) (s : kern F * Z) : Prop :=
  r = Tret → ∃ p, k_procs s.1 !! i = Some p ∧ p_killed p = false.

Lemma rets_in_kern {A} (m : M (kern F) A) s Q :
  rets m s.1 (λ a k, Q a (k, s.2)) → rets (in_kern m) s Q.
Proof.
  intros HQ a s'. unfold in_kern, zoom. destruct (m s.1) eqn:E; try done. intros [= -> <-]. by apply HQ.
Qed.

Lemma rets_rd32 a (s : kern F * Z) Q :
  Q (load32 (mem (k_phys s.1)) a) s → rets (in_kern (in_phys (rd32 a))) s Q.
Proof.
  destruct s as [[[] ? ? ? ?] t]. intros HQ. apply rets_in_kern. intros v k [= <- <-]. exact HQ.
Qed.

Lemma must_exit_spared i cs (s : kern F * Z) :
  Z.land cs 3 = DPL_USER →
  rets (in_kern (must_exit (Some i) cs)) s (λ x s', s' = s ∧ (x = false →
    ∃ p, k_procs s.1 !! i = Some p ∧ p_killed p = false)).
Proof.
  intros Hcs. apply rets_in_kern. unfold must_exit. krun. destruct s as [k t]. split; [done|].
  rewrite Hcs. rewrite andb_true_r. eauto.
Qed.

Lemma trap_resume_spared i cs (s : kern F * Z) :
  Z.land cs 3 = DPL_USER → rets (trap_resume (Some i) cs) s (spared i).
Proof.
  intros Hcs. unfold trap_resume. apply rets_bind.
  eapply rets_mono; [by apply must_exit_spared|]. intros [|] ? [-> Hx]; cbn beta iota.
  - apply rets_bind, rets_any. intros _ s1. by apply rets_ret.
  - apply rets_ret. intros _. auto.
Qed.

Lemma trap_tail_spared i trapno cs s :
  Z.land cs 3 = DPL_USER → rets (trap_tail (Some i) trapno cs) s (spared i).
Proof.
  intros Hcs. unfold trap_tail. apply rets_bind.
  eapply rets_mono; [by apply must_exit_spared|]. intros [|] ? [-> _]; cbn beta iota.
  - apply rets_bind, rets_any. intros _ s1. by apply rets_ret.
  - apply rets_bind, rets_any. intros p s1. destruct (_ && _); [|by apply trap_resume_spared].
    apply rets_bind, rets_any. intros _ s2. by apply rets_ret.
Qed.

Lemma syscall_trap_spared i tf s : rets (syscall_trap syscall (Some i) tf) s (spared i).
Proof.
  assert (Hend : ∀ s, rets (p ← in_kern (proc_at i);
    if p_killed p then _ ← in_kern (exit i); mret Texit else mret Tret) s (spared i)).
  { intros s1. apply rets_bind, rets_in_kern, rets_proc_at. intros p Hp.
    destruct (p_killed p) eqn:Hk; [|apply rets_ret; intros _; eauto].
    apply rets_bind, rets_any. intros _ s2. by apply rets_ret. }
  unfold syscall_trap. apply rets_bind, rets_any. intros p s1.
  destruct (p_killed p); apply rets_bind, rets_any; intros _ s2; [by apply rets_ret|].
  apply rets_bind, rets_any. intros [] s3; [apply Hend|by apply rets_ret].
Qed.

(** C27: A killed process never returns to user mode: when a trap taken from user
    mode ends by returning (rather than by exiting or by giving up the
    processor), and when the rest of the trap of a process that gave up the
    processor does, the process is not marked as killed.  This holds whatever
    the system call and the interrupt handlers do. *)
Theorem killed_never_returns cpu0 i cr2 tf s s' :
  from_user s tf →
  trap ticks_addr syscall ideintr kbdintr uartintr cpu0 (Some i) cr2 tf s = Ret Tret s' ∨
  trap_resume (Some i) (u16 (load32 (mem (k_phys s.1)) (tf + TF_cs))) s = Ret Tret s' →
  ∃ p, k_procs s'.1 !! i = Some p ∧ p_killed p = false.
Proof.
  intros Hu [E|E]; [|by apply (trap_resume_spared i _ s Hu) in E; apply E].
  revert E. enough (Hr : rets (trap ticks_addr syscall ideintr kbdintr uartintr cpu0 (Some i) cr2 tf) s (spared i)).
  { intros E. by apply Hr in E; apply E. }
  unfold trap. apply rets_bind, rets_rd32, rets_bind, rets_rd32. cbv zeta.
  pose proof (λ s1 no, trap_tail_spared i no _ s1 Hu) as Ht.
  repeat match goal with |- rets (if ?b then _ else _) _ _ => destruct b end.
  all: try apply Ht; try apply syscall_trap_spared; try apply rets_panic.
  all: apply rets_bind, rets_any; intros _ s1; apply Ht.
Qed.

(** ** kill *)

Lemma killed_alter (f : proc → proc) i (l : list proc) j :
  (∀ p, p_killed (f p) = p_killed p) → p_killed <$> alter f i l !! j = p_killed <$> l !! j.
Proof.
  intros Hf. rewrite list_lookup_alter. case_decide as Hd; [subst j|done].
  destruct (l !! i); cbn; [by rewrite Hf|done].
Qed.

Lemma fork_killed me (k : kern F) :
  rets (fork me) k (λ _ k', ∀ j, p_killed <$> k_procs k' !! j = p_killed <$> k_procs k !! j).
Proof.
  unfold fork, allocproc. krun. destruct (find_slot _ _) as [i|]; [|by krun].
  krun. destruct (_ =? 0); krun.
  - rewrite !list_alter_alter_eq. intros j. by apply killed_alter.
  - destruct (_ =? 0); krun; rewrite !list_alter_alter_eq; intros j; by apply killed_alter.
Qed.

(** [kill] does not look at the state of the slot it finds: [kill(0)] (and a
    [kill] of a pid that is left in an unused slot) succeeds on an unused slot
    and leaves it marked, and since neither [allocproc] nor [fork] clears the
    mark, a child that gets this slot later is already killed. *)
Theorem kill_marks_unused_slot (k : kern F) pid i p :
  find_slot (λ p, p_pid p =? pid) (k_procs k) = Some i →
  k_procs k !! i = Some p → p_state p = UNUSED →
  ∃ k', kill pid k = Ret 0 k' ∧
    ∀ me r k'', fork me k' = Ret r k'' → ∃ q, k_procs k'' !! i = Some q ∧ p_killed q = true.
Proof.
  intros Hf Hi Hu. exists (with_procs (alter (set_killed true) i) k). split.
  - unfold kill. erewrite bind_Ret by reflexivity. rewrite Hf.
    erewrite bind_Ret by reflexivity. kstate.
    erewrite bind_Ret by (apply (proc_at_Ret _ _ _ _ _ _ (set_killed true p));
      by rewrite list_lookup_alter_eq, Hi).
    rewrite decide_False by (cbn; congruence). done.
  - intros me r k'' E. apply fork_killed in E. specialize (E i). cbn [k_procs with_procs] in E.
    rewrite list_lookup_alter_eq, Hi in E. cbn in E.
    destruct (k_procs k'' !! i) as [q|]; [|done]. exists q. split; [done|]. by injection E.
Qed.

End killed.
