(* ===== verification/ProcExamples.v ===== *)
(** * A small concrete kernel

    The machine of VmExamples with a running process in slot 0 (whose memory is
    [demo1]'s address space), a zombie child of it in slot 1 and an unused slot,
    on which the theorems about proc.c and trap.c are instantiated.  Files and
    inodes are a ledger of references. *)

From S2P Require Import Prelude Mmu CString Kalloc Vm VmSpec VmUser VmAlloc VmGrow.
From S2P Require Import VmKernel VmCopy VmExamples Proc Trap ProcMem ProcFork ProcWait.
From S2P Require Import ProcLazy ProcState ProcTree ProcTrap.

#[local] Opaque tables uframes.

(** ** A ledger of references *)

Definition ledger : Type := list Z * list Z.

Fixpoint cross (x : Z) (l : list Z) : list Z :=
  match l with
  | [] => []
  | y :: l => if y =? x then l else y :: cross x l
  end.

#[export] Instance ledger_ops : FileOps ledger := {|
  filedup x := λ f, Ret x (x :: f.1, f.2);
  fileclose me x := in_fs (λ f, Ret () (cross x f.1, f.2));
  idup x := λ f, Ret x (f.1, x :: f.2);
  iput pid x := λ f, Ret () (f.1, cross x f.2);
  begin_op := mret ();
  end_op := mret ();
  namei _ := λ f, Ret 1 (f.1, 1 :: f.2) |}.

#[export, program] Instance ledger_refs : FileRefs ledger := {|
  fs_inv f fr ir := f.1 ≡ₚ fr ∧ f.2 ≡ₚ ir |}.
Next Obligation. intros f fr fr' ir ir' [-> ->] <- <-. done. Qed.
Next Obligation. intros f fr ir x [E1 E2] _ _. eexists. split; [done|]. cbn. by rewrite E1. Qed.
Next Obligation. intros f fr ir x [E1 E2] _ _. eexists. split; [done|]. cbn. by rewrite E2. Qed.

#[export] Instance ledger_calm : FileCalm ledger.
Proof. intros me x k. apply rets_in_fs. intros a f. split; [done|]. by left. Qed.

(** ** The table *)

Definition name16 : list Z := replicate 16 0.
Definition parent : proc :=
  {| p_sz := 4096; p_pgdir := pg 0; p_kstack := pg 5; p_state := RUNNING; p_pid := 1;
     p_parent := None; p_tf := pg 5 + 4020; p_context := 0; p_chan := 0; p_killed := false;
     p_ofile := 9 :: replicate 15 0; p_cwd := 1; p_name := name16 |}.
Definition zombie : proc :=
  {| p_sz := 0; p_pgdir := pg 7; p_kstack := pg 6; p_state := ZOMBIE; p_pid := 2;
     p_parent := Some 0%nat; p_tf := pg 6 + 4020; p_context := 0; p_chan := 0; p_killed := false;
     p_ofile := replicate 16 0; p_cwd := 0; p_name := name16 |}.
Definition demok : kern ledger :=
  {| k_phys := demo1; k_fs := ([9], [1]); k_procs := [parent; zombie; proc0];
     k_nextpid := 3; k_initproc := Some 0%nat |}.

Lemma demo_pages' : Forall is_page [pg 5; pg 6; pg 7].
Proof. apply (bool_decide_unpack _). vm_compute. done. Qed.

Lemma demo1_ok' :
  as_ok demo1 [pg 2; pg 3] (pg 0) [pg 5; pg 6; pg 7] ∧
  (∀ va, is_u32 va → pte (mem demo1) (pg 0) va =
    if decide (va / PGSIZE = 0) then mkpte (V2P (pg 4)) (Z.lor PTE_W PTE_U) else 0) ∧
  same_outside [pg 1; pg 0] demo_mem (mem demo1).
Proof.
  apply demo1_ok; [apply demo_pages'|]. apply (bool_decide_unpack _). vm_compute. done.
Qed.

(** the zombie's directory is empty *)
Lemma zombie_owned : owned (mem demo1) (pg 7) = [pg 7].
Proof.
  destruct (zero_dir (mem demo1) (pg 7)) as [Ht Hp].
  { intros b Hb. destruct demo1_ok' as (_ & _ & Hs). rewrite (Hs b).
    - unfold demo_mem. rewrite load8_store8, !load8_store32.
      rewrite !decide_False; [done|..]; revert Hb; unfold pg; mmu_consts; lia.
    - intros p Hp. rewrite !elem_of_cons in Hp. revert Hb. unfold pg in *. mmu_consts.
      destruct Hp as [->|[->|Hp]]; [lia..|by apply not_elem_of_nil in Hp]. }
  unfold owned. rewrite Ht, uframes_nil; [done|]. intros va Hva _. by rewrite Hp.
Qed.

Lemma demok_owned :
  all_owned (mem demo1) (k_procs demok) = pg 5 :: owned (mem demo1) (pg 0) ++ [pg 6; pg 7].
Proof.
  unfold all_owned, powned. cbn [fmap list_fmap k_procs demok p_state p_kstack p_pgdir parent zombie].
  rewrite !decide_False, decide_True by done. rewrite zombie_owned. cbn [mjoin list_join app]. done.
Qed.

Lemma demok_ok : kern_ok demok [pg 2; pg 3] [] [] [].
Proof.
  assert (Hperm : ∀ (T U : list Z) a b c d, d :: T ++ U ++ [a; b; c] ≡ₚ (a :: (d :: T ++ U) ++ [b; c]) ++ [])
    by (intros; solve_Permutation).
  destruct demo1_ok' as ([V1 V2 V3] & _ & _). split.
  - change (k_phys demok) with demo1. split; [done|rewrite demok_owned..]; unfold owned.
    + eapply Permutation_Forall; [apply Hperm|exact V2].
    + eapply NoDup_Permutation_proper; [|exact V3]. apply Permutation_app_head. symmetry. apply Hperm.
  - by vm_compute.
  - repeat apply Forall_cons_2; [..|apply Forall_nil_2]; split; cbn; try done; try naive_solver;
      intros _; unfold pg, TF_SIZE; mmu_consts; lia.
Qed.

Lemma demok_absent va : is_u32 va → 4096 ≤ va → pbit (pte (mem demo1) (pg 0) va) = false.
Proof.
  intros Hva Hle. rewrite (proj2 demo1_facts) by done. rewrite decide_False; [done|].
  revert Hva Hle. mmu_consts. zdm.
Qed.

(** ** Instances *)

Example fork_spec_witness :
  ∃ r k' fl', fork 0 demok = Ret r k' ∧ kern_ok k' fl' [] [] [] ∧
    fl' ++ all_owned (mem (k_phys k')) (k_procs k') ≡ₚ
      [pg 2; pg 3] ++ all_owned (mem demo1) (k_procs demok) ∧
    ((touched (mem demo1) (pg 0) 4096 ∧ ∃ i child, r = 3 ∧ forked demok 0 parent k' i child) ∨
     (r = -1 ∧ fl' ≡ₚ [pg 2; pg 3] ∧
      (find_slot is_unused (k_procs demok) = None ∨
       Z.of_nat (length [pg 2; pg 3]) ≤ 1027 + (4096 + PGSIZE - 1) / PGSIZE) ∧
      ∀ j p, k_procs demok !! j = Some p → p_state p ≠ UNUSED → k_procs k' !! j = Some p)).
Proof.
  destruct (fork_spec demok [pg 2; pg 3] [] [] [] 0 parent demok_ok) as [H|[Hn _]];
    [done|done|done|mmu_consts; cbn; lia|unfold NPROC; cbn; lia|cbn; lia|exact H|]. destruct (Hn demo1_touched).
Defined.

Example wait_spec_witness :
  (∃ i p k' fl', find_slot (is_zombie_of 0) (k_procs demok) = Some i ∧ k_procs demok !! i = Some p ∧
     wait 0 demok = Ret (p_pid p) k' ∧ kern_ok k' fl' [] [] [] ∧
     k_procs k' = alter reaped i (k_procs demok) ∧
     fl' ≡ₚ powned (mem demo1) p ++ [pg 2; pg 3] ∧
     fl' ++ all_owned (mem (k_phys k')) (k_procs k') ≡ₚ
       [pg 2; pg 3] ++ all_owned (mem demo1) (k_procs demok)).
Proof.
  destruct (wait_spec demok [pg 2; pg 3] [] [] [] 0 parent demok_ok) as [?|[? _]]; [done|done|done].
Defined.

Example mmap_touch_witness :
  ∃ k1, mmap 0 8192 demok = Ret 4096 k1 ∧
    numvp 0 k1 = Ret 3 k1 ∧ ∃ k2, pgfault (Some 0%nat) 5000 k1 = Ret 1 k2.
Proof.
  destruct (mmap_touch demok [pg 2; pg 3] [] [] [] 0 parent 8192 5000 demok_ok)
    as (_ & _ & k1 & H1 & _ & _ & H2 & _ & _ & r & k2 & fl2 & H3 & _ & H4);
    [done|done|cbn; lia|mmu_consts; cbn; lia|cbn; lia| |].
  - apply demok_absent; [by mmu_consts|lia].
  - exists k1. split; [exact H1|]. split; [exact H2|]. exists k2.
    destruct H4 as [[-> _]|(_ & Hl & _)]; [done|]. cbn in Hl. lia.
Defined.

Example growproc_grow_witness :
  ∃ r k' fl', growproc 0 5000 demok = Ret r k' ∧ kern_ok k' fl' [] [] [].
Proof.
  destruct (growproc_grow demok [pg 2; pg 3] [] [] [] 0 parent 5000 demok_ok)
    as (r & k' & fl' & H1 & H2 & _); [done|done|cbn; lia|lia|mmu_consts; cbn; lia| |by eauto].
  intros va Hva Hr. apply demok_absent; [done|]. revert Hva Hr. unfold grow_lo. cbn. mmu_consts. zdm.
Defined.

Example growproc_shrink_witness :
  ∃ k' fl', growproc 0 (-4096) demok = Ret (-1) k' ∧ kern_ok k' fl' [] [] [] ∧
    k_procs k' = alter (set_sz 4096) 0%nat (k_procs demok) ∧
    uread (mem (k_phys k')) (pg 0) 5 = None.
Proof.
  destruct (growproc_shrink demok [pg 2; pg 3] [] [] [] 0 parent (-4096) demok_ok)
    as (k' & fl' & H1 & H2 & H3 & _ & H5); [done|done|mmu_consts; cbn; lia|lia|cbn; lia|].
  exists k', fl'. split; [exact H1|]. split; [done|]. split; [exact H3|].
  specialize (H5 5 ltac:(mmu_consts; lia) ltac:(mmu_consts; lia)). rewrite decide_True in H5; [exact H5|].
  unfold grow_lo. cbn. mmu_consts. zdm.
Defined.

Lemma demok_tree : kern_tree demok.
Proof.
  unfold kern_tree, alive. split.
  - cbn. unfold NPROC. lia.
  - exists 0%nat, parent. done.
  - intros [|[|[|i]]] p [= <-]; done.
  - intros [|[|[|i]]] p [= <-] Hs Hn; [done| |done]. exists 0%nat, parent. unfold alive. cbn. done.
  - intros [|[|[|i]]] p j q [= <-] Hs; done.
Qed.

Example reachable_tree_witness :
  ∃ k : kern ledger, rtc pstep demok k ∧ kern_tree k ∧ p_state <$> k_procs k !! 0%nat = Some RUNNABLE.
Proof.
  set (k := with_procs (alter (set_state RUNNABLE) 0%nat) demok).
  assert (Hr : rtc pstep demok k).
  { apply rtc_once. apply (ps_yield 0); [by exists parent|done]. }
  exists k. destruct (reachable_tree demok k (or_intror demok_tree) Hr) as (Ht & _). done.
Defined.

Example scheduler_fair_witness :
  0%nat ∈ scheduler 2 (replicate 65 [set_state RUNNABLE parent; zombie]).
Proof.
  apply (scheduler_fair 0 2); [unfold NPROC; lia| |rewrite length_replicate; unfold NPROC; lia].
  apply Forall_replicate. split; [cbn; unfold NPROC; lia|]. by exists (set_state RUNNABLE parent).
Defined.

Example tvinit_gates_witness :
  let g := SETGATE true (Z.shiftl SEG_KCODE 3) 0x80105aee DPL_USER in
  gate_offset g = 0x80105aee ∧ gd_dpl g = DPL_USER ∧ gd_type g = STS_TG32.
Proof.
  destruct (tvinit_gates (replicate 256 0x80105aee) 64 0x80105aee
    (SETGATE true (Z.shiftl SEG_KCODE 3) 0x80105aee DPL_USER)) as (H1 & _ & _ & _ & H2 & H3);
    [reflexivity|mmu_consts; lia|reflexivity|]. done.
Defined.

(** the frame of a spurious interrupt taken in user mode *)
Definition user_frame : ram := store32 (pg 5 + TF_cs) 27 (store32 (pg 5 + TF_trapno) 39 ∅).
Definition demot : kern ledger :=
  {| k_phys := {| mem := user_frame; use_lock := true; freelist := 0 |}; k_fs := ([9], [1]);
     k_procs := [parent]; k_nextpid := 3; k_initproc := Some 0%nat |}.

Example killed_never_returns_witness :
  trap 0 (λ _, mret true) (mret ()) (mret ()) (mret ()) true (Some 0%nat) 0 (pg 5) (demot, 7)
    = Ret Tret (demot, 7) ∧
  ∃ p, k_procs demot !! 0%nat = Some p ∧ p_killed p = false.
Proof.
  assert (E : trap 0 (λ _, mret true) (mret ()) (mret ()) (mret ()) true (Some 0%nat) 0 (pg 5) (demot, 7)
    = Ret Tret (demot, 7)) by (vm_compute; reflexivity).
  split; [exact E|].
  apply (killed_never_returns 0 (λ _, mret true) (mret ()) (mret ()) (mret ()) true 0%nat 0 (pg 5) (demot, 7) (demot, 7));
    [vm_compute; reflexivity|left; exact E].
Defined.

Example kill_marks_unused_slot_witness :
  ∃ k', kill 0 demok = Ret 0 k' ∧
    ∀ me r k'', fork me k' = Ret r k'' → ∃ q, k_procs k'' !! 2%nat = Some q ∧ p_killed q = true.
Proof. apply (kill_marks_unused_slot demok 0 2 proc0); reflexivity. Defined.
