(* ===== verification/Syscall.v ===== *)
(** * syscall.c and sysproc.c: system calls and their arguments

    The kernel reads the arguments of a system call from user memory through the
    page table of the running process.  A load from a page that is not present
    takes a page fault in the kernel; the handler of trap.c maps the page and the
    load is tried again.  When the handler cannot map it the same fault is taken
    for ever ([NoFuel]).  The state is the kernel state with [ticks], as in Trap. *)

From S2P Require Import Prelude Mmu CString Kalloc Vm VmCopy Proc Trap.

Section syscall.
  Context `{KernelImage} `{ProcImage} {F : Type} `{FileOps F}.
  Context (ticks_addr : Z).

Abbreviation K := (M (kern F)).
Abbreviation T := (M (kern F * Z)).

(** ** Loads from user memory *)

Definition uload8_now (me : nat) (va : Z) : K (option Z) :=
  p ← proc_at me;
  in_phys (gets (λ s, uread (mem s) (p_pgdir p) va)).

(** a fault that is taken again and again *)
Definition stuck {A} : K A := λ _, NoFuel.

Definition uload8 (me : nat) (va : Z) : K Z :=
  v ← uload8_now me va;
  match (v : option Z) with
  | Some b => mret b
  | None =>
      _ ← (pgfault (Some me) va : K Z);
      v ← uload8_now me va;
      match (v : option Z) with Some b => mret b | None => stuck end
  end.

Definition uload32 (me : nat) (va : Z) : K Z :=
  b0 ← uload8 me va; b1 ← uload8 me (va + 1); b2 ← uload8 me (va + 2); b3 ← uload8 me (va + 3);
  mret (b0 + 2 ^ 8 * b1 + 2 ^ 16 * b2 + 2 ^ 24 * b3).

(** ** Arguments: [None] is the result -1 *)

Definition fetchint (me : nat) (addr : Z) : K (option Z) :=
  p ← proc_at me;
  if (p_sz p <=? addr) || (p_sz p <? u32 (addr + 4)) then mret None
  else v ← uload32 me addr; mret (Some (i32 v)).

Fixpoint fetchstr_loop (n : nat) (me : nat) (s ep pp : Z) : K (option Z) :=
  match n with
  | O => λ _, NoFuel
  | S n =>
      if s <? ep then
        b ← uload8 me s;
        if b =? 0 then mret (Some (i32 (s - pp)))
        else fetchstr_loop n me (u32 (s + 1)) ep pp
      else mret None
  end.

(** the pointer, and the length of the string *)
Definition fetchstr (me : nat) (addr : Z) : K (option (Z * Z)) :=
  p ← proc_at me;
  if p_sz p <=? addr then mret None
  else
    r ← fetchstr_loop (S (Z.to_nat (p_sz p - addr))) me addr (p_sz p) addr;
    mret ((λ n, (addr, n)) <$> r).

Definition argint (me : nat) (n : Z) : K (option Z) :=
  p ← proc_at me;
  esp ← in_phys (rd32 (p_tf p + TF_esp));
  fetchint me (u32 (esp + 4 + 4 * n)).

Definition argptr (me : nat) (n size : Z) : K (option Z) :=
  p ← proc_at me;
  mi ← argint me n;
  match mi with
  | None => mret None
  | Some i =>
      if (size <? 0) || (p_sz p <=? u32 i) || (p_sz p <? u32 (u32 i + size)) then mret None
      else mret (Some (u32 i))
  end.

Definition argstr (me : nat) (n : Z) : K (option (Z * Z)) :=
  ma ← argint me n;
  match ma with
  | None => mret None
  | Some addr => fetchstr me (u32 addr)
  end.

(** ** sysproc.c *)

Definition sys_fork (me : nat) : K Z := fork me.
Definition sys_wait (me : nat) : K Z := wait me.

Definition sys_kill (me : nat) : K Z :=
  ma ← argint me 0;
  match ma with None => mret (-1) | Some pid => kill pid end.

Definition sys_getpid (me : nat) : K Z := p ← proc_at me; mret (p_pid p).

Definition sys_sbrk (me : nat) : K Z :=
  ma ← argint me 0;
  match ma with
  | None => mret (-1)
  | Some n =>
      p ← proc_at me;
      let addr := i32 (p_sz p) in
      r ← growproc me n;
      if r <? 0 then mret (-1) else mret addr
  end.

(** one round of the loop of [sys_sleep]; [ticks - ticks0 < n] compares unsigned *)
Definition sys_sleep_round (me : nat) (ticks0 n : Z) : T Z :=
  ticks ← gets snd;
  if u32 (ticks - ticks0) <? u32 n then
    p ← in_kern (proc_at me);
    if p_killed p then mret (-1)
    else in_kern (sleep me ticks_addr)
  else mret 0.

Definition sys_sleep (me : nat) : T Z :=
  ma ← in_kern (argint me 0);
  match ma with
  | None => mret (-1)
  | Some n => ticks0 ← gets snd; sys_sleep_round me ticks0 n
  end.

Definition sys_uptime : T Z := xticks ← gets snd; mret (i32 xticks).

Definition sys_hello : K Z := mret 0.

(** the pointer is used even when [argstr] fails and leaves it unset; what is
    printed is not modelled *)
Definition sys_helloYou (me : nat) : K Z := _ ← argstr me 0; mret 0.

Definition sys_getNumProc : K Z := getNumProc.
Definition sys_showAncestry (me : nat) : K Z := _ ← showAncestry me; mret 0.
Definition sys_numvp (me : nat) : K Z := numvp me.
Definition sys_numpp (me : nat) : K Z := numpp me.

Definition sys_mmap (me : nat) : K Z :=
  ma ← argint me 0;
  match ma with
  | None => mret 0
  | Some size =>
      if (size <? 0) || negb (Z.rem size PGSIZE =? 0) then mret 0
      else mmap me size
  end.

(** ** The dispatcher *)

Inductive sysret := Sret (v : Z) | Sexit.

Definition ret_k (m : K Z) : T sysret := v ← in_kern m; mret (Sret v).

(** the calls of sysfile.c: pipe, read, exec, fstat, chdir, dup, open, write,
    mknod, unlink, link, mkdir, close *)
Context (sysfile : Z → nat → T sysret).

Definition syscalls (num : Z) : option (nat → T sysret) :=
  if num =? 1 then Some (λ me, ret_k (sys_fork me))
  else if num =? 2 then Some (λ me, _ ← in_kern (exit me); mret Sexit)
  else if num =? 3 then Some (λ me, ret_k (sys_wait me))
  else if num =? 6 then Some (λ me, ret_k (sys_kill me))
  else if num =? 11 then Some (λ me, ret_k (sys_getpid me))
  else if num =? 12 then Some (λ me, ret_k (sys_sbrk me))
  else if num =? 13 then Some (λ me, v ← sys_sleep me; mret (Sret v))
  else if num =? 14 then Some (λ _, v ← sys_uptime; mret (Sret v))
  else if num =? 22 then Some (λ _, ret_k sys_hello)
  else if num =? 23 then Some (λ me, ret_k (sys_helloYou me))
  else if num =? 24 then Some (λ _, ret_k sys_getNumProc)
  else if num =? 25 then Some (λ me, ret_k (sys_showAncestry me))
  else if num =? 26 then Some (λ me, ret_k (sys_numvp me))
  else if num =? 27 then Some (λ me, ret_k (sys_numpp me))
  else if num =? 28 then Some (λ me, ret_k (sys_mmap me))
  else if (4 <=? num) && (num <=? 21) then Some (sysfile num)
  else None.

(** false when the call does not return *)
Definition syscall (me : nat) : T bool :=
  p ← in_kern (proc_at me);
  num ← in_kern (in_phys (rd32 (p_tf p + TF_eax)));
  r ← match syscalls (i32 num) with Some f => f me | None => mret (Sret (-1)) end;
  match r with
  | Sexit => mret false
  | Sret v => _ ← in_kern (in_phys (wr32 (p_tf p + TF_eax) (u32 v))); mret true
  end.

End syscall.
