(* ===== verification/SyscallSpec.v ===== *)
(** * syscall.c: what the kernel reads from user memory

    [lread] is user memory as the process promised it to itself: pages that
    [mmap] has reserved and nobody has touched read as zeros.  As long as the
    free list covers the pages that are still to be allocated, loads by the
    kernel return what [lread] says and do not change it, however many page
    faults they take on the way. *)

From S2P Require Import Prelude Mmu CString Kalloc Vm VmSpec VmUser VmAlloc VmGrow.
From S2P Require Import VmKernel VmCopy Proc Trap ProcMem ProcFork ProcLazy Syscall.
From S2P Require Import VmExamples.
From S2P Require Import ProcExamples.

#[local] Opaque tables uframes memmove memset store32 load32.

Section syscallspec.
  Context `{KI : KernelImage} `{PI : ProcImage} {F : Type} `{FR : FileRefs F}.
  Context (held hf hi : list Z).

Abbreviation K := (M (kern F)).

Definition lread (m : ram) (pgdir va : Z) : Z := default 0 (uread m pgdir va).
Definition lview (k : kern F) (cur : proc) (va : Z) : Z := lread (mem (k_phys k)) (p_pgdir cur) va.
Definition lword (k : kern F) (cur : proc) (va : Z) : Z :=
  lview k cur va + 2 ^ 8 * lview k cur (va + 1) + 2 ^ 16 * lview k cur (va + 2) +
  2 ^ 24 * lview k cur (va + 3).

(** the running process [me], and enough free pages for its untouched ones *)
Record lazy_ok (k : kern F) (me : nat) (cur : proc) (fl : list Z) : Prop := {
  lz_kern : kern_ok k fl held hf hi;
  lz_me : k_procs k !! me = Some cur;
  lz_live : p_state cur ≠ UNUSED;
  lz_sz : 0 ≤ p_sz cur ≤ KERNBASE;
  lz_mem : 2 * (npages_of (p_sz cur) -
      present (mem (k_phys k)) (p_pgdir cur) 0 (npages_of (p_sz cur))) ≤ Z.of_nat (length fl) }.

(** only pages have been added, and none that shows *)
Definition view_kept (cur : proc) (k k' : kern F) : Prop :=
  k_fs k' = k_fs k ∧ k_procs k' = k_procs k ∧ k_nextpid k' = k_nextpid k ∧
  k_initproc k' = k_initproc k ∧
  ∀ v, is_u32 v → v < KERNBASE → lview k' cur v = lview k cur v.

Definition reads {A} (m : K A) (a : A) (me : nat) (cur : proc) (k : kern F) (fl : list Z) : Prop :=
  ∃ k' fl', m k = Ret a k' ∧ lazy_ok k' me cur fl' ∧ view_kept cur k k'.

Lemma view_kept_refl cur k : view_kept cur k k.
Proof. by split_and!. Qed.

Lemma reads_ret {A} (a : A) me cur k fl : lazy_ok k me cur fl → reads (mret a) a me cur k fl.
Proof. intros Hk. exists k, fl. split_and!; [done|done|]. apply view_kept_refl. Qed.

Lemma reads_bind {A B} (m : K A) (f : A → K B) a b me cur k fl :
  reads m a me cur k fl →
  (∀ k' fl', lazy_ok k' me cur fl' → view_kept cur k k' → reads (f a) b me cur k' fl') →
  reads (m ≫= f) b me cur k fl.
Proof.
  intros (k1 & fl1 & E1 & H1 & V1) Hf.
  destruct (Hf k1 fl1 H1 V1) as (k2 & fl2 & E2 & H2 & V2).
  exists k2, fl2. split_and!; [by erewrite bind_Ret by exact E1|done|].
  destruct V1 as (A1 & A2 & A3 & A4 & A5), V2 as (B1 & B2 & B3 & B4 & B5).
  split_and!; [congruence..|]. intros v Hv Hlt. rewrite B5, A5; done.
Qed.

Lemma reads_proc_at me cur k fl : lazy_ok k me cur fl → reads (proc_at me) cur me cur k fl.
Proof.
  intros Hk. exists k, fl. split_and!; [|done|apply view_kept_refl].
  destruct k as [s fs l n ip]. apply proc_at_Ret, Hk.
Qed.

Lemma uload8_now_ok me cur k fl va :
  lazy_ok k me cur fl → uload8_now me va k = Ret (uread (mem (k_phys k)) (p_pgdir cur) va) k.
Proof.
  intros Hk. destruct k as [s fs l n ip]. unfold uload8_now.
  by erewrite bind_Ret by (apply proc_at_Ret, Hk).
Qed.

Lemma npages_of_lt va sz : 0 ≤ va < sz → 0 ≤ va / PGSIZE < npages_of sz.
Proof. unfold npages_of. mmu_consts. zdm. Qed.

(** one page fault uses up at most two of the pages set aside *)
Lemma fault_lazy_ok me cur k fl va :
  lazy_ok k me cur fl → 0 ≤ va < p_sz cur →
  uread (mem (k_phys k)) (p_pgdir cur) va = None →
  ∃ k' fl', pgfault (Some me) va k = Ret 1 k' ∧ lazy_ok k' me cur fl' ∧ view_kept cur k k' ∧
    uread (mem (k_phys k')) (p_pgdir cur) va = Some 0.
Proof.
  intros [H1 H2 H3 H4 H5] Hva Hn. destruct k as [s fs l n ip]. cbn [k_phys k_procs] in *.
  assert (Hu : is_u32 va ∧ va < KERNBASE) by (revert H4; mmu_consts; lia).
  assert (Hb : pbit (pte (mem s) (p_pgdir cur) va) = false)
    by (revert Hn; unfold uread; cbn zeta; by destruct (pbit _)).
  assert (Hin : ∀ k, 0 ≤ k < npages_of (p_sz cur) → is_u32 (k * PGSIZE) ∧ k * PGSIZE / PGSIZE = k).
  { intros k Hk. apply page_base_u32. revert Hk H4. unfold npages_of. mmu_consts. zdm. }
  pose proof (npages_of_lt _ _ Hva) as Hj.
  destruct (Hin (va / PGSIZE) Hj) as [Hju Hjd].
  assert (Hjb : pbit (pte (mem s) (p_pgdir cur) (va / PGSIZE * PGSIZE)) = false)
    by (rewrite (pte_same_page _ _ _ va); done || apply Hu).
  destruct (pgfault_ok s fs l fl held hf hi n ip me cur va) as (r & s' & fl' & R1 & R2 & _ & R4);
    [done|done|done|apply Hu|apply Hu|done|].
  assert (Hlt : present (mem s) (p_pgdir cur) 0 (npages_of (p_sz cur)) < npages_of (p_sz cur)).
  { replace (npages_of (p_sz cur)) with (va / PGSIZE + (1 + (npages_of (p_sz cur) - va / PGSIZE - 1))) at 1 by lia.
    rewrite !present_app, (present_absent _ _ _ 1) by
      (lia || (intros k Hk; replace k with (va / PGSIZE) by lia; done)).
    pose proof (present_range (mem s) (p_pgdir cur) 0 (va / PGSIZE)).
    pose proof (present_range (mem s) (p_pgdir cur) (0 + va / PGSIZE + 1) (npages_of (p_sz cur) - va / PGSIZE - 1)).
    lia. }
  destruct R4 as [(-> & Hc & R5 & R6)|(-> & Hc & _)]; [|lia].
  exists (Build_kern s' fs l n ip), fl'. split_and!; [done| |..].
  - split; [done..|]. cbn [k_phys].
    rewrite (present_one (mem s) (mem s') _ _ (va / PGSIZE)); [lia|done| |done].
    intros k Hk. destruct (Hin k Hk) as [Hku Hkd]. by rewrite R5, Hkd by done.
  - split_and!; [done..|]. intros v Hv Hlt'. unfold lview, lread. cbn [k_phys]. rewrite R6 by done.
    case_decide as Hd; [|done]. cbn. unfold uread. cbn zeta.
    by rewrite (pte_same_page _ _ v va), Hb by (done || apply Hu).
  - cbn [k_phys]. rewrite R6 by apply Hu. by rewrite decide_True.
Qed.

Lemma uload8_reads me cur k fl va :
  lazy_ok k me cur fl → 0 ≤ va < p_sz cur → reads (uload8 me va) (lview k cur va) me cur k fl.
Proof.
  intros Hk Hva. unfold reads, uload8. erewrite bind_Ret by (by eapply uload8_now_ok).
  unfold lview, lread.
  destruct (uread (mem (k_phys k)) (p_pgdir cur) va) as [b|] eqn:E; cbn [default].
  { exists k, fl. split_and!; [done|done|apply view_kept_refl]. }
  destruct (fault_lazy_ok _ _ _ _ _ Hk Hva E) as (k1 & fl1 & R1 & R2 & R3 & R4).
  exists k1, fl1. split_and!; [|done|done].
  erewrite bind_Ret by exact R1. erewrite bind_Ret by (by eapply uload8_now_ok). by rewrite R4.
Qed.

Lemma uload32_reads me cur k fl va :
  lazy_ok k me cur fl → 0 ≤ va → va + 4 ≤ p_sz cur →
  reads (uload32 me va) (lword k cur va) me cur k fl.
Proof.
  intros Hk Hva Hle. pose proof (lz_sz _ _ _ _ Hk) as Hsz.
  assert (Hr : ∀ j, 0 ≤ j < 4 → is_u32 (va + j) ∧ va + j < KERNBASE) by (revert Hsz; mmu_consts; lia).
  destruct (Hr 1) as [U1 L1]; [lia|]. destruct (Hr 2) as [U2 L2]; [lia|]. destruct (Hr 3) as [U3 L3]; [lia|].
  unfold uload32, lword. eapply reads_bind; [apply uload8_reads; [done|lia]|]. intros k1 fl1 H1 V1.
  rewrite <- (proj2 (proj2 (proj2 (proj2 V1))) _ U1 L1).
  rewrite <- (proj2 (proj2 (proj2 (proj2 V1))) _ U2 L2).
  rewrite <- (proj2 (proj2 (proj2 (proj2 V1))) _ U3 L3).
  eapply reads_bind; [apply uload8_reads; [done|lia]|]. intros k2 fl2 H2 V2.
  rewrite <- (proj2 (proj2 (proj2 (proj2 V2))) _ U2 L2).
  rewrite <- (proj2 (proj2 (proj2 (proj2 V2))) _ U3 L3).
  eapply reads_bind; [apply uload8_reads; [done|lia]|]. intros k3 fl3 H3 V3.
  rewrite <- (proj2 (proj2 (proj2 (proj2 V3))) _ U3 L3).
  eapply reads_bind; [apply uload8_reads; [done|lia]|]. intros k4 fl4 H4 V4. by apply reads_ret.
Qed.

(** ** The argument functions *)

Lemma fetchint_reads me cur k fl addr :
  lazy_ok k me cur fl → is_u32 addr →
  reads (fetchint me addr) (if addr + 4 <=? p_sz cur then Some (i32 (lword k cur addr)) else None) me cur k fl.
Proof.
  intros Hk Ha. pose proof (lz_sz _ _ _ _ Hk) as Hsz. unfold fetchint.
  eapply reads_bind; [by apply reads_proc_at|]. intros k1 fl1 H1 V1.
  destruct (Z.leb_spec (p_sz cur) addr) as [E|E].
  { rewrite (proj2 (Z.leb_gt _ _)) by lia. by apply reads_ret. }
  rewrite (u32_id (addr + 4)) by (revert Hsz Ha; mmu_consts; lia). cbn [orb].
  destruct (Z.ltb_spec (p_sz cur) (addr + 4)) as [E'|E'].
  { rewrite (proj2 (Z.leb_gt _ _)) by lia. by apply reads_ret. }
  rewrite (proj2 (Z.leb_le _ _)) by lia.
  assert (Ew : lword k1 cur addr = lword k cur addr).
  { destruct V1 as (_ & _ & _ & _ & V). unfold lword. rewrite !V; [done|revert Hsz Ha; mmu_consts; lia..]. }
  eapply reads_bind; [apply uload32_reads; [done|revert Ha; mmu_consts; lia|lia]|].
  intros k2 fl2 H2 V2. rewrite Ew. by apply reads_ret.
Qed.

(** where the [n]th argument is *)
Definition arg_addr (k : kern F) (cur : proc) (n : Z) : Z :=
  u32 (load32 (mem (k_phys k)) (p_tf cur + TF_esp) + 4 + 4 * n).

Lemma argint_reads me cur k fl n :
  lazy_ok k me cur fl →
  let a := arg_addr k cur n in
  reads (argint me n) (if a + 4 <=? p_sz cur then Some (i32 (lword k cur a)) else None) me cur k fl.
Proof.
  intros Hk a. destruct (fetchint_reads me cur k fl a Hk (u32_range _)) as (k' & fl' & E & H' & V).
  exists k', fl'. split_and!; [|done|done]. destruct k as [s fs l np ip]. unfold argint.
  erewrite bind_Ret by (apply proc_at_Ret, Hk). by kstep.
Qed.

(** [f] holds a string of [len] characters at [a], ended by a NUL before [ep] *)
Definition is_cstr (f : Z → Z) (a ep len : Z) : Prop :=
  0 ≤ len ∧ a + len < ep ∧ f (a + len) = 0 ∧ ∀ i, 0 ≤ i < len → f (a + i) ≠ 0.

Lemma fetchstr_loop_reads me cur n : ∀ k fl s pp,
  lazy_ok k me cur fl → 0 ≤ pp ≤ s → s ≤ p_sz cur → p_sz cur - s < Z.of_nat n →
  (∀ i, 0 ≤ i < s - pp → lview k cur (pp + i) ≠ 0) →
  ∃ r, reads (fetchstr_loop n me s (p_sz cur) pp) r me cur k fl ∧
    match r with
    | Some len => is_cstr (lview k cur) pp (p_sz cur) len
    | None => ∀ i, pp ≤ i < p_sz cur → lview k cur i ≠ 0
    end.
Proof.
  induction n as [|n IH]; intros k fl s pp Hk Hpp Hs Hn Hb; [lia|]. cbn [fetchstr_loop].
  pose proof (lz_sz _ _ _ _ Hk) as Hsz. destruct (Z.ltb_spec s (p_sz cur)) as [E|E].
  2: { exists None. split; [by apply reads_ret|]. intros i Hi. replace i with (pp + (i - pp)) by lia.
       apply Hb. lia. }
  destruct (uload8_reads me cur k fl s Hk) as (k1 & fl1 & E1 & H1 & V1); [lia|].
  destruct (Z.eqb_spec (lview k cur s) 0) as [Ez|Ez].
  - exists (Some (s - pp)). split.
    + exists k1, fl1. split_and!; [|done|done]. erewrite bind_Ret by exact E1.
      rewrite (proj2 (Z.eqb_eq _ 0) Ez), i32_id by (revert Hsz; mmu_consts; lia). done.
    + split_and!; [lia|lia| |done]. by replace (pp + (s - pp)) with s by lia.
  - destruct V1 as (V1 & V2 & V3 & V4 & V).
    assert (Hv : ∀ v, 0 ≤ v < p_sz cur → lview k1 cur v = lview k cur v)
      by (intros v Hv; apply V; revert Hv Hsz; mmu_consts; lia).
    destruct (IH k1 fl1 (s + 1) pp H1) as (r & (k2 & fl2 & E2 & H2 & W) & Hr); [lia|lia|lia| |].
    { intros i Hi. rewrite Hv by lia. destruct (decide (i = s - pp)) as [->|]; [|apply Hb; lia].
      by replace (pp + (s - pp)) with s by lia. }
    exists r. split.
    + exists k2, fl2. split_and!; [|done|].
      * erewrite bind_Ret by exact E1. rewrite (proj2 (Z.eqb_neq _ 0) Ez).
        by rewrite u32_id by (revert Hsz; mmu_consts; lia).
      * destruct W as (W1 & W2 & W3 & W4 & W). split_and!; [congruence..|].
        intros v Hvu Hlt. by rewrite W, V.
    + destruct r as [len|].
      * destruct Hr as (R1 & R2 & R3 & R4). split_and!; [done|done|by rewrite <- Hv by lia|].
        intros i Hi. rewrite <- Hv by lia. by apply R4.
      * intros i Hi. rewrite <- Hv by lia. by apply Hr.
Qed.

(** [argstr] accepts exactly the NUL-terminated strings that lie below [sz]:
    it returns the pointer the process passed with the length of the string there,
    or -1 when the argument itself or every byte from the pointer up to [sz] is
    out of bounds or not NUL.  This holds for lazily mapped memory as well:
    untouched pages read as zeros, page faults taken on the way keep what the
    process sees, and with enough free pages for the untouched ones the call
    returns. *)
Theorem argstr_spec me cur k fl n :
  lazy_ok k me cur fl →
  let a := arg_addr k cur n in let p := u32 (lword k cur a) in
  ∃ r, reads (argstr me n) r me cur k fl ∧
    match r with
    | Some (q, len) => a + 4 ≤ p_sz cur ∧ q = p ∧ is_cstr (lview k cur) p (p_sz cur) len
    | None => p_sz cur < a + 4 ∨ ∀ i, p ≤ i < p_sz cur → lview k cur i ≠ 0
    end.
Proof.
  intros Hk a p. pose proof (lz_sz _ _ _ _ Hk) as Hsz.
  destruct (argint_reads me cur k fl n Hk) as (k1 & fl1 & E1 & H1 & V1). fold a in E1.
  assert (Hv : ∀ v, 0 ≤ v < p_sz cur → lview k1 cur v = lview k cur v)
    by (intros v Hv; apply V1; revert Hv Hsz; mmu_consts; lia).
  revert E1. destruct (Z.leb_spec (a + 4) (p_sz cur)) as [E|E]; intros E1.
  2: { exists None. split; [|left; lia]. exists k1, fl1. split_and!; [|done|done].
       unfold argstr. by erewrite bind_Ret by exact E1. }
  assert (Hrun : ∀ o, fetchstr me p k1 = o → argstr me n k = o).
  { intros o <-. unfold argstr. erewrite bind_Ret by exact E1. cbv beta iota. by rewrite u32_i32. }
  pose proof (u32_range (lword k cur a)) as Hp. fold p in Hp.
  destruct (reads_proc_at _ _ _ _ H1) as (k1' & _ & Epr & _).
  assert (k1' = k1) as ->.
  { revert Epr. destruct k1 as [s fs l np ip]. erewrite (proc_at_Ret _ _ _ _ _ _ cur) by apply H1. by intros [=]. }
  unfold fetchstr in Hrun. setoid_rewrite (bind_Ret _ _ _ _ _ Epr) in Hrun.
  destruct (Z.leb_spec (p_sz cur) p) as [Ep|Ep].
  { exists None. split; [|right; intros; lia]. exists k1, fl1. by split_and!; [apply Hrun| |]. }
  destruct (fetchstr_loop_reads me cur (S (Z.to_nat (p_sz cur - p))) k1 fl1 p p H1)
    as (r & (k2 & fl2 & E2 & H2 & V2) & Hr); [revert Hp; mmu_consts; lia|lia|lia|intros; lia|].
  exists ((λ n, (p, n)) <$> r). split.
  - exists k2, fl2. split; [apply Hrun; by erewrite bind_Ret by exact E2|]. split; [done|].
    destruct V1 as (A1 & A2 & A3 & A4 & A5), V2 as (B1 & B2 & B3 & B4 & B5).
    split_and!; [congruence..|]. intros v Hvu Hlt. by rewrite B5, A5.
  - destruct r as [len|]; cbn.
    + destruct Hr as (R1 & R2 & R3 & R4). split_and!; [lia|done|].
      split_and!; [done|lia|by rewrite <- Hv by (revert Hp; mmu_consts; lia)|].
      intros i Hi. rewrite <- Hv by (revert Hp; mmu_consts; lia). by apply R4.
    + right. intros i Hi. rewrite <- Hv by (revert Hp; mmu_consts; lia). by apply Hr.
Qed.

(** for a process whose size is at most KERNBASE, [argptr] accepts exactly the
    blocks that lie below [sz]: it returns the pointer the process passed, with
    [size] bytes of user memory behind it, or -1 when the argument or the block is
    out of bounds or [size] negative. *)
Theorem argptr_spec me cur k fl n size :
  lazy_ok k me cur fl → size < 2 ^ 31 →
  let a := arg_addr k cur n in let p := u32 (lword k cur a) in
  ∃ r, reads (argptr me n size) r me cur k fl ∧
    match r with
    | Some q => a + 4 ≤ p_sz cur ∧ q = p ∧ 0 ≤ size ∧ p < p_sz cur ∧ p + size ≤ p_sz cur
    | None => p_sz cur < a + 4 ∨ size < 0 ∨ p_sz cur ≤ p ∨ p_sz cur < p + size
    end.
Proof.
  intros Hk Hsize a p. pose proof (lz_sz _ _ _ _ Hk) as Hsz.
  pose proof (u32_range (lword k cur a)) as Hp. fold p in Hp.
  destruct (argint_reads me cur k fl n Hk) as (k1 & fl1 & E1 & H1 & V1). fold a in E1.
  set (f := λ mi, match mi with
    | None => mret None
    | Some i => if (size <? 0) || (p_sz cur <=? u32 i) || (p_sz cur <? u32 (u32 i + size)) then mret None
                else mret (Some (u32 i))
    end : K (option Z)).
  assert (Hrun : ∀ o, f (if a + 4 <=? p_sz cur then Some (i32 (lword k cur a)) else None) k1 = o →
    argptr me n size k = o).
  { intros o <-. unfold argptr. destruct k as [s fs l np ip].
    erewrite bind_Ret by (apply proc_at_Ret, Hk). by erewrite bind_Ret by exact E1. }
  revert Hrun. destruct (Z.leb_spec (a + 4) (p_sz cur)) as [E|E]; intros Hrun.
  2: { exists None. split; [|left; lia]. exists k1, fl1. by split_and!; [apply Hrun| |]. }
  unfold f in Hrun. rewrite u32_i32 in Hrun. fold p in Hrun.
  destruct (Z.ltb_spec size 0) as [B1|B1]; cbn [orb] in Hrun.
  { exists None. split; [|auto]. exists k1, fl1. by split_and!; [apply Hrun| |]. }
  destruct (Z.leb_spec (p_sz cur) p) as [B2|B2]; cbn [orb] in Hrun.
  { exists None. split; [|auto]. exists k1, fl1. by split_and!; [apply Hrun| |]. }
  rewrite (u32_id (p + size)) in Hrun by (revert Hp Hsz; mmu_consts; lia).
  destruct (Z.ltb_spec (p_sz cur) (p + size)) as [B3|B3].
  - exists None. split; [|auto]. exists k1, fl1. by split_and!; [apply Hrun| |].
  - exists (Some p). split; [|by split_and!; lia]. exists k1, fl1. by split_and!; [apply Hrun| |].
Qed.

End syscallspec.

(** ** mmap has no bound *)

Section mmap_bound.
  Context `{KI : KernelImage} `{PI : ProcImage} {F : Type} `{FO : FileOps F}.

(** C39: [mmap] does not bound the size: one call with a legal argument moves [sz]
    of any process with more than one page past KERNBASE, after which [argptr]
    accepts pointers to kernel memory (so [read] and [write] work on it). *)
Theorem mmap_escapes (k : kern F) me cur :
  k_procs k !! me = Some cur → PGSIZE < p_sz cur ≤ KERNBASE →
  ∃ k1, mmap me 0x7ffff000 k = Ret (i32 (p_sz cur)) k1 ∧
    k_procs k1 = alter (set_sz (p_sz cur + 0x7ffff000)) me (k_procs k) ∧
    KERNBASE < p_sz cur + 0x7ffff000 ∧
    ∀ n i size k2, argint me n k1 = Ret (Some i) k2 → KERNBASE ≤ u32 i → 0 ≤ size →
      u32 i + size ≤ p_sz cur + 0x7ffff000 → 0 < p_sz cur + 0x7ffff000 - u32 i →
      argptr me n size k1 = Ret (Some (u32 i)) k2.
Proof.
  intros Hme Hsz. destruct k as [s fs l np ip]. cbn [k_procs] in *.
  set (sz := p_sz cur + 0x7ffff000). assert (Hu : is_u32 sz) by (unfold sz; revert Hsz; mmu_consts; lia).
  exists (Build_kern s fs (alter (set_sz sz) me l) np ip). split_and!.
  - unfold mmap. erewrite bind_Ret by (by apply proc_at_Ret). fold sz. rewrite u32_id by done. by kstep.
  - done.
  - unfold sz. revert Hsz. mmu_consts. lia.
  - intros n i size k2 Ei Hk Hs Hle Hlt. unfold argptr.
    erewrite bind_Ret by (apply proc_at_Ret; by rewrite list_lookup_alter_eq, Hme).
    erewrite bind_Ret by exact Ei. cbn [p_sz set_sz].
    rewrite (u32_id (u32 i + size)) by (revert Hu Hle Hk; mmu_consts; lia).
    rewrite (proj2 (Z.ltb_ge size 0)), (proj2 (Z.leb_gt _ _)), (proj2 (Z.ltb_ge _ _)) by lia. done.
Qed.

End mmap_bound.

(** ** Instances of the theorems about system-call arguments *)

#[local] Opaque tables uframes load32.

Lemma demok_lazy : lazy_ok [] [] [] demok 0 parent [pg 2; pg 3].
Proof.
  split; [exact demok_ok|done|done|cbn; mmu_consts; lia|].
  change (npages_of (p_sz parent)) with 1. rewrite present_cons by lia.
  change (k_phys demok) with demo1. change (p_pgdir parent) with (pg 0).
  rewrite demo1_touched by (mmu_consts; lia || zdm).
  pose proof (present_range (mem demo1) (pg 0) (0 + 1) (1 - 1)). cbn [length]. lia.
Qed.

Example argstr_spec_witness :
  ∃ r, reads [] [] [] (argstr 0 0) r 0 parent demok [pg 2; pg 3].
Proof.
  destruct (argstr_spec [] [] [] 0 parent demok [pg 2; pg 3] 0 demok_lazy) as (r & Hr & _). by exists r.
Defined.

Example argptr_spec_witness :
  ∃ r, reads [] [] [] (argptr 0 1 100) r 0 parent demok [pg 2; pg 3].
Proof.
  destruct (argptr_spec [] [] [] 0 parent demok [pg 2; pg 3] 1 100 demok_lazy) as (r & Hr & _); [lia|].
  by exists r.
Defined.

Example mmap_escapes_witness :
  ∃ k1, mmap 0 0x7ffff000 (with_procs (alter (set_sz 8192) 0%nat) demok) = Ret 8192 k1 ∧
    p_sz <$> k_procs k1 !! 0%nat = Some 0x80001000.
Proof.
  destruct (mmap_escapes (with_procs (alter (set_sz 8192) 0%nat) demok) 0 (set_sz 8192 parent))
    as (k1 & H1 & H2 & _); [done|cbn; mmu_consts; lia|].
  exists k1. split; [exact H1|]. by rewrite H2.
Defined.
