(* ===== verification/Pipe.v ===== *)
(** * pipe.c: pipes

    The ring buffer with its free-running [uint] counters, and the calls as the
    segments that run with the pipe's lock held: a call that sleeps gives up the
    lock and starts its next segment when it is woken.  [wakeup] is the list of
    channels the segment wakes.  The system of concurrent readers and writers is
    a step relation; theorems say that it is a bounded FIFO queue and that no
    wakeup is lost. *)

From S2P Require Import Prelude.

Definition PIPESIZE : Z := 512.

Record pipe := {
  data : list Z; nread : Z; nwrite : Z; readopen : bool; writeopen : bool }.

(** the channels [&p->nread] and [&p->nwrite] *)
Inductive chan := Cnread | Cnwrite.
#[export] Instance chan_eq_dec : EqDecision chan.
Proof. solve_decision. Defined.

(** how a segment ends: with the result of the call, or asleep *)
Inductive pres := Pret (r : Z) | Psleep (c : chan).

Definition pipe0 (junk : list Z) : pipe :=
  {| data := junk; nread := 0; nwrite := 0; readopen := true; writeopen := true |}.

(** ** Operations *)

(** [true]: the page of the pipe is freed *)
Definition pipeclose (writable : bool) (p : pipe) : pipe * list chan * bool :=
  let '(p, w) :=
    if writable then
      ({| data := data p; nread := nread p; nwrite := nwrite p;
          readopen := readopen p; writeopen := false |}, [Cnread])
    else
      ({| data := data p; nread := nread p; nwrite := nwrite p;
          readopen := false; writeopen := writeopen p |}, [Cnwrite]) in
  (p, w, negb (readopen p) && negb (writeopen p)).

(** [p->data[p->nwrite++ % PIPESIZE] = b] *)
Definition ring_put (b : Z) (p : pipe) : pipe :=
  {| data := <[Z.to_nat (nwrite p mod PIPESIZE) := b]> (data p); nread := nread p;
     nwrite := u32 (nwrite p + 1); readopen := readopen p; writeopen := writeopen p |}.

(** [p->data[p->nread++ % PIPESIZE]] *)
Definition ring_get (p : pipe) : Z * pipe :=
  (data p !!! Z.to_nat (nread p mod PIPESIZE),
   {| data := data p; nread := u32 (nread p + 1); nwrite := nwrite p;
      readopen := readopen p; writeopen := writeopen p |}).

Definition is_full (p : pipe) : bool := nwrite p =? u32 (nread p + PIPESIZE).
Definition is_empty (p : pipe) : bool := nread p =? nwrite p.

(** the segment of [pipewrite] that has [rest] still to write, of [n] bytes in
    all; the bytes left when it ends *)
Fixpoint pipewrite (killed : bool) (n : Z) (rest : list Z) (p : pipe) :
    pipe * list chan * pres * list Z :=
  match rest with
  | [] => (p, [Cnread], Pret n, [])
  | b :: rest' =>
      if is_full p then
        if negb (readopen p) || killed then (p, [], Pret (-1), rest)
        else (p, [Cnread], Psleep Cnwrite, rest)
      else pipewrite killed n rest' (ring_put b p)
  end.

Fixpoint piperead_copy (n : nat) (p : pipe) : list Z * pipe :=
  match n with
  | O => ([], p)
  | S n =>
      if is_empty p then ([], p)
      else
        let '(b, p) := ring_get p in
        let '(bs, p) := piperead_copy n p in
        (b :: bs, p)
  end.

(** a segment of [piperead]; the bytes stored at [addr] *)
Definition piperead (killed : bool) (n : Z) (p : pipe) : pipe * list chan * pres * list Z :=
  if is_empty p && writeopen p then
    if killed then (p, [], Pret (-1), [])
    else (p, [], Psleep Cnread, [])
  else
    let '(bs, p) := piperead_copy (Z.to_nat n) p in
    (p, [Cnwrite], Pret (Z.of_nat (length bs)), bs).

(** ** Readers and writers *)

(** a process using the pipe: [t_asleep] holds between the end of a segment that
    slept and the wakeup *)
Inductive call := Cidle | Cwrite (n : Z) (rest : list Z) | Cread (n : Z).
Record thread := { t_call : call; t_asleep : option chan; t_killed : bool }.

Record sys := { s_pipe : pipe; s_threads : list thread;
  s_sent : list Z;  (** all bytes put into the pipe, in order *)
  s_got : list Z    (** all bytes taken out of it, in order *) }.

Definition woken (ws : list chan) (t : thread) : thread :=
  match t_asleep t with
  | Some c => if decide (c ∈ ws) then {| t_call := t_call t; t_asleep := None; t_killed := t_killed t |} else t
  | None => t
  end.

(** thread [j] ends its segment: it continues with the call [c] *)
Definition settle (j : nat) (c : call) (a : option chan) (k : bool) (ws : list chan) (ts : list thread) :
    list thread :=
  <[j := {| t_call := c; t_asleep := a; t_killed := k |}]> (woken ws <$> ts).

(** what the caller does after a segment *)
Definition next_call (res : pres) (again : call) : call :=
  match res with Pret _ => Cidle | Psleep _ => again end.
Definition next_sleep (res : pres) : option chan :=
  match res with Pret _ => None | Psleep c => Some c end.

Definition all_calls (P : call → Prop) (ts : list thread) : Prop := Forall (λ t, P (t_call t)) ts.
Definition not_writing (c : call) : Prop := match c with Cwrite _ _ => False | _ => True end.
Definition not_reading (c : call) : Prop := match c with Cread _ => False | _ => True end.

(** The ends are closed by the last [fileclose] of a descriptor that refers to
    them, when no call is using them any more. *)
Inductive pstep : sys → sys → Prop :=
| st_start_write j t bs p ts sent got :
    ts !! j = Some t → t_call t = Cidle → writeopen p = true →
    pstep {| s_pipe := p; s_threads := ts; s_sent := sent; s_got := got |}
      {| s_pipe := p; s_threads := settle j (Cwrite (Z.of_nat (length bs)) bs) None (t_killed t) [] ts;
         s_sent := sent; s_got := got |}
| st_start_read j t n p ts sent got :
    ts !! j = Some t → t_call t = Cidle → readopen p = true →
    pstep {| s_pipe := p; s_threads := ts; s_sent := sent; s_got := got |}
      {| s_pipe := p; s_threads := settle j (Cread n) None (t_killed t) [] ts;
         s_sent := sent; s_got := got |}
| st_write j t n rest p ts sent got p' ws res rest' :
    ts !! j = Some t → t_call t = Cwrite n rest → t_asleep t = None →
    pipewrite (t_killed t) n rest p = (p', ws, res, rest') →
    pstep {| s_pipe := p; s_threads := ts; s_sent := sent; s_got := got |}
      {| s_pipe := p';
         s_threads := settle j (next_call res (Cwrite n rest')) (next_sleep res) (t_killed t) ws ts;
         s_sent := sent ++ take (length rest - length rest') rest; s_got := got |}
| st_read j t n p ts sent got p' ws res bs :
    ts !! j = Some t → t_call t = Cread n → t_asleep t = None →
    piperead (t_killed t) n p = (p', ws, res, bs) →
    pstep {| s_pipe := p; s_threads := ts; s_sent := sent; s_got := got |}
      {| s_pipe := p';
         s_threads := settle j (next_call res (Cread n)) (next_sleep res) (t_killed t) ws ts;
         s_sent := sent; s_got := got ++ bs |}
| st_close (writable : bool) p ts sent got p' ws freed :
    (if writable then writeopen p else readopen p) = true →
    all_calls (if writable then not_writing else not_reading) ts →
    pipeclose writable p = (p', ws, freed) →
    pstep {| s_pipe := p; s_threads := ts; s_sent := sent; s_got := got |}
      {| s_pipe := p'; s_threads := woken ws <$> ts; s_sent := sent; s_got := got |}.

(** [kill] marks a process and makes it run *)
Inductive kstep : sys → sys → Prop :=
| st_kill j t p ts sent got :
    ts !! j = Some t →
    kstep {| s_pipe := p; s_threads := ts; s_sent := sent; s_got := got |}
      {| s_pipe := p; s_threads := settle j (t_call t) None true [] ts; s_sent := sent; s_got := got |}.

Definition started (s : sys) : Prop :=
  ∃ junk n, length junk = Z.to_nat PIPESIZE ∧
    s = {| s_pipe := pipe0 junk; s_sent := []; s_got := [];
           s_threads := replicate n {| t_call := Cidle; t_asleep := None; t_killed := false |} |}.

(** ** The ring as a queue *)

Record pipe_ok (p : pipe) : Prop := {
  pi_data : length (data p) = Z.to_nat PIPESIZE;
  pi_nread : is_u32 (nread p);
  pi_nwrite : is_u32 (nwrite p);
  pi_len : u32 (nwrite p - nread p) ≤ PIPESIZE }.

Definition slot (p : pipe) (i : Z) : Z := data p !!! Z.to_nat ((nread p + i) mod PIPESIZE).
Definition contents (p : pipe) : list Z := slot p <$> seqZ 0 (u32 (nwrite p - nread p)).

Lemma contents_length p : pipe_ok p → Z.of_nat (length (contents p)) = u32 (nwrite p - nread p).
Proof.
  intros _. unfold contents. rewrite length_fmap, length_seqZ.
  pose proof (u32_range (nwrite p - nread p)). unfold is_u32 in *. lia.
Qed.

Ltac pipe_arith := unfold is_u32, u32, PIPESIZE in *; zdm.

Lemma is_full_length p : pipe_ok p → is_full p = bool_decide (u32 (nwrite p - nread p) = PIPESIZE).
Proof.
  intros [_ H1 H2 H3]. unfold is_full. destruct (Z.eqb_spec (nwrite p) (u32 (nread p + PIPESIZE))) as [E|E].
  - rewrite bool_decide_eq_true_2; [done|]. rewrite E. pipe_arith.
  - rewrite bool_decide_eq_false_2; [done|]. contradict E. pipe_arith.
Qed.

Lemma is_empty_length p : pipe_ok p → is_empty p = bool_decide (u32 (nwrite p - nread p) = 0).
Proof.
  intros [_ H1 H2 H3]. unfold is_empty. destruct (Z.eqb_spec (nread p) (nwrite p)) as [E|E].
  - rewrite bool_decide_eq_true_2; [done|]. rewrite E. pipe_arith.
  - rewrite bool_decide_eq_false_2; [done|]. contradict E. pipe_arith.
Qed.

Lemma put_ok b p :
  pipe_ok p → is_full p = false → pipe_ok (ring_put b p) ∧ contents (ring_put b p) = contents p ++ [b].
Proof.
  intros Hok Hf. pose proof Hok as [H0 H1 H2 H3]. rewrite is_full_length in Hf by done.
  apply bool_decide_eq_false in Hf.
  assert (El : u32 (nwrite (ring_put b p) - nread (ring_put b p)) = u32 (nwrite p - nread p) + 1)
    by (cbn; pipe_arith).
  split.
  - split; cbn; [by rewrite length_insert|done|apply u32_range|]. cbn in El. rewrite El. lia.
  - unfold contents. rewrite El, seqZ_app, fmap_app by (pipe_arith || lia). f_equal.
    + apply list_fmap_ext. intros i x Hx. apply lookup_seqZ in Hx as [-> Hi].
      unfold slot. cbn [data nread ring_put]. rewrite list_lookup_total_insert_ne; [done|]. pipe_arith.
    + change (seqZ ?a 1) with [a]. cbn [fmap list_fmap]. f_equal. unfold slot. cbn [data nread ring_put].
      replace ((nread p + (0 + u32 (nwrite p - nread p))) mod PIPESIZE) with (nwrite p mod PIPESIZE) by pipe_arith.
      apply list_lookup_total_insert_eq. rewrite H0. pipe_arith.
Qed.

Lemma get_ok p :
  pipe_ok p → is_empty p = false →
  pipe_ok (ring_get p).2 ∧ contents p = (ring_get p).1 :: contents (ring_get p).2.
Proof.
  intros Hok Hf. pose proof Hok as [H0 H1 H2 H3]. rewrite is_empty_length in Hf by done.
  apply bool_decide_eq_false in Hf.
  assert (El : u32 (nwrite p - nread p) = 1 + u32 (nwrite (ring_get p).2 - nread (ring_get p).2))
    by (cbn; pipe_arith).
  split.
  - split; cbn [data nread nwrite ring_get snd] in *; [done|apply u32_range|done|lia].
  - unfold contents. rewrite El, seqZ_app, fmap_app by (lia || apply u32_range).
    change (seqZ 0 1) with [0]. cbn [fmap list_fmap app]. f_equal.
    + unfold slot. cbn [ring_get fst]. by rewrite Z.add_0_r.
    + rewrite (Z.add_comm 0 1), <- (fmap_add_seqZ 1 0), <- (list_fmap_compose (Z.add 1) (slot p)).
      apply (list_fmap_ext (slot p ∘ Z.add 1)). intros i x Hx. unfold slot.
      cbn [compose ring_get snd data nread]. do 2 f_equal. pipe_arith.
Qed.

(** ** Segments as queue operations *)

Lemma pipewrite_ok killed n rest p p' ws res rest' :
  pipe_ok p → pipewrite killed n rest p = (p', ws, res, rest') →
  pipe_ok p' ∧ readopen p' = readopen p ∧ writeopen p' = writeopen p ∧
  (∃ pre, rest = pre ++ rest' ∧ contents p' = contents p ++ pre) ∧
  (res = Pret n ∧ rest' = [] ∧ ws = [Cnread] ∨
   is_full p' = true ∧ rest' ≠ [] ∧ res = Pret (-1) ∧ (readopen p = false ∨ killed = true) ∧ ws = [] ∨
   is_full p' = true ∧ rest' ≠ [] ∧ res = Psleep Cnwrite ∧ readopen p = true ∧ ws = [Cnread]).
Proof.
  revert p. induction rest as [|b rest IH]; intros p Hok E; cbn in E.
  { injection E as <- <- <- <-. split_and!; [done..| |by left]. exists []. split; [done|]. by rewrite app_nil_r. }
  destruct (is_full p) eqn:Hf.
  - destruct (negb (readopen p) || killed) eqn:Hc; injection E as <- <- <- <-;
      (split_and!; [done..|exists []; split; [done|]; by rewrite app_nil_r|]).
    + right. left. split_and!; [done..| |done]. apply orb_true_iff in Hc as [Hc|Hc]; [left|by right].
      by apply negb_true_iff.
    + right. right. apply orb_false_iff in Hc as [Hc _]. apply negb_false_iff in Hc. done.
  - destruct (put_ok b p Hok Hf) as [Hok1 Hc1].
    destruct (IH _ Hok1 E) as (I1 & I2 & I3 & (pre & -> & I4) & I5).
    split_and!; [done..| |done]. exists (b :: pre). split; [done|]. by rewrite I4, Hc1, <- app_assoc.
Qed.

Lemma piperead_copy_ok n p bs p' :
  pipe_ok p → piperead_copy n p = (bs, p') →
  pipe_ok p' ∧ readopen p' = readopen p ∧ writeopen p' = writeopen p ∧
  contents p = bs ++ contents p' ∧ bs = take n (contents p).
Proof.
  revert p bs. induction n as [|n IH]; intros p bs Hok E; cbn [piperead_copy] in E.
  { injection E as <- <-. done. }
  destruct (is_empty p) eqn:Hf.
  - injection E as <- <-. split_and!; [done..|].
    rewrite is_empty_length in Hf by done. apply bool_decide_eq_true in Hf.
    unfold contents. by rewrite Hf.
  - destruct (get_ok p Hok Hf) as [Hok1 Hc]. destruct (ring_get p) as [b p1] eqn:Eg. cbn [fst snd] in *.
    destruct (piperead_copy n p1) as [bs1 p2] eqn:Ec. injection E as <- <-.
    destruct (IH _ _ Hok1 Ec) as (I1 & I2 & I3 & I4 & I5).
    assert (readopen p1 = readopen p ∧ writeopen p1 = writeopen p) as [<- <-] by (by injection Eg as _ <-).
    split_and!; [done..|by rewrite Hc, I4|]. rewrite Hc. cbn. by rewrite <- I5.
Qed.

(** [n] bytes, or as many as there are *)
Lemma piperead_ok killed n p p' ws res bs :
  pipe_ok p → piperead killed n p = (p', ws, res, bs) →
  pipe_ok p' ∧ readopen p' = readopen p ∧ writeopen p' = writeopen p ∧
  contents p = bs ++ contents p' ∧
  (is_empty p = true ∧ writeopen p = true ∧ p' = p ∧ bs = [] ∧ ws = [] ∧
     res = (if killed then Pret (-1) else Psleep Cnread) ∨
   (is_empty p && writeopen p = false) ∧ ws = [Cnwrite] ∧ bs = take (Z.to_nat n) (contents p) ∧
     res = Pret (Z.of_nat (length bs))).
Proof.
  intros Hok E. unfold piperead in E. destruct (is_empty p && writeopen p) eqn:Hf.
  - apply andb_true_iff in Hf as [H1 H2]. destruct killed; injection E as <- <- <- <-; split_and!; auto 10.
  - destruct (piperead_copy (Z.to_nat n) p) as [bs1 p1] eqn:Ec. injection E as <- <- <- <-.
    destruct (piperead_copy_ok _ _ _ _ Hok Ec) as (I1 & I2 & I3 & I4 & I5).
    split_and!; [done..|]. by right.
Qed.

Lemma pipewrite_killed killed n rest p p' ws res rest' :
  pipewrite killed n rest p = (p', ws, res, rest') → killed = true → ∀ c, res ≠ Psleep c.
Proof.
  intros E ->. revert p E. induction rest as [|b rest IH]; intros p E; cbn in E.
  { by injection E as <- <- <- <-. }
  destruct (is_full p); [|by apply (IH _ E)]. rewrite orb_true_r in E. by injection E as <- <- <- <-.
Qed.

(** ** The invariant *)

Definition fifo_ok (s : sys) : Prop :=
  pipe_ok (s_pipe s) ∧ s_sent s = s_got s ++ contents (s_pipe s).

Lemma pstep_fifo s s' : pstep s s' → fifo_ok s → fifo_ok s'.
Proof.
  intros Hst [Hok Hc]. destruct Hst; cbn in *; try done.
  - destruct (pipewrite_ok _ _ _ _ _ _ _ _ Hok H2) as (I1 & _ & _ & (pre & -> & I4) & _).
    split; [done|]. cbn. rewrite length_app, Nat.add_sub, take_app_length, I4, Hc. by rewrite app_assoc.
  - destruct (piperead_ok _ _ _ _ _ _ _ Hok H2) as (I1 & _ & _ & I4 & _).
    split; [done|]. cbn. by rewrite Hc, I4, app_assoc.
  - unfold pipeclose in H1. destruct writable; injection H1 as <- _ _; (split; [|done]);
      destruct Hok; by split.
Qed.

(** C9: a pipe is a FIFO queue of at most 512 bytes, whatever readers and writers
    do concurrently, whether they are killed, and however often its counters wrap:
    at all times the bytes taken out, followed by the bytes in the ring, are the
    bytes put in, in order. *)
Theorem pipe_fifo s0 s :
  started s0 → rtc (λ s s', pstep s s' ∨ kstep s s') s0 s →
  s_sent s = s_got s ++ contents (s_pipe s) ∧
  (length (contents (s_pipe s)) ≤ 512)%nat.
Proof.
  intros (junk & n & Hj & ->) Hr. assert (Hok : fifo_ok s).
  { cut (fifo_ok {| s_pipe := pipe0 junk; s_sent := []; s_got := [];
      s_threads := replicate n {| t_call := Cidle; t_asleep := None; t_killed := false |} |}).
    - induction Hr as [|s1 s2 s3 [Hs|Hs] _ IH]; [done|..]; intros H1; apply IH.
      + by eapply pstep_fifo.
      + by destruct Hs.
    - split; [|done]. split; cbn; [done|done..]. }
  destruct Hok as [Hp Hc]. split; [done|]. pose proof (contents_length _ Hp). pose proof (pi_len _ Hp).
  unfold PIPESIZE in *. lia.
Qed.

(** ** Wakeups *)

Lemma settle_lookup j c a k ws ts i t :
  settle j c a k ws ts !! i = Some t →
  i = j ∧ t = {| t_call := c; t_asleep := a; t_killed := k |} ∨
  i ≠ j ∧ ∃ t0, ts !! i = Some t0 ∧ t = woken ws t0.
Proof.
  unfold settle. rewrite list_lookup_insert. case_decide as Hd.
  - destruct Hd as [-> _]. intros [= <-]. by left.
  - rewrite list_lookup_fmap. intros Hi. destruct (decide (i = j)) as [->|Hne].
    + exfalso. apply Hd. split; [done|]. rewrite length_fmap.
      destruct (ts !! j) eqn:E; [by apply lookup_lt_Some in E|done].
    + right. split; [done|]. destruct (ts !! i) as [t0|]; [|done]. injection Hi as <-. eauto.
Qed.

(** the calls in progress use open ends; a sleeper has a reason to *)
Definition thread_ok (p : pipe) (t : thread) : Prop :=
  t_killed t = false ∧
  match t_call t with Cidle => True | Cwrite _ _ => writeopen p = true | Cread _ => readopen p = true end ∧
  match t_asleep t with
  | None => True
  | Some Cnwrite => is_full p = true ∧ readopen p = true ∧ ∃ n r, t_call t = Cwrite n r
  | Some Cnread => is_empty p = true ∧ writeopen p = true ∧ ∃ n, t_call t = Cread n
  end.

Definition wake_ok (s : sys) : Prop :=
  pipe_ok (s_pipe s) ∧ ∀ i t, s_threads s !! i = Some t → thread_ok (s_pipe s) t.

Lemma woken_ok p p' ws t :
  thread_ok p t → readopen p' = readopen p → writeopen p' = writeopen p →
  (Cnwrite ∉ ws → is_full p = true → readopen p = true → is_full p' = true) →
  (Cnread ∉ ws → is_empty p = true → writeopen p = true → readopen p = true → is_empty p' = true) →
  thread_ok p' (woken ws t).
Proof.
  intros (T1 & T2 & T3) Er Ew Hf He. unfold woken, thread_ok.
  destruct (t_asleep t) as [c|] eqn:Ea; [|rewrite Er, Ew, Ea; done].
  case_decide as Hd; cbn; rewrite ?Er, ?Ew; [done|]. rewrite Ea. split_and!; [done|done|].
  destruct c; destruct T3 as (T3 & T4 & n & T5); (split_and!; [|done|]).
  - apply He; [done|done|done|]. by rewrite T5 in T2.
  - by exists n.
  - by apply Hf.
  - by exists n.
Qed.

Lemma close_ok writable p p' ws freed t :
  thread_ok p t → (if writable : bool then not_writing else not_reading) (t_call t) →
  pipeclose writable p = (p', ws, freed) → thread_ok p' (woken ws t).
Proof.
  intros (T1 & T2 & T3) Hno E. unfold woken, thread_ok.
  destruct writable; injection E as <- <- _; destruct (t_asleep t) as [[]|] eqn:Ea;
    try (rewrite decide_True by set_solver); try (rewrite decide_False by set_solver);
    cbn; rewrite ?Ea; destruct (t_call t) eqn:Ec; cbn; rewrite ?Ec; naive_solver.
Qed.

Lemma full_grows p p' pre :
  pipe_ok p → pipe_ok p' → contents p' = contents p ++ pre → is_full p = true → is_full p' = true.
Proof.
  intros Hp Hp' E. rewrite !is_full_length by done. intros Hf%bool_decide_eq_true. apply bool_decide_eq_true.
  pose proof (contents_length _ Hp) as L. pose proof (contents_length _ Hp') as L'.
  rewrite E, length_app in L'. pose proof (pi_len _ Hp'). lia.
Qed.

Lemma pstep_wake s s' : pstep s s' → wake_ok s → wake_ok s'.
Proof.
  intros Hst [Hok Ht]. destruct Hst as [j t bs p ts sent got Hj Hc Ho|j t n p ts sent got Hj Hc Ho
    |j t n rest p ts sent got p' ws res rest' Hj Hc Ha E|j t n p ts sent got p' ws res bs Hj Hc Ha E
    |writable p ts sent got p' ws freed Ho Hno E]; cbn [s_pipe s_threads] in *.
  - split; [done|]. intros i t' [[-> ->]|(_ & t0 & H0 & ->)]%settle_lookup.
    + destruct (Ht _ _ Hj) as (-> & _). done.
    + by apply (woken_ok p); [eauto|..].
  - split; [done|]. intros i t' [[-> ->]|(_ & t0 & H0 & ->)]%settle_lookup.
    + destruct (Ht _ _ Hj) as (-> & _). done.
    + by apply (woken_ok p); [eauto|..].
  - destruct (Ht _ _ Hj) as (Hk & Hw & _). rewrite Hc in Hw. rewrite Hk in *.
    destruct (pipewrite_ok _ _ _ _ _ _ _ _ Hok E) as (I1 & I2 & I3 & (pre & _ & I4) & I5).
    split; [done|]. intros i t' [[-> ->]|(_ & t0 & H0 & ->)]%settle_lookup.
    + destruct I5 as [(-> & _)|[(_ & _ & -> & _)|(If & _ & -> & Io & _)]]; cbn; [done|done|].
      unfold thread_ok; cbn. rewrite I2, I3. split_and!; eauto.
    + apply (woken_ok p); [eauto|done|done|intros; by eapply (full_grows p p' pre)|].
      intros Hn He Hwo Hro.
      destruct I5 as [(_ & _ & ->)|[(_ & _ & _ & [?|?] & _)|(_ & _ & _ & _ & ->)]];
        [set_solver|congruence|done|set_solver].
  - destruct (Ht _ _ Hj) as (Hk & Hw & _). rewrite Hc in Hw. rewrite Hk in *.
    destruct (piperead_ok _ _ _ _ _ _ _ Hok E) as (I1 & I2 & I3 & I4 & I5).
    split; [done|]. intros i t' [[-> ->]|(_ & t0 & H0 & ->)]%settle_lookup.
    + destruct I5 as [(R1 & R2 & -> & _ & _ & ->)|(_ & _ & _ & ->)]; cbn; [|done].
      unfold thread_ok; cbn. split_and!; eauto.
    + apply (woken_ok p); [eauto|done|done|..].
      * intros Hn Hf _. destruct I5 as [(_ & _ & -> & _)|(_ & -> & _)]; [done|set_solver].
      * intros Hn He Hwo _. destruct I5 as [(_ & _ & -> & _)|(Hb & _)]; [done|].
        by rewrite He, Hwo in Hb.
  - split.
    + unfold pipeclose in E. destruct writable; injection E as <- _ _; destruct Hok; by split.
    + intros i t' Hi. cbn [s_threads] in Hi. rewrite list_lookup_fmap in Hi. destruct (ts !! i) as [t|] eqn:Ei; [|done].
      injection Hi as <-. eapply close_ok; [eauto| |exact E].
      unfold all_calls in Hno. rewrite Forall_lookup in Hno. by apply (Hno i).
Qed.

(** C22: no wakeup is lost: as long as nobody is killed, a writer is asleep only
    while the ring is full and the read end is open, and a reader only while the
    ring is empty and the write end is open.  So the two never wait for each
    other, and a sleeper always waits for a process that can still act. *)
Theorem pipe_no_lost_wakeup s0 s i t :
  started s0 → rtc pstep s0 s → s_threads s !! i = Some t →
  (t_asleep t = Some Cnwrite → length (contents (s_pipe s)) = 512%nat ∧ readopen (s_pipe s) = true) ∧
  (t_asleep t = Some Cnread → contents (s_pipe s) = [] ∧ writeopen (s_pipe s) = true).
Proof.
  intros (junk & n & Hj & ->) Hr Hi. assert (Hok : wake_ok s).
  { cut (wake_ok {| s_pipe := pipe0 junk; s_sent := []; s_got := [];
      s_threads := replicate n {| t_call := Cidle; t_asleep := None; t_killed := false |} |}).
    - induction Hr as [|s1 s2 s3 Hs _ IH]; [done|]. intros H1. apply IH; [done|]. by eapply pstep_wake.
    - split; [by split|]. intros i' t' [-> _]%lookup_replicate. done. }
  destruct Hok as [Hp Ht]. destruct (Ht _ _ Hi) as (_ & _ & T). pose proof (contents_length _ Hp) as L.
  split; intros E; rewrite E in T; destruct T as (T1 & T2 & _); (split; [|done]).
  - rewrite is_full_length in T1 by done. apply bool_decide_eq_true in T1. unfold PIPESIZE in T1. lia.
  - rewrite is_empty_length in T1 by done. apply bool_decide_eq_true in T1. apply nil_length_inv. lia.
Qed.

(** the exception: a writer that has been killed and then fills the ring
    returns -1 without the wakeup, so a reader can be asleep on a full ring. *)
Theorem pipe_killed_writer :
  ∃ s0 s t, started s0 ∧ rtc (λ s s', pstep s s' ∨ kstep s s') s0 s ∧
    s_threads s !! 0%nat = Some t ∧ t_asleep t = Some Cnread ∧
    length (contents (s_pipe s)) = 512%nat.
Proof.
  assert (∃ junk : list Z, length junk = Z.to_nat PIPESIZE) as [junk Hjunk]
    by (exists (replicate (Z.to_nat PIPESIZE) 0); apply length_replicate).
  assert (∃ bs : list Z, Z.of_nat (length bs) = 513) as [bs Hbs]
    by (exists (replicate (Z.to_nat 513) 7); rewrite length_replicate; lia).
  set (p := pipe0 junk).
  set (t0 := {| t_call := Cidle; t_asleep := None; t_killed := false |}).
  set (tr := {| t_call := Cread 1; t_asleep := Some Cnread; t_killed := false |}).
  destruct (pipewrite true 513 bs p) as [[[p' ws] res] rest'] eqn:E.
  assert (Hp : pipe_ok p) by (split; [exact Hjunk|split; done|split; done|done]).
  destruct (pipewrite_ok _ _ _ _ _ _ _ _ Hp E) as (I1 & _ & _ & (pre & I3 & I4) & I5).
  pose proof (contents_length _ I1) as L. pose proof (pi_len _ I1) as Lp. unfold PIPESIZE in Lp.
  assert (Hlen : (length pre + length rest' = 513)%nat)
    by (rewrite <- length_app, <- I3; lia).
  assert (Hpre : length (contents p') = length pre) by (by rewrite I4).
  pose proof (pipewrite_killed _ _ _ _ _ _ _ _ E eq_refl) as Hs.
  destruct I5 as [(_ & -> & _)|[(If & _ & -> & _ & ->)|(_ & _ & -> & _)]]; [cbn in Hlen; lia| |by destruct (Hs Cnwrite)].
  set (s0 := {| s_pipe := p; s_threads := [t0; t0]; s_sent := []; s_got := [] |}).
  set (tw := {| t_call := Cwrite 513 bs; t_asleep := None; t_killed := true |}).
  exists s0, {| s_pipe := p'; s_threads := [tr; {| t_call := Cidle; t_asleep := None; t_killed := true |}];
    s_sent := [] ++ take (length bs - length rest') bs; s_got := [] ++ [] |}, tr.
  split_and!; [by exists junk, 2%nat| |done|done|].
  - eapply rtc_l; [left; eapply (st_start_read 0 t0 1); done|].
    eapply rtc_l; [left; eapply (st_read 0 _ 1 p); [done|done|done|reflexivity]|].
    eapply rtc_l; [left; eapply (st_start_write 1 t0 bs p); done|]. rewrite Hbs.
    eapply rtc_l; [right; eapply (st_kill 1); done|].
    eapply rtc_l; [left; eapply (st_write 1 tw 513 bs p); [done|done|done|exact E]|].
    apply rtc_refl.
  - rewrite is_full_length in If by done. apply bool_decide_eq_true in If. unfold PIPESIZE in If.
    cbn [s_pipe]. lia.
Qed.

(** ** Instances *)

Definition quiet : sys :=
  {| s_pipe := pipe0 (replicate (Z.to_nat PIPESIZE) 0); s_sent := []; s_got := [];
     s_threads := [{| t_call := Cidle; t_asleep := None; t_killed := false |}] |}.

Lemma quiet_started : started quiet.
Proof. exists (replicate (Z.to_nat PIPESIZE) 0), 1%nat. split; [apply length_replicate|done]. Qed.

(** the only thread starts a read and finds the ring empty *)
Lemma quiet_reads : ∃ s, rtc pstep quiet s ∧
  s_threads s = [{| t_call := Cread 1; t_asleep := Some Cnread; t_killed := false |}].
Proof.
  unfold quiet. generalize (replicate (Z.to_nat PIPESIZE) 0). intros junk. eexists. split.
  - eapply rtc_l; [eapply (st_start_read 0 _ 1); done|].
    eapply rtc_l; [eapply (st_read 0 _ 1 (pipe0 junk)); [done|done|done|reflexivity]|]. apply rtc_refl.
  - done.
Qed.

Example pipe_fifo_witness :
  ∃ s, rtc pstep quiet s ∧ s_sent s = s_got s ++ contents (s_pipe s).
Proof.
  destruct quiet_reads as (s & Hr & _). exists s. split; [exact Hr|].
  apply (pipe_fifo quiet s quiet_started). eapply rtc_subrel; [|exact Hr]. by left.
Defined.

Example pipe_no_lost_wakeup_witness :
  ∃ s, rtc pstep quiet s ∧ contents (s_pipe s) = [] ∧ writeopen (s_pipe s) = true.
Proof.
  destruct quiet_reads as (s & Hr & Ht). exists s. split; [exact Hr|].
  apply (pipe_no_lost_wakeup quiet s 0 {| t_call := Cread 1; t_asleep := Some Cnread; t_killed := false |}
    quiet_started Hr); [by rewrite Ht|done].
Defined.
