(* ===== verification/Block.v ===== *)
(** * Disk blocks as byte arrays

    A block is the list of its bytes.  The file system overlays C structures on
    it; the accessors here read and write little-endian integers and byte ranges
    at an offset, as the compiled code does. *)

From S2P Require Import Prelude.

Definition BSIZE : Z := 512.
Definition zero_block : list Z := replicate (Z.to_nat BSIZE) 0.

(** ** Byte ranges *)

(** [memmove(dst, data + off, n)] *)
Definition get_bytes (off n : nat) (data : list Z) : list Z := take n (drop off data).
(** [memmove(data + off, bs, length bs)], within the block *)
Definition put_bytes (off : nat) (bs data : list Z) : list Z :=
  take off data ++ bs ++ drop (off + length bs) data.

Lemma length_put_bytes off bs data :
  (off + length bs ≤ length data)%nat → length (put_bytes off bs data) = length data.
Proof. intros H. unfold put_bytes. rewrite !length_app, length_take, length_drop. lia. Qed.

Lemma length_get_bytes off n data :
  (off + n ≤ length data)%nat → length (get_bytes off n data) = n.
Proof. intros H. unfold get_bytes. rewrite length_take, length_drop. lia. Qed.

Lemma lookup_put_bytes off bs data i :
  (off + length bs ≤ length data)%nat →
  put_bytes off bs data !! i =
    if decide (off ≤ i < off + length bs)%nat then bs !! (i - off)%nat else data !! i.
Proof.
  intros H. unfold put_bytes. case_decide as Hd.
  - rewrite lookup_app_r by (rewrite length_take; lia). rewrite length_take, Nat.min_l by lia.
    by rewrite lookup_app_l by lia.
  - destruct (decide (i < off)%nat).
    + rewrite lookup_app_l by (rewrite length_take; lia). by rewrite lookup_take_lt.
    + rewrite lookup_app_r by (rewrite length_take; lia). rewrite length_take, Nat.min_l by lia.
      rewrite lookup_app_r by lia. rewrite lookup_drop. f_equal. lia.
Qed.

Lemma lookup_get_bytes off n data i :
  (i < n)%nat → get_bytes off n data !! i = data !! (off + i)%nat.
Proof. intros Hi. unfold get_bytes. rewrite lookup_take_lt by done. by rewrite lookup_drop. Qed.

Lemma get_bytes_ext off n data data' :
  (∀ i, (i < n)%nat → data !! (off + i)%nat = data' !! (off + i)%nat) →
  get_bytes off n data = get_bytes off n data'.
Proof.
  intros H. apply list_eq. intros i. destruct (decide (i < n)%nat).
  - rewrite !lookup_get_bytes by done. auto.
  - unfold get_bytes. by rewrite !lookup_take_ge by lia.
Qed.

Lemma get_put_bytes off bs data :
  (off + length bs ≤ length data)%nat → get_bytes off (length bs) (put_bytes off bs data) = bs.
Proof.
  intros H. apply list_eq. intros i. destruct (decide (i < length bs)%nat).
  - rewrite lookup_get_bytes, lookup_put_bytes by done. rewrite decide_True by lia. f_equal. lia.
  - rewrite !lookup_ge_None_2; [done|lia|]. rewrite length_get_bytes; [lia|].
    by rewrite length_put_bytes.
Qed.

Lemma get_put_bytes_ne off n off' bs data :
  (off' + length bs ≤ length data)%nat → (off + n ≤ off' ∨ off' + length bs ≤ off)%nat →
  get_bytes off n (put_bytes off' bs data) = get_bytes off n data.
Proof.
  intros H Hd. apply get_bytes_ext. intros i Hi. rewrite lookup_put_bytes by done.
  by rewrite decide_False by lia.
Qed.

(** ** Integers *)

Definition le16 (v : Z) : list Z := [v mod 2 ^ 8; v / 2 ^ 8 mod 2 ^ 8].
Definition le32 (v : Z) : list Z :=
  [v mod 2 ^ 8; v / 2 ^ 8 mod 2 ^ 8; v / 2 ^ 16 mod 2 ^ 8; v / 2 ^ 24 mod 2 ^ 8].

Fixpoint le_val (bs : list Z) : Z :=
  match bs with [] => 0 | b :: bs => b + 2 ^ 8 * le_val bs end.

Definition get16 (off : nat) (data : list Z) : Z := le_val (get_bytes off 2 data).
Definition get32 (off : nat) (data : list Z) : Z := le_val (get_bytes off 4 data).
Definition put16 (off : nat) (v : Z) (data : list Z) : list Z := put_bytes off (le16 v) data.
Definition put32 (off : nat) (v : Z) (data : list Z) : list Z := put_bytes off (le32 v) data.

Lemma le_val_le32 v : le_val (le32 v) = u32 v.
Proof. unfold le_val, le32, u32. zdm. Qed.
Lemma le_val_le16 v : le_val (le16 v) = u16 v.
Proof. unfold le_val, le16, u16. zdm. Qed.

Lemma length_put32 off v data :
  (off + 4 ≤ length data)%nat → length (put32 off v data) = length data.
Proof. apply (length_put_bytes _ (le32 v)). Qed.
Lemma length_put16 off v data :
  (off + 2 ≤ length data)%nat → length (put16 off v data) = length data.
Proof. apply (length_put_bytes _ (le16 v)). Qed.

Lemma get_put32 off v data :
  (off + 4 ≤ length data)%nat → get32 off (put32 off v data) = u32 v.
Proof.
  intros H. unfold get32, put32. change 4%nat with (length (le32 v)).
  rewrite get_put_bytes by done. apply le_val_le32.
Qed.
Lemma get_put16 off v data :
  (off + 2 ≤ length data)%nat → get16 off (put16 off v data) = u16 v.
Proof.
  intros H. unfold get16, put16. change 2%nat with (length (le16 v)).
  rewrite get_put_bytes by done. apply le_val_le16.
Qed.

Lemma get32_put32_ne off off' v data :
  (off' + 4 ≤ length data)%nat → (off + 4 ≤ off' ∨ off' + 4 ≤ off)%nat →
  get32 off (put32 off' v data) = get32 off data.
Proof. intros H Hd. unfold get32, put32. by rewrite (get_put_bytes_ne off 4 off' (le32 v)). Qed.

(** the bytes of a block are bytes *)
Definition block_ok (data : list Z) : Prop :=
  length data = Z.to_nat BSIZE ∧ Forall (λ b, is_u8 b) data.

Lemma le_val_range bs : Forall (λ b, is_u8 b) bs → 0 ≤ le_val bs < 2 ^ (8 * Z.of_nat (length bs)).
Proof.
  induction 1 as [|b bs Hb _ IH]; cbn [le_val length]; [cbn; lia|].
  rewrite Nat2Z.inj_succ. replace (8 * Z.succ (Z.of_nat (length bs))) with (8 + 8 * Z.of_nat (length bs)) by lia.
  rewrite Z.pow_add_r by lia. unfold is_u8 in Hb. change (2 ^ 8) with 256 in *. lia.
Qed.

Lemma get32_range off data :
  Forall (λ b, is_u8 b) data → is_u32 (get32 off data).
Proof.
  intros H. unfold get32, get_bytes.
  pose proof (le_val_range (take 4 (drop off data))) as Hr.
  assert (Hl : (length (take 4 (drop off data)) ≤ 4)%nat) by (rewrite length_take; lia).
  assert (0 ≤ le_val (take 4 (drop off data)) < 2 ^ (8 * Z.of_nat (length (take 4 (drop off data))))).
  { apply Hr. by apply Forall_take, Forall_drop. }
  unfold is_u32. pose proof (Z.pow_le_mono_r 2 (8 * Z.of_nat (length (take 4 (drop off data)))) 32). lia.
Qed.

Lemma le32_bytes v : Forall (λ b, is_u8 b) (le32 v).
Proof. unfold le32, is_u8. repeat constructor; apply Z.mod_pos_bound; lia. Qed.
Lemma le16_bytes v : Forall (λ b, is_u8 b) (le16 v).
Proof. unfold le16, is_u8. repeat constructor; apply Z.mod_pos_bound; lia. Qed.

Lemma put_bytes_ok off bs data :
  block_ok data → (off + length bs ≤ 512)%nat → Forall (λ b, is_u8 b) bs → block_ok (put_bytes off bs data).
Proof.
  intros [H1 H2] Hl Hb. unfold block_ok, BSIZE in *. split.
  - rewrite length_put_bytes; lia.
  - unfold put_bytes. apply Forall_app_2; [by apply Forall_take|].
    apply Forall_app_2; [done|by apply Forall_drop].
Qed.

Lemma zero_block_ok : block_ok zero_block.
Proof.
  split; [apply length_replicate|]. apply Forall_replicate. unfold is_u8. lia.
Qed.

(** ** The super block *)

Record superblock := {
  sb_size : Z; sb_nblocks : Z; sb_ninodes : Z; sb_nlog : Z;
  sb_logstart : Z; sb_inodestart : Z; sb_bmapstart : Z }.

(** the fields at their offsets in block 1 *)
Definition decode_sb (data : list Z) : superblock :=
  {| sb_size := get32 0 data; sb_nblocks := get32 4 data; sb_ninodes := get32 8 data;
     sb_nlog := get32 12 data; sb_logstart := get32 16 data;
     sb_inodestart := get32 20 data; sb_bmapstart := get32 24 data |}.
