(* ===== verification/Bio.v ===== *)
(** * bio.c, sleeplock.c and the contract of the disk driver: the buffer cache

    Buffers are an array with a list threaded through [prev] and [next]; a
    pointer to a buffer is its index and [&bcache.head] the index [NBUF].  The
    calls of one process run here ([me] is its pid): a sleep-lock that is taken
    makes it sleep ([Asleep], the channel being the number of the buffer).
    [iderw] is what its comment says: it returns when the disk is done.  The
    state keeps the list of all disk writes, in order, for reasoning about
    crashes. *)

From S2P Require Import Prelude Block.

Definition NBUF : nat := 30.
Definition FSSIZE : Z := 1000.
Definition B_VALID : Z := 0x2.
Definition B_DIRTY : Z := 0x4.

Record buf := {
  b_flags : Z; b_dev : Z; b_blockno : Z;
  b_locked : bool; b_pid : Z;  (* the sleep-lock *)
  b_refcnt : Z; b_prev : nat; b_next : nat; b_data : list Z }.

Definition set_flags v b := {| b_flags := v; b_dev := b_dev b; b_blockno := b_blockno b;
  b_locked := b_locked b; b_pid := b_pid b; b_refcnt := b_refcnt b; b_prev := b_prev b;
  b_next := b_next b; b_data := b_data b |}.
Definition set_key dev bno b := {| b_flags := b_flags b; b_dev := dev; b_blockno := bno;
  b_locked := b_locked b; b_pid := b_pid b; b_refcnt := b_refcnt b; b_prev := b_prev b;
  b_next := b_next b; b_data := b_data b |}.
Definition set_lock l p b := {| b_flags := b_flags b; b_dev := b_dev b; b_blockno := b_blockno b;
  b_locked := l; b_pid := p; b_refcnt := b_refcnt b; b_prev := b_prev b;
  b_next := b_next b; b_data := b_data b |}.
Definition set_refcnt v b := {| b_flags := b_flags b; b_dev := b_dev b; b_blockno := b_blockno b;
  b_locked := b_locked b; b_pid := b_pid b; b_refcnt := v; b_prev := b_prev b;
  b_next := b_next b; b_data := b_data b |}.
Definition set_prev v b := {| b_flags := b_flags b; b_dev := b_dev b; b_blockno := b_blockno b;
  b_locked := b_locked b; b_pid := b_pid b; b_refcnt := b_refcnt b; b_prev := v;
  b_next := b_next b; b_data := b_data b |}.
Definition set_next v b := {| b_flags := b_flags b; b_dev := b_dev b; b_blockno := b_blockno b;
  b_locked := b_locked b; b_pid := b_pid b; b_refcnt := b_refcnt b; b_prev := b_prev b;
  b_next := v; b_data := b_data b |}.
Definition set_data v b := {| b_flags := b_flags b; b_dev := b_dev b; b_blockno := b_blockno b;
  b_locked := b_locked b; b_pid := b_pid b; b_refcnt := b_refcnt b; b_prev := b_prev b;
  b_next := b_next b; b_data := v |}.

(** blocks never written to read as zeros *)
Abbreviation disk_t := (gmap (Z * Z) (list Z)).
Definition dblock (d : disk_t) (dev bno : Z) : list Z := default zero_block (d !! (dev, bno)).

Record bio := {
  bufs : list buf;  (* [bcache.buf], then [bcache.head] *)
  havedisk1 : bool;
  disk : disk_t;
  writes : list (Z * Z * list Z) }.

Definition with_bufs (f : list buf → list buf) (s : bio) : bio :=
  {| bufs := f (bufs s); havedisk1 := havedisk1 s; disk := disk s; writes := writes s |}.

Section bio.
  (** [myproc()->pid] *)
  Context (me : Z).

Abbreviation B := (M bio).

Definition buf_at (i : nat) : B buf :=
  l ← gets bufs;
  match l !! i with Some b => mret b | None => panic "fault: not a buffer" end.
Definition bupd (i : nat) (f : buf → buf) : B unit := modify (with_bufs (alter f i)).

(** ** sleeplock.c *)

Definition sleep (chan : Z) : B unit := λ s, Asleep chan s.

Definition acquiresleep (i : nat) : B unit :=
  b ← buf_at i;
  if b_locked b then sleep (Z.of_nat i)
  else bupd i (set_lock true me).

Definition releasesleep (i : nat) : B unit := bupd i (set_lock false 0).

Definition holdingsleep (i : nat) : B bool :=
  b ← buf_at i;
  mret (b_locked b && (b_pid b =? me)).

(** ** ide.c, seen from its callers *)

Definition iderw (i : nat) : B unit :=
  h ← holdingsleep i;
  b ← buf_at i;
  hd1 ← gets havedisk1;
  if negb h then panic "iderw: buf not locked"
  else if Z.land (b_flags b) (Z.lor B_VALID B_DIRTY) =? B_VALID then panic "iderw: nothing to do"
  else if negb (b_dev b =? 0) && negb hd1 then panic "iderw: ide disk 1 not present"
  else if FSSIZE <=? b_blockno b then panic "incorrect blockno"
  else
    _ ← (if negb (Z.land (b_flags b) B_DIRTY =? 0) then
           modify (λ s, {| bufs := bufs s; havedisk1 := havedisk1 s;
             disk := <[(b_dev b, b_blockno b) := b_data b]> (disk s);
             writes := writes s ++ [(b_dev b, b_blockno b, b_data b)] |})
         else
           d ← gets (λ s, dblock (disk s) (b_dev b) (b_blockno b));
           bupd i (set_data d));
    bupd i (λ b, set_flags (Z.land (Z.lor (b_flags b) B_VALID) (Z.lnot B_DIRTY)) b).

(** ** bio.c *)

(** [b->next->prev = b->prev], etc.: the list operations *)
Definition insert_front (i : nat) : B unit :=
  h ← buf_at NBUF;
  _ ← bupd i (set_next (b_next h));
  _ ← bupd i (set_prev NBUF);
  h ← buf_at NBUF;
  _ ← bupd (b_next h) (set_prev i);
  bupd NBUF (set_next i).

Definition unlink (i : nat) : B unit :=
  b ← buf_at i;
  _ ← bupd (b_next b) (set_prev (b_prev b));
  b ← buf_at i;
  bupd (b_prev b) (set_next (b_next b)).

Fixpoint binit_loop (n i : nat) : B unit :=
  match n with
  | O => mret ()
  | S n =>
      _ ← insert_front i;
      _ ← bupd i (set_lock false 0);
      binit_loop n (S i)
  end.

Definition binit : B unit :=
  _ ← bupd NBUF (set_prev NBUF);
  _ ← bupd NBUF (set_next NBUF);
  binit_loop NBUF 0.

(** the two loops of [bget] over the list, from the buffer [i] on *)
Fixpoint scan_next (fuel : nat) (P : buf → bool) (i : nat) : B (option nat) :=
  match fuel with
  | O => λ _, NoFuel
  | S fuel =>
      if decide (i = NBUF) then mret None
      else b ← buf_at i; if P b then mret (Some i) else scan_next fuel P (b_next b)
  end.
Fixpoint scan_prev (fuel : nat) (P : buf → bool) (i : nat) : B (option nat) :=
  match fuel with
  | O => λ _, NoFuel
  | S fuel =>
      if decide (i = NBUF) then mret None
      else b ← buf_at i; if P b then mret (Some i) else scan_prev fuel P (b_prev b)
  end.

Definition is_block (dev blockno : Z) (b : buf) : bool := (b_dev b =? dev) && (b_blockno b =? blockno).
Definition is_free (b : buf) : bool := (b_refcnt b =? 0) && (Z.land (b_flags b) B_DIRTY =? 0).

Definition bget (dev blockno : Z) : B nat :=
  h ← buf_at NBUF;
  r ← scan_next (S NBUF) (is_block dev blockno) (b_next h);
  match (r : option nat) with
  | Some i =>
      _ ← bupd i (λ b, set_refcnt (u32 (b_refcnt b + 1)) b);
      _ ← acquiresleep i;
      mret i
  | None =>
      h ← buf_at NBUF;
      r ← scan_prev (S NBUF) is_free (b_prev h);
      match (r : option nat) with
      | Some i =>
          _ ← bupd i (set_key dev blockno);
          _ ← bupd i (set_flags 0);
          _ ← bupd i (set_refcnt 1);
          _ ← acquiresleep i;
          mret i
      | None => panic "bget: no buffers"
      end
  end.

Definition bread (dev blockno : Z) : B nat :=
  i ← bget dev blockno;
  b ← buf_at i;
  _ ← (if Z.land (b_flags b) B_VALID =? 0 then iderw i else mret ());
  mret i.

Definition bwrite (i : nat) : B unit :=
  h ← holdingsleep i;
  if negb (h : bool) then panic "bwrite"
  else
    _ ← bupd i (λ b, set_flags (Z.lor (b_flags b) B_DIRTY) b);
    iderw i.

Definition brelse (i : nat) : B unit :=
  h ← holdingsleep i;
  if negb (h : bool) then panic "brelse"
  else
    _ ← releasesleep i;
    _ ← bupd i (λ b, set_refcnt (u32 (b_refcnt b - 1)) b);
    b ← buf_at i;
    if b_refcnt b =? 0 then
      _ ← unlink i;
      insert_front i
    else mret ().

(** [b->data] *)
Definition bdata (i : nat) (s : bio) : list Z := from_option b_data [] (bufs s !! i).
Definition set_bdata (i : nat) (data : list Z) : B unit := bupd i (set_data data).

End bio.
