(* ===== verification/BioRing.v ===== *)
(** * The list of buffers

    [ring l o]: the pointers of the array [l] thread the buffers in the order
    [o], most recently used first, forwards through [next] and backwards through
    [prev].  The pointer assignments of bio.c move a buffer to the front of [o];
    the loops of [bget] search [o] and its reverse. *)

From S2P Require Import Prelude Block Bio.

(** ** Neighbours *)

Fixpoint adj (path : list nat) (a b : nat) : Prop :=
  match path with
  | [] => False
  | x :: r => (x = a ∧ head r = Some b) ∨ adj r a b
  end.

Lemma adj_in path a b : adj path a b → a ∈ path ∧ b ∈ tail path.
Proof.
  induction path as [|x r IH]; [done|]. cbn [adj tail]. intros [[-> Hh]|H].
  - split; [left|]. destruct r; simplify_eq/=. left.
  - destruct (IH H) as [? Hb]. split; [by right|]. destruct r; [done|]. by right.
Qed.

Lemma adj_app P u v Q : adj (P ++ u :: v :: Q) u v.
Proof. induction P as [|x P IH]; cbn; auto. Qed.

(** the neighbours after [x] is taken out *)
Lemma adj_remove P u x n Q a b :
  x ∉ P ++ [u] → x ∉ n :: Q →
  adj (P ++ u :: n :: Q) a b → (a = u ∧ b = n) ∨ (adj (P ++ u :: x :: n :: Q) a b ∧ a ≠ x ∧ b ≠ x).
Proof.
  intros HP HQ. induction P as [|z P IH].
  - cbn [app adj head]. intros [[-> [= ->]]|H]; [by left|right].
    pose proof (adj_in (n :: Q) a b H) as [Ha Hb]. split_and!; [auto| |].
    + by intros ->.
    + intros ->. apply HQ. by right.
  - cbn [app adj]. intros [[-> Hh]|H].
    + destruct P as [|z' P]; simplify_eq/=; right; split_and!; auto; set_solver.
    + destruct IH as [?|[? ?]]; [set_solver|done|by left|right; auto].
Qed.

(** ** The pointers *)

Definition nextof (l : list buf) (a : nat) : option nat := b_next <$> l !! a.
Definition prevof (l : list buf) (a : nat) : option nat := b_prev <$> l !! a.

Definition threads (l : list buf) (path : list nat) : Prop :=
  ∀ a b, adj path a b → nextof l a = Some b ∧ prevof l b = Some a.

Definition loop (o : list nat) : list nat := NBUF :: o ++ [NBUF].

Record ring (l : list buf) (o : list nat) : Prop := {
  ring_threads : threads l (loop o);
  ring_nodup : NoDup o;
  ring_bound : ∀ i, i ∈ o → (i < NBUF)%nat }.

Lemma nextof_prev l f i a : (∀ b, b_next (f b) = b_next b) → nextof (alter f i l) a = nextof l a.
Proof.
  intros Hf. unfold nextof. destruct (decide (a = i)) as [->|].
  - rewrite list_lookup_alter_eq. destruct (l !! i); cbn; [by rewrite Hf|done].
  - by rewrite list_lookup_alter_ne.
Qed.
Lemma prevof_next l f i a : (∀ b, b_prev (f b) = b_prev b) → prevof (alter f i l) a = prevof l a.
Proof.
  intros Hf. unfold prevof. destruct (decide (a = i)) as [->|].
  - rewrite list_lookup_alter_eq. destruct (l !! i); cbn; [by rewrite Hf|done].
  - by rewrite list_lookup_alter_ne.
Qed.
Lemma nextof_next l n i a :
  (i < length l)%nat → nextof (alter (set_next n) i l) a = if decide (a = i) then Some n else nextof l a.
Proof.
  intros [b Hb]%lookup_lt_is_Some_2. unfold nextof. case_decide as Hd; subst.
  - by rewrite list_lookup_alter_eq, Hb.
  - by rewrite list_lookup_alter_ne.
Qed.
Lemma prevof_prev l n i a :
  (i < length l)%nat → prevof (alter (set_prev n) i l) a = if decide (a = i) then Some n else prevof l a.
Proof.
  intros [b Hb]%lookup_lt_is_Some_2. unfold prevof. case_decide as Hd; subst.
  - by rewrite list_lookup_alter_eq, Hb.
  - by rewrite list_lookup_alter_ne.
Qed.

(** ** Moving a buffer to the front *)

(** a buffer without its links *)
Definition core (b : buf) : buf := set_prev 0 (set_next 0 b).

Lemma core_alter f (i : nat) (l : list buf) : (∀ b, core (f b) = core b) → core <$> alter f i l = core <$> l.
Proof.
  intros Hf. apply list_eq. intros j. rewrite !list_lookup_fmap.
  destruct (decide (j = i)) as [->|].
  - rewrite list_lookup_alter_eq. destruct (l !! i); cbn; [by rewrite Hf|done].
  - by rewrite list_lookup_alter_ne.
Qed.

(** only the links differ *)
Record relinked (s s' : bio) : Prop := {
  rl_core : core <$> bufs s' = core <$> bufs s;
  rl_disk1 : havedisk1 s' = havedisk1 s;
  rl_disk : disk s' = disk s;
  rl_writes : writes s' = writes s }.

Lemma relinked_trans s1 s2 s3 : relinked s1 s2 → relinked s2 s3 → relinked s1 s3.
Proof. intros [] []. constructor; congruence. Qed.

Lemma relinked_length s s' : relinked s s' → length (bufs s') = length (bufs s).
Proof. intros [H _ _ _]. apply (f_equal length) in H. by rewrite !length_fmap in H. Qed.

Lemma buf_at_Ret i s b : bufs s !! i = Some b → buf_at i s = Ret b s.
Proof. intros H. unfold buf_at, gets, mbind, M_bind. by rewrite H. Qed.

Lemma runs_buf_at i s b (Q : buf → bio → Prop) : bufs s !! i = Some b → Q b s → runs (buf_at i) s Q.
Proof. intros H HQ. exists b, s. split; [by apply buf_at_Ret|done]. Qed.

Lemma alter_relinked (i : nat) f (s : bio) :
  (∀ b, core (f b) = core b) → relinked s (with_bufs (alter f i) s).
Proof. intros Hf. constructor; try done. by apply core_alter. Qed.

Section ring_ops.
  Context (s : bio) (Hlen : length (bufs s) = S NBUF).

Lemma nth_buf i : (i ≤ NBUF)%nat → ∃ b, bufs s !! i = Some b.
Proof. intros H. apply lookup_lt_is_Some_2. lia. Qed.

(** the neighbours of [x] *)
Lemma ring_around o1 x o2 :
  ring (bufs s) (o1 ++ x :: o2) →
  ∃ P u n Q, NBUF :: o1 = P ++ [u] ∧ o2 ++ [NBUF] = n :: Q ∧
    loop (o1 ++ x :: o2) = P ++ u :: x :: n :: Q ∧ loop (o1 ++ o2) = P ++ u :: n :: Q ∧
    x ∉ P ++ [u] ∧ x ∉ n :: Q ∧ (u ≤ NBUF)%nat ∧ (n ≤ NBUF)%nat.
Proof.
  intros [_ Hnd Hb].
  destruct (exists_last (l := NBUF :: o1)) as (P & u & HP); [done|].
  destruct (o2 ++ [NBUF]) as [|n Q] eqn:HQ; [by destruct o2|].
  assert (Hx : (x < NBUF)%nat) by (apply Hb; set_solver).
  apply NoDup_app in Hnd as (Hd1 & Hd & Hd2). apply NoDup_cons in Hd2 as [Hx2 Hd2].
  exists P, u, n, Q. rewrite <- HP, <- HQ. split_and!; try done.
  - unfold loop. rewrite <- (assoc_L (++)). cbn [app]. rewrite HQ.
    change (NBUF :: o1 ++ x :: n :: Q) with ((NBUF :: o1) ++ x :: n :: Q). rewrite HP.
    by rewrite <- (assoc_L (++)).
  - unfold loop. rewrite <- (assoc_L (++)), HQ.
    change (NBUF :: o1 ++ n :: Q) with ((NBUF :: o1) ++ n :: Q). rewrite HP. by rewrite <- (assoc_L (++)).
  - intros [->|Hin]%elem_of_cons; [lia|]. apply (Hd x Hin). left.
  - intros [Hin|Hin%list_elem_of_singleton]%elem_of_app; [done|lia].
  - assert (u ∈ NBUF :: o1) as [->|Hu]%elem_of_cons by (rewrite HP; set_solver); [lia|].
    apply Nat.lt_le_incl, Hb. set_solver.
  - assert (n ∈ o2 ++ [NBUF]) as [Hn|Hn%list_elem_of_singleton]%elem_of_app by (rewrite HQ; left); [|lia].
    apply Nat.lt_le_incl, Hb. set_solver.
Qed.

Lemma unlink_ok o1 x o2 :
  ring (bufs s) (o1 ++ x :: o2) →
  runs (unlink x) s (λ _ s', ring (bufs s') (o1 ++ o2) ∧ relinked s s').
Proof.
  intros Hr. pose proof Hr as [Ht Hnd Hb].
  destruct (ring_around _ _ _ Hr) as (P & u & n & Q & HP & HQ & Hl & Hl' & HxP & HxQ & Hu & Hn).
  unfold threads in Ht. rewrite Hl in Ht.
  destruct (Ht u x) as [Hux Hxu]; [apply adj_app|].
  destruct (Ht x n) as [Hxn Hnx]. { change (P ++ u :: x :: n :: Q) with (P ++ [u] ++ x :: n :: Q). rewrite app_assoc. apply adj_app. }
  destruct (nth_buf x) as [b Hbx]; [apply Nat.lt_le_incl, Hb; set_solver|].
  assert (b_next b = n ∧ b_prev b = u) as [Ebn Ebp].
  { unfold nextof, prevof in Hxn, Hxu. rewrite Hbx in Hxn, Hxu. by simplify_eq/=. }
  unfold unlink. apply runs_bind, (runs_buf_at _ _ b); [done|]. rewrite Ebn, Ebp. rprim.
  apply runs_bind, (runs_buf_at _ _ b).
  { cbn. rewrite list_lookup_alter_ne by (intros ->; apply HxQ; left). done. }
  rewrite Ebn, Ebp. apply runs_modify. split.
  2: { eapply relinked_trans; apply alter_relinked; done. }
  constructor.
  - intros a c. rewrite Hl'. intros Hadj. cbn [bufs with_bufs].
    rewrite nextof_next by (rewrite length_alter; lia). rewrite nextof_prev by done.
    rewrite prevof_next by done. rewrite prevof_prev by lia.
    destruct (adj_remove _ _ x _ _ _ _ HxP HxQ Hadj) as [[-> ->]|(Ho & Ha & Hc)].
    { by rewrite !decide_True. }
    destruct (Ht _ _ Ho) as [H1 H2]. rewrite !decide_False; [done|..]; congruence.
  - apply NoDup_app in Hnd as (? & Hd & [? ?]%NoDup_cons). apply NoDup_app. split_and!; try done.
    intros y Hy Hy'. apply (Hd y Hy). by right.
  - intros i Hi. apply Hb. set_solver.
Qed.

Lemma insert_front_ok x o :
  ring (bufs s) o → x ∉ o → (x < NBUF)%nat →
  runs (insert_front x) s (λ _ s', ring (bufs s') (x :: o) ∧ relinked s s').
Proof.
  intros [Ht Hnd Hb] Hx Hlt. destruct (o ++ [NBUF]) as [|f Q] eqn:HQ; [by destruct o|].
  unfold threads, loop in Ht. rewrite HQ in Ht.
  assert (Hf : f ∈ o ++ [NBUF]) by (rewrite HQ; left).
  assert (Hfx : f ≠ x) by (intros ->; apply elem_of_app in Hf as [?|?%list_elem_of_singleton]; [done|lia]).
  assert (Hfl : (f ≤ NBUF)%nat).
  { apply elem_of_app in Hf as [?|?%list_elem_of_singleton]; [|lia]. by apply Nat.lt_le_incl, Hb. }
  assert (HfQ : f ∉ Q).
  { destruct o as [|y o']; simplify_eq/=; [by apply not_elem_of_nil|]. apply NoDup_cons in Hnd as [Hnd _].
    intros [?|?%list_elem_of_singleton]%elem_of_app; [done|]. subst. specialize (Hb NBUF ltac:(left)). lia. }
  destruct (Ht NBUF f) as [HNf HfN]; [apply (adj_app [])|].
  destruct (nth_buf NBUF) as [h Hh]; [lia|].
  assert (Ehn : b_next h = f) by (unfold nextof in HNf; rewrite Hh in HNf; by simplify_eq/=).
  unfold insert_front. apply runs_bind, (runs_buf_at _ _ h); [done|]. rewrite Ehn. rprim. rprim.
  apply runs_bind, (runs_buf_at _ _ h).
  { cbn. rewrite !list_lookup_alter_ne by lia. done. }
  rewrite Ehn. rprim. apply runs_modify. split.
  2: { eapply relinked_trans; [|by apply alter_relinked]. eapply relinked_trans; [|by apply alter_relinked].
       eapply relinked_trans; by apply alter_relinked. }
  constructor.
  - intros a c. unfold loop. cbn [app]. rewrite HQ. cbn [bufs with_bufs].
    rewrite nextof_next by (rewrite !length_alter; lia). rewrite !nextof_prev by done.
    rewrite nextof_next by lia.
    rewrite prevof_next by done. rewrite prevof_prev by (rewrite !length_alter; lia).
    rewrite prevof_prev by (rewrite length_alter; lia). rewrite prevof_next by done.
    cbn [adj head]. intros [[<- [= <-]]|[[<- [= <-]]|Ho]].
    { rewrite (decide_True (P := NBUF = NBUF)), decide_False, decide_True; done. }
    { rewrite (decide_False (P := x = NBUF)) by lia. by rewrite !decide_True. }
    destruct (Ht a c) as [H1 H2]; [by right|].
    assert (c ∈ Q) by (by eapply (adj_in (f :: Q))). assert (a ∈ f :: Q) by (by eapply adj_in).
    assert (c ≠ f) by (by intros ->).
    assert (x ∉ f :: Q) by (rewrite <- HQ; intros [?|?%list_elem_of_singleton]%elem_of_app; [done|lia]).
    rewrite !decide_False; [done|..]; try congruence; set_solver.
  - by constructor.
  - intros i [->|Hi]%elem_of_cons; auto.
Qed.
End ring_ops.

(** ** The loops over the list *)

Fixpoint first (f : nat → bool) (o : list nat) : option nat :=
  match o with
  | [] => None
  | i :: o => if f i then Some i else first f o
  end.

Lemma first_Some f o i : first f o = Some i → i ∈ o ∧ f i = true.
Proof.
  induction o as [|j o IH]; cbn; [done|]. case (f j) eqn:E.
  - intros [= ->]. split; [left|done].
  - intros []%IH. split; [by right|done].
Qed.
Lemma first_None f o i : first f o = None → i ∈ o → f i = false.
Proof.
  induction o as [|j o IH]; cbn; [by intros _ ?%not_elem_of_nil|].
  case (f j) eqn:E; [done|]. intros Hn [->|Hi]%elem_of_cons; auto.
Qed.

Definition test (P : buf → bool) (l : list buf) (i : nat) : bool := from_option P false (l !! i).

Lemma scan_next_ok s P o1 o2 fuel :
  ring (bufs s) (o1 ++ o2) → length (bufs s) = S NBUF → (length o2 < fuel)%nat →
  scan_next fuel P (hd NBUF o2) s = Ret (first (test P (bufs s)) o2) s.
Proof.
  intros Hr Hlen. revert o1 fuel Hr. induction o2 as [|x o2 IH]; intros o1 fuel Hr Hf.
  - destruct fuel as [|fuel]; [cbn in Hf; lia|]. cbn. by rewrite decide_True.
  - destruct fuel as [|fuel]; [cbn in Hf; lia|]. cbn [hd scan_next length first] in *.
    assert (Hx : (x < NBUF)%nat) by (apply (ring_bound _ _ Hr); set_solver).
    rewrite decide_False by lia. destruct (nth_buf s Hlen x) as [b Hb]; [lia|].
    erewrite bind_Ret by (by apply buf_at_Ret). unfold test at 1. rewrite Hb. cbn [from_option].
    destruct (P b); [done|].
    assert (b_next b = hd NBUF o2) as ->.
    { destruct (ring_threads _ _ Hr x (hd NBUF o2)) as [H _].
      - unfold loop. rewrite <- (assoc_L (++)). cbn [app].
        destruct o2 as [|y o2]; cbn [app hd]; apply (adj_app (NBUF :: o1)).
      - unfold nextof in H. rewrite Hb in H. by simplify_eq/=. }
    apply (IH (o1 ++ [x])); [|lia]. by rewrite <- (assoc_L (++)).
Qed.

Lemma scan_prev_ok s P o1 o2 fuel :
  ring (bufs s) (reverse o2 ++ o1) → length (bufs s) = S NBUF → (length o2 < fuel)%nat →
  scan_prev fuel P (hd NBUF o2) s = Ret (first (test P (bufs s)) o2) s.
Proof.
  intros Hr Hlen. revert o1 fuel Hr. induction o2 as [|x o2 IH]; intros o1 fuel Hr Hf.
  - destruct fuel as [|fuel]; [cbn in Hf; lia|]. cbn. by rewrite decide_True.
  - destruct fuel as [|fuel]; [cbn in Hf; lia|]. cbn [hd scan_prev length first] in *.
    rewrite reverse_cons, <- (assoc_L (++)) in Hr. cbn [app] in Hr.
    assert (Hx : (x < NBUF)%nat) by (apply (ring_bound _ _ Hr); set_solver).
    rewrite decide_False by lia. destruct (nth_buf s Hlen x) as [b Hb]; [lia|].
    erewrite bind_Ret by (by apply buf_at_Ret). unfold test at 1. rewrite Hb. cbn [from_option].
    destruct (P b); [done|].
    assert (b_prev b = hd NBUF o2) as ->.
    { destruct (ring_threads _ _ Hr (hd NBUF o2) x) as [_ H].
      - unfold loop. destruct o2 as [|y o2]; cbn [hd].
        + apply (adj_app []).
        + rewrite reverse_cons, <- !(assoc_L (++)). cbn [app]. apply (adj_app (NBUF :: reverse o2)).
      - unfold prevof in H. rewrite Hb in H. by simplify_eq/=. }
    by apply (IH (x :: o1)); [|lia].
Qed.

(** ** The list after boot *)

Definition zero_buf : buf :=
  {| b_flags := 0; b_dev := 0; b_blockno := 0; b_locked := false; b_pid := 0; b_refcnt := 0;
     b_prev := 0; b_next := 0; b_data := zero_block |}.
(** the cache is in the zeroed data segment; [hd1] says whether there is a disk 1 *)
Definition boot_bio (hd1 : bool) (d : disk_t) : bio :=
  {| bufs := replicate (S NBUF) zero_buf; havedisk1 := hd1; disk := d; writes := [] |}.

Lemma boot_unlocked hd1 d s i :
  relinked (boot_bio hd1 d) s → alter (set_lock false 0) i (bufs s) = bufs s.
Proof.
  intros [Hc _ _ _]. apply list_eq. intros j. destruct (decide (j = i)) as [->|].
  2: by rewrite list_lookup_alter_ne.
  rewrite list_lookup_alter_eq. destruct (bufs s !! i) as [b|] eqn:Hb; [|done]. cbn [fmap option_fmap option_map].
  assert (core b = core zero_buf) as E.
  { assert ((core <$> bufs s) !! i = Some (core b)) as H by (by rewrite list_lookup_fmap, Hb).
    rewrite Hc in H. cbn [bufs boot_bio] in H. rewrite fmap_replicate in H.
    by apply lookup_replicate in H as [-> _]. }
  destruct b. unfold core, set_prev, set_next, set_lock, zero_buf in *. cbn in E |- *. by injection E as -> -> -> -> -> -> ->.
Qed.

Lemma binit_loop_ok hd1 d n : ∀ i s,
  (i + n = NBUF)%nat → relinked (boot_bio hd1 d) s → ring (bufs s) (reverse (seq 0 i)) →
  runs (binit_loop n i) s (λ _ s', relinked (boot_bio hd1 d) s' ∧ ring (bufs s') (reverse (seq 0 NBUF))).
Proof.
  induction n as [|n IH]; intros i s Hi Hc Hr; cbn [binit_loop].
  { apply runs_ret. by replace NBUF with i by lia. }
  eapply runs_bind_mono.
  { apply (insert_front_ok s) with (o := reverse (seq 0 i)); [|done| |lia].
    - rewrite (relinked_length _ _ Hc). apply length_replicate.
    - rewrite elem_of_reverse, elem_of_seq. lia. }
  cbn beta. intros _ s1 [Hr1 Hc1]. rprim.
  assert (Hc' : relinked (boot_bio hd1 d) s1) by (by eapply relinked_trans).
  assert (with_bufs (alter (set_lock false 0) i) s1 = s1) as ->.
  { unfold with_bufs. rewrite (boot_unlocked _ _ _ _ Hc'). by destruct s1. }
  apply IH; [lia|done|]. by rewrite seq_S, reverse_snoc.
Qed.

Lemma binit_ok hd1 d :
  runs binit (boot_bio hd1 d)
    (λ _ s', relinked (boot_bio hd1 d) s' ∧ ring (bufs s') (reverse (seq 0 NBUF))).
Proof.
  unfold binit. rprim. rprim. apply binit_loop_ok; [done| |].
  - eapply relinked_trans; by apply alter_relinked.
  - change (reverse (seq 0 0)) with (@nil nat). constructor; [|apply NoDup_nil_2|intros i Hi; inversion Hi].
    assert (length (bufs (boot_bio hd1 d)) = S NBUF) by apply length_replicate.
    intros a b. cbn [bufs with_bufs]. unfold loop. cbn [app adj head]. intros [[<- [= <-]]|[[_ ?]|[]]]; [|done].
    rewrite nextof_next, prevof_next, prevof_prev by (rewrite ?length_alter; lia || done).
    by rewrite !decide_True.
Qed.
