(* ===== verification/BioSpec.v ===== *)
(** * What the buffer cache guarantees

    [H] says which buffers the running process holds: the block number, and
    whether it changed the buffer without marking it.  [bio_ok] ties buffers and
    disk: a block has at most one buffer, and a buffer nobody holds is either
    marked dirty or equal to its block.  [blk s n] is the contents of block [n]
    as its readers see it. *)

From S2P Require Import Prelude Block Bio BioRing.

Abbreviation holds_t := (gmap nat (Z * bool)).
Definition held (H : holds_t) : gset Z := map_img (fst <$> H).

Lemma elem_of_held H n : n ∈ held H ↔ ∃ i m, H !! i = Some (n, m).
Proof.
  unfold held. rewrite elem_of_map_img. split.
  - intros [i Hi]. apply lookup_fmap_Some in Hi as ([n' m] & <- & Hi). eauto.
  - intros (i & m & E). exists i. apply lookup_fmap_Some. by exists (n, m).
Qed.

Lemma held_empty : held ∅ = ∅.
Proof. apply set_eq. intros n. rewrite elem_of_held. setoid_rewrite lookup_empty. set_solver. Qed.

Definition slot_ok (me : Z) (d : disk_t) (b : buf) (h : option (Z * bool)) : Prop :=
  block_ok (b_data b) ∧
  match h with
  | Some (n, m) =>
      b_dev b = 1 ∧ b_blockno b = n ∧ b_refcnt b = 1 ∧ b_locked b = true ∧ b_pid b = me ∧
      (b_flags b = 6 ∨ b_flags b = 2 ∧ (m = false → b_data b = dblock d 1 n))
  | None =>
      b_refcnt b = 0 ∧ b_locked b = false ∧
      (b_dev b = 0 ∧ b_flags b = 0 ∨
       b_dev b = 1 ∧ (b_flags b = 6 ∨ b_flags b = 2 ∧ b_data b = dblock d 1 (b_blockno b)))
  end.

Record cache_ok (me : Z) (l : list buf) (d : disk_t) (H : holds_t) : Prop := {
  co_len : length l = S NBUF;
  co_head : ∀ h, l !! NBUF = Some h → b_dev h = 0 ∧ b_flags h = 0;
  co_slot : ∀ i b, (i < NBUF)%nat → l !! i = Some b → slot_ok me d b (H !! i);
  co_dom : ∀ i h, H !! i = Some h → (i < NBUF)%nat;
  co_uniq : ∀ i j b c, l !! i = Some b → l !! j = Some c → b_dev b = 1 → b_dev c = 1 →
    b_blockno b = b_blockno c → i = j }.

Record bio_ok (me : Z) (s : bio) (H : holds_t) : Prop := {
  bi_ring : ∃ o, ring (bufs s) o ∧ ∀ i, (i < NBUF)%nat → i ∈ o;
  bi_cache : cache_ok me (bufs s) (disk s) H;
  bi_disk1 : havedisk1 s = true;
  bi_blocks : ∀ n, block_ok (dblock (disk s) 1 n) }.

(** a buffer that has the contents of block [n] *)
Definition caches (n : Z) (b : buf) : bool := is_block 1 n b && negb (b_flags b =? 0).

Definition blk (s : bio) (n : Z) : list Z :=
  from_option b_data (dblock (disk s) 1 n) (List.find (caches n) (bufs s)).

(** the blocks in buffers that are marked dirty *)
Definition dirty (s : bio) : gset Z :=
  list_to_set (b_blockno <$> filter (λ b, b_flags b = 6) (bufs s)).

Lemma elem_of_dirty s n :
  n ∈ dirty s ↔ ∃ i b, bufs s !! i = Some b ∧ b_flags b = 6 ∧ b_blockno b = n.
Proof.
  unfold dirty. rewrite elem_of_list_to_set, list_elem_of_fmap. setoid_rewrite list_elem_of_filter.
  setoid_rewrite list_elem_of_lookup. naive_solver.
Qed.

Lemma caches_true n b : caches n b = true ↔ b_dev b = 1 ∧ b_blockno b = n ∧ b_flags b ≠ 0.
Proof.
  unfold caches, is_block. rewrite !andb_true_iff, negb_true_iff, !Z.eqb_eq, Z.eqb_neq. tauto.
Qed.

(** ** Contents as a relation *)

Definition reads_as (l : list buf) (d : disk_t) (n : Z) (v : list Z) : Prop :=
  (∃ i b, l !! i = Some b ∧ caches n b = true ∧ b_data b = v) ∨
  ((∀ i b, l !! i = Some b → caches n b = false) ∧ v = dblock d 1 n).

Lemma reads_as_blk me s H n v :
  cache_ok me (bufs s) (disk s) H → reads_as (bufs s) (disk s) n v → blk s n = v.
Proof.
  intros Hc. unfold blk. destruct (List.find (caches n) (bufs s)) as [c|] eqn:E; cbn [from_option].
  - apply List.find_some in E as [Hin Hcc]. apply list_elem_of_In, list_elem_of_lookup in Hin as [j Hj].
    intros [(i & b & Hb & Hcb & <-)|[Hno _]]; [|by rewrite (Hno j c) in Hcc].
    apply caches_true in Hcb as (? & ? & _), Hcc as (? & ? & _).
    assert (i = j) as -> by (eapply (co_uniq _ _ _ _ Hc); eauto; congruence). by simplify_eq.
  - intros [(i & b & Hb & Hcb & <-)|[_ ->]]; [|done].
    apply List.find_none with (x := b) in E; [congruence|].
    apply list_elem_of_In, list_elem_of_lookup. eauto.
Qed.

Lemma blk_reads_as s n : reads_as (bufs s) (disk s) n (blk s n).
Proof.
  unfold blk. destruct (List.find (caches n) (bufs s)) as [c|] eqn:E; cbn [from_option].
  - apply List.find_some in E as [Hin Hcc]. apply list_elem_of_In, list_elem_of_lookup in Hin as [j Hj].
    left. eauto.
  - right. split; [|done]. intros i b Hb. apply (List.find_none _ _ E).
    apply list_elem_of_In, list_elem_of_lookup. eauto.
Qed.

Lemma blk_cached me s H i b :
  cache_ok me (bufs s) (disk s) H → bufs s !! i = Some b → b_dev b = 1 → b_flags b ≠ 0 →
  blk s (b_blockno b) = b_data b.
Proof.
  intros Hc Hb Hd Hf. eapply reads_as_blk; [done|]. left. exists i, b. split_and!; try done.
  by apply caches_true.
Qed.

Lemma reads_as_kept me s s' H' :
  cache_ok me (bufs s') (disk s') H' →
  (∀ n v, reads_as (bufs s) (disk s) n v → reads_as (bufs s') (disk s') n v) →
  ∀ n, blk s' n = blk s n.
Proof. intros Hc Hk n. eapply reads_as_blk; [done|]. apply Hk, blk_reads_as. Qed.

(** ** Replacing one buffer *)

Definition setb (i : nat) (b : buf) (s : bio) : bio := with_bufs (λ l, <[i := b]> l) s.

Lemma alter_insert_at (f : buf → buf) (i : nat) (l : list buf) b : l !! i = Some b → alter f i l = <[i := f b]> l.
Proof.
  intros Hb. apply list_eq. intros j. destruct (decide (j = i)) as [->|].
  - rewrite list_lookup_alter_eq, Hb, list_lookup_insert_eq; [done|]. by eapply lookup_lt_Some.
  - by rewrite list_lookup_alter_ne, list_lookup_insert_ne.
Qed.

Lemma runs_bupd i f s b (Q : unit → bio → Prop) :
  bufs s !! i = Some b → Q () (setb i (f b) s) → runs (bupd i f) s Q.
Proof.
  intros Hb HQ. apply runs_modify. unfold with_bufs. by rewrite (alter_insert_at _ _ _ _ Hb).
Qed.

Lemma bufs_setb i b s : (i < length (bufs s))%nat → bufs (setb i b s) !! i = Some b.
Proof. intros H. cbn. by apply list_lookup_insert_eq. Qed.

Lemma setb_setb i b c s : setb i c (setb i b s) = setb i c s.
Proof. unfold setb, with_bufs. cbn. by rewrite list_insert_insert_eq. Qed.

Lemma ring_setb l o i b c :
  l !! i = Some b → b_next c = b_next b → b_prev c = b_prev b → ring l o → ring (<[i := c]> l) o.
Proof.
  intros Hb Hn Hp [Ht ? ?]. constructor; [|done..].
  assert (Hi : (i < length l)%nat) by (by eapply lookup_lt_Some).
  assert (∀ a, nextof (<[i := c]> l) a = nextof l a ∧ prevof (<[i := c]> l) a = prevof l a) as He.
  { intros a. unfold nextof, prevof. destruct (decide (a = i)) as [->|].
    - rewrite list_lookup_insert_eq by done. rewrite Hb. cbn. by rewrite Hn, Hp.
    - by rewrite list_lookup_insert_ne. }
  intros x y Hxy. destruct (He x) as [-> _], (He y) as [_ ->]. auto.
Qed.

Lemma cache_upd me l d d' H h i b c :
  cache_ok me l d H → l !! i = Some b → (i < NBUF)%nat →
  slot_ok me d' c h →
  (∀ j e, j ≠ i → l !! j = Some e → b_dev e = 1 → dblock d' 1 (b_blockno e) = dblock d 1 (b_blockno e)) →
  (b_dev c = 1 → ∀ j e, j ≠ i → l !! j = Some e → b_dev e = 1 → b_blockno e ≠ b_blockno c) →
  cache_ok me (<[i := c]> l) d' (partial_alter (λ _, h) i H).
Proof.
  intros [Hl Hh Hs Hd Hu] Hb Hi Hc Hdd Huq. constructor.
  - by rewrite length_insert.
  - intros h'. rewrite list_lookup_insert_ne by lia. apply Hh.
  - intros j e Hj. destruct (decide (j = i)) as [->|Hne].
    + rewrite list_lookup_insert_eq, lookup_partial_alter_eq by lia. by intros [= <-].
    + rewrite list_lookup_insert_ne, lookup_partial_alter_ne by done. intros He.
      destruct (Hs j e Hj He) as [Hok Hm]. split; [done|].
      destruct (H !! j) as [[n m]|]; naive_solver eauto with congruence.
  - intros j h'. destruct (decide (j = i)) as [->|Hne]; [done|].
    rewrite lookup_partial_alter_ne by done. apply Hd.
  - intros j k e f. destruct (decide (j = i)) as [->|Hji], (decide (k = i)) as [->|Hki];
      rewrite ?list_lookup_insert_eq, ?list_lookup_insert_ne by (done || lia); intros He Hf; simplify_eq; eauto.
    + intros ? ? ?. exfalso. by eapply (Huq ltac:(done) k).
    + intros ? ? ?. exfalso. by eapply (Huq ltac:(done) j).
Qed.

(** ** Room in the cache *)

(** if no buffer can be recycled, as many blocks are held or dirty as there are buffers *)
Lemma cache_full me s H :
  cache_ok me (bufs s) (disk s) H →
  (∀ i, (i < NBUF)%nat → test is_free (bufs s) i = false) → (NBUF ≤ size (dirty s ∪ held H))%nat.
Proof.
  intros Hc Hno. pose proof (co_len _ _ _ _ Hc) as Hl.
  assert (Hin : ∀ i b, (i < NBUF)%nat → bufs s !! i = Some b →
            b_dev b = 1 ∧ b_blockno b ∈ dirty s ∪ held H).
  { intros i b Hi Hb. specialize (Hno i Hi). unfold test in Hno. rewrite Hb in Hno. cbn in Hno.
    destruct (co_slot _ _ _ _ Hc i b Hi Hb) as [_ Hs]. rewrite elem_of_union, elem_of_dirty, elem_of_held.
    destruct (H !! i) as [[n m]|] eqn:E.
    - destruct Hs as (? & <- & _). eauto.
    - destruct Hs as (Hr & _ & Hs). unfold is_free in Hno. rewrite Hr in Hno.
      destruct Hs as [[_ Hf]|(? & [Hf|[Hf _]])]; rewrite Hf in Hno; [done| |done]. eauto 7. }
  set (ns := b_blockno <$> take NBUF (bufs s)).
  assert (HND : NoDup ns).
  { apply NoDup_alt. intros i j n Hi Hj. apply list_lookup_fmap_Some in Hi as (b & -> & Hi), Hj as (c & E & Hj).
    apply lookup_take_Some in Hi as [Hi ?], Hj as [Hj ?].
    destruct (Hin i b) as [? _], (Hin j c) as [? _]; try done.
    eapply (co_uniq _ _ _ _ Hc); eauto. }
  replace NBUF with (size (list_to_set (C := gset Z) ns)).
  - apply subseteq_size. intros n Hn. apply elem_of_list_to_set, list_elem_of_lookup in Hn as [i Hi].
    apply list_lookup_fmap_Some in Hi as (b & -> & [Hi ?]%lookup_take_Some). by apply (Hin i b).
  - rewrite size_list_to_set by done. unfold ns. rewrite length_fmap, length_take. lia.
Qed.

(** ** The operations *)

Section ops.
  Context (me : Z).

Definition same_disk (s s' : bio) : Prop := disk s' = disk s ∧ writes s' = writes s.

Lemma dirty_setb s i b c :
  bufs s !! i = Some b → (b_flags c = 6 ↔ b_flags b = 6) → (b_flags b = 6 → b_blockno c = b_blockno b) →
  dirty (setb i c s) = dirty s.
Proof.
  intros Hb Hf Hn. apply set_eq. intros n. rewrite !elem_of_dirty. cbn [bufs setb with_bufs].
  assert (i < length (bufs s))%nat by (by eapply lookup_lt_Some).
  split; intros (j & e & He & Hef & <-).
  - destruct (decide (j = i)) as [->|].
    + rewrite list_lookup_insert_eq in He by done. simplify_eq. exists i, b. naive_solver.
    + rewrite list_lookup_insert_ne in He by done. eauto.
  - destruct (decide (j = i)) as [->|].
    + simplify_eq. exists i, c. rewrite list_lookup_insert_eq by done. naive_solver.
    + exists j, e. by rewrite list_lookup_insert_ne.
Qed.

(** taking a cached block *)
Lemma reads_as_keep_one l d i b c n v :
  l !! i = Some b → (∀ m, caches m c = caches m b) → b_data c = b_data b →
  reads_as l d n v → reads_as (<[i := c]> l) d n v.
Proof.
  intros Hb Hcc Hd. assert (i < length l)%nat by (by eapply lookup_lt_Some).
  intros [(j & e & He & Hce & <-)|[Hno ->]].
  - left. destruct (decide (j = i)) as [->|].
    + simplify_eq. exists i, c. by rewrite list_lookup_insert_eq, Hcc.
    + exists j, e. by rewrite list_lookup_insert_ne.
  - right. split; [|done]. intros j e. destruct (decide (j = i)) as [->|].
    + rewrite list_lookup_insert_eq by done. intros [= <-]. rewrite Hcc. eauto.
    + rewrite list_lookup_insert_ne by done. apply Hno.
Qed.

(** recycling a clean buffer for block [n0] *)
Lemma reads_as_recycle H l d i b c n0 n v :
  cache_ok me l d H → l !! i = Some b → (i < NBUF)%nat → H !! i = None → b_flags b ≠ 6 →
  (∀ j e, l !! j = Some e → is_block 1 n0 e = false) →
  b_dev c = 1 → b_blockno c = n0 → b_flags c = 2 → b_data c = dblock d 1 n0 →
  reads_as l d n v → reads_as (<[i := c]> l) d n v.
Proof.
  intros Hc Hb Hi HH Hf Hno Hc1 Hc2 Hc3 Hc4. assert (i < length l)%nat by (by eapply lookup_lt_Some).
  destruct (co_slot _ _ _ _ Hc i b Hi Hb) as [_ Hs]. rewrite HH in Hs. destruct Hs as (_ & _ & Hs).
  assert (Hne : ∀ m, m ≠ n0 → caches m c = false).
  { intros m Hm. apply not_true_iff_false. rewrite caches_true. naive_solver. }
  intros [(j & e & He & Hce & <-)|[Hun ->]].
  - assert (n ≠ n0).
    { intros ->. apply andb_true_iff in Hce as [Hce _]. by rewrite (Hno j e) in Hce. }
    destruct (decide (j = i)) as [->|].
    + simplify_eq. right. pose proof Hce as (Hd1 & Hn1 & _)%caches_true. split.
      * intros k f. destruct (decide (k = i)) as [->|].
        -- rewrite list_lookup_insert_eq by done. intros [= <-]. auto.
        -- rewrite list_lookup_insert_ne by done. intros Hk. apply not_true_iff_false.
           rewrite caches_true. intros (? & ? & _).
           assert (k = i) by (eapply (co_uniq _ _ _ _ Hc); eauto; congruence). done.
      * destruct Hs as [[? ?]|(_ & [?|[_ ->]])]; [congruence|done|]. by rewrite Hn1.
    + left. exists j, e. by rewrite list_lookup_insert_ne.
  - destruct (decide (n = n0)) as [->|].
    + left. exists i, c. rewrite list_lookup_insert_eq by done. split_and!; try done.
      apply caches_true. split_and!; try done. by rewrite Hc3.
    + right. split; [|done]. intros k f. destruct (decide (k = i)) as [->|].
      * rewrite list_lookup_insert_eq by done. intros [= <-]. auto.
      * rewrite list_lookup_insert_ne by done. apply Hun.
Qed.

(** what a caller sees unchanged *)
Record same_view (s s' : bio) : Prop := {
  sv_blk : ∀ n, blk s' n = blk s n;
  sv_disk : disk s' = disk s;
  sv_writes : writes s' = writes s }.

Lemma slot_free s H i b :
  bio_ok me s H → bufs s !! i = Some b → (i < NBUF)%nat → H !! i = None →
  b_refcnt b = 0 ∧ b_locked b = false ∧ block_ok (b_data b).
Proof.
  intros [_ Hc _ _] Hb Hi HH. destruct (co_slot _ _ _ _ Hc i b Hi Hb) as [? Hs]. rewrite HH in Hs. naive_solver.
Qed.

Lemma not_held s H i b n :
  bio_ok me s H → bufs s !! i = Some b → (i < NBUF)%nat → b_blockno b = n → n ∉ held H → H !! i = None.
Proof.
  intros [_ Hc _ _] Hb Hi Hn Hnh. destruct (H !! i) as [[n' m]|] eqn:E; [|done]. exfalso. apply Hnh.
  destruct (co_slot _ _ _ _ Hc i b Hi Hb) as [? Hs]. rewrite E in Hs.
  apply elem_of_held. exists i, m. rewrite E. destruct Hs as (_ & ? & _). congruence.
Qed.

Definition bread_post (n : Z) (s : bio) (H : holds_t) (i : nat) (s' : bio) : Prop :=
  H !! i = None ∧ bio_ok me s' (<[i := (n, false)]> H) ∧ same_view s s' ∧ dirty s' = dirty s ∧
  bdata i s' = blk s n.

(** [n] is in the buffer [i] *)
Lemma bread_hit s H n i b :
  bio_ok me s H → n ∉ held H → bufs s !! i = Some b → (i < NBUF)%nat →
  b_dev b = 1 → b_blockno b = n →
  bread_post n s H i (setb i (set_lock true me (set_refcnt 1 b)) s) ∧ b_flags b ≠ 0 ∧ Z.land (b_flags b) B_VALID ≠ 0.
Proof.
  intros Hok Hnh Hb Hi Hd Hn. pose proof Hok as [(o & Hr & Ho) Hc Hd1 Hbl].
  assert (HH : H !! i = None) by (by eapply not_held).
  destruct (co_slot _ _ _ _ Hc i b Hi Hb) as [Hbo Hs]. rewrite HH in Hs. destruct Hs as (Hrc & Hlk & Hs).
  assert (Hs' : b_flags b = 6 ∨ b_flags b = 2 ∧ b_data b = dblock (disk s) 1 n).
  { destruct Hs as [[? _]|[_ ?]]; [lia|]. by rewrite <- Hn. }
  set (c := set_lock true me (set_refcnt 1 b)).
  assert (Hc' : cache_ok me (bufs (setb i c s)) (disk s) (<[i := (n, false)]> H)).
  { eapply cache_upd; eauto.
    - split; [done|]. cbn. naive_solver.
    - intros _ j e Hj He Hed. cbn. intros E. apply Hj. by eapply (co_uniq _ _ _ _ Hc). }
  assert (i < length (bufs s))%nat by (by eapply lookup_lt_Some).
  split; [|destruct Hs' as [->|[-> _]]; done]. split_and!.
  - done.
  - constructor; [|done..]. exists o. split; [|done]. by eapply ring_setb.
  - constructor; [|done..]. eapply reads_as_kept; [done|]. intros m v. by eapply reads_as_keep_one.
  - by eapply dirty_setb.
  - unfold bdata. rewrite bufs_setb by done. cbn [from_option b_data c set_lock set_refcnt]. rewrite <- Hn.
    symmetry. eapply blk_cached; eauto. destruct Hs' as [->|[-> _]]; done.
Qed.

(** the free buffer [i] is given to [n] *)
Lemma bread_miss s H n i b :
  bio_ok me s H → bufs s !! i = Some b → (i < NBUF)%nat → is_free b = true →
  (∀ j e, bufs s !! j = Some e → is_block 1 n e = false) →
  bread_post n s H i
    (setb i (set_flags 2 (set_data (dblock (disk s) 1 n) (set_lock true me (set_refcnt 1 (set_flags 0 (set_key 1 n b)))))) s) ∧
  b_locked b = false.
Proof.
  intros Hok Hb Hi Hf Hno. pose proof Hok as [(o & Hr & Ho) Hc Hd1 Hbl].
  apply andb_true_iff in Hf as [Hf1%Z.eqb_eq Hf2%Z.eqb_eq].
  destruct (co_slot _ _ _ _ Hc i b Hi Hb) as [Hbo Hs].
  destruct (H !! i) as [[n' m]|] eqn:HH; [destruct Hs as (? & ? & ? & _); lia|].
  destruct Hs as (Hrc & Hlk & Hs).
  assert (Hf6 : b_flags b ≠ 6) by (intros E; rewrite E in Hf2; done).
  set (c := set_flags 2 _).
  assert (Hc' : cache_ok me (bufs (setb i c s)) (disk s) (<[i := (n, false)]> H)).
  { eapply cache_upd; eauto.
    - split; [apply Hbl|]. cbn. naive_solver.
    - intros _ j e Hj He Hed. cbn. intros E. specialize (Hno j e He).
      unfold is_block in Hno. rewrite Hed, E, !Z.eqb_refl in Hno. done. }
  assert (i < length (bufs s))%nat by (by eapply lookup_lt_Some).
  split; [|done]. split_and!.
  - done.
  - constructor; [|done..]. exists o. split; [|done]. by eapply ring_setb.
  - constructor; [|done..]. eapply reads_as_kept; [done|]. intros k v. by eapply reads_as_recycle.
  - eapply dirty_setb; [done| |done]. cbn. lia.
  - unfold bdata. rewrite bufs_setb by done. cbn [from_option b_data c set_flags set_data]. symmetry.
    eapply reads_as_blk; [done|]. right. split; [|done].
    intros j e He. unfold caches. by rewrite (Hno j e He).
Qed.

Lemma ring_start s H :
  bio_ok me s H → ∃ o h, ring (bufs s) o ∧ (∀ i, (i < NBUF)%nat → i ∈ o) ∧ (length o ≤ NBUF)%nat ∧
    bufs s !! NBUF = Some h ∧ b_next h = hd NBUF o ∧ b_prev h = hd NBUF (reverse o).
Proof.
  intros [(o & Hr & Ho) Hc _ _]. pose proof (co_len _ _ _ _ Hc) as Hl.
  destruct (nth_buf s Hl NBUF) as [h Hh]; [lia|]. exists o, h. split_and!; try done.
  - assert (o ⊆+ seq 0 NBUF) as Hsub.
    { apply NoDup_submseteq; [apply (ring_nodup _ _ Hr)|]. intros i Hi%(ring_bound _ _ Hr).
      apply elem_of_seq. lia. }
    apply submseteq_length in Hsub. by rewrite length_seq in Hsub.
  - destruct (ring_threads _ _ Hr NBUF (hd NBUF o)) as [Hn _].
    { unfold loop. destruct o; apply (adj_app []). }
    unfold nextof in Hn. rewrite Hh in Hn. by simplify_eq/=.
  - destruct (ring_threads _ _ Hr (hd NBUF (reverse o)) NBUF) as [_ Hp].
    { unfold loop. destruct (reverse o) as [|x r] eqn:E.
      - apply (f_equal reverse) in E. rewrite reverse_involutive in E. subst o. apply (adj_app []).
      - apply (f_equal reverse) in E. rewrite reverse_involutive, reverse_cons in E. subst o.
        rewrite <- (assoc_L (++)). cbn [hd app]. apply (adj_app (NBUF :: reverse r)). }
    unfold prevof in Hp. rewrite Hh in Hp. by simplify_eq/=.
Qed.

(** evaluate the test of the sleep-lock and the fields of a buffer just written *)
Ltac at_buf := eapply runs_buf_at; [first [eassumption | apply bufs_setb; lia]|].
Ltac upd_buf := eapply runs_bupd; [first [eassumption | apply bufs_setb; lia]|]; rewrite ?setb_setb.

Lemma holding_runs i s b (Q : bool → bio → Prop) :
  bufs s !! i = Some b → b_locked b = true → b_pid b = me → Q true s → runs (holdingsleep me i) s Q.
Proof.
  intros Hb Hl Hp HQ. unfold holdingsleep. apply runs_bind. at_buf. apply runs_ret.
  by rewrite Hl, Hp, Z.eqb_refl.
Qed.

Lemma acquiresleep_runs i s b (Q : unit → bio → Prop) :
  bufs s !! i = Some b → b_locked b = false → Q () (setb i (set_lock true me b) s) →
  runs (acquiresleep me i) s Q.
Proof. intros Hb Hl HQ. unfold acquiresleep. apply runs_bind. at_buf. rewrite Hl. by upd_buf. Qed.

Lemma iderw_read i s b (Q : unit → bio → Prop) :
  bufs s !! i = Some b → b_locked b = true → b_pid b = me → b_flags b = 0 → b_dev b = 1 →
  b_blockno b < FSSIZE → havedisk1 s = true →
  Q () (setb i (set_flags 2 (set_data (dblock (disk s) 1 (b_blockno b)) b)) s) →
  runs (iderw me i) s Q.
Proof.
  intros Hb Hl Hp Hf Hd Hn Hd1 HQ. unfold iderw.
  apply runs_bind. eapply holding_runs; [done..|]. apply runs_bind. at_buf. rprim.
  rewrite Hf, Hd, Hd1. cbn [negb]. cbv iota.
  change (Z.land 0 (Z.lor B_VALID B_DIRTY) =? B_VALID) with false. change (1 =? 0) with false.
  change (Z.land 0 B_DIRTY =? 0) with true. rewrite (proj2 (Z.leb_gt _ _)) by lia. cbn [negb andb]. cbv iota.
  assert (i < length (bufs s))%nat by (by eapply lookup_lt_Some).
  apply runs_bind. rprim. upd_buf. upd_buf. cbn [b_flags set_data]. by rewrite Hf.
Qed.

Lemma iderw_write i s b (Q : unit → bio → Prop) :
  bufs s !! i = Some b → b_locked b = true → b_pid b = me → b_flags b = 6 → b_dev b = 1 →
  b_blockno b < FSSIZE → havedisk1 s = true →
  Q () {| bufs := <[i := set_flags 2 b]> (bufs s); havedisk1 := true;
          disk := <[(1, b_blockno b) := b_data b]> (disk s);
          writes := writes s ++ [(1, b_blockno b, b_data b)] |} →
  runs (iderw me i) s Q.
Proof.
  intros Hb Hl Hp Hf Hd Hn Hd1 HQ. unfold iderw.
  apply runs_bind. eapply holding_runs; [done..|]. apply runs_bind. at_buf. rprim.
  rewrite Hf, Hd, Hd1. cbn [negb]. cbv iota.
  change (Z.land 6 (Z.lor B_VALID B_DIRTY) =? B_VALID) with false. change (1 =? 0) with false.
  change (Z.land 6 B_DIRTY =? 0) with false. rewrite (proj2 (Z.leb_gt _ _)) by lia. cbn [negb andb]. cbv iota.
  rprim. eapply runs_bupd; [done|]. unfold setb, with_bufs. cbn [bufs havedisk1 disk writes]. rewrite Hf, Hd1. exact HQ.
Qed.

Lemma dirty_dev s H i b :
  cache_ok me (bufs s) (disk s) H → bufs s !! i = Some b → b_flags b = 6 → b_dev b = 1.
Proof.
  intros Hc Hb Hf. pose proof (co_len _ _ _ _ Hc) as Hl. apply lookup_lt_Some in Hb as Hi.
  destruct (decide (i = NBUF)) as [->|]; [destruct (co_head _ _ _ _ Hc b Hb); lia|].
  destruct (co_slot _ _ _ _ Hc i b ltac:(lia) Hb) as [_ Hs]. destruct (H !! i) as [[? ?]|]; naive_solver lia.
Qed.

Lemma cache_not_full s H n :
  bio_ok me s H → n ∉ held H → (∀ j e, bufs s !! j = Some e → is_block 1 n e = false) →
  (size (dirty s ∪ held H ∪ {[ n ]}) ≤ NBUF)%nat →
  ¬ ∀ i, (i < NBUF)%nat → test is_free (bufs s) i = false.
Proof.
  intros [_ Hc _ _] Hnh Hno Hsz Hfull%(cache_full _ _ _ Hc).
  assert (n ∉ dirty s ∪ held H) as Hnd.
  { rewrite elem_of_union. intros [(i & b & Hb & Hf6 & Hbn)%elem_of_dirty|?]; [|done].
    specialize (Hno i b Hb). unfold is_block in Hno.
    by rewrite Hbn, (dirty_dev _ _ _ _ Hc Hb Hf6), !Z.eqb_refl in Hno. }
  rewrite size_union, size_singleton in Hsz by set_solver. lia.
Qed.

Lemma bread_runs s H n :
  bio_ok me s H → n ∉ held H → n < FSSIZE → (size (dirty s ∪ held H ∪ {[ n ]}) ≤ NBUF)%nat →
  runs (bread me 1 n) s (bread_post n s H).
Proof.
  intros Hok Hnh Hn Hsz. pose proof Hok as [_ Hc Hd1 _]. pose proof (co_len _ _ _ _ Hc) as Hl.
  destruct (ring_start _ _ Hok) as (o & h & Hr & Ho & Hol & Hh & Hhn & Hhp).
  unfold bread, bget. apply runs_bind, runs_bind. at_buf. rewrite Hhn.
  apply runs_bind. eexists _, _. split; [apply (scan_next_ok _ _ []); [done..|lia]|].
  destruct (first _ o) as [i|] eqn:Hfst.
  - apply first_Some in Hfst as [Hio Hi]. apply (ring_bound _ _ Hr) in Hio.
    unfold test in Hi. destruct (bufs s !! i) as [b|] eqn:Hb; [|done].
    apply andb_true_iff in Hi as [Hdev%Z.eqb_eq Hbn%Z.eqb_eq].
    destruct (bread_hit s H n i b) as (Hpost & _ & Hfl); try done.
    destruct (slot_free s H i b) as (Hrc & Hlk & _); try done. { by eapply not_held. }
    apply runs_bind. upd_buf. rewrite Hrc. change (u32 (0 + 1)) with 1.
    apply runs_bind. eapply acquiresleep_runs; [apply bufs_setb; lia|done|]. rewrite setb_setb.
    apply runs_ret, runs_bind. at_buf. cbn [b_flags set_lock set_refcnt].
    rewrite (proj2 (Z.eqb_neq _ _) Hfl). rprim. by apply runs_ret.
  - assert (Hno : ∀ j e, bufs s !! j = Some e → is_block 1 n e = false).
    { intros j e He. destruct (decide (j = NBUF)) as [->|].
      - destruct (co_head _ _ _ _ Hc e He) as [Hde _]. unfold is_block. by rewrite Hde.
      - apply lookup_lt_Some in He as Hj. eapply (first_None _ _ j) in Hfst; [|apply Ho; lia].
        unfold test in Hfst. by rewrite He in Hfst. }
    apply runs_bind. at_buf. rewrite Hhp. apply runs_bind. eexists _, _. split.
    { apply (scan_prev_ok _ _ []); [|done|]; rewrite ?length_reverse; [|lia].
      by rewrite reverse_involutive, app_nil_r. }
    destruct (first _ (reverse o)) as [i|] eqn:Hfst'.
    + apply first_Some in Hfst' as [Hio Hi]. apply elem_of_reverse, (ring_bound _ _ Hr) in Hio.
      unfold test in Hi. destruct (bufs s !! i) as [b|] eqn:Hb; [|done].
      destruct (bread_miss s H n i b) as (Hpost & Hlk); try done.
      apply runs_bind. upd_buf. apply runs_bind. upd_buf. apply runs_bind. upd_buf.
      apply runs_bind. eapply acquiresleep_runs; [apply bufs_setb; lia|done|]. rewrite setb_setb.
      apply runs_ret, runs_bind. at_buf. apply runs_bind.
      eapply iderw_read; try done; [apply bufs_setb; lia|done..|]. rewrite setb_setb. by apply runs_ret.
    + exfalso. eapply cache_not_full; [done..|]. intros i Hi. eapply (first_None _ _ i) in Hfst'; [done|].
      apply elem_of_reverse. auto.
Qed.

(** ** A held buffer *)

Lemma held_slot s H i n m :
  bio_ok me s H → H !! i = Some (n, m) →
  ∃ b, bufs s !! i = Some b ∧ (i < NBUF)%nat ∧ slot_ok me (disk s) b (Some (n, m)).
Proof.
  intros [_ Hc _ _] HH. pose proof (co_dom _ _ _ _ Hc _ _ HH) as Hi. pose proof (co_len _ _ _ _ Hc).
  destruct (nth_buf s ltac:(done) i) as [b Hb]; [lia|]. exists b. split_and!; try done.
  rewrite <- HH. by apply (co_slot _ _ _ _ Hc).
Qed.

Lemma held_bdata s H i n m : bio_ok me s H → H !! i = Some (n, m) → bdata i s = blk s n.
Proof.
  intros Hok HH. destruct (held_slot _ _ _ _ _ Hok HH) as (b & Hb & Hi & Hbo & Hd & <- & _ & _ & _ & Hf).
  unfold bdata. rewrite Hb. symmetry. eapply blk_cached; [apply Hok|done..|]. destruct Hf as [->|[-> _]]; done.
Qed.

(** changing a held buffer without its links, its key or its lock *)
Lemma held_upd s H i n m m' b fl v :
  bio_ok me s H → H !! i = Some (n, m) → bufs s !! i = Some b → block_ok v →
  (fl = 6 ∨ fl = 2 ∧ (m' = false → v = dblock (disk s) 1 n)) →
  bio_ok me (setb i (set_flags fl (set_data v b)) s) (<[i := (n, m')]> H).
Proof.
  intros Hok HH Hb Hv Hfl. pose proof Hok as [(o & Hr & Ho) Hc Hd1 Hbl].
  destruct (held_slot _ _ _ _ _ Hok HH) as (b' & Hb' & Hi & _ & Hs). simplify_eq.
  constructor; [|..|done|done].
  - exists o. split; [|done]. by eapply ring_setb.
  - eapply cache_upd; eauto.
    + split; [done|]. cbn. naive_solver.
    + cbn. intros Hdv j e Hj He Hed Hn. apply Hj. by eapply (co_uniq _ _ _ _ Hc).
Qed.

Lemma set_bdata_runs s H i n m v :
  bio_ok me s H → H !! i = Some (n, m) → block_ok v →
  runs (set_bdata i v) s (λ _ s', bio_ok me s' (<[i := (n, true)]> H) ∧
    (∀ k, blk s' k = if decide (k = n) then v else blk s k) ∧
    disk s' = disk s ∧ writes s' = writes s ∧ dirty s' = dirty s).
Proof.
  intros Hok HH Hv. destruct (held_slot _ _ _ _ _ Hok HH) as (b & Hb & Hi & _ & Hd & Hn & _ & _ & _ & Hf).
  assert (Hok' : bio_ok me (setb i (set_data v b) s) (<[i := (n, true)]> H)).
  { replace (set_data v b) with (set_flags (b_flags b) (set_data v b)) by (by destruct b).
    eapply held_upd; eauto. naive_solver. }
  unfold set_bdata. upd_buf. split_and!; try done; [|by eapply dirty_setb].
  assert (i < length (bufs s))%nat by (by eapply lookup_lt_Some).
  intros k. eapply reads_as_blk; [apply Hok'|]. case_decide as Hk.
  - subst k. left. exists i, (set_data v b). split_and!; [by apply bufs_setb| |done].
    apply caches_true. cbn. split_and!; try done. destruct Hf as [->|[-> _]]; done.
  - destruct (blk_reads_as s k) as [(j & e & He & Hce & Hv')|[Hno Hv']].
    + left. exists j, e. cbn. rewrite list_lookup_insert_ne; [done|]. intros <-. simplify_eq.
      apply caches_true in Hce. naive_solver.
    + right. split; [|done]. intros j e. cbn. destruct (decide (j = i)) as [->|].
      * rewrite list_lookup_insert_eq by done. intros [= <-]. by apply (Hno i b).
      * rewrite list_lookup_insert_ne by done. apply Hno.
Qed.

(** [b->flags |= B_DIRTY] *)
Lemma mark_runs s H i n m :
  bio_ok me s H → H !! i = Some (n, m) →
  runs (bupd i (λ b, set_flags (Z.lor (b_flags b) B_DIRTY) b)) s (λ _ s',
    bio_ok me s' (<[i := (n, false)]> H) ∧ same_view s s' ∧ dirty s' = {[ n ]} ∪ dirty s).
Proof.
  intros Hok HH. destruct (held_slot _ _ _ _ _ Hok HH) as (b & Hb & Hi & Hbo & Hd & Hn & _ & _ & _ & Hf).
  upd_buf. assert (Z.lor (b_flags b) B_DIRTY = 6) as -> by (destruct Hf as [->|[-> _]]; done).
  assert (Hok' : bio_ok me (setb i (set_flags 6 b) s) (<[i := (n, false)]> H)).
  { replace (set_flags 6 b) with (set_flags 6 (set_data (b_data b) b)) by (by destruct b).
    eapply held_upd; eauto. }
  assert (i < length (bufs s))%nat by (by eapply lookup_lt_Some).
  split_and!; [done| |].
  - constructor; [|done..]. eapply reads_as_kept; [apply Hok'|]. intros k v.
    eapply reads_as_keep_one; [done| |done]. intros k'. unfold caches, is_block. cbn.
    destruct Hf as [->|[-> _]]; done.
  - apply set_eq. intros k. rewrite elem_of_union, elem_of_singleton, !elem_of_dirty. split.
    + intros (j & e & He & Hef & <-). cbn in He. destruct (decide (j = i)) as [->|].
      * rewrite list_lookup_insert_eq in He by done. simplify_eq. by left.
      * rewrite list_lookup_insert_ne in He by done. right. eauto.
    + intros [->|(j & e & He & Hef & <-)].
      * exists i, (set_flags 6 b). split_and!; try done. by apply bufs_setb.
      * destruct (decide (j = i)) as [->|].
        -- simplify_eq. exists i, (set_flags 6 b). split_and!; try done. by apply bufs_setb.
        -- exists j, e. cbn. by rewrite list_lookup_insert_ne.
Qed.

Lemma dirty_cleaned s H i b c d w :
  bio_ok me s H → bufs s !! i = Some b → b_dev b = 1 → b_flags c = 2 →
  dirty {| bufs := <[i := c]> (bufs s); havedisk1 := true; disk := d; writes := w |} =
  dirty s ∖ {[ b_blockno b ]}.
Proof.
  intros [_ Hc _ _] Hb Hd Hf. assert (i < length (bufs s))%nat by (by eapply lookup_lt_Some).
  apply set_eq. intros k. rewrite elem_of_difference, not_elem_of_singleton, !elem_of_dirty. cbn. split.
  - intros (j & e & He & Hef & <-). destruct (decide (j = i)) as [->|Hj].
    + rewrite list_lookup_insert_eq in He by done. injection He as <-. lia.
    + rewrite list_lookup_insert_ne in He by done. split; [eauto|]. intros E. apply Hj. assert (b_dev e = 1) by (by eapply dirty_dev).
      by eapply (co_uniq _ _ _ _ Hc).
  - intros [(j & e & He & Hef & <-) Hk]. exists j, e. rewrite list_lookup_insert_ne; [done|].
    intros <-. simplify_eq.
Qed.

Lemma bwrite_runs s H i n m :
  bio_ok me s H → H !! i = Some (n, m) → n < FSSIZE →
  runs (bwrite me i) s (λ _ s', bio_ok me s' (<[i := (n, false)]> H) ∧
    (∀ k, blk s' k = blk s k) ∧ disk s' = <[(1, n) := blk s n]> (disk s) ∧
    writes s' = writes s ++ [(1, n, blk s n)] ∧ dirty s' = dirty s ∖ {[ n ]}).
Proof.
  intros Hok HH Hlt. rewrite <- (held_bdata _ _ _ _ _ Hok HH).
  pose proof Hok as [(o & Hr & Ho) Hc Hd1 Hbl].
  destruct (held_slot _ _ _ _ _ Hok HH) as (b & Hb & Hi & Hbo & Hd & Hn & Hrc & Hlk & Hpid & Hf).
  assert (i < length (bufs s))%nat by (by eapply lookup_lt_Some).
  unfold bdata. rewrite Hb. cbn [from_option].
  unfold bwrite. apply runs_bind. eapply holding_runs; [done..|]. cbn [negb]. apply runs_bind. upd_buf.
  assert (Z.lor (b_flags b) B_DIRTY = 6) as -> by (destruct Hf as [->|[-> _]]; done).
  eapply iderw_write; [by apply bufs_setb|done..|cbn; lia|done|].
  cbn [bufs setb with_bufs disk writes b_blockno b_data set_flags]. rewrite list_insert_insert_eq, Hn.
  set (c := set_flags 2 (set_flags 6 b)). set (d' := <[(1, n) := b_data b]> (disk s)).
  assert (Hd'n : dblock d' 1 n = b_data b) by (unfold dblock, d'; by rewrite lookup_insert_eq).
  assert (Hd'ne : ∀ k, k ≠ n → dblock d' 1 k = dblock (disk s) 1 k).
  { intros k Hk. unfold dblock, d'. by rewrite lookup_insert_ne by congruence. }
  assert (Hoth : ∀ j e, j ≠ i → bufs s !! j = Some e → b_dev e = 1 → b_blockno e ≠ n).
  { intros j e Hj He Hed Hen. apply Hj. eapply (co_uniq _ _ _ _ Hc); eauto. congruence. }
  assert (Hc' : cache_ok me (<[i := c]> (bufs s)) d' (<[i := (n, false)]> H)).
  { eapply cache_upd; [done..| | |].
    - split; [done|]. cbn. naive_solver.
    - intros j e Hj He Hed. apply Hd'ne. by eapply Hoth.
    - intros _ j e Hj He Hed. cbn. rewrite Hn. by eapply Hoth. }
  split_and!; try done.
  - constructor; cbn; [|done..|].
    + exists o. split; [|done]. by eapply ring_setb.
    + intros k. destruct (decide (k = n)) as [->|Hk]; [by rewrite Hd'n|by rewrite Hd'ne].
  - eapply reads_as_kept; [exact Hc'|]. intros k v Hra.
    apply (reads_as_keep_one _ _ i b c) in Hra; [|done| |done].
    + cbn. destruct Hra as [?|[Hno ->]]; [by left|right]. split; [done|].
      assert (k ≠ n) by (intros ->; specialize (Hno i c ltac:(by apply list_lookup_insert_eq));
        unfold caches, is_block in Hno; cbn in Hno; rewrite Hd, Hn, !Z.eqb_refl in Hno; done).
      by rewrite Hd'ne.
    + intros k'. unfold caches, is_block. cbn. destruct Hf as [->|[-> _]]; done.
  - rewrite <- Hn. by eapply (dirty_cleaned s H i b c).
Qed.

(** ** Changing the order of the buffers *)

Lemma core_lookup (l l' : list buf) i b :
  core <$> l' = core <$> l → l' !! i = Some b → ∃ c, l !! i = Some c ∧ core c = core b.
Proof.
  intros E Hb. assert ((core <$> l') !! i = Some (core b)) as H by (by rewrite list_lookup_fmap, Hb).
  rewrite E, list_lookup_fmap in H. destruct (l !! i) as [c|]; [|done]. exists c. split; [done|]. by apply (inj Some).
Qed.

Lemma cache_relinked l l' d H :
  core <$> l' = core <$> l → cache_ok me l d H → cache_ok me l' d H.
Proof.
  intros E [Hl Hh Hs Hd Hu]. constructor; [| | |done|].
  - rewrite <- Hl. rewrite <- (length_fmap core l), <- E. by rewrite length_fmap.
  - intros h (c & Hc & Ec)%(core_lookup _ _ _ _ E).
    change (b_dev (core h) = 0 ∧ b_flags (core h) = 0). rewrite <- Ec. exact (Hh c Hc).
  - intros i b Hi (c & Hc & Ec)%(core_lookup _ _ _ _ E).
    change (slot_ok me d (core b) (H !! i)). rewrite <- Ec. exact (Hs i c Hi Hc).
  - intros i j b b' (c & Hc & Ec)%(core_lookup _ _ _ _ E) (c' & Hc' & Ec')%(core_lookup _ _ _ _ E).
    change (b_dev (core b) = 1 → b_dev (core b') = 1 → b_blockno (core b) = b_blockno (core b') → i = j).
    rewrite <- Ec, <- Ec'. exact (Hu i j c c' Hc Hc').
Qed.

Lemma reads_as_relinked l l' d n v :
  core <$> l' = core <$> l → reads_as l d n v → reads_as l' d n v.
Proof.
  intros E. symmetry in E. intros [(i & b & Hb & Hcb & <-)|[Hno ->]].
  - destruct (core_lookup _ _ _ _ E Hb) as (c & Hc & Ec). left. exists i, c. split; [done|].
    change (caches n (core c) = true ∧ b_data (core c) = b_data b). by rewrite Ec.
  - right. split; [|done]. intros i c Hc. destruct (core_lookup l l' i c (symmetry E) Hc) as (b & Hb & Eb).
    change (caches n (core c) = false). rewrite <- Eb. exact (Hno i b Hb).
Qed.

Lemma dirty_relinked s s' : core <$> bufs s' = core <$> bufs s → dirty s' ⊆ dirty s.
Proof.
  intros E n (i & b & Hb & Hf & <-)%elem_of_dirty.
  destruct (core_lookup _ _ _ _ E Hb) as (c & Hc & Ec). apply elem_of_dirty. exists i, c. split; [done|].
  change (b_flags (core c) = 6 ∧ b_blockno (core c) = b_blockno b). by rewrite Ec.
Qed.

Lemma relinked_ok s s' H o :
  bio_ok me s H → relinked s s' → ring (bufs s') o → (∀ i, (i < NBUF)%nat → i ∈ o) →
  bio_ok me s' H ∧ same_view s s' ∧ dirty s' = dirty s.
Proof.
  intros [_ Hc Hd1 Hbl] [E E1 E2 E3] Hr Ho.
  assert (Hc' : cache_ok me (bufs s') (disk s') H) by (rewrite E2; by eapply cache_relinked).
  split_and!.
  - constructor; [eauto|done|by rewrite E1|by rewrite E2].
  - constructor; [|done..]. eapply reads_as_kept; [done|]. intros n v. rewrite E2. by apply reads_as_relinked.
  - apply set_eq. intros n. split; by apply dirty_relinked.
Qed.

Lemma brelse_runs s H i n :
  bio_ok me s H → H !! i = Some (n, false) →
  runs (brelse me i) s (λ _ s', bio_ok me s' (delete i H) ∧ same_view s s' ∧ dirty s' = dirty s).
Proof.
  intros Hok HH. pose proof Hok as [(o & Hr & Ho) Hc Hd1 Hbl].
  destruct (held_slot _ _ _ _ _ Hok HH) as (b & Hb & Hi & Hbo & Hd & Hn & Hrc & Hlk & Hpid & Hf).
  assert (i < length (bufs s))%nat by (by eapply lookup_lt_Some).
  unfold brelse. apply runs_bind. eapply holding_runs; [done..|]. cbn [negb].
  unfold releasesleep. apply runs_bind. upd_buf. apply runs_bind. upd_buf.
  cbn [b_refcnt set_lock]. rewrite Hrc. change (u32 (1 - 1)) with 0. apply runs_bind. at_buf. cbn [b_refcnt set_refcnt].
  change (0 =? 0) with true. cbv iota.
  set (c := set_refcnt 0 (set_lock false 0 b)).
  assert (Hr1 : ring (bufs (setb i c s)) o) by (by eapply ring_setb).
  assert (Hok1 : bio_ok me (setb i c s) (delete i H)).
  { constructor; [by eauto| |done..]. eapply cache_upd; eauto.
    - split; [done|]. cbn. rewrite Hn. naive_solver.
    - cbn. intros _ j e Hj He Hed E. apply Hj. by eapply (co_uniq _ _ _ _ Hc). }
  pose proof (co_len _ _ _ _ (bi_cache _ _ _ Hok1)) as Hl1.
  destruct (list_elem_of_split o i) as (o1 & o2 & ->); [auto|].
  eapply runs_bind_mono; [by eapply unlink_ok|]. intros _ s2 [Hr2 Hrl2].
  eapply runs_mono; [eapply insert_front_ok; [|done| |done]|].
  { by rewrite (relinked_length _ _ Hrl2). }
  { pose proof (ring_nodup _ _ Hr) as (_ & Hdis & [? _]%NoDup_cons)%NoDup_app.
    intros [Hx|Hx]%elem_of_app; [apply (Hdis i Hx); left|done]. }
  intros _ s3 [Hr3 Hrl3]. assert (Hrl : relinked (setb i c s) s3) by (by eapply relinked_trans).
  destruct (relinked_ok _ _ _ _ Hok1 Hrl Hr3) as (Hok3 & [Hv Hdk Hw] & Hdi). { set_solver. }
  split_and!; [done| |rewrite Hdi; by eapply dirty_setb].
  constructor; [|by rewrite Hdk|by rewrite Hw]. intros k. rewrite Hv.
  eapply reads_as_kept; [apply Hok1|]. intros k' v. by eapply reads_as_keep_one.
Qed.

Lemma binit_runs d :
  (∀ n, block_ok (dblock d 1 n)) →
  runs binit (boot_bio true d) (λ _ s', bio_ok me s' ∅ ∧ disk s' = d ∧ writes s' = [] ∧
    dirty s' = ∅ ∧ ∀ n, blk s' n = dblock d 1 n).
Proof.
  intros Hd. eapply runs_mono; [apply binit_ok|]. intros _ s' [[E E1 E2 E3] Hr].
  cbn [disk writes bufs boot_bio havedisk1] in *. rewrite fmap_replicate in E.
  assert (Hz : ∀ i b, bufs s' !! i = Some b → core b = core zero_buf).
  { intros i b Hb. assert ((core <$> bufs s') !! i = Some (core b)) as H by (by rewrite list_lookup_fmap, Hb).
    rewrite E in H. by apply lookup_replicate in H as [-> _]. }
  assert (Hc : cache_ok me (bufs s') (disk s') ∅).
  { constructor; [..|done|].
    - apply (f_equal length) in E. by rewrite length_fmap, length_replicate in E.
    - intros h Hh. change (b_dev (core h) = 0 ∧ b_flags (core h) = 0). by rewrite (Hz _ _ Hh).
    - intros i b _ Hb. rewrite lookup_empty. change (slot_ok me (disk s') (core b) None). rewrite (Hz _ _ Hb).
      split; [apply zero_block_ok|]. cbn. auto.
    - intros i j b c Hb _. change (b_dev (core b) = 1 → b_dev c = 1 → b_blockno b = b_blockno c → i = j).
      by rewrite (Hz _ _ Hb). }
  assert (Hfl : ∀ i b, bufs s' !! i = Some b → b_flags b = 0).
  { intros i b Hb. change (b_flags (core b) = 0). by rewrite (Hz _ _ Hb). }
  split_and!; try done.
  - constructor; [|done|done|by rewrite E2]. eexists. split; [done|]. intros i Hi. apply elem_of_reverse, elem_of_seq. lia.
  - apply set_eq. intros n. rewrite elem_of_dirty. split; [|set_solver].
    intros (i & b & Hb & Hf & _). rewrite (Hfl _ _ Hb) in Hf. done.
  - intros n. rewrite <- E2. eapply reads_as_blk; [done|]. right. split; [|done].
    intros i b Hb. unfold caches. by rewrite (Hfl _ _ Hb), andb_false_r.
Qed.

Lemma bread_one b n :
  bio_ok me b ∅ → n < FSSIZE → (size (dirty b ∪ {[ n ]}) ≤ NBUF)%nat →
  runs (bread me 1 n) b (λ i b', bio_ok me b' {[ i := (n, false) ]} ∧ same_view b b' ∧ dirty b' = dirty b).
Proof.
  intros Hok Hn Hsz. eapply runs_mono.
  - apply bread_runs; [done|rewrite held_empty; set_solver|done|]. rewrite held_empty.
    by rewrite (right_id_L ∅ (∪)).
  - intros i b' (_ & Hok' & Hv & Hd & _). by rewrite insert_empty in Hok'.
Qed.

Lemma blk_ok s H n : bio_ok me s H → block_ok (blk s n).
Proof.
  intros [_ Hc _ Hbl]. destruct (blk_reads_as s n) as [(i & b & Hb & Hcb & <-)|[_ ->]]; [|done].
  apply lookup_lt_Some in Hb as Hi. rewrite (co_len _ _ _ _ Hc) in Hi.
  destruct (decide (i = NBUF)) as [->|].
  - destruct (co_head _ _ _ _ Hc b Hb) as [Hd _]. apply caches_true in Hcb as [? _]. lia.
  - by destruct (co_slot _ _ _ _ Hc i b ltac:(lia) Hb).
Qed.

End ops.
