(* ===== verification/Log.v ===== *)
(** * log.c: the write-ahead log

    The state is the buffer cache and disk of [Bio] together with [struct log].
    A call runs whole; where the code sleeps on [&log] the outcome is [Asleep]
    with the channel [log_chan].  The two [wakeup(&log)] of [end_op] change the process
    table only, which is not part of this state.  [readsb] is that of fs.c. *)

From S2P Require Import Prelude Block Bio.

Definition MAXOPBLOCKS : Z := 10.
Definition LOGSIZE : Z := MAXOPBLOCKS * 3.

Record logheader := { lh_n : Z; lh_block : list Z }.

Record log := {
  lg_start : Z; lg_size : Z; lg_outstanding : Z; lg_committing : Z; lg_dev : Z; lg_lh : logheader }.

(** in the zeroed data segment *)
Definition boot_log : log :=
  {| lg_start := 0; lg_size := 0; lg_outstanding := 0; lg_committing := 0; lg_dev := 0;
     lg_lh := {| lh_n := 0; lh_block := replicate (Z.to_nat LOGSIZE) 0 |} |}.

Definition set_lh v g := {| lg_start := lg_start g; lg_size := lg_size g;
  lg_outstanding := lg_outstanding g; lg_committing := lg_committing g; lg_dev := lg_dev g; lg_lh := v |}.
Definition set_n v g := set_lh {| lh_n := v; lh_block := lh_block (lg_lh g) |} g.
Definition set_blocks v g := set_lh {| lh_n := lh_n (lg_lh g); lh_block := v |} g.
Definition set_outstanding v g := {| lg_start := lg_start g; lg_size := lg_size g;
  lg_outstanding := v; lg_committing := lg_committing g; lg_dev := lg_dev g; lg_lh := lg_lh g |}.
Definition set_committing v g := {| lg_start := lg_start g; lg_size := lg_size g;
  lg_outstanding := lg_outstanding g; lg_committing := v; lg_dev := lg_dev g; lg_lh := lg_lh g |}.

Record lstate := { ls_bio : bio; ls_log : log }.

Definition log_chan : Z := -1.

Section log.
  Context (me : Z).

Abbreviation L := (M lstate).

Definition in_bio {A} (m : M bio A) : L A :=
  zoom ls_bio (λ b s, {| ls_bio := b; ls_log := ls_log s |}) m.
Definition upd_log (f : log → log) : L unit :=
  modify (λ s, {| ls_bio := ls_bio s; ls_log := f (ls_log s) |}).
Definition sleep_log : L unit := λ s, Asleep log_chan s.

(** [log.lh.block[i]] *)
Definition get_block (i : Z) : L Z :=
  bs ← gets (λ s, lh_block (lg_lh (ls_log s)));
  match bs !! Z.to_nat i with Some v => mret v | None => panic "fault: lh.block" end.
Definition put_block (i v : Z) : L unit :=
  if (0 <=? i) && (i <? LOGSIZE) then upd_log (λ g, set_blocks (<[Z.to_nat i := v]> (lh_block (lg_lh g))) g)
  else panic "fault: lh.block".

Definition readsb (dev : Z) : M bio superblock :=
  bp ← bread me dev 1;
  sb ← gets (λ s, decode_sb (bdata bp s));
  _ ← brelse me bp;
  mret sb.

(** ** Reading and writing the header *)

Fixpoint read_blocks (n : nat) (data : list Z) (i : Z) : L unit :=
  match n with
  | O => mret ()
  | S n =>
      _ ← put_block i (i32 (get32 (Z.to_nat (4 + 4 * i)) data));
      read_blocks n data (i + 1)
  end.

Definition read_head : L unit :=
  g ← gets ls_log;
  b ← in_bio (bread me (lg_dev g) (u32 (lg_start g)));
  data ← gets (λ s, bdata b (ls_bio s));
  let n := i32 (get32 0 data) in
  _ ← upd_log (set_n n);
  _ ← read_blocks (Z.to_nat n) data 0;
  in_bio (brelse me b).

Fixpoint write_blocks (n : nat) (b : nat) (i : Z) : L unit :=
  match n with
  | O => mret ()
  | S n =>
      v ← get_block i;
      data ← gets (λ s, bdata b (ls_bio s));
      _ ← in_bio (set_bdata b (put32 (Z.to_nat (4 + 4 * i)) v data));
      write_blocks n b (i + 1)
  end.

Definition write_head : L unit :=
  g ← gets ls_log;
  b ← in_bio (bread me (lg_dev g) (u32 (lg_start g)));
  data ← gets (λ s, bdata b (ls_bio s));
  let n := lh_n (lg_lh g) in
  _ ← in_bio (set_bdata b (put32 0 n data));
  _ ← write_blocks (Z.to_nat n) b 0;
  _ ← in_bio (bwrite me b);
  in_bio (brelse me b).

(** ** Copying between the log and the home blocks *)

Fixpoint install_loop (n : nat) (tail : Z) : L unit :=
  match n with
  | O => mret ()
  | S n =>
      g ← gets ls_log;
      lbuf ← in_bio (bread me (lg_dev g) (u32 (lg_start g + tail + 1)));
      blockno ← get_block tail;
      dbuf ← in_bio (bread me (lg_dev g) (u32 blockno));
      data ← gets (λ s, bdata lbuf (ls_bio s));
      _ ← in_bio (set_bdata dbuf data);
      _ ← in_bio (bwrite me dbuf);
      _ ← in_bio (brelse me lbuf);
      _ ← in_bio (brelse me dbuf);
      install_loop n (tail + 1)
  end.

Definition install_trans : L unit :=
  n ← gets (λ s, lh_n (lg_lh (ls_log s)));
  install_loop (Z.to_nat n) 0.

Fixpoint write_loop (n : nat) (tail : Z) : L unit :=
  match n with
  | O => mret ()
  | S n =>
      g ← gets ls_log;
      to ← in_bio (bread me (lg_dev g) (u32 (lg_start g + tail + 1)));
      blockno ← get_block tail;
      from ← in_bio (bread me (lg_dev g) (u32 blockno));
      data ← gets (λ s, bdata from (ls_bio s));
      _ ← in_bio (set_bdata to data);
      _ ← in_bio (bwrite me to);
      _ ← in_bio (brelse me from);
      _ ← in_bio (brelse me to);
      write_loop n (tail + 1)
  end.

Definition write_log : L unit :=
  n ← gets (λ s, lh_n (lg_lh (ls_log s)));
  write_loop (Z.to_nat n) 0.

(** ** Recovery *)

Definition recover_from_log : L unit :=
  _ ← read_head;
  _ ← install_trans;
  _ ← upd_log (set_n 0);
  write_head.

(** [sizeof(struct logheader)] *)
Definition LOGHEADER_SIZE : Z := 4 + 4 * LOGSIZE.

Definition initlog (dev : Z) : L unit :=
  if BSIZE <=? LOGHEADER_SIZE then panic "initlog: too big logheader"
  else
    sb ← in_bio (readsb dev);
    _ ← upd_log (λ g, {| lg_start := i32 (sb_logstart sb); lg_size := i32 (sb_nlog sb);
           lg_outstanding := lg_outstanding g; lg_committing := lg_committing g; lg_dev := dev; lg_lh := lg_lh g |});
    recover_from_log.

(** ** Transactions *)

Definition begin_op : L unit :=
  g ← gets ls_log;
  if negb (lg_committing g =? 0) then sleep_log
  else if LOGSIZE <? lh_n (lg_lh g) + (lg_outstanding g + 1) * MAXOPBLOCKS then sleep_log
  else upd_log (set_outstanding (lg_outstanding g + 1)).

Definition commit : L unit :=
  n ← gets (λ s, lh_n (lg_lh (ls_log s)));
  if 0 <? n then
    _ ← write_log;
    _ ← write_head;
    _ ← install_trans;
    _ ← upd_log (set_n 0);
    write_head
  else mret ().

Definition end_op : L unit :=
  _ ← upd_log (λ g, set_outstanding (lg_outstanding g - 1) g);
  g ← gets ls_log;
  if negb (lg_committing g =? 0) then panic "log.committing"
  else if lg_outstanding g =? 0 then
    _ ← upd_log (set_committing 1);
    _ ← commit;
    upd_log (set_committing 0)
  else mret ().

(** the index of [blockno] among the first [n] of the header, or [n] *)
Fixpoint find_block (n : nat) (i blockno : Z) : L Z :=
  match n with
  | O => mret i
  | S n =>
      v ← get_block i;
      if u32 v =? blockno then mret i else find_block n (i + 1) blockno
  end.

Definition log_write (b : nat) : L unit :=
  g ← gets ls_log;
  let n := lh_n (lg_lh g) in
  if (LOGSIZE <=? n) || (lg_size g - 1 <=? n) then panic "too big a transaction"
  else if lg_outstanding g <? 1 then panic "log_write outside of trans"
  else
    blockno ← in_bio (bb ← buf_at b; mret (b_blockno bb));
    i ← find_block (Z.to_nat n) 0 blockno;
    _ ← put_block i (i32 blockno);
    _ ← (if i =? n then upd_log (set_n (n + 1)) else mret ());
    in_bio (bupd b (λ bb, set_flags (Z.lor (b_flags bb) B_DIRTY) bb)).

End log.
