(* ===== verification/LogSpec.v ===== *)
(** * The parts of the log

    [start] and [size] are the position of the log on disk.  A block outside the
    log, from number 2 on, is a home block.  This file has what the loops of log.c
    and the reading and writing of the header do to the cache and to the disk,
    with the list of the blocks they write, in order. *)

From S2P Require Import Prelude Block Bio BioRing BioSpec Log.

(** ** Writes and crashes *)

Definition apply_writes (ws : list (Z * Z * list Z)) (d : disk_t) : disk_t :=
  foldl (λ d '(dev, n, v), <[(dev, n) := v]> d) d ws.

Lemma apply_writes_app ws ws' d : apply_writes (ws ++ ws') d = apply_writes ws' (apply_writes ws d).
Proof. apply foldl_app. Qed.

(** the state [s'] is reached from [s] by the disk writes [ws] *)
Definition wrote (ws : list (Z * Z * list Z)) (s s' : bio) : Prop :=
  disk s' = apply_writes ws (disk s) ∧ writes s' = writes s ++ ws.

Lemma wrote_nil s s' : disk s' = disk s → writes s' = writes s → wrote [] s s'.
Proof. intros H1 H2. split; [done|]. by rewrite app_nil_r. Qed.

Lemma wrote_trans ws ws' s1 s2 s3 : wrote ws s1 s2 → wrote ws' s2 s3 → wrote (ws ++ ws') s1 s3.
Proof.
  intros [E1 E2] [E3 E4]. split; [by rewrite apply_writes_app, <- E1|by rewrite E4, E2, (assoc_L (++))].
Qed.

Lemma dblock_write n v d k : dblock (apply_writes [(1, n, v)] d) 1 k = if decide (k = n) then v else dblock d 1 k.
Proof.
  cbn. unfold dblock. case_decide as Hk; [subst; by rewrite lookup_insert_eq|].
  by rewrite lookup_insert_ne by congruence.
Qed.

Lemma runs_in_bio {A} (m : M bio A) s (Q : A → lstate → Prop) :
  runs m (ls_bio s) (λ a b, Q a {| ls_bio := b; ls_log := ls_log s |}) → runs (in_bio m) s Q.
Proof.
  intros (a & b & E & HQ). exists a, {| ls_bio := b; ls_log := ls_log s |}. split; [|done].
  unfold in_bio. by erewrite zoom_Ret.
Qed.

Lemma runs_in_bio_bind {A B} (m : M bio A) (k : A → M lstate B) s P (Q : B → lstate → Prop) :
  runs m (ls_bio s) P →
  (∀ a b, P a b → runs (k a) {| ls_bio := b; ls_log := ls_log s |} Q) → runs (a ← in_bio m; k a) s Q.
Proof.
  intros Hm Hk. apply runs_bind, runs_in_bio. eapply runs_mono; [done|]. intros a b HP. by apply Hk.
Qed.

Section logspec.
  Context (me start size : Z).

Record geometry : Prop := {
  geo_start : 1 < start;
  geo_size : 0 < size ≤ LOGSIZE;
  geo_end : start + size ≤ FSSIZE }.
  Context (Hgeo : geometry).

Definition home (n : Z) : Prop := 1 < n < FSSIZE ∧ ¬ start ≤ n < start + size.

(** the in-memory log *)
Definition logged (g : log) : list Z := take (Z.to_nat (lh_n (lg_lh g))) (lh_block (lg_lh g)).

Record lg_ok (g : log) : Prop := {
  lo_start : lg_start g = start;
  lo_size : lg_size g = size;
  lo_dev : lg_dev g = 1;
  lo_n : 0 ≤ lh_n (lg_lh g) ≤ size - 1;
  lo_len : length (lh_block (lg_lh g)) = Z.to_nat LOGSIZE;
  lo_nodup : NoDup (logged g);
  lo_home : Forall home (logged g) }.

Lemma logged_length g : lg_ok g → Z.of_nat (length (logged g)) = lh_n (lg_lh g).
Proof.
  intros Hg. unfold logged. rewrite length_take. pose proof (lo_len _ Hg). pose proof (lo_n _ Hg).
  destruct Hgeo as [_ ? _]. lia.
Qed.

Lemma geo_u32 k : 0 ≤ k < size → u32 (start + k) = start + k.
Proof. intros Hk. apply u32_id. destruct Hgeo. unfold is_u32, FSSIZE in *. lia. Qed.
Lemma home_u32 n : home n → u32 n = n.
Proof. intros [? _]. apply u32_id. unfold is_u32, FSSIZE in *. lia. Qed.

Lemma runs_get_block s t v (Q : Z → lstate → Prop) :
  0 ≤ t → lh_block (lg_lh (ls_log s)) !! Z.to_nat t = Some v → Q v s → runs (get_block t) s Q.
Proof. intros Ht Hv HQ. unfold get_block. rprim. rewrite Hv. by apply runs_ret. Qed.

(** ** Copying one block *)

(** [dst] becomes [src], on disk and in memory *)
Record copied (src dst : Z) (s s' : bio) : Prop := {
  cp_ok : bio_ok me s' ∅;
  cp_blk : ∀ k, blk s' k = if decide (k = dst) then blk s src else blk s k;
  cp_wrote : wrote [(1, dst, blk s src)] s s';
  cp_dirty : dirty s' = dirty s ∖ {[ dst ]} }.

(** the common end of the two copying loops *)
Lemma copy_tail {A} s i j src dst H (k : M lstate A) (Q : A → lstate → Prop) :
  bio_ok me (ls_bio s) H → H !! i = Some (src, false) → H !! j = Some (dst, false) → dst < FSSIZE → src ≠ dst →
  (∀ b, bio_ok me b (delete j (delete i H)) →
     (∀ k, blk b k = if decide (k = dst) then blk (ls_bio s) src else blk (ls_bio s) k) →
     wrote [(1, dst, blk (ls_bio s) src)] (ls_bio s) b → dirty b = dirty (ls_bio s) ∖ {[ dst ]} →
     runs k {| ls_bio := b; ls_log := ls_log s |} Q) →
  runs (data ← gets (λ s, bdata i (ls_bio s));
        _ ← in_bio (set_bdata j data); _ ← in_bio (bwrite me j);
        _ ← in_bio (brelse me i); _ ← in_bio (brelse me j); k) s Q.
Proof.
  intros Hok Hi Hj Hd Hne Hk. assert (i ≠ j) by (intros ->; simplify_eq).
  rprim. rewrite (held_bdata _ _ _ _ _ _ Hok Hi). set (v := blk (ls_bio s) src) in *.
  assert (Hv : block_ok v) by (by eapply blk_ok).
  eapply runs_in_bio_bind; [by eapply set_bdata_runs|]. intros _ b1 (Hok1 & Hb1 & Ed1 & Ew1 & Edi1).
  eapply runs_in_bio_bind; [eapply bwrite_runs; [done|by apply lookup_insert_eq|done]|].
  cbn [ls_bio ls_log]. intros _ b2 (Hok2 & Hb2 & Ed2 & Ew2 & Edi2). rewrite insert_insert_eq in Hok2.
  eapply runs_in_bio_bind; [eapply (brelse_runs _ _ _ i src); [done|by rewrite lookup_insert_ne]|].
  intros _ b3 (Hok3 & [Hb3 Ed3 Ew3] & Edi3).
  eapply runs_in_bio_bind; [eapply (brelse_runs _ _ _ j dst); [done|by rewrite lookup_delete_ne, lookup_insert_eq]|].
  intros _ b4 (Hok4 & [Hb4 Ed4 Ew4] & Edi4). cbn [ls_bio ls_log] in *. rewrite (Hb1 dst), decide_True in Ed2, Ew2 by done.
  apply Hk.
  - rewrite delete_insert_ne, delete_insert_eq in Hok4 by done.
    done.
  - intros k'. by rewrite Hb4, Hb3, Hb2, Hb1.
  - split; [by rewrite Ed4, Ed3, Ed2, Ed1|by rewrite Ew4, Ew3, Ew2, Ew1].
  - by rewrite Edi4, Edi3, Edi2, Edi1.
Qed.

Lemma two_breads {A} s x y (k1 : nat → M lstate Z) (k : nat → nat → M lstate A) (Q : A → lstate → Prop) :
  bio_ok me (ls_bio s) ∅ → x ≠ y → x < FSSIZE → y < FSSIZE → u32 y = y →
  (base.size (dirty (ls_bio s) ∪ {[ x; y ]}) ≤ NBUF)%nat →
  (∀ i s1, ls_log s1 = ls_log s → runs (k1 i) s1 (λ v s2, u32 v = y ∧ s2 = s1)) →
  (∀ i j b, i ≠ j → bio_ok me b (<[j := (y, false)]> {[ i := (x, false) ]}) → same_view (ls_bio s) b →
     dirty b = dirty (ls_bio s) → runs (k i j) {| ls_bio := b; ls_log := ls_log s |} Q) →
  runs (i ← in_bio (bread me 1 x); v ← k1 i; j ← in_bio (bread me 1 (u32 v)); k i j) s Q.
Proof.
  intros Hok Hne Hx Hy Hyu Hsz Hk1 Hk.
  eapply runs_in_bio_bind.
  { apply bread_runs; [done|..|done|].
    - intros (? & ? & E)%elem_of_held. by rewrite lookup_empty in E.
    - etrans; [|exact Hsz]. apply subseteq_size. intros n.
      rewrite !elem_of_union, elem_of_held. setoid_rewrite lookup_empty. set_solver. }
  intros i b1 (_ & Hok1 & [Hv1 Hd1 Hw1] & Hdi1 & _).
  eapply runs_bind_mono; [by apply Hk1|]. intros v s2 [-> ->].
  assert (Hheld : held (<[i := (x, false)]> ∅) ≡ {[ x ]}).
  { intros n. rewrite elem_of_held, elem_of_singleton. split.
    - intros (i' & m & E). destruct (decide (i' = i)) as [->|].
      + rewrite lookup_insert_eq in E. by simplify_eq.
      + by rewrite lookup_insert_ne, lookup_empty in E.
    - intros ->. exists i, false. by rewrite lookup_insert_eq. }
  eapply runs_in_bio_bind.
  { cbn [ls_bio]. apply bread_runs; [done|..|done|].
    - rewrite Hheld. set_solver.
    - etrans; [|exact Hsz]. apply subseteq_size. intros n. rewrite !elem_of_union, Hheld, Hdi1. set_solver. }
  intros j b2 (Hij & Hok2 & [Hv2 Hd2 Hw2] & Hdi2 & _). cbn [ls_log ls_bio] in *. apply Hk.
  - intros ->. by rewrite lookup_insert_eq in Hij.
  - by rewrite insert_empty in Hok2.
  - constructor; [intros n; by rewrite Hv2, Hv1|congruence..].
  - congruence.
Qed.

(** ** The copying loops *)

(** the writes that copy the log blocks from number [t] on to their home blocks *)
Fixpoint inst_writes (f : Z → list Z) (t : Z) (l : list Z) : list (Z * Z * list Z) :=
  match l with [] => [] | n :: l => (1, n, f (start + t + 1)) :: inst_writes f (t + 1) l end.
(** and those that copy home blocks into the log *)
Fixpoint log_writes (f : Z → list Z) (t : Z) (l : list Z) : list (Z * Z * list Z) :=
  match l with [] => [] | n :: l => (1, start + t + 1, f n) :: log_writes f (t + 1) l end.

Definition over (ws : list (Z * Z * list Z)) (f : Z → list Z) : Z → list Z :=
  foldl (λ f w k, if decide (k = w.1.2) then w.2 else f k) f ws.

Lemma over_ext ws f g : (∀ k, f k = g k) → ∀ k, over ws f k = over ws g k.
Proof.
  revert f g. induction ws as [|[[dev n] v] ws IH]; intros f g H k; cbn; [done|].
  apply IH. intros k'. cbn. by rewrite H.
Qed.

Lemma inst_writes_ext f g t l :
  (∀ k, t ≤ k < t + Z.of_nat (length l) → f (start + k + 1) = g (start + k + 1)) → inst_writes f t l = inst_writes g t l.
Proof.
  revert t. induction l as [|n l IH]; intros t H; cbn [inst_writes length] in *; [done|].
  rewrite H by lia. f_equal. apply IH. intros k Hk. apply H. lia.
Qed.
Lemma log_writes_ext f g t l : (∀ n, n ∈ l → f n = g n) → log_writes f t l = log_writes g t l.
Proof.
  revert t. induction l as [|n l IH]; intros t H; cbn; [done|].
  rewrite H by left. f_equal. apply IH. intros k Hk. apply H. by right.
Qed.

Lemma drop_lookup_total (l : list Z) (t : nat) x r : drop t l = x :: r → l !! t = Some x ∧ drop (S t) l = r.
Proof.
  intros H. split.
  - rewrite <- (Nat.add_0_r t), <- lookup_drop, H. done.
  - rewrite <- Nat.add_1_r, <- drop_drop, H. done.
Qed.

Lemma room x y (D : gset Z) (l : list Z) :
  (base.size (D ∪ list_to_set l) ≤ 29)%nat → x ∈ l →
  (base.size (D ∪ {[ y; x ]}) ≤ NBUF)%nat.
Proof.
  intros Hs Ha. transitivity (base.size (D ∪ list_to_set l ∪ {[ y ]})).
  - apply subseteq_size. intros n. rewrite !elem_of_union, !elem_of_singleton, elem_of_list_to_set.
    intros [?|[->| ->]]; auto.
  - rewrite size_union_alt. assert (base.size ({[ y ]} ∖ (D ∪ list_to_set l)) ≤ base.size (C := gset Z) {[ y ]})%nat as H1.
    { apply subseteq_size. intros n. rewrite elem_of_difference. tauto. }
    rewrite size_singleton in H1. unfold NBUF. lia.
Qed.

Lemma install_loop_runs l : ∀ t s,
  lg_ok (ls_log s) → bio_ok me (ls_bio s) ∅ → 0 ≤ t → drop (Z.to_nat t) (logged (ls_log s)) = l →
  (base.size (dirty (ls_bio s) ∪ list_to_set l) ≤ 29)%nat →
  runs (install_loop me (length l) t) s (λ _ s', ls_log s' = ls_log s ∧ bio_ok me (ls_bio s') ∅ ∧
    wrote (inst_writes (blk (ls_bio s)) t l) (ls_bio s) (ls_bio s') ∧
    (∀ k, blk (ls_bio s') k = over (inst_writes (blk (ls_bio s)) t l) (blk (ls_bio s)) k) ∧
    dirty (ls_bio s') = dirty (ls_bio s) ∖ list_to_set l).
Proof.
  induction l as [|x l IH]; intros t s Hg Hok Ht Hl Hsz; cbn [install_loop length].
  { apply runs_ret. split_and!; try done; [by apply wrote_nil|]. cbn. set_solver. }
  destruct (drop_lookup_total _ _ _ _ Hl) as [Hx Hl']. pose proof (logged_length _ Hg) as Hln.
  apply lookup_lt_Some in Hx as Hlt. pose proof (lo_n _ Hg) as Hn.
  assert (Hxh : home x) by (by eapply Forall_lookup_1; [apply (lo_home _ Hg)|]).
  assert (Hxs : start + t + 1 ≠ x) by (destruct Hxh; lia).
  assert (Hu : u32 (start + t + 1) = start + t + 1) by (rewrite <- Z.add_assoc; apply geo_u32; lia).
  assert (Hlb : start + t + 1 < FSSIZE) by (destruct Hgeo; lia).
  rprim. rewrite (lo_start _ Hg), (lo_dev _ Hg), Hu.
  apply (two_breads _ (start + t + 1) x (λ _, get_block t)); try done; [destruct Hxh; lia|by apply home_u32|by eapply room; [|left]|..].
  { intros i s1 E. eapply runs_get_block; [done| |].
    - rewrite E. unfold logged in Hx. by apply lookup_take_Some in Hx as [Hx _].
    - split; [by apply home_u32|done]. }
  intros i j b Hij Hokb [Hv Hd Hw] Hdi. eapply (copy_tail {| ls_bio := b; ls_log := ls_log s |} i j (start + t + 1) x); [exact Hokb|..].
  { rewrite lookup_insert_ne by done. apply lookup_singleton_eq. } { apply lookup_insert_eq. } { destruct Hxh; lia. } { done. }
  cbn [ls_bio ls_log]. intros b' Hok' Hv' Hw' Hdi'.
  rewrite delete_insert_ne, delete_insert_eq, delete_singleton_eq, delete_empty in Hok' by done.
  eapply runs_mono; [apply (IH (t + 1)); cbn [ls_bio ls_log]; try done; [lia| |]|].
  { rewrite Z2Nat.inj_add by lia. by rewrite Nat.add_1_r. }
  { rewrite Hdi', Hdi. etrans; [apply subseteq_size|exact Hsz]. set_solver. }
  cbn [ls_bio ls_log]. intros _ s' (E1 & Hok2 & Hwr & Hbl & Hdi2).
  assert (Hvb : ∀ k, blk b' k = if decide (k = x) then blk (ls_bio s) (start + t + 1) else blk (ls_bio s) k).
  { intros k. rewrite Hv'. case_decide; by rewrite Hv. }
  rewrite (inst_writes_ext _ (blk (ls_bio s))) in Hwr, Hbl.
  2,3: intros k Hk; rewrite Hvb, decide_False; [done|]; destruct Hxh;
       assert (Z.of_nat (length (drop (Z.to_nat t) (logged (ls_log s)))) = Z.of_nat (S (length l))) by (by rewrite Hl);
       rewrite length_drop in *; lia.
  split_and!; try done.
  - cbn [inst_writes]. eapply (wrote_trans [_]); [|done]. rewrite <- Hv. destruct Hw' as [E2 E3]. cbn [ls_bio] in *. split; [by rewrite E2, Hd|by rewrite E3, Hw].
  - intros k. rewrite Hbl. cbn [inst_writes]. cbn. apply over_ext. intros k'. cbn. apply Hvb.
  - rewrite Hdi2, Hdi', Hdi. cbn [list_to_set]. set_solver.
Qed.

Lemma write_loop_runs l : ∀ t s,
  lg_ok (ls_log s) → bio_ok me (ls_bio s) ∅ → 0 ≤ t → drop (Z.to_nat t) (logged (ls_log s)) = l →
  (base.size (dirty (ls_bio s) ∪ list_to_set l) ≤ 29)%nat → (∀ n, n ∈ dirty (ls_bio s) → home n) →
  runs (write_loop me (length l) t) s (λ _ s', ls_log s' = ls_log s ∧ bio_ok me (ls_bio s') ∅ ∧
    wrote (log_writes (blk (ls_bio s)) t l) (ls_bio s) (ls_bio s') ∧
    (∀ k, blk (ls_bio s') k = over (log_writes (blk (ls_bio s)) t l) (blk (ls_bio s)) k) ∧
    dirty (ls_bio s') = dirty (ls_bio s)).
Proof.
  induction l as [|x l IH]; intros t s Hg Hok Ht Hl Hsz Hdh; cbn [write_loop length].
  { apply runs_ret. split_and!; try done. by apply wrote_nil. }
  destruct (drop_lookup_total _ _ _ _ Hl) as [Hx Hl']. pose proof (logged_length _ Hg) as Hln.
  apply lookup_lt_Some in Hx as Hlt. pose proof (lo_n _ Hg) as Hn.
  assert (Hhome : Forall home (x :: l)) by (rewrite <- Hl; apply Forall_drop, (lo_home _ Hg)).
  apply Forall_cons in Hhome as [Hxh Hlh].
  assert (Hxs : start + t + 1 ≠ x) by (destruct Hxh; lia).
  assert (Hnh : ∀ n, home n → n ≠ start + t + 1) by (intros n []; lia).
  assert (Hu : u32 (start + t + 1) = start + t + 1) by (rewrite <- Z.add_assoc; apply geo_u32; lia).
  assert (Hlb : start + t + 1 < FSSIZE) by (destruct Hgeo; lia).
  rprim. rewrite (lo_start _ Hg), (lo_dev _ Hg), Hu.
  apply (two_breads _ (start + t + 1) x (λ _, get_block t)); try done; [destruct Hxh; lia|by apply home_u32|by eapply room; [|left]|..].
  { intros i s1 E. eapply runs_get_block; [done| |].
    - rewrite E. unfold logged in Hx. by apply lookup_take_Some in Hx as [Hx _].
    - split; [by apply home_u32|done]. }
  intros i j b Hij Hokb [Hv Hd Hw] Hdi.
  eapply (copy_tail {| ls_bio := b; ls_log := ls_log s |} j i x (start + t + 1)); [exact Hokb|..].
  { apply lookup_insert_eq. } { rewrite lookup_insert_ne by done. apply lookup_singleton_eq. } { done. } { done. }
  cbn [ls_bio ls_log]. intros b' Hok' Hv' Hw' Hdi'.
  rewrite delete_insert_eq, delete_singleton_ne, delete_singleton_eq in Hok' by done.
  assert (Hdi'' : dirty b' = dirty (ls_bio s)) by (rewrite Hdi', Hdi; set_solver).
  eapply runs_mono; [apply (IH (t + 1)); cbn [ls_bio ls_log]; rewrite ?Hdi''; try done; [lia| |]|].
  { rewrite Z2Nat.inj_add by lia. by rewrite Nat.add_1_r. }
  { etrans; [apply subseteq_size|exact Hsz]. set_solver. }
  cbn [ls_bio ls_log]. intros _ s' (E1 & Hok2 & Hwr & Hbl & Hdi2).
  assert (Hvb : ∀ k, blk b' k = if decide (k = start + t + 1) then blk (ls_bio s) x else blk (ls_bio s) k).
  { intros k. rewrite Hv'. case_decide; by rewrite Hv. }
  rewrite (log_writes_ext _ (blk (ls_bio s))) in Hwr, Hbl.
  2,3: intros k Hk; rewrite Hvb, decide_False; [done|]; apply Hnh; by eapply Forall_forall.
  split_and!; try done; [..|congruence].
  - cbn [log_writes]. eapply (wrote_trans [_]); [|done]. rewrite <- Hv. destruct Hw' as [E2 E3]. cbn [ls_bio] in *.
    split; [by rewrite E2, Hd|by rewrite E3, Hw].
  - intros k. rewrite Hbl. cbn [log_writes]. cbn. apply over_ext. intros k'. cbn. apply Hvb.
Qed.

(** ** The header block *)

Definition hd_n (data : list Z) : Z := i32 (get32 0 data).
Definition hd_at (data : list Z) (i : Z) : Z := i32 (get32 (Z.to_nat (4 + 4 * i)) data).
Definition hd_list (data : list Z) : list Z := hd_at data <$> seqZ 0 (hd_n data).

Fixpoint put_blocks (i : Z) (l : list Z) (data : list Z) : list Z :=
  match l with [] => data | v :: l => put_blocks (i + 1) l (put32 (Z.to_nat (4 + 4 * i)) v data) end.
Definition head_data (g : log) (data : list Z) : list Z :=
  put_blocks 0 (logged g) (put32 0 (lh_n (lg_lh g)) data).

Lemma put32_ok off v data : block_ok data → (off + 4 ≤ 512)%nat → block_ok (put32 off v data).
Proof. intros Hd Ho. apply put_bytes_ok; [done|exact Ho|apply le32_bytes]. Qed.

Lemma put_blocks_ok l : ∀ i data,
  block_ok data → 0 ≤ i → i + Z.of_nat (length l) ≤ LOGSIZE → block_ok (put_blocks i l data).
Proof.
  induction l as [|v l IH]; intros i data Hd Hi Hl; cbn [put_blocks length] in *; [done|].
  apply IH; [|lia..]. apply put32_ok; [done|]. unfold LOGSIZE, MAXOPBLOCKS in Hl. lia.
Qed.

Lemma get_put_blocks_0 l : ∀ i data,
  block_ok data → 0 ≤ i → i + Z.of_nat (length l) ≤ LOGSIZE → get32 0 (put_blocks i l data) = get32 0 data.
Proof.
  induction l as [|v l IH]; intros i data Hd Hi Hl; cbn [put_blocks length] in *; [done|].
  assert (Z.to_nat (4 + 4 * i) + 4 ≤ 512)%nat by (unfold LOGSIZE, MAXOPBLOCKS in Hl; lia).
  rewrite IH; [|by apply put32_ok|lia..]. destruct Hd as [Hd _]. apply get32_put32_ne; [rewrite Hd; done|lia].
Qed.

Lemma get_put_blocks l : ∀ i data k,
  block_ok data → 0 ≤ i → i + Z.of_nat (length l) ≤ LOGSIZE → 0 ≤ k →
  get32 (Z.to_nat (4 + 4 * k)) (put_blocks i l data) =
    (if decide (i ≤ k) then from_option u32 (get32 (Z.to_nat (4 + 4 * k)) data) (l !! Z.to_nat (k - i))
     else get32 (Z.to_nat (4 + 4 * k)) data).
Proof.
  induction l as [|v l IH]; intros i data k Hd Hi Hl Hk; cbn [put_blocks length] in *.
  { rewrite lookup_nil. by case_decide. }
  assert (Ho : (Z.to_nat (4 + 4 * i) + 4 ≤ 512)%nat) by (unfold LOGSIZE, MAXOPBLOCKS in Hl; lia).
  pose proof Hd as [Hlen _]. rewrite IH; [|by apply put32_ok|lia..].
  destruct (decide (k = i)) as [->|Hne].
  - rewrite decide_False, decide_True by lia. rewrite Z.sub_diag. cbn.
    apply get_put32. rewrite Hlen. done.
  - rewrite get32_put32_ne by (rewrite ?Hlen; done || lia). case_decide as H1.
    + rewrite decide_True by lia. replace (Z.to_nat (k - i)) with (S (Z.to_nat (k - (i + 1)))) by lia. done.
    + by rewrite decide_False by lia.
Qed.

Section head.
  Context (g : log) (data : list Z) (Hg : lg_ok g) (Hd : block_ok data).

Lemma log_fits : Z.of_nat (length (logged g)) ≤ LOGSIZE.
Proof. rewrite (logged_length _ Hg). pose proof (lo_n _ Hg). destruct Hgeo. lia. Qed.

Lemma head_data_ok : block_ok (head_data g data).
Proof. pose proof log_fits. apply put_blocks_ok; [by apply put32_ok; [|lia]|lia..]. Qed.

Lemma hd_n_head : hd_n (head_data g data) = lh_n (lg_lh g).
Proof.
  pose proof log_fits. pose proof (lo_n _ Hg). destruct Hgeo as [_ Hs _]. unfold LOGSIZE, MAXOPBLOCKS in *.
  unfold hd_n, head_data. rewrite get_put_blocks_0; [|by apply put32_ok; [|lia]|unfold LOGSIZE, MAXOPBLOCKS; lia..].
  rewrite get_put32 by (destruct Hd as [-> _]; unfold BSIZE; lia).
  rewrite u32_id by (unfold is_u32; lia). apply i32_id. lia.
Qed.

Lemma hd_list_head : hd_list (head_data g data) = logged g.
Proof.
  pose proof log_fits as Hf. unfold hd_list. rewrite hd_n_head, <- (logged_length _ Hg).
  apply list_eq. intros i. rewrite list_lookup_fmap.
  destruct (decide (i < length (logged g))%nat) as [Hi|Hi].
  - rewrite lookup_seqZ_lt by lia. cbn. destruct (lookup_lt_is_Some_2 _ _ Hi) as [v Hv]. rewrite Hv. f_equal.
    unfold hd_at, head_data. rewrite get_put_blocks; [|by apply put32_ok; [|lia]|lia..].
    rewrite decide_True by lia. replace (Z.to_nat (0 + Z.of_nat i - 0)) with i by lia. rewrite Hv. cbn.
    assert (home v) as [? _] by (by eapply Forall_lookup_1; [apply (lo_home _ Hg)|]).
    unfold FSSIZE in *. rewrite u32_id by (unfold is_u32; lia). apply i32_id. lia.
  - rewrite lookup_seqZ_ge by lia. symmetry. apply lookup_ge_None_2. lia.
Qed.
End head.

Lemma write_blocks_runs l b : ∀ i s m,
  lg_ok (ls_log s) → bio_ok me (ls_bio s) {[ b := (start, m) ]} →
  0 ≤ i → drop (Z.to_nat i) (logged (ls_log s)) = l →
  runs (write_blocks (length l) b i) s (λ _ s', ls_log s' = ls_log s ∧
    (∃ m', bio_ok me (ls_bio s') {[ b := (start, m') ]}) ∧
    (∀ k, blk (ls_bio s') k = if decide (k = start) then put_blocks i l (blk (ls_bio s) start) else blk (ls_bio s) k) ∧
    disk (ls_bio s') = disk (ls_bio s) ∧ writes (ls_bio s') = writes (ls_bio s) ∧
    dirty (ls_bio s') = dirty (ls_bio s)).
Proof.
  induction l as [|x l IH]; intros i s m Hg Hok Hi Hl; cbn [write_blocks length put_blocks].
  { apply runs_ret. split_and!; try done; [eauto|]. intros k. case_decide; by subst. }
  destruct (drop_lookup_total _ _ _ _ Hl) as [Hx Hl']. apply lookup_lt_Some in Hx as Hlt.
  pose proof (log_fits _ Hg) as Hf. unfold LOGSIZE, MAXOPBLOCKS in Hf.
  apply runs_bind. eapply runs_get_block; [done| |].
  { unfold logged in Hx. by apply lookup_take_Some in Hx as [Hx _]. }
  rprim. rewrite (held_bdata _ _ _ _ _ _ Hok (lookup_singleton_eq _ _)).
  eapply runs_in_bio_bind.
  { eapply set_bdata_runs; [done|apply lookup_singleton_eq|]. apply put32_ok; [by eapply blk_ok|lia]. }
  intros _ b1 (Hok1 & Hb1 & Ed1 & Ew1 & Edi1). rewrite insert_singleton_eq in Hok1.
  eapply runs_mono; [eapply (IH (i + 1)); cbn [ls_bio ls_log]; [done|done|lia|]|].
  { rewrite Z2Nat.inj_add by lia. by rewrite Nat.add_1_r. }
  cbn [ls_bio ls_log]. intros _ s' (E1 & Hok' & Hb' & Ed & Ew & Edi).
  split_and!; try congruence. intros k. rewrite Hb'. case_decide as Hk; rewrite Hb1.
  - by rewrite decide_True.
  - by rewrite decide_False.
Qed.

Lemma write_head_runs s :
  lg_ok (ls_log s) → bio_ok me (ls_bio s) ∅ →
  (base.size (dirty (ls_bio s)) ≤ 29)%nat → (∀ n, n ∈ dirty (ls_bio s) → home n) →
  runs (write_head me) s (λ _ s', ls_log s' = ls_log s ∧ bio_ok me (ls_bio s') ∅ ∧
    wrote [(1, start, head_data (ls_log s) (blk (ls_bio s) start))] (ls_bio s) (ls_bio s') ∧
    (∀ k, blk (ls_bio s') k = if decide (k = start) then head_data (ls_log s) (blk (ls_bio s) start)
                              else blk (ls_bio s) k) ∧
    dirty (ls_bio s') = dirty (ls_bio s)).
Proof.
  intros Hg Hok Hsz Hdh. destruct Hgeo as [Gs Gz Ge].
  assert (Hns : start ∉ dirty (ls_bio s)) by (intros [_ ?]%Hdh; lia).
  unfold write_head. rprim. rewrite (lo_dev _ Hg), (lo_start _ Hg).
  rewrite <- (Z.add_0_r start) at 1. rewrite geo_u32, Z.add_0_r by lia.
  eapply runs_in_bio_bind.
  { apply bread_one; [done|lia|]. rewrite size_union, size_singleton by set_solver. unfold NBUF. lia. }
  intros b b1 (Hok1 & [Hv1 Hd1 Hw1] & Hdi1). rprim. cbn [ls_bio].
  rewrite (held_bdata _ _ _ _ _ _ Hok1 (lookup_singleton_eq _ _)).
  eapply runs_in_bio_bind.
  { eapply set_bdata_runs; [done|apply lookup_singleton_eq|]. apply put32_ok; [by eapply blk_ok|lia]. }
  intros _ b2 (Hok2 & Hb2 & Ed2 & Ew2 & Edi2). rewrite insert_singleton_eq in Hok2. cbn [ls_log ls_bio] in *.
  rewrite <- (logged_length _ Hg), Nat2Z.id.
  eapply runs_bind_mono; [by eapply write_blocks_runs; cbn [ls_bio ls_log]|].
  cbn [ls_bio ls_log]. intros _ s3 (E3 & [m' Hok3] & Hb3 & Ed3 & Ew3 & Edi3).
  eapply runs_in_bio_bind; [eapply bwrite_runs; [done|apply lookup_singleton_eq|lia]|].
  intros _ b4 (Hok4 & Hb4 & Ed4 & Ew4 & Edi4). rewrite insert_singleton_eq in Hok4.
  apply runs_in_bio. eapply runs_mono; [eapply brelse_runs; [done|apply lookup_singleton_eq]|].
  cbn [ls_bio ls_log]. intros _ b5 (Hok5 & [Hv5 Hd5 Hw5] & Hdi5). rewrite delete_singleton_eq in Hok5.
  assert (Hh : blk (ls_bio s3) start = head_data (ls_log s) (blk (ls_bio s) start)).
  { rewrite Hb3, decide_True, Hb2, decide_True by done. unfold head_data. by rewrite Hv1. }
  split_and!; [congruence|done|..].
  - rewrite <- Hh. split; [by rewrite Hd5, Ed4, Ed3, Ed2, Hd1|by rewrite Hw5, Ew4, Ew3, Ew2, Hw1].
  - intros k. rewrite Hv5, Hb4, <- Hh. case_decide as Hk; [by subst|].
    by rewrite Hb3, decide_False, Hb2, decide_False, Hv1.
  - rewrite Hdi5, Edi4, Edi3, Edi2, Hdi1. set_solver.
Qed.
End logspec.
