(* ===== verification/LogCrash.v ===== *)
(** * The log makes transactions atomic

    A crash leaves the disk as some prefix of the list of writes made it; a block
    is written whole or not at all.  [logical d n] is what block [n] of the disk
    [d] stands for: its copy in the log if the header on disk names it.  On every
    disk that a crash in [commit] can leave, [logical] is the state before the
    transaction or the state after it, and recovery installs [logical], also when
    recovery itself crashes any number of times. *)

From S2P Require Import Prelude Block Bio BioRing BioSpec Log LogSpec.

(** ** Prefixes of the writes *)

Lemma prefix_app_cases {A} (p a b : list A) :
  p `prefix_of` a ++ b → p `prefix_of` a ∨ ∃ q, p = a ++ q ∧ q `prefix_of` b.
Proof.
  revert a. induction p as [|x p IH]; intros [|y a]; cbn; intros H.
  - left. by exists [].
  - left. by eexists.
  - right. eauto.
  - pose proof (prefix_cons_inv_1 _ _ _ _ H) as ->. apply prefix_cons_inv_2 in H.
    destruct (IH a H) as [?|(q & -> & ?)]; [left; by apply prefix_cons|right; eauto].
Qed.

Definition targets (ws : list (Z * Z * list Z)) : list Z := (λ w, w.1.2) <$> ws.
Definition dev1 (ws : list (Z * Z * list Z)) : Prop := Forall (λ w, w.1.1 = 1) ws.
Definition blocks_ok (d : disk_t) : Prop := ∀ n, block_ok (dblock d 1 n).

Lemma dblock_apply ws : ∀ d k, dev1 ws → dblock (apply_writes ws d) 1 k = over ws (dblock d 1) k.
Proof.
  unfold apply_writes, over.
  induction ws as [|[[dev n] v] ws IH]; intros d k Hd; [done|].
  apply Forall_cons in Hd as [Hdev Hd]. cbn in Hdev. subst dev.
  cbn [foldl]. rewrite IH by done. apply over_ext. intros k'. apply (dblock_write n v).
Qed.

Lemma over_notin ws : ∀ f k, k ∉ targets ws → over ws f k = f k.
Proof.
  induction ws as [|[[dev n] v] ws IH]; intros f k Hk; [done|].
  cbn in Hk. apply not_elem_of_cons in Hk as [Hk1 Hk2]. cbn. unfold over in IH. rewrite IH by done.
  by rewrite decide_False.
Qed.

Lemma over_app ws ws' f : over (ws ++ ws') f = over ws' (over ws f).
Proof. apply foldl_app. Qed.

Lemma prefix_dev1 p ws : p `prefix_of` ws → dev1 ws → dev1 p.
Proof. intros [q ->] H. by apply Forall_app in H as [? _]. Qed.
Lemma prefix_targets p ws k : p `prefix_of` ws → k ∈ targets p → k ∈ targets ws.
Proof. intros [q ->] H. unfold targets in *. rewrite fmap_app. set_solver. Qed.

Lemma blocks_ok_apply ws d :
  blocks_ok d → dev1 ws → Forall (λ w, block_ok w.2) ws → blocks_ok (apply_writes ws d).
Proof.
  intros Hd H1 Hw n. rewrite dblock_apply by done. revert d Hd. assert (∀ f, (∀ k, block_ok (f k)) → block_ok (over ws f n)) as H.
  { clear H1. induction Hw as [|[[dev m] v] ws Hv Hw IH]; intros f Hf; [apply Hf|]. cbn.
    unfold over in IH. apply IH. intros k. case_decide; [done|apply Hf]. }
  intros d Hd. apply H. apply Hd.
Qed.

Section logcrash.
  Context (me start size : Z) (Hgeo : geometry start size).

Abbreviation home := (home start size).
Abbreviation lg_ok := (lg_ok start size).
Abbreviation inst_writes := (inst_writes start).
Abbreviation log_writes := (log_writes start).

Lemma inst_dev1 f t l : dev1 (inst_writes f t l).
Proof. revert t. induction l; intros t; cbn; constructor; auto. apply IHl. Qed.
Lemma log_dev1 f t l : dev1 (log_writes f t l).
Proof. revert t. induction l; intros t; cbn; constructor; auto. apply IHl. Qed.

Lemma inst_targets f t l : targets (inst_writes f t l) = l.
Proof. revert t. induction l as [|n l IH]; intros t; cbn; [done|]. f_equal. apply IH. Qed.
Lemma log_targets f t l k :
  k ∈ targets (log_writes f t l) → start + t + 1 ≤ k < start + t + 1 + Z.of_nat (length l).
Proof.
  revert t. induction l as [|n l IH]; intros t; cbn [log_writes targets fmap list_fmap length].
  - by intros ?%not_elem_of_nil.
  - cbn. intros [->|H]%elem_of_cons; [lia|]. specialize (IH (t + 1) H). lia.
Qed.

(** where a home block is in the log *)
Definition log_pos (l : list Z) (k : Z) : option nat := fst <$> list_find (λ n, n = k) l.

Lemma log_pos_cons n l k :
  log_pos (n :: l) k = if decide (n = k) then Some O else S <$> log_pos l k.
Proof. unfold log_pos. cbn. case_decide; [done|]. by destruct (list_find _ l) as [[? ?]|]. Qed.

Lemma log_pos_Some l k i : log_pos l k = Some i → l !! i = Some k.
Proof.
  unfold log_pos. intros H. apply fmap_Some in H as ([j n] & (H1 & <- & _)%list_find_Some & ->). done.
Qed.
Lemma log_pos_None l k : log_pos l k = None → k ∉ l.
Proof.
  unfold log_pos. intros H. apply fmap_None, list_find_None in H. intros Hin.
  rewrite Forall_forall in H. by apply (H k Hin).
Qed.

Lemma over_inst f l : ∀ t g k, NoDup l →
  over (inst_writes f t l) g k = from_option (λ i, f (start + (t + Z.of_nat i) + 1)) (g k) (log_pos l k).
Proof.
  induction l as [|n l IH]; intros t g k Hnd; [done|]. apply NoDup_cons in Hnd as [Hn Hnd].
  rewrite log_pos_cons. cbn [inst_writes]. change (over ((1, n, ?v) :: ?ws) ?g) with (over ws (λ k, if decide (k = n) then v else g k)).
  case_decide as Hk.
  - subst k. rewrite over_notin by (by rewrite inst_targets). cbn. rewrite decide_True by done. f_equal. lia.
  - rewrite IH by done. destruct (log_pos l k); cbn; [f_equal; lia|]. by rewrite decide_False by congruence.
Qed.

Lemma over_log f l : ∀ t g (i : nat) n,
  l !! i = Some n → over (log_writes f t l) g (start + (t + Z.of_nat i) + 1) = f n.
Proof.
  induction l as [|m l IH]; intros t g i n Hi; [done|]. cbn [log_writes].
  change (over ((1, ?n, ?v) :: ?ws) ?g) with (over ws (λ k, if decide (k = n) then v else g k)).
  destruct i as [|i]; cbn in Hi.
  - simplify_eq. rewrite over_notin; [by rewrite decide_True by lia|]. intros H%log_targets. lia.
  - rewrite <- (IH (t + 1) (λ k, if decide (k = start + t + 1) then f m else g k) i n Hi). f_equal. lia.
Qed.

(** ** What a disk stands for *)

Definition head_of (d : disk_t) : list Z := dblock d 1 start.

Definition logical (d : disk_t) (n : Z) : list Z :=
  match log_pos (hd_list (head_of d)) n with
  | Some i => dblock d 1 (start + Z.of_nat i + 1)
  | None => dblock d 1 n
  end.

(** a disk that recovery accepts *)
Record disk_ok (d : disk_t) : Prop := {
  do_blocks : blocks_ok d;
  do_sb : sb_logstart (decode_sb (dblock d 1 1)) = start ∧ sb_nlog (decode_sb (dblock d 1 1)) = size;
  do_n : 0 ≤ hd_n (head_of d) ≤ size - 1;
  do_nodup : NoDup (hd_list (head_of d));
  do_home : Forall home (hd_list (head_of d)) }.

(** [d] stands for the contents [f] of the home blocks *)
Definition stands_for (d : disk_t) (f : Z → list Z) : Prop :=
  disk_ok d ∧ ∀ n, home n → logical d n = f n.

Lemma hd_list_nil h : hd_n h = 0 → hd_list h = [].
Proof. unfold hd_list. intros ->. done. Qed.

Lemma empty_log_ok d d0 :
  disk_ok d0 → blocks_ok d → dblock d 1 1 = dblock d0 1 1 → hd_n (head_of d) = 0 → disk_ok d.
Proof.
  intros [_ Hsb _ _ _] Hb E H0. destruct Hgeo as [_ ? _].
  constructor; [done|by rewrite E|lia|rewrite hd_list_nil by done; constructor..].
Qed.

Lemma logical_empty d n : hd_n (head_of d) = 0 → logical d n = dblock d 1 n.
Proof. intros H0. unfold logical. by rewrite hd_list_nil. Qed.

Lemma home_not_log n k : home n → 0 ≤ k < size → n ≠ start + k.
Proof. intros [_ ?] ?. lia. Qed.
Lemma home_not_sb n : home n → n ≠ 1.
Proof. intros [? _]. lia. Qed.

(** writes into the log proper change nothing while the header is empty *)
Lemma stands_log_writes d f t l p :
  disk_ok d → hd_n (head_of d) = 0 → 0 ≤ t → t + Z.of_nat (length l) < size →
  (∀ n, n ∈ l → block_ok (f n)) → p `prefix_of` log_writes f t l →
  stands_for (apply_writes p d) (dblock d 1).
Proof.
  intros Hd H0 Ht Hl Hf Hp. destruct Hgeo as [? ? ?].
  assert (Hp1 : dev1 p) by (eapply prefix_dev1; [done|apply log_dev1]).
  assert (Hdb : ∀ k, ¬ start + 1 ≤ k < start + size → dblock (apply_writes p d) 1 k = dblock d 1 k).
  { intros k Hk. rewrite dblock_apply by done. apply over_notin. intros Hin.
    apply (prefix_targets _ _ _ Hp) in Hin. apply log_targets in Hin. lia. }
  assert (Hbo : blocks_ok (apply_writes p d)).
  { apply blocks_ok_apply; [apply Hd|done|]. destruct Hp as [q E].
    assert (Forall (λ w, block_ok w.2) (log_writes f t l)) as HF.
    { clear -Hf. revert t. induction l as [|n l IH]; intros t; cbn; constructor.
      - cbn. apply Hf. left.
      - apply IH. intros k Hk. apply Hf. by right. }
    rewrite E in HF. by apply Forall_app in HF as [? _]. }
  assert (Hh : hd_n (head_of (apply_writes p d)) = 0) by (unfold head_of; rewrite Hdb by lia; done).
  split.
  - eapply empty_log_ok; [exact Hd|done| |done]. apply Hdb. lia.
  - intros n [Hn1 Hn2]. rewrite logical_empty by done. apply Hdb. lia.
Qed.

(** writes to home blocks that the header names change nothing *)
Lemma stands_inst_writes d f g t l p :
  stands_for d g → (∀ n, n ∈ l → n ∈ hd_list (head_of d)) → (∀ k, block_ok (f k)) →
  p `prefix_of` inst_writes f t l → stands_for (apply_writes p d) g.
Proof.
  intros [Hd Hg] Hl Hf Hp. destruct Hgeo as [? ? ?].
  assert (Hp1 : dev1 p) by (eapply prefix_dev1; [done|apply inst_dev1]).
  assert (Hdb : ∀ k, k ∉ hd_list (head_of d) → dblock (apply_writes p d) 1 k = dblock d 1 k).
  { intros k Hk. rewrite dblock_apply by done. apply over_notin. intros Hin.
    apply (prefix_targets _ _ _ Hp) in Hin. rewrite inst_targets in Hin. auto. }
  assert (Hbo : blocks_ok (apply_writes p d)).
  { apply blocks_ok_apply; [apply Hd|done|]. destruct Hp as [q E].
    assert (Forall (λ w, block_ok w.2) (inst_writes f t l)) as HF.
    { clear -Hf. revert t. induction l as [|n l IH]; intros t; cbn; constructor; [cbn; apply Hf|apply IH]. }
    rewrite E in HF. by apply Forall_app in HF as [? _]. }
  assert (Hnl : ∀ k, k ∈ hd_list (head_of d) → home k) by (apply Forall_forall, Hd).
  assert (Hh : head_of (apply_writes p d) = head_of d).
  { apply Hdb. intros [_ Hin]%Hnl. lia. }
  assert (H1 : dblock (apply_writes p d) 1 1 = dblock d 1 1).
  { apply Hdb. intros Hin%Hnl. by apply (home_not_sb 1). }
  split.
  - destruct Hd. constructor; rewrite ?Hh, ?H1; done.
  - intros n Hn. rewrite <- Hg by done. unfold logical. rewrite Hh.
    destruct (log_pos (hd_list (head_of d)) n) as [i|] eqn:E.
    + apply Hdb. intros Hin%Hnl. apply log_pos_Some, lookup_lt_Some in E.
      unfold hd_list in E. rewrite length_fmap, length_seqZ in E. pose proof (do_n _ Hd).
      apply (home_not_log _ (Z.of_nat i + 1) Hin); lia.
    + apply Hdb. by apply log_pos_None.
Qed.

(** the header names the transaction: the commit point *)
Lemma stands_commit d g f h :
  disk_ok d → hd_n (head_of d) = 0 → lg_ok g → block_ok h → hd_n h = lh_n (lg_lh g) → hd_list h = logged g →
  (∀ n, n ∈ logged g → block_ok (f n)) → (∀ n, home n → n ∉ logged g → dblock d 1 n = f n) →
  stands_for (apply_writes [(1, start, h)] (apply_writes (log_writes f 0 (logged g)) d)) f.
Proof.
  intros Hd H0 Hg Hh Hhn Hhl Hf Hcl. pose proof (logged_length _ _ Hgeo _ Hg) as Hlen. pose proof (lo_n _ _ _ Hg) as Hn.
  destruct (stands_log_writes d f 0 (logged g) (log_writes f 0 (logged g))) as [Hd1 _]; try done; [lia|].
  set (d1 := apply_writes (log_writes f 0 (logged g)) d) in *. destruct Hgeo as [? ? ?].
  assert (Hdb : ∀ k, k ≠ start → dblock (apply_writes [(1, start, h)] d1) 1 k = dblock d1 1 k).
  { intros k Hk. rewrite dblock_write. by rewrite decide_False. }
  assert (Hhd : head_of (apply_writes [(1, start, h)] d1) = h).
  { unfold head_of. rewrite dblock_write. by rewrite decide_True. }
  split.
  - constructor; rewrite ?Hhd, ?Hhl, ?Hhn, ?Hdb by lia; try apply Hd1; try apply Hg.
    apply blocks_ok_apply; [apply Hd1|by apply Forall_singleton|by apply Forall_singleton].
  - intros n Hhome. unfold logical. rewrite Hhd, Hhl.
    destruct (log_pos (logged g) n) as [i|] eqn:E.
    + apply log_pos_Some in E as Hi. apply lookup_lt_Some in Hi as Hlt.
      rewrite Hdb by lia. unfold d1. rewrite dblock_apply by apply log_dev1.
      rewrite <- (over_log f (logged g) 0 (dblock d 1) i n Hi). f_equal; lia.
    + rewrite Hdb by (destruct Hhome; lia). unfold d1. rewrite dblock_apply by apply log_dev1.
      rewrite over_notin; [by apply Hcl; [|apply log_pos_None]|].
      intros Hin%log_targets. destruct Hhome. lia.
Qed.

(** clearing the header once the home blocks are up to date *)
Lemma stands_erase d f h :
  disk_ok d → (∀ n, home n → dblock d 1 n = f n) → block_ok h → hd_n h = 0 →
  stands_for (apply_writes [(1, start, h)] d) f.
Proof.
  intros Hd Hf Hh H0. destruct Hgeo as [? ? ?].
  assert (Hdb : ∀ k, k ≠ start → dblock (apply_writes [(1, start, h)] d) 1 k = dblock d 1 k).
  { intros k Hk. rewrite dblock_write. by rewrite decide_False. }
  assert (Hhd : head_of (apply_writes [(1, start, h)] d) = h).
  { unfold head_of. rewrite dblock_write. by rewrite decide_True. }
  split.
  - eapply empty_log_ok; [exact Hd| |apply Hdb; lia|by rewrite Hhd].
    apply blocks_ok_apply; [apply Hd|by apply Forall_singleton|by apply Forall_singleton].
  - intros n Hn. rewrite logical_empty by (by rewrite Hhd). rewrite Hdb by (destruct Hn; lia). auto.
Qed.

(** ** The state between system calls *)

Record log_ok (s : lstate) (H : holds_t) : Prop := {
  lk_bio : bio_ok me (ls_bio s) H;
  lk_lg : lg_ok (ls_log s);
  lk_dirty : dirty (ls_bio s) = list_to_set (logged (ls_log s));
  lk_disk : disk_ok (disk (ls_bio s));
  lk_head : hd_n (head_of (disk (ls_bio s))) = 0;
  lk_held : ∀ n, n ∈ held H → ¬ start ≤ n < start + size }.

Lemma clean_blk b H n : bio_ok me b H → n ∉ dirty b → n ∉ held H → blk b n = dblock (disk b) 1 n.
Proof.
  intros [_ Hc _ _] Hnd Hnh. destruct (blk_reads_as b n) as [(i & c & Hb & Hcb & Hv)|[_ ?]]; [|done].
  rewrite <- Hv. apply caches_true in Hcb as (Hd & <- & Hf0). pose proof (co_len _ _ _ _ Hc) as Hl.
  apply lookup_lt_Some in Hb as Hi. destruct (decide (i = NBUF)) as [->|].
  { destruct (co_head _ _ _ _ Hc c Hb). lia. }
  destruct (co_slot _ _ _ _ Hc i c ltac:(lia) Hb) as [_ Hs].
  destruct (H !! i) as [[n' m]|] eqn:E.
  - exfalso. apply Hnh, elem_of_held. destruct Hs as (_ & <- & _). eauto.
  - destruct Hs as (_ & _ & [[? ?]|(_ & [Hf|[_ ?]])]); [done| |done].
    exfalso. apply Hnd, elem_of_dirty. eauto.
Qed.

Lemma logged_size g : lg_ok g → (base.size (list_to_set (C := gset Z) (logged g)) ≤ 29)%nat.
Proof.
  intros Hg. rewrite size_list_to_set by apply Hg. pose proof (logged_length _ _ Hgeo _ Hg). pose proof (lo_n _ _ _ Hg).
  destruct Hgeo. unfold LOGSIZE, MAXOPBLOCKS in *. lia.
Qed.

Lemma logged_none g : logged (set_n 0 g) = [].
Proof. done. Qed.

Lemma lg_ok_set_n g : lg_ok g → lg_ok (set_n 0 g).
Proof.
  intros [? ? ? ? ? ? ?]. destruct Hgeo. constructor; rewrite ?logged_none; try done; [cbn; lia|constructor..].
Qed.

(** ** Commit *)

(** what installing leaves on disk *)
Lemma installed d f l k :
  NoDup l → dblock (apply_writes (inst_writes f 0 l) d) 1 k =
    from_option (λ i, f (start + Z.of_nat i + 1)) (dblock d 1 k) (log_pos l k).
Proof. intros Hl. rewrite dblock_apply by apply inst_dev1. by rewrite over_inst. Qed.

(** every disk on the way stands for [f0] or for [f] *)
Definition atomic (d : disk_t) (ws : list (Z * Z * list Z)) (f0 f : Z → list Z) : Prop :=
  ∀ p, p `prefix_of` ws → stands_for (apply_writes p d) f0 ∨ stands_for (apply_writes p d) f.

(** the writes of a commit, in their four groups *)
Lemma commit_atomic_writes d g f f2 h1 h2 :
  disk_ok d → hd_n (head_of d) = 0 → lg_ok g →
  (∀ k, block_ok (f k)) → (∀ k, block_ok (f2 k)) → block_ok h1 → block_ok h2 →
  hd_n h1 = lh_n (lg_lh g) → hd_list h1 = logged g → hd_n h2 = 0 →
  (∀ n, home n → n ∉ logged g → dblock d 1 n = f n) →
  (∀ (i : nat) n, logged g !! i = Some n → f2 (start + Z.of_nat i + 1) = f n) →
  let ws := (log_writes f 0 (logged g) ++ [(1, start, h1)]) ++ inst_writes f2 0 (logged g) ++ [(1, start, h2)] in
  atomic d ws (dblock d 1) f ∧ stands_for (apply_writes ws d) f ∧
  (∀ n, home n → dblock (apply_writes ws d) 1 n = f n) ∧ hd_n (head_of (apply_writes ws d)) = 0.
Proof.
  intros Hd H0 Hg Hf Hf2 Hh1 Hh2 Hn1 Hl1 Hn2 Hcl Hf2l ws.
  pose proof (logged_length _ _ Hgeo _ Hg) as Hlen. pose proof (lo_n _ _ _ Hg) as Hn.
  set (d2 := apply_writes (log_writes f 0 (logged g) ++ [(1, start, h1)]) d).
  assert (Hs2 : stands_for d2 f) by (unfold d2; rewrite apply_writes_app; apply (stands_commit d g); auto).
  assert (Hhd2 : hd_list (head_of d2) = logged g).
  { unfold d2, head_of. rewrite apply_writes_app, dblock_write. by rewrite decide_True. }
  set (d3 := apply_writes (inst_writes f2 0 (logged g)) d2).
  assert (Hs3 : stands_for d3 f).
  { eapply stands_inst_writes; [done|by rewrite Hhd2|done|done]. }
  assert (Hd3 : ∀ n, home n → dblock d3 1 n = f n).
  { intros n Hhome. unfold d3. rewrite installed by apply Hg.
    destruct (log_pos (logged g) n) as [i|] eqn:E; cbn [from_option]; [by apply Hf2l, log_pos_Some|].
    rewrite <- (proj2 Hs2) by done. unfold logical. by rewrite Hhd2, E. }
  assert (Hs4 : stands_for (apply_writes [(1, start, h2)] d3) f) by (apply stands_erase; try done; apply Hs3).
  assert (Hws : apply_writes ws d = apply_writes [(1, start, h2)] d3).
  { unfold ws, d3, d2. by rewrite !apply_writes_app. }
  assert (Hhd4 : hd_n (head_of (apply_writes ws d)) = 0).
  { rewrite Hws. unfold head_of. rewrite dblock_write. by rewrite decide_True. }
  split_and!; [|by rewrite Hws| |done].
  - intros p Hp. unfold ws in Hp. apply prefix_app_cases in Hp as [Hp|(q & -> & Hq)].
    + apply prefix_app_cases in Hp as [Hp|(q & -> & Hq)].
      * left. eapply (stands_log_writes _ f 0 (logged g)); try done; lia.
      * destruct q as [|w q]; [left|right].
        -- rewrite app_nil_r. eapply (stands_log_writes _ f 0 (logged g)); try done; lia.
        -- pose proof (prefix_cons_inv_1 _ _ _ _ Hq) as ->. apply prefix_cons_inv_2, prefix_nil_inv in Hq as ->. done.
    + right. rewrite apply_writes_app. fold d2. apply prefix_app_cases in Hq as [Hq|(q' & -> & Hq)].
      * eapply stands_inst_writes; [done|by rewrite Hhd2|done|done].
      * rewrite apply_writes_app. destruct q' as [|w q']; [done|].
        pose proof (prefix_cons_inv_1 _ _ _ _ Hq) as ->. by apply prefix_cons_inv_2, prefix_nil_inv in Hq as ->.
  - intros n Hhome. rewrite <- (proj2 Hs4) by done. rewrite <- Hws. by rewrite logical_empty.
Qed.

Lemma write_log_runs s :
  lg_ok (ls_log s) → bio_ok me (ls_bio s) ∅ → dirty (ls_bio s) = list_to_set (logged (ls_log s)) →
  runs (write_log me) s (λ _ s', ls_log s' = ls_log s ∧ bio_ok me (ls_bio s') ∅ ∧
    wrote (log_writes (blk (ls_bio s)) 0 (logged (ls_log s))) (ls_bio s) (ls_bio s') ∧
    (∀ k, blk (ls_bio s') k = over (log_writes (blk (ls_bio s)) 0 (logged (ls_log s))) (blk (ls_bio s)) k) ∧
    dirty (ls_bio s') = dirty (ls_bio s)).
Proof.
  intros Hg Hok Hdi. unfold write_log. rprim. rewrite <- (logged_length _ _ Hgeo _ Hg), Nat2Z.id.
  apply (write_loop_runs me start size Hgeo); try done.
  - rewrite Hdi, (idemp_L (∪)). by apply logged_size.
  - rewrite Hdi. intros n. rewrite elem_of_list_to_set. apply Forall_forall, Hg.
Qed.

Lemma install_trans_runs s :
  lg_ok (ls_log s) → bio_ok me (ls_bio s) ∅ → dirty (ls_bio s) ⊆ list_to_set (logged (ls_log s)) →
  runs (install_trans me) s (λ _ s', ls_log s' = ls_log s ∧ bio_ok me (ls_bio s') ∅ ∧
    wrote (inst_writes (blk (ls_bio s)) 0 (logged (ls_log s))) (ls_bio s) (ls_bio s') ∧
    (∀ k, blk (ls_bio s') k = over (inst_writes (blk (ls_bio s)) 0 (logged (ls_log s))) (blk (ls_bio s)) k) ∧
    dirty (ls_bio s') = ∅).
Proof.
  intros Hg Hok Hdi. unfold install_trans. rprim. rewrite <- (logged_length _ _ Hgeo _ Hg), Nat2Z.id.
  eapply runs_mono; [eapply (install_loop_runs me start size Hgeo); try done|].
  - etrans; [apply subseteq_size|by apply (logged_size (ls_log s))]. set_solver.
  - intros _ s' (? & ? & ? & ? & ->). split_and!; try done. set_solver.
Qed.

(** The state after [commit]: the same contents, nothing left in memory or in the
    log, and on the way only disks that stand for the old or the new contents. *)
Record committed (s s' : lstate) : Prop := {
  cm_ok : log_ok s' ∅;
  cm_log : ls_log s' = set_n 0 (ls_log s);
  cm_blk : ∀ n, home n → blk (ls_bio s') n = blk (ls_bio s) n;
  cm_disk : ∀ n, home n → dblock (disk (ls_bio s')) 1 n = blk (ls_bio s) n;
  cm_atomic : ∃ ws, wrote ws (ls_bio s) (ls_bio s') ∧
    atomic (disk (ls_bio s)) ws (dblock (disk (ls_bio s)) 1) (blk (ls_bio s)) }.

Lemma commit_nothing s : log_ok s ∅ → lh_n (lg_lh (ls_log s)) = 0 → committed s s.
Proof.
  intros Hs H0. pose proof Hs as [Hok Hg Hdi Hd Hh _].
  assert (Hl : logged (ls_log s) = []) by (unfold logged; by rewrite H0).
  assert (Hcl : ∀ n, blk (ls_bio s) n = dblock (disk (ls_bio s)) 1 n).
  { intros n. eapply clean_blk; [done|..]; [rewrite Hdi, Hl; apply not_elem_of_empty|rewrite held_empty; apply not_elem_of_empty]. }
  constructor; try done.
  - unfold set_n, set_lh. rewrite <- H0. by destruct (ls_log s) as [? ? ? ? ? []].
  - exists []. split; [by apply wrote_nil|]. intros p ->%prefix_nil_inv. left. split; [done|].
    intros n _. by apply logical_empty.
Qed.

Lemma commit_runs s : log_ok s ∅ → runs (commit me) s (λ _ s', committed s s').
Proof.
  intros Hs. pose proof Hs as [Hok Hg Hdi Hd Hh _]. unfold commit. rprim.
  destruct (Z.ltb_spec 0 (lh_n (lg_lh (ls_log s)))) as [Hpos|Hz].
  2: { apply runs_ret, commit_nothing; [done|]. pose proof (lo_n _ _ _ Hg). lia. }
  set (g := ls_log s) in *. set (f := blk (ls_bio s)).
  pose proof (logged_size g Hg) as Hsz.
  assert (Hdh : ∀ n, n ∈ list_to_set (C := gset Z) (logged g) → home n).
  { intros n. rewrite elem_of_list_to_set. apply Forall_forall, Hg. }
  eapply runs_bind_mono; [by apply write_log_runs|]. intros _ s1 (E1 & Hok1 & Hw1 & Hb1 & Hdi1).
  fold g f in E1, Hw1, Hb1.
  eapply runs_bind_mono; [apply (write_head_runs me start size Hgeo); rewrite ?E1, ?Hdi1, ?Hdi; done|].
  intros _ s2 (E2 & Hok2 & Hw2 & Hb2 & Hdi2). rewrite E1 in E2, Hw2, Hb2.
  eapply runs_bind_mono; [apply install_trans_runs; rewrite ?E2, ?Hdi2, ?Hdi1, ?Hdi; done|].
  intros _ s3 (E3 & Hok3 & Hw3 & Hb3 & Hdi3). rewrite E2 in E3, Hw3, Hb3. rprim.
  eapply runs_mono; [apply (write_head_runs me start size Hgeo); cbn [ls_log ls_bio]; rewrite ?E3, ?Hdi3; try done|].
  { by apply lg_ok_set_n. } { rewrite size_empty. lia. }
  cbn [ls_log ls_bio]. rewrite E3. intros _ s4 (E4 & Hok4 & Hw4 & Hb4 & Hdi4).
  set (h1 := head_data _ (blk (ls_bio s1) start)) in *. set (h2 := head_data _ (blk (ls_bio s3) start)) in *.
  pose proof (logged_length _ _ Hgeo _ Hg) as Hlen. pose proof (lo_n _ _ _ Hg) as Hn.
  assert (Hlog : ∀ (i : nat) n, logged g !! i = Some n → blk (ls_bio s2) (start + Z.of_nat i + 1) = f n).
  { intros i n Hi. apply lookup_lt_Some in Hi as Hlt. rewrite Hb2, decide_False by lia. rewrite Hb1.
    rewrite <- (over_log f (logged g) 0 f i n Hi). f_equal. }
  assert (Hbo : ∀ b k, bio_ok me b ∅ → block_ok (blk b k)) by (intros b k; apply blk_ok).
  pose proof (lg_ok_set_n g Hg) as Hg0.
  pose proof (head_data_ok start size Hgeo g _ Hg (Hbo _ start Hok1)) as Hh1.
  pose proof (head_data_ok start size Hgeo _ _ Hg0 (Hbo _ start Hok3)) as Hh2.
  pose proof (hd_n_head start size Hgeo g _ Hg (Hbo _ start Hok1)) as Hn1.
  pose proof (hd_list_head start size Hgeo g _ Hg (Hbo _ start Hok1)) as Hl1.
  pose proof (hd_n_head start size Hgeo _ _ Hg0 (Hbo _ start Hok3)) as Hn2.
  destruct (commit_atomic_writes (disk (ls_bio s)) g f (blk (ls_bio s2)) h1 h2 Hd Hh Hg
    (λ k, Hbo _ k Hok) (λ k, Hbo _ k Hok2) Hh1 Hh2 Hn1 Hl1 Hn2) as (Hat & Hst & Hdk & Hhd); [|done|].
  { intros n Hhome Hnl. symmetry. eapply clean_blk; [done|..]; [rewrite Hdi, elem_of_list_to_set; done|rewrite held_empty; apply not_elem_of_empty]. }
  set (ws := _ ++ _) in *.
  assert (Hw : wrote ws (ls_bio s) (ls_bio s4)).
  { eapply wrote_trans; eapply wrote_trans; eassumption. }
  rewrite <- (proj1 Hw) in Hst, Hdk, Hhd.
  assert (Hcl : ∀ n, blk (ls_bio s4) n = dblock (disk (ls_bio s4)) 1 n).
  { intros n. eapply clean_blk; [done|..]; [rewrite Hdi4, Hdi3; apply not_elem_of_empty|rewrite held_empty; apply not_elem_of_empty]. }
  constructor; [|done| |done|eauto].
  - constructor; try done; rewrite ?E4; [by apply lg_ok_set_n|by rewrite Hdi4, Hdi3|apply Hst].
  - intros n Hhome. rewrite Hcl. auto.
Qed.
End logcrash.
