(* ===== verification/LogRecover.v ===== *)
(** * Recovery, crashes, and the operations of a transaction

    [initlog] installs what the disk stands for.  Any number of crashes during
    recovery does no harm, so after a crash in [commit] the file system comes up
    with the whole transaction or with none of it.  The second part has what
    [begin_op], [log_write] and [end_op] do. *)

From S2P Require Import Prelude Block Bio BioRing BioSpec Log LogSpec LogCrash.

Section logrecover.
  Context (me start size : Z) (Hgeo : geometry start size).

Abbreviation home := (home start size).
Abbreviation lg_ok := (lg_ok start size).
Abbreviation log_ok := (log_ok me start size).
Abbreviation disk_ok := (disk_ok start size).
Abbreviation logical := (logical start).
Abbreviation stands_for := (stands_for start size).

(** ** Reading the header *)

Lemma read_blocks_runs n data : ∀ i s,
  0 ≤ i → i + Z.of_nat n ≤ LOGSIZE → length (lh_block (lg_lh (ls_log s))) = Z.to_nat LOGSIZE →
  runs (read_blocks n data i) s (λ _ s', ls_bio s' = ls_bio s ∧
    ∃ bs, ls_log s' = set_blocks bs (ls_log s) ∧ length bs = Z.to_nat LOGSIZE ∧
      take (Z.to_nat (i + Z.of_nat n)) bs =
      take (Z.to_nat i) (lh_block (lg_lh (ls_log s))) ++ (hd_at data <$> seqZ i (Z.of_nat n))).
Proof.
  induction n as [|n IH]; intros i s Hi Hn Hl; cbn [read_blocks].
  { apply runs_ret. split; [done|]. exists (lh_block (lg_lh (ls_log s))). split_and!; try done.
    - by destruct (ls_log s) as [? ? ? ? ? []].
    - cbn. by rewrite Z.add_0_r, app_nil_r. }
  unfold put_block. rewrite (proj2 (Z.leb_le _ _)), (proj2 (Z.ltb_lt _ _)) by lia. cbn [andb]. rprim.
  eapply runs_mono; [apply IH; cbn [ls_log set_blocks set_lh lg_lh lh_block]; [lia..|by rewrite length_insert]|].
  cbn [ls_log ls_bio]. intros _ s' (E & bs & Elog & Hbl & Ht). split; [done|]. exists bs. split_and!; try done.
  replace (i + 1 + Z.of_nat n) with (i + Z.of_nat (S n)) in Ht by lia. rewrite Ht.
  cbn [set_blocks set_lh lg_lh lh_block]. rewrite Z2Nat.inj_add, Nat.add_1_r by lia.
  rewrite (take_S_r _ _ (hd_at data i)) by (apply list_lookup_insert_eq; lia).
  rewrite take_insert_ge by lia. rewrite (seqZ_cons i) by lia. rewrite <- (assoc_L (++)). cbn.
  repeat f_equal; lia.
Qed.

Lemma read_head_runs s :
  bio_ok me (ls_bio s) ∅ → dirty (ls_bio s) = ∅ → disk_ok (disk (ls_bio s)) →
  lg_start (ls_log s) = start → lg_size (ls_log s) = size → lg_dev (ls_log s) = 1 →
  length (lh_block (lg_lh (ls_log s))) = Z.to_nat LOGSIZE →
  runs (read_head me) s (λ _ s', bio_ok me (ls_bio s') ∅ ∧ dirty (ls_bio s') = ∅ ∧
    same_view (ls_bio s) (ls_bio s') ∧ lg_ok (ls_log s') ∧
    logged (ls_log s') = hd_list (head_of start (disk (ls_bio s))) ∧
    lg_committing (ls_log s') = lg_committing (ls_log s) ∧ lg_outstanding (ls_log s') = lg_outstanding (ls_log s)).
Proof.
  intros Hok Hdi Hd Es Ez Ed Hl. destruct Hgeo as [G1 G2 G3].
  unfold read_head. rprim. rewrite Ed, Es.
  rewrite <- (Z.add_0_r start) at 1. rewrite (geo_u32 start size Hgeo), Z.add_0_r by lia.
  eapply runs_in_bio_bind.
  { apply bread_one; [done|lia|]. rewrite Hdi, (left_id_L ∅ (∪)), size_singleton. unfold NBUF. lia. }
  intros b b1 (Hok1 & [Hv1 Hd1 Hw1] & Hdi1). rprim. cbn [ls_bio].
  rewrite (held_bdata _ _ _ _ _ _ Hok1 (lookup_singleton_eq _ _)), Hv1.
  rewrite (clean_blk _ _ _ _ Hok); [|rewrite Hdi; apply not_elem_of_empty|rewrite held_empty; apply not_elem_of_empty].
  fold (head_of start (disk (ls_bio s))). set (h := head_of start (disk (ls_bio s))).
  fold (hd_n h). rprim. pose proof (do_n _ _ _ Hd) as Hn. fold h in Hn.
  eapply runs_bind_mono; [apply read_blocks_runs; cbn [ls_log set_n set_lh lg_lh lh_block]; [lia..|done]|].
  cbn [ls_log ls_bio]. intros _ s2 (Eb & bs & Elog & Hbl & Ht).
  apply runs_in_bio. rewrite Eb. eapply runs_mono; [eapply brelse_runs; [done|apply lookup_singleton_eq]|].
  intros _ b3 (Hok3 & [Hv3 Hd3 Hw3] & Hdi3). rewrite delete_singleton_eq in Hok3. cbn [ls_bio ls_log].
  assert (Hlg : logged (ls_log s2) = hd_list h).
  { rewrite Elog. unfold logged. cbn [lg_lh lh_n lh_block set_blocks set_lh set_n].
    rewrite Z2Nat.id in Ht by lia. rewrite Z.add_0_l in Ht. rewrite Ht. cbn. unfold hd_list. done. }
  split_and!; try done; [congruence|..].
  - constructor; [intros n; by rewrite Hv3, Hv1|congruence..].
  - constructor; rewrite ?Hlg; [by rewrite Elog..|by apply Hd|by apply Hd].
  - by rewrite Elog.
  - by rewrite Elog.
Qed.

(** ** Recovery *)

Record recovered (d : disk_t) (s s' : lstate) : Prop := {
  rc_ok : log_ok s' ∅;
  rc_n : lh_n (lg_lh (ls_log s')) = 0;
  rc_outstanding : lg_outstanding (ls_log s') = lg_outstanding (ls_log s);
  rc_committing : lg_committing (ls_log s') = lg_committing (ls_log s);
  rc_blk : ∀ n, home n → blk (ls_bio s') n = logical d n;
  rc_sb : blk (ls_bio s') 1 = blk (ls_bio s) 1;
  rc_writes : ∃ ws, wrote ws (ls_bio s) (ls_bio s') ∧
    ∀ p, p `prefix_of` ws → stands_for (apply_writes p d) (logical d) }.

Lemma recover_runs s :
  bio_ok me (ls_bio s) ∅ → dirty (ls_bio s) = ∅ → disk_ok (disk (ls_bio s)) →
  lg_start (ls_log s) = start → lg_size (ls_log s) = size → lg_dev (ls_log s) = 1 →
  length (lh_block (lg_lh (ls_log s))) = Z.to_nat LOGSIZE →
  runs (recover_from_log me) s (λ _ s', recovered (disk (ls_bio s)) s s').
Proof.
  intros Hok Hdi Hd Es Ez Ed Hl. set (d := disk (ls_bio s)) in *.
  unfold recover_from_log. eapply runs_bind_mono; [by apply read_head_runs|].
  intros _ s1 (Hok1 & Hdi1 & [Hv1 Hd1 Hw1] & Hg1 & Hl1 & Hc1 & Ho1).
  eapply runs_bind_mono; [apply (install_trans_runs me start size Hgeo); [done..|rewrite Hdi1; apply empty_subseteq]|].
  intros _ s2 (E2 & Hok2 & Hw2 & Hb2 & Hdi2). rprim.
  pose proof (lg_ok_set_n _ _ Hgeo _ Hg1) as Hg0.
  eapply runs_mono; [apply (write_head_runs me start size Hgeo); cbn [ls_log ls_bio]; rewrite ?E2, ?Hdi2; try done|].
  { rewrite size_empty. lia. }
  cbn [ls_log ls_bio]. rewrite E2. intros _ s3 (E3 & Hok3 & Hw3 & Hb3 & Hdi3).
  set (h2 := head_data _ _) in *. set (ws := inst_writes _ _ _ _) in *.
  assert (Hbo : ∀ b k, bio_ok me b ∅ → block_ok (blk b k)) by (intros b k; apply blk_ok).
  pose proof (head_data_ok start size Hgeo _ _ Hg0 (Hbo _ start Hok2)) as Hh2.
  pose proof (hd_n_head start size Hgeo _ _ Hg0 (Hbo _ start Hok2)) as Hn2.
  assert (Hst : stands_for d (logical d)) by done.
  assert (Hcl1 : ∀ n, blk (ls_bio s1) n = dblock d 1 n).
  { intros n. unfold d. rewrite <- Hd1. eapply clean_blk; [done|..].
    - rewrite Hdi1. apply not_elem_of_empty.
    - rewrite held_empty. apply not_elem_of_empty. }
  assert (Hsti : ∀ p, p `prefix_of` ws → stands_for (apply_writes p d) (logical d)).
  { intros p Hp. eapply (stands_inst_writes _ _ Hgeo d); [done| |intros k; by apply (Hbo _ k Hok1)|done].
    rewrite Hl1. done. }
  assert (Hin : ∀ n, home n → dblock (apply_writes ws d) 1 n = logical d n).
  { intros n Hn. unfold ws. rewrite installed by apply Hg1. rewrite Hl1. unfold LogCrash.logical.
    fold d. destruct (log_pos _ n); cbn [from_option]; [apply Hcl1|done]. }
  assert (Hst3 : stands_for (apply_writes [(1, start, h2)] (apply_writes ws d)) (logical d)).
  { apply (stands_erase _ _ Hgeo); try done. by apply (Hsti ws). }
  assert (Hw : wrote (ws ++ [(1, start, h2)]) (ls_bio s) (ls_bio s3)).
  { eapply (wrote_trans [] _ _ (ls_bio s1)); [by apply wrote_nil|]. by eapply wrote_trans. }
  assert (Hd3 : disk (ls_bio s3) = apply_writes [(1, start, h2)] (apply_writes ws d)).
  { rewrite (proj1 Hw). by rewrite apply_writes_app. }
  assert (Hhd : hd_n (head_of start (disk (ls_bio s3))) = 0).
  { rewrite Hd3. unfold head_of. rewrite dblock_write. by rewrite decide_True. }
  assert (Hcl3 : ∀ n, blk (ls_bio s3) n = dblock (disk (ls_bio s3)) 1 n).
  { intros n. eapply clean_blk; [done|..].
    - rewrite Hdi3, Hdi2. apply not_elem_of_empty.
    - rewrite held_empty. apply not_elem_of_empty. }
  constructor.
  - constructor; try done; rewrite ?E3; try done.
    + by rewrite Hdi3, Hdi2.
    + rewrite Hd3. apply Hst3.
  - by rewrite E3.
  - rewrite E3. cbn. done.
  - rewrite E3. cbn. done.
  - intros n Hn. rewrite Hcl3. rewrite <- (proj2 Hst3) by done. rewrite <- Hd3. by rewrite logical_empty.
  - destruct Hgeo as [? ? ?]. rewrite Hb3, decide_False by lia. rewrite Hb2. rewrite over_notin; [by rewrite Hv1|].
    unfold ws. rewrite inst_targets. intros Hin1. pose proof (lo_home _ _ _ Hg1) as Hfa.
    rewrite Forall_forall in Hfa. by apply Hfa, home_not_sb in Hin1.
  - exists (ws ++ [(1, start, h2)]). split; [done|]. intros p Hp.
    apply prefix_app_cases in Hp as [Hp|(q & -> & Hq)]; [auto|]. rewrite apply_writes_app.
    destruct q as [|w q]; [by apply Hsti|]. pose proof (prefix_cons_inv_1 _ _ _ _ Hq) as ->.
    by apply prefix_cons_inv_2, prefix_nil_inv in Hq as ->.
Qed.

Lemma readsb_runs b H :
  bio_ok me b H → 1 ∉ held H → (base.size (dirty b ∪ held H ∪ {[ 1%Z ]}) ≤ NBUF)%nat →
  runs (readsb me 1) b (λ sb b', sb = decode_sb (blk b 1) ∧ bio_ok me b' H ∧ same_view b b' ∧ dirty b' = dirty b).
Proof.
  intros Hok Hh Hsz. unfold readsb. eapply runs_bind_mono; [by apply bread_runs|].
  intros i b1 (Hi & Hok1 & [Hv1 Hd1 Hw1] & Hdi1 & Hbd). rprim. rewrite Hbd.
  eapply runs_bind_mono; [eapply brelse_runs; [done|apply lookup_insert_eq]|].
  intros _ b2 (Hok2 & [Hv2 Hd2 Hw2] & Hdi2). apply runs_ret. rewrite delete_insert_id in Hok2 by done.
  split_and!; [done|done| |congruence]. constructor; [intros n; by rewrite Hv2, Hv1|congruence..].
Qed.

(** the machine comes up with the disk [d] *)
Definition boot_state (d : disk_t) : lstate := {| ls_bio := boot_bio true d; ls_log := boot_log |}.
Definition reboot : M lstate unit := _ ← in_bio binit; initlog me 1.

Lemma reboot_runs d : disk_ok d → runs reboot (boot_state d) (λ _ s', recovered d (boot_state d) s').
Proof.
  intros Hd. unfold reboot. destruct Hgeo as [G1 G2 G3].
  eapply runs_in_bio_bind; [apply (binit_runs me), Hd|].
  intros _ b (Hok & Ed & Ew & Hdi & Hb). cbn [ls_bio ls_log boot_state]. unfold initlog.
  change (BSIZE <=? LOGHEADER_SIZE) with false. cbv iota.
  eapply runs_in_bio_bind; [apply (readsb_runs b ∅); [done|..]|].
  { rewrite held_empty. apply not_elem_of_empty. }
  { cbn [ls_bio]. rewrite Hdi, held_empty, !(left_id_L ∅ (∪)), size_singleton. unfold NBUF. lia. }
  cbn [ls_bio ls_log]. intros sb b1 (-> & Hok1 & [Hv1 Hd1 Hw1] & Hdi1). rprim. cbn [ls_bio ls_log boot_log].
  destruct (do_sb _ _ _ Hd) as [Hs1 Hs2]. rewrite Hb, Hs1, Hs2. rewrite Ed in Hd1.
  unfold FSSIZE, LOGSIZE, MAXOPBLOCKS in *. rewrite !i32_id by lia.
  eapply runs_mono; [apply recover_runs; cbn [ls_bio ls_log lg_lh lh_block]; try done; [by rewrite Hdi1|by rewrite Hd1]|].
  cbn [ls_bio]. rewrite Hd1. intros _ s' [? ? ? ? ? Hsb (ws & [Hwd Hww] & Hp)]. cbn [ls_bio ls_log] in *.
  constructor; try done.
  - rewrite Hsb, Hv1, Hb. done.
  - exists ws. split; [|done]. split; [by rewrite Hwd, Hd1|by rewrite Hww, Hw1, Ew].
Qed.

(** ** Crashes *)

(** [m] run on [s] crashes and leaves the disk [d] *)
Definition crash_in (m : M lstate unit) (s : lstate) (d : disk_t) : Prop :=
  ∃ s' ws p, m s = Ret () s' ∧ writes (ls_bio s') = writes (ls_bio s) ++ ws ∧
    p `prefix_of` ws ∧ d = apply_writes p (disk (ls_bio s)).

Lemma runs_crash m s Q d :
  runs m s (λ _ s', ∃ ws, wrote ws (ls_bio s) (ls_bio s') ∧ Q ws) → crash_in m s d →
  ∃ ws p, Q ws ∧ p `prefix_of` ws ∧ d = apply_writes p (disk (ls_bio s)).
Proof.
  intros ([] & s1 & E1 & ws1 & [_ Hw1] & HQ) (s' & ws & p & E2 & Hw2 & Hp & ->).
  rewrite E1 in E2. simplify_eq. rewrite Hw1 in Hw2. apply app_inv_head in Hw2 as <-. eauto.
Qed.

(** interrupted recoveries *)
Definition crashed_reboots : relation disk_t := rtc (λ d d', crash_in reboot (boot_state d) d').

Lemma reboots_stand_for d d' f : stands_for d f → crashed_reboots d d' → stands_for d' f.
Proof.
  intros Hd Hr. induction Hr as [d|d d1 d2 Hc _ IH]; [done|]. apply IH. destruct Hd as [Hd Hf].
  assert (∃ ws p, (∀ p, p `prefix_of` ws → stands_for (apply_writes p d) (logical d)) ∧
            p `prefix_of` ws ∧ d1 = apply_writes p d) as (ws & p & HQ & Hp & ->).
  { eapply (runs_crash _ _ _ _ (runs_mono _ _ _ _ (reboot_runs d Hd) (λ _ s' H, rc_writes _ _ _ H)) Hc). }
  destruct (HQ p Hp) as [H1 H2]. split; [done|]. intros n Hn. by rewrite H2, Hf.
Qed.

(** ** The end of a transaction *)

(** the log with its flags changed, in memory only *)
Lemma log_ok_flags s H b k :
  log_ok s H → log_ok {| ls_bio := ls_bio s; ls_log := set_committing b (set_outstanding k (ls_log s)) |} H.
Proof. intros [? [? ? ? ? ? ? ?] ? ? ? ?]. by constructor. Qed.

Lemma end_op_runs s :
  log_ok s ∅ → lg_committing (ls_log s) = 0 → lg_outstanding (ls_log s) = 1 →
  runs (end_op me) s (λ _ s', log_ok s' ∅ ∧ logged (ls_log s') = [] ∧
    lg_committing (ls_log s') = 0 ∧ lg_outstanding (ls_log s') = 0 ∧
    (∀ n, home n → blk (ls_bio s') n = blk (ls_bio s) n) ∧
    (∀ n, home n → dblock (disk (ls_bio s')) 1 n = blk (ls_bio s) n) ∧
    ∃ ws, wrote ws (ls_bio s) (ls_bio s') ∧
      atomic start size (disk (ls_bio s)) ws (dblock (disk (ls_bio s)) 1) (blk (ls_bio s))).
Proof.
  intros Hs Hc Ho. unfold end_op, upd_log. rprim. rprim. cbn [ls_log ls_bio set_outstanding lg_committing lg_outstanding].
  rewrite Hc, Ho. change (negb (0 =? 0)) with false. change (1 - 1) with 0. change (0 =? 0) with true. cbv iota. rprim.
  cbn [ls_log ls_bio].
  eapply runs_bind_mono; [by apply (commit_runs _ _ _ Hgeo), (log_ok_flags _ _ 1 0)|].
  cbn [ls_log ls_bio]. intros _ s1 [Hs1 E1 Hb1 Hd1 Hat1]. cbn [ls_log ls_bio] in *.
  apply runs_modify. cbn [ls_log ls_bio]. rewrite E1. split_and!; try done.
  destruct Hs1 as [? [? ? ? ? ? ? ?] ? ? ? ?]. rewrite E1 in *. by constructor.
Qed.

(** C1: If the [end_op] that closes a transaction crashes at any point, and recovery
    then crashes any number of times, the recovery that completes shows for all home
    blocks the contents from before the transaction, or for all of them the contents
    the transaction wrote. *)
Theorem transaction_crash_safe s d d' :
  log_ok s ∅ → lg_committing (ls_log s) = 0 → lg_outstanding (ls_log s) = 1 →
  crash_in (end_op me) s d → crashed_reboots d d' →
  runs reboot (boot_state d') (λ _ s', log_ok s' ∅ ∧
    ((∀ n, home n → blk (ls_bio s') n = dblock (disk (ls_bio s)) 1 n) ∨
     (∀ n, home n → blk (ls_bio s') n = blk (ls_bio s) n))).
Proof.
  intros Hs Hcm Ho Hc Hr. eapply runs_crash in Hc as (ws & p & Hat & Hp & ->).
  2: { eapply runs_mono; [by apply end_op_runs|]. intros _ s' (_ & _ & _ & _ & _ & _ & H). exact H. }
  assert (Hfin : ∀ f, stands_for d' f →
    runs reboot (boot_state d') (λ _ s', log_ok s' ∅ ∧ ∀ n, home n → blk (ls_bio s') n = f n)).
  { intros f [Hd' Hf]. eapply runs_mono; [by apply reboot_runs|]. intros _ s' [? _ _ _ Hb _ _]. split; [done|].
    intros n Hn. by rewrite Hb, Hf. }
  destruct (Hat p Hp) as [H|H]; apply (reboots_stand_for _ d') in H; try done.
  - eapply runs_mono; [by apply Hfin|]. intros _ s' [? ?]. auto.
  - eapply runs_mono; [by apply Hfin|]. intros _ s' [? ?]. auto.
Qed.

(** Without a crash [end_op] returns; the home blocks on disk are those the
    transaction wrote, readers see no change, and the log is empty. *)
Theorem transaction_installs s :
  log_ok s ∅ → lg_committing (ls_log s) = 0 → lg_outstanding (ls_log s) = 1 →
  runs (end_op me) s (λ _ s', log_ok s' ∅ ∧ logged (ls_log s') = [] ∧
    ∀ n, home n → dblock (disk (ls_bio s')) 1 n = blk (ls_bio s) n ∧ blk (ls_bio s') n = blk (ls_bio s) n).
Proof.
  intros Hs Hc Ho. eapply runs_mono; [by apply end_op_runs|]. intros _ s' (? & ? & _ & _ & ? & ? & _). auto.
Qed.

(** ** Transactions *)

Lemma find_block_runs l b : ∀ i s,
  0 ≤ i → drop (Z.to_nat i) (logged (ls_log s)) = l → Forall home l →
  runs (find_block (length l) i b) s (λ j s', s' = s ∧
    j = i + Z.of_nat (from_option id (length l) (log_pos l b))).
Proof.
  induction l as [|x l IH]; intros i s Hi Hl Hh; cbn [find_block length].
  { apply runs_ret. split; [done|]. cbn. lia. }
  destruct (drop_lookup_total _ _ _ _ Hl) as [Hx Hl']. apply Forall_cons in Hh as [Hxh Hh].
  apply runs_bind. eapply runs_get_block; [done| |].
  { unfold logged in Hx. by apply lookup_take_Some in Hx as [Hx _]. }
  rewrite (home_u32 start size), log_pos_cons by done. destruct (Z.eqb_spec x b) as [->|Hne].
  - apply runs_ret. rewrite decide_True by done. split; [done|]. cbn. lia.
  - rewrite decide_False by done. eapply runs_mono; [apply (IH (i + 1)); [lia| |done]|].
    { rewrite Z2Nat.inj_add by lia. by rewrite Nat.add_1_r. }
    intros j s' [-> ->]. split; [done|]. destruct (log_pos l b); cbn; lia.
Qed.

(** the header after [log_write] of block [n] *)
Lemma lg_ok_log_write g n i :
  lg_ok g → home n → lh_n (lg_lh g) < size - 1 →
  i = Z.of_nat (from_option id (length (logged g)) (log_pos (logged g) n)) →
  let g1 := set_blocks (<[Z.to_nat i := i32 n]> (lh_block (lg_lh g))) g in
  let g2 := if i =? lh_n (lg_lh g) then set_n (lh_n (lg_lh g) + 1) g1 else g1 in
  lg_ok g2 ∧ list_to_set (C := gset Z) (logged g2) = {[ n ]} ∪ list_to_set (logged g) ∧ 0 ≤ i < LOGSIZE.
Proof.
  intros Hg Hn Hlt Hi g1 g2. pose proof (logged_length _ _ Hgeo _ Hg) as Hlen. pose proof (lo_n _ _ _ Hg) as Hnn.
  pose proof (lo_len _ _ _ Hg) as Hbl. destruct Hgeo as [G1 G2 G3].
  assert (Hi32 : i32 n = n) by (apply i32_id; destruct Hn; unfold FSSIZE in *; lia).
  destruct (log_pos (logged g) n) as [k|] eqn:E; cbn in Hi.
  - apply log_pos_Some in E. apply lookup_lt_Some in E as Hk.
    assert (Hg1 : logged g1 = logged g).
    { unfold logged, g1. cbn. rewrite Hi32, Hi, Nat2Z.id. rewrite list_insert_id; [done|].
      unfold logged in E. by apply lookup_take_Some in E as [? _]. }
    assert (g2 = g1) as -> by (unfold g2; by rewrite (proj2 (Z.eqb_neq _ _)) by lia).
    split_and!; [| |lia|lia].
    + destruct Hg. constructor; rewrite ?Hg1; try done. cbn. by rewrite length_insert.
    + rewrite Hg1. assert (n ∈ logged g) by (apply list_elem_of_lookup; eauto). set_solver.
  - apply log_pos_None in E.
    assert (Hin : Z.to_nat i = length (logged g)) by lia.
    assert (g2 = set_n (lh_n (lg_lh g) + 1) g1) as ->.
    { unfold g2. by rewrite (proj2 (Z.eqb_eq _ _)) by lia. }
    assert (Hg2 : logged (set_n (lh_n (lg_lh g) + 1) g1) = logged g ++ [n]).
    { unfold logged, g1. cbn. rewrite Hi32, Z2Nat.inj_add, Nat.add_1_r by lia.
      replace (Z.to_nat i) with (Z.to_nat (lh_n (lg_lh g))) by lia.
      rewrite (take_S_r _ _ n) by (apply list_lookup_insert_eq; lia). by rewrite take_insert_ge by lia. }
    split_and!; [| |lia|lia].
    + destruct Hg. constructor; rewrite ?Hg2; try done; [cbn; lia|cbn; by rewrite length_insert| |].
      * apply NoDup_app. split_and!; [done| |apply NoDup_singleton]. set_solver.
      * apply Forall_app. split; [done|]. by apply Forall_singleton.
    + rewrite Hg2, list_to_set_app_L. cbn. set_solver.
Qed.

Lemma log_write_runs s H i n m :
  log_ok s H → H !! i = Some (n, m) → home n → lh_n (lg_lh (ls_log s)) < size - 1 →
  1 ≤ lg_outstanding (ls_log s) →
  runs (log_write i) s (λ _ s', log_ok s' (<[i := (n, false)]> H) ∧
    same_view (ls_bio s) (ls_bio s') ∧ dirty (ls_bio s') = {[ n ]} ∪ dirty (ls_bio s) ∧
    lg_outstanding (ls_log s') = lg_outstanding (ls_log s) ∧ lg_committing (ls_log s') = lg_committing (ls_log s)).
Proof.
  intros Hs HH Hn Hlt Ho. pose proof Hs as [Hok Hg Hdi Hd Hhd Hheld]. pose proof (lo_n _ _ _ Hg) as Hnn.
  pose proof (geo_size _ _ Hgeo) as Gz. destruct (held_slot _ _ _ _ _ _ Hok HH) as (b & Hb & _ & _ & _ & Hbn & _).
  unfold log_write. rprim. rewrite (lo_size _ _ _ Hg).
  rewrite (proj2 (Z.leb_gt _ _)), (proj2 (Z.leb_gt _ _)), (proj2 (Z.ltb_ge _ _)) by lia. cbn [orb].
  eapply runs_in_bio_bind; [apply runs_bind; eapply runs_buf_at; [done|]; by apply (runs_ret _ _ (λ v b', v = b_blockno b ∧ b' = ls_bio s))|].
  intros v b' [-> ->]. rewrite Hbn.
  replace {| ls_bio := ls_bio s; ls_log := ls_log s |} with s by (by destruct s).
  rewrite <- (logged_length _ _ Hgeo _ Hg), Nat2Z.id.
  eapply runs_bind_mono; [apply find_block_runs; [done..|apply Hg]|]. cbn beta. intros j s' [-> Hj].
  destruct (lg_ok_log_write _ _ j Hg Hn Hlt Hj) as (Hg2 & Hl2 & Hj1).
  rewrite (logged_length _ _ Hgeo _ Hg). unfold put_block.
  rewrite (proj2 (Z.leb_le _ _)), (proj2 (Z.ltb_lt _ _)) by lia. cbn [andb]. rprim.
  set (g2 := if j =? _ then _ else _) in Hg2, Hl2.
  apply (runs_bind_mono _ _ _ (λ _ s1, s1 = {| ls_bio := ls_bio s; ls_log := g2 |})).
  { unfold g2. destruct (j =? _); [by apply runs_modify|by apply runs_ret]. }
  intros _ s1 ->. apply runs_in_bio. eapply runs_mono; [by eapply mark_runs|]. cbn [ls_bio ls_log].
  intros _ b2 (Hok2 & Hv2 & Hdi2).
  assert (Hkeep : lg_committing g2 = lg_committing (ls_log s) ∧ lg_outstanding g2 = lg_outstanding (ls_log s)).
  { unfold g2. by destruct (j =? _). }
  split_and!; [|done..|apply Hkeep|apply Hkeep]. constructor; cbn [ls_bio ls_log]; rewrite ?(sv_disk _ _ Hv2); try done.
  - by rewrite Hdi2, Hl2, Hdi.
  - intros k (i' & m' & Hi')%elem_of_held. destruct (decide (i' = i)) as [->|].
    + rewrite lookup_insert_eq in Hi'. simplify_eq. apply Hn.
    + rewrite lookup_insert_ne in Hi' by done. apply Hheld, elem_of_held. eauto.
Qed.

(** [begin_op] when no commit is going on and the log has room for one more
    system call *)
Lemma begin_op_runs s H :
  log_ok s H → lg_committing (ls_log s) = 0 →
  lh_n (lg_lh (ls_log s)) + (lg_outstanding (ls_log s) + 1) * MAXOPBLOCKS ≤ LOGSIZE →
  runs begin_op s (λ _ s', log_ok s' H ∧ ls_bio s' = ls_bio s ∧ logged (ls_log s') = logged (ls_log s) ∧
    lg_committing (ls_log s') = 0 ∧ lg_outstanding (ls_log s') = lg_outstanding (ls_log s) + 1).
Proof.
  intros Hs Hc Hroom. unfold begin_op. rprim. rewrite Hc. change (negb (0 =? 0)) with false. cbv iota.
  rewrite (proj2 (Z.ltb_ge _ _)) by lia. apply runs_modify. split_and!; try done.
  destruct Hs as [? [? ? ? ? ? ? ?] ? ? ? ?]. by constructor.
Qed.
End logrecover.
