(* ===== verification/Fs.v ===== *)
(** * fs.c: blocks, inodes, directories, paths

    The functions of fs.c over the operations that the buffer cache and the log
    give them ([BufOps]); [me] is the pid of the caller, [cwd] its current
    directory and [devsw] the device table.  A pointer to an inode is its index in
    the inode cache; a null pointer is [None].  A C string is the list of its bytes
    before the terminator; a name buffer of [DIRSIZ] bytes is the list of at most
    [DIRSIZ] bytes that are compared or copied from it.  [readi] returns the bytes
    it moves to its caller, [writei] takes them. *)

From S2P Require Import Prelude Block.

(** ** What the lower layers provide *)

Class BufOps (S : Type) := {
  bread : Z → Z → M S nat;
  brelse : nat → M S unit;
  log_write : nat → M S unit;
  bdata : nat → S → list Z;
  set_bdata : nat → list Z → M S unit }.

(** ** fs.h, stat.h, file.h, param.h *)

Definition ROOTDEV : Z := 1.
Definition ROOTINO : Z := 1.
Definition NDIRECT : Z := 12.
Definition NINDIRECT : Z := BSIZE / 4.
Definition MAXFILE : Z := NDIRECT + NINDIRECT.
Definition DINODE_SIZE : Z := 64.
Definition IPB : Z := BSIZE / DINODE_SIZE.
Definition BPB : Z := BSIZE * 8.
Definition DIRSIZ : Z := 14.
Definition DIRENT_SIZE : Z := 2 + DIRSIZ.
Definition NINODE : nat := 50.
Definition NDEV : Z := 10.
Definition T_DIR : Z := 1.
Definition T_FILE : Z := 2.
Definition T_DEV : Z := 3.

Definition IBLOCK (i : Z) (sb : superblock) : Z := u32 (i / IPB + sb_inodestart sb).
Definition BBLOCK (b : Z) (sb : superblock) : Z := u32 (b / BPB + sb_bmapstart sb).

Definition i16 (z : Z) : Z := (z + 2 ^ 15) mod 2 ^ 16 - 2 ^ 15.

Record inode := {
  i_dev : Z; i_inum : Z; i_ref : Z;
  i_locked : bool; i_pid : Z;  (* the sleep-lock *)
  i_valid : bool;
  i_type : Z; i_major : Z; i_minor : Z; i_nlink : Z; i_size : Z; i_addrs : list Z }.

Definition zero_inode : inode :=
  {| i_dev := 0; i_inum := 0; i_ref := 0; i_locked := false; i_pid := 0; i_valid := false;
     i_type := 0; i_major := 0; i_minor := 0; i_nlink := 0; i_size := 0;
     i_addrs := replicate (Z.to_nat (NDIRECT + 1)) 0 |}.

Definition set_iref v i := {| i_dev := i_dev i; i_inum := i_inum i; i_ref := v;
  i_locked := i_locked i; i_pid := i_pid i; i_valid := i_valid i; i_type := i_type i;
  i_major := i_major i; i_minor := i_minor i; i_nlink := i_nlink i; i_size := i_size i; i_addrs := i_addrs i |}.
Definition set_ilock l p i := {| i_dev := i_dev i; i_inum := i_inum i; i_ref := i_ref i;
  i_locked := l; i_pid := p; i_valid := i_valid i; i_type := i_type i;
  i_major := i_major i; i_minor := i_minor i; i_nlink := i_nlink i; i_size := i_size i; i_addrs := i_addrs i |}.
Definition set_ivalid v i := {| i_dev := i_dev i; i_inum := i_inum i; i_ref := i_ref i;
  i_locked := i_locked i; i_pid := i_pid i; i_valid := v; i_type := i_type i;
  i_major := i_major i; i_minor := i_minor i; i_nlink := i_nlink i; i_size := i_size i; i_addrs := i_addrs i |}.
Definition set_itype v i := {| i_dev := i_dev i; i_inum := i_inum i; i_ref := i_ref i;
  i_locked := i_locked i; i_pid := i_pid i; i_valid := i_valid i; i_type := v;
  i_major := i_major i; i_minor := i_minor i; i_nlink := i_nlink i; i_size := i_size i; i_addrs := i_addrs i |}.
Definition set_inode_ids dev inum i := {| i_dev := dev; i_inum := inum; i_ref := i_ref i;
  i_locked := i_locked i; i_pid := i_pid i; i_valid := i_valid i; i_type := i_type i;
  i_major := i_major i; i_minor := i_minor i; i_nlink := i_nlink i; i_size := i_size i; i_addrs := i_addrs i |}.
Definition set_major_minor ma mi i := {| i_dev := i_dev i; i_inum := i_inum i; i_ref := i_ref i;
  i_locked := i_locked i; i_pid := i_pid i; i_valid := i_valid i; i_type := i_type i;
  i_major := ma; i_minor := mi; i_nlink := i_nlink i; i_size := i_size i; i_addrs := i_addrs i |}.
Definition set_nlink v i := {| i_dev := i_dev i; i_inum := i_inum i; i_ref := i_ref i;
  i_locked := i_locked i; i_pid := i_pid i; i_valid := i_valid i; i_type := i_type i;
  i_major := i_major i; i_minor := i_minor i; i_nlink := v; i_size := i_size i; i_addrs := i_addrs i |}.
Definition set_isize v i := {| i_dev := i_dev i; i_inum := i_inum i; i_ref := i_ref i;
  i_locked := i_locked i; i_pid := i_pid i; i_valid := i_valid i; i_type := i_type i;
  i_major := i_major i; i_minor := i_minor i; i_nlink := i_nlink i; i_size := v; i_addrs := i_addrs i |}.
Definition set_addrs v i := {| i_dev := i_dev i; i_inum := i_inum i; i_ref := i_ref i;
  i_locked := i_locked i; i_pid := i_pid i; i_valid := i_valid i; i_type := i_type i;
  i_major := i_major i; i_minor := i_minor i; i_nlink := i_nlink i; i_size := i_size i; i_addrs := v |}.

Record stat := { st_type : Z; st_dev : Z; st_ino : Z; st_nlink : Z; st_size : Z }.

(** ** The state *)

Record fs (S : Type) := { f_sub : S; f_inodes : list inode; f_sb : superblock }.
Arguments f_sub {S} _.
Arguments f_inodes {S} _.
Arguments f_sb {S} _.

Definition with_inodes {S} (f : list inode → list inode) (s : fs S) : fs S :=
  {| f_sub := f_sub s; f_inodes := f (f_inodes s); f_sb := f_sb s |}.

(** ** The structure on disk *)

(** the offset of the inode in its block *)
Definition dip_off (inum : Z) : nat := Z.to_nat (inum mod IPB * DINODE_SIZE).

(** the 64 bytes of a [struct dinode] made from an inode *)
Definition encode_dinode (i : inode) : list Z :=
  le16 (i_type i) ++ le16 (i_major i) ++ le16 (i_minor i) ++ le16 (i_nlink i) ++
  le32 (i_size i) ++ (i_addrs i ≫= le32).

(** the fields of the [struct dinode] at [off], copied into [i] *)
Definition decode_dinode (off : nat) (data : list Z) (i : inode) : inode :=
  {| i_dev := i_dev i; i_inum := i_inum i; i_ref := i_ref i; i_locked := i_locked i;
     i_pid := i_pid i; i_valid := i_valid i;
     i_type := i16 (get16 off data); i_major := i16 (get16 (off + 2) data);
     i_minor := i16 (get16 (off + 4) data); i_nlink := i16 (get16 (off + 6) data);
     i_size := get32 (off + 8) data;
     i_addrs := (λ k : nat, get32 (off + 12 + 4 * k) data) <$> seq 0 (Z.to_nat (NDIRECT + 1)) |}.

Section fs.
  Context {S : Type} {BO : BufOps S} (me : Z) (cwd : nat).

Abbreviation F := (M (fs S)).

(** [devsw[major].read] and [.write], where there are such functions *)
  Context (devsw_read : Z → option (nat → Z → F (Z * list Z))) (devsw_write : Z → option (nat → list Z → F Z)).

Definition sub {A} (m : M S A) : F A :=
  zoom f_sub (λ b s, {| f_sub := b; f_inodes := f_inodes s; f_sb := f_sb s |}) m.

Definition inode_at (ip : nat) : F inode :=
  l ← gets f_inodes;
  match l !! ip with Some i => mret i | None => panic "fault: not an inode" end.
Definition iupd (ip : nat) (f : inode → inode) : F unit := modify (with_inodes (alter f ip)).

(** ** Blocks *)

Definition readsb (dev : Z) : F superblock :=
  bp ← sub (bread dev 1);
  data ← gets (λ s, bdata bp (f_sub s));
  _ ← sub (brelse bp);
  mret (decode_sb data).

Definition bzero (dev bno : Z) : F unit :=
  bp ← sub (bread dev bno);
  _ ← sub (set_bdata bp zero_block);
  _ ← sub (log_write bp);
  sub (brelse bp).

Definition bit_set (data : list Z) (bi : Z) : bool :=
  negb (Z.land (data !!! Z.to_nat (bi / 8)) (Z.shiftl 1 (bi mod 8)) =? 0).

(** the inner loop of [balloc]: the first clear bit from [bi] on *)
Fixpoint free_bit (fuel : nat) (size : Z) (data : list Z) (b bi : Z) : option Z :=
  match fuel with
  | O => None
  | Datatypes.S fuel =>
      if (bi <? BPB) && (b + bi <? size) then
        if bit_set data bi then free_bit fuel size data b (bi + 1) else Some bi
      else None
  end.

Definition mark_bit (data : list Z) (bi : Z) : list Z :=
  alter (λ v, Z.lor v (Z.shiftl 1 (bi mod 8))) (Z.to_nat (bi / 8)) data.
Definition clear_bit (data : list Z) (bi : Z) : list Z :=
  alter (λ v, Z.land v (Z.lnot (Z.shiftl 1 (bi mod 8)))) (Z.to_nat (bi / 8)) data.

Fixpoint balloc_loop (fuel : nat) (dev b : Z) : F Z :=
  match fuel with
  | O => λ _, NoFuel
  | Datatypes.S fuel =>
      sb ← gets f_sb;
      if b <? sb_size sb then
        bp ← sub (bread dev (BBLOCK b sb));
        data ← gets (λ s, bdata bp (f_sub s));
        match free_bit (Z.to_nat BPB) (sb_size sb) data b 0 with
        | Some bi =>
            _ ← sub (set_bdata bp (mark_bit data bi));
            _ ← sub (log_write bp);
            _ ← sub (brelse bp);
            _ ← bzero dev (b + bi);
            mret (b + bi)
        | None =>
            _ ← sub (brelse bp);
            balloc_loop fuel dev (b + BPB)
        end
      else panic "balloc: out of blocks"
  end.

Definition balloc (dev : Z) : F Z :=
  sb ← gets f_sb;
  balloc_loop (Z.to_nat (sb_size sb / BPB + 2)) dev 0.

Definition bfree (dev b : Z) : F unit :=
  sb ← gets f_sb;
  bp ← sub (bread dev (BBLOCK b sb));
  let bi := b mod BPB in
  data ← gets (λ s, bdata bp (f_sub s));
  if negb (bit_set data bi) then panic "freeing free block"
  else
    _ ← sub (set_bdata bp (clear_bit data bi));
    _ ← sub (log_write bp);
    sub (brelse bp).

(** ** Inodes *)

Definition iinit (dev : Z) : F unit :=
  _ ← modify (with_inodes (fmap (set_ilock false 0)));
  sb ← readsb dev;
  modify (λ s, {| f_sub := f_sub s; f_inodes := f_inodes s; f_sb := sb |}).

(** the loop of [iget]: the cached inode, else the first empty slot *)
Fixpoint iget_scan (l : list inode) (ip : nat) (dev inum : Z) (empty : option nat) : nat + option nat :=
  match l with
  | [] => inr empty
  | i :: l =>
      if (0 <? i_ref i) && (i_dev i =? dev) && (i_inum i =? inum) then inl ip
      else iget_scan l (ip + 1) dev inum
             (match empty with
              | None => if i_ref i =? 0 then Some ip else None
              | Some e => Some e
              end)
  end.

Definition iget (dev inum : Z) : F nat :=
  l ← gets f_inodes;
  match iget_scan l 0 dev inum None with
  | inl ip => _ ← iupd ip (λ i, set_iref (i32 (i_ref i + 1)) i); mret ip
  | inr (Some ip) =>
      _ ← iupd ip (λ i, set_ivalid false (set_iref 1 (set_inode_ids dev inum i)));
      mret ip
  | inr None => panic "iget: no inodes"
  end.

Fixpoint ialloc_loop (fuel : nat) (dev type inum : Z) : F nat :=
  match fuel with
  | O => λ _, NoFuel
  | Datatypes.S fuel =>
      sb ← gets f_sb;
      if inum <? sb_ninodes sb then
        bp ← sub (bread dev (IBLOCK inum sb));
        data ← gets (λ s, bdata bp (f_sub s));
        if i16 (get16 (dip_off inum) data) =? 0 then
          _ ← sub (set_bdata bp
                (put16 (dip_off inum) type (put_bytes (dip_off inum) (replicate (Z.to_nat DINODE_SIZE) 0) data)));
          _ ← sub (log_write bp);
          _ ← sub (brelse bp);
          iget dev inum
        else
          _ ← sub (brelse bp);
          ialloc_loop fuel dev type (inum + 1)
      else panic "ialloc: no inodes"
  end.

Definition ialloc (dev type : Z) : F nat :=
  sb ← gets f_sb;
  ialloc_loop (Z.to_nat (sb_ninodes sb)) dev type 1.

Definition iupdate (ip : nat) : F unit :=
  i ← inode_at ip;
  sb ← gets f_sb;
  bp ← sub (bread (i_dev i) (IBLOCK (i_inum i) sb));
  data ← gets (λ s, bdata bp (f_sub s));
  _ ← sub (set_bdata bp (put_bytes (dip_off (i_inum i)) (encode_dinode i) data));
  _ ← sub (log_write bp);
  sub (brelse bp).

Definition idup (ip : nat) : F nat :=
  _ ← iupd ip (λ i, set_iref (i32 (i_ref i + 1)) i);
  mret ip.

(** a sleep-lock of an inode; the channel is the number of the inode *)
Definition acquiresleep (ip : nat) : F unit :=
  i ← inode_at ip;
  if i_locked i then (λ s, Asleep (Z.of_nat ip) s) : F unit
  else iupd ip (set_ilock true me).
Definition releasesleep (ip : nat) : F unit := iupd ip (set_ilock false 0).
Definition holdingsleep (ip : nat) : F bool :=
  i ← inode_at ip;
  mret (i_locked i && (i_pid i =? me)).

Definition ilock (ip : nat) : F unit :=
  i ← inode_at ip;
  if i_ref i <? 1 then panic "ilock"
  else
    _ ← acquiresleep ip;
    i ← inode_at ip;
    if i_valid i then mret ()
    else
      sb ← gets f_sb;
      bp ← sub (bread (i_dev i) (IBLOCK (i_inum i) sb));
      data ← gets (λ s, bdata bp (f_sub s));
      _ ← iupd ip (decode_dinode (dip_off (i_inum i)) data);
      _ ← sub (brelse bp);
      _ ← iupd ip (set_ivalid true);
      i ← inode_at ip;
      if i_type i =? 0 then panic "ilock: no type" else mret ().

Definition iunlock (ip : nat) : F unit :=
  h ← holdingsleep ip;
  i ← inode_at ip;
  if negb (h : bool) || (i_ref i <? 1) then panic "iunlock"
  else releasesleep ip.

(** ** The contents of an inode *)

Definition addr_at (i : inode) (k : Z) : Z := i_addrs i !!! Z.to_nat k.
Definition set_addr (k a : Z) (i : inode) : inode := set_addrs (<[Z.to_nat k := a]> (i_addrs i)) i.

(** [if((addr = ip->addrs[k]) == 0) ip->addrs[k] = addr = balloc(ip->dev)] *)
Definition addr_or_alloc (ip : nat) (k : Z) : F Z :=
  i ← inode_at ip;
  if addr_at i k =? 0 then
    a ← balloc (i_dev i);
    _ ← iupd ip (set_addr k a);
    mret a
  else mret (addr_at i k).

Definition bmap (ip : nat) (bn : Z) : F Z :=
  if bn <? NDIRECT then addr_or_alloc ip bn
  else
    let bn := bn - NDIRECT in
    if bn <? NINDIRECT then
      addr ← addr_or_alloc ip NDIRECT;
      i ← inode_at ip;
      bp ← sub (bread (i_dev i) addr);
      data ← gets (λ s, bdata bp (f_sub s));
      let off := Z.to_nat (4 * bn) in
      addr ← (if get32 off data =? 0 then
                a ← balloc (i_dev i);
                data ← gets (λ s, bdata bp (f_sub s));
                _ ← sub (set_bdata bp (put32 off a data));
                _ ← sub (log_write bp);
                mret a
              else mret (get32 off data));
      _ ← sub (brelse bp);
      mret addr
    else panic "bmap: out of range".

(** the direct blocks from number [k] on *)
Fixpoint itrunc_direct (n : nat) (ip : nat) (k : Z) : F unit :=
  match n with
  | O => mret ()
  | Datatypes.S n =>
      i ← inode_at ip;
      _ ← (if addr_at i k =? 0 then mret ()
           else _ ← bfree (i_dev i) (addr_at i k); iupd ip (set_addr k 0));
      itrunc_direct n ip (k + 1)
  end.

(** the blocks that the indirect block in [bp] names *)
Fixpoint itrunc_indirect (n : nat) (dev : Z) (bp : nat) (j : Z) : F unit :=
  match n with
  | O => mret ()
  | Datatypes.S n =>
      data ← gets (λ s, bdata bp (f_sub s));
      let a := get32 (Z.to_nat (4 * j)) data in
      _ ← (if a =? 0 then mret () else bfree dev a);
      itrunc_indirect n dev bp (j + 1)
  end.

Definition itrunc (ip : nat) : F unit :=
  _ ← itrunc_direct (Z.to_nat NDIRECT) ip 0;
  i ← inode_at ip;
  _ ← (if addr_at i NDIRECT =? 0 then mret ()
       else
         bp ← sub (bread (i_dev i) (addr_at i NDIRECT));
         _ ← itrunc_indirect (Z.to_nat NINDIRECT) (i_dev i) bp 0;
         _ ← sub (brelse bp);
         _ ← bfree (i_dev i) (addr_at i NDIRECT);
         iupd ip (set_addr NDIRECT 0));
  _ ← iupd ip (set_isize 0);
  iupdate ip.

Definition iput (ip : nat) : F unit :=
  _ ← acquiresleep ip;
  i ← inode_at ip;
  _ ← (if i_valid i && (i_nlink i =? 0) && (i_ref i =? 1) then
         _ ← itrunc ip;
         _ ← iupd ip (set_itype 0);
         _ ← iupdate ip;
         iupd ip (set_ivalid false)
       else mret ());
  _ ← releasesleep ip;
  iupd ip (λ i, set_iref (i32 (i_ref i - 1)) i).

Definition iunlockput (ip : nat) : F unit :=
  _ ← iunlock ip;
  iput ip.

Definition stati (ip : nat) : F stat :=
  i ← inode_at ip;
  mret {| st_type := i_type i; st_dev := i32 (i_dev i); st_ino := i_inum i;
          st_nlink := i_nlink i; st_size := i_size i |}.

Fixpoint readi_loop (fuel : nat) (ip : nat) (tot n off : Z) : F (list Z) :=
  match fuel with
  | O => λ _, NoFuel
  | Datatypes.S fuel =>
      if tot <? n then
        i ← inode_at ip;
        bno ← bmap ip (off / BSIZE);
        bp ← sub (bread (i_dev i) bno);
        let m := Z.min (n - tot) (BSIZE - off mod BSIZE) in
        data ← gets (λ s, bdata bp (f_sub s));
        _ ← sub (brelse bp);
        rest ← readi_loop fuel ip (tot + m) n (off + m);
        mret (get_bytes (Z.to_nat (off mod BSIZE)) (Z.to_nat m) data ++ rest)
      else mret []
  end.

(** the number of rounds of the loops of [readi] and [writei] is at most this *)
Definition io_fuel (n : Z) : nat := Z.to_nat (n / BSIZE + 3).

Definition readi (ip : nat) (off n : Z) : F (Z * list Z) :=
  i ← inode_at ip;
  if i_type i =? T_DEV then
    match (if (0 <=? i_major i) && (i_major i <? NDEV) then devsw_read (i_major i) else None) with
    | Some f => f ip n
    | None => mret (-1, [])
    end
  else if (i_size i <? off) || (u32 (off + n) <? off) then mret (-1, [])
  else
    let n := if i_size i <? u32 (off + n) then i_size i - off else n in
    data ← readi_loop (io_fuel n) ip 0 n off;
    mret (i32 n, data).

Fixpoint writei_loop (fuel : nat) (ip : nat) (src : list Z) (tot n off : Z) : F Z :=
  match fuel with
  | O => λ _, NoFuel
  | Datatypes.S fuel =>
      if tot <? n then
        i ← inode_at ip;
        bno ← bmap ip (off / BSIZE);
        bp ← sub (bread (i_dev i) bno);
        let m := Z.min (n - tot) (BSIZE - off mod BSIZE) in
        data ← gets (λ s, bdata bp (f_sub s));
        _ ← sub (set_bdata bp (put_bytes (Z.to_nat (off mod BSIZE)) (take (Z.to_nat m) src) data));
        _ ← sub (log_write bp);
        _ ← sub (brelse bp);
        writei_loop fuel ip (drop (Z.to_nat m) src) (tot + m) n (off + m)
      else mret off
  end.

Definition writei (ip : nat) (src : list Z) (off : Z) : F Z :=
  let n := Z.of_nat (length src) in
  i ← inode_at ip;
  if i_type i =? T_DEV then
    match (if (0 <=? i_major i) && (i_major i <? NDEV) then devsw_write (i_major i) else None) with
    | Some f => f ip src
    | None => mret (-1)
    end
  else if (i_size i <? off) || (u32 (off + n) <? off) then mret (-1)
  else if MAXFILE * BSIZE <? u32 (off + n) then mret (-1)
  else
    off ← writei_loop (io_fuel n) ip src 0 n off;
    i ← inode_at ip;
    _ ← (if (0 <? n) && (i_size i <? off) then
           _ ← iupd ip (set_isize off);
           iupdate ip
         else mret ());
    mret (i32 n).

(** ** Directories *)

(** [strncmp], on strings whose bytes past the end of the list are 0 *)
Fixpoint strncmp (n : nat) (p q : list Z) : Z :=
  match n with
  | O => 0
  | Datatypes.S n =>
      let a := default 0 (head p) in
      let b := default 0 (head q) in
      if negb (a =? 0) && (a =? b) then strncmp n (tail p) (tail q) else a - b
  end.

Definition namecmp (s t : list Z) : Z := strncmp (Z.to_nat DIRSIZ) s t.

(** [strncpy] into a field of [n] bytes *)
Fixpoint strncpy (n : nat) (t : list Z) : list Z :=
  match n with
  | O => []
  | Datatypes.S n => default 0 (head t) :: strncpy n (tail t)
  end.

Fixpoint dirlookup_loop (fuel : nat) (dp : nat) (name : list Z) (off : Z) : F (option (nat * Z)) :=
  match fuel with
  | O => λ _, NoFuel
  | Datatypes.S fuel =>
      d ← inode_at dp;
      if off <? i_size d then
        '(r, de) ← readi dp off DIRENT_SIZE;
        if negb (r =? DIRENT_SIZE) then panic "dirlookup read"
        else
          let inum := get16 0 de in
          if inum =? 0 then dirlookup_loop fuel dp name (u32 (off + DIRENT_SIZE))
          else if namecmp name (drop 2 de) =? 0 then
            ip ← iget (i_dev d) inum;
            mret (Some (ip, off))
          else dirlookup_loop fuel dp name (u32 (off + DIRENT_SIZE))
      else mret None
  end.

(** the entries of a directory of [size] bytes *)
Definition dir_fuel (size : Z) : nat := Z.to_nat (size / DIRENT_SIZE + 2).

Definition dirlookup (dp : nat) (name : list Z) : F (option (nat * Z)) :=
  d ← inode_at dp;
  if negb (i_type d =? T_DIR) then panic "dirlookup not DIR"
  else dirlookup_loop (dir_fuel (i_size d)) dp name 0.

Fixpoint empty_slot (fuel : nat) (dp : nat) (off : Z) : F Z :=
  match fuel with
  | O => λ _, NoFuel
  | Datatypes.S fuel =>
      d ← inode_at dp;
      if off <? i_size d then
        '(r, de) ← readi dp off DIRENT_SIZE;
        if negb (r =? DIRENT_SIZE) then panic "dirlink read"
        else if get16 0 de =? 0 then mret off
        else empty_slot fuel dp (off + DIRENT_SIZE)
      else mret off
  end.

Definition dirlink (dp : nat) (name : list Z) (inum : Z) : F Z :=
  r ← dirlookup dp name;
  match (r : option (nat * Z)) with
  | Some (ip, _) => _ ← iput ip; mret (-1)
  | None =>
      d ← inode_at dp;
      off ← empty_slot (dir_fuel (i_size d)) dp 0;
      r ← writei dp (le16 inum ++ strncpy (Z.to_nat DIRSIZ) name) off;
      if negb (r =? DIRENT_SIZE) then panic "dirlink" else mret 0
  end.

(** ** Paths *)

Definition slash : Z := 47.

Fixpoint skip_slashes (path : list Z) : list Z :=
  match path with
  | c :: r => if c =? slash then skip_slashes r else path
  | [] => []
  end.

(** the bytes before the next slash, and the rest *)
Fixpoint split_elem (path : list Z) : list Z * list Z :=
  match path with
  | c :: r => if c =? slash then ([], path) else let '(e, r) := split_elem r in (c :: e, r)
  | [] => ([], [])
  end.

Definition skipelem (path : list Z) : option (list Z * list Z) :=
  match skip_slashes path with
  | [] => None
  | path =>
      let '(elem, rest) := split_elem path in
      Some (take (Z.to_nat DIRSIZ) elem, skip_slashes rest)
  end.

Fixpoint namex_loop (fuel : nat) (path : list Z) (nameiparent : bool) (name : list Z) (ip : nat) :
    F (option (nat * list Z)) :=
  match fuel with
  | O => λ _, NoFuel
  | Datatypes.S fuel =>
      match skipelem path with
      | None => if nameiparent then _ ← iput ip; mret None else mret (Some (ip, name))
      | Some (name, path) =>
          _ ← ilock ip;
          i ← inode_at ip;
          if negb (i_type i =? T_DIR) then _ ← iunlockput ip; mret None
          else if nameiparent && (match path with [] => true | _ => false end) then
            _ ← iunlock ip; mret (Some (ip, name))
          else
            r ← dirlookup ip name;
            match (r : option (nat * Z)) with
            | None => _ ← iunlockput ip; mret None
            | Some (next, _) =>
                _ ← iunlockput ip;
                namex_loop fuel path nameiparent name next
            end
      end
  end.

Definition namex (path : list Z) (nameiparent : bool) : F (option (nat * list Z)) :=
  ip ← (match path with
        | c :: _ => if c =? slash then iget ROOTDEV ROOTINO else idup cwd
        | [] => idup cwd
        end);
  namex_loop (Datatypes.S (length path)) path nameiparent [] ip.

Definition namei (path : list Z) : F (option nat) :=
  r ← namex path false;
  mret (fst <$> r).

Definition nameiparent (path : list Z) : F (option (nat * list Z)) := namex path true.

End fs.
