(* ===== verification/FsLaws.v ===== *)
(** * What the file system relies on

    [BufLaws] is the contract of the buffer cache and the log as fs.c uses them
    inside a transaction: the contents of blocks as readers see them ([bblk]), the
    buffers the caller holds ([bok s H]) with the block each one has and whether it
    was changed since it was last given to [log_write], and the blocks of the
    transaction ([blogged]).  The buffer cache has [NBUF] = 30 buffers and a logged
    block keeps its buffer, so [bread] needs room among them; the log takes at most
    29 blocks. *)

From S2P Require Import Prelude Block Bio BioSpec Fs.

Section laws.
  Context {S : Type} {BO : BufOps S}.

Class BufLaws := {
  bok : S → holds_t → Prop;
  bblk : S → Z → list Z;
  blogged : S → gset Z;
  (** blocks of the file system: not block 1 or the log *)
  bhome : Z → Prop;
  law_blk_ok s H n : bok s H → block_ok (bblk s n);
  law_bread s H n :
    bok s H → bhome n → n ∉ held H → (size (blogged s ∪ held H ∪ {[ n ]}) ≤ NBUF)%nat →
    runs (bread 1 n) s (λ i s', H !! i = None ∧ bok s' (<[i := (n, false)]> H) ∧
      (∀ k, bblk s' k = bblk s k) ∧ blogged s' = blogged s);
  law_bdata s H i n m : bok s H → H !! i = Some (n, m) → bdata i s = bblk s n;
  law_set_bdata s H i n m v :
    bok s H → H !! i = Some (n, m) → block_ok v →
    runs (set_bdata i v) s (λ _ s', bok s' (<[i := (n, true)]> H) ∧
      (∀ k, bblk s' k = if decide (k = n) then v else bblk s k) ∧ blogged s' = blogged s);
  law_log_write s H i n m :
    bok s H → H !! i = Some (n, m) → bhome n → (size (blogged s) < 29)%nat →
    runs (log_write i) s (λ _ s', bok s' (<[i := (n, false)]> H) ∧
      (∀ k, bblk s' k = bblk s k) ∧ blogged s' = {[ n ]} ∪ blogged s);
  law_brelse s H i n :
    bok s H → H !! i = Some (n, false) →
    runs (brelse i) s (λ _ s', bok s' (delete i H) ∧
      (∀ k, bblk s' k = bblk s k) ∧ blogged s' = blogged s) }.
End laws.
Arguments BufLaws S {BO}.
