(* ===== verification/LogLaws.v ===== *)
(** * The log and the buffer cache keep the contract of the file system

    [BufOps] and [BufLaws] of the file system, for bio.c under log.c; and a
    transaction from boot, which the theorems of [LogRecover] apply to. *)

From S2P Require Import Prelude Block Bio BioSpec Log LogSpec LogCrash LogRecover Fs FsLaws.

Definition log_ops (me : Z) : BufOps lstate := {|
  Fs.bread dev n := in_bio (Bio.bread me dev n);
  Fs.brelse i := in_bio (Bio.brelse me i);
  Fs.log_write := Log.log_write;
  Fs.bdata i s := Bio.bdata i (ls_bio s);
  Fs.set_bdata i v := in_bio (Bio.set_bdata i v) |}.

Section loglaws.
  Context (me start size : Z) (Hgeo : geometry start size) (Hsize : size = LOGSIZE).
  (** the system calls that are in their transaction *)
  Context (calls : Z) (Hcalls : 1 ≤ calls).

Abbreviation log_ok := (log_ok me start size).
Abbreviation home := (home start size).

(** a state in the middle of a transaction *)
Definition in_op (s : lstate) (H : holds_t) : Prop :=
  log_ok s H ∧ lg_outstanding (ls_log s) = calls ∧ lg_committing (ls_log s) = 0.

Lemma log_ok_bio s b H :
  log_ok s H → ∀ H', bio_ok me b H' → disk b = disk (ls_bio s) → dirty b = dirty (ls_bio s) →
  (∀ n, n ∈ held H' → ¬ start ≤ n < start + size) → log_ok {| ls_bio := b; ls_log := ls_log s |} H'.
Proof. intros [? ? ? ? ? ?] H' Hb Ed Edi Hh. constructor; cbn [ls_bio ls_log]; by rewrite ?Ed, ?Edi. Qed.

Lemma held_delete H i k : k ∈ held (delete i H) → k ∈ held H.
Proof. rewrite !elem_of_held. intros (j & m & Hj). apply lookup_delete_Some in Hj as [_ Hj]. eauto. Qed.

Lemma held_insert_in H i n m k : k ∈ held (<[i := (n, m)]> H) → k = n ∨ k ∈ held H.
Proof.
  rewrite !elem_of_held. intros (j & m' & Hj). apply lookup_insert_Some in Hj as [[-> ?]|[_ Hj]]; [left; congruence|eauto].
Qed.

Lemma logged_count s H : log_ok s H →
  Z.of_nat (base.size (list_to_set (C := gset Z) (logged (ls_log s)))) = lh_n (lg_lh (ls_log s)).
Proof.
  intros Hs. rewrite size_list_to_set by apply Hs. rewrite (logged_length _ _ Hgeo _ (lk_lg _ _ _ _ _ Hs)). done.
Qed.

Program Definition log_laws : BufLaws lstate (BO := log_ops me) := {|
  bok := in_op;
  bblk s := blk (ls_bio s);
  blogged s := list_to_set (logged (ls_log s));
  bhome := home |}.
Next Obligation. intros s H n [Hs _]. eapply blk_ok, Hs. Qed.
Next Obligation.
  intros s H n [Hs Ho] Hn Hh Hsz. apply runs_in_bio. rewrite <- (lk_dirty _ _ _ _ _ Hs) in Hsz.
  eapply runs_mono; [apply bread_runs; [apply Hs|done|apply Hn|done]|].
  intros i b (Hi & Hok & [Hv Hd Hw] & Hdi & _). split_and!; [done| |done..]. split; [|done].
  eapply log_ok_bio; eauto. intros k [->|Hk]%held_insert_in; [apply Hn|by apply (lk_held _ _ _ _ _ Hs)].
Qed.
Next Obligation. intros s H i n m [Hs _] Hi. eapply held_bdata; [apply Hs|done]. Qed.
Next Obligation.
  intros s H i n m v [Hs Ho] Hi Hv. apply runs_in_bio.
  eapply runs_mono; [eapply set_bdata_runs; [apply Hs|done..]|].
  intros _ b (Hok & Hb & Hd & _ & Hdi). split_and!; [|done..]. split; [|done].
  eapply log_ok_bio; eauto. intros k [->|Hk]%held_insert_in; apply (lk_held _ _ _ _ _ Hs); [|done].
  apply elem_of_held. eauto.
Qed.
Next Obligation.
  intros s H i n m [Hs Ho] Hi Hn Hsz. pose proof (logged_count s H Hs).
  eapply runs_mono; [eapply (log_write_runs me start size Hgeo); eauto; unfold LOGSIZE, MAXOPBLOCKS in *; lia|].
  intros _ s' (Hs' & [Hv Hd Hw] & Hdi & Ho' & Hc'). split_and!; [split; [done|lia]|done|].
  rewrite <- (lk_dirty _ _ _ _ _ Hs'), <- (lk_dirty _ _ _ _ _ Hs). done.
Qed.
Next Obligation.
  intros s H i n [Hs Ho] Hi. apply runs_in_bio. eapply runs_mono; [by eapply brelse_runs; [apply Hs|]|].
  intros _ b (Hok & [Hv Hd Hw] & Hdi). split_and!; [|done..]. split; [|done].
  eapply log_ok_bio; eauto. intros k Hk%held_delete. by apply (lk_held _ _ _ _ _ Hs).
Qed.
End loglaws.

(** ** A transaction from boot

    The theorems of [LogRecover] on a concrete disk: the system boots on it, writes
    one block in a transaction and crashes in [end_op]. *)

(** 30 log blocks from block 2 on *)
Definition sb_data : list Z := put32 16 2 (put32 12 30 zero_block).
Definition disk0 : disk_t := {[ (1, 1) := sb_data ]}.

Lemma geometry0 : geometry 2 30.
Proof. by constructor. Qed.

Lemma disk0_ok : disk_ok 2 30 disk0.
Proof.
  assert (Hsb : block_ok sb_data) by (repeat apply put_bytes_ok; try apply zero_block_ok; try apply le32_bytes; cbn; lia).
  assert (H0 : dblock disk0 1 2 = zero_block) by (unfold dblock, disk0; by rewrite lookup_singleton_ne).
  assert (H1 : dblock disk0 1 1 = sb_data) by (unfold dblock, disk0; by rewrite lookup_singleton_eq).
  assert (Hn : hd_n (head_of 2 disk0) = 0) by (unfold head_of; by rewrite H0).
  constructor.
  - intros n. unfold dblock, disk0. destruct (decide (n = 1)) as [->|Hne].
    + by rewrite lookup_singleton_eq.
    + rewrite lookup_singleton_ne by congruence. apply zero_block_ok.
  - rewrite H1. unfold sb_data, decode_sb. cbn [sb_logstart sb_nlog].
    assert (Hz : length zero_block = 512%nat) by apply length_replicate.
    assert (Hz' : length (put32 12 30 zero_block) = 512%nat) by (rewrite length_put32; lia).
    rewrite get_put32, get32_put32_ne, get_put32 by lia. done.
  - rewrite Hn. lia.
  - rewrite hd_list_nil by done. constructor.
  - rewrite hd_list_nil by done. constructor.
Qed.

Definition data40 : list Z := put32 0 7 zero_block.
#[local] Instance ops1 : BufOps lstate := log_ops 1.
#[local] Instance laws1 : BufLaws lstate := log_laws 1 2 30 geometry0 eq_refl 1 (Z.le_refl 1).

Definition touch : M lstate unit :=
  _ ← Log.begin_op;
  i ← Fs.bread 1 40;
  _ ← Fs.set_bdata i data40;
  _ ← Fs.log_write i;
  Fs.brelse i.

(** the state before [end_op]: block 40 is changed in memory *)
Lemma touched : ∃ s, log_ok 1 2 30 s ∅ ∧ lg_committing (ls_log s) = 0 ∧ lg_outstanding (ls_log s) = 1 ∧
  blk (ls_bio s) 40 = data40.
Proof.
  destruct (reboot_runs 1 2 30 geometry0 disk0 disk0_ok) as ([] & s0 & _ & [Hs0 Hn0 Ho0 Hc0 _ _ _]).
  cbn in Ho0, Hc0.
  assert (Hrun : runs touch s0 (λ _ s, in_op 1 2 30 1 s ∅ ∧ bblk s 40 = data40)).
  { unfold touch.
    eapply runs_bind_mono; [apply (begin_op_runs 1 2 30 s0 ∅); [done..|rewrite Hn0, Ho0; done]|].
    intros _ s1 (Hs1 & Hb1 & Hl1 & Hc1 & Ho1). rewrite Ho0 in Ho1.
    assert (Hl0 : logged (ls_log s1) = []) by (rewrite Hl1; unfold logged; by rewrite Hn0).
    assert (H40 : home 2 30 40) by (unfold home, FSSIZE; lia).
    eapply runs_bind_mono.
    { apply (law_bread s1 ∅ 40); [split; [done|lia]|done|rewrite held_empty; apply not_elem_of_empty|].
      cbn. rewrite Hl0, held_empty. cbn. rewrite !(left_id_L ∅ (∪)), size_singleton. unfold NBUF. lia. }
    intros i s2 (_ & Hs2 & Hb2 & Hg2). rewrite insert_empty in Hs2.
    eapply runs_bind_mono; [eapply law_set_bdata; [done|apply lookup_singleton_eq|]|].
    { apply put_bytes_ok; [apply zero_block_ok|cbn; lia|apply le32_bytes]. }
    intros _ s3 (Hs3 & Hb3 & Hg3). rewrite insert_singleton_eq in Hs3.
    eapply runs_bind_mono; [eapply law_log_write; [done|apply lookup_singleton_eq|done|]|].
    { rewrite Hg3, Hg2. cbn. rewrite Hl0. cbn. rewrite size_empty. lia. }
    intros _ s4 (Hs4 & Hb4 & Hg4). rewrite insert_singleton_eq in Hs4.
    eapply runs_mono; [eapply law_brelse; [done|apply lookup_singleton_eq]|].
    intros _ s5 (Hs5 & Hb5 & Hg5). rewrite delete_singleton_eq in Hs5. split; [done|].
    rewrite Hb5, Hb4, Hb3. by rewrite decide_True. }
  destruct Hrun as ([] & s & _ & (Hs & Ho & Hc) & Hb). eauto.
Qed.

(** a crash after three writes of [end_op] *)
Lemma crashes s :
  log_ok 1 2 30 s ∅ → lg_committing (ls_log s) = 0 → lg_outstanding (ls_log s) = 1 → ∃ d, crash_in (end_op 1) s d.
Proof.
  intros Hs Hc Ho. destruct (end_op_runs 1 2 30 geometry0 s Hs Hc Ho) as ([] & s' & E & _ & _ & _ & _ & _ & _ & ws & [_ Hw] & _).
  eexists _, s', ws, (take 3 ws). split_and!; [done..|apply prefix_take|done].
Qed.

Lemma transaction_crash_safe_witness : ∃ s d,
  blk (ls_bio s) 40 = data40 ∧ crash_in (end_op 1) s d ∧
  runs (reboot 1) (boot_state d) (λ _ s', log_ok 1 2 30 s' ∅ ∧
    ((∀ n, home 2 30 n → blk (ls_bio s') n = dblock (disk (ls_bio s)) 1 n) ∨
     (∀ n, home 2 30 n → blk (ls_bio s') n = blk (ls_bio s) n))).
Proof.
  destruct touched as (s & Hs & Hc & Ho & Hb). destruct (crashes s Hs Hc Ho) as [d Hd].
  exists s, d. split; [exact Hb|]. split; [exact Hd|].
  apply (transaction_crash_safe 1 2 30 geometry0 s d d Hs Hc Ho Hd). apply rtc_refl.
Defined.

Lemma transaction_installs_witness : ∃ s, blk (ls_bio s) 40 = data40 ∧
  runs (end_op 1) s (λ _ s', log_ok 1 2 30 s' ∅ ∧ logged (ls_log s') = [] ∧
    ∀ n, home 2 30 n → dblock (disk (ls_bio s')) 1 n = blk (ls_bio s) n ∧ blk (ls_bio s') n = blk (ls_bio s) n).
Proof.
  destruct touched as (s & Hs & Hc & Ho & Hb). exists s. split; [exact Hb|].
  apply (transaction_installs 1 2 30 geometry0 s Hs Hc Ho).
Defined.
