(* ===== verification/FsBits.v ===== *)
(** * The bitmap of free blocks

    The bits of a block as [balloc] and [bfree] test and change them, and the search
    for the first clear one. *)

From S2P Require Import Prelude Block Fs.

Lemma land_bit v k : 0 ≤ k → (Z.land v (Z.shiftl 1 k) =? 0) = negb (Z.testbit v k).
Proof.
  intros Hk. rewrite Z.shiftl_1_l. destruct (Z.testbit v k) eqn:E; cbn [negb].
  - apply Z.eqb_neq. intros H0. assert (Z.testbit (Z.land v (2 ^ k)) k = false) as H by (by rewrite H0, Z.bits_0).
    by rewrite Z.land_spec, E, Z.pow2_bits_true in H by lia.
  - apply Z.eqb_eq. apply Z.bits_inj'. intros n Hn. rewrite Z.land_spec, Z.bits_0, Z.pow2_bits_eqb by lia.
    destruct (Z.eqb_spec k n) as [<-|]; [by rewrite E|by rewrite andb_false_r].
Qed.

Lemma bit_set_testbit data bi :
  bit_set data bi = Z.testbit (data !!! Z.to_nat (bi / 8)) (bi mod 8).
Proof. unfold bit_set. rewrite land_bit by (apply Z.mod_pos_bound; lia). by rewrite negb_involutive. Qed.

Lemma lookup_total_alter_eq (f : Z → Z) (l : list Z) i : (i < length l)%nat → alter f i l !!! i = f (l !!! i).
Proof.
  intros Hi. destruct (lookup_lt_is_Some_2 l i Hi) as [x Hx].
  rewrite (list_lookup_total_correct _ _ _ Hx). apply list_lookup_total_correct.
  by rewrite list_lookup_alter_eq, Hx.
Qed.
Lemma lookup_total_alter_ne (f : Z → Z) (l : list Z) i j : i ≠ j → alter f i l !!! j = l !!! j.
Proof. intros Hij. by rewrite !list_lookup_total_alt, list_lookup_alter_ne. Qed.

(** two bits are the same when their bytes and their places in them are *)
Lemma same_bit bi bj : 0 ≤ bi → 0 ≤ bj → Z.to_nat (bi / 8) = Z.to_nat (bj / 8) → bi mod 8 = bj mod 8 → bi = bj.
Proof.
  intros Hi Hj Hd Hm. assert (bi / 8 = bj / 8) by (apply Z2Nat.inj in Hd; [done|apply Z.div_pos; lia..]).
  rewrite (Z.div_mod bi 8), (Z.div_mod bj 8) by lia. congruence.
Qed.

Lemma bit_byte data bi : block_ok data → 0 ≤ bi < BPB → (Z.to_nat (bi / 8) < length data)%nat.
Proof. intros [-> _] Hbi. unfold BPB, BSIZE in *. assert (bi / 8 < 512) by (apply Z.div_lt_upper_bound; lia).
  assert (0 ≤ bi / 8) by (apply Z.div_pos; lia). lia. Qed.

Lemma mark_bit_set data bi bj :
  block_ok data → 0 ≤ bi < BPB → 0 ≤ bj < BPB →
  bit_set (mark_bit data bi) bj = bool_decide (bj = bi) || bit_set data bj.
Proof.
  intros Hd Hi Hj. pose proof (bit_byte data bi Hd Hi). pose proof (Z.mod_pos_bound bi 8). pose proof (Z.mod_pos_bound bj 8).
  rewrite !bit_set_testbit. unfold mark_bit. destruct (decide (Z.to_nat (bi / 8) = Z.to_nat (bj / 8))) as [E|E].
  - rewrite <- E, lookup_total_alter_eq by done. rewrite Z.lor_spec, Z.shiftl_1_l, Z.pow2_bits_eqb by lia.
    rewrite orb_comm. f_equal. destruct (Z.eqb_spec (bi mod 8) (bj mod 8)) as [E'|E'].
    + symmetry. apply bool_decide_eq_true. symmetry. apply same_bit; lia.
    + symmetry. apply bool_decide_eq_false. congruence.
  - rewrite lookup_total_alter_ne by done. rewrite bool_decide_eq_false_2; [done|congruence].
Qed.

Lemma clear_bit_set data bi bj :
  block_ok data → 0 ≤ bi < BPB → 0 ≤ bj < BPB →
  bit_set (clear_bit data bi) bj = negb (bool_decide (bj = bi)) && bit_set data bj.
Proof.
  intros Hd Hi Hj. pose proof (bit_byte data bi Hd Hi). pose proof (Z.mod_pos_bound bi 8). pose proof (Z.mod_pos_bound bj 8).
  rewrite !bit_set_testbit. unfold clear_bit. destruct (decide (Z.to_nat (bi / 8) = Z.to_nat (bj / 8))) as [E|E].
  - rewrite <- E, lookup_total_alter_eq by done.
    rewrite Z.land_spec, Z.lnot_spec, Z.shiftl_1_l, Z.pow2_bits_eqb by lia. rewrite andb_comm. f_equal. f_equal.
    destruct (Z.eqb_spec (bi mod 8) (bj mod 8)) as [E'|E'].
    + symmetry. apply bool_decide_eq_true. symmetry. apply same_bit; lia.
    + symmetry. apply bool_decide_eq_false. congruence.
  - rewrite lookup_total_alter_ne by done. rewrite bool_decide_eq_false_2; [done|congruence].
Qed.

Lemma alter_block_ok f i data : (∀ v, is_u8 v → is_u8 (f v)) → block_ok data → block_ok (alter f i data).
Proof.
  intros Hf [Hl Hb]. split; [by rewrite length_alter|]. apply Forall_alter; [done|]. intros x _ Hx. auto.
Qed.

Lemma mark_bit_ok data bi : block_ok data → block_ok (mark_bit data bi).
Proof.
  apply alter_block_ok. unfold is_u8. intros v Hv. pose proof (Z.mod_pos_bound bi 8).
  rewrite Z.shiftl_1_l. assert (0 ≤ 2 ^ (bi mod 8) < 2 ^ 8) by (split; [lia|apply Z.pow_lt_mono_r; lia]).
  split; [apply Z.lor_nonneg; lia|]. change 256 with (2 ^ 8) in *.
  destruct (decide (Z.lor v (2 ^ (bi mod 8)) = 0)) as [->|]; [lia|].
  assert (0 ≤ Z.lor v (2 ^ (bi mod 8))) by (apply Z.lor_nonneg; lia).
  apply Z.log2_lt_pow2; [lia|]. rewrite Z.log2_lor by lia.
  destruct (decide (v = 0)) as [->|]; [rewrite Z.log2_nonpos, Z.log2_pow2 by lia; lia|].
  rewrite Z.log2_pow2 by lia. apply Z.max_lub_lt; [apply Z.log2_lt_pow2; lia|lia].
Qed.

Lemma clear_bit_ok data bi : block_ok data → block_ok (clear_bit data bi).
Proof.
  apply alter_block_ok. unfold is_u8. intros v Hv. rewrite Z.shiftl_1_l.
  split; [apply Z.land_nonneg; lia|].
  assert (Hv8 : v = Z.land v (Z.ones 8)) by (rewrite Z.land_ones by lia; rewrite Z.mod_small by lia; done).
  rewrite Hv8, <- Z.land_assoc, (Z.land_comm (Z.ones 8)), Z.land_assoc, Z.land_ones by lia.
  apply Z.mod_pos_bound. lia.
Qed.

(** ** The search *)

Lemma free_bit_Some fuel size data b : ∀ bi r,
  free_bit fuel size data b bi = Some r →
  bi ≤ r < BPB ∧ b + r < size ∧ bit_set data r = false ∧ ∀ j, bi ≤ j < r → bit_set data j = true.
Proof.
  induction fuel as [|fuel IH]; intros bi r; cbn [free_bit]; [done|].
  destruct (Z.ltb_spec bi BPB), (Z.ltb_spec (b + bi) size); cbn [andb]; try done.
  destruct (bit_set data bi) eqn:E.
  - intros (H1 & H2 & H3 & H4)%IH. split_and!; [lia..|done|]. intros j Hj. destruct (decide (j = bi)) as [->|]; [done|apply H4; lia].
  - intros [= <-]. split_and!; [lia..|done|lia].
Qed.

Lemma free_bit_None fuel size data b : ∀ bi,
  free_bit fuel size data b bi = None → BPB - bi ≤ Z.of_nat fuel →
  ∀ j, bi ≤ j < BPB → b + j < size → bit_set data j = true.
Proof.
  induction fuel as [|fuel IH]; intros bi; cbn [free_bit]; [lia|].
  destruct (Z.ltb_spec bi BPB), (Z.ltb_spec (b + bi) size); cbn [andb]; try lia.
  destruct (bit_set data bi) eqn:E; [|done]. intros Hf Hl j Hj Hs.
  destruct (decide (j = bi)) as [->|]; [done|]. eapply IH; [done|lia..].
Qed.
