(* ===== verification/FsAlloc.v ===== *)
(** * Allocating and freeing blocks

    The functions of fs.c that work on blocks, proved against the contract
    [BufLaws].  [fs_at s H f L ino sb] describes a state: the buffers held, the
    contents of the blocks, the blocks of the transaction, the inode cache and the
    super block; each operation is specified by what it does to these. *)

From S2P Require Import Prelude Block Bio BioSpec Fs FsLaws FsBits.

Definition upd (f : Z → list Z) (n : Z) (v : list Z) : Z → list Z := λ k, if decide (k = n) then v else f k.

Lemma upd_eq f n v : upd f n v n = v.
Proof. unfold upd. by rewrite decide_True. Qed.
Lemma upd_ne f n v k : k ≠ n → upd f n v k = f k.
Proof. intros. unfold upd. by rewrite decide_False. Qed.

Section alloc.
  Context {S : Type} {BO : BufOps S} {BL : BufLaws S}.

Record fs_at (s : fs S) (H : holds_t) (f : Z → list Z) (L : gset Z) (ino : list inode) (sb : superblock) : Prop := {
  at_ok : bok (f_sub s) H;
  at_blk k : bblk (f_sub s) k = f k;
  at_log : blogged (f_sub s) = L;
  at_ino : f_inodes s = ino;
  at_sb : f_sb s = sb }.

Lemma fs_at_blk_ok s H f L ino sb n : fs_at s H f L ino sb → block_ok (f n).
Proof. intros [Hok Hb _ _ _]. rewrite <- Hb. by eapply law_blk_ok. Qed.

(** ** The operations of the lower layers *)

Lemma runs_sub {A} (m : M S A) s (Q : A → fs S → Prop) :
  runs m (f_sub s) (λ a b, Q a {| f_sub := b; f_inodes := f_inodes s; f_sb := f_sb s |}) → runs (sub m) s Q.
Proof.
  intros (a & b & E & HQ). eexists a, _. split; [|exact HQ]. unfold sub. by erewrite zoom_Ret.
Qed.

Lemma room_for (L K : gset Z) (n : Z) : (size L + size K ≤ 29)%nat → (size (L ∪ K ∪ {[ n ]}) ≤ NBUF)%nat.
Proof.
  intros HL. pose proof (size_union_alt L K) as E1. pose proof (size_union_alt (L ∪ K) {[ n ]}) as E2.
  assert (size (K ∖ L) ≤ size K)%nat by (apply subseteq_size; set_solver).
  assert (size ({[ n ]} ∖ (L ∪ K)) ≤ 1)%nat by (rewrite <- (size_singleton (C := gset Z) n); apply subseteq_size; set_solver).
  unfold NBUF. lia.
Qed.

Lemma wp_bread s H f L ino sb n (Q : nat → fs S → Prop) :
  fs_at s H f L ino sb → bhome n → n ∉ held H → (size L + size (held H) ≤ 29)%nat →
  (∀ i s', H !! i = None → fs_at s' (<[i := (n, false)]> H) f L ino sb → Q i s') →
  runs (sub (bread 1 n)) s Q.
Proof.
  intros [Hok Hb HL Hi Hsb] Hn Hh Hsz HQ. apply runs_sub. rewrite <- HL in Hsz.
  eapply runs_mono; [by apply law_bread, room_for|]. intros i b (HH & Hok' & Hb' & HL').
  apply HQ; [done|]. constructor; cbn; try done; [intros k; by rewrite Hb'|congruence].
Qed.

Lemma wp_set s H f L ino sb i n m v (Q : unit → fs S → Prop) :
  fs_at s H f L ino sb → H !! i = Some (n, m) → block_ok v →
  (∀ s', fs_at s' (<[i := (n, true)]> H) (upd f n v) L ino sb → Q () s') →
  runs (sub (set_bdata i v)) s Q.
Proof.
  intros [Hok Hb HL Hi Hsb] HH Hv HQ. apply runs_sub. eapply runs_mono; [by eapply law_set_bdata|].
  intros [] b (Hok' & Hb' & HL'). apply HQ. constructor; cbn; try done; [|congruence].
  intros k. rewrite Hb'. unfold upd. by rewrite Hb.
Qed.

Lemma wp_log s H f L ino sb i n m (Q : unit → fs S → Prop) :
  fs_at s H f L ino sb → H !! i = Some (n, m) → bhome n → (size L < 29)%nat →
  (∀ s', fs_at s' (<[i := (n, false)]> H) f ({[ n ]} ∪ L) ino sb → Q () s') →
  runs (sub (log_write i)) s Q.
Proof.
  intros [Hok Hb HL Hi Hsb] HH Hn Hsz HQ. apply runs_sub. rewrite <- HL in Hsz.
  eapply runs_mono; [by eapply law_log_write|].
  intros [] b (Hok' & Hb' & HL'). apply HQ. constructor; cbn; try done; [intros k; by rewrite Hb'|congruence].
Qed.

Lemma wp_brelse s H f L ino sb i n (Q : unit → fs S → Prop) :
  fs_at s H f L ino sb → H !! i = Some (n, false) →
  (∀ s', fs_at s' (delete i H) f L ino sb → Q () s') → runs (sub (brelse i)) s Q.
Proof.
  intros [Hok Hb HL Hi Hsb] HH HQ. apply runs_sub. eapply runs_mono; [by eapply law_brelse|].
  intros [] b (Hok' & Hb' & HL'). apply HQ. constructor; cbn; try done; [intros k; by rewrite Hb'|congruence].
Qed.

Lemma held_data s H f L ino sb i n m : fs_at s H f L ino sb → H !! i = Some (n, m) → bdata i (f_sub s) = f n.
Proof. intros [Hok Hb _ _ _] HH. by rewrite (law_bdata _ _ _ _ _ Hok HH). Qed.

(** [set_bdata], [log_write] and [brelse] of the buffer that was read last *)
Lemma wp_update {A} s H f L ino sb i n m v (k : M (fs S) A) (Q : A → fs S → Prop) :
  fs_at s (<[i := (n, m)]> H) f L ino sb → H !! i = None → bhome n → block_ok v → (size L < 29)%nat →
  (∀ s', fs_at s' H (upd f n v) ({[ n ]} ∪ L) ino sb → runs k s' Q) →
  runs (_ ← sub (set_bdata i v); _ ← sub (log_write i); _ ← sub (brelse i); k) s Q.
Proof.
  intros Hs HH Hn Hv Hsz HQ. apply runs_bind. eapply wp_set; [done|apply lookup_insert_eq|done|].
  intros s1 Hs1. rewrite insert_insert_eq in Hs1. apply runs_bind. eapply wp_log; [done|apply lookup_insert_eq|done..|].
  intros s2 Hs2. rewrite insert_insert_eq in Hs2. apply runs_bind. eapply wp_brelse; [done|apply lookup_insert_eq|].
  intros s3 Hs3. rewrite delete_insert_id in Hs3 by done. auto.
Qed.

Lemma wp_update_last s H f L ino sb i n m v (Q : unit → fs S → Prop) :
  fs_at s (<[i := (n, m)]> H) f L ino sb → H !! i = None → bhome n → block_ok v → (size L < 29)%nat →
  (∀ s', fs_at s' H (upd f n v) ({[ n ]} ∪ L) ino sb → Q () s') →
  runs (_ ← sub (set_bdata i v); _ ← sub (log_write i); sub (brelse i)) s Q.
Proof.
  intros Hs HH Hn Hv Hsz HQ. apply runs_bind. eapply wp_set; [done|apply lookup_insert_eq|done|].
  intros s1 Hs1. rewrite insert_insert_eq in Hs1. apply runs_bind. eapply wp_log; [done|apply lookup_insert_eq|done..|].
  intros s2 Hs2. rewrite insert_insert_eq in Hs2. eapply wp_brelse; [done|apply lookup_insert_eq|].
  intros s3 Hs3. rewrite delete_insert_id in Hs3 by done. auto.
Qed.

(** ** The bitmap *)

Record fs_geo (sb : superblock) : Prop := {
  fg_size : 0 < sb_size sb ≤ FSSIZE;
  fg_bmap : 0 ≤ sb_bmapstart sb < sb_size sb;
  fg_home_bmap : bhome (sb_bmapstart sb);
  fg_home b : sb_bmapstart sb < b < sb_size sb → bhome b }.

Definition used (sb : superblock) (f : Z → list Z) (b : Z) : bool := bit_set (f (sb_bmapstart sb)) b.
(** the blocks up to the bitmap are never free *)
Definition reserved (sb : superblock) (f : Z → list Z) : Prop := ∀ b, 0 ≤ b ≤ sb_bmapstart sb → used sb f b = true.

Lemma BBLOCK_bmap sb b : fs_geo sb → 0 ≤ b < BPB → BBLOCK b sb = sb_bmapstart sb.
Proof.
  intros [? ? _ _] Hb. unfold BBLOCK. rewrite Z.div_small by lia. unfold FSSIZE in *. apply Z.mod_small. lia.
Qed.

Lemma bzero_runs s H f L ino sb n (Q : unit → fs S → Prop) :
  fs_at s H f L ino sb → bhome n → n ∉ held H → (size L + size (held H) ≤ 28)%nat →
  (∀ s', fs_at s' H (upd f n zero_block) ({[ n ]} ∪ L) ino sb → Q () s') → runs (bzero 1 n) s Q.
Proof.
  intros Hs Hn Hh Hsz HQ. unfold bzero. apply runs_bind. eapply wp_bread; [done..|lia|]. intros i s1 HH Hs1.
  eapply wp_update_last; [done..|apply zero_block_ok|lia|done].
Qed.

(** the contents after block [b] has been allocated *)
Definition allocated (sb : superblock) (f : Z → list Z) (b : Z) : Z → list Z :=
  upd (upd f (sb_bmapstart sb) (mark_bit (f (sb_bmapstart sb)) b)) b zero_block.

Lemma size_insert_le (L : gset Z) n : (size ({[ n ]} ∪ L) ≤ 1 + size L)%nat.
Proof.
  pose proof (size_union_alt ({[ n ]} : gset Z) L) as E. rewrite size_singleton in E.
  assert (size (L ∖ {[ n ]}) ≤ size L)%nat by (apply subseteq_size; set_solver). lia.
Qed.

Lemma balloc_runs s H f L ino sb (Q : Z → fs S → Prop) :
  fs_at s H f L ino sb → fs_geo sb → reserved sb f → sb_bmapstart sb ∉ held H →
  (∀ b, b ∈ held H → used sb f b = true) → (size L + size (held H) ≤ 27)%nat →
  (∃ b, 0 ≤ b < sb_size sb ∧ used sb f b = false) →
  (∀ b s', sb_bmapstart sb < b < sb_size sb → used sb f b = false → (∀ j, 0 ≤ j < b → used sb f j = true) →
     fs_at s' H (allocated sb f b) ({[ b ]} ∪ ({[ sb_bmapstart sb ]} ∪ L)) ino sb → Q b s') →
  runs (balloc 1) s Q.
Proof.
  intros Hs Hg Hres Hbm Hheld Hsz (b0 & Hb0 & Hfree) HQ. pose proof Hg as [Gs Gb Gh Gd].
  unfold balloc. rprim. rewrite (at_sb _ _ _ _ _ _ Hs). set (bm := sb_bmapstart sb) in *.
  assert (HBPB : BPB = 4096) by done. unfold FSSIZE in Gs.
  replace (Z.to_nat (sb_size sb / BPB + 2)) with 2%nat by (rewrite Z.div_small by lia; done).
  cbn [balloc_loop]. rprim. rewrite (at_sb _ _ _ _ _ _ Hs). rewrite (proj2 (Z.ltb_lt _ _)) by lia.
  rewrite BBLOCK_bmap by (done || lia). fold bm.
  apply runs_bind. eapply wp_bread; [done..|lia|]. intros i s1 HH Hs1. rprim.
  rewrite (held_data _ _ _ _ _ _ _ _ _ Hs1 (lookup_insert_eq _ _ _)).
  destruct (free_bit _ _ _ 0 0) as [bi|] eqn:Ef.
  2: { eapply free_bit_None with (j := b0) in Ef; [|lia..]. unfold used in Hfree. fold bm in Hfree. congruence. }
  apply free_bit_Some in Ef as (B1 & B2 & B3 & B4). rewrite Z.add_0_l in *.
  assert (B5 : bm < bi).
  { destruct (decide (bi ≤ bm)) as [Hle|]; [|lia]. assert (used sb f bi = true) as Hu by (apply Hres; lia).
    unfold used in Hu. fold bm in Hu. congruence. }
  eapply wp_update; [done..|apply mark_bit_ok; by eapply fs_at_blk_ok|lia|]. intros s2 Hs2.
  apply runs_bind. eapply bzero_runs; [done|apply Gd; lia| | |].
  { intros Hin. apply Hheld in Hin. unfold used in Hin. fold bm in Hin. congruence. }
  { pose proof (size_insert_le L bm). lia. }
  intros s3 Hs3. apply runs_ret. by apply HQ.
Qed.

Lemma bfree_runs s H f L ino sb b (Q : unit → fs S → Prop) :
  fs_at s H f L ino sb → fs_geo sb → sb_bmapstart sb ∉ held H → (size L + size (held H) ≤ 28)%nat →
  0 ≤ b < sb_size sb → used sb f b = true →
  (∀ s', fs_at s' H (upd f (sb_bmapstart sb) (clear_bit (f (sb_bmapstart sb)) b)) ({[ sb_bmapstart sb ]} ∪ L) ino sb → Q () s') →
  runs (bfree 1 b) s Q.
Proof.
  intros Hs Hg Hbm Hsz Hb Hu HQ. pose proof Hg as [Gs Gb Gh Gd].
  unfold bfree. rprim. rewrite (at_sb _ _ _ _ _ _ Hs).
  assert (HBPB : BPB = 4096) by done. unfold FSSIZE in Gs. rewrite BBLOCK_bmap by (done || lia).
  apply runs_bind. eapply wp_bread; [done..|lia|]. intros i s1 HH Hs1. rprim.
  rewrite (held_data _ _ _ _ _ _ _ _ _ Hs1 (lookup_insert_eq _ _ _)). rewrite (Z.mod_small b) by lia.
  unfold used in Hu. rewrite Hu. cbn [negb].
  eapply wp_update_last; [done..|apply clear_bit_ok; by eapply fs_at_blk_ok|lia|done].
Qed.

(** ** What an allocation changes *)

Lemma used_allocated sb f b j :
  fs_geo sb → block_ok (f (sb_bmapstart sb)) → sb_bmapstart sb < b < sb_size sb → 0 ≤ j < BPB →
  used sb (allocated sb f b) j = bool_decide (j = b) || used sb f j.
Proof.
  intros [Gs Gb _ _] Hok Hb Hj. unfold used, allocated. rewrite upd_ne, upd_eq by lia. unfold FSSIZE in *.
  apply mark_bit_set; [done| |done]. unfold BPB, BSIZE. lia.
Qed.

Lemma allocated_other sb f b k : k ≠ b → k ≠ sb_bmapstart sb → allocated sb f b k = f k.
Proof. intros. unfold allocated. by rewrite !upd_ne. Qed.
Lemma allocated_new sb f b : allocated sb f b b = zero_block.
Proof. unfold allocated. by rewrite upd_eq. Qed.

(** When a block is free, [balloc] returns the first free block, zeroed and marked
    in use; it is a block of the data area, no other bit of the bitmap changes and
    no other block does. *)
Theorem balloc_fresh s f L ino sb :
  fs_at s ∅ f L ino sb → fs_geo sb → reserved sb f → (size L ≤ 27)%nat →
  (∃ b, 0 ≤ b < sb_size sb ∧ used sb f b = false) →
  runs (balloc 1) s (λ b s', ∃ f' L', fs_at s' ∅ f' L' ino sb ∧
    sb_bmapstart sb < b < sb_size sb ∧ used sb f b = false ∧ (∀ j, 0 ≤ j < b → used sb f j = true) ∧
    f' b = zero_block ∧ (∀ j, 0 ≤ j < sb_size sb → used sb f' j = bool_decide (j = b) || used sb f j) ∧
    ∀ k, k ≠ b → k ≠ sb_bmapstart sb → f' k = f k).
Proof.
  intros Hs Hg Hr HL Hfree. pose proof (held_empty) as He.
  eapply balloc_runs; [done..|rewrite He; apply not_elem_of_empty|rewrite He; by intros b ?%not_elem_of_empty|rewrite He, size_empty; lia|done|].
  intros b s' Hb Hu Hfirst Hs'. eexists _, _. split; [exact Hs'|]. split_and!; [lia|lia|exact Hu|exact Hfirst|apply allocated_new| |].
  - intros j Hj. apply used_allocated; [done|by eapply fs_at_blk_ok|done|]. destruct Hg as [? _ _ _].
    unfold BPB, BSIZE, FSSIZE in *. lia.
  - intros k. apply allocated_other.
Qed.
End alloc.
