(* ===== verification/FsMap.v ===== *)
(** * The blocks of a file

    [bmap] finds the block of a file that has a given number and allocates it, and
    the indirect block, where they are missing.  [fblock] is the block map that an
    inode and its indirect block describe and [fdata] the contents of the file,
    block by block, a missing block counting as zeros; [bmap] adds to the first and
    leaves the second as it is. *)

From S2P Require Import Prelude Block Bio BioSpec Fs FsLaws FsBits FsAlloc.

Definition fblock (f : Z → list Z) (i : inode) (bn : Z) : Z :=
  if bn <? NDIRECT then addr_at i bn
  else if addr_at i NDIRECT =? 0 then 0
  else get32 (Z.to_nat (4 * (bn - NDIRECT))) (f (addr_at i NDIRECT)).

Definition fdata (f : Z → list Z) (i : inode) (bn : Z) : list Z :=
  if fblock f i bn =? 0 then zero_block else f (fblock f i bn).

(** arithmetic with the sizes of files *)
Ltac flia := change MAXFILE with 140 in *; change NDIRECT with 12 in *; lia.

Section map.
  Context {S : Type} {BO : BufOps S} {BL : BufLaws S} (sb : superblock) (Hgeo : fs_geo (BL := BL) sb).

Abbreviation bm := (sb_bmapstart sb).
Abbreviation used := (used sb).

(** a block of the data area that is in use *)
Definition data_block (f : Z → list Z) (b : Z) : Prop := bm < b < sb_size sb ∧ used f b = true.

Record inode_wf (f : Z → list Z) (i : inode) : Prop := {
  iw_len : length (i_addrs i) = Z.to_nat (NDIRECT + 1);
  iw_dev : i_dev i = 1;
  iw_ind : addr_at i NDIRECT = 0 ∨ data_block f (addr_at i NDIRECT);
  iw_blk bn : 0 ≤ bn < MAXFILE → fblock f i bn = 0 ∨ data_block f (fblock f i bn);
  iw_inj bn bn' : 0 ≤ bn < MAXFILE → 0 ≤ bn' < MAXFILE → fblock f i bn ≠ 0 →
    fblock f i bn = fblock f i bn' → bn = bn';
  iw_sep bn : 0 ≤ bn < MAXFILE → fblock f i bn ≠ 0 → fblock f i bn ≠ addr_at i NDIRECT }.

Definition owned (f : Z → list Z) (i : inode) (k : Z) : Prop :=
  k ≠ 0 ∧ (k = addr_at i NDIRECT ∨ ∃ bn, 0 ≤ bn < MAXFILE ∧ fblock f i bn = k).

Definition nfree (f : Z → list Z) : nat := length (filter (λ b, used f b = false) (seqZ 0 (sb_size sb))).

(** from [f] and [i], by allocating at most [n] blocks and changing blocks of the
    file *)
Record evolves (n : nat) (f : Z → list Z) (i : inode) (f' : Z → list Z) (i' : inode) : Prop := {
  ex_wf : inode_wf f' i';
  ex_mono bn : 0 ≤ bn < MAXFILE → fblock f i bn ≠ 0 → fblock f' i' bn = fblock f i bn;
  ex_used b : 0 ≤ b < BPB → used f b = true → used f' b = true;
  ex_other k : 0 ≤ k < BPB → k ≠ bm → used f k = true → ¬ owned f i k → f' k = f k;
  ex_owned k : owned f' i' k → owned f i k ∨ used f k = false;
  ex_meta : i' = set_addrs (i_addrs i') i;
  ex_free : (nfree f ≤ nfree f' + n)%nat }.

(** ... which leaves the contents as they are *)
Definition extends (n : nat) (f : Z → list Z) (i : inode) (f' : Z → list Z) (i' : inode) : Prop :=
  evolves n f i f' i' ∧ ∀ bn, 0 ≤ bn < MAXFILE → fdata f' i' bn = fdata f i bn.

Lemma set_addrs_id i : set_addrs (i_addrs i) i = i.
Proof. by destruct i. Qed.

Lemma evolves_refl f i : inode_wf f i → evolves 0 f i f i.
Proof. intros H. constructor; try done; [tauto|by rewrite set_addrs_id|lia]. Qed.

Lemma data_block_small f b : data_block f b → 0 ≤ b < BPB.
Proof. intros [Hb _]. destruct Hgeo as [? ? _ _]. unfold BPB, BSIZE, FSSIZE in *. lia. Qed.

Lemma owned_data f i k : inode_wf f i → owned f i k → data_block f k.
Proof.
  intros Hw [Hk [->|(bn & Hbn & <-)]]; [by destruct (iw_ind _ _ Hw)|by destruct (iw_blk _ _ Hw bn Hbn)].
Qed.

Lemma evolves_trans n m f i f1 i1 f2 i2 :
  evolves n f i f1 i1 → evolves m f1 i1 f2 i2 → evolves (n + m) f i f2 i2.
Proof.
  intros H1 H2. constructor.
  - apply H2.
  - intros bn Hbn H. rewrite (ex_mono _ _ _ _ _ H2) by (rewrite ?(ex_mono _ _ _ _ _ H1); done).
    by apply (ex_mono _ _ _ _ _ H1).
  - intros b Hb Hu. by apply (ex_used _ _ _ _ _ H2), (ex_used _ _ _ _ _ H1).
  - intros k Hk Hne Hu Ho. rewrite (ex_other _ _ _ _ _ H2); try done.
    + by apply (ex_other _ _ _ _ _ H1).
    + by apply (ex_used _ _ _ _ _ H1).
    + intros [?|?]%(ex_owned _ _ _ _ _ H1); congruence.
  - intros k Ho. pose proof (data_block_small _ _ (owned_data _ _ _ (ex_wf _ _ _ _ _ H2) Ho)) as Hk.
    apply (ex_owned _ _ _ _ _ H2) in Ho as [Ho|Hu]; [by apply (ex_owned _ _ _ _ _ H1)|].
    right. destruct (used f k) eqn:E; [|done]. apply (ex_used _ _ _ _ _ H1) in E; congruence.
  - rewrite (ex_meta _ _ _ _ _ H2) at 1. rewrite (ex_meta _ _ _ _ _ H1) at 1. done.
  - pose proof (ex_free _ _ _ _ _ H1). pose proof (ex_free _ _ _ _ _ H2). lia.
Qed.

Lemma evolves_le n m f i f' i' : evolves n f i f' i' → (n ≤ m)%nat → evolves m f i f' i'.
Proof. intros H Hle. constructor; try apply H. pose proof (ex_free _ _ _ _ _ H). lia. Qed.

Lemma extends_trans n m f i f1 i1 f2 i2 :
  extends n f i f1 i1 → extends m f1 i1 f2 i2 → extends (n + m) f i f2 i2.
Proof. intros [H1 D1] [H2 D2]. split; [by eapply evolves_trans|]. intros bn Hbn. by rewrite D2, D1. Qed.
Lemma extends_le n m f i f' i' : extends n f i f' i' → (n ≤ m)%nat → extends m f i f' i'.
Proof. intros [H D] Hle. split; [by eapply evolves_le|done]. Qed.

(** ** One allocation *)

Lemma filter_length_le (P : Z → Prop) `{!∀ x, Decision (P x)} (Q : Z → Prop) `{!∀ x, Decision (Q x)} l :
  (∀ x, x ∈ l → P x → Q x) → (length (filter P l) ≤ length (filter Q l))%nat.
Proof.
  induction l as [|x l IH]; intros HPQ; [done|]. rewrite !filter_cons.
  assert (length (filter P l) ≤ length (filter Q l))%nat by (apply IH; set_solver).
  destruct (decide (P x)); [rewrite decide_True by set_solver; cbn; lia|case_decide; cbn; lia].
Qed.

Lemma filter_ne_length (P : Z → Prop) `{!∀ x, Decision (P x)} (Q : Z → Prop) `{!∀ x, Decision (Q x)} b l :
  NoDup l → (∀ x, x ∈ l → x ≠ b → P x → Q x) → (length (filter P l) ≤ length (filter Q l) + 1)%nat.
Proof.
  intros Hnd. induction Hnd as [|x l Hx Hnd IH]; intros HPQ; [cbn; lia|]. rewrite !filter_cons.
  destruct (decide (x = b)) as [->|Hne].
  - assert (length (filter P l) ≤ length (filter Q l))%nat by (apply filter_length_le; set_solver).
    repeat case_decide; cbn; lia.
  - assert (length (filter P l) ≤ length (filter Q l) + 1)%nat by (apply IH; set_solver).
    destruct (decide (P x)); [rewrite decide_True by set_solver; cbn; lia|case_decide; cbn; lia].
Qed.

(** [f'] is [f] with block [b] allocated, and changes otherwise only in the
    indirect block of [i] *)
Record grows (f : Z → list Z) (b : Z) (i : inode) (f' : Z → list Z) : Prop := {
  gr_range : bm < b < sb_size sb;
  gr_unused : used f b = false;
  gr_used j : 0 ≤ j < BPB → used f' j = bool_decide (j = b) || used f j;
  gr_new : f' b = zero_block;
  gr_other k : k ≠ b → k ≠ bm → (k = addr_at i NDIRECT → k = 0) → f' k = f k }.

Lemma grows_nfree f b i f' : grows f b i f' → (nfree f ≤ nfree f' + 1)%nat.
Proof.
  intros [Hb _ Hu _ _]. apply (filter_ne_length _ _ b); [apply NoDup_seqZ|].
  intros x [Hx1 Hx2]%elem_of_seqZ Hne Hf. destruct Hgeo as [? ? _ _].
  rewrite Hu by (unfold BPB, BSIZE, FSSIZE in *; lia). by rewrite bool_decide_eq_false_2.
Qed.

Lemma grows_data f b i f' k : grows f b i f' → data_block f k → data_block f' k.
Proof.
  intros Hg Hk. pose proof (data_block_small _ _ Hk) as Hs. destruct Hk as [Hk Hu]. split; [done|].
  rewrite (gr_used _ _ _ _ Hg) by done. rewrite Hu. apply orb_true_r.
Qed.
Lemma grows_data_new f b i f' : grows f b i f' → data_block f' b.
Proof.
  intros Hg. split; [apply Hg|]. rewrite (gr_used _ _ _ _ Hg), bool_decide_eq_true_2; [done..|].
  destruct Hg as [? _ _ _ _], Hgeo as [? ? _ _]. unfold BPB, BSIZE, FSSIZE in *. lia.
Qed.
Lemma data_not_new f b i f' k : grows f b i f' → data_block f k → k ≠ b ∧ k ≠ bm.
Proof. intros Hg [? Hu]. pose proof (gr_unused _ _ _ _ Hg). split; [congruence|lia]. Qed.

Lemma grows_pos f b i f' : grows f b i f' → b ≠ 0.
Proof. intros [? _ _ _ _]. destruct Hgeo as [_ ? _ _]. lia. Qed.

Lemma grows_used f b i f' j : grows f b i f' → 0 ≤ j < BPB → used f j = true → used f' j = true.
Proof. intros Hg Hj Hu. rewrite (gr_used _ _ _ _ Hg), Hu by done. apply orb_true_r. Qed.

Lemma grows_kept f b i f' k : inode_wf f i → grows f b i f' → k ≠ bm → used f k = true → ¬ owned f i k → f' k = f k.
Proof.
  intros Hw Hg Hk Hu Ho. apply (gr_other _ _ _ _ Hg); [|done|].
  - pose proof (gr_unused _ _ _ _ Hg). congruence.
  - intros E. destruct (decide (k = 0)) as [|Hne]; [done|]. destruct Ho. split; [done|by left].
Qed.

(** the block [b] becomes number [k] of the file *)
Lemma extends_block f i b f' i' k :
  inode_wf f i → 0 ≤ k < MAXFILE → fblock f i k = 0 → grows f b i f' →
  length (i_addrs i') = length (i_addrs i) → i' = set_addrs (i_addrs i') i → addr_at i' NDIRECT = addr_at i NDIRECT →
  (∀ bn, 0 ≤ bn < MAXFILE → fblock f' i' bn = if decide (bn = k) then b else fblock f i bn) →
  extends 1 f i f' i'.
Proof.
  intros Hw Hk H0 Hg Hlen Hmeta Hind Hfb. pose proof (grows_pos _ _ _ _ Hg) as Hb0.
  assert (Hdata : ∀ x, data_block f x → x ≠ b ∧ x ≠ bm) by (intros x; by apply (data_not_new f b i f')).
  assert (Hold : ∀ bn, 0 ≤ bn < MAXFILE → fblock f i bn ≠ 0 → fblock f i bn ≠ b).
  { intros bn Hbn Hne. destruct (iw_blk _ _ Hw bn Hbn) as [|Hd]; [done|]. by apply Hdata. }
  split.
  2: { intros bn Hbn. unfold fdata. rewrite Hfb by done. case_decide as E.
    - subst bn. rewrite H0, (proj2 (Z.eqb_neq _ _)) by done. apply Hg.
    - destruct (Z.eqb_spec (fblock f i bn) 0) as [|Hne]; [done|].
      destruct (iw_blk _ _ Hw bn Hbn) as [|Hd]; [done|]. apply (gr_other _ _ _ _ Hg); [by apply Hdata..|].
      intros E'. by apply (iw_sep _ _ Hw bn Hbn) in E'. }
  constructor.
  - constructor.
    + rewrite Hlen. apply Hw.
    + rewrite Hmeta. apply Hw.
    + rewrite Hind. destruct (iw_ind _ _ Hw); [by left|right]. by eapply grows_data.
    + intros bn Hbn. rewrite Hfb by done. case_decide; [right; by eapply grows_data_new|].
      destruct (iw_blk _ _ Hw bn Hbn); [by left|right]. by eapply grows_data.
    + intros bn bn' Hbn Hbn'. rewrite !Hfb by done. repeat case_decide; try congruence.
      * intros _ E. rewrite E in Hb0. by apply Hold in Hbn'.
      * intros Hne E. by apply Hold in Hne.
      * by apply (iw_inj _ _ Hw).
    + intros bn Hbn. rewrite Hfb, Hind by done. case_decide; [|by apply (iw_sep _ _ Hw)].
      intros _ E. destruct (iw_ind _ _ Hw) as [|Hd]; [congruence|]. by apply Hdata in Hd as [? _].
  - intros bn Hbn Hne. rewrite Hfb by done. case_decide; [congruence|done].
  - intros j. by apply grows_used with (b := b) (i := i).
  - intros x _. by apply grows_kept with (b := b).
  - intros x [Hx [->|(bn & Hbn & <-)]]; [left; rewrite Hind in *; split; [done|by left]|].
    rewrite Hfb in * by done. case_decide; [right; apply Hg|left; split; [done|right; eauto]].
  - done.
  - by apply grows_nfree with (b := b) (i := i).
Qed.

Lemma fblock_direct f i bn : bn < NDIRECT → fblock f i bn = addr_at i bn.
Proof. intros Hbn. unfold fblock. by rewrite (proj2 (Z.ltb_lt _ _)). Qed.
Lemma fblock_indirect f i bn :
  NDIRECT ≤ bn → addr_at i NDIRECT ≠ 0 →
  fblock f i bn = get32 (Z.to_nat (4 * (bn - NDIRECT))) (f (addr_at i NDIRECT)).
Proof. intros Hbn Ha. unfold fblock. by rewrite (proj2 (Z.ltb_ge _ _)), (proj2 (Z.eqb_neq _ _)). Qed.
Lemma fblock_missing f i bn : NDIRECT ≤ bn → addr_at i NDIRECT = 0 → fblock f i bn = 0.
Proof. intros Hbn Ha. unfold fblock. by rewrite (proj2 (Z.ltb_ge _ _)), Ha. Qed.

(** the map reads only the inode's addresses and the indirect block *)
Lemma fblock_ext f f' i i' bn :
  (bn < NDIRECT → addr_at i' bn = addr_at i bn) → addr_at i' NDIRECT = addr_at i NDIRECT →
  (addr_at i NDIRECT ≠ 0 → f' (addr_at i NDIRECT) = f (addr_at i NDIRECT)) → fblock f' i' bn = fblock f i bn.
Proof.
  intros Hd Hi Hf. unfold fblock. destruct (Z.ltb_spec bn NDIRECT); [auto|]. rewrite Hi.
  destruct (Z.eqb_spec (addr_at i NDIRECT) 0); [done|]. by rewrite Hf.
Qed.

Lemma set_addr_at i k a j :
  length (i_addrs i) = Z.to_nat (NDIRECT + 1) → 0 ≤ k ≤ NDIRECT → 0 ≤ j →
  addr_at (set_addr k a i) j = if decide (j = k) then a else addr_at i j.
Proof.
  intros Hl Hk Hj. unfold addr_at, set_addr. cbn [i_addrs set_addrs]. unfold NDIRECT in *. case_decide as E.
  - subst j. rewrite list_lookup_total_insert_eq; [done|lia].
  - rewrite list_lookup_total_insert_ne; [done|lia].
Qed.

Lemma allocated_grows f b i :
  block_ok (f bm) → bm < b < sb_size sb → used f b = false → grows f b i (allocated sb f b).
Proof.
  intros Hok Hb Hu. constructor; [done..| | |].
  - intros j Hj. by apply used_allocated.
  - apply allocated_new.
  - intros k H1 H2 _. by apply allocated_other.
Qed.

Lemma extends_direct f i b k :
  inode_wf f i → 0 ≤ k < NDIRECT → fblock f i k = 0 → block_ok (f bm) → bm < b < sb_size sb → used f b = false →
  extends 1 f i (allocated sb f b) (set_addr k b i) ∧ fblock (allocated sb f b) (set_addr k b i) k = b.
Proof.
  intros Hw Hk H0 Hok Hb Hu. pose proof (allocated_grows f b i Hok Hb Hu) as Hg. pose proof (iw_len _ _ Hw) as Hl.
  assert (Hfb : ∀ bn, 0 ≤ bn < MAXFILE →
    fblock (allocated sb f b) (set_addr k b i) bn = if decide (bn = k) then b else fblock f i bn).
  { intros bn Hbn. case_decide as E.
    - subst bn. rewrite fblock_direct by flia. by rewrite set_addr_at, decide_True by (done || flia).
    - apply fblock_ext.
      + intros _. by rewrite set_addr_at, decide_False by (done || flia).
      + rewrite set_addr_at, decide_False; [done|flia|done|flia|done].
      + intros Ha. destruct (iw_ind _ _ Hw) as [|Hd]; [done|]. apply (data_not_new _ _ _ _ _ Hg) in Hd as [? ?].
        by apply allocated_other. }
  split; [|rewrite Hfb, decide_True; [done|done|flia]].
  apply (extends_block f i b _ _ k); try done.
  - flia.
  - cbn. apply length_insert.
  - rewrite set_addr_at, decide_False; [done|flia|done|flia|done].
Qed.

Lemma extends_indirect f i b :
  inode_wf f i → addr_at i NDIRECT = 0 → block_ok (f bm) → bm < b < sb_size sb → used f b = false →
  extends 1 f i (allocated sb f b) (set_addr NDIRECT b i) ∧
  addr_at (set_addr NDIRECT b i) NDIRECT = b ∧
  (∀ bn, 0 ≤ bn < MAXFILE → fblock (allocated sb f b) (set_addr NDIRECT b i) bn = fblock f i bn).
Proof.
  intros Hw H0 Hok Hb Hu. pose proof (allocated_grows f b i Hok Hb Hu) as Hg. pose proof (iw_len _ _ Hw) as Hl.
  pose proof (grows_pos _ _ _ _ Hg) as Hb0. set (i' := set_addr NDIRECT b i). set (f' := allocated sb f b).
  assert (Hind : addr_at i' NDIRECT = b) by (unfold i'; by rewrite set_addr_at, decide_True by (done || flia)).
  assert (Hfb : ∀ bn, 0 ≤ bn < MAXFILE → fblock f' i' bn = fblock f i bn).
  { intros bn Hbn. destruct (decide (bn < NDIRECT)) as [Hlt|Hge].
    - rewrite !fblock_direct by done. unfold i'. rewrite set_addr_at, decide_False; [done|flia|done|flia..].
    - rewrite fblock_indirect by (rewrite ?Hind; flia). rewrite (fblock_missing f i) by (done || flia).
      rewrite Hind. unfold f'. rewrite allocated_new. unfold get32, get_bytes, zero_block.
      rewrite drop_replicate, take_replicate. generalize (4 `min` (Z.to_nat BSIZE - Z.to_nat (4 * (bn - NDIRECT))))%nat.
      intros n. induction n; [done|]. cbn. by rewrite IHn. }
  split; [split|done].
  2: { intros bn Hbn. unfold fdata. rewrite Hfb by done. destruct (Z.eqb_spec (fblock f i bn) 0) as [|Hne]; [done|].
    destruct (iw_blk _ _ Hw bn Hbn) as [|Hd]; [done|]. apply (data_not_new _ _ _ _ _ Hg) in Hd as [? ?].
    by apply allocated_other. }
  constructor.
  - constructor.
    + unfold i'. cbn. rewrite length_insert. done.
    + apply Hw.
    + right. rewrite Hind. by eapply grows_data_new.
    + intros bn Hbn. rewrite Hfb by done. destruct (iw_blk _ _ Hw bn Hbn); [by left|right]. by eapply grows_data.
    + intros bn bn' Hbn Hbn'. rewrite !Hfb by done. by apply (iw_inj _ _ Hw).
    + intros bn Hbn. rewrite Hfb, Hind by done. intros Hne. destruct (iw_blk _ _ Hw bn Hbn) as [|Hd]; [done|].
      by apply (data_not_new _ _ _ _ _ Hg) in Hd as [? _].
  - intros bn Hbn _. by apply Hfb.
  - intros j. by apply grows_used with (b := b) (i := i).
  - intros x _. by apply grows_kept with (b := b).
  - intros x [Hx [->|(bn & Hbn & <-)]]; [right; by rewrite Hind|left]. rewrite Hfb in * by done.
    split; [done|right; eauto].
  - done.
  - by apply grows_nfree with (b := b) (i := i).
Qed.

(** an entry of the indirect block is filled in *)
Lemma extends_entry f i b k :
  inode_wf f i → NDIRECT ≤ k < MAXFILE → addr_at i NDIRECT ≠ 0 → fblock f i k = 0 →
  (∀ n, block_ok (f n)) → bm < b < sb_size sb → used f b = false →
  let a := addr_at i NDIRECT in
  let f' := upd (allocated sb f b) a (put32 (Z.to_nat (4 * (k - NDIRECT))) b (f a)) in
  extends 1 f i f' i ∧ fblock f' i k = b.
Proof.
  intros Hw Hk Ha H0 Hok Hb Hu a f'. pose proof (allocated_grows f b i (Hok _) Hb Hu) as [_ _ Gu Gn Go].
  destruct (iw_ind _ _ Hw) as [|Hd]; [done|]. fold a in Hd.
  assert (Hab : a ≠ b ∧ a ≠ bm) by (destruct Hd; split; [congruence|lia]). destruct Hab as [Hab Habm].
  assert (Hg : grows f b i f').
  { constructor; [done..| | |].
    - intros j Hj. unfold f', FsAlloc.used. rewrite upd_ne by done. by apply Gu.
    - unfold f'. rewrite upd_ne by done. done.
    - intros n H1 H2 H3. unfold f'. rewrite upd_ne; [by apply Go|]. intros ->. by apply Ha, H3. }
  assert (Hlen : length (f a) = 512%nat) by apply Hok.
  assert (Hfb : ∀ bn, 0 ≤ bn < MAXFILE → fblock f' i bn = if decide (bn = k) then b else fblock f i bn).
  { intros bn Hbn. destruct (decide (bn < NDIRECT)) as [Hlt|Hge].
    { rewrite decide_False by lia. by rewrite !fblock_direct. }
    rewrite !fblock_indirect by (done || lia). fold a. unfold f'. rewrite upd_eq. case_decide as E.
    - subst bn. rewrite get_put32 by flia. destruct Hgeo as [? ? _ _]. unfold u32, FSSIZE in *. apply Z.mod_small. lia.
    - apply get32_put32_ne; flia. }
  split; [|rewrite Hfb, decide_True; [done|done|flia]].
  apply (extends_block f i b _ _ k); try done; [flia|by rewrite set_addrs_id].
Qed.

(** ** bmap *)

Abbreviation fs_at := (fs_at (BL := BL)).

Lemma inode_at_runs s H f L ino ip i (Q : inode → fs S → Prop) :
  fs_at s H f L ino sb → ino !! ip = Some i → Q i s → runs (inode_at ip) s Q.
Proof.
  intros Hs Hi HQ. unfold inode_at. rprim. rewrite (at_ino _ _ _ _ _ _ Hs), Hi. by apply runs_ret.
Qed.

Lemma iupd_runs s H f L ino ip i g (Q : unit → fs S → Prop) :
  fs_at s H f L ino sb → ino !! ip = Some i →
  (∀ s', fs_at s' H f L (<[ip := g i]> ino) sb → Q () s') → runs (iupd ip g) s Q.
Proof.
  intros [? ? ? Hino ?] Hi HQ. apply runs_modify, HQ. constructor; cbn; try done.
  rewrite Hino. apply list_eq. intros j. destruct (decide (j = ip)) as [->|].
  - rewrite list_lookup_alter_eq, Hi, list_lookup_insert_eq; [done|by eapply lookup_lt_Some].
  - by rewrite list_lookup_alter_ne, list_lookup_insert_ne.
Qed.

(** a block that is there already *)
Lemma bmap_old s f L ino ip i bn (Q : Z → fs S → Prop) :
  fs_at s ∅ f L ino sb → ino !! ip = Some i → inode_wf f i → 0 ≤ bn < MAXFILE → fblock f i bn ≠ 0 →
  (size L ≤ 29)%nat → (∀ s', fs_at s' ∅ f L ino sb → Q (fblock f i bn) s') → runs (bmap ip bn) s Q.
Proof.
  intros Hs Hi Hw Hbn Hne Hsz HQ. unfold bmap, addr_or_alloc. destruct (Z.ltb_spec bn NDIRECT) as [Hlt|Hge].
  - rewrite fblock_direct in * by done. apply runs_bind. eapply inode_at_runs; [done..|].
    rewrite (proj2 (Z.eqb_neq _ _)) by done. apply runs_ret. auto.
  - assert (Ha : addr_at i NDIRECT ≠ 0) by (intros E; by rewrite fblock_missing in Hne).
    rewrite (proj2 (Z.ltb_lt _ _)) by (change NINDIRECT with 128; flia). cbv zeta.
    apply runs_bind, runs_bind. eapply inode_at_runs; [done..|]. rewrite (proj2 (Z.eqb_neq _ _)) by done.
    apply runs_ret, runs_bind. eapply inode_at_runs; [done..|]. rewrite (iw_dev _ _ Hw).
    destruct (iw_ind _ _ Hw) as [|[Hr _]]; [done|].
    apply runs_bind. eapply wp_bread; [done|by apply Hgeo|rewrite held_empty; apply not_elem_of_empty|rewrite held_empty, size_empty; lia|].
    intros bp s1 _ Hs1. rprim. rewrite (held_data _ _ _ _ _ _ _ _ _ Hs1 (lookup_insert_eq _ _ _)).
    rewrite fblock_indirect in * by done. rewrite (proj2 (Z.eqb_neq _ _)) by done. apply runs_bind, runs_ret, runs_bind.
    eapply wp_brelse; [done|apply lookup_insert_eq|]. intros s2 Hs2. rewrite delete_insert_id in Hs2 by done.
    apply runs_ret. auto.
Qed.

Lemma nfree_pos f : (1 ≤ nfree f)%nat → ∃ b, 0 ≤ b < sb_size sb ∧ used f b = false.
Proof.
  unfold nfree. destruct (filter _ _) as [|b l] eqn:E; [cbn; lia|]. intros _. exists b.
  assert (Hb : b ∈ filter (λ b, used f b = false) (seqZ 0 (sb_size sb))) by (rewrite E; apply list_elem_of_here).
  apply list_elem_of_filter in Hb as [? [? ?]%elem_of_seqZ]. split; [lia|done].
Qed.

Lemma evolves_reserved n f i f' i' : evolves n f i f' i' → reserved sb f → reserved sb f'.
Proof.
  intros Hx Hr b Hb. apply (ex_used _ _ _ _ _ Hx); [|auto]. destruct Hgeo as [? ? _ _].
  unfold BPB, BSIZE, FSSIZE in *. lia.
Qed.

Lemma size_log2 (L : gset Z) a b : (size ({[ a ]} ∪ ({[ b ]} ∪ L)) ≤ 2 + size L)%nat.
Proof. pose proof (size_insert_le ({[ b ]} ∪ L) a). pose proof (size_insert_le L b). lia. Qed.

Lemma addr_alloc s f L ino ip i k (Q : Z → fs S → Prop) :
  fs_at s ∅ f L ino sb → ino !! ip = Some i → i_dev i = 1 → addr_at i k = 0 → reserved sb f →
  (size L ≤ 27)%nat → (1 ≤ nfree f)%nat →
  (∀ b s', bm < b < sb_size sb → used f b = false →
     fs_at s' ∅ (allocated sb f b) ({[ b ]} ∪ ({[ bm ]} ∪ L)) (<[ip := set_addr k b i]> ino) sb → Q b s') →
  runs (addr_or_alloc ip k) s Q.
Proof.
  intros Hs Hi Hdev H0 Hr Hsz Hfree HQ. unfold addr_or_alloc. apply runs_bind. eapply inode_at_runs; [done..|].
  rewrite H0, Hdev. change (0 =? 0) with true. cbv iota. apply runs_bind.
  eapply balloc_runs; [done..| | |rewrite held_empty, size_empty; lia|by apply nfree_pos|].
  - rewrite held_empty. apply not_elem_of_empty.
  - intros b. rewrite held_empty. by intros ?%not_elem_of_empty.
  - intros b s1 Hb Hu _ Hs1. apply runs_bind. eapply iupd_runs; [done..|]. intros s2 Hs2. apply runs_ret. auto.
Qed.

(** the entry of the indirect block, when it is empty *)
Lemma entry_alloc s f L ino ip i k (Q : Z → fs S → Prop) :
  fs_at s ∅ f L ino sb → ino !! ip = Some i → inode_wf f i → NDIRECT ≤ k < MAXFILE →
  addr_at i NDIRECT ≠ 0 → fblock f i k = 0 → reserved sb f → (size L ≤ 26)%nat → (1 ≤ nfree f)%nat →
  (∀ f' L' s', fs_at s' ∅ f' L' ino sb → extends 1 f i f' i → fblock f' i k ≠ 0 → (size L' ≤ size L + 3)%nat →
     Q (fblock f' i k) s') →
  runs (
    j ← inode_at ip;
    bp ← sub (bread (i_dev j) (addr_at i NDIRECT));
    data ← gets (λ s, bdata bp (f_sub s));
    addr ← (if get32 (Z.to_nat (4 * (k - NDIRECT))) data =? 0 then
              a ← balloc (i_dev j);
              data ← gets (λ s, bdata bp (f_sub s));
              _ ← sub (set_bdata bp (put32 (Z.to_nat (4 * (k - NDIRECT))) a data));
              _ ← sub (log_write bp);
              mret a
            else mret (get32 (Z.to_nat (4 * (k - NDIRECT))) data));
    _ ← sub (brelse bp);
    mret addr) s Q.
Proof.
  intros Hs Hi Hw Hk Ha H0 Hr Hsz Hfree HQ. apply runs_bind. eapply inode_at_runs; [done..|]. rewrite (iw_dev _ _ Hw).
  destruct (iw_ind _ _ Hw) as [|[Hrg Hus]]; [done|].
  assert (He : held ∅ = ∅) by apply held_empty.
  apply runs_bind. eapply wp_bread; [done|by apply Hgeo|rewrite He; apply not_elem_of_empty|rewrite He, size_empty; lia|].
  intros bp s1 _ Hs1. rprim. rewrite (held_data _ _ _ _ _ _ _ _ _ Hs1 (lookup_insert_eq _ _ _)).
  rewrite fblock_indirect in H0 by (done || lia). rewrite H0. change (0 =? 0) with true. cbv iota.
  assert (Hh : ∀ x, x ∈ held (<[bp := (addr_at i NDIRECT, false)]> ∅) → x = addr_at i NDIRECT).
  { intros x (j & m & [[_ ?]|[_ ?]]%lookup_insert_Some)%elem_of_held; [congruence|done]. }
  assert (Hh1 : (size (held (<[bp := (addr_at i NDIRECT, false)]> ∅)) ≤ 1)%nat).
  { rewrite <- (size_singleton (C := gset Z) (addr_at i NDIRECT)). apply subseteq_size. set_solver. }
  apply runs_bind, runs_bind. eapply balloc_runs; [done..| | |lia|by apply nfree_pos|].
  { intros Hin%Hh. lia. } { by intros b ->%Hh. }
  intros b s2 Hb Hu _ Hs2. rprim. rewrite (held_data _ _ _ _ _ _ _ _ _ Hs2 (lookup_insert_eq _ _ _)).
  pose proof (size_log2 L b bm) as HL2.
  assert (Hfa : allocated sb f b (addr_at i NDIRECT) = f (addr_at i NDIRECT)) by (apply allocated_other; [congruence|lia]).
  rewrite Hfa. apply runs_bind. eapply wp_set; [done|apply lookup_insert_eq| |].
  { apply put_bytes_ok; [by eapply fs_at_blk_ok|change (length (le32 b)) with 4%nat; flia|apply le32_bytes]. }
  intros s3 Hs3. rewrite insert_insert_eq in Hs3. apply runs_bind.
  eapply wp_log; [done|apply lookup_insert_eq|by apply Hgeo|lia|]. intros s4 Hs4. rewrite insert_insert_eq in Hs4.
  apply runs_ret, runs_bind. eapply wp_brelse; [done|apply lookup_insert_eq|]. intros s5 Hs5.
  rewrite delete_insert_id in Hs5 by done. apply runs_ret.
  destruct (extends_entry f i b k) as [Hx Hfb]; try done.
  { by rewrite fblock_indirect by (done || lia). } { intros n. by eapply fs_at_blk_ok. }
  rewrite <- Hfb at 1. eapply HQ; [done..| |].
  - rewrite Hfb. destruct Hgeo as [_ ? _ _]. lia.
  - pose proof (size_insert_le ({[ b ]} ∪ ({[ bm ]} ∪ L)) (addr_at i NDIRECT)). lia.
Qed.

(** a block that is missing *)
Lemma bmap_new s f L ino ip i bn (Q : Z → fs S → Prop) :
  fs_at s ∅ f L ino sb → ino !! ip = Some i → inode_wf f i → 0 ≤ bn < MAXFILE → fblock f i bn = 0 →
  reserved sb f → (size L ≤ 24)%nat → (2 ≤ nfree f)%nat →
  (∀ f' i' L' s', fs_at s' ∅ f' L' (<[ip := i']> ino) sb → extends 2 f i f' i' → fblock f' i' bn ≠ 0 →
     (size L' ≤ size L + 5)%nat → Q (fblock f' i' bn) s') →
  runs (bmap ip bn) s Q.
Proof.
  intros Hs Hi Hw Hbn H0 Hr Hsz Hfree HQ. unfold bmap. pose proof (lookup_lt_Some _ _ _ Hi) as Hip.
  assert (Hbo : ∀ n, block_ok (f n)) by (intros n; by eapply fs_at_blk_ok).
  destruct (Z.ltb_spec bn NDIRECT) as [Hlt|Hge].
  - eapply addr_alloc; [done|done|apply Hw|by rewrite <- (fblock_direct f)|done|lia|lia|].
    intros b s1 Hb Hu Hs1. destruct (extends_direct f i b bn) as [Hx Hfb]; try done; [lia|].
    rewrite <- Hfb at 1. eapply HQ; [done|eapply extends_le; [exact Hx|lia]| |].
    + rewrite Hfb. destruct Hgeo as [_ ? _ _]. lia.
    + pose proof (size_log2 L b bm). lia.
  - rewrite (proj2 (Z.ltb_lt _ _)) by (change NINDIRECT with 128; flia). cbv zeta. apply runs_bind.
    destruct (decide (addr_at i NDIRECT = 0)) as [Ha|Ha].
    + eapply addr_alloc; [done|done|apply Hw|done|done|lia|lia|]. intros b s1 Hb Hu Hs1.
      destruct (extends_indirect f i b) as (Hx & Hind & Hfb); try done. pose proof (size_log2 L b bm) as HL.
      pose proof (ex_free _ _ _ _ _ (proj1 Hx)) as Hfr.
      rewrite <- Hind. eapply (entry_alloc s1 _ _ _ ip (set_addr NDIRECT b i)); [done| |apply Hx|lia| | | |lia|lia|].
      { rewrite list_lookup_insert_eq; done. } { rewrite Hind. destruct Hgeo as [_ ? _ _]. lia. }
      { by rewrite Hfb. } { eapply evolves_reserved; [apply Hx|done]. }
      intros f' L' s' Hs' Hx' Hne HL'. eapply HQ; [done|by eapply (extends_trans 1 1)|done|lia].
    + unfold addr_or_alloc. apply runs_bind. eapply inode_at_runs; [done..|]. rewrite (proj2 (Z.eqb_neq _ _)) by done.
      apply runs_ret. eapply entry_alloc; try done; [lia|lia|lia|]. intros f' L' s' Hs' Hx' Hne HL'.
      apply (HQ f' i L' s'); [|eapply extends_le; [exact Hx'|lia]|done|lia]. by rewrite list_insert_id.
Qed.
End map.
