(* ===== verification/FsRw.v ===== *)
(** * Reading and writing files

    [readi] returns and [writei] changes the contents of a file: [content f i] is
    the bytes of the file that the inode [i] describes when the blocks of the disk
    have the contents [f]. *)

From S2P Require Import Prelude Block Bio BioSpec Fs FsLaws FsBits FsAlloc FsMap.

(** the byte at offset [o] *)
Definition fbyte (f : Z → list Z) (i : inode) (o : Z) : Z := fdata f i (o / BSIZE) !!! Z.to_nat (o mod BSIZE).
Definition content (f : Z → list Z) (i : inode) : list Z := fbyte f i <$> seqZ 0 (i_size i).

(** the blocks that a transfer of [k] bytes from [off] on goes through *)
Definition rounds (off k : Z) : Z := if k <=? 0 then 0 else (off mod BSIZE + k + (BSIZE - 1)) / BSIZE.

Definition MAXBYTES : Z := MAXFILE * BSIZE.

Lemma rounds_nonneg off k : 0 ≤ rounds off k.
Proof.
  unfold rounds. destruct (Z.leb_spec k 0); [lia|]. pose proof (Z.mod_pos_bound off BSIZE).
  apply Z.div_pos; unfold BSIZE in *; lia.
Qed.

Lemma rounds_step off k : 0 ≤ off → 0 < k →
  let m := Z.min k (BSIZE - off mod BSIZE) in
  0 < m ≤ k ∧ off mod BSIZE + m ≤ BSIZE ∧ rounds (off + m) (k - m) + 1 ≤ rounds off k.
Proof.
  intros Hoff Hk m. pose proof (Z.mod_pos_bound off BSIZE ltac:(done)) as Hmod.
  split_and!; [unfold m, BSIZE in *; lia..|].
  unfold rounds at 2. rewrite (proj2 (Z.leb_gt _ _)) by lia.
  destruct (decide (k ≤ BSIZE - off mod BSIZE)) as [Hle|Hgt].
  - assert (m = k) as -> by (unfold m; lia). unfold rounds. rewrite (proj2 (Z.leb_le _ _)) by lia.
    apply Z.div_le_lower_bound; unfold BSIZE in *; lia.
  - assert (Hm : m = BSIZE - off mod BSIZE) by (unfold m; lia).
    assert (Hz : (off + m) mod BSIZE = 0).
    { rewrite Hm. replace (off + (BSIZE - off mod BSIZE)) with ((off / BSIZE + 1) * BSIZE).
      - apply Z.mod_mul. done.
      - pose proof (Z.div_mod off BSIZE ltac:(done)). lia. }
    unfold rounds. rewrite (proj2 (Z.leb_gt _ _)) by lia. rewrite Hz.
    replace (off mod BSIZE + k + (BSIZE - 1)) with (0 + (k - m) + (BSIZE - 1) + 1 * BSIZE) by lia.
    rewrite Z.div_add by done. lia.
Qed.

Lemma rounds_fuel off n : 0 ≤ n → rounds off n < Z.of_nat (io_fuel n).
Proof.
  intros Hn. unfold io_fuel, rounds. pose proof (Z.mod_pos_bound off BSIZE ltac:(done)).
  pose proof (Z.div_pos n BSIZE Hn ltac:(done)). destruct (Z.leb_spec n 0); [lia|].
  rewrite Z2Nat.id by lia. apply Z.div_lt_upper_bound; [done|].
  pose proof (Z.div_mod n BSIZE ltac:(done)). pose proof (Z.mod_pos_bound n BSIZE ltac:(done)). unfold BSIZE in *. lia.
Qed.

(** the offsets of one block *)
Lemma block_offsets off j : 0 ≤ off → 0 ≤ j → off mod BSIZE + j < BSIZE →
  (off + j) / BSIZE = off / BSIZE ∧ (off + j) mod BSIZE = off mod BSIZE + j.
Proof.
  intros Hoff Hj Hlt. pose proof (Z.div_mod off BSIZE ltac:(done)). pose proof (Z.mod_pos_bound off BSIZE ltac:(done)).
  split; [symmetry; apply (Z.div_unique_pos _ _ _ (off mod BSIZE + j))|symmetry; apply (Z.mod_unique_pos _ _ (off / BSIZE))]; lia.
Qed.

Lemma get_bytes_fbyte f i off m :
  0 ≤ off → 0 ≤ m → off mod BSIZE + m ≤ BSIZE → block_ok (fdata f i (off / BSIZE)) →
  get_bytes (Z.to_nat (off mod BSIZE)) (Z.to_nat m) (fdata f i (off / BSIZE)) = fbyte f i <$> seqZ off m.
Proof.
  intros Hoff Hm Hle [Hl _]. pose proof (Z.mod_pos_bound off BSIZE ltac:(done)) as Hmod. apply list_eq. intros j.
  rewrite list_lookup_fmap. destruct (decide (Z.of_nat j < m)) as [Hj|Hj].
  - rewrite lookup_get_bytes, lookup_seqZ_lt by lia. cbn.
    destruct (block_offsets off (Z.of_nat j)) as [E1 E2]; [lia..|]. unfold fbyte. rewrite E1, E2.
    replace (Z.to_nat (off mod BSIZE + Z.of_nat j)) with (Z.to_nat (off mod BSIZE) + j)%nat by lia.
    apply list_lookup_lookup_total_lt. rewrite Hl. lia.
  - rewrite lookup_seqZ_ge by lia. cbn. apply lookup_ge_None_2. rewrite length_get_bytes; [lia|]. rewrite Hl. lia.
Qed.

Section rw.
  Context {S : Type} {BO : BufOps S} {BL : BufLaws S} (sb : superblock) (Hgeo : fs_geo (BL := BL) sb).

Abbreviation bm := (sb_bmapstart sb).
Abbreviation inode_wf := (inode_wf sb).
Abbreviation evolves := (evolves sb).
Abbreviation nfree := (nfree sb).

(** no block is missing from [off] to [off + k] *)
Definition present (f : Z → list Z) (i : inode) (off k : Z) : Prop :=
  0 < k → ∀ bn, off / BSIZE ≤ bn → bn * BSIZE < off + k → fblock f i bn ≠ 0.

Lemma fdata_ok f i bn : (∀ n, block_ok (f n)) → block_ok (fdata f i bn).
Proof. intros Hf. unfold fdata. case_match; [apply zero_block_ok|apply Hf]. Qed.

Lemma block_range off k : 0 ≤ off → 0 < k → off + k ≤ MAXBYTES → 0 ≤ off / BSIZE < MAXFILE.
Proof.
  intros H1 H2 H3. unfold MAXBYTES in *. split; [apply Z.div_pos; [lia|done]|]. apply Z.div_lt_upper_bound; [done|lia].
Qed.

Lemma block_start off : off / BSIZE * BSIZE ≤ off.
Proof. pose proof (Z.mul_div_le off BSIZE ltac:(done)). lia. Qed.

Lemma readi_loop_runs fuel : ∀ s f L ino ip i tot n off,
  fs_at (BL := BL) s ∅ f L ino sb → ino !! ip = Some i → inode_wf f i → (size L ≤ 29)%nat →
  0 ≤ off → off + (n - tot) ≤ MAXBYTES → rounds off (n - tot) < Z.of_nat fuel → present f i off (n - tot) →
  runs (readi_loop fuel ip tot n off) s (λ data s', data = fbyte f i <$> seqZ off (n - tot) ∧ fs_at s' ∅ f L ino sb).
Proof.
  induction fuel as [|fuel IH]; intros s f L ino ip i tot n off Hs Hi Hw HL Hoff Hmax Hfuel Hpr.
  { pose proof (rounds_nonneg off (n - tot)). lia. }
  cbn [readi_loop]. destruct (Z.ltb_spec tot n) as [Hlt|Hge].
  2: { apply runs_ret. split; [|done]. rewrite seqZ_nil by lia. done. }
  destruct (rounds_step off (n - tot) Hoff ltac:(lia)) as (Hm & Hfit & Hrd). set (m := Z.min _ _) in *.
  pose proof (block_range off (n - tot) Hoff ltac:(lia) Hmax) as Hbn. pose proof (block_start off) as Hst.
  assert (Hne : fblock f i (off / BSIZE) ≠ 0) by (apply Hpr; lia).
  apply runs_bind. eapply inode_at_runs; [done..|]. apply runs_bind. eapply bmap_old; [done..|]. intros s1 Hs1.
  rewrite (iw_dev _ _ _ Hw). destruct (iw_blk _ _ _ Hw _ Hbn) as [|[Hr _]]; [done|]. apply runs_bind.
  eapply wp_bread; [done|by apply Hgeo|rewrite held_empty; apply not_elem_of_empty|rewrite held_empty, size_empty; lia|].
  intros bp s2 _ Hs2. rprim. rewrite (held_data _ _ _ _ _ _ _ _ _ Hs2 (lookup_insert_eq _ _ _)).
  apply runs_bind. eapply wp_brelse; [done|apply lookup_insert_eq|]. intros s3 Hs3. rewrite delete_insert_id in Hs3 by done.
  eapply runs_bind_mono; [apply (IH s3 f L ino ip i); try done; [lia|lia| |]|].
  - replace (n - (tot + m)) with (n - tot - m) by lia. lia.
  - intros Hk bn H1 H2. apply Hpr; [lia| |lia]. pose proof (Z.div_le_mono off (off + m) BSIZE ltac:(done) ltac:(lia)). lia.
  - cbn beta. intros rest s4 [-> Hs4]. apply runs_ret. split; [|done].
    assert (Hfd : f (fblock f i (off / BSIZE)) = fdata f i (off / BSIZE)).
    { unfold fdata. by rewrite (proj2 (Z.eqb_neq _ _)). }
    rewrite Hfd, get_bytes_fbyte by (lia || (apply fdata_ok; intros; by eapply fs_at_blk_ok)).
    rewrite <- fmap_app. f_equal. rewrite <- seqZ_app by lia. f_equal. lia.
Qed.

(** ** Writing a block of the file *)

Lemma write_block f i bn v :
  inode_wf f i → 0 ≤ bn < MAXFILE → fblock f i bn ≠ 0 →
  let f' := upd f (fblock f i bn) v in
  evolves 0 f i f' i ∧
  (∀ bn', 0 ≤ bn' < MAXFILE → fblock f' i bn' = fblock f i bn') ∧
  (∀ bn', 0 ≤ bn' < MAXFILE → fdata f' i bn' = if decide (bn' = bn) then v else fdata f i bn').
Proof.
  intros Hw Hbn Hne f'. set (b := fblock f i bn) in *.
  destruct (iw_blk _ _ _ Hw bn Hbn) as [|[Hr Hu]]; [done|]. fold b in Hr, Hu.
  assert (Hsep : b ≠ addr_at i NDIRECT) by by apply (iw_sep _ _ _ Hw).
  assert (Hus : ∀ j, used sb f' j = used sb f j) by (intros j; unfold used, f'; rewrite upd_ne by lia; done).
  assert (Hdb : ∀ x, data_block sb f x → data_block sb f' x) by (intros x [? ?]; split; [done|by rewrite Hus]).
  assert (Hfb : ∀ bn', fblock f' i bn' = fblock f i bn').
  { intros bn'. apply fblock_ext; [done..|]. intros _. unfold f'. by rewrite upd_ne. }
  split_and!; [|by intros..|].
  - constructor; try done.
    + constructor; try apply Hw.
      * destruct (iw_ind _ _ _ Hw); auto.
      * intros bn' Hb'. rewrite Hfb. destruct (iw_blk _ _ _ Hw bn' Hb'); auto.
      * intros bn1 bn2. rewrite !Hfb. apply Hw.
      * intros bn'. rewrite Hfb. apply Hw.
    + intros j _. by rewrite Hus.
    + intros k _ _ _ Ho. unfold f'. apply upd_ne. intros ->. apply Ho. split; [done|right; eauto].
    + intros k [Hk [->|(bn' & Hb' & <-)]]; left; (split; [done|]); [by left|right]. rewrite Hfb. eauto.
    + by rewrite set_addrs_id.
    + apply Nat.eq_le_incl. rewrite Nat.add_0_r. unfold FsMap.nfree. f_equal. apply list_filter_iff. intros x. by rewrite Hus.
  - intros bn' Hb'. unfold fdata. rewrite Hfb. case_decide as E.
    + subst bn'. rewrite (proj2 (Z.eqb_neq _ _)) by done. unfold f'. apply upd_eq.
    + destruct (Z.eqb_spec (fblock f i bn') 0) as [|Hne']; [done|]. unfold f'. apply upd_ne.
      intros E'. apply E. by apply (iw_inj _ _ _ Hw).
Qed.

(** [src] written at [off] *)
Definition overlay (g : Z → Z) (off : Z) (src : list Z) : Z → Z :=
  λ o, if decide (off ≤ o < off + Z.of_nat (length src)) then src !!! Z.to_nat (o - off) else g o.

Lemma lookup_total_put_bytes off bs data j :
  (off + length bs ≤ length data)%nat →
  put_bytes off bs data !!! j = if decide (off ≤ j < off + length bs)%nat then bs !!! (j - off)%nat else data !!! j.
Proof. intros H. rewrite !list_lookup_total_alt, lookup_put_bytes by done. by case_decide. Qed.

(** the bytes of the file after [put_bytes] in one of its blocks *)
Lemma fbyte_put f i f' i' off c :
  0 ≤ off → off mod BSIZE + Z.of_nat (length c) ≤ BSIZE → (0 < length c)%nat → (∀ n, block_ok (f n)) →
  (∀ bn, 0 ≤ bn < MAXFILE → fdata f' i' bn =
     if decide (bn = off / BSIZE) then put_bytes (Z.to_nat (off mod BSIZE)) c (fdata f i bn) else fdata f i bn) →
  ∀ o, 0 ≤ o < MAXBYTES → fbyte f' i' o = overlay (fbyte f i) off c o.
Proof.
  intros Hoff Hfit Hc Hok Hfd o Ho. unfold fbyte, overlay. pose proof (Z.mod_pos_bound off BSIZE ltac:(done)) as Hmod.
  pose proof (Z.mod_pos_bound o BSIZE ltac:(done)) as Hmo.
  pose proof (Z.div_mod o BSIZE ltac:(done)). pose proof (Z.div_mod off BSIZE ltac:(done)).
  destruct (fdata_ok f i (o / BSIZE) Hok) as [Hlen _].
  rewrite Hfd by (split; [apply Z.div_pos; [lia|done]|apply Z.div_lt_upper_bound; [done|unfold MAXBYTES in *; lia]]).
  destruct (decide (off ≤ o < off + Z.of_nat (length c))) as [Hin|Hout].
  - destruct (block_offsets off (o - off)) as [E1 E2]; [lia..|]. replace (off + (o - off)) with o in * by lia.
    rewrite decide_True by done. rewrite lookup_total_put_bytes by (rewrite Hlen; lia).
    rewrite decide_True by lia. f_equal. lia.
  - case_decide as E; [|done]. rewrite lookup_total_put_bytes by (rewrite Hlen; lia).
    rewrite decide_False; [done|]. intros Hj. apply Hout. rewrite E in *. lia.
Qed.

(** ** The block map for reading or writing *)

Lemma bmap_any s f L ino ip i bn (Q : Z → fs S → Prop) :
  fs_at (BL := BL) s ∅ f L ino sb → ino !! ip = Some i → inode_wf f i → reserved sb f → 0 ≤ bn < MAXFILE →
  (size L ≤ 24)%nat → (2 ≤ nfree f)%nat →
  (∀ f' i' L' s', fs_at s' ∅ f' L' (<[ip := i']> ino) sb → extends sb 2 f i f' i' → fblock f' i' bn ≠ 0 →
     (size L' ≤ size L + 5)%nat → (fblock f i bn ≠ 0 → i' = i) → Q (fblock f' i' bn) s') →
  runs (bmap ip bn) s Q.
Proof.
  intros Hs Hi Hw Hr Hbn HL Hfree HQ. destruct (decide (fblock f i bn = 0)) as [H0|Hne].
  - eapply bmap_new; [done..|]. intros f' i' L' s' Hs' Hx Hn HL'. by eapply HQ.
  - eapply bmap_old; [done..|lia|]. intros s' Hs'. eapply HQ; [by rewrite list_insert_id|..]; try done; [|lia].
    split; [|done]. eapply evolves_le; [by apply evolves_refl|lia].
Qed.

(** ** The loop of [writei] *)

Lemma overlay_ext g g' off src o : g o = g' o → overlay g off src o = overlay g' off src o.
Proof. intros E. unfold overlay. by rewrite E. Qed.

Lemma overlay_split g off m src o :
  (m ≤ length src)%nat →
  overlay (overlay g off (take m src)) (off + Z.of_nat m) (drop m src) o = overlay g off src o.
Proof.
  intros Hm. unfold overlay. rewrite length_take, length_drop, Nat.min_l by done.
  repeat case_decide; try lia; try done.
  - rewrite lookup_total_drop. f_equal. lia.
  - by rewrite lookup_total_take, decide_True by lia.
Qed.

Lemma present_split f i off m k :
  0 ≤ off → 0 < m ≤ k → off mod BSIZE + m ≤ BSIZE →
  present f i off k ↔ fblock f i (off / BSIZE) ≠ 0 ∧ present f i (off + m) (k - m).
Proof.
  intros Hoff Hm Hfit. pose proof (Z.div_mod off BSIZE ltac:(done)). pose proof (block_start off).
  assert (Hle : (off + m) / BSIZE ≤ off / BSIZE + 1).
  { apply Z.lt_succ_r, Z.div_lt_upper_bound; [done|]. unfold BSIZE in *. lia. }
  pose proof (Z.div_le_mono off (off + m) BSIZE ltac:(done) ltac:(lia)). split.
  - intros Hp. split; [apply Hp; lia|]. intros Hk bn Hb1 Hb2. apply Hp; lia.
  - intros [Hb Hp] Hk bn Hb1 Hb2. destruct (decide (bn = off / BSIZE)) as [->|]; [done|].
    apply Hp; [unfold BSIZE in *; lia|lia..].
Qed.

Lemma present_evolves n f i f' i' off k :
  evolves n f i f' i' → 0 ≤ off → off + k ≤ MAXBYTES → present f i off k → present f' i' off k.
Proof.
  intros Hx Hoff Hmax Hp Hk bn H1 H2. assert (0 ≤ bn < MAXFILE).
  { pose proof (Z.div_pos off BSIZE Hoff ltac:(done)). unfold MAXBYTES, BSIZE in *. lia. }
  rewrite (ex_mono _ _ _ _ _ _ Hx); auto.
Qed.

(** one round: the block is found and [c] is put into it *)
Lemma write_round s f L ino ip i off c (k : M (fs S) Z) (Q : Z → fs S → Prop) :
  fs_at (BL := BL) s ∅ f L ino sb → ino !! ip = Some i → inode_wf f i → reserved sb f →
  0 ≤ off < MAXBYTES → (0 < length c)%nat → off mod BSIZE + Z.of_nat (length c) ≤ BSIZE → Forall (λ b, is_u8 b) c →
  (size L ≤ 23)%nat → (2 ≤ nfree f)%nat →
  (∀ f' i' L' s', fs_at s' ∅ f' L' (<[ip := i']> ino) sb → evolves 2 f i f' i' →
     (∀ o, 0 ≤ o < MAXBYTES → fbyte f' i' o = overlay (fbyte f i) off c o) → fblock f' i' (off / BSIZE) ≠ 0 →
     (size L' ≤ size L + 6)%nat → (fblock f i (off / BSIZE) ≠ 0 → i' = i) → runs k s' Q) →
  runs (bno ← bmap ip (off / BSIZE);
        bp ← sub (bread (i_dev i) bno);
        data ← gets (λ s, bdata bp (f_sub s));
        _ ← sub (set_bdata bp (put_bytes (Z.to_nat (off mod BSIZE)) c data));
        _ ← sub (log_write bp);
        _ ← sub (brelse bp);
        k) s Q.
Proof.
  intros Hs Hi Hw Hr Hoff Hc Hfit Hby HL Hfree HQ.
  assert (Hbn : 0 ≤ off / BSIZE < MAXFILE) by (apply (block_range off 1); lia).
  apply runs_bind. eapply bmap_any; [done..|lia|done|]. intros f1 i1 L1 s1 Hs1 [Hx1 Hd1] Hne1 HL1 Hsame.
  rewrite (iw_dev _ _ _ Hw). pose proof (ex_wf _ _ _ _ _ _ Hx1) as Hw1.
  destruct (iw_blk _ _ _ Hw1 _ Hbn) as [|[Hrg _]]; [done|]. apply runs_bind.
  eapply wp_bread; [done|by apply Hgeo|rewrite held_empty; apply not_elem_of_empty|rewrite held_empty, size_empty; lia|].
  intros bp s2 _ Hs2. rprim. rewrite (held_data _ _ _ _ _ _ _ _ _ Hs2 (lookup_insert_eq _ _ _)).
  assert (Hbo : ∀ n, block_ok (f1 n)) by (intros n; by eapply fs_at_blk_ok).
  pose proof (Z.mod_pos_bound off BSIZE ltac:(done)) as Hmod.
  eapply wp_update; [done|done|by apply Hgeo| |lia|].
  { apply put_bytes_ok; [done| |done]. unfold BSIZE in *. lia. }
  intros s3 Hs3. set (v := put_bytes _ _ _) in Hs3.
  destruct (write_block f1 i1 (off / BSIZE) v Hw1 Hbn Hne1) as (Hx2 & Hfb2 & Hfd2).
  eapply HQ; [exact Hs3|by eapply (evolves_trans _ Hgeo 2 0)| |by rewrite Hfb2| |done].
  - assert (Hfd1 : f1 (fblock f1 i1 (off / BSIZE)) = fdata f1 i1 (off / BSIZE)).
    { unfold fdata. by rewrite (proj2 (Z.eqb_neq _ _)). }
    apply fbyte_put; [lia|done|done|intros n; by eapply fs_at_blk_ok|].
    intros bn Hb. rewrite Hfd2 by done. case_decide as E; [|by apply Hd1]. subst bn. unfold v. by rewrite Hfd1, Hd1.
  - pose proof (size_insert_le L1 (fblock f1 i1 (off / BSIZE))). lia.
Qed.

Lemma writei_loop_runs fuel : ∀ s f L ino ip i src tot n off (Q : Z → fs S → Prop),
  fs_at (BL := BL) s ∅ f L ino sb → ino !! ip = Some i → inode_wf f i → reserved sb f → 0 ≤ off →
  Z.of_nat (length src) = n - tot → off + (n - tot) ≤ MAXBYTES → Forall (λ b, is_u8 b) src →
  rounds off (n - tot) < Z.of_nat fuel → Z.of_nat (size L) + 6 * rounds off (n - tot) ≤ 29 →
  2 * rounds off (n - tot) ≤ Z.of_nat (nfree f) →
  (∀ f' i' L' s', fs_at s' ∅ f' L' (<[ip := i']> ino) sb → evolves (Z.to_nat (2 * rounds off (n - tot))) f i f' i' →
     (∀ o, 0 ≤ o < MAXBYTES → fbyte f' i' o = overlay (fbyte f i) off src o) → present f' i' off (n - tot) →
     Z.of_nat (size L') ≤ Z.of_nat (size L) + 6 * rounds off (n - tot) → (present f i off (n - tot) → i' = i) →
     Q (off + (n - tot)) s') →
  runs (writei_loop fuel ip src tot n off) s Q.
Proof.
  induction fuel as [|fuel IH]; intros s f L ino ip i src tot n off Q Hs Hi Hw Hr Hoff Hlen Hmax Hby Hfuel HL Hfree HQ.
  { pose proof (rounds_nonneg off (n - tot)). lia. }
  cbn [writei_loop]. destruct (Z.ltb_spec tot n) as [Hlt|Hge].
  2: { apply runs_ret. assert (n - tot = 0) as Ek by lia. rewrite Ek in *.
    assert (src = []) as -> by (apply nil_length_inv; lia). replace off with (off + 0) at 1 by lia.
    eapply HQ; [by rewrite list_insert_id|by apply evolves_refl| | | |done].
    - intros o _. unfold overlay. by rewrite decide_False by (cbn; lia).
    - intros Hk. lia.
    - pose proof (rounds_nonneg off 0). lia. }
  destruct (rounds_step off (n - tot) Hoff ltac:(lia)) as (Hm & Hfit & Hrd). set (m := Z.min _ _) in *.
  pose proof (rounds_nonneg (off + m) (n - tot - m)) as Hrn.
  assert (Hmn : (Z.to_nat m ≤ length src)%nat) by lia.
  apply runs_bind. eapply inode_at_runs; [done..|].
  eapply (write_round s f L ino ip i off (take (Z.to_nat m) src)); [done..|lia| | | |lia|lia|].
  { rewrite length_take. lia. } { rewrite length_take. lia. } { by apply Forall_take. }
  intros f1 i1 L1 s1 Hs1 Hx1 Hb1 Hne1 HL1 Hsame1. pose proof (ex_free _ _ _ _ _ _ Hx1) as Hfr1.
  pose proof (lookup_lt_Some _ _ _ Hi) as Hip.
  eapply (IH s1 f1 L1 _ ip i1); [exact Hs1|by rewrite list_lookup_insert_eq|apply Hx1|by eapply evolves_reserved|lia| |lia| | | | |];
    replace (n - (tot + m)) with (n - tot - m) by lia; [rewrite length_drop; lia|by apply Forall_drop|lia|lia|lia|].
  intros f' i' L' s' Hs' Hx' Hb' Hp' HL' Hsame'. rewrite list_insert_insert_eq in Hs'.
  replace (off + m + (n - tot - m)) with (off + (n - tot)) by lia.
  eapply HQ; [exact Hs'| | | |lia|].
  - eapply evolves_le; [by eapply (evolves_trans _ Hgeo 2)|]. lia.
  - intros o Ho. rewrite Hb' by done. rewrite <- (overlay_split _ off (Z.to_nat m) src) by done.
    replace (off + Z.of_nat (Z.to_nat m)) with (off + m) by lia. apply overlay_ext. by apply Hb1.
  - apply (present_split _ _ off m); [lia..|]. split; [|done].
    assert (0 ≤ off / BSIZE < MAXFILE) by (apply (block_range off (n - tot)); lia).
    by rewrite (ex_mono _ _ _ _ _ _ Hx').
  - intros Hp. apply (present_split _ _ off m) in Hp as [Hp0 Hp1]; [|lia..].
    rewrite Hsame', Hsame1; [done|done|]. by eapply present_evolves; [done|lia|lia|].
Qed.

(** ** iupdate *)

(** the inode's place on disk *)
Definition inode_place (i : inode) : Prop :=
  0 ≤ i_inum i ∧ bhome (BufLaws := BL) (IBLOCK (i_inum i) sb) ∧ 0 ≤ IBLOCK (i_inum i) sb < bm.

Definition synced (f : Z → list Z) (i : inode) : Prop :=
  get_bytes (dip_off (i_inum i)) (Z.to_nat DINODE_SIZE) (f (IBLOCK (i_inum i) sb)) = encode_dinode i.

Lemma length_encode i : length (i_addrs i) = Z.to_nat (NDIRECT + 1) → length (encode_dinode i) = Z.to_nat DINODE_SIZE.
Proof.
  intros Hl. unfold encode_dinode. rewrite !length_app. change (length (le16 _)) with 2%nat. change (length (le32 _)) with 4%nat.
  assert (E : length (i_addrs i ≫= le32) = (4 * length (i_addrs i))%nat).
  { generalize (i_addrs i) as l. induction l as [|a l IH]; [done|]. cbn. rewrite IH. lia. }
  rewrite E, Hl. done.
Qed.

Lemma encode_bytes i : Forall (λ b, is_u8 b) (encode_dinode i).
Proof.
  unfold encode_dinode. rewrite !Forall_app. split_and!; try apply le16_bytes; [apply le32_bytes|].
  generalize (i_addrs i) as l. induction l as [|a l IH]; [constructor|].
  change ((a :: l) ≫= le32) with (le32 a ++ (l ≫= le32)). apply Forall_app. split; [apply le32_bytes|done].
Qed.

Lemma dip_off_fits inum : 0 ≤ inum → (dip_off inum + 64 ≤ 512)%nat.
Proof. intros H. unfold dip_off. pose proof (Z.mod_pos_bound inum IPB ltac:(done)). change IPB with 8 in *. change DINODE_SIZE with 64. lia. Qed.

Lemma iupdate_runs s f L ino ip i (Q : unit → fs S → Prop) :
  fs_at (BL := BL) s ∅ f L ino sb → ino !! ip = Some i → inode_wf f i → inode_place i → (size L ≤ 28)%nat →
  (∀ s' v, fs_at s' ∅ (upd f (IBLOCK (i_inum i) sb) v) ({[ IBLOCK (i_inum i) sb ]} ∪ L) ino sb →
     synced (upd f (IBLOCK (i_inum i) sb) v) i → Q () s') →
  runs (iupdate ip) s Q.
Proof.
  intros Hs Hi Hw (H0 & Hh & Hlt) HL HQ. unfold iupdate. apply runs_bind. eapply inode_at_runs; [done..|]. rprim.
  rewrite (at_sb _ _ _ _ _ _ Hs), (iw_dev _ _ _ Hw). apply runs_bind.
  eapply wp_bread; [done|done|rewrite held_empty; apply not_elem_of_empty|rewrite held_empty, size_empty; lia|].
  intros bp s1 _ Hs1. rprim. rewrite (held_data _ _ _ _ _ _ _ _ _ Hs1 (lookup_insert_eq _ _ _)).
  pose proof (dip_off_fits _ H0) as Hfit. pose proof (length_encode i (iw_len _ _ _ Hw)) as Hlen.
  assert (Hok : block_ok (f (IBLOCK (i_inum i) sb))) by (by eapply fs_at_blk_ok).
  eapply wp_update_last; [done|done|done| |lia|].
  { apply put_bytes_ok; [done|rewrite Hlen; done|apply encode_bytes]. }
  intros s2 Hs2. apply (HQ _ _ Hs2). unfold synced. rewrite upd_eq, <- Hlen. apply get_put_bytes.
  destruct Hok as [-> _]. rewrite Hlen. done.
Qed.

(** a change outside the data area *)
Lemma wf_upd f i b v : inode_wf f i → 0 ≤ b < bm →
  inode_wf (upd f b v) i ∧ (∀ bn, 0 ≤ bn < MAXFILE → fblock (upd f b v) i bn = fblock f i bn) ∧
  (∀ bn, 0 ≤ bn < MAXFILE → fdata (upd f b v) i bn = fdata f i bn) ∧ (∀ j, used sb (upd f b v) j = used sb f j).
Proof.
  intros Hw Hb. assert (Hus : ∀ j, used sb (upd f b v) j = used sb f j) by (intros j; unfold used; by rewrite upd_ne by lia).
  assert (Hfb : ∀ bn, fblock (upd f b v) i bn = fblock f i bn).
  { intros bn. apply fblock_ext; [done..|]. intros Ha. destruct (iw_ind _ _ _ Hw) as [|[? _]]; [done|]. apply upd_ne. lia. }
  assert (Hdb : ∀ x, data_block sb f x → data_block sb (upd f b v) x) by (intros x [? ?]; split; [done|by rewrite Hus]).
  split_and!; [|done| |done].
  - constructor; try apply Hw.
    + destruct (iw_ind _ _ _ Hw); auto.
    + intros bn' Hb'. rewrite Hfb. destruct (iw_blk _ _ _ Hw bn' Hb'); auto.
    + intros bn1 bn2. rewrite !Hfb. apply Hw.
    + intros bn'. rewrite Hfb. apply Hw.
  - intros bn Hbn. unfold fdata. rewrite Hfb. destruct (Z.eqb_spec (fblock f i bn) 0); [done|].
    destruct (iw_blk _ _ _ Hw bn Hbn) as [|[? _]]; [done|]. apply upd_ne. lia.
Qed.

(** ** Files *)

(** a file with all its blocks *)
Record file_ok (f : Z → list Z) (i : inode) : Prop := {
  fo_wf : inode_wf f i;
  fo_type : i_type i ≠ T_DEV;
  fo_size : 0 ≤ i_size i ≤ MAXBYTES;
  fo_present : present f i 0 (i_size i);
  fo_place : inode_place i }.

Lemma length_content f i : length (content f i) = Z.to_nat (i_size i).
Proof. unfold content. by rewrite length_fmap, length_seqZ. Qed.
Lemma lookup_content f i (j : nat) : Z.of_nat j < i_size i → content f i !! j = Some (fbyte f i (Z.of_nat j)).
Proof. intros Hj. unfold content. by rewrite list_lookup_fmap, lookup_seqZ_lt. Qed.

Lemma read_content f i off n :
  0 ≤ off → 0 ≤ n → off + n ≤ i_size i →
  fbyte f i <$> seqZ off n = take (Z.to_nat n) (drop (Z.to_nat off) (content f i)).
Proof.
  intros Hoff Hn Hle. apply list_eq. intros j. rewrite list_lookup_fmap. destruct (decide (Z.of_nat j < n)).
  - rewrite lookup_seqZ_lt, lookup_take_lt, lookup_drop, lookup_content by lia. cbn. do 2 f_equal. lia.
  - rewrite lookup_seqZ_ge, lookup_take_ge by lia. done.
Qed.

(** the contents with [src] written at [off] *)
Lemma write_content f i f' i' off src :
  0 ≤ off ≤ i_size i → i_size i' = Z.max (i_size i) (off + Z.of_nat (length src)) →
  (∀ o, 0 ≤ o < i_size i' → fbyte f' i' o = overlay (fbyte f i) off src o) →
  content f' i' = put_bytes (Z.to_nat off) src (content f i).
Proof.
  intros Hoff Hsz Hb. apply list_eq. intros j. unfold put_bytes. pose proof (length_content f i) as Hl.
  destruct (decide (Z.of_nat j < i_size i')) as [Hj|Hj].
  2: { rewrite !lookup_ge_None_2; [done| |rewrite length_content; lia].
    rewrite !length_app, length_take, length_drop. lia. }
  rewrite lookup_content, Hb by lia. unfold overlay. destruct (decide (Z.of_nat j < off)).
  - rewrite decide_False by lia. rewrite lookup_app_l by (rewrite length_take; lia).
    by rewrite lookup_take_lt, lookup_content by lia.
  - rewrite lookup_app_r by (rewrite length_take; lia). rewrite length_take, Nat.min_l by lia. case_decide.
    + rewrite lookup_app_l by lia. symmetry. replace (j - Z.to_nat off)%nat with (Z.to_nat (Z.of_nat j - off)) by lia.
      apply list_lookup_lookup_total_lt. lia.
    + rewrite lookup_app_r by lia. rewrite lookup_drop, lookup_content by lia. do 2 f_equal. lia.
Qed.

Context (devsw_read : Z → option (nat → Z → M (fs S) (Z * list Z))) (devsw_write : Z → option (nat → list Z → M (fs S) Z)).

Lemma readi_runs s f L ino ip i off n :
  fs_at (BL := BL) s ∅ f L ino sb → ino !! ip = Some i → file_ok f i → (size L ≤ 29)%nat →
  0 ≤ off ≤ i_size i → 0 ≤ n → off + n < 2 ^ 32 →
  let data := take (Z.to_nat n) (drop (Z.to_nat off) (content f i)) in
  runs (readi devsw_read ip off n) s (λ r s', r = (Z.of_nat (length data), data) ∧ fs_at s' ∅ f L ino sb).
Proof.
  intros Hs Hi [Hw Ht Hsz Hp _] HL Hoff Hn Hov data. unfold readi. apply runs_bind. eapply inode_at_runs; [done..|].
  rewrite (proj2 (Z.eqb_neq _ _)) by done. assert (Hu : u32 (off + n) = off + n) by (apply Z.mod_small; lia). rewrite Hu.
  rewrite (proj2 (Z.ltb_ge _ _)), (proj2 (Z.ltb_ge _ _)) by lia. cbn [orb].
  set (k := if i_size i <? off + n then _ else _).
  assert (Hk : k = Z.min n (i_size i - off)) by (unfold k; destruct (Z.ltb_spec (i_size i) (off + n)); lia).
  assert (Hdata : data = fbyte f i <$> seqZ off k).
  { rewrite read_content by lia. unfold data. destruct (decide (n ≤ i_size i - off)).
    - do 2 f_equal. lia.
    - rewrite !take_ge; [done|rewrite length_drop, length_content; lia..]. }
  eapply runs_bind_mono; [apply (readi_loop_runs _ s f L ino ip i); try done; [lia|lia| |]|].
  - rewrite Z.sub_0_r. apply rounds_fuel. lia.
  - intros Hk0 bn H1 H2. apply Hp; [lia| |lia]. rewrite Zdiv_0_l. pose proof (Z.div_pos off BSIZE ltac:(lia) ltac:(done)). lia.
  - cbn beta. intros d s' [-> Hs']. apply runs_ret. rewrite Z.sub_0_r, <- Hdata. split; [|done]. f_equal.
    rewrite Hdata, length_fmap, length_seqZ, Z2Nat.id by lia. apply i32_id.
    unfold MAXBYTES, MAXFILE in *. change (NDIRECT + NINDIRECT) with 140 in *. unfold BSIZE in *. lia.
Qed.

(** the state after a write: the file with its new contents, the blocks of other
    files as they were *)
Record written (f : Z → list Z) (i : inode) (off : Z) (src : list Z) (f' : Z → list Z) (i' : inode) : Prop := {
  wr_ok : file_ok f' i';
  wr_content : content f' i' = put_bytes (Z.to_nat off) src (content f i);
  wr_synced : synced f i → synced f' i';
  wr_reserved : reserved sb f';
  wr_used b : 0 ≤ b < BPB → used sb f b = true → used sb f' b = true;
  wr_owned k : owned f' i' k → owned f i k ∨ used sb f k = false;
  wr_other k : 0 ≤ k < BPB → k ≠ bm → k ≠ IBLOCK (i_inum i) sb → used sb f k = true → ¬ owned f i k → f' k = f k;
  wr_meta : i' = set_addrs (i_addrs i') (set_isize (i_size i') i) }.

Lemma inode_block_kept n f i f' i' :
  file_ok f i → reserved sb f → evolves n f i f' i' → f' (IBLOCK (i_inum i) sb) = f (IBLOCK (i_inum i) sb).
Proof.
  intros Hf Hr Hx. destruct (fo_place _ _ Hf) as (_ & _ & Hb). pose proof Hgeo as [Gs Gb _ _].
  unfold FSSIZE in *. apply (ex_other _ _ _ _ _ _ Hx); [unfold BPB, BSIZE; lia|lia|apply Hr; lia|].
  intros Ho. apply (owned_data _ _ _ _ (fo_wf _ _ Hf)) in Ho as [? _]. lia.
Qed.

(** the write did not make the file longer *)
Lemma written_inside n f i f' i' off src :
  file_ok f i → reserved sb f → 0 ≤ off → off + Z.of_nat (length src) ≤ i_size i → evolves n f i f' i →
  (∀ o, 0 ≤ o < MAXBYTES → fbyte f' i o = overlay (fbyte f i) off src o) → i' = i →
  written f i off src f' i'.
Proof.
  intros Hf Hr Hoff Hle Hx Hb ->. pose proof (inode_block_kept _ _ _ _ _ Hf Hr Hx) as Hib.
  destruct Hf as [Hw Ht Hsz Hp Hpl]. constructor.
  - constructor; try done; [apply Hx|]. eapply present_evolves; [done|lia|lia|done].
  - apply write_content; [lia|lia|]. intros o Ho. apply Hb. lia.
  - unfold synced. by rewrite Hib.
  - by eapply evolves_reserved.
  - apply Hx.
  - apply Hx.
  - intros k Hk Hk1 _. by apply (ex_other _ _ _ _ _ _ Hx).
  - by destruct i.
Qed.

(** the write made the file longer and the inode was written to disk *)
Lemma written_longer n f i f' i' off src v :
  file_ok f i → reserved sb f → 0 ≤ off ≤ i_size i → i_size i < off + Z.of_nat (length src) ≤ MAXBYTES →
  evolves n f i f' i' → (∀ o, 0 ≤ o < MAXBYTES → fbyte f' i' o = overlay (fbyte f i) off src o) →
  present f' i' off (Z.of_nat (length src)) →
  let i2 := set_isize (off + Z.of_nat (length src)) i' in
  let f2 := upd f' (IBLOCK (i_inum i) sb) v in
  synced f2 i2 → written f i off src f2 i2.
Proof.
  intros Hf Hr Hoff Hgt Hx Hb Hpr i2 f2 Hsy. pose proof Hf as [Hw Ht Hsz Hp Hpl]. destruct Hpl as (P1 & P2 & P3).
  assert (Hw' : inode_wf f' i') by apply Hx. pose proof (ex_meta _ _ _ _ _ _ Hx) as Hmeta.
  destruct (wf_upd f' i' (IBLOCK (i_inum i) sb) v Hw' P3) as (Hw2 & Hfb2 & Hfd2 & Hus2). fold f2 in Hw2, Hfb2, Hfd2, Hus2.
  assert (Hpall : present f2 i2 0 (off + Z.of_nat (length src))).
  { intros _ bn H1 H2. rewrite Zdiv_0_l in H1. rewrite Z.add_0_l in H2. assert (0 ≤ bn < MAXFILE) by (unfold MAXBYTES, BSIZE in *; lia).
    change (fblock f2 i2 bn) with (fblock f2 i' bn). rewrite Hfb2 by done.
    destruct (decide (bn * BSIZE < i_size i)) as [Hin|Hout].
    - assert (fblock f i bn ≠ 0) by (apply Hp; rewrite ?Zdiv_0_l; unfold BSIZE in *; lia).
      by rewrite (ex_mono _ _ _ _ _ _ Hx).
    - apply Hpr; [lia| |lia]. apply Z.lt_succ_r, Z.div_lt_upper_bound; [done|]. unfold BSIZE in *. lia. }
  constructor; cbn [i_size i2 set_isize].
  - constructor; [|unfold i2; by rewrite Hmeta|cbn; lia|done|].
    + destruct Hw2 as [H1 H2 H3 H4 H5 H6]. by constructor.
    + unfold i2. rewrite Hmeta. exact (conj P1 (conj P2 P3)).
  - apply write_content; [done|cbn; lia|]. cbn. intros o Ho. rewrite <- Hb by lia. unfold fbyte.
    change (fdata f2 i2) with (fdata f2 i'). rewrite Hfd2; [done|].
    split; [apply Z.div_pos; [lia|done]|apply Z.div_lt_upper_bound; [done|unfold MAXBYTES in *; lia]].
  - done.
  - intros b Hb0. rewrite Hus2. by apply (evolves_reserved _ Hgeo _ _ _ _ _ Hx Hr).
  - intros b Hb0 Hu. rewrite Hus2. by apply (ex_used _ _ _ _ _ _ Hx).
  - intros k [Hk [E|(bn & Hbn & E)]]; apply (ex_owned _ _ _ _ _ _ Hx); (split; [done|]); [by left|right].
    exists bn. split; [done|]. by rewrite <- Hfb2.
  - intros k Hk H1 H2 Hu Ho. unfold f2. rewrite upd_ne by done. by apply (ex_other _ _ _ _ _ _ Hx).
  - unfold i2. rewrite Hmeta. done.
Qed.

Lemma writei_runs s f L ino ip i off src (Q : Z → fs S → Prop) :
  let n := Z.of_nat (length src) in
  fs_at (BL := BL) s ∅ f L ino sb → ino !! ip = Some i → file_ok f i → reserved sb f →
  0 ≤ off ≤ i_size i → off + n ≤ MAXBYTES → Forall (λ b, is_u8 b) src →
  Z.of_nat (size L) + 6 * rounds off n ≤ 28 → 2 * rounds off n ≤ Z.of_nat (nfree f) →
  (∀ f' i' L' s', fs_at s' ∅ f' L' (<[ip := i']> ino) sb → written f i off src f' i' →
     Z.of_nat (size L') ≤ Z.of_nat (size L) + 6 * rounds off n + 1 → Q n s') →
  runs (writei devsw_write ip src off) s Q.
Proof.
  intros n Hs Hi Hf Hr Hoff Hmax Hby HL Hfree HQ. pose proof Hf as [Hw Ht Hsz Hp Hpl].
  assert (HMB : MAXBYTES = 71680) by done. unfold writei. fold n. apply runs_bind. eapply inode_at_runs; [done..|].
  rewrite (proj2 (Z.eqb_neq _ _)) by done. assert (Hu : u32 (off + n) = off + n) by (apply Z.mod_small; lia). rewrite Hu.
  rewrite !(proj2 (Z.ltb_ge _ _)) by (fold MAXBYTES; lia). cbn [orb]. apply runs_bind.
  eapply (writei_loop_runs _ s f L ino ip i src 0 n off); rewrite ?Z.sub_0_r; try done; [lia|apply rounds_fuel; lia|lia|].
  intros f1 i1 L1 s1 Hs1 Hx1 Hb1 Hp1 HL1 Hsame. pose proof (lookup_lt_Some _ _ _ Hi) as Hip.
  pose proof (ex_meta _ _ _ _ _ _ Hx1) as Hmeta. apply runs_bind.
  eapply inode_at_runs; [done|by rewrite list_lookup_insert_eq|].
  assert (Hn32 : i32 n = n) by (apply i32_id; lia). apply runs_bind.
  assert (Esz : i_size i1 = i_size i) by (by rewrite Hmeta).
  destruct (Z.ltb_spec 0 n), (Z.ltb_spec (i_size i1) (off + n)); cbn [andb].
  - apply runs_bind. eapply iupd_runs; [done|by rewrite list_lookup_insert_eq|]. rewrite list_insert_insert_eq.
    intros s2 Hs2. set (i2 := set_isize (off + n) i1) in Hs2.
    assert (Hi2 : i_inum i2 = i_inum i) by (unfold i2; by rewrite Hmeta).
    eapply (iupdate_runs s2 f1 L1 _ ip i2); [done|by rewrite list_lookup_insert_eq| | |lia|].
    { destruct (ex_wf _ _ _ _ _ _ Hx1) as [? ? ? ? ? ?]. by constructor. }
    { unfold inode_place. by rewrite Hi2. }
    intros s3 v Hs3 Hsy. apply runs_ret. rewrite Hn32. eapply HQ; [exact Hs3| |].
    + rewrite Hi2 in *. eapply written_longer; try done. lia.
    + pose proof (size_insert_le L1 (IBLOCK (i_inum i2) sb)). lia.
  - apply runs_ret, runs_ret. rewrite Hn32. assert (i1 = i) as ->.
    { apply Hsame. intros Hk bn H1 H2. apply Hp; [lia| |lia]. rewrite Zdiv_0_l. pose proof (Z.div_pos off BSIZE ltac:(lia) ltac:(done)). lia. }
    eapply HQ; [exact Hs1| |lia]. eapply written_inside; try done; lia.
  - apply runs_ret, runs_ret. rewrite Hn32. assert (i1 = i) as -> by (apply Hsame; intros Hk; lia).
    eapply HQ; [exact Hs1| |lia]. eapply written_inside; try done; lia.
  - apply runs_ret, runs_ret. rewrite Hn32. assert (i1 = i) as -> by (apply Hsame; intros Hk; lia).
    eapply HQ; [exact Hs1| |lia]. eapply written_inside; try done; lia.
Qed.

(** C4: Within a transaction that has room, [writei] followed by [readi] of any range
    of the file gives the old contents with the written bytes in place, at most up
    to the new end of the file; both return the number of bytes. *)
Theorem write_then_read s f L ino ip i off src off' n' :
  let n := Z.of_nat (length src) in
  fs_at (BL := BL) s ∅ f L ino sb → ino !! ip = Some i → file_ok f i → reserved sb f →
  0 ≤ off ≤ i_size i → off + n ≤ MAXBYTES → Forall (λ b, is_u8 b) src →
  Z.of_nat (size L) + 6 * rounds off n ≤ 28 → 2 * rounds off n ≤ Z.of_nat (nfree f) →
  0 ≤ off' ≤ Z.max (i_size i) (off + n) → 0 ≤ n' < 2 ^ 31 →
  runs (k ← writei devsw_write ip src off; r ← readi devsw_read ip off' n'; mret (k, r)) s (λ r _,
    let data := take (Z.to_nat n') (drop (Z.to_nat off') (put_bytes (Z.to_nat off) src (content f i))) in
    r = (n, (Z.of_nat (length data), data))).
Proof.
  intros n Hs Hi Hf Hr Hoff Hmax Hby HL Hfree Hoff' Hn'. apply runs_bind. eapply writei_runs; [done..|].
  intros f' i' L' s' Hs' Hwr HL'. fold n in HL'. assert (HMB : MAXBYTES = 71680) by done. pose proof (lookup_lt_Some _ _ _ Hi) as Hip.
  assert (Hlen : i_size i' = Z.max (i_size i) (off + n)).
  { pose proof (f_equal length (wr_content _ _ _ _ _ _ Hwr)) as E. unfold put_bytes in E.
    rewrite !length_app, length_take, length_drop, !length_content in E.
    pose proof (fo_size _ _ (wr_ok _ _ _ _ _ _ Hwr)). pose proof (fo_size _ _ Hf). lia. }
  pose proof (fo_size _ _ Hf) as Hsz0.
  eapply runs_bind_mono; [apply (readi_runs s' f' L' (<[ip := i']> ino) ip i'); [done|by rewrite list_lookup_insert_eq|apply Hwr|lia|lia|lia|lia]|].
  cbn zeta beta. intros r s2 [-> _]. apply runs_ret. by rewrite (wr_content _ _ _ _ _ _ Hwr).
Qed.

(** a file that shares no block with the written one *)
Lemma written_same f i off src f' i' j k :
  written f i off src f' i' → file_ok f i → inode_wf f j → (∀ k, owned f j k → ¬ owned f i k) → owned f j k → f' k = f k.
Proof.
  intros Hwr Hf Hw Hdis Ho. destruct (fo_place _ _ Hf) as (_ & _ & P3). pose proof (owned_data _ _ _ _ Hw Ho) as Hd.
  pose proof (data_block_small _ Hgeo _ _ Hd). destruct Hd as [? ?].
  apply (wr_other _ _ _ _ _ _ Hwr); [done|lia|lia|done|by apply Hdis].
Qed.

Lemma written_fblock f i off src f' i' j bn :
  written f i off src f' i' → file_ok f i → inode_wf f j → (∀ k, owned f j k → ¬ owned f i k) → fblock f' j bn = fblock f j bn.
Proof.
  intros Hwr Hf Hw Hdis. apply fblock_ext; [done..|]. intros Ha. eapply written_same; [done..|]. split; [done|by left].
Qed.

Lemma written_other f i off src f' i' j :
  written f i off src f' i' → file_ok f i → inode_wf f j → (∀ k, owned f j k → ¬ owned f i k) →
  inode_wf f' j ∧ (∀ k, owned f' j k → ¬ owned f' i' k) ∧ ∀ bn, 0 ≤ bn < MAXFILE → fdata f' j bn = fdata f j bn.
Proof.
  intros Hwr Hf Hw Hdis.
  assert (Hsame : ∀ k, owned f j k → f' k = f k) by (intros k; by eapply written_same).
  assert (Hdb : ∀ k, data_block sb f k → data_block sb f' k).
  { intros k Hd. pose proof (data_block_small _ Hgeo _ _ Hd). destruct Hd. split; [done|]. by apply (wr_used _ _ _ _ _ _ Hwr). }
  assert (Hfb : ∀ bn, fblock f' j bn = fblock f j bn) by (intros bn; by eapply written_fblock).
  assert (How : ∀ k, owned f' j k → owned f j k).
  { intros k [Hk [E|(bn & Hbn & E)]]; (split; [done|]); [by left|right]. exists bn. by rewrite <- Hfb. }
  split_and!.
  - constructor; try apply Hw.
    + destruct (iw_ind _ _ _ Hw); auto.
    + intros bn Hbn. rewrite Hfb. destruct (iw_blk _ _ _ Hw bn Hbn); auto.
    + intros bn1 bn2. rewrite !Hfb. apply Hw.
    + intros bn. rewrite Hfb. apply Hw.
  - intros k Ho Hoi. apply How in Ho. apply (wr_owned _ _ _ _ _ _ Hwr) in Hoi as [Hoi|Hu]; [by apply (Hdis k)|].
    destruct (owned_data _ _ _ _ Hw Ho). congruence.
  - intros bn Hbn. unfold fdata. rewrite Hfb. destruct (Z.eqb_spec (fblock f j bn) 0); [done|]. apply Hsame.
    split; [done|right; eauto].
Qed.

(** C13: [writei] keeps the file system well formed: the inode's blocks stay distinct,
    in use and without holes, the bitmap keeps the metadata blocks, the inode on
    disk is the inode in memory if it was before, and no block of another file
    changes. *)
Theorem writei_invariant s f L ino ip i off src :
  let n := Z.of_nat (length src) in
  fs_at (BL := BL) s ∅ f L ino sb → ino !! ip = Some i → file_ok f i → reserved sb f → synced f i →
  0 ≤ off ≤ i_size i → off + n ≤ MAXBYTES → Forall (λ b, is_u8 b) src →
  Z.of_nat (size L) + 6 * rounds off n ≤ 28 → 2 * rounds off n ≤ Z.of_nat (nfree f) →
  runs (writei devsw_write ip src off) s (λ _ s', ∃ f' i' L', fs_at (BL := BL) s' ∅ f' L' (<[ip := i']> ino) sb ∧
    file_ok f' i' ∧ reserved sb f' ∧ synced f' i' ∧
    ∀ j, inode_wf f j → (∀ k, owned f j k → ¬ owned f i k) →
      inode_wf f' j ∧ (∀ k, owned f' j k → ¬ owned f' i' k) ∧ ∀ bn, 0 ≤ bn < MAXFILE → fdata f' j bn = fdata f j bn).
Proof.
  intros n Hs Hi Hf Hr Hsy Hoff Hmax Hby HL Hfree. eapply writei_runs; [done..|]. intros f' i' L' s' Hs' Hwr _.
  exists f', i', L'. split_and!; [done|apply Hwr|apply Hwr|by apply (wr_synced _ _ _ _ _ _ Hwr)|].
  intros j Hw Hdis. by eapply written_other.
Qed.

End rw.
