(* ===== verification/FsDir.v ===== *)
(** * Directories and paths

    A directory is a file of entries of 16 bytes.  [dir_lookup c name] is what a
    directory with the contents [c] has under a name; [dirlookup] computes it and
    [dirlink] adds to it.  [path_elems] splits a path at its slashes, which is what
    repeating [skipelem] does. *)

From S2P Require Import Prelude Block Bio BioSpec Fs FsLaws FsBits FsAlloc FsMap FsRw.

(** ** Names *)

(** the C string in the first [n] bytes *)
Fixpoint cut (n : nat) (l : list Z) : list Z :=
  match n, l with
  | S n, c :: l => if c =? 0 then [] else c :: cut n l
  | _, _ => []
  end.

Definition name_of (l : list Z) : list Z := cut (Z.to_nat DIRSIZ) l.

Lemma strncmp_cut n : ∀ p q, strncmp n p q = 0 ↔ cut n p = cut n q.
Proof.
  induction n as [|n IH]; intros p q; [done|]. cbn [strncmp cut].
  destruct p as [|a p], q as [|b q]; cbn [head tail default from_option id].
  - done.
  - change (0 =? 0) with true. cbn [negb andb]. destruct (Z.eqb_spec b 0) as [->|]; [done|]. split; [lia|done].
  - destruct (Z.eqb_spec a 0) as [->|]; cbn [negb andb]; [done|]. split; [lia|done].
  - destruct (Z.eqb_spec a 0) as [->|Ha]; cbn [negb andb].
    + destruct (Z.eqb_spec b 0) as [->|]; [done|]. split; [lia|done].
    + destruct (Z.eqb_spec a b) as [<-|Hab]; cbn [andb].
      * rewrite (proj2 (Z.eqb_neq _ _) Ha), IH. split; [congruence|by intros [= ?]].
      * split; [lia|]. destruct (b =? 0); congruence.
Qed.

Lemma namecmp_spec s t : namecmp s t = 0 ↔ name_of s = name_of t.
Proof. apply strncmp_cut. Qed.

Lemma cut_strncpy n t : cut n (strncpy n t) = cut n t.
Proof.
  revert t. induction n as [|n IH]; intros t; [done|]. destruct t as [|c t]; cbn; [done|]. by rewrite IH.
Qed.
Lemma length_strncpy n t : length (strncpy n t) = n.
Proof. revert t. induction n as [|n IH]; intros t; [done|]. cbn. by rewrite IH. Qed.
Lemma strncpy_bytes n t : Forall (λ b, is_u8 b) t → Forall (λ b, is_u8 b) (strncpy n t).
Proof.
  revert t. induction n as [|n IH]; intros t Ht; [constructor|]. cbn. constructor.
  - destruct Ht; cbn; [unfold is_u8; lia|done].
  - apply IH. by destruct Ht.
Qed.

(** ** Entries *)

Definition entry (c : list Z) (k : nat) : list Z := get_bytes (16 * k) 16 c.
Definition entries (c : list Z) : list (list Z) := entry c <$> seq 0 (length c / 16).

Definition de_inum (de : list Z) : Z := get16 0 de.
Definition de_name (de : list Z) : list Z := name_of (drop 2 de).

(** the entry is in use and has this name *)
Definition de_is (name de : list Z) : Prop := de_inum de ≠ 0 ∧ name_of name = de_name de.
#[export] Instance de_is_dec name de : Decision (de_is name de).
Proof. unfold de_is. apply _. Defined.

Definition dir_find (c : list Z) (name : list Z) : option (nat * list Z) := list_find (de_is name) (entries c).
Definition dir_lookup (c : list Z) (name : list Z) : option Z := de_inum ∘ snd <$> dir_find c name.

Lemma length_entries c : length (entries c) = (length c / 16)%nat.
Proof. unfold entries. by rewrite length_fmap, length_seq. Qed.
Lemma lookup_entries c k : (k < length c / 16)%nat → entries c !! k = Some (entry c k).
Proof. intros Hk. unfold entries. by rewrite list_lookup_fmap, lookup_seq_lt. Qed.

(** an entry is written at a place that was free or just past the end *)
Lemma entry_put c de k j :
  (16 * k ≤ length c)%nat → length de = 16%nat → (length c mod 16 = 0)%nat →
  (j < length (put_bytes (16 * k) de c) / 16)%nat →
  entry (put_bytes (16 * k) de c) j = if decide (j = k) then de else entry c j.
Proof.
  intros Hk Hde Hm Hj. unfold entry. destruct (decide (16 * k = length c)%nat) as [E|E].
  - assert (Ec : put_bytes (16 * k) de c = c ++ de).
    { unfold put_bytes. rewrite E, firstn_all, drop_ge, app_nil_r by lia. done. }
    rewrite Ec in *. rewrite length_app, Hde in Hj. pose proof (Nat.div_mod_eq (length c + 16) 16).
    assert (j ≤ k)%nat by lia. unfold get_bytes. case_decide as Ej.
    + subst j. rewrite E, drop_app_length. by rewrite take_ge by lia.
    + rewrite drop_app_le by lia. apply take_app_le. rewrite length_drop. lia.
  - pose proof (Nat.div_mod_eq (length c) 16). assert (16 * k + length de ≤ length c)%nat by lia.
    case_decide as Ej.
    + subst j. pose proof (get_put_bytes (16 * k) de c H0) as Hg. by rewrite Hde in Hg.
    + apply get_put_bytes_ne; [done|lia].
Qed.

Lemma list_find_put {A} (P : A → Prop) `{!∀ x, Decision (P x)} (l l' : list A) k x :
  (∀ j, j ≠ k → l' !! j = l !! j) → l' !! k = Some x → (∀ y, l !! k = Some y → ¬ P y) →
  (¬ P x → snd <$> list_find P l' = snd <$> list_find P l) ∧
  (P x → list_find P l = None → list_find P l' = Some (k, x)).
Proof.
  intros Hne Hk Hold. split.
  - intros Hx. destruct (list_find P l) as [[j y]|] eqn:E.
    + apply list_find_Some in E as (Hj & Hy & Hall). assert (j ≠ k) by (intros ->; by apply (Hold y)).
      rewrite (proj2 (list_find_Some P l' j y)); [done|]. split_and!; [by rewrite Hne|done|].
      intros j' y' Hj' Hlt. destruct (decide (j' = k)) as [->|]; [by simplify_eq|]. rewrite Hne in Hj' by done. by eapply Hall.
    + apply list_find_None in E. rewrite (proj2 (list_find_None P l')); [done|].
      apply Forall_lookup. intros j y Hj. destruct (decide (j = k)) as [->|]; [by simplify_eq|].
      rewrite Hne in Hj by done. by eapply Forall_lookup_1 in E.
  - intros Hx E. apply list_find_None in E. apply list_find_Some. split_and!; [done..|].
    intros j y Hj Hlt. rewrite Hne in Hj by lia. by eapply Forall_lookup_1 in E.
Qed.

Lemma lookup_entries_put c de k j :
  (16 * k ≤ length c)%nat → length de = 16%nat → (length c mod 16 = 0)%nat → j ≠ k →
  entries (put_bytes (16 * k) de c) !! j = entries c !! j.
Proof.
  intros Hk Hde Hm Hjk. pose proof (Nat.div_mod_eq (length c) 16) as Hdm.
  assert (Hl : length (put_bytes (16 * k) de c) = (length c + 16)%nat ∧ (16 * k = length c)%nat ∨ length (put_bytes (16 * k) de c) = length c ∧ (16 * k + 16 ≤ length c)%nat).
  { destruct (decide (16 * k = length c)%nat).
    - left. unfold put_bytes. rewrite !length_app, length_take, length_drop. lia.
    - right. rewrite length_put_bytes; lia. }
  pose proof (Nat.div_mod_eq (length c + 16) 16) as Hdm16. pose proof (Nat.mod_upper_bound (length c + 16) 16).
  destruct (decide (j < length c / 16)%nat) as [Hj|Hj].
  - assert (Hj' : (j < length (put_bytes (16 * k) de c) / 16)%nat).
    { destruct Hl as [[-> _]|[-> _]]; [|done]. lia. }
    rewrite !lookup_entries by done. f_equal. rewrite entry_put by done. by rewrite decide_False.
  - rewrite !lookup_ge_None_2; [done|rewrite length_entries; lia|].
    rewrite length_entries. destruct Hl as [[-> E]|[-> _]]; lia.
Qed.

(** ** Paths *)

Definition path_split (path : list Z) : list (list Z) :=
  foldr (λ c acc, if c =? slash then [] :: acc else match acc with e :: acc => (c :: e) :: acc | [] => [[c]] end) [[]] path.
Definition path_elems (path : list Z) : list (list Z) := take (Z.to_nat DIRSIZ) <$> filter (.≠ []) (path_split path).

(** the names that repeated calls of [skipelem] give *)
Fixpoint skip_all (fuel : nat) (path : list Z) : list (list Z) :=
  match fuel with
  | O => []
  | S fuel => match skipelem path with None => [] | Some (name, path) => name :: skip_all fuel path end
  end.

Lemma path_split_cons path : ∃ e l, path_split path = e :: l.
Proof. destruct path as [|c path]; cbn; [eauto|]. destruct (c =? slash); [eauto|]. destruct (foldr _ _ path); eauto. Qed.

Lemma skip_slashes_split path : filter (.≠ []) (path_split (skip_slashes path)) = filter (.≠ []) (path_split path).
Proof.
  induction path as [|c path IH]; [done|]. cbn [skip_slashes]. destruct (c =? slash) eqn:E; [|done].
  rewrite IH. change (path_split (c :: path)) with (if c =? slash then [] :: path_split path else
    match path_split path with e :: acc => (c :: e) :: acc | [] => [[c]] end). rewrite E. by rewrite filter_cons_False by naive_solver.
Qed.

Lemma split_elem_split path elem rest :
  split_elem path = (elem, rest) →
  (rest = [] ∧ path_split path = [elem]) ∨ (∃ r, rest = slash :: r ∧ path_split path = elem :: path_split r).
Proof.
  revert elem rest. induction path as [|c path IH]; intros elem rest; cbn [split_elem].
  { intros [= <- <-]. by left. }
  change (path_split (c :: path)) with (if c =? slash then [] :: path_split path else
    match path_split path with e :: acc => (c :: e) :: acc | [] => [[c]] end).
  destruct (Z.eqb_spec c slash) as [->|].
  - intros [= <- <-]. right. eauto.
  - destruct (split_elem path) as [e r] eqn:E. intros [= <- <-]. destruct (IH _ _ eq_refl) as [[-> ->]|(r' & -> & ->)]; eauto.
Qed.

Lemma split_elem_length path elem rest :
  split_elem path = (elem, rest) → (length rest ≤ length path)%nat.
Proof.
  revert elem rest. induction path as [|c path IH]; intros elem rest; cbn [split_elem]; [by intros [= <- <-]|].
  destruct (c =? slash); [by intros [= <- <-]|]. destruct (split_elem path) as [e r]. intros [= <- <-]. cbn.
  specialize (IH _ _ eq_refl). lia.
Qed.
Lemma skip_slashes_length path : (length (skip_slashes path) ≤ length path)%nat.
Proof. induction path as [|c path IH]; cbn; [done|]. destruct (c =? slash); cbn; lia. Qed.

Lemma skip_slashes_head path c r : skip_slashes path = c :: r → c ≠ slash.
Proof.
  induction path as [|a path IH]; cbn; [done|]. destruct (Z.eqb_spec a slash); [done|]. by intros [= <- _].
Qed.

Lemma path_elems_slashes path : path_elems (skip_slashes path) = path_elems path.
Proof. unfold path_elems. by rewrite skip_slashes_split. Qed.

Lemma skip_all_elems fuel : ∀ path, (length path < fuel)%nat → skip_all fuel path = path_elems path.
Proof.
  induction fuel as [|fuel IH]; intros path Hf; [lia|]. cbn [skip_all]. rewrite <- path_elems_slashes. unfold skipelem.
  pose proof (skip_slashes_length path) as Hl. destruct (skip_slashes path) as [|c p] eqn:E; [done|].
  apply skip_slashes_head in E as Hc. destruct (split_elem (c :: p)) as [elem rest] eqn:Es.
  assert (Hne : elem ≠ []).
  { intros ->. cbn in Es. rewrite (proj2 (Z.eqb_neq _ _)) in Es by done. by destruct (split_elem p). }
  assert (Hrl : (length rest ≤ length p)%nat).
  { cbn in Es. rewrite (proj2 (Z.eqb_neq _ _)) in Es by done. destruct (split_elem p) as [e r] eqn:Ep.
    apply split_elem_length in Ep. by simplify_eq. }
  pose proof (skip_slashes_length rest). cbn in Hl. rewrite IH, path_elems_slashes by lia.
  apply split_elem_split in Es as [[-> Ep]|(r & -> & Ep)]; unfold path_elems; rewrite Ep, filter_cons_True by done; done.
Qed.

(** Repeating [skipelem] from the start of a path gives the nonempty parts of
    the path between slashes, in order and cut to [DIRSIZ] bytes, and ends. *)
Theorem skipelem_path path : skip_all (S (length path)) path = path_elems path.
Proof. apply skip_all_elems. lia. Qed.

(** ** Looking up a name *)

Section dir.
  Context {S : Type} {BO : BufOps S} {BL : BufLaws S} (sb : superblock) (Hgeo : fs_geo (BL := BL) sb).
  Context (me : Z) (devsw_read : Z → option (nat → Z → M (fs S) (Z * list Z)))
          (devsw_write : Z → option (nat → list Z → M (fs S) Z)).

Abbreviation fs_at := (fs_at (BL := BL)).
Abbreviation dirlookup_loop := (dirlookup_loop devsw_read).
Abbreviation dirlookup := (dirlookup devsw_read).

Record dir_ok (f : Z → list Z) (d : inode) : Prop := {
  do_file : file_ok (BL := BL) sb f d;
  do_type : i_type d = T_DIR;
  do_size : i_size d mod DIRENT_SIZE = 0 }.

Lemma dir_count f d : dir_ok f d → i_size d = 16 * Z.of_nat (length (entries (content f d))).
Proof.
  intros [Hf _ Hm]. rewrite length_entries, length_content. pose proof (fo_size _ _ _ Hf). change DIRENT_SIZE with 16 in Hm.
  rewrite Nat2Z.inj_div, Z2Nat.id by lia. pose proof (Z.div_mod (i_size d) 16). lia.
Qed.

(** [readi] of entry [k] *)
Lemma read_entry s f L ino dp d (k : nat) (Q : Z * list Z → fs S → Prop) :
  fs_at s ∅ f L ino sb → ino !! dp = Some d → dir_ok f d → (size L ≤ 29)%nat → 16 * Z.of_nat k < i_size d →
  (∀ s', fs_at s' ∅ f L ino sb → Q (16, entry (content f d) k) s') →
  runs (readi devsw_read dp (16 * Z.of_nat k) DIRENT_SIZE) s Q.
Proof.
  intros Hs Hi Hd HL Hk HQ. pose proof Hd as [Hf _ Hm]. pose proof (fo_size _ _ _ Hf) as Hsz.
  pose proof (dir_count f d Hd) as Hc. assert (HMB : MAXBYTES = 71680) by done. change DIRENT_SIZE with 16 in *.
  eapply runs_mono; [apply (readi_runs sb Hgeo devsw_read s f L ino dp d); [done..|lia|lia|lia]|].
  cbn zeta beta. intros r s' [-> Hs']. replace (Z.to_nat (16 * Z.of_nat k)) with (16 * k)%nat by lia.
  change (take (Z.to_nat 16) (drop (16 * k) (content f d))) with (entry (content f d) k).
  assert (El : length (entry (content f d) k) = 16%nat) by (apply length_get_bytes; rewrite length_content; lia).
  rewrite El. by apply HQ.
Qed.

Lemma dirlookup_loop_runs fuel : ∀ s f L ino dp d name (k : nat) (Q : option (nat * Z) → fs S → Prop),
  fs_at s ∅ f L ino sb → ino !! dp = Some d → dir_ok f d → (size L ≤ 29)%nat →
  (length (entries (content f d)) - k < fuel)%nat →
  (list_find (de_is name) (drop k (entries (content f d))) = None → ∀ s', fs_at s' ∅ f L ino sb → Q None s') →
  (∀ j de, list_find (de_is name) (drop k (entries (content f d))) = Some (j, de) → ∀ s', fs_at s' ∅ f L ino sb →
     runs (ip ← iget (i_dev d) (de_inum de); mret (Some (ip, 16 * Z.of_nat (k + j)))) s' Q) →
  runs (dirlookup_loop fuel dp name (16 * Z.of_nat k)) s Q.
Proof.
  induction fuel as [|fuel IH]; intros s f L ino dp d name k Q Hs Hi Hd HL Hfuel HN HS; [lia|].
  cbn [Fs.dirlookup_loop]. pose proof (dir_count f d Hd) as Hc. pose proof (fo_size _ _ _ (do_file _ _ Hd)) as Hsz.
  assert (HMB : MAXBYTES = 71680) by done. set (es := entries (content f d)) in *.
  apply runs_bind. eapply inode_at_runs; [done..|]. destruct (Z.ltb_spec (16 * Z.of_nat k) (i_size d)) as [Hlt|Hge].
  2: { apply runs_ret. apply HN; [|done]. rewrite drop_ge by lia. done. }
  apply runs_bind. eapply read_entry; [done..|]. intros s1 Hs1. cbn [negb]. change (16 =? DIRENT_SIZE) with true. cbn [negb].
  assert (Hek : es !! k = Some (entry (content f d) k)) by (apply lookup_entries; rewrite <- length_entries; fold es; lia).
  rewrite (drop_S _ _ _ Hek) in HN, HS. cbn [list_find] in HN, HS.
  assert (Hnext : u32 (16 * Z.of_nat k + DIRENT_SIZE) = 16 * Z.of_nat (Datatypes.S k)).
  { change DIRENT_SIZE with 16. unfold u32. rewrite Z.mod_small by lia. lia. }
  assert (Hrec : ¬ de_is name (entry (content f d) k) → runs (dirlookup_loop fuel dp name (16 * Z.of_nat (Datatypes.S k))) s1 Q).
  { intros Hno. rewrite decide_False in HN by done. eapply (IH s1 f L ino dp d name (Datatypes.S k)); [done..|fold es; lia| |].
    - intros E s' Hs'. apply HN; [|done]. fold es in E. by rewrite E.
    - intros j de E s' Hs'. fold es in E. replace (Datatypes.S k + j)%nat with (k + Datatypes.S j)%nat by lia.
      apply HS; [|done]. rewrite decide_False by done. by rewrite E. }
  fold (de_inum (entry (content f d) k)). destruct (Z.eqb_spec (de_inum (entry (content f d) k)) 0) as [H0|Hne].
  - rewrite Hnext. apply Hrec. intros [? _]. done.
  - destruct (Z.eqb_spec (namecmp name (drop 2 (entry (content f d) k))) 0) as [En|En]; rewrite namecmp_spec in En.
    + replace (16 * Z.of_nat k) with (16 * Z.of_nat (k + 0)) by lia. apply (HS 0%nat (entry (content f d) k)); [|done].
      by rewrite decide_True.
    + rewrite Hnext. apply Hrec. by intros [_ ?].
Qed.

Lemma dir_fuel_ok f d : dir_ok f d → (length (entries (content f d)) < dir_fuel (i_size d))%nat.
Proof.
  intros Hd. pose proof (dir_count f d Hd) as Hc. unfold dir_fuel. change DIRENT_SIZE with 16.
  rewrite Hc, Z.mul_comm, Z.div_mul by done. lia.
Qed.

(** ** The inode cache *)

Lemma iget_scan_found dev inum l : ∀ ip e j,
  iget_scan l ip dev inum e = inl j →
  ∃ k i, j = (ip + k)%nat ∧ l !! k = Some i ∧ 0 < i_ref i ∧ i_dev i = dev ∧ i_inum i = inum.
Proof.
  induction l as [|i l IH]; intros ip e j; cbn [iget_scan]; [done|].
  destruct (Z.ltb_spec 0 (i_ref i)), (Z.eqb_spec (i_dev i) dev), (Z.eqb_spec (i_inum i) inum); cbn [andb];
    try (intros (k & i' & -> & ? & ?)%IH; exists (Datatypes.S k), i'; split; [lia|done]).
  intros [= <-]. exists 0%nat, i. split; [lia|done].
Qed.

Lemma iget_scan_free dev inum l : ∀ ip e j,
  iget_scan l ip dev inum e = inr (Some j) → e = Some j ∨ ∃ k i, j = (ip + k)%nat ∧ l !! k = Some i.
Proof.
  induction l as [|i l IH]; intros ip e j; cbn [iget_scan]; [by intros [= ->]; left|].
  case_match; [done|]. intros [E|(k & i' & -> & ?)]%IH.
  - destruct e as [e'|]; [by left|]. destruct (i_ref i =? 0); [|done]. simplify_eq. right. exists 0%nat, i. split; [lia|done].
  - right. exists (Datatypes.S k), i'. split; [lia|done].
Qed.

Lemma iget_scan_room dev inum l : ∀ ip e,
  iget_scan l ip dev inum e = inr None → e = None ∧ Forall (λ i, i_ref i ≠ 0) l.
Proof.
  induction l as [|i l IH]; intros ip e; cbn [iget_scan]; [by intros [= ->]|].
  case_match; [done|]. intros [E Hl]%IH. destruct e; [done|]. destruct (Z.eqb_spec (i_ref i) 0); [done|]. by split; [|constructor].
Qed.

Definition has_room (ino : list inode) : Prop :=
  (∃ k i, ino !! k = Some i ∧ i_ref i = 0) ∧ ∀ k i, ino !! k = Some i → i_ref i < 2 ^ 31 - 1.

Lemma iget_runs s H f L ino dev inum (Q : nat → fs S → Prop) :
  fs_at s H f L ino sb → has_room ino →
  (∀ ip i s', fs_at s' H f L (<[ip := i]> ino) sb → (ip < length ino)%nat → i_dev i = dev → i_inum i = inum → 0 < i_ref i → Q ip s') →
  runs (iget dev inum) s Q.
Proof.
  intros Hs [(k & i & Hk & Hr0) Hmax] HQ. unfold iget. rprim. rewrite (at_ino _ _ _ _ _ _ Hs).
  destruct (iget_scan ino 0 dev inum None) as [ip|[ip|]] eqn:E.
  - apply iget_scan_found in E as (j & i' & -> & Hj & Hr & Hd & Hn). cbn [Nat.add] in *. apply runs_bind.
    eapply iupd_runs; [done..|]. intros s' Hs'. apply runs_ret. eapply HQ; [done|by eapply lookup_lt_Some|done|done|].
    cbn. specialize (Hmax _ _ Hj). rewrite i32_id; lia.
  - apply iget_scan_free in E as [|(j & i' & -> & Hj)]; [done|]. cbn [Nat.add] in *. apply runs_bind.
    eapply iupd_runs; [done..|]. intros s' Hs'. apply runs_ret. eapply HQ; [done|by eapply lookup_lt_Some|done|done|done].
  - apply iget_scan_room in E as [_ Hall]. rewrite Forall_lookup in Hall. by apply Hall in Hk.
Qed.

(** [dirlookup] agrees with the directory as a map: it returns no inode when the
    name is not there, else a referenced inode with the number the directory has
    for the name and the offset of its entry; it changes only the inode cache. *)
Theorem dirlookup_correct s f L ino dp d name :
  fs_at s ∅ f L ino sb → ino !! dp = Some d → dir_ok f d → has_room ino → (size L ≤ 29)%nat →
  runs (dirlookup dp name) s (λ r s',
    match r with
    | None => dir_lookup (content f d) name = None ∧ fs_at s' ∅ f L ino sb
    | Some (ip, off) => ∃ i k de, dir_find (content f d) name = Some (k, de) ∧ off = 16 * Z.of_nat k ∧
        fs_at s' ∅ f L (<[ip := i]> ino) sb ∧ (ip < length ino)%nat ∧
        i_dev i = i_dev d ∧ i_inum i = de_inum de ∧ 0 < i_ref i
    end).
Proof.
  intros Hs Hi Hd Hroom HL. unfold Fs.dirlookup. apply runs_bind. eapply inode_at_runs; [done..|].
  rewrite (do_type _ _ Hd). change (negb (T_DIR =? T_DIR)) with false. cbv iota.
  pose proof (dir_fuel_ok f d Hd). eapply (dirlookup_loop_runs _ s f L ino dp d name 0); [done..|lia| |]; rewrite drop_0.
  - intros E s' Hs'. unfold dir_lookup, dir_find. rewrite E. done.
  - intros j de E s' Hs'. apply runs_bind. eapply iget_runs; [done..|]. intros ip i s2 Hs2 Hip Hdev Hnum Href.
    apply runs_ret. exists i, j, de. done.
Qed.

(** ** Adding a name *)

Lemma empty_slot_runs fuel : ∀ s f L ino dp d (k : nat) (Q : Z → fs S → Prop),
  fs_at s ∅ f L ino sb → ino !! dp = Some d → dir_ok f d → (size L ≤ 29)%nat →
  (k ≤ length (entries (content f d)))%nat → (length (entries (content f d)) - k < fuel)%nat →
  (∀ (j : nat) s', fs_at s' ∅ f L ino sb → (j ≤ length (entries (content f d)))%nat →
     (∀ de, entries (content f d) !! j = Some de → de_inum de = 0) → Q (16 * Z.of_nat j) s') →
  runs (empty_slot devsw_read fuel dp (16 * Z.of_nat k)) s Q.
Proof.
  induction fuel as [|fuel IH]; intros s f L ino dp d k Q Hs Hi Hd HL Hk Hfuel HQ; [lia|].
  cbn [empty_slot]. pose proof (dir_count f d Hd) as Hc. set (es := entries (content f d)) in *.
  apply runs_bind. eapply inode_at_runs; [done..|]. destruct (Z.ltb_spec (16 * Z.of_nat k) (i_size d)) as [Hlt|Hge].
  2: { apply runs_ret. apply HQ; [done|lia|]. intros de Hde. apply lookup_lt_Some in Hde. lia. }
  apply runs_bind. eapply read_entry; [done..|]. intros s1 Hs1. change (16 =? DIRENT_SIZE) with true. cbn [negb].
  assert (Hek : es !! k = Some (entry (content f d) k)) by (apply lookup_entries; rewrite <- length_entries; fold es; lia).
  fold (de_inum (entry (content f d) k)). destruct (Z.eqb_spec (de_inum (entry (content f d) k)) 0) as [H0|Hne].
  - apply runs_ret. apply HQ; [done|lia|]. intros de Hde. congruence.
  - replace (16 * Z.of_nat k + DIRENT_SIZE) with (16 * Z.of_nat (Datatypes.S k)) by (change DIRENT_SIZE with 16; lia).
    eapply IH; [done..|fold es; lia|fold es; lia|done].
Qed.

Lemma rounds_entry (k : nat) : rounds (16 * Z.of_nat k) 16 = 1.
Proof.
  unfold rounds. cbn [Z.leb]. change (16 <=? 0) with false. cbv iota. unfold BSIZE.
  assert (E : (16 * Z.of_nat k) mod 512 = 16 * (Z.of_nat k mod 32)) by (rewrite <- Z.mul_mod_distr_l by lia; done).
  pose proof (Z.mod_pos_bound (Z.of_nat k) 32). rewrite E. symmetry. apply (Z.div_unique_pos _ _ _ (16 * (Z.of_nat k mod 32) + 15)); lia.
Qed.

(** the directory after the entry has been written *)
Lemma dir_lookup_put c inum name (k : nat) name' :
  0 < inum < 2 ^ 16 → (length c mod 16 = 0)%nat → (k ≤ length (entries c))%nat →
  (∀ de, entries c !! k = Some de → de_inum de = 0) → dir_lookup c name = None →
  dir_lookup (put_bytes (16 * k) (le16 inum ++ strncpy (Z.to_nat DIRSIZ) name) c) name' =
    if decide (name_of name' = name_of name) then Some inum else dir_lookup c name'.
Proof.
  intros Hin Hm Hk Hfree Hnone. set (de := le16 inum ++ strncpy (Z.to_nat DIRSIZ) name).
  assert (Hde : length de = 16%nat) by (unfold de; rewrite length_app, length_strncpy; done).
  rewrite length_entries in Hk. pose proof (Nat.div_mod_eq (length c) 16) as Hdm.
  assert (Hinum : de_inum de = inum).
  { unfold de_inum, get16, get_bytes, de. rewrite drop_0. change (take 2 _) with (le16 inum). rewrite le_val_le16. apply Z.mod_small. lia. }
  assert (Hname : de_name de = name_of name) by (apply (cut_strncpy (Z.to_nat DIRSIZ) name)).
  assert (Hlen : (k < length (put_bytes (16 * k) de c) / 16)%nat).
  { destruct (decide (16 * k = length c)%nat) as [E|E].
    - unfold put_bytes. rewrite !length_app, length_take, length_drop, Hde, <- E.
      replace (_ + _)%nat with ((k + 1) * 16)%nat by lia. rewrite Nat.div_mul; lia.
    - rewrite length_put_bytes; lia. }
  destruct (list_find_put (de_is name') (entries c) (entries (put_bytes (16 * k) de c)) k de) as [Hno Hyes].
  - intros j Hj. apply lookup_entries_put; [lia|done..].
  - rewrite lookup_entries by done. rewrite entry_put by (done || lia). by rewrite decide_True.
  - intros y Hy [Hy0 _]. by apply Hfree in Hy.
  - unfold dir_lookup, dir_find in *. case_decide as E.
    + rewrite Hyes; [change (Some (de_inum de) = Some inum); by rewrite Hinum|split; [lia|congruence]|].
      destruct (list_find (de_is name) (entries c)) eqn:Ef; [done|]. apply list_find_None in Ef. apply list_find_None.
      eapply Forall_impl; [exact Ef|]. intros y Hny [? ?]. apply Hny. split; [done|congruence].
    + assert (Hnp : ¬ de_is name' de) by (intros [_ E']; congruence). specialize (Hno Hnp).
      destruct (list_find (de_is name') (entries (put_bytes (16 * k) de c))) as [[? ?]|], (list_find (de_is name') (entries c)) as [[? ?]|];
        cbn in *; congruence.
Qed.

(** C19: [dirlink] of a name that the directory does not have returns 0 and makes the
    directory the same map with the name added; the directory stays well formed. *)
Theorem dirlink_inserts s f L ino dp d name inum :
  fs_at s ∅ f L ino sb → ino !! dp = Some d → dir_ok f d → reserved sb f → 0 < inum < 2 ^ 16 →
  Forall (λ b, is_u8 b) name → dir_lookup (content f d) name = None →
  i_size d + 16 ≤ MAXBYTES → (size L ≤ 22)%nat → (2 ≤ nfree sb f)%nat →
  runs (dirlink me devsw_read devsw_write dp name inum) s (λ r s', r = 0 ∧
    ∃ f' d' L', fs_at s' ∅ f' L' (<[dp := d']> ino) sb ∧ dir_ok f' d' ∧
    ∀ name', dir_lookup (content f' d') name' =
      if decide (name_of name' = name_of name) then Some inum else dir_lookup (content f d) name').
Proof.
  intros Hs Hi Hd Hr Hin Hby Hnone Hmax HL Hfree. unfold dirlink. pose proof (dir_fuel_ok f d Hd) as Hfuel.
  pose proof (dir_count f d Hd) as Hc. apply runs_bind. unfold Fs.dirlookup. apply runs_bind. eapply inode_at_runs; [done..|].
  rewrite (do_type _ _ Hd). change (negb (T_DIR =? T_DIR)) with false. cbv iota.
  eapply (dirlookup_loop_runs _ s f L ino dp d name 0); [done..|lia|lia| |]; rewrite drop_0.
  2: { intros j de E. unfold dir_lookup, dir_find in Hnone. by rewrite E in Hnone. }
  intros _ s1 Hs1. apply runs_bind. eapply inode_at_runs; [done..|]. apply runs_bind.
  eapply (empty_slot_runs _ s1 f L ino dp d 0); [done..|lia|lia|lia|]. intros k s2 Hs2 Hk Hslot. apply runs_bind.
  set (de := le16 inum ++ strncpy (Z.to_nat DIRSIZ) name).
  assert (Hde : length de = 16%nat) by (unfold de; rewrite length_app, length_strncpy; done).
  eapply (writei_runs sb Hgeo devsw_write s2 f L ino dp d (16 * Z.of_nat k) de); rewrite ?Hde; change (Z.of_nat 16) with 16;
    rewrite ?rounds_entry; [done|done|apply Hd|done|lia|lia| |lia|lia|].
  { unfold de. apply Forall_app. split; [apply le16_bytes|by apply strncpy_bytes]. }
  intros f' d' L' s3 Hs3 Hwr HL'. change (16 =? DIRENT_SIZE) with true. cbn [negb]. apply runs_ret. split; [done|].
  exists f', d', L'. split; [done|]. pose proof (wr_content _ _ _ _ _ _ _ Hwr) as Hcont.
  replace (Z.to_nat (16 * Z.of_nat k)) with (16 * k)%nat in Hcont by lia.
  assert (Hm : (length (content f d) mod 16 = 0)%nat).
  { rewrite length_content, Hc. replace (Z.to_nat _) with (length (entries (content f d)) * 16)%nat by lia. apply Nat.Div0.mod_mul. }
  split.
  - constructor; [apply Hwr|rewrite (wr_meta _ _ _ _ _ _ _ Hwr); exact (do_type _ _ Hd)|].
    pose proof (f_equal length Hcont) as El. rewrite length_content in El. unfold put_bytes in El.
    rewrite !length_app, length_take, length_drop, length_content, Hde in El.
    pose proof (fo_size _ _ _ (wr_ok _ _ _ _ _ _ _ Hwr)). change DIRENT_SIZE with 16.
    assert (i_size d' = 16 * Z.of_nat (Nat.max (length (entries (content f d))) (k + 1))) as -> by lia.
    rewrite Z.mul_comm. by apply Z.mod_mul.
  - intros name'. rewrite Hcont. by apply dir_lookup_put.
Qed.
End dir.

(** ** Inodes on disk

    Reading the [struct dinode] that [encode_dinode] wrote gives the inode back. *)

Definition is_i16 (z : Z) : Prop := - 2 ^ 15 ≤ z < 2 ^ 15.

Lemma i16_u16 z : is_i16 z → i16 (u16 z) = z.
Proof. unfold is_i16, i16, u16. intros Hz. zdm. Qed.

(** a part of a part *)
Lemma get_bytes_inner off len a n data :
  (a + n ≤ len)%nat → get_bytes a n (get_bytes off len data) = get_bytes (off + a) n data.
Proof.
  intros H. unfold get_bytes. rewrite skipn_firstn_comm, drop_drop, take_take. f_equal. lia.
Qed.

Lemma get32_inner off len a data :
  (a + 4 ≤ len)%nat → get32 a (get_bytes off len data) = get32 (off + a) data.
Proof. intros H. unfold get32. by rewrite get_bytes_inner. Qed.
Lemma get16_inner off len a data :
  (a + 2 ≤ len)%nat → get16 a (get_bytes off len data) = get16 (off + a) data.
Proof. intros H. unfold get16. by rewrite get_bytes_inner. Qed.

Lemma get32_words l (k : nat) a : l !! k = Some a → get32 (4 * k) (l ≫= le32) = u32 a.
Proof.
  revert k. induction l as [|b l IH]; intros [|k]; cbn [lookup list_lookup]; try done.
  - intros [= ->]. apply (le_val_le32 a).
  - intros Hk. specialize (IH k Hk). unfold get32, get_bytes in *. rewrite <- IH.
    replace (4 * S k)%nat with (4 + 4 * k)%nat by lia. done.
Qed.

(** the fields are in the ranges of their types *)
Record disk_fields (i : inode) : Prop := {
  df_type : is_i16 (i_type i);
  df_major : is_i16 (i_major i);
  df_minor : is_i16 (i_minor i);
  df_nlink : is_i16 (i_nlink i);
  df_size : is_u32 (i_size i);
  df_addrs : length (i_addrs i) = Z.to_nat (NDIRECT + 1) ∧ Forall (λ a, is_u32 a) (i_addrs i) }.

(** [j] with the fields that are on disk taken from [i] *)
Definition copy_fields (i j : inode) : inode :=
  {| i_dev := i_dev j; i_inum := i_inum j; i_ref := i_ref j; i_locked := i_locked j; i_pid := i_pid j;
     i_valid := i_valid j; i_type := i_type i; i_major := i_major i; i_minor := i_minor i;
     i_nlink := i_nlink i; i_size := i_size i; i_addrs := i_addrs i |}.

Lemma decode_encode i j off data :
  disk_fields i → get_bytes off (Z.to_nat DINODE_SIZE) data = encode_dinode i → decode_dinode off data j = copy_fields i j.
Proof.
  intros [Ht Hma Hmi Hn Hs [Hl Ha]] E. change (Z.to_nat DINODE_SIZE) with 64%nat in E.
  unfold decode_dinode, copy_fields. rewrite <- (Nat.add_0_r off) at 1.
  rewrite <- !(get16_inner off 64) by lia. rewrite <- (get32_inner off 64 8) by lia. rewrite E. f_equal.
  - rewrite <- (i16_u16 _ Ht). f_equal. apply (le_val_le16 (i_type i)).
  - rewrite <- (i16_u16 _ Hma). f_equal. apply (le_val_le16 (i_major i)).
  - rewrite <- (i16_u16 _ Hmi). f_equal. apply (le_val_le16 (i_minor i)).
  - rewrite <- (i16_u16 _ Hn). f_equal. apply (le_val_le16 (i_nlink i)).
  - etransitivity; [apply (le_val_le32 (i_size i))|]. by apply Z.mod_small.
  - apply list_eq. intros k. rewrite list_lookup_fmap. change (Z.to_nat (NDIRECT + 1)) with 13%nat in *.
    destruct (decide (k < 13)%nat) as [Hk|Hk].
    2: { rewrite lookup_seq_ge by lia. cbn. symmetry. apply lookup_ge_None_2. lia. }
    rewrite lookup_seq_lt by lia. cbn [fmap option_fmap option_map]. destruct (lookup_lt_is_Some_2 (i_addrs i) k) as [a Hka]; [lia|].
    rewrite Hka. f_equal. rewrite <- Nat.add_assoc, <- (get32_inner off 64) by lia. rewrite E.
    assert (Hu : u32 a = a) by (apply Z.mod_small; by eapply Forall_lookup_1 in Ha).
    rewrite <- Hu, <- (get32_words _ _ _ Hka). unfold get32, get_bytes. replace (0 + k)%nat with k by lia. done.
Qed.
