(* ===== verification/FsExamples.v ===== *)
(** * A file system in a transaction

    The theorems of [FsAlloc] and [FsRw] on a booted system: a disk of 100 blocks
    with its log from block 2, an inode block at 32 and its bitmap at 33, and an
    empty file that is written. *)

From S2P Require Import Prelude Block Bio BioSpec Log LogSpec LogCrash LogRecover Fs FsLaws LogLaws FsBits FsAlloc FsMap FsRw FsDir.

Definition sb1 : superblock :=
  {| sb_size := 100; sb_nblocks := 66; sb_ninodes := 8; sb_nlog := 30; sb_logstart := 2;
     sb_inodestart := 32; sb_bmapstart := 33 |}.
Definition sb1_data : list Z := put32 16 2 (put32 12 30 zero_block).
(** blocks 0 to 47 are in use *)
Definition bits1 : list Z := put_bytes 0 (replicate 6 255) zero_block.
Definition ino1 : inode := set_iref 1 (set_inode_ids 1 1 (set_itype T_FILE zero_inode)).
Definition inodes1 : list Z := put_bytes (dip_off 1) (encode_dinode ino1) zero_block.
Definition names1 : list Z := put_bytes 0 (le16 1 ++ strncpy 14 [97]) zero_block.
Definition disk1 : disk_t := {[ (1, 1) := sb1_data; (1, 33) := bits1; (1, 32) := inodes1; (1, 40) := names1 ]}.
(** a directory whose only entry, in block 40, is for the file *)
Definition dir1 : inode := set_isize 16 (set_addr 0 40 (set_iref 1 (set_inode_ids 1 2 (set_itype T_DIR zero_inode)))).
Definition cache1 : list inode := [ino1; dir1; zero_inode].

Lemma geometry1 : geometry 2 30.
Proof. by constructor. Qed.

#[local] Instance ops1 : BufOps lstate := log_ops 1.
#[local] Instance laws1 : BufLaws lstate := log_laws 1 2 30 geometry1 eq_refl 1 (Z.le_refl 1).

Lemma disk1_ok : disk_ok 2 30 disk1.
Proof.
  assert (Hz : length zero_block = 512%nat) by apply length_replicate.
  assert (Hz' : length (put32 12 30 zero_block) = 512%nat) by (rewrite length_put32; lia).
  assert (Hd : ∀ n, n ≠ 1 → n ≠ 33 → n ≠ 32 → n ≠ 40 → dblock disk1 1 n = zero_block).
  { intros n H1 H2 H3 H4. unfold dblock, disk1. by rewrite !lookup_insert_ne, lookup_singleton_ne by congruence. }
  assert (H1 : dblock disk1 1 1 = sb1_data) by reflexivity.
  assert (H33 : dblock disk1 1 33 = bits1) by reflexivity.
  assert (H32 : dblock disk1 1 32 = inodes1) by reflexivity.
  assert (H40 : dblock disk1 1 40 = names1) by reflexivity.
  assert (Hn : hd_n (head_of 2 disk1) = 0) by (unfold head_of; by rewrite Hd).
  constructor; [| |rewrite Hn; lia|rewrite hd_list_nil by done; constructor..].
  - intros n. destruct (decide (n = 1)) as [->|]; [|destruct (decide (n = 33)) as [->|]; [|destruct (decide (n = 32)) as [->|]; [|destruct (decide (n = 40)) as [->|]]]].
    + rewrite H1. repeat apply put_bytes_ok; try apply zero_block_ok; try apply le32_bytes; cbn; lia.
    + rewrite H33. apply put_bytes_ok; [apply zero_block_ok|cbn; lia|]. apply Forall_replicate. unfold is_u8. lia.
    + rewrite H32. apply put_bytes_ok; [apply zero_block_ok|by apply (dip_off_fits 1)|apply encode_bytes].
    + rewrite H40. apply put_bytes_ok; [apply zero_block_ok|cbn; lia|]. apply Forall_app.
      split; [apply le16_bytes|]. apply strncpy_bytes, Forall_singleton. unfold is_u8. lia.
    + rewrite Hd by done. apply zero_block_ok.
  - rewrite H1. unfold sb1_data, decode_sb. cbn [sb_logstart sb_nlog].
    rewrite get_put32, get32_put32_ne, get_put32 by lia. done.
Qed.

(** the file system after boot and [begin_op] *)
Lemma fs1 : ∃ s : fs lstate, ∃ f, fs_at s ∅ f ∅ cache1 sb1 ∧ f 33 = bits1 ∧ f 32 = inodes1 ∧ f 40 = names1.
Proof.
  destruct (reboot_runs 1 2 30 geometry1 disk1 disk1_ok) as ([] & s0 & _ & [Hs0 Hn0 Ho0 Hc0 Hb0 _ _]). cbn in Ho0, Hc0.
  destruct (begin_op_runs 1 2 30 s0 ∅ Hs0 Hc0) as ([] & s1 & _ & Hs1 & Hb1 & Hl1 & Hc1 & Ho1).
  { rewrite Hn0, Ho0. done. }
  exists {| f_sub := s1; f_inodes := cache1; f_sb := sb1 |}, (blk (ls_bio s1)). split.
  - constructor; [|done| |done..].
    + cbn. split_and!; [done|rewrite Ho1, Ho0; done|done].
    + cbn. rewrite Hl1. unfold logged. by rewrite Hn0.
  - assert (Hlog : ∀ n, logical 2 disk1 n = dblock disk1 1 n) by (intros n; apply logical_empty; done).
    rewrite Hb1. split_and!; rewrite Hb0, Hlog by (unfold home, FSSIZE; lia); reflexivity.
Qed.

Lemma geo1 : fs_geo (BL := laws1) sb1.
Proof.
  constructor; cbn; [unfold FSSIZE; lia|lia| |]; [|intros b Hb]; unfold home, FSSIZE; lia.
Qed.

Lemma reserved1 f : f 33 = bits1 → reserved sb1 f.
Proof.
  intros Ef b Hb. unfold used. cbn [sb_bmapstart sb1] in *. rewrite Ef.
  assert (Hall : forallb (bit_set bits1) (seqZ 0 34) = true) by reflexivity.
  rewrite forallb_forall in Hall. apply Hall, list_elem_of_In, elem_of_seqZ. lia.
Qed.

Lemma free1 f : f 33 = bits1 → (2 ≤ nfree sb1 f)%nat.
Proof.
  intros Ef. unfold nfree, used. cbn [sb_bmapstart sb1]. rewrite Ef.
  assert (E : length (filter (λ b, bit_set bits1 b = false) (seqZ 0 (sb_size sb1))) = 52%nat) by reflexivity. lia.
Qed.

Lemma file1 f : file_ok (BL := laws1) sb1 f ino1.
Proof.
  assert (Ha : ∀ k, k ≤ NDIRECT → addr_at ino1 k = 0).
  { intros k Hk. unfold addr_at. apply list_lookup_total_correct. apply lookup_replicate. split; [done|].
    unfold NDIRECT in *. lia. }
  assert (Hfb : ∀ bn, fblock f ino1 bn = 0).
  { intros bn. unfold fblock. rewrite (Ha NDIRECT) by done. destruct (Z.ltb_spec bn NDIRECT); [|done]. apply Ha. lia. }
  constructor; [|done|cbn; unfold MAXBYTES, MAXFILE; split; [lia|done]|intros Hk; cbn in Hk; lia|].
  - constructor; try done; [by left|intros bn _; by left|..]; intros bn; rewrite Hfb; done.
  - unfold inode_place. change (IBLOCK (i_inum ino1) sb1) with 32. cbn. unfold home, FSSIZE. lia.
Qed.

Lemma balloc_fresh_witness : ∃ (s : fs lstate) f, f 33 = bits1 ∧
  runs (balloc 1) s (λ b s', ∃ f' L', fs_at s' ∅ f' L' cache1 sb1 ∧
    33 < b < 100 ∧ used sb1 f b = false ∧ (∀ j, 0 ≤ j < b → used sb1 f j = true) ∧
    f' b = zero_block ∧ (∀ j, 0 ≤ j < 100 → used sb1 f' j = bool_decide (j = b) || used sb1 f j) ∧
    ∀ k, k ≠ b → k ≠ 33 → f' k = f k).
Proof.
  destruct fs1 as (s & f & Hs & Hf & _). exists s, f. split; [exact Hf|].
  apply (balloc_fresh s f ∅ cache1 sb1 Hs geo1 (reserved1 f Hf)); [rewrite size_empty; lia|].
  exists 50. split; [cbn; lia|]. unfold used. cbn [sb_bmapstart sb1]. rewrite Hf. reflexivity.
Defined.

Lemma write_then_read_witness : ∃ s : fs lstate,
  runs (k ← writei (λ _, None) 0%nat [7; 8] 0; r ← readi (λ _, None) 0%nat 1 5; mret (k, r)) s
    (λ r _, r = (2, (1, [8]))).
Proof.
  destruct fs1 as (s & f & Hs & Hf & _). exists s.
  apply (write_then_read sb1 geo1 (λ _, None) (λ _, None) s f ∅ cache1 0%nat ino1 0 [7; 8] 1 5 Hs eq_refl (file1 f) (reserved1 f Hf));
    try (cbn; lia).
  - cbn. unfold MAXBYTES, MAXFILE. done.
  - repeat constructor; unfold is_u8; lia.
  - rewrite size_empty. vm_compute. done.
  - pose proof (free1 f Hf). change (rounds 0 _) with 1. lia.
Defined.

Lemma writei_invariant_witness : ∃ (s : fs lstate) f,
  runs (writei (λ _, None) 0%nat [7; 8] 0) s (λ _ s', ∃ f' i' L', fs_at s' ∅ f' L' [i'; dir1; zero_inode] sb1 ∧
    file_ok sb1 f' i' ∧ reserved sb1 f' ∧ synced sb1 f' i' ∧
    ∀ j, inode_wf sb1 f j → (∀ k, owned f j k → ¬ owned f ino1 k) →
      inode_wf sb1 f' j ∧ (∀ k, owned f' j k → ¬ owned f' i' k) ∧ ∀ bn, 0 ≤ bn < MAXFILE → fdata f' j bn = fdata f j bn).
Proof.
  destruct fs1 as (s & f & Hs & Hf & H32 & _). exists s, f.
  apply (writei_invariant sb1 geo1 (λ _, None) s f ∅ cache1 0%nat ino1 0 [7; 8] Hs eq_refl (file1 f) (reserved1 f Hf)); try (cbn; lia).
  - unfold synced. change (IBLOCK (i_inum ino1) sb1) with 32. rewrite H32. reflexivity.
  - cbn. unfold MAXBYTES, MAXFILE. done.
  - repeat constructor; unfold is_u8; lia.
  - rewrite size_empty. vm_compute. done.
  - pose proof (free1 f Hf). change (rounds 0 _) with 1. lia.
Defined.

Lemma fblock_dir1 f bn : 0 ≤ bn → fblock f dir1 bn = if decide (bn = 0) then 40 else 0.
Proof.
  intros Hbn. assert (Ha : ∀ k, 0 < k ≤ NDIRECT → addr_at dir1 k = 0).
  { intros k Hk. unfold addr_at. apply list_lookup_total_correct.
    change (i_addrs dir1) with (40 :: replicate 12 0). destruct (Z.to_nat k) as [|n] eqn:E; [lia|].
    apply lookup_replicate. split; [done|]. unfold NDIRECT in *. lia. }
  unfold fblock. rewrite (Ha NDIRECT) by done. destruct (Z.ltb_spec bn NDIRECT), (decide (bn = 0)) as [->|]; try done.
  apply Ha. lia.
Qed.

Lemma dir1_ok f : f 33 = bits1 → dir_ok (BL := laws1) sb1 f dir1.
Proof.
  intros Hf. pose proof (fblock_dir1 f) as Hfb. assert (Hd : data_block sb1 f 40).
  { split; [cbn; lia|]. unfold used. cbn [sb_bmapstart sb1]. rewrite Hf. reflexivity. }
  constructor; [|done..]. constructor; [|done|split; [done|vm_compute; done]| |].
  - constructor; [done..|by left| | |].
    + intros bn Hbn. rewrite Hfb by lia. case_decide; [by right|by left].
    + intros bn bn' H1 H2. rewrite !Hfb by lia. repeat case_decide; naive_solver.
    + intros bn Hbn. rewrite Hfb by lia. by case_decide.
  - intros _ bn H1 H2. rewrite Zdiv_0_l in H1. cbn [i_size dir1 set_isize] in H2. rewrite Hfb by lia. rewrite decide_True; [done|]. unfold BSIZE in *. lia.
  - unfold inode_place. change (IBLOCK (i_inum dir1) sb1) with 32. cbn. unfold home, FSSIZE. lia.
Qed.

Lemma content_dir1 f : f 40 = names1 → content f dir1 = le16 1 ++ strncpy 14 [97].
Proof.
  intros Hf. unfold content, fbyte. cbn [i_size dir1 set_isize]. rewrite <- (list_fmap_ext (λ o, names1 !!! Z.to_nat o)).
  - reflexivity.
  - intros k o [-> Ho]%lookup_seqZ. assert (E : (0 + Z.of_nat k) / BSIZE = 0) by (apply Z.div_small; unfold BSIZE; lia).
    rewrite E, Z.mod_small by (unfold BSIZE; lia). unfold fdata. rewrite fblock_dir1 by lia. by rewrite decide_True, Hf.
Qed.

(** the entry is found, and a second one can be added *)
Lemma dirlookup_correct_witness : ∃ (s : fs lstate) f,
  dir_lookup (content f dir1) [97] = Some 1 ∧
  runs (dirlookup (λ _, None) 1%nat [97]) s (λ r s',
    match r with
    | None => dir_lookup (content f dir1) [97] = None ∧ fs_at s' ∅ f ∅ cache1 sb1
    | Some (ip, off) => ∃ i k de, dir_find (content f dir1) [97] = Some (k, de) ∧ off = 16 * Z.of_nat k ∧
        fs_at s' ∅ f ∅ (<[ip := i]> cache1) sb1 ∧ (ip < length cache1)%nat ∧
        i_dev i = i_dev dir1 ∧ i_inum i = de_inum de ∧ 0 < i_ref i
    end).
Proof.
  destruct fs1 as (s & f & Hs & Hf & _ & H40). exists s, f. split; [rewrite (content_dir1 f H40); reflexivity|].
  apply (dirlookup_correct sb1 geo1 (λ _, None) s f ∅ cache1 1%nat dir1 [97] Hs eq_refl (dir1_ok f Hf)).
  - split; [exists 2%nat, zero_inode; split; reflexivity|]. intros k i Hk.
    destruct k as [|[|[|k]]]; cbn in Hk; [injection Hk as <-; cbn; lia..|discriminate].
  - rewrite size_empty. lia.
Defined.

Lemma dirlink_inserts_witness : ∃ (s : fs lstate) f,
  runs (dirlink 1 (λ _, None) (λ _, None) 1%nat [98] 1) s (λ r s', r = 0 ∧
    ∃ f' d' L', fs_at s' ∅ f' L' (<[1%nat := d']> cache1) sb1 ∧ dir_ok sb1 f' d' ∧
    ∀ name', dir_lookup (content f' d') name' =
      if decide (name_of name' = name_of [98]) then Some 1 else dir_lookup (content f dir1) name').
Proof.
  destruct fs1 as (s & f & Hs & Hf & _ & H40). exists s, f.
  apply (dirlink_inserts sb1 geo1 1 (λ _, None) (λ _, None) s f ∅ cache1 1%nat dir1 [98] 1 Hs eq_refl (dir1_ok f Hf) (reserved1 f Hf)).
  - lia.
  - apply Forall_singleton. unfold is_u8. lia.
  - rewrite (content_dir1 f H40). reflexivity.
  - cbn. vm_compute. discriminate.
  - rewrite size_empty. lia.
  - exact (free1 f Hf).
Defined.
