(* ===== verification/Mkfs.v ===== *)
(** * mkfs.c: the program that makes the disk image

    The image is a file of sectors; a read past its end makes the program print an
    error and exit ([Panic]), and so does an [assert] that fails.  A [struct dinode]
    is read into and written from an [inode], whose other fields it does not touch.
    [xint] and [xshort] put integers into little-endian order, which is how [Block]
    encodes them.  The arguments of [main] are the names of the files with their
    contents; that the host opens, reads and writes files without error is part of
    the model. *)

From S2P Require Import Prelude Block Bio Log Fs.

Definition NINODES : Z := 200.
Definition nbitmap : Z := FSSIZE / (BSIZE * 8) + 1.
Definition ninodeblocks : Z := NINODES / IPB + 1.
Definition nlog : Z := LOGSIZE.
Definition nmeta : Z := 2 + nlog + ninodeblocks + nbitmap.
Definition nblocks : Z := FSSIZE - nmeta.

Definition mkfs_sb : superblock :=
  {| sb_size := FSSIZE; sb_nblocks := nblocks; sb_ninodes := NINODES; sb_nlog := nlog;
     sb_logstart := 2; sb_inodestart := 2 + nlog; sb_bmapstart := 2 + nlog + ninodeblocks |}.

Record mk := { img : gmap Z (list Z); freeinode : Z; freeblock : Z }.

Abbreviation K := (M mk).

Definition wsect (sec : Z) (buf : list Z) : K unit :=
  modify (λ s, {| img := <[sec := buf]> (img s); freeinode := freeinode s; freeblock := freeblock s |}).

Definition rsect (sec : Z) : K (list Z) :=
  r ← gets (λ s, img s !! sec);
  match (r : option (list Z)) with Some buf => mret buf | None => panic "read" end.

(** a [struct dinode] of zeros, for the inode [inum] *)
Definition blank (inum : Z) : inode := set_inode_ids 1 inum zero_inode.

Definition winode (inum : Z) (ip : inode) : K unit :=
  let bn := IBLOCK inum mkfs_sb in
  buf ← rsect bn;
  wsect bn (put_bytes (dip_off inum) (encode_dinode ip) buf).

Definition rinode (inum : Z) : K inode :=
  let bn := IBLOCK inum mkfs_sb in
  buf ← rsect bn;
  mret (decode_dinode (dip_off inum) buf (blank inum)).

Definition ialloc (type : Z) : K Z :=
  inum ← gets freeinode;
  _ ← modify (λ s, {| img := img s; freeinode := u32 (freeinode s + 1); freeblock := freeblock s |});
  _ ← winode inum (set_nlink 1 (set_itype type (blank inum)));
  mret inum.

(** [freeblock++] *)
Definition new_block : K Z :=
  b ← gets freeblock;
  _ ← modify (λ s, {| img := img s; freeinode := freeinode s; freeblock := u32 (freeblock s + 1) |});
  mret b.

(** the loop of [balloc] from bit [i] on *)
Fixpoint mark_loop (n : nat) (i : Z) (buf : list Z) : list Z :=
  match n with
  | O => buf
  | S n => mark_loop n (i + 1) (mark_bit buf i)
  end.

Definition balloc (used : Z) : K unit :=
  if negb (used <? BSIZE * 8) then panic "assert"
  else wsect (sb_bmapstart mkfs_sb) (mark_loop (Z.to_nat used) 0 zero_block).

(** the block number [fbn] of the file, allocated if it is missing; also the inode,
    which is in memory *)
Definition file_block (din : inode) (fbn : Z) : K (Z * inode) :=
  if fbn <? NDIRECT then
    if addr_at din fbn =? 0 then
      b ← new_block;
      mret (b, set_addr fbn b din)
    else mret (addr_at din fbn, din)
  else
    din ← (if addr_at din NDIRECT =? 0 then
             b ← new_block;
             mret (set_addr NDIRECT b din)
           else mret din);
    let ind := addr_at din NDIRECT in
    let off := Z.to_nat (4 * (fbn - NDIRECT)) in
    indirect ← rsect ind;
    if get32 off indirect =? 0 then
      b ← new_block;
      _ ← wsect ind (put32 off b indirect);
      mret (b, din)
    else mret (get32 off indirect, din).

Fixpoint iappend_loop (fuel : nat) (din : inode) (p : list Z) (off n : Z) : K (inode * Z) :=
  match fuel with
  | O => λ _, NoFuel
  | S fuel =>
      if 0 <? n then
        let fbn := off / BSIZE in
        if negb (fbn <? MAXFILE) then panic "assert"
        else
          '(x, din) ← file_block din fbn;
          let n1 := Z.min n ((fbn + 1) * BSIZE - off) in
          buf ← rsect x;
          _ ← wsect x (put_bytes (Z.to_nat (off - fbn * BSIZE)) (take (Z.to_nat n1) p) buf);
          iappend_loop fuel din (drop (Z.to_nat n1) p) (off + n1) (n - n1)
      else mret (din, off)
  end.

Definition iappend (inum : Z) (p : list Z) : K unit :=
  let n := Z.of_nat (length p) in
  din ← rinode inum;
  '(din, off) ← iappend_loop (io_fuel n) din p (i_size din) n;
  winode inum (set_isize off din).

(** [for(i = 0; i < FSSIZE; i++) wsect(i, zeroes)] *)
Fixpoint zero_loop (n : nat) (i : Z) : K unit :=
  match n with
  | O => mret ()
  | S n => _ ← wsect i zero_block; zero_loop n (i + 1)
  end.

(** the super block and zeros up to the end of the sector *)
Definition sb_bytes : list Z :=
  put_bytes 0 (le32 (sb_size mkfs_sb) ++ le32 (sb_nblocks mkfs_sb) ++ le32 (sb_ninodes mkfs_sb) ++
    le32 (sb_nlog mkfs_sb) ++ le32 (sb_logstart mkfs_sb) ++ le32 (sb_inodestart mkfs_sb) ++
    le32 (sb_bmapstart mkfs_sb)) zero_block.

Definition dirent (inum : Z) (name : list Z) : list Z := le16 inum ++ strncpy (Z.to_nat DIRSIZ) name.

(** [while((cc = read(fd, buf, sizeof(buf))) > 0) iappend(inum, buf, cc)] *)
Fixpoint copy_file (fuel : nat) (inum : Z) (data : list Z) : K unit :=
  match fuel with
  | O => λ _, NoFuel
  | S fuel =>
      match data with
      | [] => mret ()
      | _ =>
          _ ← iappend inum (take (Z.to_nat BSIZE) data);
          copy_file fuel inum (drop (Z.to_nat BSIZE) data)
      end
  end.

Definition underscore : Z := 95.
Definition file_name (arg : list Z) : list Z :=
  match arg with c :: r => if c =? underscore then r else arg | [] => arg end.

Fixpoint add_files (rootino : Z) (files : list (list Z * list Z)) : K unit :=
  match files with
  | [] => mret ()
  | (arg, data) :: files =>
      if bool_decide (slash ∈ arg) then panic "assert"
      else
        inum ← ialloc T_FILE;
        _ ← iappend rootino (dirent inum (file_name arg));
        _ ← copy_file (S (length data)) inum data;
        add_files rootino files
  end.

Definition main (files : list (list Z * list Z)) : K unit :=
  _ ← modify (λ s, {| img := img s; freeinode := freeinode s; freeblock := nmeta |});
  _ ← zero_loop (Z.to_nat FSSIZE) 0;
  _ ← wsect 1 sb_bytes;
  rootino ← ialloc T_DIR;
  if negb (rootino =? ROOTINO) then panic "assert"
  else
    _ ← iappend rootino (dirent rootino [46]);
    _ ← iappend rootino (dirent rootino [46; 46]);
    _ ← add_files rootino files;
    din ← rinode rootino;
    _ ← winode rootino (set_isize ((i_size din / BSIZE + 1) * BSIZE) din);
    used ← gets freeblock;
    balloc used.

(** the program starts with an empty image *)
Definition mk0 : mk := {| img := ∅; freeinode := 1; freeblock := 0 |}.
Definition mkfs (files : list (list Z * list Z)) : outcome mk unit := main files mk0.
