(* ===== verification/MkfsBlocks.v ===== *)
(** * The blocks that mkfs hands out

    While [mkfs] runs, the bitmap is not on disk yet: the blocks below [freeblock]
    are the ones in use.  [view] is the disk with the bitmap that [balloc] is going
    to write, so that taking [freeblock] is the kernel's allocation of a block and
    [iappend] is a write at the end of a file, in the sense of [FsMap] and [FsRw]. *)

From Stdlib Require Import FunctionalExtensionality.
From S2P Require Import Prelude Block Bio BioSpec Log Fs FsLaws FsBits FsAlloc FsMap FsRw FsDir Mkfs.

(** ** The bitmap of the first [n] blocks *)

Definition bits (n : Z) : list Z := mark_loop (Z.to_nat n) 0 zero_block.

Lemma mark_loop_last n : ∀ i buf, mark_loop (S n) i buf = mark_bit (mark_loop n i buf) (i + Z.of_nat n).
Proof.
  induction n as [|n IH]; intros i buf; [cbn; f_equal; lia|].
  change (mark_loop (S (S n)) i buf) with (mark_loop (S n) (i + 1) (mark_bit buf i)). rewrite IH. cbn [mark_loop]. f_equal. lia.
Qed.

Lemma bits_next n : 0 ≤ n → bits (n + 1) = mark_bit (bits n) n.
Proof. intros Hn. unfold bits. replace (Z.to_nat (n + 1)) with (S (Z.to_nat n)) by lia. rewrite mark_loop_last. f_equal. lia. Qed.

Lemma bits_ok n : block_ok (bits n).
Proof.
  unfold bits. generalize (Z.to_nat n). intros k. induction k as [|k IH]; [apply zero_block_ok|].
  rewrite mark_loop_last. by apply mark_bit_ok.
Qed.

Lemma zero_bit b : 0 ≤ b < BPB → bit_set zero_block b = false.
Proof.
  intros Hb. pose proof (bit_byte _ _ zero_block_ok Hb) as Hl. rewrite bit_set_testbit. unfold zero_block in *.
  rewrite length_replicate in Hl. rewrite lookup_total_replicate_2 by done. apply Z.testbit_0_l.
Qed.

Lemma bits_set n b : 0 ≤ n ≤ BPB → 0 ≤ b < BPB → bit_set (bits n) b = (b <? n).
Proof.
  intros [Hn Hle] Hb. revert Hle. apply (natlike_ind (λ n, n ≤ BPB → bit_set (bits n) b = (b <? n))); [|clear n Hn|done].
  - intros _. rewrite (proj2 (Z.ltb_ge _ _)) by lia. by apply zero_bit.
  - intros n Hn IH Hle. change (Z.succ n) with (n + 1) in *. rewrite bits_next, mark_bit_set, IH by first [lia|apply bits_ok].
    destruct (Z.ltb_spec b (n + 1)), (Z.ltb_spec b n), (decide (b = n)); rewrite ?bool_decide_eq_true_2, ?bool_decide_eq_false_2 by done; cbn; lia || done.
Qed.

(** ** The disk as the kernel will see it *)

Abbreviation bm := (sb_bmapstart mkfs_sb).

Definition view (s : mk) (k : Z) : list Z :=
  if decide (k = bm) then bits (freeblock s) else default zero_block (img s !! k).

Record mk_ok (s : mk) : Prop := {
  mo_free : nmeta ≤ freeblock s ≤ FSSIZE;
  mo_dom k : 0 ≤ k < FSSIZE → is_Some (img s !! k);
  mo_blk k v : img s !! k = Some v → block_ok v;
  mo_new k : freeblock s ≤ k → view s k = zero_block;
  mo_sb : img s !! 1 = Some sb_bytes;
  mo_log k : 2 ≤ k < 2 + nlog → img s !! k = Some zero_block }.

Lemma view_ok s k : mk_ok s → block_ok (view s k).
Proof.
  intros Hs. unfold view. case_decide; [apply bits_ok|]. destruct (img s !! k) eqn:E; [by eapply mo_blk|apply zero_block_ok].
Qed.

Lemma view_used s b : mk_ok s → 0 ≤ b < BPB → used mkfs_sb (view s) b = (b <? freeblock s).
Proof.
  intros Hs Hb. unfold used, view. rewrite decide_True by done. apply bits_set; [|done].
  destruct Hs as [Hf _ _ _ _ _]. change nmeta with 59 in *. unfold FSSIZE, BPB, BSIZE in *. lia.
Qed.

Lemma rsect_runs s k (Q : list Z → mk → Prop) :
  mk_ok s → 0 ≤ k < FSSIZE → k ≠ bm → Q (view s k) s → runs (rsect k) s Q.
Proof.
  intros Hs Hk Hne HQ. unfold rsect. rprim. destruct (mo_dom _ Hs k Hk) as [v E]. unfold view in HQ.
  rewrite decide_False in HQ by done. rewrite E in *. by apply runs_ret.
Qed.

(** a sector of the inode area, or one that is in use *)
Lemma wsect_runs s k v (Q : unit → mk → Prop) :
  mk_ok s → 2 + nlog ≤ k < freeblock s → k ≠ bm → block_ok v →
  (∀ s', mk_ok s' → view s' = upd (view s) k v → freeblock s' = freeblock s → freeinode s' = freeinode s → Q () s') →
  runs (wsect k v) s Q.
Proof.
  intros Hs Hk Hne Hv HQ. apply runs_modify. set (s' := {| img := _ |}).
  assert (Hview : view s' = upd (view s) k v).
  { apply functional_extensionality. intros j. unfold view, upd. cbn [img freeblock s']. repeat case_decide; subst; try done.
    - by rewrite lookup_insert_eq.
    - by rewrite lookup_insert_ne by done. }
  apply HQ; [|done..]. destruct Hs as [Hf Hd Hb Hn Hsb Hl]. change nlog with 30 in *. constructor; cbn [img freeblock s'].
  - done.
  - intros j Hj. rewrite lookup_insert_is_Some. destruct (decide (k = j)); auto.
  - intros j w. rewrite lookup_insert_Some. intros [[_ <-]|[_ ?]]; eauto.
  - intros j Hj. change (freeblock s') with (freeblock s) in Hj. rewrite Hview, upd_ne by lia. auto.
  - rewrite lookup_insert_ne by lia. done.
  - intros j Hj. change nlog with 30 in Hj. rewrite lookup_insert_ne by lia. auto.
Qed.

Lemma new_block_runs s (Q : Z → mk → Prop) :
  mk_ok s → freeblock s < FSSIZE →
  (∀ s', mk_ok s' → view s' = allocated mkfs_sb (view s) (freeblock s) → freeblock s' = freeblock s + 1 →
     freeinode s' = freeinode s → Q (freeblock s) s') →
  runs new_block s Q.
Proof.
  intros Hs Hlt HQ. unfold new_block. rprim. apply runs_bind, runs_modify, runs_ret. set (s' := {| img := _ |}).
  pose proof (mo_free _ Hs) as Hf. change nmeta with 59 in *.
  assert (Hu : freeblock s' = freeblock s + 1) by (cbn; apply Z.mod_small; unfold FSSIZE in *; lia).
  assert (Hview : view s' = allocated mkfs_sb (view s) (freeblock s)).
  { apply functional_extensionality. intros j. unfold allocated, upd. case_decide as Ej.
    { subst j. unfold view. rewrite decide_False by (change bm with 58; lia). pose proof (mo_new _ Hs (freeblock s)) as Hn.
      unfold view in Hn. rewrite decide_False in Hn by (change bm with 58; lia). apply Hn. lia. }
    unfold view. rewrite Hu. case_decide; [|done]. rewrite decide_True by done. apply bits_next. lia. }
  apply HQ; [|done..]. destruct Hs as [_ Hd Hb Hn Hsb Hl]. constructor; try done; rewrite ?Hu.
  - change nmeta with 59. lia.
  - intros j Hj. rewrite Hview. rewrite allocated_other; [apply Hn; lia|lia|change bm with 58; lia].
Qed.

(** ** Blocks for a file that grows *)

(** the blocks of a file of [n] bytes, the indirect block included *)
Definition file_blocks (n : Z) : Z :=
  let c := (n + (BSIZE - 1)) / BSIZE in c + if NDIRECT <? c then 1 else 0.
(** the blocks that the next byte at offset [off] needs *)
Definition next_blocks (off : Z) : Z :=
  if off mod BSIZE =? 0 then if off / BSIZE =? NDIRECT then 2 else 1 else 0.

Lemma file_blocks_next off m :
  0 ≤ off → 0 < m ≤ BSIZE - off mod BSIZE → file_blocks (off + m) = file_blocks off + next_blocks off.
Proof.
  intros Hoff Hm. pose proof (Z.div_mod off BSIZE ltac:(done)) as Hdm. pose proof (Z.mod_pos_bound off BSIZE ltac:(done)) as Hr.
  set (q := off / BSIZE) in *. set (r := off mod BSIZE) in *. unfold BSIZE in Hdm, Hr, Hm.
  assert (E1 : (off + m + (BSIZE - 1)) / BSIZE = q + 1).
  { symmetry. apply (Z.div_unique_pos _ _ _ (r + m - 1)); unfold BSIZE; lia. }
  unfold file_blocks, next_blocks. fold q r. rewrite E1. destruct (Z.eqb_spec r 0) as [H0|H0].
  - assert (E2 : (off + (BSIZE - 1)) / BSIZE = q).
    { symmetry. apply (Z.div_unique_pos _ _ _ 511); unfold BSIZE; lia. }
    rewrite E2. destruct (Z.eqb_spec q NDIRECT), (Z.ltb_spec NDIRECT (q + 1)), (Z.ltb_spec NDIRECT q); lia.
  - assert (E2 : (off + (BSIZE - 1)) / BSIZE = q + 1).
    { symmetry. apply (Z.div_unique_pos _ _ _ (r - 1)); unfold BSIZE; lia. }
    rewrite E2. lia.
Qed.

Lemma file_blocks_mono n m : 0 ≤ n ≤ m → 0 ≤ file_blocks n ≤ file_blocks m.
Proof.
  intros H. unfold file_blocks. pose proof (Z.div_le_mono (n + (BSIZE - 1)) (m + (BSIZE - 1)) BSIZE ltac:(done) ltac:(lia)).
  pose proof (Z.div_pos (n + (BSIZE - 1)) BSIZE ltac:(unfold BSIZE; lia) ltac:(done)).
  destruct (Z.ltb_spec NDIRECT ((n + (BSIZE - 1)) / BSIZE)), (Z.ltb_spec NDIRECT ((m + (BSIZE - 1)) / BSIZE)); lia.
Qed.

(** no block past the first [off] bytes *)
Definition tight (f : Z → list Z) (i : inode) (off : Z) : Prop :=
  (∀ bn, 0 ≤ bn < MAXFILE → off ≤ bn * BSIZE → fblock f i bn = 0) ∧ (off ≤ NDIRECT * BSIZE → addr_at i NDIRECT = 0).

Section image.
  Context {S : Type} {BO : BufOps S} {BL : BufLaws S} (Hgeo : fs_geo (BL := BL) mkfs_sb).

Abbreviation inode_wf := (inode_wf mkfs_sb).
Abbreviation extends := (extends mkfs_sb).
Abbreviation evolves := (evolves mkfs_sb).

Lemma free_is_free s : mk_ok s → freeblock s < FSSIZE →
  block_ok (view s bm) ∧ bm < freeblock s < sb_size mkfs_sb ∧ used mkfs_sb (view s) (freeblock s) = false.
Proof.
  intros Hs Hlt. pose proof (mo_free _ Hs). change nmeta with 59 in *. split_and!; [by apply view_ok|change bm with 58; lia|done|].
  rewrite view_used; [apply Z.ltb_ge; lia|done|unfold BPB, BSIZE, FSSIZE in *; lia].
Qed.

(** a data block can be read *)
Lemma data_sector s b : mk_ok s → data_block mkfs_sb (view s) b → 0 ≤ b < FSSIZE ∧ b ≠ bm ∧ b < freeblock s.
Proof.
  intros Hs Hd. pose proof (data_block_small _ Hgeo _ _ Hd) as Hb. destruct Hd as [Hr Hu]. rewrite view_used, Z.ltb_lt in Hu by done.
  change bm with 58 in *. change (sb_size mkfs_sb) with FSSIZE in *. lia.
Qed.

(** the block that the file gets at [off], and what it has then *)
Record next_ok (s : mk) (i : inode) (off : Z) (s' : mk) (i' : inode) : Prop := {
  nx_mk : mk_ok s';
  nx_extends : extends 2 (view s) i (view s') i';
  nx_block : fblock (view s') i' (off / BSIZE) ≠ 0;
  nx_tight : tight (view s') i' ((off / BSIZE + 1) * BSIZE);
  nx_free : freeblock s' = freeblock s + next_blocks off;
  nx_inum : freeinode s' = freeinode s }.

Lemma tight_next f i off : 0 ≤ off → off mod BSIZE ≠ 0 → tight f i off → tight f i ((off / BSIZE + 1) * BSIZE).
Proof.
  intros Hoff Hm [H1 H2]. pose proof (Z.div_mod off BSIZE ltac:(done)). pose proof (Z.mod_pos_bound off BSIZE ltac:(done)).
  split; [intros bn Hb Hle; apply H1|intros Hle; apply H2]; unfold BSIZE in *; lia.
Qed.

(** the last block has room *)
Lemma file_block_old s i off (Q : Z * inode → mk → Prop) :
  mk_ok s → inode_wf (view s) i → 0 ≤ off < MAXBYTES → off mod BSIZE ≠ 0 → tight (view s) i off →
  fblock (view s) i (off / BSIZE) ≠ 0 →
  (next_ok s i off s i → Q (fblock (view s) i (off / BSIZE), i) s) → runs (file_block i (off / BSIZE)) s Q.
Proof.
  intros Hs Hw Hoff Hm Ht Hne HQ.
  assert (Hn : next_ok s i off s i).
  { constructor; try done.
    - split; [|done]. eapply evolves_le; [by apply evolves_refl|lia].
    - apply tight_next; [lia|done..].
    - unfold next_blocks. rewrite (proj2 (Z.eqb_neq _ _)) by done. lia. }
  unfold file_block. destruct (Z.ltb_spec (off / BSIZE) NDIRECT) as [Hlt|Hge].
  - rewrite fblock_direct in * by done. rewrite (proj2 (Z.eqb_neq _ _)) by done. apply runs_ret. auto.
  - assert (Ha : addr_at i NDIRECT ≠ 0) by (intros E; by rewrite fblock_missing in Hne).
    rewrite (proj2 (Z.eqb_neq _ _)) by done. apply runs_bind, runs_ret. cbv zeta. apply runs_bind.
    destruct (iw_ind _ _ _ Hw) as [|Hd]; [done|]. apply (data_sector _ _ Hs) in Hd as (? & ? & ?).
    apply rsect_runs; [done..|]. rewrite fblock_indirect in * by done. rewrite (proj2 (Z.eqb_neq _ _)) by done.
    apply runs_ret. auto.
Qed.

Lemma file_block_direct s i off (Q : Z * inode → mk → Prop) :
  mk_ok s → inode_wf (view s) i → 0 ≤ off < NDIRECT * BSIZE → off mod BSIZE = 0 → tight (view s) i off →
  freeblock s < FSSIZE →
  (∀ s' i', next_ok s i off s' i' → Q (fblock (view s') i' (off / BSIZE), i') s') → runs (file_block i (off / BSIZE)) s Q.
Proof.
  intros Hs Hw Hoff Hm [Ht1 Ht2] Hlt HQ. pose proof (Z.div_mod off BSIZE ltac:(done)) as Hdm.
  assert (Hbn : 0 ≤ off / BSIZE < NDIRECT) by (unfold BSIZE, NDIRECT in *; lia). set (k := off / BSIZE) in *.
  assert (H0 : fblock (view s) i k = 0) by (apply Ht1; unfold BSIZE in *; flia).
  destruct (free_is_free s Hs Hlt) as (Hbo & Hb & Hu).
  destruct (extends_direct mkfs_sb Hgeo _ _ _ _ Hw Hbn H0 Hbo Hb Hu) as [Hx Hk].
  unfold file_block. rewrite (proj2 (Z.ltb_lt _ _)) by lia. rewrite fblock_direct in H0 by lia. rewrite H0. cbn [Z.eqb].
  apply runs_bind, new_block_runs; [done..|]. intros s' Hs' Hv Hf Hi. apply runs_ret. rewrite <- Hv in *.
  pose proof (iw_len _ _ _ Hw) as Hlen. rewrite <- Hk at 1. apply HQ. constructor; try done.
  - eapply extends_le; [done|lia].
  - fold k. rewrite Hk. change bm with 58 in *. lia.
  - assert (Hind : addr_at (set_addr k (freeblock s) i) NDIRECT = 0).
    { rewrite set_addr_at, decide_False by (done || flia). apply Ht2. unfold BSIZE in *. flia. }
    split; [|done]. intros bn Hr Hle. fold k in Hle. destruct (decide (bn < NDIRECT)).
    + assert (bn ≠ k) by (unfold BSIZE in *; lia). rewrite fblock_direct, set_addr_at, decide_False by (done || flia).
      rewrite <- (fblock_direct (view s)) by done. apply Ht1; [done|]. unfold BSIZE in *. lia.
    + apply fblock_missing; [lia|done].
  - unfold next_blocks. fold k. rewrite Hm. change (0 =? 0) with true. cbv iota. rewrite (proj2 (Z.eqb_neq _ _)) by flia. done.
Qed.

(** the entry of the indirect block *)
Lemma file_entry_runs s i off (Q : Z * inode → mk → Prop) :
  mk_ok s → inode_wf (view s) i → NDIRECT ≤ off / BSIZE < MAXFILE → off mod BSIZE = 0 → addr_at i NDIRECT ≠ 0 →
  (∀ bn, 0 ≤ bn < MAXFILE → off ≤ bn * BSIZE → fblock (view s) i bn = 0) → freeblock s < FSSIZE →
  (∀ s', mk_ok s' → extends 1 (view s) i (view s') i → fblock (view s') i (off / BSIZE) ≠ 0 →
     tight (view s') i ((off / BSIZE + 1) * BSIZE) → freeblock s' = freeblock s + 1 → freeinode s' = freeinode s →
     Q (fblock (view s') i (off / BSIZE), i) s') →
  runs (let ind := addr_at i NDIRECT in
    let off := Z.to_nat (4 * (off / BSIZE - NDIRECT)) in
    indirect ← rsect ind;
    if get32 off indirect =? 0 then
      b ← new_block;
      _ ← wsect ind (put32 off b indirect);
      mret (b, i)
    else mret (get32 off indirect, i)) s Q.
Proof.
  intros Hs Hw Hbn Hm Ha Ht Hlt HQ. pose proof (Z.div_mod off BSIZE ltac:(done)) as Hdm. set (k := off / BSIZE) in *.
  assert (H0 : fblock (view s) i k = 0) by (apply Ht; unfold BSIZE in *; flia).
  destruct (free_is_free s Hs Hlt) as (_ & Hb & Hu).
  destruct (extends_entry mkfs_sb Hgeo _ _ _ _ Hw Hbn Ha H0 (λ n, view_ok s n Hs) Hb Hu) as [Hx Hk].
  destruct (iw_ind _ _ _ Hw) as [|Hd]; [done|]. apply (data_sector _ _ Hs) in Hd as (Hr & Hne & Hlt').
  cbv zeta. apply runs_bind, rsect_runs; [done..|]. rewrite fblock_indirect in H0 by (done || lia). rewrite H0. cbn [Z.eqb].
  apply runs_bind, new_block_runs; [done..|]. intros s1 Hs1 Hv1 Hf1 Hi1. rewrite <- Hv1 in *. set (v := put32 _ _ _) in *.
  destruct (view_ok s (addr_at i NDIRECT) Hs) as [Hl _]. change (Z.to_nat BSIZE) with 512%nat in Hl.
  apply runs_bind, wsect_runs; [done| |done| |].
  { destruct (iw_ind _ _ _ Hw) as [|[Hd _]]; [done|]. change bm with 58 in *. change (2 + nlog) with 32. lia. }
  { apply put_bytes_ok; [by apply view_ok|cbn; flia|apply le32_bytes]. }
  intros s2 Hs2 Hv2 Hf2 Hi2. rewrite <- Hv2 in *. apply runs_ret. rewrite <- Hk at 1.
  apply HQ; [done..| | |lia|congruence]; [rewrite Hk; change bm with 58 in *; lia|]. split.
  - intros bn Hb2 Hle. assert (k < bn) by (unfold BSIZE in *; lia).
    rewrite fblock_indirect, Hv2, upd_eq by (done || lia). unfold v. rewrite get32_put32_ne by (unfold BSIZE in *; flia).
    rewrite <- fblock_indirect by (done || lia). apply Ht; [done|]. unfold BSIZE in *. lia.
  - unfold BSIZE in *. flia.
Qed.

Lemma file_block_indirect s i off (Q : Z * inode → mk → Prop) :
  mk_ok s → inode_wf (view s) i → NDIRECT * BSIZE ≤ off < MAXBYTES → off mod BSIZE = 0 → tight (view s) i off →
  (NDIRECT * BSIZE < off → addr_at i NDIRECT ≠ 0) → freeblock s + next_blocks off ≤ FSSIZE →
  (∀ s' i', next_ok s i off s' i' → Q (fblock (view s') i' (off / BSIZE), i') s') → runs (file_block i (off / BSIZE)) s Q.
Proof.
  intros Hs Hw Hoff Hm [Ht1 Ht2] Hind Hlt HQ. pose proof (Z.div_mod off BSIZE ltac:(done)) as Hdm.
  assert (Hbn : NDIRECT ≤ off / BSIZE < MAXFILE) by (unfold MAXBYTES, MAXFILE, NINDIRECT, BSIZE in *; flia).
  assert (Hnb : next_blocks off = if off / BSIZE =? NDIRECT then 2 else 1) by (unfold next_blocks; by rewrite Hm).
  unfold file_block. rewrite (proj2 (Z.ltb_ge _ _)) by lia. apply runs_bind. rewrite Hnb in *.
  destruct (Z.eqb_spec (off / BSIZE) NDIRECT) as [E|E].
  - rewrite Ht2 by (unfold BSIZE in *; flia). cbn [Z.eqb]. apply runs_bind.
    destruct (free_is_free s Hs ltac:(lia)) as (Hbo & Hb & Hu).
    destruct (extends_indirect mkfs_sb Hgeo _ _ _ Hw (Ht2 ltac:(unfold BSIZE in *; flia)) Hbo Hb Hu) as (Hx & Hk & Hsame).
    apply new_block_runs; [done|lia|]. intros s1 Hs1 Hv1 Hf1 Hi1. apply runs_ret. rewrite <- Hv1 in *.
    set (i1 := set_addr _ _ _) in *. eapply (file_entry_runs s1 i1 off); try done; [apply Hx|rewrite Hk; change bm with 58 in *; lia| |lia|].
    + intros bn Hr Hle. rewrite Hsame by done. auto.
    + intros s2 Hs2 Hx2 Hne Ht Hf2 Hi2. apply HQ. constructor; try done; [by eapply (extends_trans _ Hgeo 1 1)|lia|congruence].
  - assert (Ha : addr_at i NDIRECT ≠ 0) by (apply Hind; unfold BSIZE in *; flia).
    rewrite (proj2 (Z.eqb_neq _ _)) by done. apply runs_ret.
    eapply (file_entry_runs s i off); try done; [lia|]. intros s2 Hs2 Hx2 Hne Ht Hf2 Hi2. apply HQ.
    constructor; try done; [eapply extends_le; [done|lia]|lia].
Qed.

Lemma file_block_runs s i off (Q : Z * inode → mk → Prop) :
  mk_ok s → inode_wf (view s) i → 0 ≤ off < MAXBYTES → present (view s) i 0 off → tight (view s) i off →
  freeblock s + next_blocks off ≤ FSSIZE →
  (∀ s' i', next_ok s i off s' i' → Q (fblock (view s') i' (off / BSIZE), i') s') → runs (file_block i (off / BSIZE)) s Q.
Proof.
  intros Hs Hw Hoff Hp Ht Hf HQ. pose proof (Z.div_mod off BSIZE ltac:(done)). pose proof (Z.mod_pos_bound off BSIZE ltac:(done)).
  destruct (decide (off mod BSIZE = 0)) as [Hm|Hm].
  2: { eapply file_block_old; [done..| |auto]. apply Hp; rewrite ?Zdiv_0_l; unfold BSIZE in *; lia. }
  destruct (decide (off < NDIRECT * BSIZE)).
  - eapply file_block_direct; [done..|lia|done|done| |done]. unfold next_blocks in Hf. rewrite Hm in Hf. cbn [Z.eqb] in Hf.
    case_match; lia.
  - eapply file_block_indirect; [done|done|lia|done|done| |done|done]. intros Hlt E.
    apply (Hp ltac:(unfold BSIZE in *; flia) NDIRECT); [rewrite Zdiv_0_l; flia|lia|]. by apply fblock_missing.
Qed.

Lemma tight_within f i q o : q * BSIZE < o ≤ (q + 1) * BSIZE → tight f i ((q + 1) * BSIZE) → tight f i o.
Proof. intros Ho [H1 H2]. split; [intros bn Hb Hle; apply H1|intros Hle; apply H2]; unfold BSIZE in *; flia. Qed.

Lemma present_next n f i f' i' off m :
  evolves n f i f' i' → present f i 0 off → 0 ≤ off → off + m ≤ MAXBYTES → off mod BSIZE + m ≤ BSIZE →
  fblock f' i' (off / BSIZE) ≠ 0 → present f' i' 0 (off + m).
Proof.
  intros Hx Hp Hoff Hmax Hm Hq _ bn H1 H2. rewrite Zdiv_0_l in H1. pose proof (Z.div_mod off BSIZE ltac:(done)).
  pose proof (Z.mod_pos_bound off BSIZE ltac:(done)). destruct (decide (bn = off / BSIZE)) as [->|]; [done|].
  assert (bn * BSIZE < off) by (unfold BSIZE in *; lia). assert (0 ≤ bn < MAXFILE) by (unfold MAXBYTES, BSIZE in *; lia).
  rewrite (ex_mono _ _ _ _ _ _ Hx); [apply Hp|done|apply Hp]; rewrite ?Zdiv_0_l; unfold BSIZE in *; lia.
Qed.

(** what [iappend_loop] does to the disk *)
Record appended (s : mk) (i : inode) (off : Z) (p : list Z) (s' : mk) (i' : inode) : Prop := {
  ap_mk : mk_ok s';
  ap_evolves : ∃ n, evolves n (view s) i (view s') i';
  ap_bytes o : 0 ≤ o < MAXBYTES → fbyte (view s') i' o = overlay (fbyte (view s) i) off p o;
  ap_present : present (view s') i' 0 (off + Z.of_nat (length p));
  ap_tight : tight (view s') i' (off + Z.of_nat (length p));
  ap_free : freeblock s' + file_blocks off = freeblock s + file_blocks (off + Z.of_nat (length p));
  ap_inum : freeinode s' = freeinode s }.

(** one round *)
Lemma append_round s i off c (k : inode → K (inode * Z)) (Q : inode * Z → mk → Prop) :
  mk_ok s → inode_wf (view s) i → 0 ≤ off → (0 < length c)%nat → off mod BSIZE + Z.of_nat (length c) ≤ BSIZE →
  off + Z.of_nat (length c) ≤ MAXBYTES → Forall (λ b, is_u8 b) c → present (view s) i 0 off → tight (view s) i off →
  freeblock s + next_blocks off ≤ FSSIZE →
  (∀ s' i', appended s i off c s' i' → runs (k i') s' Q) →
  runs ('(x, i) ← file_block i (off / BSIZE);
        buf ← rsect x;
        _ ← wsect x (put_bytes (Z.to_nat (off - off / BSIZE * BSIZE)) c buf);
        k i) s Q.
Proof.
  intros Hs Hw Hoff Hc Hfit Hmax Hby Hp Ht Hf HQ. pose proof (Z.div_mod off BSIZE ltac:(done)) as Hdm.
  pose proof (Z.mod_pos_bound off BSIZE ltac:(done)) as Hmod. replace (off - off / BSIZE * BSIZE) with (off mod BSIZE) by lia.
  assert (Hbn : 0 ≤ off / BSIZE < MAXFILE) by (apply (block_range off 1); lia).
  apply runs_bind, file_block_runs; [done|done|lia|done..|]. intros s1 i1 [Hs1 [Hx1 Hd1] Hne Ht1 Hf1 Hi1].
  pose proof (ex_wf _ _ _ _ _ _ Hx1) as Hw1. destruct (iw_blk _ _ _ Hw1 _ Hbn) as [|Hd]; [done|].
  pose proof Hd as [Hrg _]. apply (data_sector _ _ Hs1) in Hd as (Hr & Hbm & Hlt).
  apply runs_bind, rsect_runs; [done..|]. set (v := put_bytes _ _ _).
  destruct (write_block mkfs_sb (view s1) i1 (off / BSIZE) v Hw1 Hbn Hne) as (Hx2 & Hfb2 & Hfd2).
  apply runs_bind, wsect_runs; [done| |done| |].
  { change bm with 58 in *. change (2 + nlog) with 32. lia. }
  { apply put_bytes_ok; [by apply view_ok| |done]. unfold BSIZE in *. lia. }
  intros s2 Hs2 Hv2 Hf2 Hi2. rewrite <- Hv2 in *. apply HQ.
  assert (Hx : evolves 2 (view s) i (view s2) i1) by by eapply (evolves_trans _ Hgeo 2 0).
  constructor; [done|by eexists| | | | |congruence].
  - assert (Hfd1 : view s1 (fblock (view s1) i1 (off / BSIZE)) = fdata (view s1) i1 (off / BSIZE)).
    { unfold fdata. by rewrite (proj2 (Z.eqb_neq _ _)). }
    apply fbyte_put; [lia|done|done|intros n; by apply view_ok|].
    intros bn Hb. rewrite Hfd2 by done. case_decide as E; [|by apply Hd1]. subst bn. unfold v. by rewrite Hfd1, Hd1.
  - eapply present_next; [done..|lia|lia|]. by rewrite Hfb2.
  - apply tight_within with (q := off / BSIZE); [unfold BSIZE in *; lia|]. destruct Ht1 as [T1 T2]. split; [|done].
    intros bn Hb Hle. rewrite Hfb2 by done. auto.
  - rewrite file_blocks_next by lia. lia.
Qed.

Lemma appended_nil s i off : mk_ok s → inode_wf (view s) i → present (view s) i 0 off → tight (view s) i off → appended s i off [] s i.
Proof.
  intros Hs Hw Hp Ht. constructor; cbn [length Z.of_nat]; rewrite ?Z.add_0_r; try done.
  - exists 0%nat. by apply evolves_refl.
  - intros o _. unfold overlay. by rewrite decide_False by (cbn; lia).
Qed.

Lemma appended_trans s i off (m : nat) p s1 i1 s2 i2 :
  (m ≤ length p)%nat → appended s i off (take m p) s1 i1 → appended s1 i1 (off + Z.of_nat m) (drop m p) s2 i2 →
  appended s i off p s2 i2.
Proof.
  intros Hm [_ [n1 Hx1] Hb1 _ _ Hf1 Hi1] [Hs2 [n2 Hx2] Hb2 Hp2 Ht2 Hf2 Hi2].
  rewrite length_drop in *. rewrite length_take, Nat.min_l in Hf1 by done.
  replace (off + Z.of_nat m + Z.of_nat (length p - m)) with (off + Z.of_nat (length p)) in * by lia.
  constructor; try done; [by eexists; eapply (evolves_trans _ Hgeo)| |lia|congruence].
  intros o Ho. rewrite Hb2, <- (overlay_split _ off m p) by done. apply overlay_ext. by apply Hb1.
Qed.

Lemma iappend_loop_runs fuel : ∀ s i off p (Q : inode * Z → mk → Prop),
  let n := Z.of_nat (length p) in
  mk_ok s → inode_wf (view s) i → 0 ≤ off → off + n ≤ MAXBYTES → Forall (λ b, is_u8 b) p →
  present (view s) i 0 off → tight (view s) i off → rounds off n < Z.of_nat fuel →
  freeblock s + file_blocks (off + n) - file_blocks off ≤ FSSIZE →
  (∀ s' i', appended s i off p s' i' → Q (i', off + n) s') → runs (iappend_loop fuel i p off n) s Q.
Proof.
  induction fuel as [|fuel IH]; intros s i off p Q n Hs Hw Hoff Hmax Hby Hp Ht Hfuel Hfree HQ.
  { pose proof (rounds_nonneg off n). lia. }
  cbn [iappend_loop]. destruct (Z.ltb_spec 0 n) as [Hn|Hn].
  2: { apply runs_ret. assert (p = []) as -> by (apply nil_length_inv; lia). assert (n = 0) as E by lia. rewrite E, Z.add_0_r in HQ.
    apply HQ. by apply appended_nil. }
  destruct (rounds_step off n Hoff Hn) as (Hm & Hfit & Hrd).
  assert (Em : Z.min n ((off / BSIZE + 1) * BSIZE - off) = Z.min n (BSIZE - off mod BSIZE)).
  { pose proof (Z.div_mod off BSIZE ltac:(done)). f_equal. lia. }
  cbv zeta. rewrite Em. clear Em. set (m := Z.min _ _) in *.
  pose proof (block_range off n Hoff Hn Hmax) as Hbn. rewrite (proj2 (Z.ltb_lt _ _)) by lia. cbn [negb].
  assert (Hmn : (Z.to_nat m ≤ length p)%nat) by lia.
  assert (Hlt : length (take (Z.to_nat m) p) = Z.to_nat m) by (rewrite length_take; lia).
  assert (Hld : Z.of_nat (length (drop (Z.to_nat m) p)) = n - m) by (rewrite length_drop; lia).
  pose proof (file_blocks_next off m Hoff ltac:(lia)) as Hfb. pose proof (file_blocks_mono (off + m) (off + n) ltac:(lia)).
  eapply (append_round s i off (take (Z.to_nat m) p)); rewrite ?Hlt; try done; try lia; [by apply Forall_take|].
  intros s1 i1 Ha. pose proof Ha as [Hs1 [k1 Hx1] _ Hp1 Ht1 Hf1 _]. rewrite Hlt, Z2Nat.id in * by lia.
  specialize (IH s1 i1 (off + m) (drop (Z.to_nat m) p) Q). cbv zeta in IH. rewrite Hld in IH.
  replace (off + m + (n - m)) with (off + n) in IH by lia.
  apply IH; try done; try lia; [apply Hx1|by apply Forall_drop|].
  intros s2 i2 Ha2. apply HQ. eapply (appended_trans s i off (Z.to_nat m)); [done..|]. by rewrite Z2Nat.id by lia.
Qed.
End image.
