(* ===== verification/MkfsFiles.v ===== *)
(** * The files of an image that mkfs is making

    [catalog] is the invariant of mkfs: the inodes allocated so far are files on the
    disk that share no block and that use up exactly the blocks below [freeblock].
    [ialloc] adds an empty file to it, and [iappend] and [copy_file] make one of its
    files longer. *)

From S2P Require Import Prelude Block Bio BioSpec Log Fs FsLaws FsBits FsAlloc FsMap FsRw FsDir Mkfs MkfsBlocks.

Fixpoint sumZ (l : list Z) : Z := match l with [] => 0 | x :: l => x + sumZ l end.

Lemma sumZ_app l l' : sumZ (l ++ l') = sumZ l + sumZ l'.
Proof. induction l as [|x l IH]; [done|]. cbn. rewrite IH. lia. Qed.
Lemma sumZ_insert l k x y : l !! k = Some x → sumZ (<[k := y]> l) = sumZ l - x + y.
Proof.
  revert k. induction l as [|z l IH]; intros [|k] Hk; [done..| |].
  - injection Hk as ->. cbn. lia.
  - change (sumZ (<[Datatypes.S k := y]> (z :: l))) with (z + sumZ (<[k := y]> l)). rewrite (IH k Hk). cbn. lia.
Qed.

Section catalog.
  Context {S : Type} {BO : BufOps S} {BL : BufLaws S} (Hgeo : fs_geo (BL := BL) mkfs_sb).
  Context (Hhome : ∀ b, 2 + nlog ≤ b < bm → bhome (BufLaws := BL) b).

Abbreviation inode_wf := (inode_wf mkfs_sb).
Abbreviation file_ok := (file_ok (BL := BL) mkfs_sb).
Abbreviation synced := (synced mkfs_sb).

(** ** Inodes *)

Definition new_inode (inum type : Z) : inode := set_nlink 1 (set_itype type (blank inum)).

Record inode_ok (f : Z → list Z) (i : inode) : Prop := {
  io_file : file_ok f i;
  io_synced : synced f i;
  io_tight : tight f i (i_size i);
  io_zero o : i_size i ≤ o < MAXBYTES → fbyte f i o = 0;
  io_type : i_type i = T_DIR ∨ i_type i = T_FILE;
  io_shape : i = set_addrs (i_addrs i) (set_isize (i_size i) (new_inode (i_inum i) (i_type i))) }.

Lemma inode_sector inum : 0 ≤ inum < NINODES → 2 + nlog ≤ IBLOCK inum mkfs_sb < bm.
Proof.
  intros H. unfold NINODES in H. unfold IBLOCK, u32. change IPB with 8. change (sb_inodestart mkfs_sb) with 32.
  change (2 + nlog) with 32. change bm with 58. assert (0 ≤ inum / 8 < 26) by (split; [apply Z.div_pos; lia|apply Z.div_lt_upper_bound; lia]).
  rewrite Z.mod_small by lia. lia.
Qed.

Lemma new_place i : 0 ≤ i_inum i < NINODES → inode_place (BL := BL) mkfs_sb i.
Proof.
  intros H. pose proof (inode_sector _ H) as Hb. change (2 + nlog) with 32 in *.
  split_and!; [lia|apply Hhome; change (2 + nlog) with 32; lia|lia|lia].
Qed.

Lemma wf_addrs f i : inode_wf f i → Forall (λ a, is_u32 a) (i_addrs i).
Proof.
  intros Hw. pose proof (iw_len _ _ _ Hw) as Hl. apply Forall_lookup. intros k a Hk.
  assert (Ea : addr_at i (Z.of_nat k) = a) by (unfold addr_at; rewrite Nat2Z.id; by apply list_lookup_total_correct).
  apply lookup_lt_Some in Hk. assert (Hd : a = 0 ∨ data_block mkfs_sb f a).
  { rewrite <- Ea. destruct (decide (Z.of_nat k = NDIRECT)) as [->|]; [by apply (iw_ind _ _ _ Hw)|].
    rewrite <- (fblock_direct f) by flia. apply (iw_blk _ _ _ Hw). flia. }
  destruct Hd as [->|[Hd _]]; [done|]. change bm with 58 in *. change (sb_size mkfs_sb) with 1000 in *. unfold is_u32. lia.
Qed.

Lemma inode_ok_fields f i : inode_ok f i → disk_fields i.
Proof.
  intros [Hf _ _ _ Ht Hsh]. pose proof (fo_size _ _ _ Hf) as Hs. assert (HMB : MAXBYTES = 71680) by done.
  constructor; try (rewrite Hsh; done).
  - destruct Ht as [-> | ->]; done.
  - unfold is_u32. lia.
  - split; [apply (fo_wf _ _ _ Hf)|]. eapply wf_addrs, (fo_wf _ _ _ Hf).
Qed.

Lemma rinode_runs s i (Q : inode → mk → Prop) :
  mk_ok s → 0 ≤ i_inum i < NINODES → inode_ok (view s) i → Q i s → runs (rinode (i_inum i)) s Q.
Proof.
  intros Hs Hn Hi HQ. pose proof (inode_sector _ Hn) as Hb. change (2 + nlog) with 32 in *. change bm with 58 in *.
  unfold rinode. apply runs_bind, rsect_runs; [done|unfold FSSIZE; lia|change bm with 58; lia|]. apply runs_ret.
  erewrite decode_encode; [|by eapply inode_ok_fields|apply (io_synced _ _ Hi)].
  assert (E : copy_fields i (blank (i_inum i)) = i) by (rewrite (io_shape _ _ Hi) at 3; by rewrite (io_shape _ _ Hi)).
  by rewrite E.
Qed.

Definition with_inode (f : Z → list Z) (i : inode) : Z → list Z :=
  let b := IBLOCK (i_inum i) mkfs_sb in upd f b (put_bytes (dip_off (i_inum i)) (encode_dinode i) (f b)).

Lemma dip_fits f i : (∀ k, block_ok (f k)) → 0 ≤ i_inum i → length (i_addrs i) = Z.to_nat (NDIRECT + 1) →
  (dip_off (i_inum i) + length (encode_dinode i) ≤ length (f (IBLOCK (i_inum i) mkfs_sb)))%nat.
Proof.
  intros Hf Hn Hl. rewrite length_encode by done. destruct (Hf (IBLOCK (i_inum i) mkfs_sb)) as [-> _]. by apply dip_off_fits.
Qed.

Lemma with_inode_synced f i : (∀ k, block_ok (f k)) → 0 ≤ i_inum i → length (i_addrs i) = Z.to_nat (NDIRECT + 1) →
  synced (with_inode f i) i.
Proof.
  intros Hf Hn Hl. unfold FsRw.synced, with_inode. rewrite upd_eq. rewrite <- (length_encode i Hl) at 1.
  apply get_put_bytes. by apply dip_fits.
Qed.

Lemma with_inode_other f i j : (∀ k, block_ok (f k)) → 0 ≤ i_inum i → length (i_addrs i) = Z.to_nat (NDIRECT + 1) →
  i_inum i < NINODES → 0 ≤ i_inum j < NINODES → i_inum j ≠ i_inum i → synced f j → synced (with_inode f i) j.
Proof.
  intros Hf Hn Hl Hni Hj Hne Hsy. unfold FsRw.synced, with_inode in *. unfold upd. case_decide as E; [|done]. rewrite <- Hsy, E.
  apply get_put_bytes_ne; [by apply dip_fits|]. rewrite length_encode by done. change (Z.to_nat DINODE_SIZE) with 64%nat.
  unfold dip_off. change DINODE_SIZE with 64. unfold IBLOCK, u32 in E. unfold NINODES in *. change IPB with 8 in *.
  change (sb_inodestart mkfs_sb) with 32 in E.
  assert (Hq : ∀ n, 0 ≤ n < 200 → 0 ≤ n / 8 + 32 < 2 ^ 32) by (intros n ?; zdm).
  rewrite (Z.mod_small (_ j / _ + _)), (Z.mod_small (_ i / _ + _)) in E by (apply Hq; lia). zdm.
Qed.

Lemma winode_runs s i (Q : unit → mk → Prop) :
  mk_ok s → 0 ≤ i_inum i < NINODES → length (i_addrs i) = Z.to_nat (NDIRECT + 1) →
  (∀ s', mk_ok s' → view s' = with_inode (view s) i → freeblock s' = freeblock s → freeinode s' = freeinode s → Q () s') →
  runs (winode (i_inum i) i) s Q.
Proof.
  intros Hs Hn Hl HQ. pose proof (inode_sector _ Hn) as Hb. pose proof (mo_free _ Hs) as Hf. unfold winode.
  change (2 + nlog) with 32 in *. change bm with 58 in *. change nmeta with 59 in *.
  apply runs_bind, rsect_runs; [done|unfold FSSIZE; lia|change bm with 58; lia|].
  apply wsect_runs; [done|change (2 + nlog) with 32; lia|change bm with 58; lia| |done].
  apply put_bytes_ok; [by apply view_ok| |apply encode_bytes]. pose proof (dip_fits (view s) i (λ k, view_ok s k Hs) ltac:(lia) Hl) as Hd.
  destruct (view_ok s (IBLOCK (i_inum i) mkfs_sb) Hs) as [E _]. by rewrite E in Hd.
Qed.

(** ** Changes to the disk that leave a file alone *)

Lemma same_file f f' j :
  inode_ok f j → inode_wf f' j → (∀ bn, 0 ≤ bn < MAXFILE → fblock f' j bn = fblock f j bn) →
  (∀ bn, 0 ≤ bn < MAXFILE → fdata f' j bn = fdata f j bn) → synced f' j →
  inode_ok f' j ∧ content f' j = content f j ∧ ∀ x, owned f' j x ↔ owned f j x.
Proof.
  intros [[Hw Ht Hsz Hp Hpl] _ [T1 T2] Hz Hty Hsh] Hw' Hfb Hfd Hsy.
  assert (Hbyte : ∀ o, 0 ≤ o < MAXBYTES → fbyte f' j o = fbyte f j o).
  { intros o Ho. unfold fbyte. rewrite Hfd; [done|]. apply (block_range o 1); lia. }
  split_and!.
  - constructor; [|done| | |done..].
    + constructor; try done. intros H bn H1 H2. rewrite Hfb; [by apply Hp|]. rewrite Zdiv_0_l in H1. unfold MAXBYTES, BSIZE in *. lia.
    + split; [|done]. intros bn Hb Hle. rewrite Hfb by done. auto.
    + intros o Ho. rewrite Hbyte by lia. auto.
  - apply list_eq. intros o. destruct (decide (Z.of_nat o < i_size j)).
    + rewrite !lookup_content by done. f_equal. apply Hbyte. lia.
    + rewrite !lookup_ge_None_2; [done|rewrite length_content; lia..].
  - intros x. unfold owned. split; (intros [Hx [E|(bn & Hb & E)]]; split; [done|by left|done|right; exists bn; split; [done|]; by rewrite Hfb in * by done]).
Qed.

Lemma view_reserved s : mk_ok s → reserved mkfs_sb (view s).
Proof.
  intros Hs b Hb. pose proof (mo_free _ Hs) as Hf. change bm with 58 in *. change nmeta with 59 in *.
  rewrite view_used by (done || (unfold BPB, BSIZE; lia)). apply Z.ltb_lt. lia.
Qed.

(** the inode sectors do not change while blocks are added to a file *)
Lemma evolves_synced n f i f' i' j :
  evolves mkfs_sb n f i f' i' → inode_wf f i → reserved mkfs_sb f → 0 ≤ i_inum j < NINODES → synced f j → synced f' j.
Proof.
  intros Hx Hw Hr Hj Hsy. unfold FsRw.synced in *. pose proof (inode_sector _ Hj) as Hb. change (2 + nlog) with 32 in *.
  change bm with 58 in *. rewrite (ex_other _ _ _ _ _ _ Hx); [done|unfold BPB, BSIZE; lia|change bm with 58; lia|apply Hr; change bm with 58; lia|].
  intros [? _]%(owned_data _ _ _ _ Hw). change bm with 58 in *. lia.
Qed.

(** ** The invariant *)

Record catalog (s : mk) (l : list inode) : Prop := {
  ct_mk : mk_ok s;
  ct_next : freeinode s = 1 + Z.of_nat (length l);
  ct_room : Z.of_nat (length l) < NINODES;
  ct_inum k i : l !! k = Some i → i_inum i = 1 + Z.of_nat k;
  ct_ok k i : l !! k = Some i → inode_ok (view s) i;
  ct_sep j k a b x : j ≠ k → l !! j = Some a → l !! k = Some b → owned (view s) a x → ¬ owned (view s) b x;
  ct_free : freeblock s = nmeta + sumZ (file_blocks ∘ i_size <$> l) }.

Lemma ct_range s l k i : catalog s l → l !! k = Some i → 0 ≤ i_inum i < NINODES.
Proof. intros Hc Hk. rewrite (ct_inum _ _ Hc k i Hk). apply lookup_lt_Some in Hk. pose proof (ct_room _ _ Hc). lia. Qed.

Lemma new_inode_wf f inum type : inode_wf f (new_inode inum type) ∧ ∀ bn, 0 ≤ bn < MAXFILE → fblock f (new_inode inum type) bn = 0.
Proof.
  assert (H0 : ∀ k, 0 ≤ k ≤ NDIRECT → addr_at (new_inode inum type) k = 0).
  { intros k Hk. unfold addr_at. apply lookup_total_replicate_2. unfold NDIRECT in *. lia. }
  assert (Hb : ∀ bn, 0 ≤ bn < MAXFILE → fblock f (new_inode inum type) bn = 0).
  { intros bn Hbn. unfold fblock. destruct (Z.ltb_spec bn NDIRECT); [apply H0; lia|]. by rewrite H0. }
  split; [|done]. constructor; [done..|left; by apply H0| | |].
  - intros bn Hbn. left. auto.
  - intros bn bn' Hbn _ Hne. by rewrite Hb in Hne.
  - intros bn Hbn Hne. by rewrite Hb in Hne.
Qed.

Lemma with_inode_kept s i j :
  mk_ok s → 0 ≤ i_inum i < NINODES → length (i_addrs i) = Z.to_nat (NDIRECT + 1) → 0 ≤ i_inum j < NINODES →
  i_inum j ≠ i_inum i → inode_ok (view s) j →
  inode_ok (with_inode (view s) i) j ∧ content (with_inode (view s) i) j = content (view s) j ∧
  ∀ x, owned (with_inode (view s) i) j x ↔ owned (view s) j x.
Proof.
  intros Hs Hi Hl Hj Hne Hok. pose proof (inode_sector _ Hi) as Hb. change (2 + nlog) with 32 in *.
  pose proof (with_inode_other (view s) i j (λ k, view_ok s k Hs) (proj1 Hi) Hl (proj2 Hi) Hj Hne (io_synced _ _ Hok)) as Hsy.
  unfold with_inode in *. set (v := put_bytes _ _ _) in *.
  destruct (wf_upd mkfs_sb (view s) j (IBLOCK (i_inum i) mkfs_sb) v (fo_wf _ _ _ (io_file _ _ Hok)) ltac:(lia)) as (H1 & H2 & H3 & _).
  by apply same_file.
Qed.

Lemma ialloc_runs s l type (Q : Z → mk → Prop) :
  catalog s l → Z.of_nat (length l) + 1 < NINODES → type = T_DIR ∨ type = T_FILE →
  (∀ s', let i := new_inode (1 + Z.of_nat (length l)) type in
     catalog s' (l ++ [i]) → content (view s') i = [] →
     (∀ k j, l !! k = Some j → content (view s') j = content (view s) j) → Q (i_inum i) s') →
  runs (Mkfs.ialloc type) s Q.
Proof.
  intros Hc Hroom Hty HQ. pose proof Hc as [Hs Hnext _ Hinum Hok Hsep Hfree]. unfold Mkfs.ialloc. rprim. rprim.
  set (s0 := {| img := _ |}). set (i := new_inode (freeinode s) type).
  assert (Hs0 : mk_ok s0 ∧ view s0 = view s) by (split; [destruct Hs; by constructor|done]). destruct Hs0 as [Hs0 Hv0].
  assert (Hi : 0 ≤ i_inum i < NINODES) by (cbn; lia).
  apply runs_bind. apply (winode_runs s0 i); [done..|]. intros s1 Hs1 Hv1 Hf1 Hi1. rewrite Hv0 in Hv1. apply runs_ret.
  assert (Hkept : ∀ k j, l !! k = Some j → inode_ok (view s1) j ∧ content (view s1) j = content (view s) j ∧
    ∀ x, owned (view s1) j x ↔ owned (view s) j x).
  { intros k j Hk. rewrite Hv1. apply with_inode_kept; [done..|by eapply ct_range| |by eapply Hok].
    rewrite (Hinum _ _ Hk). cbn. apply lookup_lt_Some in Hk. lia. }
  destruct (new_inode_wf (view s1) (freeinode s) type) as [Hw Hb]. fold i in Hw, Hb.
  assert (Hnone : ∀ x, ¬ owned (view s1) i x).
  { intros x [Hx [->|(bn & Hbn & <-)]]; [done|]. by rewrite Hb in Hx. }
  assert (Hio : inode_ok (view s1) i).
  { constructor; [constructor| | | |..]; try done.
    - by destruct Hty as [-> | ->].
    - by apply new_place.
    - rewrite Hv1. apply with_inode_synced; [intros k; by apply view_ok|lia|done].
    - split; [|done]. intros bn Hbn _. auto.
    - intros o Ho. unfold fbyte, fdata. rewrite Hb by (apply (block_range o 1); [cbn in Ho; lia..|lia]). cbn [Z.eqb].
      apply lookup_total_replicate_2. pose proof (Z.mod_pos_bound o BSIZE ltac:(done)). lia. }
  assert (Ei : i = new_inode (1 + Z.of_nat (length l)) type) by (unfold i; by rewrite Hnext).
  change (freeinode s) with (i_inum i). rewrite Ei in *. clearbody i. subst i.
  apply HQ; [|done|intros k j Hk; by apply Hkept in Hk as (_ & ? & _)]. constructor.
  - done.
  - rewrite Hi1. cbn. rewrite Hnext, length_app. cbn. unfold u32. rewrite Z.mod_small; [lia|]. unfold NINODES in *. lia.
  - rewrite length_app. cbn. lia.
  - intros k j [[_ Hk]|[Hk <-]]%lookup_snoc_Some; [by eapply Hinum|]. cbn. subst k. lia.
  - intros k j [[_ Hk]|[Hk <-]]%lookup_snoc_Some; [by apply Hkept in Hk as (? & _)|done].
  - intros j k a b x Hjk [[_ Hj]|[Hj <-]]%lookup_snoc_Some [[_ Hk]|[Hk <-]]%lookup_snoc_Some.
    + apply Hkept in Hj as Hj', Hk as Hk'. destruct Hj' as (_ & _ & ->), Hk' as (_ & _ & ->). by eapply Hsep.
    + intros _. apply Hnone.
    + by intros ?%Hnone.
    + by intros ?%Hnone.
  - rewrite Hf1. cbn [freeblock s0]. rewrite fmap_app, sumZ_app, Hfree. cbn. change (file_blocks 0) with 0. lia.
Qed.

(** ** Appending to a file *)

Lemma appended_written s i p s1 i1 :
  mk_ok s → inode_ok (view s) i → 0 ≤ i_inum i < NINODES → (0 < length p)%nat → i_size i + Z.of_nat (length p) ≤ MAXBYTES →
  appended s i (i_size i) p s1 i1 →
  let i2 := set_isize (i_size i + Z.of_nat (length p)) i1 in
  let f2 := with_inode (view s1) i2 in
  written (BL := BL) mkfs_sb (view s) i (i_size i) p f2 i2 ∧ inode_ok f2 i2 ∧ i_inum i2 = i_inum i ∧ i_type i2 = i_type i.
Proof.
  intros Hs [Hf Hsy Ht Hz Hty Hsh] Hn Hp Hmax [Hs1 [n Hx] Hb Hpr Ht1 _ _] i2 f2. pose proof (fo_size _ _ _ Hf) as Hsz.
  pose proof (ex_meta _ _ _ _ _ _ Hx) as Hmeta. pose proof (ex_wf _ _ _ _ _ _ Hx) as Hw1.
  assert (En : i_inum i2 = i_inum i) by (unfold i2; by rewrite Hmeta).
  assert (Et : i_type i2 = i_type i) by (unfold i2; by rewrite Hmeta).
  assert (Hsy2 : synced f2 i2).
  { apply with_inode_synced; [intros x; by apply view_ok|lia|apply (iw_len _ _ _ Hw1)]. }
  pose proof (inode_sector _ Hn) as Hsec. change (2 + nlog) with 32 in *.
  assert (Hwr : written (BL := BL) mkfs_sb (view s) i (i_size i) p f2 i2).
  { unfold f2, with_inode in *. rewrite En in *. eapply written_longer; try done; [by apply view_reserved|lia|lia|].
    intros Hk bn H1 H2. apply Hpr; [lia| |lia]. rewrite Zdiv_0_l. pose proof (Z.div_pos (i_size i) BSIZE ltac:(lia) ltac:(done)). lia. }
  assert (Hu : (∀ bn, 0 ≤ bn < MAXFILE → fblock f2 i1 bn = fblock (view s1) i1 bn) ∧
    ∀ bn, 0 ≤ bn < MAXFILE → fdata f2 i1 bn = fdata (view s1) i1 bn).
  { unfold f2, with_inode. rewrite En. set (v := put_bytes _ _ _).
    by destruct (wf_upd mkfs_sb (view s1) i1 (IBLOCK (i_inum i) mkfs_sb) v Hw1 ltac:(lia)) as (_ & ? & ? & _). }
  destruct Hu as [Hfb2 Hfd2]. split_and!; try done. constructor.
  - exact (wr_ok _ _ _ _ _ _ _ Hwr).
  - done.
  - destruct Ht1 as [T1 T2]. split; [|done]. intros bn Hbn Hle. change (fblock f2 i1 bn = 0). rewrite Hfb2 by done. by apply T1.
  - cbn [i_size i2 set_isize]. intros o Ho. unfold fbyte. change (fdata f2 i2) with (fdata f2 i1).
    rewrite Hfd2 by (apply (block_range o 1); lia). change (fbyte (view s1) i1 o = 0). rewrite Hb by lia. unfold overlay. rewrite decide_False by lia. apply Hz. lia.
  - by rewrite Et.
  - unfold i2. rewrite Hmeta. rewrite Hsh. done.
Qed.

(** file [k] has grown by [p], and nothing else has changed *)
Record grown (s : mk) (l : list inode) (k : nat) (i : inode) (p : list Z) (s' : mk) (i' : inode) : Prop := {
  gw_catalog : catalog s' (<[k := i']> l);
  gw_content : content (view s') i' = content (view s) i ++ p;
  gw_type : i_type i' = i_type i;
  gw_other j a : j ≠ k → l !! j = Some a → content (view s') a = content (view s) a }.

Lemma iappend_runs s l k i p (Q : unit → mk → Prop) :
  catalog s l → l !! k = Some i → Forall (λ b, is_u8 b) p → (0 < length p)%nat →
  i_size i + Z.of_nat (length p) ≤ MAXBYTES →
  freeblock s + file_blocks (i_size i + Z.of_nat (length p)) - file_blocks (i_size i) ≤ FSSIZE →
  (∀ s' i', grown s l k i p s' i' → Q () s') →
  runs (iappend (i_inum i) p) s Q.
Proof.
  intros Hc Hk Hby Hp Hmax Hfree HQ. pose proof Hc as [Hs Hnext Hroom Hinum Hok Hsep Hfr].
  pose proof (ct_range _ _ _ _ Hc Hk) as Hn. pose proof (Hok _ _ Hk) as Hi. pose proof (io_file _ _ Hi) as Hf.
  pose proof (fo_size _ _ _ Hf) as Hsz. unfold iappend. apply runs_bind, rinode_runs; [done..|].
  apply runs_bind. eapply (iappend_loop_runs Hgeo); [done|apply Hf|lia|done..|apply Hf|apply Hi|apply rounds_fuel; lia|done|].
  intros s1 i1 Ha. destruct (appended_written _ _ _ _ _ Hs Hi Hn Hp Hmax Ha) as (Hwr & Hio & En & Et).
  set (i2 := set_isize _ i1) in *. pose proof Ha as [Hs1 [n Hx] _ _ _ Hf1 Hn1]. rewrite <- En in Hn |- *.
  apply winode_runs; [done..|apply (iw_len _ _ _ (ex_wf _ _ _ _ _ _ Hx))|]. intros s2 Hs2 Hv2 Hf2 Hn2. rewrite <- Hv2 in *.
  assert (Hkept : ∀ j a, j ≠ k → l !! j = Some a → inode_ok (view s2) a ∧ content (view s2) a = content (view s) a ∧
    (∀ x, owned (view s2) a x ↔ owned (view s) a x) ∧ ∀ x, owned (view s2) a x → ¬ owned (view s2) i2 x).
  { intros j a Hjk Hj. pose proof (ct_range _ _ _ _ Hc Hj) as Hnj. pose proof (Hok _ _ Hj) as Hja.
    assert (Hdis : ∀ x, owned (view s) a x → ¬ owned (view s) i x) by (intros x; by eapply Hsep).
    destruct (written_other _ Hgeo _ _ _ _ _ _ a Hwr Hf (fo_wf _ _ _ (io_file _ _ Hja)) Hdis) as (Hw & Hd & Hfd).
    destruct (same_file (view s) (view s2) a) as (? & ? & ?); [done..| |done| |done].
    - intros bn _. eapply (written_fblock _ Hgeo); [done..|apply Hja|done].
    - rewrite Hv2. apply with_inode_other; [intros x; by apply view_ok|lia|apply (iw_len _ _ _ (ex_wf _ _ _ _ _ _ Hx))|lia|done| |].
      + rewrite En, (Hinum _ _ Hk), (Hinum _ _ Hj). lia.
      + eapply evolves_synced; [done|apply Hf|by apply view_reserved|done|apply Hja]. }
  pose proof (lookup_lt_Some _ _ _ Hk) as Hlt. apply HQ with i2. constructor.
  - constructor.
    + done.
    + rewrite length_insert. congruence.
    + by rewrite length_insert.
    + intros j a [(<- & <- & _)|[? Hj]]%list_lookup_insert_Some; [rewrite En; by apply Hinum|by apply Hinum].
    + intros j a [(<- & <- & _)|[? Hj]]%list_lookup_insert_Some; [done|]. by eapply Hkept.
    + intros j j' a b x Hjj [(<- & <- & _)|[? Hj]]%list_lookup_insert_Some [(<- & <- & _)|[? Hj']]%list_lookup_insert_Some; [done|..].
      * intros Ho Ho'. by eapply (Hkept j' b).
      * by eapply (Hkept j a).
      * destruct (Hkept j a) as (_ & _ & Ha' & _), (Hkept j' b) as (_ & _ & Hb' & _); [done..|]. rewrite Ha', Hb'. by apply (Hsep j j').
    + rewrite Hf2, list_fmap_insert. erewrite sumZ_insert; [|by rewrite list_lookup_fmap, Hk]. cbn in *. lia.
  - rewrite (wr_content _ _ _ _ _ _ _ Hwr). unfold put_bytes. rewrite <- (length_content (view s) i), firstn_all, drop_ge by lia.
    by rewrite app_nil_r.
  - done.
  - intros j a Hjk Hj. by eapply Hkept.
Qed.

Lemma inode_ok_size f i : inode_ok f i → i_size i = Z.of_nat (length (content f i)).
Proof. intros Hi. rewrite length_content. pose proof (fo_size _ _ _ (io_file _ _ Hi)). lia. Qed.

Lemma grown_facts s l k i p s' i' :
  catalog s l → l !! k = Some i → grown s l k i p s' i' →
  i_inum i' = i_inum i ∧ i_size i' = i_size i + Z.of_nat (length p) ∧
  freeblock s' = freeblock s + file_blocks (i_size i + Z.of_nat (length p)) - file_blocks (i_size i).
Proof.
  intros Hc Hk [Hc' Hcon _ _]. pose proof (lookup_lt_Some _ _ _ Hk) as Hlt.
  assert (Hk' : <[k := i']> l !! k = Some i') by by rewrite list_lookup_insert_eq.
  assert (Hsz : i_size i' = i_size i + Z.of_nat (length p)).
  { rewrite (inode_ok_size _ _ (ct_ok _ _ Hc' _ _ Hk')), Hcon, length_app, (inode_ok_size _ _ (ct_ok _ _ Hc _ _ Hk)). lia. }
  split_and!; [by rewrite (ct_inum _ _ Hc' _ _ Hk'), (ct_inum _ _ Hc _ _ Hk)|done|].
  rewrite (ct_free _ _ Hc'), (ct_free _ _ Hc), list_fmap_insert. erewrite sumZ_insert; [|by rewrite list_lookup_fmap, Hk].
  cbn. rewrite Hsz. lia.
Qed.

Lemma file_grown_trans s l k i p q s1 i1 s2 i2 :
  grown s l k i p s1 i1 → grown s1 (<[k := i1]> l) k i1 q s2 i2 → grown s l k i (p ++ q) s2 i2.
Proof.
  intros [Hc1 Hn1 Ht1 Ho1] [Hc2 Hn2 Ht2 Ho2]. rewrite list_insert_insert_eq in Hc2. constructor.
  - done.
  - by rewrite Hn2, Hn1, app_assoc.
  - congruence.
  - intros j a Hjk Hj. rewrite (Ho2 j a), (Ho1 j a); try done. by rewrite list_lookup_insert_ne.
Qed.

Lemma copy_file_runs fuel : ∀ s l k i data (Q : unit → mk → Prop),
  catalog s l → l !! k = Some i → Forall (λ b, is_u8 b) data → (length data < fuel)%nat →
  i_size i + Z.of_nat (length data) ≤ MAXBYTES →
  freeblock s + file_blocks (i_size i + Z.of_nat (length data)) - file_blocks (i_size i) ≤ FSSIZE →
  (∀ s' i', grown s l k i data s' i' → Q () s') → runs (copy_file fuel (i_inum i) data) s Q.
Proof.
  induction fuel as [|fuel IH]; intros s l k i data Q Hc Hk Hby Hfuel Hmax Hfree HQ; [lia|]. cbn [copy_file].
  assert (Hdata : data = [] ∨ (0 < length data)%nat) by (destruct data; [by left|right; cbn; lia]).
  destruct Hdata as [->|Hpos].
  { apply runs_ret, (HQ s i). constructor; [by rewrite list_insert_id|by rewrite app_nil_r|done..]. }
  pose proof (fo_size _ _ _ (io_file _ _ (ct_ok _ _ Hc _ _ Hk))) as Hsz.
  set (c := take (Z.to_nat BSIZE) data). set (r := drop (Z.to_nat BSIZE) data). assert (Ecr : data = c ++ r) by (symmetry; apply take_drop).
  assert (Hl : length data = (length c + length r)%nat) by (rewrite Ecr at 1; apply length_app).
  assert (Hc0 : (0 < length c)%nat) by (unfold c; rewrite length_take; change (Z.to_nat BSIZE) with 512%nat; lia).
  pose proof (file_blocks_mono (i_size i + Z.of_nat (length c)) (i_size i + Z.of_nat (length data)) ltac:(lia)) as Hmono.
  replace (match data with [] => mret () | _ :: _ => _ end) with (_ ← iappend (i_inum i) c; copy_file fuel (i_inum i) r)
    by (destruct data; [cbn in Hpos; lia|done]).
  apply runs_bind. eapply (iappend_runs s l k i c); [done..|by apply Forall_take|done|lia|lia|].
  intros s1 i1 Hg. destruct (grown_facts _ _ _ _ _ _ _ Hc Hk Hg) as (En & Es & Ef). rewrite <- En.
  apply (IH s1 (<[k := i1]> l) k i1); [apply Hg|apply list_lookup_insert_eq; by eapply lookup_lt_Some|by apply Forall_drop|lia|lia| |].
  - rewrite Es, Ef. replace (i_size i + Z.of_nat (length c) + Z.of_nat (length r)) with (i_size i + Z.of_nat (length data)) by lia. lia.
  - intros s2 i2 Hg2. apply (HQ s2 i2). rewrite Ecr. by eapply file_grown_trans.
Qed.
End catalog.
