(* ===== verification/MkfsSpec.v ===== *)
(** * The image that mkfs makes

    When the files fit on the disk, [mkfs] succeeds and its image is a file system
    that the kernel can mount: the log is empty, the bitmap has the blocks in use,
    and the root directory names each file with its contents. *)

From S2P Require Import Prelude Block Bio BioSpec Log LogSpec LogCrash LogRecover Fs FsLaws LogLaws FsBits FsAlloc FsMap FsRw FsDir Mkfs MkfsBlocks MkfsFiles.

(** ** The entries of the root directory *)

Abbreviation dot := 46 (only parsing).

Definition root_entries (files : list (list Z * list Z)) : list (list Z) :=
  dirent ROOTINO [dot] :: dirent ROOTINO [dot; dot] :: imap (λ k f, dirent (2 + Z.of_nat k) (file_name f.1)) files.

Lemma length_dirent inum name : length (dirent inum name) = 16%nat.
Proof. unfold dirent. rewrite length_app, length_strncpy. done. Qed.
Lemma dirent_bytes inum name : Forall (λ b, is_u8 b) name → Forall (λ b, is_u8 b) (dirent inum name).
Proof. intros Hn. apply Forall_app. split; [apply le16_bytes|by apply strncpy_bytes]. Qed.

Lemma dirent_inum inum name : 0 ≤ inum < 2 ^ 16 → de_inum (dirent inum name) = inum.
Proof. intros H. unfold de_inum, dirent. transitivity (u16 inum); [apply (le_val_le16 inum)|by apply Z.mod_small]. Qed.
Lemma dirent_name inum name : de_name (dirent inum name) = name_of name.
Proof. unfold de_name, dirent. change (drop 2 (le16 inum ++ ?l)) with l. apply cut_strncpy. Qed.

Lemma length_join es : Forall (λ e : list Z, length e = 16%nat) es → length (mjoin es) = (16 * length es)%nat.
Proof. induction 1 as [|e es He _ IH]; [done|]. change (mjoin (e :: es)) with (e ++ mjoin es). rewrite length_app, IH, He. cbn. lia. Qed.

Lemma entry_join es k e (r : list Z) : Forall (λ e : list Z, length e = 16%nat) es → es !! k = Some e → entry (mjoin es ++ r) k = e.
Proof.
  intros Hes. revert k. induction Hes as [|e' es He Hes IH]; intros [|k] Hk; [done..| |]; change (mjoin (e' :: es)) with (e' ++ mjoin es).
  - injection Hk as ->. unfold entry, get_bytes. rewrite <- app_assoc. by apply take_app_length'.
  - rewrite <- (IH k Hk). unfold entry, get_bytes. rewrite <- app_assoc.
    rewrite drop_app_ge by lia. do 2 f_equal. lia.
Qed.

Lemma entries_join es r : Forall (λ e : list Z, length e = 16%nat) es → take (length es) (entries (mjoin es ++ r)) = es.
Proof.
  intros Hes. pose proof (length_join es Hes) as Hl. apply list_eq. intros k. destruct (decide (k < length es)%nat) as [Hk|Hk].
  - destruct (lookup_lt_is_Some_2 es k Hk) as [e He]. rewrite lookup_take_lt by done. rewrite lookup_entries, He.
    + f_equal. by apply entry_join.
    + rewrite length_app, Hl. apply Nat.div_le_lower_bound; lia.
  - rewrite lookup_take_ge, lookup_ge_None_2 by lia. done.
Qed.

(** an entry is found when no earlier one has its name *)
Lemma dir_lookup_join es r k e name :
  Forall (λ e : list Z, length e = 16%nat) es → es !! k = Some e → de_is name e →
  (∀ j e', (j < k)%nat → es !! j = Some e' → de_name e' ≠ name_of name) →
  dir_lookup (mjoin es ++ r) name = Some (de_inum e).
Proof.
  intros Hes Hk He Hno. unfold dir_lookup, dir_find. rewrite <- (take_drop (length es) (entries (mjoin es ++ r))), entries_join by done.
  assert (Hf : list_find (de_is name) es = Some (k, e)).
  { apply list_find_Some. split_and!; [done..|]. intros j e' Hj Hlt [_ ?]. by apply (Hno j e'). }
  by rewrite (list_find_app_l _ _ _ _ _ Hf).
Qed.

Lemma zero_entry m : de_inum (replicate m 0) = 0.
Proof.
  unfold de_inum, get16, get_bytes. rewrite drop_0, take_replicate. generalize (2 `min` m)%nat. intros n.
  induction n as [|n IH]; [done|]. cbn. by rewrite IH.
Qed.

(** nothing is found under a name that no entry has *)
Lemma dir_lookup_absent es m name :
  Forall (λ e : list Z, length e = 16%nat) es → name_of name ∉ de_name <$> es →
  dir_lookup (mjoin es ++ replicate m 0) name = None.
Proof.
  intros Hes Hno. unfold dir_lookup, dir_find. assert (Hf : list_find (de_is name) (entries (mjoin es ++ replicate m 0)) = None); [|by rewrite Hf].
  apply list_find_None, Forall_lookup. intros k e Hk [Hin Hname].
  pose proof (lookup_lt_Some _ _ _ Hk) as Hkl. rewrite length_entries in Hkl.
  rewrite lookup_entries in Hk by done. injection Hk as Hk. destruct (decide (k < length es)%nat) as [Hlt|Hge].
  - destruct (lookup_lt_is_Some_2 es k Hlt) as [e' He']. rewrite (entry_join _ _ _ _ Hes He') in Hk. subst e'.
    apply Hno. rewrite Hname. apply list_elem_of_fmap_2. by eapply list_elem_of_lookup_2.
  - apply Hin. rewrite <- Hk. unfold entry, get_bytes. rewrite drop_app_ge by (rewrite (length_join _ Hes); lia).
    rewrite drop_replicate, take_replicate. apply zero_entry.
Qed.

(** ** The files *)

(** what mkfs accepts: a name without slashes and at most [MAXFILE] blocks *)
Record file_arg (f : list Z * list Z) : Prop := {
  fa_slash : slash ∉ f.1;
  fa_name : Forall (λ b, is_u8 b) f.1;
  fa_data : Forall (λ b, is_u8 b) f.2;
  fa_size : Z.of_nat (length f.2) ≤ MAXBYTES }.

Definition root_size (files : list (list Z * list Z)) : Z := 32 + 16 * Z.of_nat (length files).
(** the blocks that an image with these files has in use *)
Definition blocks_needed (files : list (list Z * list Z)) : Z :=
  nmeta + file_blocks (root_size files) + sumZ ((λ f, file_blocks (Z.of_nat (length f.2))) <$> files).

Lemma file_name_bytes arg : Forall (λ b, is_u8 b) arg → Forall (λ b, is_u8 b) (file_name arg).
Proof. intros H. destruct H as [|c r Hc Hr]; [constructor|]. cbn. case_match; [done|by constructor]. Qed.

Lemma root_entries_app files f :
  root_entries (files ++ [f]) = root_entries files ++ [dirent (2 + Z.of_nat (length files)) (file_name f.1)].
Proof. unfold root_entries. rewrite imap_app. cbn. by rewrite Nat.add_0_r. Qed.

Lemma root_entries_16 files : Forall (λ e : list Z, length e = 16%nat) (root_entries files).
Proof.
  unfold root_entries. repeat constructor; [apply length_dirent..|]. apply Forall_lookup. intros k e.
  rewrite list_lookup_imap. destruct (files !! k); [|done]. intros [= <-]. apply length_dirent.
Qed.
Lemma length_root_entries files : length (root_entries files) = (2 + length files)%nat.
Proof. unfold root_entries. cbn. by rewrite length_imap. Qed.

Lemma blocks_needed_app files f :
  blocks_needed (files ++ [f]) = nmeta + file_blocks (root_size files + 16) + sumZ ((λ f, file_blocks (Z.of_nat (length f.2))) <$> files) + file_blocks (Z.of_nat (length f.2)).
Proof.
  unfold blocks_needed, root_size. rewrite fmap_app, sumZ_app, length_app. cbn.
  replace (32 + 16 * Z.of_nat (length files + 1)) with (32 + 16 * Z.of_nat (length files) + 16) by lia. lia.
Qed.

Lemma blocks_needed_mono fs files : blocks_needed fs ≤ blocks_needed (fs ++ files).
Proof.
  unfold blocks_needed, root_size. rewrite fmap_app, sumZ_app, length_app.
  pose proof (file_blocks_mono (32 + 16 * Z.of_nat (length fs)) (32 + 16 * Z.of_nat (length fs + length files)) ltac:(lia)) as Hm.
  assert (0 ≤ sumZ ((λ f, file_blocks (Z.of_nat (length f.2))) <$> files)); [|lia]. clear Hm.
  induction files as [|f files IH]; [done|]. cbn [fmap list_fmap sumZ]. pose proof (file_blocks_mono 0 (Z.of_nat (length f.2)) ltac:(lia)). lia.
Qed.

Section main.
  Context {S : Type} {BO : BufOps S} {BL : BufLaws S} (Hgeo : fs_geo (BL := BL) mkfs_sb).
  Context (Hhome : ∀ b, 2 + nlog ≤ b < bm → bhome (BufLaws := BL) b).

(** the image so far has the files [done] *)
Record building (s : mk) (root : inode) (l : list inode) (done : list (list Z * list Z)) : Prop := {
  bd_catalog : catalog (BL := BL) s (root :: l);
  bd_type : i_type root = T_DIR;
  bd_root : content (view s) root = mjoin (root_entries done);
  bd_files : Forall2 (λ i f, i_type i = T_FILE ∧ content (view s) i = f.2) l done }.

Lemma building_facts s root l fs :
  building s root l fs → i_inum root = ROOTINO ∧ i_size root = root_size fs ∧ freeblock s = blocks_needed fs ∧ length l = length fs.
Proof.
  intros [Hc _ Hr Hl]. assert (Hsz : i_size root = root_size fs).
  { rewrite (inode_ok_size _ _ (ct_ok _ _ Hc 0%nat root eq_refl)), Hr, length_join, length_root_entries by apply root_entries_16.
    unfold root_size. lia. }
  split_and!; [by rewrite (ct_inum _ _ Hc 0%nat root eq_refl)|done| |by eapply Forall2_length].
  rewrite (ct_free _ _ Hc). cbn. rewrite Hsz. unfold blocks_needed.
  assert (E : file_blocks ∘ i_size <$> l = (λ f, file_blocks (Z.of_nat (length f.2))) <$> fs).
  { apply list_eq_Forall2, Forall2_fmap. apply Forall2_same_length_lookup. split; [by eapply Forall2_length|].
    intros k i f Hi Hf. destruct (Forall2_lookup_lr _ _ _ _ _ _ Hl Hi Hf) as [_ <-]. cbn.
    by rewrite (inode_ok_size _ _ (ct_ok _ _ Hc (Datatypes.S k) i Hi)). }
  rewrite <- E. lia.
Qed.

(** one file: its inode, its entry and its contents *)
Lemma add_file_runs s root l fs f (k : K unit) (Q : unit → mk → Prop) :
  building s root l fs → file_arg f → Z.of_nat (length fs) + 2 < NINODES → blocks_needed (fs ++ [f]) ≤ FSSIZE →
  (∀ s' root' l', building s' root' l' (fs ++ [f]) → runs k s' Q) →
  runs (inum ← Mkfs.ialloc T_FILE;
        _ ← iappend ROOTINO (dirent inum (file_name f.1));
        _ ← copy_file (Datatypes.S (length f.2)) inum f.2;
        k) s Q.
Proof.
  intros Hb [_ Hname Hdata Hsize] Hn Hneed HQ. destruct (building_facts _ _ _ _ Hb) as (Er & Es & Ef & El).
  rewrite blocks_needed_app in Hneed. destruct Hb as [Hc Hty Hroot Hfiles].
  apply runs_bind. eapply (ialloc_runs Hhome); [done|cbn; lia|by right|]. cbn [length].
  replace (1 + Z.of_nat (Datatypes.S (length l))) with (2 + Z.of_nat (length fs)) by lia.
  set (i := new_inode _ _). intros s1 Hc1 Hi1 Ho1. cbn [app] in Hc1. change (i_inum i) with (2 + Z.of_nat (length fs)).
  assert (Ef1 : freeblock s1 = freeblock s).
  { rewrite (ct_free _ _ Hc1), (ct_free _ _ Hc). cbn [fmap list_fmap sumZ]. rewrite fmap_app, sumZ_app. cbn. change (file_blocks 0) with 0. lia. }
  assert (Hrs : root_size fs + 16 ≤ MAXBYTES) by (unfold root_size, NINODES in *; change MAXBYTES with 71680; lia).
  pose proof (file_blocks_mono 0 (Z.of_nat (length f.2)) ltac:(lia)) as Hpos. unfold blocks_needed in Ef.
  rewrite <- Er. apply runs_bind. eapply (iappend_runs Hgeo s1 _ 0%nat root); [done..| | | | |]; rewrite ?length_dirent, ?Es.
  { by apply dirent_bytes, file_name_bytes. } { lia. } { lia. } { replace (root_size fs + Z.of_nat 16) with (root_size fs + 16) by lia. lia. }
  intros s2 root2 Hg2. destruct (grown_facts _ _ 0%nat root _ _ _ Hc1 eq_refl Hg2) as (_ & _ & Ef2). rewrite length_dirent, Es in Ef2.
  replace (root_size fs + Z.of_nat 16) with (root_size fs + 16) in Ef2 by lia. destruct Hg2 as [Hc2 Hn2 Ht2 Ho2].
  change (<[0%nat := root2]> (root :: l ++ [i])) with (root2 :: l ++ [i]) in Hc2.
  assert (Hik : (l ++ [i]) !! length l = Some i) by by rewrite lookup_app_r, Nat.sub_diag by lia.
  change (2 + Z.of_nat (length fs)) with (i_inum i). apply runs_bind.
  eapply (copy_file_runs Hgeo _ s2 _ (Datatypes.S (length l)) i); [done..|lia|cbn; lia|cbn [i_size i new_inode set_nlink set_itype blank set_inode_ids zero_inode]; rewrite Z.add_0_l; change (file_blocks 0) with 0; lia|].
  intros s3 i3 [Hc3 Hn3 Ht3 Ho3]. apply (HQ s3 root2 (l ++ [i3])).
  change (<[Datatypes.S (length l) := i3]> (root2 :: l ++ [i])) with (root2 :: <[length l := i3]> (l ++ [i])) in Hc3.
  rewrite insert_app_r_alt, Nat.sub_diag in Hc3 by lia. constructor.
  - done.
  - congruence.
  - rewrite (Ho3 0%nat root2) by done. rewrite Hn2, (Ho1 0%nat root), Hroot, root_entries_app, join_app by done. cbn. by rewrite app_nil_r.
  - apply Forall2_app; [|repeat constructor; [done|]].
    + apply Forall2_same_length_lookup. split; [by eapply Forall2_length|]. intros j a f' Ha Hf'.
      destruct (Forall2_lookup_lr _ _ _ _ _ _ Hfiles Ha Hf') as [? <-]. split; [done|].
      pose proof (lookup_lt_Some _ _ _ Ha) as Hlt.
      rewrite (Ho3 (Datatypes.S j) a), (Ho2 (Datatypes.S j) a), (Ho1 (Datatypes.S j) a); try done; try lia; by apply lookup_app_l_Some.
    + rewrite Hn3, (Ho2 (Datatypes.S (length l)) i), Hi1; done.
Qed.

Lemma add_files_runs files : ∀ s root l fs (Q : unit → mk → Prop),
  building s root l fs → Forall file_arg files → Z.of_nat (length (fs ++ files)) + 1 < NINODES →
  blocks_needed (fs ++ files) ≤ FSSIZE →
  (∀ s' root' l', building s' root' l' (fs ++ files) → Q () s') → runs (add_files ROOTINO files) s Q.
Proof.
  induction files as [|[arg data] files IH]; intros s root l fs Q Hb Hargs Hn Hneed HQ; cbn [add_files].
  { apply runs_ret, (HQ s root l). by rewrite app_nil_r. }
  apply Forall_cons in Hargs as [Hf Hargs]. rewrite bool_decide_eq_false_2 by apply Hf.
  rewrite cons_middle, app_assoc in Hn, Hneed, HQ.
  assert (Hn1 : Z.of_nat (length fs) + 2 < NINODES) by (rewrite !length_app in Hn; cbn in Hn; lia).
  eapply (add_file_runs s root l fs (arg, data)); [done..| |].
  { etransitivity; [apply (blocks_needed_mono _ files)|done]. }
  intros s' root' l' Hb'. by eapply IH.
Qed.

(** ** The start *)

Lemma zero_loop_runs n : ∀ i s (Q : unit → mk → Prop),
  (∀ s', (∀ k, img s' !! k = if decide (i ≤ k < i + Z.of_nat n) then Some zero_block else img s !! k) →
     freeblock s' = freeblock s → freeinode s' = freeinode s → Q () s') →
  runs (zero_loop n i) s Q.
Proof.
  induction n as [|n IH]; intros i s Q HQ; cbn [zero_loop].
  { apply runs_ret, HQ; [|done..]. intros k. by rewrite decide_False by lia. }
  apply runs_bind, runs_modify, IH. cbn [img freeblock freeinode]. intros s' Himg Hf Hi. apply HQ; [|done..].
  intros k. rewrite Himg. destruct (decide (k = i)) as [->|Hne].
  - rewrite decide_False, lookup_insert_eq, decide_True by lia. done.
  - rewrite lookup_insert_ne by done. repeat case_decide; lia || done.
Qed.

Lemma sb_bytes_ok : block_ok sb_bytes ∧ decode_sb sb_bytes = mkfs_sb.
Proof.
  split; [|reflexivity]. apply put_bytes_ok; [apply zero_block_ok|cbn; lia|]. rewrite !Forall_app. split_and!; apply le32_bytes.
Qed.

(** the empty image *)
Lemma catalog_start s :
  (∀ k, img s !! k = if decide (k = 1) then Some sb_bytes else if decide (0 ≤ k < FSSIZE) then Some zero_block else None) →
  freeblock s = nmeta → freeinode s = 1 → catalog (BL := BL) s [].
Proof.
  intros Himg Hf Hi. destruct sb_bytes_ok as [Hok _]. constructor; try done. constructor.
  - by rewrite Hf.
  - intros k Hk. rewrite Himg. rewrite (decide_True (P := 0 ≤ k < FSSIZE)) by done. case_decide; done.
  - intros k v. rewrite Himg. repeat case_decide; [by intros [= <-]|intros [= <-]; apply zero_block_ok|done].
  - intros k Hk. rewrite Hf in Hk. change nmeta with 59 in Hk. unfold view. rewrite decide_False by (change bm with 58; lia).
    rewrite Himg, decide_False by lia. by case_decide.
  - by rewrite Himg.
  - intros k Hk. change (2 + nlog) with 32 in Hk. rewrite Himg, decide_False, decide_True by (unfold FSSIZE; lia). done.
Qed.

(** ** The end *)

(** the size of the root directory in whole blocks *)
Definition rounded (n : Z) : Z := (n / BSIZE + 1) * BSIZE.

Lemma content_longer f i n :
  0 ≤ i_size i ≤ n → n ≤ MAXBYTES → (∀ o, i_size i ≤ o < MAXBYTES → fbyte f i o = 0) →
  content f (set_isize n i) = content f i ++ replicate (Z.to_nat (n - i_size i)) 0.
Proof.
  intros Hn Hmax Hz. unfold content. cbn [i_size set_isize]. change (fbyte f (set_isize n i)) with (fbyte f i). replace n with (i_size i + (n - i_size i)) at 1 by lia.
  rewrite seqZ_app, fmap_app by lia. f_equal. apply list_eq. intros k. rewrite list_lookup_fmap.
  destruct (decide (Z.of_nat k < n - i_size i)).
  - rewrite lookup_seqZ_lt, lookup_replicate_2 by lia. cbn. f_equal. apply Hz. lia.
  - rewrite lookup_seqZ_ge, lookup_ge_None_2 by (rewrite ?length_replicate; lia). done.
Qed.

Lemma rounded_bounds n : 0 ≤ n < 71680 → n < rounded n ≤ 71680 ∧ rounded n mod 16 = 0.
Proof. intros Hn. unfold rounded, BSIZE. zdm. Qed.

Lemma root_fixed s root l fs :
  building s root l fs → Z.of_nat (length fs) < NINODES → root_size fs mod BSIZE ≠ 0 →
  let root' := set_isize (rounded (i_size root)) root in
  let f := with_inode (view s) root' in
  dir_ok (BL := BL) mkfs_sb f root' ∧ synced mkfs_sb f root' ∧ (∀ x, owned f root' x ↔ owned (view s) root x) ∧
  content f root' = mjoin (root_entries fs) ++ replicate (Z.to_nat (rounded (root_size fs) - root_size fs)) 0.
Proof.
  intros Hb Hn Hm root' f. destruct (building_facts _ _ _ _ Hb) as (Er & Es & _ & _). destruct Hb as [Hc Hty Hroot _].
  pose proof (ct_range _ _ 0%nat root Hc eq_refl) as Hi. pose proof (inode_sector _ Hi) as Hsec. change (2 + nlog) with 32 in *.
  pose proof (ct_mk _ _ Hc) as Hs. destruct (ct_ok _ _ Hc 0%nat root eq_refl) as [[Hw Hnd Hsz Hp Hpl] _ _ Hz _ _].
  assert (Hlt : 0 ≤ i_size root < 71680) by (rewrite Es; unfold root_size, NINODES in *; lia).
  destruct (rounded_bounds _ Hlt) as [Hr1 Hr2]. change MAXBYTES with 71680 in *.
  set (v := put_bytes (dip_off (i_inum root')) (encode_dinode root') (view s (IBLOCK (i_inum root') mkfs_sb))).
  destruct (wf_upd mkfs_sb (view s) root (IBLOCK (i_inum root) mkfs_sb) v Hw ltac:(lia)) as ([W1 W2 W3 W4 W5 W6] & Hfb & Hfd & _).
  change (upd (view s) (IBLOCK (i_inum root) mkfs_sb) v) with f in *. split_and!.
  - constructor; [constructor; [by constructor|done|cbn; change MAXBYTES with 71680; lia| |done]|done|done].
    intros _ bn H1 H2. rewrite Zdiv_0_l in H1. cbn [i_size root' set_isize] in H2. change (fblock f root bn ≠ 0).
    unfold rounded in *. rewrite <- Es in Hm. pose proof (Z.div_mod (i_size root) BSIZE ltac:(done)).
    pose proof (Z.mod_pos_bound (i_size root) BSIZE ltac:(done)). unfold BSIZE in *.
    rewrite Hfb by (unfold MAXFILE; change (NDIRECT + NINDIRECT) with 140; lia). apply Hp; rewrite ?Zdiv_0_l; unfold BSIZE; lia.
  - apply with_inode_synced; [intros k; by apply view_ok|cbn; lia|done].
  - intros x. unfold owned. change (addr_at root' NDIRECT) with (addr_at root NDIRECT).
    split; (intros [Hx [E|(bn & Hbn & E)]]; split; [done|by left|done|right; exists bn; split; [done|]]).
    + by rewrite <- Hfb.
    + change (fblock f root bn = x). by rewrite Hfb.
  - assert (Hfby : ∀ o, 0 ≤ o < 71680 → fbyte f root o = fbyte (view s) root o).
    { intros o Ho. unfold fbyte. rewrite Hfd; [done|]. apply (block_range o 1); [lia..|change MAXBYTES with 71680; lia]. }
    unfold root'. rewrite content_longer; [|lia|change MAXBYTES with 71680; lia|].
    + rewrite Es, <- Hroot. f_equal. unfold content. apply list_fmap_ext. intros k o Hko. apply Hfby.
      apply lookup_seqZ in Hko. lia.
    + intros o Ho. change MAXBYTES with 71680 in Ho. rewrite Hfby by lia. apply Hz. lia.
Qed.

(** ** The file system on the image *)

Definition root_names (files : list (list Z * list Z)) : list (list Z) :=
  [dot] :: [dot; dot] :: (name_of ∘ file_name ∘ fst <$> files).

Lemma root_entries_names files : de_name <$> root_entries files = root_names files.
Proof.
  unfold root_entries, root_names. cbn [fmap list_fmap]. rewrite !dirent_name. do 2 f_equal.
  apply list_eq. intros k. rewrite !list_lookup_fmap, list_lookup_imap. destruct (files !! k); [|done]. cbn [fmap option_fmap option_map]. f_equal. apply dirent_name.
Qed.

(** the contents [f] of the disk, with the inodes of the root directory and the files *)
Record fs_image (f : Z → list Z) (files : list (list Z * list Z)) (root : inode) (l : list inode) : Prop := {
  fi_bitmap b : 0 ≤ b < sb_size mkfs_sb → used mkfs_sb f b = (b <? blocks_needed files);
  fi_root : i_inum root = ROOTINO ∧ dir_ok (BL := BL) mkfs_sb f root ∧ synced mkfs_sb f root;
  fi_dots : dir_lookup (content f root) [dot] = Some ROOTINO ∧ dir_lookup (content f root) [dot; dot] = Some ROOTINO;
  fi_files k arg data : files !! k = Some (arg, data) → ∃ i, l !! k = Some i ∧
    dir_lookup (content f root) (file_name arg) = Some (i_inum i) ∧
    i_type i = T_FILE ∧ file_ok (BL := BL) mkfs_sb f i ∧ synced mkfs_sb f i ∧ content f i = data;
  fi_others name : name_of name ∉ root_names files → dir_lookup (content f root) name = None;
  fi_sep j k a b x : j ≠ k → (root :: l) !! j = Some a → (root :: l) !! k = Some b → owned f a x → ¬ owned f b x }.

Lemma root_lookup files r k e name :
  NoDup (root_names files) → root_entries files !! k = Some e → de_inum e ≠ 0 → de_name e = name_of name →
  dir_lookup (mjoin (root_entries files) ++ r) name = Some (de_inum e).
Proof.
  intros Hnd Hk Hi Hn. apply dir_lookup_join with k; [apply root_entries_16|done|done|]. intros j e' Hlt Hj E.
  rewrite <- root_entries_names in Hnd. rewrite <- Hn in E.
  assert (j = k); [|lia]. apply (NoDup_lookup _ j k (de_name e) Hnd).
  - by rewrite list_lookup_fmap, Hj, <- E.
  - by rewrite list_lookup_fmap, Hk.
Qed.

Lemma image_done s root l files :
  building s root l files → NoDup (root_names files) → Z.of_nat (length files) + 1 < NINODES → root_size files mod BSIZE ≠ 0 →
  let root' := set_isize (rounded (i_size root)) root in
  fs_image (with_inode (view s) root') files root' l.
Proof.
  intros Hb Hnd Hn Hm root'. destruct (building_facts _ _ _ _ Hb) as (Er & Es & Ef & El).
  destruct (root_fixed s root l files Hb ltac:(lia) Hm) as (Hdir & Hsy & Hown & Hcon). fold root' in Hdir, Hsy, Hown, Hcon.
  set (f := with_inode (view s) root') in *. destruct Hb as [Hc _ _ Hfiles]. pose proof (ct_mk _ _ Hc) as Hs.
  pose proof (ct_range _ _ 0%nat root Hc eq_refl) as Hi. pose proof (inode_sector _ Hi) as Hsec. change (2 + nlog) with 32 in *.
  assert (Hkept : ∀ k i, l !! k = Some i → inode_ok (BL := BL) f i ∧ content f i = content (view s) i ∧ ∀ x, owned f i x ↔ owned (view s) i x).
  { intros k i Hk. apply (with_inode_kept s root' i); [done|done|apply (iw_len _ _ _ (fo_wf _ _ _ (io_file _ _ (ct_ok _ _ Hc 0%nat root eq_refl))))|..].
    - by apply (ct_range _ _ (Datatypes.S k) i Hc).
    - rewrite (ct_inum _ _ Hc (Datatypes.S k) i Hk). cbn. rewrite Er. change ROOTINO with 1. lia.
    - by apply (ct_ok _ _ Hc (Datatypes.S k)). }
  rewrite <- El in *. constructor.
  - intros b Hrg. change (sb_size mkfs_sb) with 1000 in Hrg. rewrite <- Ef, <- view_used by (done || (unfold BPB, BSIZE; lia)).
    unfold used, f, with_inode. rewrite upd_ne; [done|]. change (i_inum root') with (i_inum root). lia.
  - done.
  - rewrite Hcon. split; [apply (root_lookup files _ 0%nat (dirent ROOTINO [dot]))|apply (root_lookup files _ 1%nat (dirent ROOTINO [dot; dot]))]; done.
  - intros k arg data Hk. destruct (Forall2_lookup_r _ _ _ _ _ Hfiles Hk) as (i & Hi' & Hty & Hd). exists i.
    destruct (Hkept k i Hi') as ([Hf Hsyn _ _ _ _] & Hcn & _). rewrite Hcn. split_and!; [done| |done..].
    pose proof (lookup_lt_Some _ _ _ Hi') as Hkl. unfold NINODES in *.
    assert (Hin : de_inum (dirent (2 + Z.of_nat k) (file_name arg)) = i_inum i).
    { rewrite dirent_inum, (ct_inum _ _ Hc (Datatypes.S k) i Hi') by lia. lia. }
    rewrite Hcon, <- Hin. apply (root_lookup files _ (2 + k)%nat); [done| |rewrite dirent_inum; lia|apply dirent_name].
    unfold root_entries. change (?a :: ?b :: ?l) with ([a; b] ++ l). rewrite lookup_app_r by (cbn; lia). cbn [length].
    replace (2 + k - 2)%nat with k by lia. rewrite list_lookup_imap, Hk. done.
  - intros name Hno. rewrite Hcon. apply dir_lookup_absent; [apply root_entries_16|by rewrite root_entries_names].
  - assert (Hall : ∀ k a, (root' :: l) !! k = Some a → ∃ a', (root :: l) !! k = Some a' ∧ ∀ x, owned f a x ↔ owned (view s) a' x).
    { intros [|k] a Hk; [injection Hk as <-; by exists root|]. exists a. split; [done|]. by apply (Hkept k a). }
    intros j k a b x Hjk (a' & Ha & ->)%Hall (b' & Hb & ->)%Hall. by apply (ct_sep _ _ Hc j k).
Qed.

(** the arguments of [mkfs] that it can make an image of *)
Record mkfs_args (files : list (list Z * list Z)) : Prop := {
  ma_files : Forall file_arg files;
  ma_names : NoDup (root_names files);
  ma_inodes : Z.of_nat (length files) + 1 < NINODES;
  ma_blocks : blocks_needed files ≤ FSSIZE;
  ma_root : root_size files mod BSIZE ≠ 0 }.

Lemma dots_runs s (k : Z → K unit) (Q : unit → mk → Prop) :
  catalog (BL := BL) s [] → nmeta + 1 ≤ FSSIZE → (∀ s' root, building s' root [] [] → runs (k ROOTINO) s' Q) →
  runs (rootino ← Mkfs.ialloc T_DIR;
        if negb (rootino =? ROOTINO) then panic "assert"
        else
          _ ← iappend rootino (dirent rootino [dot]);
          _ ← iappend rootino (dirent rootino [dot; dot]);
          k rootino) s Q.
Proof.
  intros Hc Hfit HQ. apply runs_bind. eapply (ialloc_runs Hhome); [done..|by left|]. cbn [length Z.of_nat app].
  change (1 + 0) with ROOTINO. set (i := new_inode ROOTINO T_DIR). intros s1 Hc1 Hi1 _. change (i_inum i) with ROOTINO. cbn [negb].
  change (ROOTINO =? ROOTINO) with true. cbn [negb]. change ROOTINO with (i_inum i).
  assert (Hby : Forall (λ b, is_u8 b) [dot; dot]) by (repeat constructor; unfold is_u8; lia).
  assert (Ef1 : freeblock s1 = nmeta) by (rewrite (ct_free _ _ Hc1); done).
  apply runs_bind. eapply (iappend_runs Hgeo s1 [i] 0%nat i); [done..| | | | |]; rewrite ?length_dirent, ?Ef1; try done.
  { apply dirent_bytes. by apply (Forall_drop _ 1) in Hby. } { lia. }
  intros s2 r2 Hg2. destruct (grown_facts _ _ 0%nat i _ _ _ Hc1 eq_refl Hg2) as (En2 & Es2 & Ef2).
  rewrite length_dirent, Ef1 in *. destruct Hg2 as [Hc2 Hn2 Ht2 _].
  change (runs (_ ← iappend (i_inum i) (dirent ROOTINO [dot; dot]); k ROOTINO) s2 Q). rewrite <- En2. apply runs_bind.
  eapply (iappend_runs Hgeo s2 [r2] 0%nat r2); [done..| | | | |]; rewrite ?length_dirent, ?Ef2, ?Es2; try done.
  { by apply dirent_bytes. } { lia. }
  intros s3 r3 [Hc3 Hn3 Ht3 _]. apply (HQ s3 r3). constructor; [done|by rewrite Ht3, Ht2| |constructor].
  change (content (view s1) i = []) in Hi1. by rewrite Hn3, Hn2, Hi1.
Qed.

Lemma main_runs files :
  mkfs_args files →
  runs (Mkfs.main files) mk0 (λ _ s, ∃ root l f, (∀ k, default zero_block (img s !! k) = f k) ∧
    fs_image f files root l ∧ (∀ k, block_ok (f k)) ∧ f 1 = sb_bytes ∧ f 2 = zero_block).
Proof.
  intros [Hargs Hnd Hn Hneed Hm]. unfold Mkfs.main. rprim. apply runs_bind, zero_loop_runs. cbn [img freeblock freeinode].
  intros s1 Himg1 Hf1 Hi1. apply runs_bind, runs_modify. set (s2 := {| img := _ |}).
  apply (dots_runs s2).
  { apply catalog_start; [|done..]. intros k. cbn [img s2]. case_decide as E; [subst k; apply lookup_insert_eq|].
    rewrite lookup_insert_ne by done. apply Himg1. }
  { done. }
  intros s3 root3 Hb3. apply runs_bind. eapply (add_files_runs files s3 root3 [] []); [done..|].
  cbn [app]. intros s4 root l Hb. destruct (building_facts _ _ _ _ Hb) as (Er & Es & Ef & El).
  pose proof (bd_catalog _ _ _ _ Hb) as Hc. pose proof (ct_mk _ _ Hc) as Hs4.
  pose proof (ct_range _ _ 0%nat root Hc eq_refl) as Hi. pose proof (ct_ok _ _ Hc 0%nat root eq_refl) as Hok.
  rewrite <- Er. apply runs_bind, rinode_runs; [done..|]. fold (rounded (i_size root)). apply runs_bind.
  apply (winode_runs s4 (set_isize (rounded (i_size root)) root)); [done|done|apply (iw_len _ _ _ (fo_wf _ _ _ (io_file _ _ Hok)))|].
  intros s5 Hs5 Hv5 Hf5 _. rprim. unfold Mkfs.balloc. pose proof (mo_free _ Hs5) as Hfr. unfold FSSIZE in Hfr.
  rewrite (proj2 (Z.ltb_lt _ _)) by (unfold BSIZE; lia). cbn [negb]. apply runs_modify.
  exists (set_isize (rounded (i_size root)) root), l, (view s5). split_and!.
  - intros k. cbn [img]. unfold view. case_decide as E; [subst k; by rewrite lookup_insert_eq|]. by rewrite lookup_insert_ne.
  - rewrite Hv5. by apply image_done.
  - intros k. by apply view_ok.
  - unfold view. rewrite decide_False by done. by rewrite (mo_sb _ Hs5).
  - unfold view. rewrite decide_False by done. by rewrite (mo_log _ Hs5).
Qed.
End main.

(** ** Mounting it *)

(** the disk that has the image *)
Definition disk_of (m : gmap Z (list Z)) : disk_t := kmap (λ k, (1, k)) m.

Lemma dblock_disk_of m k : dblock (disk_of m) 1 k = default zero_block (m !! k).
Proof. unfold dblock, disk_of. by rewrite (lookup_kmap (λ k, (1, k)) m k). Qed.

Lemma mkfs_geometry : geometry 2 nlog.
Proof. by constructor. Qed.

Section mount.
  Context (me calls : Z) (Hcalls : 1 ≤ calls).

Abbreviation laws := (log_laws me 2 nlog mkfs_geometry eq_refl calls Hcalls).

Lemma mkfs_geo : fs_geo (BL := laws) mkfs_sb.
Proof.
  constructor; change bm with 58; change (sb_size mkfs_sb) with 1000; [done..| |];
    [|intros b Hb]; cbn; unfold home, FSSIZE; change nlog with 30; lia.
Qed.
Lemma mkfs_home b : 2 + nlog ≤ b < bm → bhome (BufLaws := laws) b.
Proof. change bm with 58. cbn. unfold home, FSSIZE. change nlog with 30. lia. Qed.

(** C18: For files that fit, whose names are distinct and have no slash, and a root
    directory that does not end at a block boundary, [mkfs] succeeds.  The kernel's
    recovery accepts its image with an empty log, and what the image stands for is
    a file system: the bitmap has exactly the blocks in use, the root directory is
    inode 1 and has the names . and .., each file under its name with an inode of
    its own whose contents are the file's, and no other name, and no two of the
    files share a block. *)
Theorem mkfs_image files :
  mkfs_args files →
  ∃ s, mkfs files = Ret () s ∧ ∃ root l f,
    stands_for 2 nlog (disk_of (img s)) f ∧ decode_sb (dblock (disk_of (img s)) 1 1) = mkfs_sb ∧
    fs_image (BL := laws) f files root l.
Proof.
  intros Hargs. destruct (main_runs (BL := laws) mkfs_geo mkfs_home files Hargs) as ([] & s & Hrun & root & l & f & Hf & Hfi & Hok & H1 & H2).
  exists s. split; [done|]. exists root, l, f. destruct sb_bytes_ok as [_ Hsb].
  assert (Hd : ∀ k, dblock (disk_of (img s)) 1 k = f k) by (intros k; by rewrite dblock_disk_of).
  assert (H0 : hd_n (head_of 2 (disk_of (img s))) = 0) by (unfold head_of; rewrite Hd, H2; done).
  split_and!; [split| |done].
  - constructor.
    + intros n. rewrite Hd. apply Hok.
    + rewrite Hd, H1, Hsb. split; reflexivity.
    + rewrite H0. change nlog with 30. lia.
    + rewrite hd_list_nil by exact H0. constructor.
    + rewrite hd_list_nil by exact H0. constructor.
  - intros n _. by rewrite logical_empty.
  - by rewrite Hd, H1.
Qed.
End mount.

(** an image with a file of two bytes *)
Lemma mkfs_image_witness : ∃ s root l f,
  mkfs [([95; 97], [104; 105])] = Ret () s ∧
  fs_image (BL := log_laws 1 2 nlog mkfs_geometry eq_refl 1 (Z.le_refl 1)) f [([95; 97], [104; 105])] root l.
Proof.
  destruct (mkfs_image 1 1 (Z.le_refl 1) [([95; 97], [104; 105])]) as (s & Hrun & root & l & f & _ & _ & Hfi).
  - constructor; try done.
    + apply Forall_singleton. constructor; cbn; [set_solver|repeat constructor; unfold is_u8; lia..|done].
    + apply NoDup_cons. split; [set_solver|]. apply NoDup_cons. split; [set_solver|]. apply NoDup_singleton.
  - exists s, root, l, f. split; [exact Hrun|exact Hfi].
Defined.
