(* ===== verification/File.v ===== *)
(** * file.c and pipealloc: the table of open files

    The state of the file layer is the file system with the table of open files
    and the pipes in use; a pipe is known by the address of its page.  A pointer to
    a file or an inode, as a process holds it, is the index plus one, so that 0 is
    null.  [fileread] returns the bytes it moves to its caller's buffer and
    [filewrite] takes them.  Calls run in the kernel state, since closing a pipe
    frees a page and wakes processes. *)

From S2P Require Import Prelude Mmu CString Kalloc Vm Proc Pipe Block Fs.

Class LogOps (S : Type) := { begin_op : M S unit; end_op : M S unit }.

Definition NFILE : nat := 100.
Definition MAXOPBLOCKS : Z := 10.

Inductive ftype := FD_NONE | FD_PIPE | FD_INODE.
#[export] Instance ftype_eq_dec : EqDecision ftype.
Proof. solve_decision. Defined.

Record file := {
  fi_type : ftype; fi_ref : Z; fi_readable : bool; fi_writable : bool;
  fi_pipe : Z; fi_ip : nat; fi_off : Z }.

Definition set_fref v f := {| fi_type := fi_type f; fi_ref := v; fi_readable := fi_readable f;
  fi_writable := fi_writable f; fi_pipe := fi_pipe f; fi_ip := fi_ip f; fi_off := fi_off f |}.
Definition set_ftype v f := {| fi_type := v; fi_ref := fi_ref f; fi_readable := fi_readable f;
  fi_writable := fi_writable f; fi_pipe := fi_pipe f; fi_ip := fi_ip f; fi_off := fi_off f |}.
Definition set_foff v f := {| fi_type := fi_type f; fi_ref := fi_ref f; fi_readable := fi_readable f;
  fi_writable := fi_writable f; fi_pipe := fi_pipe f; fi_ip := fi_ip f; fi_off := v |}.
Definition set_pipe_end (w : bool) (p : Z) f := {| fi_type := FD_PIPE; fi_ref := fi_ref f;
  fi_readable := negb w; fi_writable := w; fi_pipe := p; fi_ip := fi_ip f; fi_off := fi_off f |}.
Definition set_inode_file (ip : nat) (r w : bool) f := {| fi_type := FD_INODE; fi_ref := fi_ref f;
  fi_readable := r; fi_writable := w; fi_pipe := fi_pipe f; fi_ip := ip; fi_off := 0 |}.

Record flayer (S : Type) := { fl_fs : fs S; fl_files : list file; fl_pipes : gmap Z pipe }.
Arguments fl_fs {S} _.
Arguments fl_files {S} _.
Arguments fl_pipes {S} _.
Arguments Build_flayer {S}.

(** indices and pointers *)
Definition ptr (i : nat) : Z := Z.of_nat i + 1.
Definition idx (p : Z) : nat := Z.to_nat (p - 1).

(** [&p->nread] and [&p->nwrite]: a spinlock of 52 bytes and the ring come first *)
Definition chan_addr (p : Z) (c : chan) : Z :=
  match c with Cnread => p + 52 + PIPESIZE | Cnwrite => p + 52 + PIPESIZE + 4 end.

Section file.
  Context `{KernelImage} `{ProcImage} {S : Type} {BO : BufOps S} {LO : LogOps S}.
  Context (devsw_read : Z → option (nat → Z → M (fs S) (Z * list Z))).
  Context (devsw_write : Z → option (nat → list Z → M (fs S) Z)).
  (** the running process *)
  Context (me : nat).

Abbreviation FL := (M (flayer S)).
Abbreviation K := (M (kern (flayer S))).

Definition files_at (f : nat) : FL file :=
  l ← gets fl_files;
  match l !! f with Some x => mret x | None => panic "fault: not a file" end.
Definition fupd (f : nat) (g : file → file) : FL unit :=
  modify (λ s, Build_flayer (fl_fs s) (alter g f (fl_files s)) (fl_pipes s)).

(** a function of fs.c, called by the running process *)
Definition fsys {A} (m : Z → nat → M (fs S) A) : K A :=
  p ← proc_at me;
  in_fs (zoom fl_fs (λ x s, Build_flayer x (fl_files s) (fl_pipes s)) (m (p_pid p) (idx (p_cwd p)))).
Definition fslog (m : M S unit) : K unit := fsys (λ _ _, sub m).

Definition filealloc : FL (option nat) :=
  l ← gets fl_files;
  match list_find (λ f, fi_ref f = 0) l with
  | Some (f, _) => _ ← fupd f (set_fref 1); mret (Some f)
  | None => mret None
  end.

Definition filedup (f : nat) : FL nat :=
  x ← files_at f;
  if fi_ref x <? 1 then panic "filedup"
  else _ ← fupd f (set_fref (i32 (fi_ref x + 1))); mret f.

(** ** Pipes in the kernel *)

Definition pipe_at (p : Z) : FL pipe :=
  ps ← gets fl_pipes;
  match ps !! p with Some x => mret x | None => panic "fault: not a pipe" end.
Definition put_pipe (p : Z) (x : pipe) : FL unit :=
  modify (λ s, Build_flayer (fl_fs s) (fl_files s) (<[p := x]> (fl_pipes s))).

Fixpoint wakeup_all (p : Z) (cs : list chan) : K unit :=
  match cs with
  | [] => mret ()
  | c :: cs => _ ← wakeup (chan_addr p c); wakeup_all p cs
  end.

Definition pipeclose_k (p : Z) (writable : bool) : K unit :=
  x ← in_fs (pipe_at p);
  let '(x, ws, freed) := pipeclose writable x in
  _ ← in_fs (put_pipe p x);
  _ ← wakeup_all p ws;
  if freed then
    _ ← in_phys (kfree p);
    in_fs (modify (λ s, Build_flayer (fl_fs s) (fl_files s) (delete p (fl_pipes s))))
  else mret ().

(** one segment of a call on a pipe; it may end asleep *)
Definition piperead_k (p n : Z) : K (Z * list Z) :=
  cur ← proc_at me;
  x ← in_fs (pipe_at p);
  let '(x, ws, r, bs) := piperead (p_killed cur) n x in
  _ ← in_fs (put_pipe p x);
  _ ← wakeup_all p ws;
  match r with
  | Pret v => mret (v, bs)
  | Psleep c => sleep me (chan_addr p c)
  end.

Definition pipewrite_k (p : Z) (bs : list Z) : K Z :=
  cur ← proc_at me;
  x ← in_fs (pipe_at p);
  let '(x, ws, r, _) := pipewrite (p_killed cur) (Z.of_nat (length bs)) bs x in
  _ ← in_fs (put_pipe p x);
  _ ← wakeup_all p ws;
  match r with
  | Pret v => mret v
  | Psleep c => sleep me (chan_addr p c)
  end.

(** ** Closing and using files *)

Definition fileclose (f : nat) : K unit :=
  x ← in_fs (files_at f);
  if fi_ref x <? 1 then panic "fileclose"
  else if 0 <? i32 (fi_ref x - 1) then in_fs (fupd f (set_fref (i32 (fi_ref x - 1))))
  else
    _ ← in_fs (fupd f (λ x, set_ftype FD_NONE (set_fref 0 x)));
    match fi_type x with
    | FD_PIPE => pipeclose_k (fi_pipe x) (fi_writable x)
    | FD_INODE =>
        _ ← fslog begin_op;
        _ ← fsys (λ pid _, iput pid (fi_ip x));
        fslog end_op
    | FD_NONE => mret ()
    end.

Definition filestat (f : nat) : K (option stat) :=
  x ← in_fs (files_at f);
  match fi_type x with
  | FD_INODE =>
      _ ← fsys (λ pid _, ilock pid (fi_ip x));
      st ← fsys (λ _ _, stati (fi_ip x));
      _ ← fsys (λ pid _, iunlock pid (fi_ip x));
      mret (Some st)
  | _ => mret None
  end.

Definition fileread (f : nat) (n : Z) : K (Z * list Z) :=
  x ← in_fs (files_at f);
  if negb (fi_readable x) then mret (-1, [])
  else
    match fi_type x with
    | FD_PIPE => piperead_k (fi_pipe x) n
    | FD_INODE =>
        _ ← fsys (λ pid _, ilock pid (fi_ip x));
        '(r, bs) ← fsys (λ _ _, readi devsw_read (fi_ip x) (fi_off x) (u32 n));
        _ ← (if 0 <? r then in_fs (fupd f (λ x, set_foff (u32 (fi_off x + r)) x)) else mret ());
        _ ← fsys (λ pid _, iunlock pid (fi_ip x));
        mret (r, bs)
    | FD_NONE => panic "fileread"
    end.

Definition WRITE_MAX : Z := (MAXOPBLOCKS - 1 - 1 - 2) / 2 * 512.

(** the loop of [filewrite], [i] bytes of [n] being written *)
Fixpoint filewrite_loop (fuel : nat) (f : nat) (ip : nat) (bs : list Z) (i n : Z) : K Z :=
  match fuel with
  | O => λ _, NoFuel
  | Datatypes.S fuel =>
      if i <? n then
        let n1 := Z.min (n - i) WRITE_MAX in
        _ ← fslog begin_op;
        _ ← fsys (λ pid _, ilock pid ip);
        x ← in_fs (files_at f);
        r ← fsys (λ _ _, writei devsw_write ip (take (Z.to_nat n1) bs) (fi_off x));
        _ ← (if 0 <? r then in_fs (fupd f (λ x, set_foff (u32 (fi_off x + r)) x)) else mret ());
        _ ← fsys (λ pid _, iunlock pid ip);
        _ ← fslog end_op;
        if r <? 0 then mret (if i =? n then n else -1)
        else if negb (r =? n1) then panic "short filewrite"
        else filewrite_loop fuel f ip (drop (Z.to_nat n1) bs) (i + r) n
      else mret (if i =? n then n else -1)
  end.

Definition filewrite (f : nat) (bs : list Z) : K Z :=
  let n := Z.of_nat (length bs) in
  x ← in_fs (files_at f);
  if negb (fi_writable x) then mret (-1)
  else
    match fi_type x with
    | FD_PIPE => pipewrite_k (fi_pipe x) bs
    | FD_INODE => filewrite_loop (Z.to_nat (n / WRITE_MAX + 2)) f (fi_ip x) bs 0 n
    | FD_NONE => panic "filewrite"
    end.

(** ** pipealloc *)

(** the ring of a fresh page holds whatever the page held *)
Definition page_ring (p : Z) (s : phys) : list Z :=
  (λ i : nat, load8 (mem s) (p + 52 + Z.of_nat i)) <$> seq 0 (Z.to_nat PIPESIZE).

Definition pipealloc : K (option (nat * nat)) :=
  f0 ← in_fs filealloc;
  match (f0 : option nat) with
  | None => mret None
  | Some f0 =>
      f1 ← in_fs filealloc;
      match (f1 : option nat) with
      | None => _ ← fileclose f0; mret None
      | Some f1 =>
          p ← in_phys kalloc;
          if p =? 0 then _ ← fileclose f0; _ ← fileclose f1; mret None
          else
            junk ← in_phys (gets (page_ring p));
            _ ← in_fs (put_pipe p (pipe0 junk));
            _ ← in_fs (fupd f0 (set_pipe_end false p));
            _ ← in_fs (fupd f1 (set_pipe_end true p));
            mret (Some (f0, f1))
      end
  end.

End file.
