(* ===== verification/Exec.v ===== *)
(** * exec.c: loading a program

    [exec] in the kernel state of File: it reads the ELF file through [readi],
    builds the new address space with the functions of vm.c and commits.  The
    argument strings are read from the memory of the process while it still has its
    old page table, byte by byte, with page faults.  [copyout] and [loaduvm] are
    here in the form that takes the bytes to store from a list. *)

From S2P Require Import Prelude Mmu CString Kalloc Vm VmCopy Proc Trap Syscall Pipe Block Fs File.

Definition MAXARG : Z := 32.
Definition ELF_MAGIC : Z := 0x464C457F.
Definition ELF_PROG_LOAD : Z := 1.
Definition ELFHDR_SIZE : Z := 52.
Definition PROGHDR_SIZE : Z := 32.

Record elfhdr := { e_magic : Z; e_entry : Z; e_phoff : Z; e_phnum : Z }.
Definition decode_elfhdr (b : list Z) : elfhdr :=
  {| e_magic := get32 0 b; e_entry := get32 24 b; e_phoff := get32 28 b; e_phnum := get16 44 b |}.

Record proghdr := { ph_type : Z; ph_off : Z; ph_vaddr : Z; ph_filesz : Z; ph_memsz : Z }.
(** the fields are of type [uint] *)
Definition decode_proghdr (b : list Z) : proghdr :=
  let uint off := u32 (get32 off b) in
  {| ph_type := uint 0%nat; ph_off := uint 4%nat; ph_vaddr := uint 8%nat; ph_filesz := uint 16%nat;
     ph_memsz := uint 20%nat |}.

Section exec.
  Context `{KernelImage} `{ProcImage} {S : Type} {BO : BufOps S} {LO : LogOps S}.
  Context (devsw_read : Z → option (nat → Z → M (fs S) (Z * list Z))).
  Context (devsw_write : Z → option (nat → list Z → M (fs S) Z)).
  Context (me : nat).

Abbreviation K := (M (kern (flayer S))).
Abbreviation fsys := (fsys me).

(** ** Bytes to and from memory *)

Fixpoint uload (n : nat) (va : Z) : K (list Z) :=
  match n with
  | O => mret []
  | Datatypes.S n => b ← uload8 me va; bs ← uload n (u32 (va + 1)); mret (b :: bs)
  end.

(** the string at [va]; it is known to end below [sz], which bounds the fuel *)
Fixpoint ustring (fuel : nat) (va : Z) : K (list Z) :=
  match fuel with
  | O => λ _, NoFuel
  | Datatypes.S fuel =>
      b ← uload8 me va;
      if b =? 0 then mret [] else bs ← ustring fuel (u32 (va + 1)); mret (b :: bs)
  end.

Fixpoint store_bytes (a : Z) (bs : list Z) (m : ram) : ram :=
  match bs with [] => m | b :: bs => store_bytes (a + 1) bs (store8 a b m) end.

Fixpoint copyout_bytes (fuel : nat) (pgdir va : Z) (bs : list Z) : M phys Z :=
  match fuel with
  | O => λ _, NoFuel
  | Datatypes.S fuel =>
      let len := Z.of_nat (length bs) in
      if 0 <? len then
        let va0 := PGROUNDDOWN va in
        pa0 ← uva2ka pgdir va0;
        if pa0 =? 0 then mret (-1)
        else
          let n := PGSIZE - (va - va0) in
          let n := if len <? n then len else n in
          _ ← on_mem (store_bytes (pa0 + (va - va0)) (take (Z.to_nat n) bs));
          copyout_bytes fuel pgdir (u32 (va0 + PGSIZE)) (drop (Z.to_nat n) bs)
      else mret 0
  end.
Definition copyout_list (pgdir va : Z) (bs : list Z) : M phys Z :=
  copyout_bytes (Datatypes.S (length bs)) pgdir va bs.

Definition readi_ip (ip : nat) (off n : Z) : K (Z * list Z) := fsys (λ _ _, readi devsw_read ip off n).

Fixpoint load_pages (fuel : nat) (pgdir addr : Z) (ip : nat) (offset sz i : Z) : K Z :=
  match fuel with
  | O => λ _, NoFuel
  | Datatypes.S fuel =>
      if i <? sz then
        pte ← in_phys (walkpgdir pgdir (u32 (addr + i)) false);
        if pte =? 0 then panic "loaduvm: address should exist"
        else
          v ← in_phys (rd32 pte);
          let n := if sz - i <? PGSIZE then sz - i else PGSIZE in
          '(r, bs) ← readi_ip ip (u32 (offset + i)) n;
          _ ← in_phys (on_mem (store_bytes (P2V (PTE_ADDR v)) bs));
          if r =? n then load_pages fuel pgdir addr ip offset sz (u32 (i + PGSIZE)) else mret (-1)
      else mret 0
  end.
Definition load_segment (pgdir addr : Z) (ip : nat) (offset sz : Z) : K Z :=
  if negb (addr mod PGSIZE =? 0) then panic "loaduvm: addr must be page aligned"
  else load_pages (Datatypes.S (Z.to_nat ((sz + PGSIZE - 1) / PGSIZE))) pgdir addr ip offset sz 0.

(** ** The program headers: [None] is [goto bad] *)

Fixpoint load_program (n : nat) (ip : nat) (pgdir sz off : Z) : K (option Z) :=
  match n with
  | O => mret (Some sz)
  | Datatypes.S n =>
      '(r, b) ← readi_ip ip (u32 off) PROGHDR_SIZE;
      if negb (r =? PROGHDR_SIZE) then mret None
      else
        let ph := decode_proghdr b in
        if negb (ph_type ph =? ELF_PROG_LOAD) then load_program n ip pgdir sz (off + PROGHDR_SIZE)
        else if ph_memsz ph <? ph_filesz ph then mret None
        else if u32 (ph_vaddr ph + ph_memsz ph) <? ph_vaddr ph then mret None
        else
          sz ← in_phys (allocuvm pgdir sz (u32 (ph_vaddr ph + ph_memsz ph)));
          if sz =? 0 then mret None
          else if negb (ph_vaddr ph mod PGSIZE =? 0) then mret None
          else
            r ← load_segment pgdir (ph_vaddr ph) ip (ph_off ph) (ph_filesz ph);
            if r <? 0 then mret None else load_program n ip pgdir sz (off + PROGHDR_SIZE)
  end.

(** ** The arguments *)

(** push the strings at [argv], whose pointers go to the new stack *)
Fixpoint push_args (argv : list Z) (argc pgdir sp : Z) (stack : list Z) : K (option (Z * list Z)) :=
  match argv with
  | [] => mret (Some (sp, stack))
  | a :: argv =>
      if MAXARG <=? argc then mret None
      else
        p ← proc_at me;
        s ← ustring (Z.to_nat (p_sz p)) a;
        let len := Z.of_nat (length s) in
        let sp := Z.land (u32 (sp - (len + 1))) (u32 (Z.lnot 3)) in
        r ← in_phys (copyout_list pgdir sp (s ++ [0]));
        if r <? 0 then mret None else push_args argv (argc + 1) pgdir sp (stack ++ [sp])
  end.

(** the part of the path after the last slash *)
Fixpoint last_elem (path last : list Z) : list Z :=
  match path with
  | [] => last
  | c :: r => if c =? slash then last_elem r r else last_elem r last
  end.

(** ** exec *)

Definition exec_bad (pgdir : Z) (ip : option nat) : K Z :=
  _ ← (if pgdir =? 0 then mret () else in_phys (freevm pgdir));
  _ ← (match ip with
       | Some ip => _ ← fsys (λ pid _, iunlockput pid ip); fslog me end_op
       | None => mret ()
       end);
  mret (-1).

(** the end of [exec], with the program loaded up to [sz] *)
Definition exec_stack (elf : elfhdr) (path : list Z) (argv : list Z) (pgdir sz : Z) : K Z :=
  let sz := PGROUNDUP sz in
  sz ← in_phys (allocuvm pgdir sz (u32 (sz + 2 * PGSIZE)));
  if sz =? 0 then exec_bad pgdir None
  else
    _ ← in_phys (clearpteu pgdir (u32 (sz - 2 * PGSIZE)));
    r ← push_args argv 0 pgdir sz [];
    match (r : option (Z * list Z)) with
    | None => exec_bad pgdir None
    | Some (sp, ptrs) =>
        let argc := Z.of_nat (length argv) in
        let ustack := [0xffffffff; argc; u32 (sp - (argc + 1) * 4)] ++ ptrs ++ [0] in
        let sp := u32 (sp - (3 + argc + 1) * 4) in
        r ← in_phys (copyout_list pgdir sp (ustack ≫= le32));
        if r <? 0 then exec_bad pgdir None
        else
          _ ← upd me (λ p, set_name (safestrcpy_name (p_name p) (last_elem path path ++ [0])) p);
          p ← proc_at me;
          let oldpgdir := p_pgdir p in
          _ ← upd me (set_pgdir pgdir);
          _ ← upd me (set_sz sz);
          _ ← in_phys (wr32 (p_tf p + TF_eip) (e_entry elf));
          _ ← in_phys (wr32 (p_tf p + TF_esp) sp);
          _ ← switchuvm me;
          _ ← in_phys (freevm oldpgdir);
          mret 0
    end.

(** [argv]: the pointers before the null pointer, at most [MAXARG] of them *)
Definition exec (path : list Z) (argv : list Z) : K Z :=
  _ ← fslog me begin_op;
  ip ← fsys (λ pid cwd, namei pid cwd devsw_read path);
  match (ip : option nat) with
  | None => _ ← fslog me end_op; mret (-1)
  | Some ip =>
      _ ← fsys (λ pid _, ilock pid ip);
      '(r, b) ← readi_ip ip 0 ELFHDR_SIZE;
      let elf := decode_elfhdr b in
      if negb (r =? ELFHDR_SIZE) || negb (e_magic elf =? ELF_MAGIC) then exec_bad 0 (Some ip)
      else
        pgdir ← in_phys setupkvm;
        if pgdir =? 0 then exec_bad 0 (Some ip)
        else
          sz ← load_program (Z.to_nat (e_phnum elf)) ip pgdir 0 (e_phoff elf);
          match (sz : option Z) with
          | None => exec_bad pgdir (Some ip)
          | Some sz =>
              _ ← fsys (λ pid _, iunlockput pid ip);
              _ ← fslog me end_op;
              exec_stack elf path argv pgdir sz
          end
  end.

End exec.
