(* ===== verification/Sysfile.v ===== *)
(** * sysfile.c: the system calls on files

    Each handler in the kernel state of File; [me] is the running process.  A path
    is read from user memory when [argstr] has checked it; bytes read from a file
    are stored into user memory through the page table, with page faults. *)

From S2P Require Import Prelude Mmu CString Kalloc Vm VmSpec VmCopy Proc Trap Syscall Pipe Block Fs File Exec.

Definition O_RDONLY : Z := 0x000.
Definition O_WRONLY : Z := 0x001.
Definition O_RDWR : Z := 0x002.
Definition O_CREATE : Z := 0x200.

Section sysfile.
  Context `{KernelImage} `{ProcImage} {S : Type} {BO : BufOps S} {LO : LogOps S}.
  Context (devsw_read : Z → option (nat → Z → M (fs S) (Z * list Z))).
  Context (devsw_write : Z → option (nat → list Z → M (fs S) Z)).
  Context (me : nat).

Abbreviation K := (M (kern (flayer S))).
Abbreviation fsys := (fsys me).
Abbreviation begin_op := (fslog me begin_op).
Abbreviation end_op := (fslog me end_op).
Abbreviation ilock ip := (fsys (λ pid _, ilock pid ip)).
Abbreviation iunlock ip := (fsys (λ pid _, iunlock pid ip)).
Abbreviation iunlockput ip := (fsys (λ pid _, iunlockput pid ip)).
Abbreviation iput ip := (fsys (λ pid _, iput pid ip)).
Abbreviation iupdate ip := (fsys (λ _ _, iupdate ip)).
Abbreviation inode_at ip := (fsys (λ _ _, inode_at ip)).
Abbreviation iupd ip f := (fsys (λ _ _, iupd ip f)).
Abbreviation readi ip off n := (fsys (λ _ _, readi devsw_read ip off n)).
Abbreviation writei ip src off := (fsys (λ _ _, writei devsw_write ip src off)).
Abbreviation dirlookup dp name := (fsys (λ _ _, dirlookup devsw_read dp name)).
Abbreviation dirlink dp name inum := (fsys (λ pid _, dirlink pid devsw_read devsw_write dp name inum)).
Abbreviation namei path := (fsys (λ pid cwd, namei pid cwd devsw_read path)).
Abbreviation nameiparent path := (fsys (λ pid cwd, nameiparent pid cwd devsw_read path)).

(** ** User memory *)

(** a store by the kernel: the page must be present and writable *)
Definition ustore8_now (va b : Z) : K bool :=
  p ← proc_at me;
  v ← in_phys (gets (λ s, pte (mem s) (p_pgdir p) va));
  if pbit v && Z.testbit v 1 then
    _ ← in_phys (on_mem (store8 (tab v + va mod PGSIZE) b));
    mret true
  else mret false.

Definition ustore8 (va b : Z) : K unit :=
  ok ← ustore8_now va b;
  if (ok : bool) then mret ()
  else
    _ ← (pgfault (Some me) va : K Z);
    ok ← ustore8_now va b;
    if (ok : bool) then mret () else stuck.

Fixpoint ustore (va : Z) (bs : list Z) : K unit :=
  match bs with
  | [] => mret ()
  | b :: bs => _ ← ustore8 va b; ustore (u32 (va + 1)) bs
  end.

(** ** Arguments *)

(** a string argument, once checked *)
Definition argpath (n : Z) : K (option (list Z)) :=
  r ← argstr me n;
  match (r : option (Z * Z)) with
  | None => mret None
  | Some (p, len) => s ← uload me (Z.to_nat len) p; mret (Some s)
  end.

Definition argfd (n : Z) : K (option (Z * nat)) :=
  r ← argint me n;
  match (r : option Z) with
  | None => mret None
  | Some fd =>
      p ← proc_at me;
      if (fd <? 0) || (Z.of_nat NOFILE <=? fd) then mret None
      else
        let f := p_ofile p !!! Z.to_nat fd in
        if f =? 0 then mret None else mret (Some (fd, idx f))
  end.

Definition fdalloc (f : nat) : K (option Z) :=
  p ← proc_at me;
  match list_find (λ x, x = 0) (p_ofile p) with
  | Some (fd, _) =>
      _ ← upd me (λ p, set_ofile (<[fd := ptr f]> (p_ofile p)) p);
      mret (Some (Z.of_nat fd))
  | None => mret None
  end.

Definition clear_fd (fd : Z) : K unit := upd me (λ p, set_ofile (<[Z.to_nat fd := 0]> (p_ofile p)) p).

(** ** Calls on descriptors *)

Definition sys_dup : K Z :=
  a ← argfd 0;
  match (a : option (Z * nat)) with
  | None => mret (-1)
  | Some (_, f) =>
      fd ← fdalloc f;
      match (fd : option Z) with
      | None => mret (-1)
      | Some fd => _ ← in_fs (filedup f); mret fd
      end
  end.

(** the arguments of [read] and [write]: the file, the address and the length *)
Definition rw_args : K (option (nat * Z * Z)) :=
  a ← argfd 0;
  match (a : option (Z * nat)) with
  | None => mret None
  | Some (_, f) =>
      n ← argint me 2;
      match (n : option Z) with
      | None => mret None
      | Some n =>
          p ← argptr me 1 n;
          match (p : option Z) with None => mret None | Some p => mret (Some (f, u32 p, n)) end
      end
  end.

Definition sys_read : K Z :=
  a ← rw_args;
  match (a : option (nat * Z * Z)) with
  | None => mret (-1)
  | Some (f, p, n) =>
      '(r, bs) ← fileread devsw_read me f n;
      _ ← ustore p bs;
      mret r
  end.

Definition sys_write : K Z :=
  a ← rw_args;
  match (a : option (nat * Z * Z)) with
  | None => mret (-1)
  | Some (f, p, n) => bs ← uload me (Z.to_nat n) p; filewrite devsw_write me f bs
  end.

Definition sys_close : K Z :=
  a ← argfd 0;
  match (a : option (Z * nat)) with
  | None => mret (-1)
  | Some (fd, f) => _ ← clear_fd fd; _ ← fileclose me f; mret 0
  end.

(** [sizeof(struct stat)], and its fields at their offsets *)
Definition STAT_SIZE : Z := 20.
Definition store_stat (a : Z) (st : stat) : K unit :=
  _ ← ustore (u32 (a + 4)) (le32 (st_dev st));
  _ ← ustore (u32 (a + 8)) (le32 (st_ino st));
  _ ← ustore a (le16 (st_type st));
  _ ← ustore (u32 (a + 12)) (le16 (st_nlink st));
  ustore (u32 (a + 16)) (le32 (st_size st)).

Definition sys_fstat : K Z :=
  a ← argfd 0;
  match (a : option (Z * nat)) with
  | None => mret (-1)
  | Some (_, f) =>
      p ← argptr me 1 STAT_SIZE;
      match (p : option Z) with
      | None => mret (-1)
      | Some p =>
          st ← filestat me f;
          match (st : option stat) with
          | None => mret (-1)
          | Some st => _ ← store_stat (u32 p) st; mret 0
          end
      end
  end.

(** ** Links *)

(** [bad:] of [sys_link] *)
Definition link_bad (ip : nat) : K Z :=
  _ ← ilock ip;
  _ ← iupd ip (λ i, set_nlink (i16 (i_nlink i - 1)) i);
  _ ← iupdate ip;
  _ ← iunlockput ip;
  _ ← end_op;
  mret (-1).

Definition sys_link : K Z :=
  old ← argpath 0;
  match (old : option (list Z)) with
  | None => mret (-1)
  | Some old =>
  new ← argpath 1;
  match (new : option (list Z)) with
  | None => mret (-1)
  | Some new =>
  _ ← begin_op;
  ip ← namei old;
  match (ip : option nat) with
  | None => _ ← end_op; mret (-1)
  | Some ip =>
  _ ← ilock ip;
  i ← inode_at ip;
  if i_type i =? T_DIR then _ ← iunlockput ip; _ ← end_op; mret (-1)
  else
    _ ← iupd ip (λ i, set_nlink (i16 (i_nlink i + 1)) i);
    _ ← iupdate ip;
    _ ← iunlock ip;
    dp ← nameiparent new;
    match (dp : option (nat * list Z)) with
    | None => link_bad ip
    | Some (dp, name) =>
        _ ← ilock dp;
        d ← inode_at dp;
        i ← inode_at ip;
        r ← (if negb (i_dev d =? i_dev i) then mret (-1) else dirlink dp name (i_inum i));
        if r <? 0 then _ ← iunlockput dp; link_bad ip
        else
          _ ← iunlockput dp;
          _ ← iput ip;
          _ ← end_op;
          mret 0
    end
  end end end.

Fixpoint isdirempty_loop (fuel : nat) (dp : nat) (off : Z) : K bool :=
  match fuel with
  | O => λ _, NoFuel
  | Datatypes.S fuel =>
      d ← inode_at dp;
      if off <? i_size d then
        '(r, de) ← readi dp off DIRENT_SIZE;
        if negb (r =? DIRENT_SIZE) then panic "isdirempty: readi"
        else if negb (get16 0 de =? 0) then mret false
        else isdirempty_loop fuel dp (off + DIRENT_SIZE)
      else mret true
  end.

Definition isdirempty (dp : nat) : K bool :=
  d ← inode_at dp;
  isdirempty_loop (dir_fuel (i_size d)) dp (2 * DIRENT_SIZE).

Definition dot : list Z := [46].
Definition dotdot : list Z := [46; 46].

(** [bad:] of [sys_unlink] *)
Definition unlink_bad (dp : nat) : K Z :=
  _ ← iunlockput dp;
  _ ← end_op;
  mret (-1).

Definition sys_unlink : K Z :=
  path ← argpath 0;
  match (path : option (list Z)) with
  | None => mret (-1)
  | Some path =>
  _ ← begin_op;
  dp ← nameiparent path;
  match (dp : option (nat * list Z)) with
  | None => _ ← end_op; mret (-1)
  | Some (dp, name) =>
  _ ← ilock dp;
  if (namecmp name dot =? 0) || (namecmp name dotdot =? 0) then unlink_bad dp
  else
    r ← dirlookup dp name;
    match (r : option (nat * Z)) with
    | None => unlink_bad dp
    | Some (ip, off) =>
        _ ← ilock ip;
        i ← inode_at ip;
        if i_nlink i <? 1 then panic "unlink: nlink < 1"
        else
          empty ← (if i_type i =? T_DIR then isdirempty ip else mret true);
          if negb (empty : bool) then _ ← iunlockput ip; unlink_bad dp
          else
            r ← writei dp (replicate (Z.to_nat DIRENT_SIZE) 0) off;
            if negb (r =? DIRENT_SIZE) then panic "unlink: writei"
            else
              _ ← (if i_type i =? T_DIR then
                     _ ← iupd dp (λ d, set_nlink (i16 (i_nlink d - 1)) d);
                     iupdate dp
                   else mret ());
              _ ← iunlockput dp;
              _ ← iupd ip (λ i, set_nlink (i16 (i_nlink i - 1)) i);
              _ ← iupdate ip;
              _ ← iunlockput ip;
              _ ← end_op;
              mret 0
    end
  end end.

(** ** Creating files *)

Definition create (path : list Z) (type major minor : Z) : K (option nat) :=
  r ← nameiparent path;
  match (r : option (nat * list Z)) with
  | None => mret None
  | Some (dp, name) =>
      _ ← ilock dp;
      r ← dirlookup dp name;
      match (r : option (nat * Z)) with
      | Some (ip, _) =>
          _ ← iunlockput dp;
          _ ← ilock ip;
          i ← inode_at ip;
          if (type =? T_FILE) && (i_type i =? T_FILE) then mret (Some ip)
          else _ ← iunlockput ip; mret None
      | None =>
          d ← inode_at dp;
          ip ← fsys (λ _ _, ialloc (i_dev d) type);
          _ ← ilock ip;
          _ ← iupd ip (λ i, set_nlink 1 (set_major_minor (i16 major) (i16 minor) i));
          _ ← iupdate ip;
          i ← inode_at ip;
          _ ← (if type =? T_DIR then
                 _ ← iupd dp (λ d, set_nlink (i16 (i_nlink d + 1)) d);
                 _ ← iupdate dp;
                 r1 ← dirlink ip dot (i_inum i);
                 if r1 <? 0 then panic "create dots"
                 else
                   r2 ← dirlink ip dotdot (i_inum d);
                   if r2 <? 0 then panic "create dots" else mret ()
               else mret ());
          r ← dirlink dp name (i_inum i);
          if r <? 0 then panic "create: dirlink"
          else
            _ ← iunlockput dp;
            mret (Some ip)
      end
  end.

(** the inode that [open] opens, locked *)
Definition open_inode (path : list Z) (omode : Z) : K (option nat) :=
  if negb (Z.land omode O_CREATE =? 0) then create path T_FILE 0 0
  else
    ip ← namei path;
    match (ip : option nat) with
    | None => mret None
    | Some ip =>
        _ ← ilock ip;
        i ← inode_at ip;
        if (i_type i =? T_DIR) && negb (omode =? O_RDONLY) then _ ← iunlockput ip; mret None
        else mret (Some ip)
    end.

Definition sys_open : K Z :=
  path ← argpath 0;
  match (path : option (list Z)) with
  | None => mret (-1)
  | Some path =>
  omode ← argint me 1;
  match (omode : option Z) with
  | None => mret (-1)
  | Some omode =>
  _ ← begin_op;
  ip ← open_inode path omode;
  match (ip : option nat) with
  | None => _ ← end_op; mret (-1)
  | Some ip =>
  let fail : K Z := _ ← iunlockput ip; _ ← end_op; mret (-1) in
  f ← in_fs filealloc;
  match (f : option nat) with
  | None => fail
  | Some f =>
      fd ← fdalloc f;
      match (fd : option Z) with
      | None => _ ← fileclose me f; fail
      | Some fd =>
          _ ← iunlock ip;
          _ ← end_op;
          let w := negb (Z.land omode O_WRONLY =? 0) in
          _ ← in_fs (fupd f (set_inode_file ip (negb w) (w || negb (Z.land omode O_RDWR =? 0))));
          mret fd
      end
  end end end end.

Definition created (ip : option nat) : K Z :=
  match ip with
  | None => _ ← end_op; mret (-1)
  | Some ip => _ ← iunlockput ip; _ ← end_op; mret 0
  end.

Definition sys_mkdir : K Z :=
  _ ← begin_op;
  path ← argpath 0;
  match (path : option (list Z)) with
  | None => _ ← end_op; mret (-1)
  | Some path => ip ← create path T_DIR 0 0; created ip
  end.

Definition sys_mknod : K Z :=
  _ ← begin_op;
  path ← argpath 0;
  match (path : option (list Z)) with
  | None => _ ← end_op; mret (-1)
  | Some path =>
      major ← argint me 1;
      match (major : option Z) with
      | None => _ ← end_op; mret (-1)
      | Some major =>
          minor ← argint me 2;
          match (minor : option Z) with
          | None => _ ← end_op; mret (-1)
          | Some minor => ip ← create path T_DEV major minor; created ip
          end
      end
  end.

Definition sys_chdir : K Z :=
  _ ← begin_op;
  path ← argpath 0;
  match (path : option (list Z)) with
  | None => _ ← end_op; mret (-1)
  | Some path =>
      ip ← namei path;
      match (ip : option nat) with
      | None => _ ← end_op; mret (-1)
      | Some ip =>
          _ ← ilock ip;
          i ← inode_at ip;
          if negb (i_type i =? T_DIR) then _ ← iunlockput ip; _ ← end_op; mret (-1)
          else
            _ ← iunlock ip;
            p ← proc_at me;
            _ ← iput (idx (p_cwd p));
            _ ← end_op;
            _ ← upd me (set_cwd (ptr ip));
            mret 0
      end
  end.

(** ** exec and pipe *)

(** the loop of [sys_exec]: the pointers to the arguments *)
Fixpoint exec_args (n : nat) (uargv i : Z) : K (option (list Z)) :=
  match n with
  | O => mret None
  | Datatypes.S n =>
      r ← fetchint me (u32 (uargv + 4 * i));
      match (r : option Z) with
      | None => mret None
      | Some uarg =>
          if uarg =? 0 then mret (Some [])
          else
            r ← fetchstr me (u32 uarg);
            match (r : option (Z * Z)) with
            | None => mret None
            | Some (p, _) =>
                rest ← exec_args n uargv (i + 1);
                mret (match (rest : option (list Z)) with Some l => Some (p :: l) | None => None end)
            end
      end
  end.

Definition sys_exec : K Z :=
  path ← argpath 0;
  match (path : option (list Z)) with
  | None => mret (-1)
  | Some path =>
      uargv ← argint me 1;
      match (uargv : option Z) with
      | None => mret (-1)
      | Some uargv =>
          argv ← exec_args (Z.to_nat MAXARG) (u32 uargv) 0;
          match (argv : option (list Z)) with
          | None => mret (-1)
          | Some argv => exec devsw_read me path argv
          end
      end
  end.

Definition sys_pipe : K Z :=
  fd ← argptr me 0 8;
  match (fd : option Z) with
  | None => mret (-1)
  | Some fd =>
      r ← pipealloc me;
      match (r : option (nat * nat)) with
      | None => mret (-1)
      | Some (rf, wf) =>
          fd0 ← fdalloc rf;
          match (fd0 : option Z) with
          | None => _ ← fileclose me rf; _ ← fileclose me wf; mret (-1)
          | Some fd0 =>
              fd1 ← fdalloc wf;
              match (fd1 : option Z) with
              | None =>
                  _ ← clear_fd fd0;
                  _ ← fileclose me rf;
                  _ ← fileclose me wf;
                  mret (-1)
              | Some fd1 =>
                  _ ← ustore (u32 fd) (le32 fd0);
                  _ ← ustore (u32 (fd + 4)) (le32 fd1);
                  mret 0
              end
          end
      end
  end.

(** the entries of [syscalls[]] that are defined here *)
Definition sysfile (num : Z) : option (K Z) :=
  if num =? 4 then Some sys_pipe
  else if num =? 5 then Some sys_read
  else if num =? 7 then Some sys_exec
  else if num =? 8 then Some sys_fstat
  else if num =? 9 then Some sys_chdir
  else if num =? 10 then Some sys_dup
  else if num =? 15 then Some sys_open
  else if num =? 16 then Some sys_write
  else if num =? 17 then Some sys_mknod
  else if num =? 18 then Some sys_unlink
  else if num =? 19 then Some sys_link
  else if num =? 20 then Some sys_mkdir
  else if num =? 21 then Some sys_close
  else None.

End sysfile.
