(* ===== verification/FsRefs.v ===== *)
(** * fs.c: references to inodes

    [iref_ok c s]: the count of references in every cached inode is [c] of its index,
    as a C [int].  The functions of fs.c change the counts as their comments say: [iget],
    [idup], [ialloc], [dirlookup] and the functions on paths return an inode with a
    reference more, [iput] gives one up, and the others keep them. *)

From S2P Require Import Prelude Block Fs.

Abbreviation counts := (nat → Z).
Definition add1 (ip : nat) (c : counts) : counts := λ j, if decide (j = ip) then c j + 1 else c j.
Definition sub1 (ip : nat) (c : counts) : counts := λ j, if decide (j = ip) then c j - 1 else c j.

(** equality of counts *)
Ltac cnt := intros ?; unfold add1, sub1 in *; cbn beta; repeat case_decide; subst; try done; try lia.

Lemma i32_step z d : i32 (i32 z + d) = i32 (z + d).
Proof.
  unfold i32. f_equal. replace ((z + 2 ^ 31) mod 2 ^ 32 - 2 ^ 31 + d + 2 ^ 31) with ((z + 2 ^ 31) mod 2 ^ 32 + d) by lia.
  rewrite Zplus_mod_idemp_l. f_equal. lia.
Qed.

(** one call, by its lemma *)
Tactic Notation "rstep" uconstr(H) := apply rets_bind; eapply rets_mono; [by apply H|]; cbn beta.

Section fsrefs.
  Context {S : Type} {BO : BufOps S} (me : Z) (cwd : nat).

Abbreviation F := (M (fs S)).

Definition iref_ok (c : counts) (s : fs S) : Prop := ∀ i n, f_inodes s !! i = Some n → i_ref n = i32 (c i).

Lemma iref_ext c c' s : (∀ i, c i = c' i) → iref_ok c s → iref_ok c' s.
Proof. intros E Hs i n Hi. rewrite <- E. by apply Hs. Qed.

Definition keeps {A} (m : F A) : Prop := ∀ c s, iref_ok c s → rets m s (λ _ s', iref_ok c s').

(** a reference more to the inode in the result, if any *)
Definition takes {A} (m : F A) (out : A → option nat) : Prop :=
  ∀ c s, iref_ok c s → rets m s (λ a s', iref_ok (match out a with Some ip => add1 ip c | None => c end) s').

(** a reference less to [ip] *)
Definition drops {A} (m : F A) (ip : nat) : Prop :=
  ∀ c s, iref_ok c s → rets m s (λ _ s', iref_ok (sub1 ip c) s').

(** ** Rules *)

Lemma keeps_bind {A B} (m : F A) (k : A → F B) : keeps m → (∀ a, keeps (k a)) → keeps (m ≫= k).
Proof. intros Hm Hk c s Hs. rstep Hm. intros a s' Hs'. by apply Hk. Qed.
Lemma keeps_ret {A} (a : A) : keeps (mret a).
Proof. intros c s Hs. by apply rets_ret. Qed.
Lemma keeps_gets {A} (f : fs S → A) : keeps (gets f).
Proof. intros c s Hs. by apply rets_gets. Qed.
Lemma keeps_panic {A} msg : keeps (panic msg : F A).
Proof. intros c s _. apply rets_panic. Qed.
Lemma keeps_stop {A} : keeps ((λ _, NoFuel) : F A).
Proof. intros c s _ a s'. done. Qed.
Lemma keeps_sleep {A} ch : keeps ((λ s, Asleep ch s) : F A).
Proof. intros c s _ a s'. done. Qed.
Lemma keeps_sub {A} (m : M S A) : keeps (sub m).
Proof. intros c s Hs a s'. unfold sub, zoom. destruct (m (f_sub s)); try done. by intros [= _ <-]. Qed.
Lemma keeps_inode_at ip : keeps (inode_at (S := S) ip).
Proof. apply keeps_bind; [apply keeps_gets|]. intros l. destruct (l !! ip); [apply keeps_ret|apply keeps_panic]. Qed.
Lemma keeps_iupd ip f : (∀ n, i_ref (f n) = i_ref n) → keeps (iupd (S := S) ip f).
Proof.
  intros Hf c s Hs. apply rets_modify. intros i n. cbn. rewrite list_lookup_alter. case_decide as Hd; [subst i|apply Hs].
  destruct (f_inodes s !! ip) as [n'|] eqn:E; [|done]. intros [= <-]. rewrite Hf. by apply Hs.
Qed.

Lemma keeps_takes {A} (m : F A) out : keeps m → (∀ a, out a = None) → takes m out.
Proof. intros Hm Hn c s Hs. eapply rets_mono; [by apply Hm|]. intros a s' Hs'. by rewrite Hn. Qed.
Lemma takes_ret {A} (a : A) out : out a = None → takes (mret a) out.
Proof. intros Hn c s Hs. apply rets_ret. by rewrite Hn. Qed.
Lemma takes_bind {A B} (m : F A) (k : A → F B) out : keeps m → (∀ a, takes (k a) out) → takes (m ≫= k) out.
Proof. intros Hm Hk c s Hs. rstep Hm. intros a s' Hs'. by apply Hk. Qed.
Lemma drops_bind {A B} (m : F A) (k : A → F B) ip : keeps m → (∀ a, drops (k a) ip) → drops (m ≫= k) ip.
Proof. intros Hm Hk c s Hs. rstep Hm. intros a s' Hs'. by apply Hk. Qed.

Lemma iupd_ref ip d : ∀ c s, iref_ok c s →
  rets (iupd ip (λ i, set_iref (i32 (i_ref i + d)) i)) s (λ _ s', iref_ok (λ j, if decide (j = ip) then c j + d else c j) s').
Proof.
  intros c s Hs. apply rets_modify. intros i n. cbn. rewrite list_lookup_alter. case_decide as Hd; [subst i|].
  - destruct (f_inodes s !! ip) as [n'|] eqn:E; [|done]. intros [= <-]. cbn. rewrite decide_True by done. rewrite (Hs ip n' E). apply i32_step.
  - rewrite decide_False by done. apply Hs.
Qed.
End fsrefs.

Create HintDb refs.
#[export] Hint Resolve keeps_ret keeps_gets keeps_panic keeps_stop keeps_sleep keeps_sub keeps_inode_at : refs.
#[export] Hint Extern 1 (keeps (iupd _ _)) => apply keeps_iupd; done : refs.

(** the steps out a function that keeps the counts *)
Ltac keep := repeat first
  [ solve [eauto 2 with refs]
  | match goal with
    | |- keeps (mbind _ _) => apply keeps_bind; [|intros ?]
    | |- keeps (if ?b then _ else _) => destruct b
    | |- keeps (match ?x with _ => _ end) => destruct x
    end].

Section functions.
  Context {S : Type} {BO : BufOps S} (me : Z) (cwd : nat).
  Context (devsw_read : Z → option (nat → Z → M (fs S) (Z * list Z))).
  Context (devsw_write : Z → option (nat → list Z → M (fs S) Z)).
  (** the drivers keep the references *)
  Context (Hread : ∀ major f ip n, devsw_read major = Some f → keeps (f ip n)).
  Context (Hwrite : ∀ major f ip src, devsw_write major = Some f → keeps (f ip src)).

Lemma keeps_bzero dev b : keeps (S := S) (bzero dev b).
Proof. unfold bzero. keep. Qed.
Hint Resolve keeps_bzero : refs.
Lemma keeps_balloc dev : keeps (S := S) (balloc dev).
Proof.
  unfold balloc. apply keeps_bind; [keep|]. intros sb. generalize (Z.to_nat (sb_size sb / BPB + 2)), 0. intros n.
  induction n as [|n IH]; intros b; cbn [balloc_loop]; keep.
Qed.
Lemma keeps_bfree dev b : keeps (S := S) (bfree dev b).
Proof. unfold bfree. keep. Qed.
Lemma keeps_iupdate ip : keeps (S := S) (iupdate ip).
Proof. unfold iupdate. keep. Qed.
Lemma keeps_ilock ip : keeps (S := S) (ilock me ip).
Proof. unfold ilock, acquiresleep. keep. Qed.
Lemma keeps_iunlock ip : keeps (S := S) (iunlock me ip).
Proof. unfold iunlock, holdingsleep, releasesleep. keep. Qed.
Hint Resolve keeps_balloc keeps_bfree keeps_iupdate keeps_ilock keeps_iunlock : refs.
Lemma keeps_bmap ip bn : keeps (S := S) (bmap ip bn).
Proof. unfold bmap, addr_or_alloc. keep. Qed.
Hint Resolve keeps_bmap : refs.

Lemma keeps_itrunc ip : keeps (S := S) (itrunc ip).
Proof.
  assert (Hd : ∀ n k, keeps (S := S) (itrunc_direct n ip k)).
  { induction n as [|n IH]; intros k; cbn [itrunc_direct]; keep. }
  assert (Hi : ∀ n dev bp j, keeps (S := S) (itrunc_indirect n dev bp j)).
  { induction n as [|n IH]; intros dev bp j; cbn [itrunc_indirect]; keep. }
  unfold itrunc. keep.
Qed.
Hint Resolve keeps_itrunc : refs.

Lemma keeps_readi ip off n : keeps (readi devsw_read ip off n).
Proof.
  assert (Hl : ∀ f ip tot n off, keeps (S := S) (readi_loop f ip tot n off)).
  { induction f as [|f IH]; intros; cbn [readi_loop]; keep. }
  unfold readi. apply keeps_bind; [keep|]. intros i. destruct (_ =? _); [|keep].
  match goal with |- keeps (match ?x with _ => _ end) => destruct x as [f|] eqn:E end; [|keep]. destruct (_ && _); [|done]. by eapply Hread.
Qed.
Lemma keeps_writei ip src off : keeps (writei devsw_write ip src off).
Proof.
  assert (Hl : ∀ f ip src tot n off, keeps (S := S) (writei_loop f ip src tot n off)).
  { induction f as [|f IH]; intros; cbn [writei_loop]; keep. }
  unfold writei. apply keeps_bind; [keep|]. intros i. destruct (_ =? _); [|keep].
  match goal with |- keeps (match ?x with _ => _ end) => destruct x as [f|] eqn:E end; [|keep]. destruct (_ && _); [|done]. by eapply Hwrite.
Qed.
Lemma keeps_stati ip : keeps (S := S) (stati ip).
Proof. unfold stati. keep. Qed.
Hint Resolve keeps_readi keeps_writei : refs.
Lemma keeps_empty_slot n dp off : keeps (empty_slot devsw_read n dp off).
Proof. revert off. induction n as [|n IH]; intros off; cbn [empty_slot]; keep. Qed.
Hint Resolve keeps_empty_slot : refs.

(** ** References *)

Lemma iget_scan_slot l ip dev inum e k : iget_scan l ip dev inum e = inr (Some k) →
  (∀ k', e = Some k' → k = k') ∧ (e = None → ∃ n, l !! (k - ip)%nat = Some n ∧ (ip ≤ k)%nat ∧ i_ref n = 0).
Proof.
  revert ip e. induction l as [|i l IH]; intros ip e; cbn [iget_scan]; [intros [= ->]; split; [by intros k' [= ->]|done]|].
  destruct (_ && _); [done|]. intros E. destruct (IH _ _ E) as [H1 H2]. destruct e as [e|].
  - split; [|done]. intros k' [= <-]. by apply H1.
  - split; [done|]. intros _. destruct (Z.eqb_spec (i_ref i) 0) as [Hz|Hz].
    + rewrite (H1 ip eq_refl). exists i. by rewrite Nat.sub_diag.
    + destruct (H2 eq_refl) as (n & Hn & Hle & Hr). exists n. replace (k - ip)%nat with (Datatypes.S (k - (ip + 1)))%nat by lia.
      split_and!; [done|lia|done].
Qed.

Lemma takes_iget dev inum : takes (S := S) (iget dev inum) Some.
Proof.
  intros c s Hs. unfold iget. apply rets_bind, rets_gets.
  destruct (iget_scan _ _ _ _ _) as [ip|[ip|]] eqn:E; [| |apply rets_panic].
  - rstep iupd_ref. intros [] s' Hs'. by apply rets_ret.
  - destruct (iget_scan_slot _ _ _ _ _ _ E) as [_ H2]. destruct (H2 eq_refl) as (n & Hn & _ & Hz).
    rewrite Nat.sub_0_r in Hn. apply rets_bind, rets_modify, rets_ret. intros i m. cbn. unfold add1.
    rewrite list_lookup_alter. case_decide as Hd; [subst i|rewrite decide_False by done; apply Hs]. rewrite Hn. intros [= <-]. cbn. rewrite decide_True by done.
    pose proof (Hs ip n Hn) as Hr. rewrite Hz in Hr. rewrite <- (i32_step (c ip) 1), <- Hr. done.
Qed.
Lemma takes_idup ip : takes (S := S) (idup ip) Some.
Proof.
  intros c s Hs. unfold idup. rstep iupd_ref. intros [] s' Hs'. by apply rets_ret.
Qed.
Lemma takes_ialloc dev type : takes (S := S) (ialloc dev type) Some.
Proof.
  unfold ialloc. apply takes_bind; [keep|]. intros sb. generalize (Z.to_nat (sb_ninodes sb)), 1. intros n.
  induction n as [|n IH]; intros inum; cbn [ialloc_loop]; [by intros c s _ a s'|].
  apply takes_bind; [keep|]. intros sb'. destruct (_ <? _); [|by intros c s _; apply rets_panic].
  apply takes_bind; [keep|]. intros bp. apply takes_bind; [keep|]. intros data.
  destruct (_ =? 0); repeat (apply takes_bind; [keep|intros _]); [apply takes_iget|apply IH].
Qed.

Lemma drops_iput ip : drops (S := S) (iput me ip) ip.
Proof.
  unfold iput, acquiresleep, releasesleep. do 4 (apply drops_bind; [keep|intros ?]). intros c s. apply (iupd_ref ip (-1)).
Qed.
Lemma drops_iunlockput ip : drops (S := S) (iunlockput me ip) ip.
Proof. unfold iunlockput. apply drops_bind; [keep|]. intros _. apply drops_iput. Qed.

(** taking a reference and giving it up *)
Lemma takes_drops {A B} (m : M (fs S) A) out (k : A → M (fs S) B) :
  takes m out → (∀ a, match out a with Some ip => drops (k a) ip | None => keeps (k a) end) → keeps (m ≫= k).
Proof.
  intros Hm Hk c s Hs. rstep Hm. intros a s1. specialize (Hk a). cbn beta.
  destruct (out a) as [ip|]; intros Hs1; [|by apply Hk]. eapply rets_mono; [by apply Hk|]. intros b s2.
  apply iref_ext. cnt.
Qed.

Lemma takes_dirlookup dp name : takes (dirlookup devsw_read dp name) (fmap fst).
Proof.
  unfold dirlookup. apply takes_bind; [keep|]. intros d. destruct (negb _); [by intros c s _; apply rets_panic|].
  generalize (dir_fuel (i_size d)), 0. intros n. induction n as [|n IH]; intros off; cbn [dirlookup_loop]; [by intros c s _ a s'|].
  apply takes_bind; [keep|]. intros d'. destruct (_ <? _); [|by apply takes_ret].
  apply takes_bind; [keep|]. intros [r de]. destruct (negb _); [by intros c s _; apply rets_panic|].
  destruct (_ =? 0); [apply IH|]. destruct (_ =? 0); [|apply IH].
  intros c s Hs. rstep takes_iget. intros ip s' Hs'. by apply rets_ret.
Qed.

Lemma keeps_dirlink dp name inum : keeps (dirlink me devsw_read devsw_write dp name inum).
Proof.
  unfold dirlink. eapply takes_drops; [apply takes_dirlookup|]. intros [[ip off]|]; cbn [fmap option_fmap option_map fst]; [|keep].
  intros c s Hs. rstep drops_iput. intros [] s' Hs'. by apply rets_ret.
Qed.

(** a path: the reference moves from each directory to the next *)
Lemma takes_namex path parent : takes (namex me cwd devsw_read path parent) (fmap fst).
Proof.
  assert (Hl : ∀ n path name ip c s, iref_ok (add1 ip c) s →
    rets (namex_loop me devsw_read n path parent name ip) s
      (λ a s', iref_ok (match fst <$> a with Some ip => add1 ip c | None => c end) s')).
  { induction n as [|n IH]; intros p name ip c s Hs; cbn [namex_loop]; [by intros a s'|].
    assert (Hd : ∀ {A} (m : M (fs S) A) s, drops m ip → iref_ok (add1 ip c) s → rets m s (λ _ s', iref_ok c s')).
    { intros A m s1 Hm Hs1. eapply rets_mono; [by apply Hm|]. intros a s2. apply iref_ext. cnt. }
    destruct (skipelem p) as [[nm rest]|].
    - rstep keeps_ilock. intros [] s1 Hs1.
      rstep keeps_inode_at. intros i s2 Hs2.
      destruct (negb _); [|destruct (parent && _)].
      + rstep (Hd _ _ _ (drops_iunlockput ip)). intros [] s3 Hs3. by apply rets_ret.
      + rstep keeps_iunlock. intros [] s3 Hs3. by apply rets_ret.
      + rstep takes_dirlookup. intros [[next off]|] s3 Hs3; cbn in Hs3.
        * rstep drops_iunlockput. intros [] s4 Hs4. apply IH.
          eapply iref_ext; [|exact Hs4]. cnt.
        * rstep (Hd _ _ _ (drops_iunlockput ip)). intros [] s4 Hs4. by apply rets_ret.
    - destruct parent; [|by apply rets_ret]. rstep (Hd _ _ _ (drops_iput ip)). intros [] s3 Hs3. by apply rets_ret. }
  intros c s Hs. unfold namex. apply rets_bind. apply (rets_mono _ _ (λ ip s', iref_ok (add1 ip c) s')); [|intros ip s' Hs'; by apply Hl].
  destruct path as [|x path]; [by apply takes_idup|]. destruct (_ =? slash); [by apply takes_iget|by apply takes_idup].
Qed.

Lemma takes_namei path : takes (namei me cwd devsw_read path) id.
Proof.
  intros c s Hs. unfold namei. rstep takes_namex. intros r s' Hs'. by apply rets_ret.
Qed.
End functions.

#[export] Hint Resolve keeps_balloc keeps_bfree keeps_iupdate keeps_ilock keeps_iunlock keeps_itrunc keeps_readi keeps_writei keeps_stati keeps_dirlink : refs.
#[export] Hint Resolve takes_iget takes_idup takes_ialloc takes_dirlookup takes_namex takes_namei drops_iput drops_iunlockput : refs.
