(* ===== verification/FileSpec.v ===== *)
(** * Open files: references

    The count of references in every entry of the file table is the number of descriptors
    that refer to it, and that of every cached inode the number of open files on it and of
    processes whose current directory it is.  While a call runs, it may hold references of
    its own: [kinv k e d u] says that the counts are those of the tables plus [e] for files
    and [d] for inodes, and that the files in [u] were allocated but have no type yet. *)

From S2P Require Import Prelude Mmu CString Kalloc Vm VmSpec VmCopy Proc Trap ProcMem ProcFork ProcState.
From S2P Require Import Syscall Pipe Block Fs FsRefs File Exec Sysfile.

(** ** Counting *)

Definition times (x : Z) (l : list Z) : Z := Z.of_nat (length (filter (λ y, y = x) l)).

Lemma times_app x l1 l2 : times x (l1 ++ l2) = times x l1 + times x l2.
Proof. unfold times. rewrite filter_app, length_app. lia. Qed.
Lemma times_perm x l1 l2 : l1 ≡ₚ l2 → times x l1 = times x l2.
Proof. unfold times. by intros ->. Qed.
Lemma times_cons x y l : times x (y :: l) = (if decide (y = x) then 1 else 0) + times x l.
Proof. unfold times. rewrite filter_cons. case_decide; cbn [length]; lia. Qed.
Lemma times_nonneg x l : 0 ≤ times x l ≤ Z.of_nat (length l).
Proof. unfold times. pose proof (length_filter (λ y, y = x) l). lia. Qed.
Lemma times_in x l : x ∈ l → 1 ≤ times x l.
Proof. intros H. apply list_elem_of_split in H as (l1 & l2 & ->). rewrite times_app, times_cons, decide_True by done. pose proof (times_nonneg x l1). pose proof (times_nonneg x l2). lia. Qed.

Lemma times_nonzero x l : x ≠ 0 → times x (filter (λ f, f ≠ 0) l) = times x l.
Proof.
  intros Hx. induction l as [|y l IH]; [done|]. rewrite filter_cons, times_cons. case_decide as Hy; [by rewrite times_cons, IH|].
  rewrite IH, decide_False by (destruct (decide (y = 0)); congruence). done.
Qed.

Lemma times_insert x l i o v : l !! i = Some o →
  times x (<[i := v]> l) = times x l - (if decide (o = x) then 1 else 0) + (if decide (v = x) then 1 else 0).
Proof.
  revert i. induction l as [|y l IH]; intros [|i]; try done.
  - intros [= ->]. cbn. rewrite !times_cons. lia.
  - intros H. change (<[S i := v]> (y :: l)) with (y :: <[i := v]> l). rewrite !times_cons, (IH i H). lia.
Qed.

Lemma idx_ptr i : idx (ptr i) = i.
Proof. unfold idx, ptr. lia. Qed.
Lemma ptr_idx x : 1 ≤ x → ptr (idx x) = x.
Proof. unfold idx, ptr. lia. Qed.

(** the open files on an inode *)
Definition open_on (ip : nat) (f : file) : Prop := fi_type f = FD_INODE ∧ fi_ip f = ip.
#[export] Instance open_on_dec ip f : Decision (open_on ip f).
Proof. unfold open_on. apply _. Defined.
Definition opens (ip : nat) (l : list file) : Z := Z.of_nat (length (filter (open_on ip) l)).

Lemma opens_alter ip g i l f : l !! i = Some f →
  opens ip (alter g i l) = opens ip l - (if decide (open_on ip f) then 1 else 0) + (if decide (open_on ip (g f)) then 1 else 0).
Proof.
  unfold opens. revert i. induction l as [|y l IH]; intros [|i]; try done.
  - intros [= ->]. cbn [alter list_alter]. rewrite !filter_cons. repeat case_decide; cbn [length]; lia.
  - intros H. specialize (IH i H). change (alter g (S i) (y :: l)) with (y :: alter g i l). rewrite !filter_cons. destruct (decide (open_on ip y)); cbn [length]; lia.
Qed.

(** ** The invariant *)

Section filespec.
  Context `{KernelImage} `{ProcImage} {S : Type} {BO : BufOps S} {LO : LogOps S}.
  Context (devsw_read : Z → option (nat → Z → M (fs S) (Z * list Z))).
  Context (devsw_write : Z → option (nat → list Z → M (fs S) Z)).
  Context (Hread : ∀ major f ip n, devsw_read major = Some f → keeps (f ip n)).
  Context (Hwrite : ∀ major f ip src, devsw_write major = Some f → keeps (f ip src)).
  Context (me : nat).

Abbreviation K := (M (kern (flayer S))).

Record fl_ok (s : flayer S) (fc ic : counts) (u : list nat) : Prop := {
  fo_len : length (fl_files s) = NFILE;
  fo_files : ∀ i f, fl_files s !! i = Some f → fi_ref f = i32 (fc i) ∧ (fi_ref f = 0 → fi_type f = FD_NONE);
  fo_new : ∀ i, i ∈ u → ∃ f, fl_files s !! i = Some f ∧ fi_type f = FD_NONE ∧ fi_ref f ≠ 0;
  fo_inodes : iref_ok (λ i, ic i + opens i (fl_files s)) (fl_fs s) }.

(** what a slot refers to *)
Definition desc_ok (x : list Z * Z) : Prop :=
  length x.1 = NOFILE ∧ Forall (λ f, f = 0 ∨ 1 ≤ f ∧ (idx f < NFILE)%nat) x.1 ∧ 0 ≤ x.2.
Definition refview (l : list proc) : list (list Z * Z) := (λ p, (p_ofile p, p_cwd p)) <$> l.
Definition tfiles (l : list proc) : counts := λ i, times (ptr i) (file_refs l).
Definition tinodes (l : list proc) : counts := λ i, times (ptr i) (inode_refs l).

Definition kinv (k : kern (flayer S)) (e d : counts) (u : list nat) : Prop :=
  fl_ok (k_fs k) (λ i, tfiles (k_procs k) i + e i) (λ i, tinodes (k_procs k) i + d i) u ∧
  Forall desc_ok (refview (k_procs k)) ∧ (length (k_procs k) ≤ NPROC)%nat.

Lemma fl_ok_ext s fc fc' ic ic' u u' : (∀ i, fc i = fc' i) → (∀ i, ic i = ic' i) → (∀ i, i ∈ u' → i ∈ u) →
  fl_ok s fc ic u → fl_ok s fc' ic' u'.
Proof.
  intros Ef Ei Eu [H1' H2' H4' H3']. split; [done| |auto|].
  - intros i f Hi. rewrite <- Ef. by apply H2'.
  - eapply iref_ext; [|exact H3']. intros i. cbn. by rewrite Ei.
Qed.

Lemma kinv_ext k e e' d d' u u' : (∀ i, e i = e' i) → (∀ i, d i = d' i) → (∀ i, i ∈ u' → i ∈ u) → kinv k e d u → kinv k e' d' u'.
Proof. intros Ee Ed Eu [Hf Hp]. split; [|done]. eapply fl_ok_ext; [..|exact Hf]; [|intros i; cbn; by rewrite Ed|done]. intros i. cbn. by rewrite Ee. Qed.

(** the counts depend on the descriptors and directories only *)
Lemma refview_files l l' : refview l = refview l' → file_refs l = file_refs l' ∧ inode_refs l = inode_refs l'.
Proof.
  unfold refview, file_refs, inode_refs. revert l'. induction l as [|p l IH]; intros [|q l']; try done.
  rewrite !fmap_cons. intros [= E1 E2 E]. destruct (IH _ E) as [H1' H2']. cbn. unfold pfiles at 1 3, pinodes at 1 3. rewrite E1, E2.
  split; f_equal; done.
Qed.

Lemma kinv_quiet k k' e d u : k_fs k' = k_fs k → refview (k_procs k') = refview (k_procs k) → kinv k e d u → kinv k' e d u.
Proof.
  intros Ef Er [Hf [Hp Hl]]. unfold kinv, tfiles, tinodes in *. destruct (refview_files _ _ Er) as [-> ->].
  assert (length (k_procs k') = length (k_procs k)) as -> by (rewrite <- !(length_fmap (λ p, (p_ofile p, p_cwd p))); by apply (f_equal length) in Er).
  by rewrite Er, Ef.
Qed.

Lemma refview_alter f i l : (∀ p, p_ofile (f p) = p_ofile p ∧ p_cwd (f p) = p_cwd p) → refview (alter f i l) = refview l.
Proof.
  intros Hf. unfold refview. apply list_eq. intros j. rewrite !list_lookup_fmap, list_lookup_alter. case_decide as Hd; [subst j|done].
  destruct (l !! i) as [p|]; [|done]. cbn. by destruct (Hf p) as [-> ->].
Qed.
Lemma refview_imap f l : (∀ i p, p_ofile (f i p) = p_ofile p ∧ p_cwd (f i p) = p_cwd p) → refview (imap f l) = refview l.
Proof.
  intros Hf. unfold refview. apply list_eq. intros j. rewrite !list_lookup_fmap, list_lookup_imap.
  destruct (l !! j) as [p|]; [|done]. cbn. by destruct (Hf j p) as [-> ->].
Qed.

(** a descriptor or the directory of the process changes *)
Lemma tfiles_set l i p g fd o v : l !! i = Some p → p_ofile p !! fd = Some o → p_ofile (g p) = <[fd := v]> (p_ofile p) →
  ∀ j, tfiles (alter g i l) j = tfiles l j - (if decide (o = ptr j) then 1 else 0) + (if decide (v = ptr j) then 1 else 0).
Proof.
  intros Hi Ho Eg j. unfold tfiles. destruct (refs_alter pfiles l i g p Hi) as [A1 A2]. unfold file_refs.
  rewrite (times_perm _ _ _ A1), (times_perm _ _ _ A2), !times_app. unfold pfiles at 1 3.
  rewrite !times_nonzero by (unfold ptr; lia). rewrite Eg, (times_insert _ _ _ _ _ Ho). lia.
Qed.
Lemma tfiles_same l i p g : l !! i = Some p → p_ofile (g p) = p_ofile p → ∀ j, tfiles (alter g i l) j = tfiles l j.
Proof.
  intros Hi Eg j. unfold tfiles. destruct (refs_alter pfiles l i g p Hi) as [A1 A2]. unfold file_refs.
  rewrite (times_perm _ _ _ A1), (times_perm _ _ _ A2), !times_app. unfold pfiles at 1 3. by rewrite Eg.
Qed.
Lemma tinodes_set l i p g : l !! i = Some p →
  ∀ j, tinodes (alter g i l) j = tinodes l j - (if decide (p_cwd p = ptr j) then 1 else 0) + (if decide (p_cwd (g p) = ptr j) then 1 else 0).
Proof.
  intros Hi j. unfold tinodes. destruct (refs_alter pinodes l i g p Hi) as [A1 A2]. unfold inode_refs.
  rewrite (times_perm _ _ _ A1), (times_perm _ _ _ A2), !times_app.
  assert (Hp : ∀ p, times (ptr j) (pinodes p) = if decide (p_cwd p = ptr j) then 1 else 0).
  { intros q. unfold pinodes, ptr. case_decide as Hd; [by rewrite decide_False by lia|]. unfold times. rewrite filter_cons. by case_decide. }
  rewrite !Hp. lia.
Qed.

(** ** Triples *)

Definition trip {A} (e d : counts) (u : list nat) (m : K A) (P : A → Prop) (e' d' : A → counts) (u' : A → list nat) : Prop :=
  ∀ k, kinv k e d u → rets m k (λ a k', P a ∧ kinv k' (e' a) (d' a) (u' a)).

(** the call does not touch files, inodes or descriptors *)
Definition quiet {A} (m : K A) : Prop := ∀ k, rets m k (λ _ k', k_fs k' = k_fs k ∧ refview (k_procs k') = refview (k_procs k)).

Lemma trip_bind {A B} e d u (m : K A) P e1 d1 u1 (n : A → K B) Q e2 d2 u2 :
  trip e d u m P e1 d1 u1 → (∀ a, P a → trip (e1 a) (d1 a) (u1 a) (n a) Q e2 d2 u2) → trip e d u (m ≫= n) Q e2 d2 u2.
Proof.
  intros Hm Hn k Hk. apply rets_bind. eapply rets_mono; [by apply Hm|]. intros a k' [Ha Hk']. by apply Hn.
Qed.
Lemma trip_assoc {A B C} e d u (m : K A) (n : A → K B) (o : B → K C) P e' d' u' :
  trip e d u (m ≫= λ a, n a ≫= o) P e' d' u' → trip e d u ((m ≫= n) ≫= o) P e' d' u'.
Proof. intros Hm k Hk a k'. rewrite bind_assoc. by apply Hm. Qed.
Lemma trip_ret {A} e d u (a : A) (P : A → Prop) e' d' u' :
  P a → (∀ i, e i = e' a i) → (∀ i, d i = d' a i) → (∀ i, i ∈ u' a → i ∈ u) → trip e d u (mret a) P e' d' u'.
Proof. intros Ha He Hd Hu k Hk. apply rets_ret. split; [done|]. by eapply kinv_ext. Qed.
Lemma trip_mono {A} e d u (m : K A) (P P' : A → Prop) e1 d1 u1 e2 d2 u2 : trip e d u m P e1 d1 u1 →
  (∀ a, P a → P' a) → (∀ a i, e1 a i = e2 a i) → (∀ a i, d1 a i = d2 a i) → (∀ a i, i ∈ u2 a → i ∈ u1 a) → trip e d u m P' e2 d2 u2.
Proof.
  intros Hm HP He Hd Hu k Hk. eapply rets_mono; [by apply Hm|]. intros a k' [Ha Hk']. split; [by apply HP|]. eapply kinv_ext; [| | |exact Hk']; auto.
Qed.
Lemma trip_pre {A} e d u e1 d1 u1 (m : K A) P e' d' u' : trip e1 d1 u1 m P e' d' u' →
  (∀ i, e i = e1 i) → (∀ i, d i = d1 i) → (∀ i, i ∈ u1 → i ∈ u) → trip e d u m P e' d' u'.
Proof. intros Hm He Hd Hu k Hk. apply Hm. by eapply kinv_ext. Qed.
Lemma trip_panic {A} e d u msg (P : A → Prop) e' d' u' : trip e d u (panic msg) P e' d' u'.
Proof. intros k _. apply rets_panic. Qed.
Lemma trip_stop {A} e d u (P : A → Prop) e' d' u' : trip e d u (λ _, NoFuel) P e' d' u'.
Proof. by intros k _ a k'. Qed.
Lemma trip_sleep {A} e d u ch (P : A → Prop) e' d' u' : trip e d u (sleep me ch) P e' d' u'.
Proof. by intros k _ a k'. Qed.
Lemma trip_quiet {A} e d u (m : K A) : quiet m → trip e d u m (λ _, True) (λ _, e) (λ _, d) (λ _, u).
Proof. intros Hm k Hk. eapply rets_mono; [by apply Hm|]. intros a k' [Ef Er]. split; [done|]. by eapply kinv_quiet. Qed.

(** *** quiet calls *)

Lemma quiet_bind {A B} (m : K A) (n : A → K B) : quiet m → (∀ a, quiet (n a)) → quiet (m ≫= n).
Proof.
  intros Hm Hn k. apply rets_bind. eapply rets_mono; [by apply Hm|]. intros a k1 [E1 E2].
  eapply rets_mono; [by apply Hn|]. cbn beta. intros b k2 [E3 E4]. split; congruence.
Qed.
Lemma quiet_ret {A} (a : A) : quiet (mret a).
Proof. intros k. by apply rets_ret. Qed.
Lemma quiet_panic {A} msg : quiet (panic msg : K A).
Proof. intros k. apply rets_panic. Qed.
Lemma quiet_stop {A} : quiet ((λ _, NoFuel) : K A).
Proof. by intros k a k'. Qed.
Lemma quiet_phys {A} (m : M phys A) : quiet (in_phys m).
Proof. intros k. by apply rets_in_phys. Qed.
Lemma quiet_proc_at i : quiet (proc_at i).
Proof. intros k. by apply rets_proc_at. Qed.
Lemma quiet_upd i f : (∀ p, p_ofile (f p) = p_ofile p ∧ p_cwd (f p) = p_cwd p) → quiet (upd i f).
Proof. intros Hf k. apply rets_upd. split; [done|]. by apply refview_alter. Qed.
Lemma quiet_wakeup c : quiet (wakeup c).
Proof. intros k. apply rets_modify. split; [done|]. apply refview_imap. intros i p. unfold wake. by case_decide. Qed.
Lemma quiet_files f : quiet (in_fs (files_at f)).
Proof.
  intros k a k'. unfold in_fs, zoom, files_at. destruct (fl_files (k_fs k) !! f) eqn:E.
  - erewrite bind_Ret by reflexivity. rewrite E. intros [= _ <-]. by destruct k.
  - erewrite bind_Ret by reflexivity. rewrite E. done.
Qed.

End filespec.

Create HintDb quiet.
#[export] Hint Resolve quiet_ret quiet_panic quiet_stop quiet_phys quiet_proc_at quiet_wakeup quiet_files : quiet.
#[export] Hint Extern 1 (quiet (upd _ _)) => apply quiet_upd; done : quiet.

Ltac qt := repeat first
  [ solve [eauto 2 with quiet]
  | match goal with
    | |- quiet (mbind _ _) => apply quiet_bind; [|intros ?]
    | |- quiet (if ?b then _ else _) => destruct b
    | |- quiet (match ?x with _ => _ end) => destruct x
    end].

Section user.
  Context `{KernelImage} `{ProcImage} {S : Type} (me : nat).

Abbreviation quiet m := (quiet (S := S) m).

Lemma quiet_switchuvm i : quiet (switchuvm i).
Proof. unfold switchuvm. qt. Qed.
Hint Resolve quiet_switchuvm : quiet.
Lemma quiet_pgfault m va : quiet (pgfault m va).
Proof. unfold pgfault. qt. Qed.
Hint Resolve quiet_pgfault : quiet.
Lemma quiet_uload8 va : quiet (uload8 me va).
Proof. unfold uload8, uload8_now, stuck. qt. Qed.
Hint Resolve quiet_uload8 : quiet.
Lemma quiet_uload n va : quiet (uload me n va).
Proof. revert va. induction n as [|n IH]; intros va; cbn [uload]; qt. Qed.
Lemma quiet_ustring n va : quiet (ustring me n va).
Proof. revert va. induction n as [|n IH]; intros va; cbn [ustring]; qt. Qed.
Lemma quiet_ustore va bs : quiet (ustore me va bs).
Proof. revert va. induction bs as [|b bs IH]; intros va; cbn [ustore]; unfold ustore8, ustore8_now, stuck; qt. Qed.
Lemma quiet_fetchint a : quiet (fetchint me a).
Proof. unfold fetchint, uload32. qt. Qed.
Hint Resolve quiet_fetchint quiet_uload quiet_ustring quiet_ustore : quiet.
Lemma quiet_argint n : quiet (argint me n).
Proof. unfold argint. qt. Qed.
Hint Resolve quiet_argint : quiet.
Lemma quiet_argptr n sz : quiet (argptr me n sz).
Proof. unfold argptr. qt. Qed.
Lemma quiet_fetchstr a : quiet (fetchstr me a).
Proof.
  assert (Hl : ∀ n s ep pp, quiet (fetchstr_loop n me s ep pp)) by (induction n as [|n IH]; intros; cbn [fetchstr_loop]; qt).
  unfold fetchstr. qt.
Qed.
Hint Resolve quiet_argptr quiet_fetchstr : quiet.
Lemma quiet_argstr n : quiet (argstr me n).
Proof. unfold argstr. qt. Qed.
Hint Resolve quiet_argstr : quiet.
Lemma quiet_argpath n : quiet (argpath me n).
Proof. unfold argpath. qt. Qed.
End user.
#[export] Hint Resolve quiet_switchuvm quiet_pgfault quiet_uload quiet_ustring quiet_ustore quiet_fetchint quiet_argint quiet_argptr quiet_fetchstr quiet_argpath : quiet.

(** ** Files and inodes *)

Section calls.
  Context `{KernelImage} `{ProcImage} {S : Type} {BO : BufOps S} {LO : LogOps S}.
  Context (devsw_read : Z → option (nat → Z → M (fs S) (Z * list Z))).
  Context (devsw_write : Z → option (nat → list Z → M (fs S) Z)).
  Context (Hread : ∀ major f ip n, devsw_read major = Some f → keeps (f ip n)).
  Context (Hwrite : ∀ major f ip src, devsw_write major = Some f → keeps (f ip src)).
  Context (me : nat).

Abbreviation K := (M (kern (flayer S))).

(** a function of fs.c, whose effect on the references is known *)
Lemma rets_fsys {A} (m : Z → nat → M (fs S) A) (δ : A → counts) e d u k :
  (∀ pid cwd c s, iref_ok c s → rets (m pid cwd) s (λ a s', iref_ok (λ i, c i + δ a i) s')) → kinv k e d u →
  rets (fsys me m) k (λ a k', k_procs k' = k_procs k ∧ kinv k' e (λ i, d i + δ a i) u).
Proof.
  intros Hm [[F1 F2 F4 F3] Hp]. unfold fsys. apply rets_bind, rets_proc_at. intros p Hme a k'.
  unfold in_fs, zoom. destruct (m _ _ _) as [a' s'| | |] eqn:E; try done. intros [= <- <-]. split; [done|]. split; [|done].
  apply (Hm _ _ _ _ F3) in E. split; [done|done|done|]. eapply iref_ext; [|exact E]. intros i. cbn. lia.
Qed.

Lemma trip_fsys {A} (m : Z → nat → M (fs S) A) (δ : A → counts) e d u :
  (∀ pid cwd c s, iref_ok c s → rets (m pid cwd) s (λ a s', iref_ok (λ i, c i + δ a i) s')) →
  trip e d u (fsys me m) (λ _, True) (λ _, e) (λ a i, d i + δ a i) (λ _, u).
Proof. intros Hm k Hk. eapply rets_mono; [by eapply rets_fsys|]. by intros a k' [_ Hk']. Qed.

Lemma trip_keep {A} (m : Z → nat → M (fs S) A) e d u : (∀ pid cwd, keeps (m pid cwd)) →
  trip e d u (fsys me m) (λ _, True) (λ _, e) (λ _, d) (λ _, u).
Proof.
  intros Hm. eapply trip_mono; [apply (trip_fsys m (λ _ _, 0))|done|done|cbn; lia|done].
  intros pid cwd c s Hs. eapply rets_mono; [by apply Hm|]. intros a s'. apply iref_ext. intros i. lia.
Qed.
Lemma trip_take {A} (m : Z → nat → M (fs S) A) out e d u : (∀ pid cwd, takes (m pid cwd) out) →
  trip e d u (fsys me m) (λ _, True) (λ _, e) (λ a, match out a with Some ip => add1 ip d | None => d end) (λ _, u).
Proof.
  intros Hm. eapply trip_mono; [apply (trip_fsys m (λ a i, if decide (out a = Some i) then 1 else 0))|done|done| |done].
  - intros pid cwd c s Hs. eapply rets_mono; [by apply Hm|]. intros a s'. apply iref_ext. intros i. unfold add1.
    destruct (out a) as [ip|]; repeat case_decide; simplify_eq; done || lia.
  - intros a i. cbn. unfold add1. destruct (out a) as [ip|]; repeat case_decide; simplify_eq; done || lia.
Qed.
Lemma trip_drop {A} (m : Z → nat → M (fs S) A) ip e d u : (∀ pid cwd, drops (m pid cwd) ip) →
  trip e d u (fsys me m) (λ _, True) (λ _, e) (λ _, sub1 ip d) (λ _, u).
Proof.
  intros Hm. eapply trip_mono; [apply (trip_fsys m (λ _ i, if decide (i = ip) then -1 else 0))|done|done| |done].
  - intros pid cwd c s Hs. eapply rets_mono; [by apply Hm|]. intros a s'. apply iref_ext. cnt.
  - intros a. cnt.
Qed.
Lemma trip_log (m : M S unit) e d u : trip e d u (fslog me m) (λ _, True) (λ _, e) (λ _, d) (λ _, u).
Proof. apply trip_keep. intros. apply keeps_sub. Qed.

(** an entry of the file table changes *)
Lemma rets_fupd f g e e' d d' u u' (k : kern (flayer S)) :
  (∀ x, fl_files (k_fs k) !! f = Some x →
     (fi_ref x = i32 (tfiles (k_procs k) f + e f) → fi_ref (g x) = i32 (tfiles (k_procs k) f + e' f)) ∧
     (fi_ref (g x) = 0 → fi_type (g x) = FD_NONE) ∧ (f ∈ u' → fi_type (g x) = FD_NONE ∧ fi_ref (g x) ≠ 0) ∧
     (∀ i, d' i + (if decide (open_on i (g x)) then 1 else 0) = d i + (if decide (open_on i x) then 1 else 0))) →
  (fl_files (k_fs k) !! f = None → f ∉ u' ∧ ∀ i, d' i = d i) →
  (∀ i, i ≠ f → e' i = e i) → (∀ i, i ≠ f → i ∈ u' → i ∈ u) → kinv k e d u →
  rets (in_fs (fupd f g)) k (λ _ k', k_procs k' = k_procs k ∧ kinv k' e' d' u').
Proof.
  intros Hg Hn He Hu [[F1 F2 F4 F3] Hp] [] k'. unfold in_fs, zoom. intros [= <-]. split; [done|]. split; [|done]. split; cbn [k_fs fl_files fl_fs k_procs].
  - by rewrite length_alter.
  - intros i x. rewrite list_lookup_alter. case_decide as Hd; [subst i|].
    + destruct (fl_files (k_fs k) !! f) as [y|] eqn:E; [|done]. intros [= <-]. destruct (Hg y eq_refl) as (G1 & G2 & _).
      split; [|done]. apply G1. by apply F2.
    + intros Hi. rewrite He by done. by apply F2.
  - intros i Hi. destruct (decide (i = f)) as [->|Hne].
    + destruct (fl_files (k_fs k) !! f) as [y|] eqn:E; [|by destruct (Hn eq_refl)]. destruct (Hg y eq_refl) as (_ & _ & G2 & _).
      exists (g y). rewrite list_lookup_alter_eq, E. split; [done|]. by apply G2.
    + rewrite list_lookup_alter_ne by done. apply F4. by apply Hu.
  - eapply iref_ext; [|exact F3]. intros i. cbn. destruct (fl_files (k_fs k) !! f) as [y|] eqn:E.
    + rewrite (opens_alter _ _ _ _ _ E). destruct (Hg y eq_refl) as (_ & _ & _ & G3). specialize (G3 i). lia.
    + rewrite (proj2 (Hn eq_refl)). assert (alter g f (fl_files (k_fs k)) = fl_files (k_fs k)) as ->; [|done].
      apply list_eq. intros j. rewrite list_lookup_alter. case_decide; [subst j; by rewrite E|done].
Qed.

Lemma rets_fs_bind {A B} (m : M (flayer S) A) (n : A → M (flayer S) B) (k : kern (flayer S)) Q :
  rets (in_fs m) k (λ a k', rets (in_fs (n a)) k' Q) → rets (in_fs (m ≫= n)) k Q.
Proof.
  unfold rets, in_fs, zoom. intros HQ b k2. unfold mbind, M_bind. destruct (m (k_fs k)) as [a s| | |] eqn:E; try done.
  apply (HQ a _ eq_refl).
Qed.
Lemma rets_fs_ret {A} (a : A) (k : kern (flayer S)) (Q : A → kern (flayer S) → Prop) : Q a k → rets (in_fs (mret a)) k Q.
Proof. intros HQ b k'. unfold in_fs, zoom. intros [= <- <-]. by destruct k. Qed.
Lemma rets_files_at f (k : kern (flayer S)) Q :
  (∀ x, fl_files (k_fs k) !! f = Some x → Q x k) → rets (in_fs (files_at f)) k Q.
Proof.
  intros HQ. apply rets_fs_bind. intros l k1. unfold in_fs, zoom. intros [= <- <-]. cbn [k_fs].
  destruct (fl_files (k_fs k) !! f) as [x|] eqn:E; [|by intros a k']. apply rets_fs_ret. destruct k. by apply HQ.
Qed.

(** no open file on an inode without a type *)
Lemma not_open i x : fi_type x ≠ FD_INODE → (if decide (open_on i x) then 1 else 0) = 0.
Proof. intros Hx. rewrite decide_False; [done|]. by intros [? _]. Qed.

Lemma trip_filealloc e d u : trip (S := S) e d u (in_fs filealloc)
  (λ r, ∀ f, r = Some f → (f < NFILE)%nat ∧ f ∉ u) (λ r, match r with Some f => add1 f e | None => e end) (λ _, d)
  (λ r, match r with Some f => f :: u | None => u end).
Proof.
  intros k Hk. pose proof Hk as [[F1 F2 F4 F3] Hp]. unfold filealloc. apply rets_fs_bind. intros l k1. unfold in_fs, zoom at 1. intros [= <- <-].
  assert (Build_kern (k_phys k) (k_fs k) (k_procs k) (k_nextpid k) (k_initproc k) = k) as -> by (by destruct k).
  destruct (list_find _ _) as [[f x]|] eqn:E; [|by apply rets_fs_ret].
  apply list_find_Some in E as (Hf & Hz & _). destruct (F2 f x Hf) as [Er Et]. apply rets_fs_bind. eapply rets_mono.
  - apply (rets_fupd f (set_fref 1) e (add1 f e) d d u (f :: u)); try done.
    + intros y Hy. rewrite Hf in Hy. injection Hy as <-. split_and!.
      * intros _. cbn. unfold add1. rewrite decide_True by done. rewrite Z.add_assoc, <- i32_step, <- Er, Hz. done.
      * done.
      * intros _. cbn. split; [by apply Et|done].
      * done.
    + by rewrite Hf.
    + intros i Hi. unfold add1. by rewrite decide_False.
    + intros i Hi. rewrite elem_of_cons. by intros [?|?].
  - intros [] k' [_ Hk']. apply rets_fs_ret. split; [|done]. intros ? [= <-]. split; [rewrite <- F1; by eapply lookup_lt_Some|].
    intros Hu. destruct (F4 f Hu) as (y & Hy & _ & Hnz). rewrite Hf in Hy. by injection Hy as <-.
Qed.

Lemma trip_filedup f e d u : trip (S := S) e d u (in_fs (filedup f)) (λ _, True) (λ _, add1 f e) (λ _, d) (λ _, u).
Proof.
  intros k Hk. pose proof Hk as [[F1 F2 F4 F3] Hp]. unfold filedup. apply rets_fs_bind, rets_files_at. intros x Hx.
  destruct (F2 f x Hx) as [Er Et]. destruct (Z.ltb_spec (fi_ref x) 1) as [Hl|Hl]; [by intros a k'|].
  assert (Hnz : i32 (fi_ref x + 1) ≠ 0).
  { pose proof (i32_range (tfiles (k_procs k) f + e f)). rewrite <- Er in *. unfold i32. zdm. }
  apply rets_fs_bind. eapply rets_mono; [apply (rets_fupd f _ e (add1 f e) d d u u); try done|].
  - intros y Hy. rewrite Hx in Hy. injection Hy as <-. cbn. split_and!; [|intros Hz| |done].
    + intros E. unfold add1. rewrite decide_True by done. by rewrite Z.add_assoc, E, i32_step.
    + exfalso. revert Hz. apply Hnz.
    + intros Hu. destruct (F4 f Hu) as (z & Hz & Ht & _). rewrite Hx in Hz. injection Hz as <-. by split.
  - by rewrite Hx.
  - intros i Hi. unfold add1. by rewrite decide_False.
  - intros [] k' [_ Hk']. apply rets_fs_ret. by split.
Qed.

(** ** Descriptors *)

Lemma kinv_set_fd (k : kern (flayer S)) e d u i p fd o v :
  k_procs k !! i = Some p → p_ofile p !! fd = Some o → v = 0 ∨ 1 ≤ v ∧ (idx v < NFILE)%nat → kinv k e d u →
  kinv (with_procs (alter (λ p, set_ofile (<[fd := v]> (p_ofile p)) p) i) k)
    (λ j, e j + (if decide (o = ptr j) then 1 else 0) - (if decide (v = ptr j) then 1 else 0)) d u.
Proof.
  intros Hi Ho Hv [Hf Hp]. set (g := λ p, set_ofile (<[fd := v]> (p_ofile p)) p). split; cbn [with_procs k_fs k_procs].
  - eapply fl_ok_ext; [..|exact Hf]; [| |done]; intros j; cbn.
    + rewrite (tfiles_set _ _ _ _ _ _ v Hi Ho) by done. lia.
    + rewrite (tinodes_set _ _ _ g Hi). cbn. lia.
  - destruct Hp as [Hp Hl]. split; [|by rewrite length_alter]. unfold refview in *. rewrite Forall_fmap in *. apply Forall_alter; [done|]. intros x Hx _. rewrite Hi in Hx. injection Hx as <-.
    rewrite Forall_lookup in Hp. destruct (Hp i p Hi) as (D1 & D2 & D3). split_and!; cbn.
    + by rewrite length_insert.
    + by apply Forall_insert.
    + done.
Qed.

Lemma rets_fdalloc f e d u (k : kern (flayer S)) : (f < NFILE)%nat → kinv k e d u →
  rets (fdalloc me f) k (λ r k', match r with
    | Some fd => kinv k' (sub1 f e) d u ∧ ∃ cur, k_procs k' !! me = Some cur ∧ p_ofile cur !! Z.to_nat fd = Some (ptr f)
    | None => k' = k
    end).
Proof.
  intros Hf Hk. unfold fdalloc. apply rets_bind, rets_proc_at. intros p Hme. destruct (list_find _ _) as [[fd x]|] eqn:E.
  - apply list_find_Some in E as (Hfd & -> & _). apply rets_bind, rets_upd, rets_ret. split.
    + eapply kinv_ext; [| | |eapply (kinv_set_fd k e d u me p fd 0 (ptr f) Hme Hfd); [right; rewrite idx_ptr; unfold ptr; lia|done]]; try done.
      cbn. intros j. unfold sub1, ptr. repeat case_decide; lia.
    + exists (set_ofile (<[fd := ptr f]> (p_ofile p)) p). cbn. rewrite list_lookup_alter_eq, Hme. split; [done|]. cbn.
      rewrite Nat2Z.id. rewrite list_lookup_insert_eq; [done|]. by eapply lookup_lt_Some.
  - by apply rets_ret.
Qed.

Lemma trip_fdalloc f e d u : (f < NFILE)%nat → trip (S := S) e d u (fdalloc me f) (λ _, True) (λ r, match r with Some _ => sub1 f e | None => e end) (λ _, d) (λ _, u).
Proof.
  intros Hf k Hk. eapply rets_mono; [by apply rets_fdalloc|]. intros [fd|] k'; [by intros [? _]|]. by intros ->.
Qed.

Lemma rets_argfd n e d u (k : kern (flayer S)) : kinv k e d u →
  rets (argfd me n) k (λ r k', kinv k' e d u ∧ match r with
    | Some (fd, f) => (f < NFILE)%nat ∧ ∃ cur, k_procs k' !! me = Some cur ∧ p_ofile cur !! Z.to_nat fd = Some (ptr f)
    | None => True
    end).
Proof.
  intros Hk. unfold argfd. apply rets_bind. eapply rets_mono; [apply quiet_argint|]. intros [fd|] k1 [E1 E2].
  2: { apply rets_ret. split; [by eapply kinv_quiet|done]. }
  apply (kinv_quiet _ k1) in Hk; [|done|done]. clear E1 E2. apply rets_bind, rets_proc_at. intros p Hme.
  destruct (_ || _) eqn:Eb; [by apply rets_ret|]. apply orb_false_elim in Eb as [B1%Z.ltb_ge B2%Z.leb_gt].
  destruct Hk as [Hf Hp]. pose proof (proj1 Hp) as Hp'. unfold refview in Hp'. rewrite Forall_fmap, Forall_lookup in Hp'. destruct (Hp' me p Hme) as (D1 & D2 & D3). cbn in D1, D2.
  destruct (lookup_lt_is_Some_2 (p_ofile p) (Z.to_nat fd)) as [x Hx]; [unfold NOFILE in *; lia|].
  rewrite (list_lookup_total_correct _ _ _ Hx). destruct (Z.eqb_spec x 0) as [Hz|Hz]; apply rets_ret; [done|]. split; [done|].
  rewrite Forall_lookup in D2. destruct (D2 _ _ Hx) as [?|[Hx1 Hx2]]; [done|]. split; [done|]. exists p. split; [done|]. by rewrite ptr_idx.
Qed.

Lemma trip_argfd n e d u : trip (S := S) e d u (argfd me n) (λ r, ∀ fd f, r = Some (fd, f) → (f < NFILE)%nat) (λ _, e) (λ _, d) (λ _, u).
Proof.
  intros k Hk. eapply rets_mono; [by apply rets_argfd|]. intros [[fd f]|] k' [Hk' Hr]; (split; [|done]); [|done]. intros ? ? [= <- <-]. apply Hr.
Qed.

Lemma rets_clear_fd fd f e d u (k : kern (flayer S)) cur : k_procs k !! me = Some cur → p_ofile cur !! Z.to_nat fd = Some (ptr f) → kinv k e d u →
  rets (clear_fd me fd) k (λ _ k', kinv k' (add1 f e) d u).
Proof.
  intros Hme Hfd Hk. apply rets_upd. eapply kinv_ext; [| | |eapply (kinv_set_fd k e d u me cur _ (ptr f) 0 Hme Hfd); [by left|done]]; try done.
  cbn. intros j. unfold add1, ptr. repeat case_decide; lia.
Qed.

(** ** Closing *)

Lemma quiet_wakeup_all p cs : quiet (S := S) (wakeup_all p cs).
Proof. induction cs as [|c cs IH]; cbn [wakeup_all]; qt. Qed.

(** changes to the pipes only *)
Lemma trip_pipes (f : flayer S → flayer S) e d u : (∀ s, fl_fs (f s) = fl_fs s ∧ fl_files (f s) = fl_files s) →
  trip e d u (in_fs (modify f)) (λ _, True) (λ _, e) (λ _, d) (λ _, u).
Proof.
  intros Hf k [[F1 F2 F4 F3] Hp] [] k'. unfold in_fs, zoom. intros [= <-]. split; [done|]. split; [|done]. destruct (Hf (k_fs k)) as [E1 E2].
  split; cbn [k_fs k_procs]; by rewrite ?E1, ?E2.
Qed.
Lemma quiet_pipe_at p : quiet (S := S) (in_fs (pipe_at p)).
Proof.
  intros k. apply rets_fs_bind. intros l k1. unfold in_fs, zoom. intros [= <- <-]. destruct (_ !! p); [|by intros a k']. by apply rets_fs_ret.
Qed.
Hint Resolve quiet_pipe_at quiet_wakeup_all : quiet.

Lemma trip_pipeclose p w e d u : trip (S := S) e d u (pipeclose_k p w) (λ _, True) (λ _, e) (λ _, d) (λ _, u).
Proof.
  unfold pipeclose_k. eapply trip_bind; [apply trip_quiet; qt|]. intros x _. destruct (pipeclose w x) as [[x' ws] freed].
  eapply trip_bind; [by apply trip_pipes|]. intros [] _. eapply trip_bind; [apply trip_quiet; qt|]. intros [] _.
  destruct freed; [|by apply trip_ret]. eapply trip_bind; [apply trip_quiet; qt|]. intros [] _. by apply trip_pipes.
Qed.

Lemma trip_fileclose f e d u : trip (S := S) e d u (fileclose me f) (λ _, True) (λ _, sub1 f e) (λ _, d) (λ _, filter (λ i, i ≠ f) u).
Proof.
  intros k Hk. set (u' := filter (λ i, i ≠ f) u).
  assert (Hu' : ∀ i, i ∈ u' → i ∈ u ∧ i ≠ f) by (intros i; unfold u'; rewrite list_elem_of_filter; naive_solver).
  assert (Hf' : f ∉ u') by (intros Hin; by destruct (Hu' f Hin)).
  pose proof Hk as [[F1 F2 F4 F3] Hp]. unfold fileclose. apply rets_bind, rets_files_at. intros x Hx. destruct (F2 f x Hx) as [Er Et].
  destruct (Z.ltb_spec (fi_ref x) 1) as [Hl|Hl]; [apply rets_panic|].
  assert (Hr : fi_ref x < 2 ^ 31) by (rewrite Er; apply i32_range). rewrite (i32_id (fi_ref x - 1)) by lia.
  assert (He : ∀ i, i ≠ f → sub1 f e i = e i) by (intros i Hi; unfold sub1; by rewrite decide_False).
  assert (Hs : fi_ref x - 1 = i32 (tfiles (k_procs k) f + sub1 f e f)).
  { unfold sub1. rewrite decide_True by done. rewrite <- (i32_id (fi_ref x - 1)), Er by lia.
    replace (tfiles (k_procs k) f + (e f - 1)) with (tfiles (k_procs k) f + e f + -1) by lia. apply (i32_step _ (-1)). }
  destruct (Z.ltb_spec 0 (fi_ref x - 1)) as [Hd|Hd].
  - eapply rets_mono; [apply (rets_fupd f _ e (sub1 f e) d d u u'); try done|].
    + intros y Hy. rewrite Hx in Hy. injection Hy as <-. cbn. split_and!; [done|lia|done|done].
    + intros i _ Hi. by apply Hu'.
    + by intros [] k' [_ Hk'].
  - set (dx := λ i, d i + if decide (open_on i x) then 1 else 0).
    assert (Hrest : trip (S := S) (sub1 f e) dx u'
      (match fi_type x with
       | FD_PIPE => pipeclose_k (fi_pipe x) (fi_writable x)
       | FD_INODE => _ ← fslog me begin_op; _ ← fsys me (λ pid _, iput pid (fi_ip x)); fslog me end_op
       | FD_NONE => mret ()
       end) (λ _, True) (λ _, sub1 f e) (λ _, d) (λ _, u')).
    { unfold dx. destruct (fi_type x) eqn:Ety.
      - apply trip_ret; try done. intros i. rewrite not_open by congruence. lia.
      - eapply trip_pre; [apply trip_pipeclose|done| |done]. intros i. rewrite not_open by congruence. lia.
      - eapply trip_bind; [apply trip_log|]. intros [] _. eapply trip_bind; [apply trip_drop; intros; apply drops_iput|]. intros [] _.
        eapply trip_mono; [apply trip_log|done|done| |done]. intros [] i. unfold sub1. repeat case_decide; unfold open_on in *; subst; try lia; naive_solver. }
    apply rets_bind. eapply rets_mono; [apply (rets_fupd f _ e (sub1 f e) d dx u u'); try done|].
    + intros y Hy. rewrite Hx in Hy. injection Hy as <-. cbn. split_and!; [intros _; by replace 0 with (fi_ref x - 1) by lia|done|done|].
      intros i. rewrite (decide_False (P := open_on i (set_ftype FD_NONE (set_fref 0 x)))) by (by intros [? _]). unfold dx. lia.
    + by rewrite Hx.
    + intros i _ Hi. by apply Hu'.
    + intros [] k' [_ Hk']. by apply Hrest.
Qed.

(** ** Reading, writing, pipes *)

Lemma trip_fupd_same f g e d u : (∀ x, fi_ref (g x) = fi_ref x ∧ fi_type (g x) = fi_type x ∧ fi_ip (g x) = fi_ip x) →
  trip (S := S) e d u (in_fs (fupd f g)) (λ _, True) (λ _, e) (λ _, d) (λ _, u).
Proof.
  intros Hg k Hk. pose proof Hk as [[F1 F2 F4 F3] Hp]. eapply rets_mono; [apply (rets_fupd f g e e d d u u); try done|by intros [] k' [_ Hk']].
  - intros x Hx. destruct (Hg x) as (G1 & G2 & G3), (F2 f x Hx) as [Er Et]. rewrite G1, G2. split_and!; [done|done| |].
    + intros Hu. destruct (F4 f Hu) as (y & Hy & ?). rewrite Hx in Hy. by injection Hy as <-.
    + intros i. unfold open_on. by repeat case_decide; rewrite ?G2, ?G3 in *.
  - intros Hx. split; [|done]. intros Hu. destruct (F4 f Hu) as (y & Hy & _). congruence.
Qed.

(** a file without a type gets one; on an inode, it takes over the reference to it *)
Lemma trip_fupd_type f g (o : option nat) e d u :
  f ∈ u → (∀ x, fi_ref (g x) = fi_ref x) → (∀ x i, open_on i (g x) ↔ o = Some i) →
  trip (S := S) e d u (in_fs (fupd f g)) (λ _, True) (λ _, e) (λ _, match o with Some ip => sub1 ip d | None => d end) (λ _, filter (λ i, i ≠ f) u).
Proof.
  intros Hf Hg Ho k Hk. pose proof Hk as [[F1 F2 F4 F3] Hp]. destruct (F4 f Hf) as (x & Hx & Ht & Hnz).
  eapply rets_mono; [apply (rets_fupd f g e e d (match o with Some ip => sub1 ip d | None => d end) u (filter (λ i, i ≠ f) u)); try done|by intros [] k' [_ Hk']].
  - intros y Hy. rewrite Hx in Hy. injection Hy as <-. rewrite Hg. split_and!; [done|done| |].
    + rewrite list_elem_of_filter. by intros [? _].
    + intros i. rewrite (not_open i x) by congruence. destruct (decide (open_on i (g x))) as [Hd|Hd]; rewrite Ho in Hd.
      * rewrite Hd. unfold sub1. rewrite decide_True by done. lia.
      * destruct o as [ip|]; [|lia]. unfold sub1. rewrite decide_False by congruence. lia.
  - by rewrite Hx.
  - intros i Hi. rewrite list_elem_of_filter. by intros [_ ?].
Qed.
End calls.

#[export] Hint Resolve quiet_pipe_at quiet_wakeup_all : quiet.
