(* ===== verification/SysfileSpec.v ===== *)
(** * The system calls on files keep the counts of references

    Every call of sysfile.c and [exit], on every path on which it returns: no reference to
    an open file or to an inode is lost or taken twice. *)

From S2P Require Import Prelude Mmu CString Kalloc Vm VmSpec VmCopy Proc Trap ProcMem ProcFork ProcState.
From S2P Require Import Syscall Pipe Block Fs FsRefs File Exec Sysfile FileSpec.

Abbreviation zero := (λ _ : nat, 0 : Z).

(** one step by what is known of the call *)
Ltac tprim := first
  [ apply trip_quiet; solve [qt]
  | apply trip_log
  | apply trip_keep; intros; solve [eauto 2 with refs]
  | apply trip_drop; intros; solve [eauto 2 with refs]
  | eapply trip_take; intros; solve [eauto 2 with refs]
  | apply trip_filealloc
  | apply trip_filedup
  | apply trip_fileclose
  | apply trip_argfd
  | apply trip_pipeclose
  | apply trip_sleep
  | apply trip_fupd_same; done
  | apply trip_pipes; done
  | apply trip_fdalloc; naive_solver
  | solve [eauto 2 with trips] ].

Ltac tcnt := intros; unfold id, add1, sub1; cbn [fmap option_fmap option_map fst];
  repeat match goal with |- context [match ?r with Some _ => _ | None => _ end] => destruct r end; repeat case_decide; subst; try done; try lia.
Ltac tend := solve [done | tcnt | intros; set_solver].

(** a call, step by step *)
Ltac tgo := repeat (cbn beta iota; match goal with
  | |- trip _ _ _ (mret _) _ _ _ _ => apply trip_ret; [try done|try tend..]
  | |- trip _ _ _ (panic _) _ _ _ _ => apply trip_panic
  | |- trip _ _ _ (λ _, NoFuel) _ _ _ _ => apply trip_stop
  | |- trip _ _ _ (sleep _ _) _ _ _ _ => apply trip_sleep
  | |- trip _ _ _ (match ?x with _ => _ end) _ _ _ _ => destruct x
  | |- trip _ _ _ (mbind _ (match ?x with _ => _ end)) _ _ _ _ => destruct x
  | |- trip _ _ _ (mbind _ (mbind _ _)) _ _ _ _ => apply trip_assoc
  | |- trip _ _ _ (mbind _ _) _ _ _ _ => eapply trip_bind; [tprim|intros ? ?]
  | |- trip _ _ _ _ _ _ _ _ => eapply trip_mono; [tprim|try done|try tend..]
  end).

Create HintDb trips.

Section handlers.
  Context `{KernelImage} `{ProcImage} {S : Type} {BO : BufOps S} {LO : LogOps S}.
  Context (devsw_read : Z → option (nat → Z → M (fs S) (Z * list Z))).
  Context (devsw_write : Z → option (nat → list Z → M (fs S) Z)).
  Context (Hread : ∀ major f ip n, devsw_read major = Some f → keeps (f ip n)).
  Context (Hwrite : ∀ major f ip src, devsw_write major = Some f → keeps (f ip src)).
  Context (me : nat).

(** a call that leaves the references as they were *)
Abbreviation even m := (trip (S := S) zero zero [] m (λ _, True) (λ _, zero) (λ _, zero) (λ _, [])).

Lemma trip_filestat f e d u : trip (S := S) e d u (filestat me f) (λ _, True) (λ _, e) (λ _, d) (λ _, u).
Proof. unfold filestat. tgo. Qed.

Lemma trip_fileread f n e d u : trip e d u (fileread devsw_read me f n) (λ _, True) (λ _, e) (λ _, d) (λ _, u).
Proof. unfold fileread, piperead_k. tgo. Qed.

Lemma trip_filewrite f bs e d u : trip e d u (filewrite devsw_write me f bs) (λ _, True) (λ _, e) (λ _, d) (λ _, u).
Proof.
  assert (Hl : ∀ n ip bs i m, trip e d u (filewrite_loop devsw_write me n f ip bs i m) (λ _, True) (λ _, e) (λ _, d) (λ _, u)).
  { induction n as [|n IH]; intros ip bs' i m; cbn [filewrite_loop]; tgo. }
  unfold filewrite, pipewrite_k. tgo.
Qed.
Hint Resolve trip_filestat trip_fileread trip_filewrite : trips.

(** two files, with a pipe between them *)
Lemma trip_pipealloc : trip (S := S) zero zero [] (pipealloc me)
  (λ r, ∀ f0 f1, r = Some (f0, f1) → (f0 < NFILE)%nat ∧ (f1 < NFILE)%nat)
  (λ r, match r with Some (f0, f1) => add1 f1 (add1 f0 zero) | None => zero end) (λ _, zero) (λ _, []).
Proof.
  unfold pipealloc. eapply trip_bind; [tprim|]. intros [f0|] Hf0; [|by apply trip_ret].
  eapply trip_bind; [tprim|]. intros [f1|] Hf1; [|by tgo]. eapply trip_bind; [tprim|]. intros p _.
  destruct (p =? 0); [by tgo|]. eapply trip_bind; [tprim|]. intros junk _. eapply trip_bind; [tprim|]. intros [] _.
  eapply trip_bind; [eapply (trip_fupd_type f0 _ None); [set_solver|done|by intros x i; split; [intros [? _]|]]|]. intros [] _.
  eapply trip_bind; [eapply (trip_fupd_type f1 _ None); [|done|by intros x i; split; [intros [? _]|]]|].
  { apply list_elem_of_filter. split; [|by left]. intros ->. destruct (Hf1 f0 eq_refl) as [_ Hn]. apply Hn. by left. }
  intros [] _. apply trip_ret; try done; [|by intros i ?%elem_of_nil]. intros ? ? [= <- <-]. split; [by apply Hf0|by apply Hf1].
Qed.

(** ** The handlers *)

Lemma even_dup : even (sys_dup me).
Proof. unfold sys_dup. tgo. Qed.
Lemma trip_rw_args e d u : trip (S := S) e d u (rw_args me) (λ _, True) (λ _, e) (λ _, d) (λ _, u).
Proof. unfold rw_args. tgo. Qed.
Hint Resolve trip_rw_args : trips.
Lemma even_read : even (sys_read devsw_read me).
Proof. unfold sys_read. tgo. Qed.
Lemma even_write : even (sys_write devsw_write me).
Proof. unfold sys_write. tgo. Qed.
Lemma even_fstat : even (sys_fstat me).
Proof. unfold sys_fstat, store_stat. tgo. Qed.

(** the descriptor's reference is the one that is closed *)
Lemma even_close : even (sys_close me).
Proof.
  intros k Hk. unfold sys_close. apply rets_bind. eapply rets_mono; [by apply rets_argfd|]. intros [[fd f]|] k1 [Hk1 Hr]; [|by apply rets_ret].
  destruct Hr as (_ & cur & Hme & Hfd). apply rets_bind. eapply rets_mono; [by eapply rets_clear_fd|]. intros [] k2. revert k2.
  change (trip (S := S) (add1 f zero) zero [] (_ ← fileclose me f; mret 0) (λ _, True) (λ _, zero) (λ _, zero) (λ _, [])). tgo.
Qed.

Lemma even_pipe : even (sys_pipe me).
Proof.
  unfold sys_pipe. eapply trip_bind; [tprim|]. intros [fd|] _; [|by apply trip_ret].
  eapply trip_bind; [apply trip_pipealloc|]. intros [[rf wf]|] Hf; [|by apply trip_ret]. destruct (Hf rf wf eq_refl) as [Hr Hw]. clear Hf.
  intros k Hk. apply rets_bind. eapply rets_mono; [by apply (rets_fdalloc _ rf)|]. intros [fd0|] k1.
  2: { intros ->. revert k Hk. cbn beta iota.
       change (trip (S := S) (add1 wf (add1 rf zero)) zero [] (_ ← fileclose me rf; _ ← fileclose me wf; mret (-1)) (λ _, True) (λ _, zero) (λ _, zero) (λ _, [])). tgo. }
  intros (Hk1 & cur & Hme & Hfd). apply rets_bind. eapply rets_mono; [by apply (rets_fdalloc _ wf)|]. intros [fd1|] k2.
  - intros [Hk2 _]. revert k2 Hk2. cbn beta iota. set (e := sub1 wf _). assert (He : ∀ i, e i = 0) by (unfold e; cnt). clearbody e.
    change (trip (S := S) e zero [] (_ ← ustore me (u32 fd) (le32 fd0); _ ← ustore me (u32 (fd + 4)) (le32 fd1); mret 0) (λ _, True) (λ _, zero) (λ _, zero) (λ _, [])). tgo.
  - intros ->. cbn beta iota. apply rets_bind. eapply rets_mono; [by eapply rets_clear_fd|]. intros [] k3. revert k3. cbn beta.
    change (trip (S := S) (add1 rf (sub1 rf (add1 wf (add1 rf zero)))) zero [] (_ ← fileclose me rf; _ ← fileclose me wf; mret (-1)) (λ _, True) (λ _, zero) (λ _, zero) (λ _, [])). tgo.
Qed.

(** *** Links *)

Lemma trip_link_bad ip e d u : trip (S := S) e d u (link_bad me ip) (λ _, True) (λ _, e) (λ _, sub1 ip d) (λ _, u).
Proof. unfold link_bad. tgo. Qed.
Lemma trip_unlink_bad dp e d u : trip (S := S) e d u (unlink_bad me dp) (λ _, True) (λ _, e) (λ _, sub1 dp d) (λ _, u).
Proof. unfold unlink_bad. tgo. Qed.
Hint Resolve trip_link_bad trip_unlink_bad : trips.

Lemma trip_isdirempty dp e d u : trip e d u (isdirempty devsw_read me dp) (λ _, True) (λ _, e) (λ _, d) (λ _, u).
Proof.
  unfold isdirempty. eapply trip_bind; [tprim|]. intros i _. generalize (dir_fuel (i_size i)), (2 * DIRENT_SIZE). intros n.
  induction n as [|n IH]; intros off; cbn [isdirempty_loop]; tgo.
Qed.
Hint Resolve trip_isdirempty : trips.

Lemma even_link : even (sys_link devsw_read devsw_write me).
Proof. unfold sys_link. tgo. Qed.
Lemma even_unlink : even (sys_unlink devsw_read devsw_write me).
Proof. unfold sys_unlink. tgo. Qed.

(** *** Creating and opening *)

(** the inode comes with a reference *)
Lemma trip_create path type major minor e d u : trip e d u (create devsw_read devsw_write me path type major minor) (λ _, True) (λ _, e)
  (λ r, match r with Some ip => add1 ip d | None => d end) (λ _, u).
Proof. unfold create. tgo. Qed.
Lemma trip_open_inode path omode e d u : trip e d u (open_inode devsw_read devsw_write me path omode) (λ _, True) (λ _, e)
  (λ r, match r with Some ip => add1 ip d | None => d end) (λ _, u).
Proof. unfold open_inode. destruct (negb _); [apply trip_create|]. tgo. Qed.
Lemma trip_created r e d u : trip (S := S) e d u (created me r) (λ _, True) (λ _, e) (λ _, match r with Some ip => sub1 ip d | None => d end) (λ _, u).
Proof. unfold created. destruct r as [ip|]; tgo. Qed.
Hint Resolve trip_create trip_open_inode trip_created : trips.

Lemma even_mkdir : even (sys_mkdir devsw_read devsw_write me).
Proof. unfold sys_mkdir. tgo. Qed.
Lemma even_mknod : even (sys_mknod devsw_read devsw_write me).
Proof. unfold sys_mknod. tgo. Qed.

Lemma even_open : even (sys_open devsw_read devsw_write me).
Proof.
  unfold sys_open. eapply trip_bind; [tprim|]. intros [path|] _; [|by apply trip_ret].
  eapply trip_bind; [tprim|]. intros [omode|] _; [|by apply trip_ret]. eapply trip_bind; [tprim|]. intros [] _.
  eapply trip_bind; [tprim|]. intros [ip|] _; [|by tgo]. eapply trip_bind; [tprim|]. intros [f|] Hf; [|by tgo].
  eapply trip_bind; [tprim|]. intros [fd|] _; [|by tgo]. do 2 (eapply trip_bind; [tprim|intros [] _]).
  eapply trip_bind; [apply (trip_fupd_type f _ (Some ip)); [by left|done|]|intros [] _; by tgo].
  intros x i. unfold open_on. cbn. naive_solver.
Qed.

(** *** exec *)

Lemma trip_readi_ip ip off n e d u : trip e d u (readi_ip devsw_read me ip off n) (λ _, True) (λ _, e) (λ _, d) (λ _, u).
Proof. unfold readi_ip. tprim. Qed.
Hint Resolve trip_readi_ip : trips.
Lemma trip_load_segment pgdir addr ip off sz e d u : trip e d u (load_segment devsw_read me pgdir addr ip off sz) (λ _, True) (λ _, e) (λ _, d) (λ _, u).
Proof.
  unfold load_segment. destruct (negb _); [apply trip_panic|]. generalize (Datatypes.S (Z.to_nat ((sz + PGSIZE - 1) / PGSIZE))), 0. intros n.
  induction n as [|n IH]; intros i; cbn [load_pages]; tgo.
Qed.
Hint Resolve trip_load_segment : trips.
Lemma trip_load_program n ip pgdir sz off e d u : trip e d u (load_program devsw_read me n ip pgdir sz off) (λ _, True) (λ _, e) (λ _, d) (λ _, u).
Proof. revert sz off. induction n as [|n IH]; intros sz off; cbn [load_program]; tgo. Qed.
Lemma quiet_push_args argv argc pgdir sp stack : quiet (S := S) (push_args me argv argc pgdir sp stack).
Proof. revert argc sp stack. induction argv as [|a argv IH]; intros; cbn [push_args]; qt. Qed.
Hint Resolve quiet_push_args : quiet.
Lemma trip_exec_bad pgdir ip e d u : trip (S := S) e d u (exec_bad me pgdir ip) (λ _, True) (λ _, e) (λ _, match ip with Some ip => sub1 ip d | None => d end) (λ _, u).
Proof. unfold exec_bad. destruct ip as [ip|]; tgo. Qed.
Hint Resolve trip_load_program trip_exec_bad : trips.
Lemma trip_exec_stack elf path argv pgdir sz e d u : trip (S := S) e d u (exec_stack me elf path argv pgdir sz) (λ _, True) (λ _, e) (λ _, d) (λ _, u).
Proof. unfold exec_stack. tgo. Qed.
Hint Resolve trip_exec_stack : trips.
Lemma quiet_exec_args n uargv i : quiet (S := S) (exec_args me n uargv i).
Proof. revert i. induction n as [|n IH]; intros i; cbn [exec_args]; qt. Qed.
Hint Resolve quiet_exec_args : quiet.
Lemma trip_exec path argv e d u : trip e d u (exec devsw_read me path argv) (λ _, True) (λ _, e) (λ _, d) (λ _, u).
Proof. unfold exec. tgo. Qed.
Hint Resolve trip_exec : trips.
Lemma even_exec : even (sys_exec devsw_read me).
Proof. unfold sys_exec. tgo. Qed.

(** *** chdir *)

(** the process has a current directory, and the call leaves it *)
Definition at_dir (k : kern (flayer S)) : Prop := ∃ x, refview (k_procs k) !! me = Some x ∧ 1 ≤ x.2.
Definition steady {A} (m : M (kern (flayer S)) A) : Prop := ∀ k, rets m k (λ _ k', refview (k_procs k') = refview (k_procs k)).

Lemma steady_fsys {A} (m : Z → nat → M (fs S) A) : steady (fsys me m).
Proof. intros k. apply rets_bind, rets_proc_at. intros p _. by apply rets_in_fs. Qed.
Lemma steady_quiet {A} (m : M (kern (flayer S)) A) : quiet m → steady m.
Proof. intros Hm k. eapply rets_mono; [by apply Hm|]. by intros a k' [_ ?]. Qed.
Lemma rets_steady {A} e d (m : M (kern (flayer S)) A) P e' d' u' k : trip e d [] m P e' d' u' → steady m → kinv k e d [] → at_dir k →
  rets m k (λ a k', kinv k' (e' a) (d' a) [] ∧ at_dir k').
Proof.
  intros Hm Hs Hk (x & Hx & Hc) a k' E. destruct (Hm k Hk a k' E) as [_ Hk']. split.
  - eapply kinv_ext; [| | |exact Hk']; try done. by intros i ?%elem_of_nil.
  - exists x. by rewrite (Hs k a k' E).
Qed.

Lemma kinv_set_cwd (k : kern (flayer S)) e d u i p c : k_procs k !! i = Some p → 0 ≤ c → kinv k e d u →
  kinv (with_procs (alter (set_cwd c) i) k) e (λ j, d j + (if decide (p_cwd p = ptr j) then 1 else 0) - (if decide (c = ptr j) then 1 else 0)) u.
Proof.
  intros Hi Hc [Hf Hp]. split; cbn [with_procs k_fs k_procs].
  - eapply fl_ok_ext; [..|exact Hf]; [| |done]; intros j; cbn.
    + by rewrite (tfiles_same _ _ _ (set_cwd c) Hi).
    + rewrite (tinodes_set _ _ _ (set_cwd c) Hi). cbn. lia.
  - destruct Hp as [Hp Hl]. split; [|by rewrite length_alter]. unfold refview in *. rewrite Forall_fmap in *. apply Forall_alter; [done|]. intros x Hx _. rewrite Hi in Hx. injection Hx as <-.
    rewrite Forall_lookup in Hp. by destruct (Hp i p Hi) as (D1 & D2 & D3).
Qed.

Tactic Notation "dstep" simple_intropattern(a) simple_intropattern(h) :=
  apply rets_bind; eapply rets_mono; [eapply rets_steady; [tprim|first [apply steady_fsys|apply steady_quiet; solve [qt]]|eassumption|eassumption]|];
  match goal with H1 : kinv _ _ _ _, H2 : at_dir _ |- _ => clear H1 H2 end; cbn beta; intros a ? h.

Lemma chdir_even k : kinv k zero zero [] → at_dir k → rets (sys_chdir devsw_read me) k (λ _ k', kinv k' zero zero [] ∧ at_dir k').
Proof.
  intros Hk Hd. unfold sys_chdir. dstep [] [Hk Hd]. dstep [path|] [Hk Hd]; [|by dstep [] [Hk Hd]; apply rets_ret].
  dstep [ip|] [Hk Hd]; [|by dstep [] [Hk Hd]; apply rets_ret]. dstep [] [Hk Hd]. dstep i [Hk Hd]. destruct (negb _).
  - do 2 dstep [] [Hk Hd]. apply rets_ret. split; [|done]. eapply kinv_ext; [| | |exact Hk]; [tend..].
  - dstep [] [Hk Hd]. apply rets_bind, rets_proc_at. intros p Hp. destruct Hd as (x & Hx & Hc).
    unfold refview in Hx. rewrite list_lookup_fmap, Hp in Hx. injection Hx as <-. cbn in Hc.
    apply rets_bind. eapply rets_mono; [apply (rets_fsys _ _ (λ _ i, if decide (i = idx (p_cwd p)) then -1 else 0)); [|exact Hk]|].
    { intros pid cwd c t Ht. eapply rets_mono; [by apply drops_iput|]. intros [] t'. apply iref_ext. tcnt. }
    clear Hk. intros [] k1 [E1 Hk]. apply rets_bind. eapply rets_mono; [apply (rets_fsys _ _ (λ _ _, 0)); [|exact Hk]|].
    { intros pid cwd c t Ht. eapply rets_mono; [by apply keeps_sub|]. intros [] t'. apply iref_ext. tcnt. }
    clear Hk. intros [] k2 [E2 Hk]. rewrite E1 in E2. rewrite <- E2 in Hp. apply rets_bind, rets_upd, rets_ret. split.
    + assert (Hip : 0 ≤ ptr ip) by (unfold ptr; lia). pose proof (kinv_set_cwd _ _ _ _ me p (ptr ip) Hp Hip Hk) as Hk'.
      eapply kinv_ext; [| | |exact Hk']; [done| |done].
      intros j. unfold id, add1, ptr, idx. cbn. repeat case_decide; lia.
    + exists (p_ofile p, ptr ip). unfold refview. cbn. rewrite list_lookup_fmap, list_lookup_alter_eq, Hp. split; [done|]. cbn. unfold ptr. lia.
Qed.
End handlers.
