(* ===== verification/KernelRefs.v ===== *)
(** * Processes over the real file layer

    proc.c is proved against the interface [FileOps]; here file.c, fs.c and log.c implement
    it, and its laws hold.  The steps of the kernel are then the calls of proc.c and those
    of sysfile.c, and in every state that they reach the counts of references are exact. *)

From S2P Require Import Prelude Bio Log LogLaws.
From S2P Require Import Mmu CString Kalloc Vm VmSpec VmCopy Proc Trap ProcMem ProcFork ProcState ProcTree.
From S2P Require Import Syscall Pipe Block Fs FsRefs File Exec Sysfile FileSpec SysfileSpec.

Section ops.
  Context `{KernelImage} `{ProcImage} {S : Type} {BO : BufOps S} {LO : LogOps S}.
  Context (devsw_read : Z → option (nat → Z → M (fs S) (Z * list Z))).

Definition in_layer {A} (m : M (fs S) A) : M (flayer S) A := zoom fl_fs (λ x s, Build_flayer x (fl_files s) (fl_pipes s)) m.

(** pointers are indices plus one; [namei] is called by the kernel itself, for the first
    process, with an absolute path *)
#[export] Instance layer_ops : FileOps (flayer S) := {|
  Proc.filedup x := _ ← File.filedup (idx x); mret x;
  Proc.fileclose me x := File.fileclose me (idx x);
  Proc.idup x := _ ← in_layer (Fs.idup (idx x)); mret x;
  Proc.iput pid x := in_layer (Fs.iput pid (idx x));
  Proc.begin_op := in_layer (sub File.begin_op);
  Proc.end_op := in_layer (sub File.end_op);
  Proc.namei path := r ← in_layer (Fs.namei 0 0 devsw_read path); mret (match (r : option nat) with Some ip => ptr ip | None => 0 end) |}.

(** ** The laws of the interface *)

Definition refs_in (l : list Z) : counts := λ i, times (ptr i) l.

Definition layer_inv (f : flayer S) (fr ir : list Z) : Prop :=
  fl_ok f (refs_in fr) (refs_in ir) [] ∧ Forall (λ x, 1 ≤ x ∧ (idx x < NFILE)%nat) fr ∧ Forall (λ x, 1 ≤ x) ir.

Lemma refs_in_cons x l i : 1 ≤ x → refs_in (x :: l) i = add1 (idx x) (refs_in l) i.
Proof.
  intros Hx. unfold refs_in, add1. rewrite times_cons. unfold ptr, idx. repeat case_decide; lia.
Qed.

Lemma layer_filedup f fr ir x : layer_inv f fr ir → x ∈ fr → Z.of_nat (length fr) < 2 ^ 30 →
  ∃ f', Proc.filedup x f = Ret x f' ∧ layer_inv f' (x :: fr) ir.
Proof.
  intros ([F1 F2 F4 F3] & Hr & Hi) Hx Hb. pose proof Hr as Hr'. rewrite Forall_forall in Hr'. destruct (Hr' x Hx) as [Hx1 Hx2].
  destruct (lookup_lt_is_Some_2 (fl_files f) (idx x)) as [y Hy]; [lia|]. destruct (F2 _ _ Hy) as [Er Et].
  pose proof (times_in x fr Hx) as T1. pose proof (times_nonneg x fr) as T2.
  assert (Eq : refs_in fr (idx x) = times x fr) by (unfold refs_in; by rewrite ptr_idx).
  rewrite Eq, i32_id in Er by lia. set (g := set_fref (i32 (fi_ref y + 1))).
  exists (Build_flayer (fl_fs f) (alter g (idx x) (fl_files f)) (fl_pipes f)). split.
  - unfold Proc.filedup, layer_ops, File.filedup, files_at. mrun. rewrite Hy. mrun. rewrite (proj2 (Z.ltb_ge _ _)) by lia. by mrun.
  - split_and!; [|by constructor|done]. split; cbn [fl_files fl_fs].
    + by rewrite length_alter.
    + intros i z. rewrite list_lookup_alter. case_decide as Hd; [subst i; rewrite Hy; intros [= <-]|intros Hz].
      * cbn. rewrite refs_in_cons by done. unfold add1. rewrite decide_True by done. rewrite Eq, Er. split; [done|].
        rewrite i32_id by lia. lia.
      * rewrite refs_in_cons by done. unfold add1. rewrite decide_False by done. by apply F2.
    + by intros i ?%elem_of_nil.
    + eapply iref_ext; [|exact F3]. intros i. cbn. rewrite (opens_alter _ _ _ _ _ Hy).
      assert (open_on i (g y) ↔ open_on i y) as Ho by done. repeat case_decide; try lia; tauto.
Qed.

Lemma layer_idup f fr ir x : layer_inv f fr ir → x ∈ ir → Z.of_nat (length ir) < 2 ^ 30 →
  ∃ f', Proc.idup x f = Ret x f' ∧ layer_inv f' fr (x :: ir).
Proof.
  intros ([F1 F2 F4 F3] & Hr & Hi) Hx _. pose proof Hi as Hi'. rewrite Forall_forall in Hi'. pose proof (Hi' x Hx) as Hx1.
  pose proof (takes_idup (idx x) _ _ F3) as Hd. eexists. split; [reflexivity|]. specialize (Hd _ _ eq_refl).
  split_and!; [|done|by constructor]. split; [done|done|done|]. eapply iref_ext; [|exact Hd]. intros i. cbn.
  rewrite refs_in_cons by done. unfold add1. case_decide; lia.
Qed.

#[export, program] Instance layer_refs : FileRefs (flayer S) := {| fs_inv := layer_inv |}.
Next Obligation.
  intros f fr fr' ir ir' (Hf & Hr & Hi) Pf Pi. split_and!; [|by rewrite <- Pf|by rewrite <- Pi].
  eapply fl_ok_ext; [..|exact Hf]; [| |done]; intros i; by apply times_perm.
Qed.
Next Obligation. exact layer_filedup. Qed.
Next Obligation. exact layer_idup. Qed.

(** closing a file wakes readers and writers of a pipe *)
Lemma woken_refl l : Proc.woken l l.
Proof. intros j. by left. Qed.
Lemma woken_trans l1 l2 l3 : Proc.woken l1 l2 → Proc.woken l2 l3 → Proc.woken l1 l3.
Proof.
  intros H12 H23 j. destruct (H23 j) as [->|(p & Hp & Hs & ->)]; [apply H12|]. right.
  destruct (H12 j) as [E|(q & Hq & Hqs & E)]; rewrite E in Hp; [eauto|]. injection Hp as <-. done.
Qed.
Lemma woken_wake c l : Proc.woken l (imap (λ _, wake c) l).
Proof.
  intros j. rewrite list_lookup_imap. destruct (l !! j) as [p|]; [|by left]. cbn. unfold wake. case_decide as Hd; [|by left].
  right. exists p. split_and!; [done|apply Hd|done].
Qed.

Definition calmly {A} (m : M (kern (flayer S)) A) : Prop :=
  ∀ k, rets m k (λ _ k', k_initproc k' = k_initproc k ∧ Proc.woken (k_procs k) (k_procs k')).

Lemma calmly_bind {A B} (m : M (kern (flayer S)) A) (n : A → M (kern (flayer S)) B) : calmly m → (∀ a, calmly (n a)) → calmly (m ≫= n).
Proof.
  intros Hm Hn k. apply rets_bind. eapply rets_mono; [by apply Hm|]. intros a k1 [E1 W1].
  eapply rets_mono; [by apply Hn|]. cbn beta. intros b k2 [E2 W2]. split; [congruence|]. by eapply woken_trans.
Qed.
Lemma calmly_ret {A} (a : A) : calmly (mret a).
Proof. intros k. apply rets_ret. split; [done|apply woken_refl]. Qed.
Lemma calmly_panic {A} msg : calmly (panic msg : M (kern (flayer S)) A).
Proof. intros k. apply rets_panic. Qed.
Lemma calmly_fs {A} (m : M (flayer S) A) : calmly (in_fs m).
Proof. intros k. apply rets_in_fs. intros a f. split; [done|apply woken_refl]. Qed.
Lemma calmly_phys {A} (m : M phys A) : calmly (in_phys m).
Proof. intros k. apply rets_in_phys. intros a f. split; [done|apply woken_refl]. Qed.
Lemma calmly_fsys {A} me (m : Z → nat → M (fs S) A) : calmly (fsys me m).
Proof.
  intros k. apply rets_bind, rets_proc_at. intros p _. apply rets_in_fs. intros a f. split; [done|apply woken_refl].
Qed.
Lemma calmly_wakeups p cs : calmly (wakeup_all p cs).
Proof.
  induction cs as [|c cs IH]; cbn [wakeup_all]; [apply calmly_ret|]. apply calmly_bind; [|done]. intros k. apply rets_modify. split; [done|apply woken_wake].
Qed.

#[export] Instance layer_calm : FileCalm (flayer S).
Proof.
  intros me x. change (calmly (File.fileclose me (idx x))). unfold File.fileclose, pipeclose_k.
  repeat first [apply calmly_ret | apply calmly_panic | apply calmly_fs | apply calmly_phys | apply calmly_fsys | apply calmly_wakeups
    | apply calmly_bind; [|intros ?] | match goal with |- calmly (match ?x with _ => _ end) => destruct x end].
Qed.
End ops.

(** ** What a call of the running process does to the table *)

(** the tree and the channels stay, processes may be woken, descriptors and directories of
    the others stay, and with [b] the directory of the caller too *)
Definition moved (b : bool) (me : nat) (l l' : list proc) : Prop :=
  ∀ j, match l !! j, l' !! j with
       | None, None => True
       | Some p, Some p' => p_parent p' = p_parent p ∧ p_chan p' = p_chan p ∧
           (p_state p' = p_state p ∨ p_state p = SLEEPING ∧ p_state p' = RUNNABLE) ∧
           (b = true ∨ j ≠ me → p_cwd p' = p_cwd p) ∧ (j ≠ me → p_ofile p' = p_ofile p)
       | _, _ => False
       end.

Lemma moved_refl b me l : moved b me l l.
Proof. intros j. destruct (l !! j); auto. Qed.
Lemma moved_trans b me l1 l2 l3 : moved b me l1 l2 → moved b me l2 l3 → moved b me l1 l3.
Proof.
  intros H12 H23 j. specialize (H12 j). specialize (H23 j). destruct (l1 !! j), (l2 !! j), (l3 !! j); try done.
  destruct H12 as (P1 & C1 & S1 & D1 & O1), H23 as (P2 & C2 & S2 & D2 & O2). rewrite P2, C2. split_and!; [done|done| | |].
  - destruct S1 as [S1|[S1 S1']], S2 as [S2|[S2 S2']]; rewrite ?S1, ?S2 in *; auto; right; split; congruence.
  - intros Hb. rewrite D2, D1 by done. done.
  - intros Hb. rewrite O2, O1 by done. done.
Qed.
Lemma moved_calm b me l l' : moved b me l l' → calm l l'.
Proof. intros Hm j. specialize (Hm j). destruct (l !! j), (l' !! j); try done. tauto. Qed.

Section local.
  Context `{KernelImage} `{ProcImage} {S : Type} (b : bool) (me : nat).

Definition local {A} (m : M (kern (flayer S)) A) : Prop :=
  ∀ k, rets m k (λ _ k', k_initproc k' = k_initproc k ∧ moved b me (k_procs k) (k_procs k')).

Lemma local_bind {A B} (m : M (kern (flayer S)) A) (n : A → M (kern (flayer S)) B) : local m → (∀ a, local (n a)) → local (m ≫= n).
Proof.
  intros Hm Hn k. apply rets_bind. eapply rets_mono; [by apply Hm|]. intros a k1 [E1 W1].
  eapply rets_mono; [by apply Hn|]. cbn beta. intros c k2 [E2 W2]. split; [congruence|]. by eapply moved_trans.
Qed.
Lemma local_ret {A} (a : A) : local (mret a).
Proof. intros k. apply rets_ret. split; [done|apply moved_refl]. Qed.
Lemma local_panic {A} msg : local (panic msg : M (kern (flayer S)) A).
Proof. intros k. apply rets_panic. Qed.
Lemma local_stop {A} : local ((λ _, NoFuel) : M (kern (flayer S)) A).
Proof. by intros k a k'. Qed.
Lemma local_sleep {A} i c : local (sleep i c : M (kern (flayer S)) A).
Proof. by intros k a k'. Qed.
Lemma local_fs {A} (m : M (flayer S) A) : local (in_fs m).
Proof. intros k. apply rets_in_fs. intros a f. split; [done|apply moved_refl]. Qed.
Lemma local_phys {A} (m : M phys A) : local (in_phys m).
Proof. intros k. apply rets_in_phys. intros a f. split; [done|apply moved_refl]. Qed.
Lemma local_proc_at i : local (proc_at i).
Proof. intros k. apply rets_proc_at. intros p _. split; [done|apply moved_refl]. Qed.
Lemma local_fsys {A} (m : Z → nat → M (fs S) A) : local (fsys me m).
Proof. apply local_bind; [apply local_proc_at|]. intros p. apply local_fs. Qed.
Lemma local_wakeup c : local (wakeup c).
Proof.
  intros k. apply rets_modify. split; [done|]. intros j. cbn. rewrite list_lookup_imap. destruct (k_procs k !! j) as [p|]; [|done].
  cbn. unfold wake. case_decide as Hd; [|auto]. cbn. destruct Hd. auto 10.
Qed.
Lemma local_upd f : (∀ p, p_parent (f p) = p_parent p ∧ p_chan (f p) = p_chan p ∧ p_state (f p) = p_state p ∧ (b = true → p_cwd (f p) = p_cwd p)) →
  local (upd me f).
Proof.
  intros Hf k. apply rets_upd. split; [done|]. intros j. cbn. rewrite list_lookup_alter. case_decide as Hd.
  - subst j. destruct (k_procs k !! me) as [p|]; [|done]. cbn. destruct (Hf p) as (? & ? & ? & ?). split_and!; auto; [|done]. by intros [?|?]; auto.
  - destruct (k_procs k !! j); auto 10.
Qed.
End local.

Create HintDb local.
#[export] Hint Resolve local_ret local_panic local_stop local_sleep local_fs local_phys local_proc_at local_fsys local_wakeup : local.
#[export] Hint Extern 1 (local _ _ (upd _ _)) => apply local_upd; done : local.
#[export] Hint Extern 1 (local _ _ (λ _, NoFuel)) => apply local_stop : local.

Ltac loc := repeat first
  [ solve [eauto 2 with local]
  | match goal with
    | |- local _ _ (mbind _ _) => apply local_bind; [|intros ?]
    | |- local _ _ (match ?x with _ => _ end) => destruct x
    end].

Section calls.
  Context `{KernelImage} `{ProcImage} {S : Type} {BO : BufOps S} {LO : LogOps S} (b : bool) (me : nat).
  Context (devsw_read : Z → option (nat → Z → M (fs S) (Z * list Z))).
  Context (devsw_write : Z → option (nat → list Z → M (fs S) Z)).

Abbreviation local m := (local (S := S) b me m).

Lemma local_switchuvm i : local (switchuvm i).
Proof. unfold switchuvm. loc. Qed.
Hint Resolve local_switchuvm : local.
Lemma local_pgfault m va : local (pgfault m va).
Proof. unfold pgfault. loc. Qed.
Hint Resolve local_pgfault : local.
Lemma local_uload8 va : local (uload8 me va).
Proof. unfold uload8, uload8_now, stuck. loc. Qed.
Hint Resolve local_uload8 : local.
Lemma local_uload n va : local (uload me n va).
Proof. revert va. induction n as [|n IH]; intros va; cbn [uload]; loc. Qed.
Lemma local_ustring n va : local (ustring me n va).
Proof. revert va. induction n as [|n IH]; intros va; cbn [ustring]; loc. Qed.
Lemma local_ustore va bs : local (ustore me va bs).
Proof. revert va. induction bs as [|x bs IH]; intros va; cbn [ustore]; unfold ustore8, ustore8_now, stuck; loc. Qed.
Lemma local_fetchint a : local (fetchint me a).
Proof. unfold fetchint, uload32. loc. Qed.
Hint Resolve local_fetchint local_uload local_ustring local_ustore : local.
Lemma local_argint n : local (argint me n).
Proof. unfold argint. loc. Qed.
Hint Resolve local_argint : local.
Lemma local_argptr n sz : local (argptr me n sz).
Proof. unfold argptr. loc. Qed.
Lemma local_fetchstr a : local (fetchstr me a).
Proof.
  assert (Hl : ∀ n s ep pp, local (fetchstr_loop n me s ep pp)) by (induction n as [|n IH]; intros; cbn [fetchstr_loop]; loc).
  unfold fetchstr. loc.
Qed.
Hint Resolve local_argptr local_fetchstr : local.
Lemma local_argpath n : local (argpath me n).
Proof. unfold argpath, argstr. loc. Qed.
Lemma local_argfd n : local (argfd me n).
Proof. unfold argfd. loc. Qed.
Lemma local_fdalloc f : local (fdalloc me f).
Proof. unfold fdalloc. loc. Qed.
Lemma local_wakeups p cs : local (wakeup_all p cs).
Proof. induction cs as [|c cs IH]; cbn [wakeup_all]; loc. Qed.
Hint Resolve local_argpath local_argfd local_fdalloc local_wakeups : local.
Lemma local_fileclose f : local (File.fileclose me f).
Proof. unfold File.fileclose, fslog, pipeclose_k. loc. Qed.
Hint Resolve local_fileclose : local.
Lemma local_fslog m : local (fslog me m).
Proof. unfold fslog. loc. Qed.
Hint Resolve local_fslog : local.
Lemma local_fileread f n : local (fileread devsw_read me f n).
Proof. unfold fileread, piperead_k. loc. Qed.
Lemma local_filewrite f bs : local (filewrite devsw_write me f bs).
Proof.
  assert (Hl : ∀ n ip bs i m, local (filewrite_loop devsw_write me n f ip bs i m)) by (induction n as [|n IH]; intros; cbn [filewrite_loop]; loc).
  unfold filewrite, pipewrite_k. loc.
Qed.
Lemma local_rw_args : local (rw_args me).
Proof. unfold rw_args. loc. Qed.
Lemma local_pipealloc : local (pipealloc me).
Proof. unfold pipealloc. loc. Qed.
Hint Resolve local_fileread local_filewrite local_rw_args local_pipealloc : local.
Lemma local_isdirempty dp : local (isdirempty devsw_read me dp).
Proof.
  assert (Hl : ∀ n off, local (isdirempty_loop devsw_read me n dp off)) by (induction n as [|n IH]; intros; cbn [isdirempty_loop]; loc).
  unfold isdirempty. loc.
Qed.
Lemma local_create path type major minor : local (create devsw_read devsw_write me path type major minor).
Proof. unfold create. loc. Qed.
Hint Resolve local_isdirempty local_create : local.
Lemma local_exec_args n a i : local (exec_args me n a i).
Proof. revert i. induction n as [|n IH]; intros i; cbn [exec_args]; loc. Qed.
Lemma local_push_args argv argc pgdir sp stack : local (push_args me argv argc pgdir sp stack).
Proof. revert argc sp stack. induction argv as [|a argv IH]; intros; cbn [push_args]; loc. Qed.
Lemma local_load_program n ip pgdir sz off : local (load_program devsw_read me n ip pgdir sz off).
Proof.
  assert (Hl : ∀ n pgdir addr ip off sz i, local (load_pages devsw_read me n pgdir addr ip off sz i))
    by (clear; induction n as [|n IH]; intros; cbn [load_pages]; unfold readi_ip; loc).
  revert sz off. induction n as [|n IH]; intros; cbn [load_program]; unfold readi_ip, load_segment; loc.
Qed.
Hint Resolve local_exec_args local_push_args local_load_program : local.
Lemma local_exec path argv : local (exec devsw_read me path argv).
Proof. unfold exec, exec_stack, exec_bad, readi_ip. loc. Qed.
Hint Resolve local_exec : local.

Lemma local_chdir : b = false → local (sys_chdir devsw_read me).
Proof. intros Hb. unfold sys_chdir. loc. apply local_upd. intros p. split_and!; [done..|]. by rewrite Hb. Qed.
(** every call of sysfile.c, [chdir] apart *)
Lemma local_sysfile num m : num ≠ 9 → sysfile devsw_read devsw_write me num = Some m → local m.
Proof.
  intros Hn. unfold sysfile. repeat (case_match; [simplify_eq|]); intros; simplify_eq; try lia.
  all: unfold sys_pipe, sys_read, sys_exec, sys_fstat, sys_dup, sys_open, sys_write, sys_mknod, sys_unlink, sys_link, sys_mkdir, sys_close,
    filestat, store_stat, link_bad, unlink_bad, open_inode, created, clear_fd; loc.
Qed.
End calls.

(** ** Dead slots hold nothing, live ones have a directory *)

Definition dead (p : proc) : bool := bool_decide (p_state p ∈ [UNUSED; EMBRYO; ZOMBIE]).
Definition tidy (p : proc) : Prop := if dead p then p_ofile p = replicate NOFILE 0 ∧ p_cwd p = 0 else 1 ≤ p_cwd p.

Lemma dead_alive p : p_state p = RUNNING ∨ p_state p = RUNNABLE ∨ p_state p = SLEEPING → dead p = false.
Proof. unfold dead. by intros [->|[->| ->]]. Qed.

Definition tview (l : list proc) : list (list Z * Z * bool) := (λ p, (p_ofile p, p_cwd p, dead p)) <$> l.

Lemma tview_refview l l' : tview l = tview l' → refview l = refview l'.
Proof.
  intros E. apply (f_equal (fmap fst)) in E. unfold tview in E. rewrite <- !list_fmap_compose in E. exact E.
Qed.
Lemma tview_alter f i l :
  (∀ p, l !! i = Some p → p_ofile (f p) = p_ofile p ∧ p_cwd (f p) = p_cwd p ∧ dead (f p) = dead p) → tview (alter f i l) = tview l.
Proof.
  intros Hf. apply list_eq. intros j. unfold tview. rewrite !list_lookup_fmap, list_lookup_alter. case_decide as Hd; [subst j|done].
  destruct (l !! i) as [p|]; [|done]. cbn. by destruct (Hf p eq_refl) as (-> & -> & ->).
Qed.
Lemma tview_imap f l : (∀ i p, p_ofile (f i p) = p_ofile p ∧ p_cwd (f i p) = p_cwd p ∧ dead (f i p) = dead p) → tview (imap f l) = tview l.
Proof.
  intros Hf. apply list_eq. intros j. unfold tview. rewrite !list_lookup_fmap, list_lookup_imap.
  destruct (l !! j) as [p|]; [|done]. cbn. by destruct (Hf j p) as (-> & -> & ->).
Qed.
Lemma dead_wake c p : dead (wake c p) = dead p.
Proof. unfold wake. case_decide as Hd; [|done]. destruct Hd as [Hs _]. rewrite !dead_alive; cbn; auto. Qed.
Lemma tview_wake c l : tview (imap (λ _, wake c) l) = tview l.
Proof. apply tview_imap. intros i p. rewrite dead_wake. unfold wake. by case_decide. Qed.
Lemma tidy_tview l l' : tview l = tview l' → Forall tidy l → Forall tidy l'.
Proof.
  intros E. rewrite !Forall_lookup. intros Hl j p' Hj. pose proof (f_equal (λ x, x !! j) E) as Ej. unfold tview in Ej. cbn in Ej. rewrite !list_lookup_fmap, Hj in Ej.
  destruct (l !! j) as [p|] eqn:Hp; [|done]. cbn in Ej. simplify_eq. specialize (Hl j p Hp). unfold tidy in *. by rewrite <- H, <- H0, <- H1.
Qed.

Section counted.
  Context `{KernelImage} `{ProcImage} {S : Type} {BO : BufOps S} {LO : LogOps S}.
  Context (devsw_read : Z → option (nat → Z → M (fs S) (Z * list Z))).
  Context (devsw_write : Z → option (nat → list Z → M (fs S) Z)).
  Context (Hread : ∀ major f ip n, devsw_read major = Some f → keeps (f ip n)).
  Context (Hwrite : ∀ major f ip src, devsw_write major = Some f → keeps (f ip src)).

#[local] Instance ops : FileOps (flayer S) := layer_ops devsw_read.
#[local] Instance calm_ops : FileCalm (flayer S) := layer_calm devsw_read.

Abbreviation K := (M (kern (flayer S))).

Definition counted (k : kern (flayer S)) : Prop := kinv k zero zero [] ∧ Forall tidy (k_procs k).

Definition still {A} (m : K A) : Prop := ∀ k, rets m k (λ _ k', k_fs k' = k_fs k ∧ tview (k_procs k') = tview (k_procs k)).

Lemma counted_still k k' : k_fs k' = k_fs k → tview (k_procs k') = tview (k_procs k) → counted k → counted k'.
Proof. intros Ef Et [Hk Ht]. split; [eapply kinv_quiet; [done|by apply tview_refview|done]|by eapply tidy_tview]. Qed.

(** ** System calls *)

Lemma sysfile_even me num m : num ≠ 9 → sysfile devsw_read devsw_write me num = Some m →
  trip zero zero [] m (λ _, True) (λ _, zero) (λ _, zero) (λ _, []).
Proof.
  intros Hn. unfold sysfile. repeat (case_match; [simplify_eq|]); intros; simplify_eq; try lia.
  all: eauto using even_pipe, even_read, even_exec, even_fstat, even_dup, even_open, even_write, even_mknod, even_unlink, even_link, even_mkdir, even_close.
Qed.

Lemma tidy_moved me b l l' : moved b me l l' → Forall tidy l → (∃ p, l !! me = Some p ∧ p_state p = RUNNING) →
  (b = false → ∃ p, l' !! me = Some p ∧ 1 ≤ p_cwd p) → Forall tidy l'.
Proof.
  intros Hm Hl (q & Hq & Hr) Hd. rewrite !Forall_lookup in *. intros j p' Hj. specialize (Hm j). rewrite Hj in Hm.
  destruct (l !! j) as [p|] eqn:Hp; [|done]. destruct Hm as (_ & _ & Hs & Hc & Ho). specialize (Hl j p Hp). unfold tidy in *.
  assert (Edead : dead p' = dead p).
  { destruct Hs as [Hs|[Hs Hs']]; [unfold dead; by rewrite Hs|]. rewrite !dead_alive; auto. }
  rewrite Edead. destruct (decide (j = me)) as [->|Hne].
  - rewrite Hp in Hq. injection Hq as ->. rewrite dead_alive in * by auto. destruct b; [by rewrite Hc by auto|].
    destruct (Hd eq_refl) as (x & Hx & ?). rewrite Hj in Hx. by injection Hx as <-.
  - rewrite Hc, Ho by auto. done.
Qed.

Lemma sysfile_counted me num m k r k' : sysfile devsw_read devsw_write me num = Some m → running me k → counted k → m k = Ret r k' → counted k'.
Proof.
  intros Hm Hr [Hk Ht] E. destruct (decide (num = 9)) as [->|Hn].
  - injection Hm as <-. assert (Hd : at_dir me k).
    { destruct Hr as (p & Hp & Hs). exists (p_ofile p, p_cwd p). unfold refview. rewrite list_lookup_fmap, Hp. split; [done|].
      rewrite Forall_lookup in Ht. specialize (Ht me p Hp). unfold tidy in Ht. rewrite dead_alive in Ht by auto. done. }
    destruct (chdir_even devsw_read Hread me k Hk Hd r k' E) as [Hk' (x & Hx & Hc)]. split; [done|].
    destruct (local_chdir false me devsw_read eq_refl k r k' E) as [_ Hmv]. eapply tidy_moved; [done|done|exact Hr|]. intros _. unfold refview in Hx. rewrite list_lookup_fmap in Hx.
    destruct (k_procs k' !! me) as [p|]; [|done]. injection Hx as <-. eauto.
  - destruct (sysfile_even me num m Hn Hm k Hk r k' E) as [_ Hk']. split; [done|].
    destruct (local_sysfile true me devsw_read devsw_write num m Hn Hm k r k' E) as [_ Hmv]. by eapply tidy_moved.
Qed.

(** ** exit *)

Lemma still_reparent n i me init : still (reparent_loop n i me init).
Proof.
  revert i. induction n as [|n IH]; intros i k; cbn [reparent_loop]; krun; [done|].
  assert (Hi : ∀ k1, k_fs k1 = k_fs k → tview (k_procs k1) = tview (k_procs k) →
    rets (reparent_loop n (Datatypes.S i) me init) k1 (λ _ k', k_fs k' = k_fs k ∧ tview (k_procs k') = tview (k_procs k))).
  { intros k1 E1 E2. eapply rets_mono; [apply IH|]. intros [] k2 [E3 E4]. split; congruence. }
  case_decide as Hp; krun; [|by apply Hi]. case_decide as Hz; krun.
  - apply rets_modify. apply Hi; [done|]. kstate. rewrite tview_wake. by apply tview_alter.
  - apply Hi; [done|]. kcbn. by apply tview_alter.
Qed.

Lemma woken_moved b me l l' : Proc.woken l l' → moved b me l l'.
Proof. intros Hw j. destruct (Hw j) as [->|(p & -> & Hs & ->)]; [destruct (l !! j); auto|]. cbn. auto 10. Qed.

Lemma fileclose_counted me x k p : 1 ≤ x → kinv k zero zero [] → k_procs k !! me = Some p →
  rets (Proc.fileclose me x) k (λ _ k', kinv k' (sub1 (idx x) zero) zero [] ∧ Proc.woken (k_procs k) (k_procs k') ∧
    ∃ p', k_procs k' !! me = Some p' ∧ p_ofile p' = p_ofile p).
Proof.
  intros Hx Hk Hp [] k' E. destruct (trip_fileclose me (idx x) zero zero [] k Hk () k' E) as [_ Hk'].
  destruct (fileclose_calm me x k () k' E) as [_ Hw]. split_and!; [done|done|].
  destruct (Hw me) as [->|(q & Hq & _ & ->)]; [eauto|]. rewrite Hp in Hq. injection Hq as ->. eexists. by split.
Qed.

(** the descriptors from [fd] on are closed *)
Lemma close_files_counted n me : ∀ fd k p, (fd + n ≤ NOFILE)%nat → kinv k zero zero [] → k_procs k !! me = Some p →
  rets (close_files n fd me) k (λ _ k', kinv k' zero zero [] ∧ moved true me (k_procs k) (k_procs k') ∧
    ∃ p', k_procs k' !! me = Some p' ∧ (∀ j, (fd ≤ j < fd + n)%nat → p_ofile p' !! j = Some 0) ∧
      (∀ j, (j < fd)%nat → p_ofile p' !! j = p_ofile p !! j)).
Proof.
  induction n as [|n IH]; intros fd k p Hn Hk Hp; cbn [close_files].
  { krun. split_and!; [done|apply moved_refl|]. exists p. split_and!; [done|lia|done]. }
  krun. rewrite Hp in H1. injection H1 as <-.
  destruct Hk as [Hf [Hd Hl]]. pose proof Hd as Hd'. unfold refview in Hd'. rewrite Forall_fmap, Forall_lookup in Hd'.
  destruct (Hd' me p Hp) as (D1 & D2 & _). cbn in D1, D2. pose proof (conj Hf (conj Hd Hl)) as Hk. clear Hf Hd Hl Hd'.
  destruct (lookup_lt_is_Some_2 (p_ofile p) fd) as [x Hx]; [lia|]. rewrite (list_lookup_total_correct _ _ _ Hx).
  assert (Hrest : ∀ k2 p2, kinv k2 zero zero [] → k_procs k2 !! me = Some p2 → p_ofile p2 !! fd = Some 0 → moved true me (k_procs k) (k_procs k2) →
    (∀ j, (j < fd)%nat → p_ofile p2 !! j = p_ofile p !! j) →
    rets (close_files n (Datatypes.S fd) me) k2 (λ _ k', kinv k' zero zero [] ∧ moved true me (k_procs k) (k_procs k') ∧
      ∃ p', k_procs k' !! me = Some p' ∧ (∀ j, (fd ≤ j < fd + Datatypes.S n)%nat → p_ofile p' !! j = Some 0) ∧
        (∀ j, (j < fd)%nat → p_ofile p' !! j = p_ofile p !! j))).
  { intros k2 p2 Hk2 Hp2 Hz Hm Hb. eapply rets_mono; [by apply (IH _ k2 p2); [lia|..]|]. intros [] k' (Hk' & Hm' & p' & Hp' & Hc & Hs).
    split_and!; [done|by eapply moved_trans|]. exists p'. split_and!; [done| |].
    - intros j Hj. destruct (decide (j = fd)) as [->|]; [by rewrite Hs by lia|]. apply Hc. lia.
    - intros j Hj. by rewrite Hs, Hb by lia. }
  destruct (Z.eqb_spec x 0) as [->|Hx0]; krun; [by apply (Hrest k p); [..|apply moved_refl|]|].
  rewrite Forall_lookup in D2. destruct (D2 _ _ Hx) as [|[Hx1 _]]; [done|].
  eapply rets_mono; [by apply (fileclose_counted me x k p)|]. intros [] k1 (Hk1 & Hw & p1 & Hp1 & Eo). krun.
  rewrite <- Eo in Hx. pose proof (kinv_set_fd k1 _ _ _ me p1 fd x 0 Hp1 Hx (or_introl eq_refl) Hk1) as Hk2.
  apply (Hrest _ (set_ofile (<[fd := 0]> (p_ofile p1)) p1)).
  - eapply kinv_ext; [| | |exact Hk2]; try done. intros j. unfold sub1, ptr, idx. repeat case_decide; lia.
  - kcbn. by rewrite list_lookup_alter_eq, Hp1.
  - cbn. rewrite list_lookup_insert_eq; [done|]. by eapply lookup_lt_Some.
  - eapply moved_trans; [by apply woken_moved|]. intros j. kcbn. rewrite list_lookup_alter. case_decide as Hd; [subst j; rewrite Hp1; cbn; auto 10; naive_solver|].
    destruct (k_procs k1 !! j); auto 10.
  - intros j Hj. cbn. rewrite list_lookup_insert_ne by lia. by rewrite Eo.
Qed.
(** ** The inode layer called by proc.c *)

Lemma rets_layer {A} (m : M (fs S) A) (P : A → Prop) (δ : A → counts) e d u k :
  (∀ c s, iref_ok c s → rets m s (λ a s', P a ∧ iref_ok (λ i, c i + δ a i) s')) → kinv k e d u →
  rets (in_fs (in_layer m)) k (λ a k', P a ∧ k_procs k' = k_procs k ∧ kinv k' e (λ i, d i + δ a i) u).
Proof.
  intros Hm [[F1 F2 F4 F3] Hp] a k'. unfold in_fs, in_layer, zoom. destruct (m _) as [a' s'| | |] eqn:E; try done.
  intros [= <- <-]. apply (Hm _ _ F3) in E as [HP E]. split_and!; [done|done|]. split; [|done]. split; [done|done|done|]. eapply iref_ext; [|exact E]. intros i. cbn. lia.
Qed.
Lemma rets_layer_keeps {A} (m : M (fs S) A) e d u k : keeps m → kinv k e d u →
  rets (in_fs (in_layer m)) k (λ _ k', k_procs k' = k_procs k ∧ kinv k' e d u).
Proof.
  intros Hm Hk. eapply rets_mono; [apply (rets_layer m (λ _, True) (λ _ _, 0)); [|exact Hk]|].
  - intros c s Hs. eapply rets_mono; [by apply Hm|]. intros a s' Hs'. split; [done|]. eapply iref_ext; [|exact Hs']. intros i. lia.
  - intros a k' (_ & E & Hk'). split; [done|]. eapply kinv_ext; [| | |exact Hk']; try done. intros i. cbn. lia.
Qed.

Lemma tview_lookup l l' j p' : tview l = tview l' → l' !! j = Some p' →
  ∃ p, l !! j = Some p ∧ p_ofile p' = p_ofile p ∧ p_cwd p' = p_cwd p ∧ dead p' = dead p.
Proof.
  intros E Hj. pose proof (f_equal (λ x, x !! j) E) as Ej. unfold tview in Ej. cbn in Ej. rewrite !list_lookup_fmap, Hj in Ej.
  destruct (l !! j) as [p|]; [|done]. cbn in Ej. simplify_eq. eauto.
Qed.

(** the slots other than [me] are tidy *)
Definition tidy_but (me : nat) (l : list proc) : Prop := ∀ j p, j ≠ me → l !! j = Some p → tidy p.

Lemma tidy_but_all me l : Forall tidy l → tidy_but me l.
Proof. rewrite Forall_lookup. intros Hl j p _. apply Hl. Qed.
Lemma tidy_but_moved b me l l' : moved b me l l' → tidy_but me l → tidy_but me l'.
Proof.
  intros Hm Hl j p' Hne Hj. specialize (Hm j). rewrite Hj in Hm. destruct (l !! j) as [p|] eqn:Hp; [|done].
  destruct Hm as (_ & _ & Hs & Hc & Ho). specialize (Hl j p Hne Hp). unfold tidy in *. rewrite Hc, Ho by auto.
  assert (dead p' = dead p) as ->; [|done]. destruct Hs as [Hs|[Hs Hs']]; [unfold dead; by rewrite Hs|]. rewrite !dead_alive; auto.
Qed.
Lemma tidy_but_alter me f l : tidy_but me l → tidy_but me (alter f me l).
Proof. intros Hl j p Hne. rewrite list_lookup_alter_ne by done. by apply Hl. Qed.
Lemma tidy_but_tview me l l' : tview l = tview l' → tidy_but me l → tidy_but me l'.
Proof.
  intros E Hl j p' Hne Hj. destruct (tview_lookup _ _ _ _ E Hj) as (p & Hp & Eo & Ec & Ed). specialize (Hl j p Hne Hp).
  unfold tidy in *. by rewrite Eo, Ec, Ed.
Qed.
Lemma tidy_but_set me f l : tidy_but me l → (∀ p, l !! me = Some p → tidy (f p)) → Forall tidy (alter f me l).
Proof.
  intros Hl Hf. apply Forall_lookup. intros j p. rewrite list_lookup_alter. case_decide as Hd; [subst j|by apply Hl].
  destruct (l !! me) as [q|]; [|done]. intros [= <-]. by apply Hf.
Qed.

Lemma kinv_desc (k : kern (flayer S)) e d u i p : kinv k e d u → k_procs k !! i = Some p →
  length (p_ofile p) = NOFILE ∧ Forall (λ f, f = 0 ∨ 1 ≤ f ∧ (idx f < NFILE)%nat) (p_ofile p) ∧ 0 ≤ p_cwd p.
Proof. intros (_ & Hd & _) Hi. unfold refview in Hd. rewrite Forall_fmap, Forall_lookup in Hd. apply (Hd i p Hi). Qed.
Lemma counted_cwd (k : kern (flayer S)) me : running me k → counted k → ∃ p, k_procs k !! me = Some p ∧ p_state p = RUNNING ∧ 1 ≤ p_cwd p.
Proof.
  intros (p & Hp & Hs) [_ Ht]. exists p. split_and!; [done..|]. rewrite Forall_lookup in Ht. specialize (Ht me p Hp).
  unfold tidy in Ht. by rewrite dead_alive in Ht by auto.
Qed.

Lemma exit_counted me k : running me k → counted k → rets (exit me) k (λ _ k', counted k').
Proof.
  intros Hr Hc. destruct (counted_cwd _ _ Hr Hc) as (p & Hp & Hs & Hd). destruct Hc as [Hk Ht].
  unfold exit. krun. case_decide as Hi; krun. eapply rets_mono; [by apply (close_files_counted _ me 0%nat k p)|].
  intros [] k1 (Hk1 & Hm & p1 & Hp1 & Hz & _). apply (tidy_but_all me) in Ht. apply (tidy_but_moved _ _ _ _ Hm) in Ht.
  assert (Ed : p_cwd p1 = p_cwd p) by (specialize (Hm me); rewrite Hp, Hp1 in Hm; apply Hm; auto).
  apply rets_bind, rets_proc_at. intros q Hq. rewrite Hp1 in Hq. injection Hq as <-.
  apply rets_bind. eapply rets_mono; [apply rets_layer_keeps; [apply keeps_sub|exact Hk1]|]. intros [] k2 [E2 Hk2].
  apply rets_bind. eapply rets_mono; [apply (rets_layer _ (λ _, True) (λ _ i, if decide (i = idx (p_cwd p1)) then -1 else 0)); [|exact Hk2]|].
  { intros c s Hcs. eapply rets_mono; [by apply drops_iput|]. intros [] s' Hx. split; [done|]. eapply iref_ext; [|exact Hx]. cnt. }
  intros [] k3 (_ & E3 & Hk3). apply rets_bind. eapply rets_mono; [apply rets_layer_keeps; [apply keeps_sub|exact Hk3]|]. intros [] k4 [E4 Hk4].
  rewrite E3, E2 in E4. apply rets_bind, rets_upd. rewrite <- E4 in Hp1, Ht.
  pose proof (kinv_set_cwd _ _ _ _ me p1 0 Hp1 ltac:(lia) Hk4) as Hk5. eapply (kinv_ext _ _ zero _ zero [] []) in Hk5; [|done| |done].
  2: { intros j. cbn. unfold ptr, idx. repeat case_decide; lia. }
  set (k5 := with_procs _ k4) in *. apply (tidy_but_alter me (set_cwd 0)) in Ht. change (alter _ me _) with (k_procs k5) in Ht.
  assert (Hp5 : k_procs k5 !! me = Some (set_cwd 0 p1)) by (cbn; by rewrite list_lookup_alter_eq, Hp1).
  destruct (kinv_desc _ _ _ _ _ _ Hk5 Hp5) as (Hlen & _). clearbody k5.
  apply rets_bind, rets_proc_at. intros q _. apply rets_bind, rets_modify. apply rets_bind. eapply rets_mono; [apply still_reparent|].
  intros [] k7 [E7 T7]. apply rets_upd. kstate. cbn in E7, T7. rewrite tview_wake in T7. split.
  - eapply kinv_quiet; [..|exact Hk5]; cbn; [done|]. rewrite refview_alter by done. by apply tview_refview.
  - kcbn. apply tidy_but_set; [by eapply tidy_but_tview|]. intros q' Hq'. destruct (tview_lookup _ _ _ _ (eq_sym T7) Hq') as (q0 & Hq0 & Eo & Ec & _).
    rewrite Hp5 in Hq0. injection Hq0 as <-. change (p_ofile q' = replicate NOFILE 0 ∧ p_cwd q' = 0). rewrite Eo, Ec. split; [|done]. apply list_eq. intros j.
    destruct (decide (j < NOFILE)%nat) as [Hj|Hj]; [|].
    2: { rewrite (lookup_ge_None_2 (replicate _ _)) by (rewrite length_replicate; lia). apply lookup_ge_None_2. lia. }
    rewrite lookup_replicate_2 by done. apply Hz. lia.
Qed.

(** ** fork *)

Lemma kinv_set_ofile (k : kern (flayer S)) e d u i p o : k_procs k !! i = Some p →
  length o = NOFILE → Forall (λ f, f = 0 ∨ 1 ≤ f ∧ (idx f < NFILE)%nat) o → kinv k e d u →
  kinv (with_procs (alter (set_ofile o) i) k) (λ j, e j + times (ptr j) (p_ofile p) - times (ptr j) o) d u.
Proof.
  intros Hi Ho Hv [Hf Hp]. split; cbn [with_procs k_fs k_procs].
  - eapply fl_ok_ext; [..|exact Hf]; [| |done]; intros j; cbn.
    + unfold tfiles. destruct (refs_alter pfiles (k_procs k) i (set_ofile o) p Hi) as [A1 A2]. unfold file_refs.
      rewrite (times_perm _ _ _ A1), (times_perm _ _ _ A2), !times_app. unfold pfiles at 1 3. rewrite !times_nonzero by (unfold ptr; lia). cbn [p_ofile set_ofile]. lia.
    + rewrite (tinodes_set _ _ _ (set_ofile o) Hi). cbn. lia.
  - destruct Hp as [Hp Hl]. split; [|by rewrite length_alter]. unfold refview in *. rewrite Forall_fmap in *. apply Forall_alter; [done|].
    intros x Hx _. rewrite Hi in Hx. injection Hx as <-. rewrite Forall_lookup in Hp. by destruct (Hp i p Hi) as (D1 & D2 & D3).
Qed.

Lemma dup_files_counted src e d k : Forall (λ f, f = 0 ∨ 1 ≤ f ∧ (idx f < NFILE)%nat) src → kinv k e d [] →
  rets (in_fs (dup_files src (replicate (length src) 0))) k
    (λ r k', r = src ∧ k_procs k' = k_procs k ∧ kinv k' (λ j, e j + times (ptr j) src) d []).
Proof.
  revert e k. induction src as [|f src IH]; intros e k Hs Hk; cbn [dup_files replicate length].
  { apply rets_fs_ret. split_and!; [done|done|]. eapply kinv_ext; [| | |exact Hk]; try done. intros j. cbn. unfold times. cbn. lia. }
  apply Forall_cons in Hs as [Hf Hs].
  assert (Hd : rets (in_fs (if f =? 0 then mret 0 else Proc.filedup f)) k (λ r k', r = f ∧ k_procs k' = k_procs k ∧
    kinv k' (λ j, e j + (if decide (f = ptr j) then 1 else 0)) d [])).
  { destruct (Z.eqb_spec f 0) as [->|Hf0].
    - apply rets_fs_ret. split_and!; [done|done|]. eapply kinv_ext; [| | |exact Hk]; try done. intros j. unfold ptr. case_decide; lia.
    - destruct Hf as [|[Hf1 Hf2]]; [done|]. cbn [Proc.filedup ops layer_ops]. apply rets_fs_bind. intros b k1 E.
      assert (Ep : k_procs k1 = k_procs k) by (revert E; unfold in_fs, zoom; destruct (File.filedup _ _) as [b' f1| | |]; try done; intros [= _ <-]; done).
      destruct (trip_filedup (idx f) e d [] k Hk _ _ E) as [_ Hk1]. apply rets_fs_ret. split_and!; [done|done|].
      eapply kinv_ext; [| | |exact Hk1]; try done. intros j. unfold add1, ptr, idx. repeat case_decide; lia. }
  apply rets_fs_bind. eapply rets_mono; [exact Hd|]. intros r k1 (-> & E1 & Hk1). apply rets_fs_bind.
  eapply rets_mono; [exact (IH _ k1 Hs Hk1)|]. intros r k2 (-> & E2 & Hk2). apply rets_fs_ret. split_and!; [done|congruence|].
  eapply kinv_ext; [| | |exact Hk2]; try done. intros j. cbn beta. rewrite times_cons. lia.
Qed.

(** a slot handed out by [allocproc] holds nothing *)
Lemma allocproc_counted k : counted k → rets allocproc k (λ r k', counted k' ∧ tview (k_procs k') = tview (k_procs k) ∧
  match r with Some np => ∃ n, k_procs k' !! np = Some n ∧ dead n = true | None => True end).
Proof.
  intros Hc. assert (Hq : ∀ k', k_fs k' = k_fs k → tview (k_procs k') = tview (k_procs k) → counted k' ∧ tview (k_procs k') = tview (k_procs k))
    by (intros k' ? ?; split; [by apply (counted_still k)|done]).
  unfold allocproc. krun. destruct (find_slot _ (k_procs k)) as [i|] eqn:E; [|krun; auto].
  destruct (find_slot_Some _ _ _ E) as (p & Hi & Hu & _). apply bool_decide_eq_true in Hu.
  assert (Hd : dead p = true) by (unfold dead; by rewrite Hu).
  krun. destruct (_ =? 0); krun; rewrite !list_alter_alter_eq.
  all: match goal with |- counted ?k' ∧ _ => destruct (Hq k') as [? ?]; [done| |split_and!; [done|done|]] end; kcbn.
  1, 3: apply tview_alter; intros q Hq'; rewrite Hi in Hq'; injection Hq' as <-; by rewrite Hd.
  - done.
  - rewrite list_lookup_alter_eq, Hi. eexists. split; [reflexivity|done].
Qed.

Lemma times_zeros x n : x ≠ 0 → times x (replicate n 0) = 0.
Proof. intros Hx. induction n as [|n IH]; [done|]. cbn [replicate]. rewrite times_cons, IH. by case_decide. Qed.

(** a slot comes alive with a directory *)
Lemma counted_new np k n c f : kinv k zero (λ j, 0 + if decide (j = idx c) then 1 else 0) [] → k_procs k !! np = Some n → tidy_but np (k_procs k) →
  p_cwd n = 0 → 1 ≤ c → (∀ p, p_ofile (f p) = p_ofile p ∧ p_cwd (f p) = p_cwd p ∧ dead (f p) = false) →
  counted (with_procs (alter f np) (with_procs (alter (set_cwd c) np) k)).
Proof.
  intros Hk Hn Ht Hc Hc1 Hf. pose proof (kinv_set_cwd _ _ _ _ np _ c Hn ltac:(lia) Hk) as Hk4.
  eapply (kinv_ext _ _ zero _ zero [] []) in Hk4; [|done| |done].
  2: { intros j. cbn beta. rewrite Hc. unfold ptr, idx. repeat case_decide; lia. }
  split.
  - eapply kinv_quiet; [..|exact Hk4]; kcbn; [done|]. rewrite refview_alter; [done|]. intros p. by destruct (Hf p) as (? & ? & _).
  - kcbn. apply tidy_but_set; [by apply tidy_but_alter|]. intros q. rewrite list_lookup_alter_eq, Hn. intros [= <-]. unfold tidy.
    by destruct (Hf (set_cwd c n)) as (_ & -> & ->).
Qed.

(** the part of [fork] that hands out references *)
Lemma fork_hands np k n cur pid : counted k → k_procs k !! np = Some n → dead n = true → 1 ≤ p_cwd cur →
  length (p_ofile cur) = NOFILE → Forall (λ f, f = 0 ∨ 1 ≤ f ∧ (idx f < NFILE)%nat) (p_ofile cur) →
  rets (fs ← in_fs (dup_files (p_ofile cur) (p_ofile n));
        _ ← upd np (set_ofile fs);
        cwd ← in_fs (Proc.idup (p_cwd cur));
        _ ← upd np (set_cwd cwd);
        _ ← upd np (λ n, set_name (safestrcpy_name (p_name n) (p_name cur)) n);
        _ ← upd np (set_state RUNNABLE);
        mret (pid : Z)) k (λ _ k', counted k').
Proof.
  intros [Hk Ht] Hn Hd Hc Hl Hf. apply rets_bind. pose proof Ht as Ht'. rewrite Forall_lookup in Ht'. specialize (Ht' np n Hn). unfold tidy in Ht'. rewrite Hd in Ht'.
  destruct Ht' as [Eo Ec]. rewrite Eo, <- Hl. eapply rets_mono; [by apply dup_files_counted|]. intros fs k1 (-> & E1 & Hk1). rewrite <- E1 in Hn, Ht.
  apply rets_bind, rets_upd. pose proof (kinv_set_ofile _ _ _ _ np n (p_ofile cur) Hn Hl Hf Hk1) as Hk2.
  eapply (kinv_ext _ _ zero _ zero [] []) in Hk2; [| |done|done].
  2: { intros j. cbn beta. rewrite Eo, times_zeros by (unfold ptr; lia). lia. }
  set (k2 := with_procs _ k1) in *. assert (Hn2 : k_procs k2 !! np = Some (set_ofile (p_ofile cur) n)) by (cbn; by rewrite list_lookup_alter_eq, Hn).
  apply (tidy_but_all np), (tidy_but_alter np (set_ofile (p_ofile cur))) in Ht. change (alter _ np _) with (k_procs k2) in Ht. clearbody k2. clear Hk1.
  apply rets_bind. cbn [Proc.idup ops layer_ops]. apply rets_fs_bind. eapply rets_mono; [apply (rets_layer _ (λ _, True) (λ _ i, if decide (i = idx (p_cwd cur)) then 1 else 0)); [|exact Hk2]|].
  { intros c s Hcs. unfold Fs.idup. apply rets_bind. eapply rets_mono; [by apply (iupd_ref _ 1)|]. intros [] s' Hx. apply rets_ret. split; [done|]. eapply iref_ext; [|exact Hx]. cnt. }
  intros a k3 (_ & E3 & Hk3). apply rets_fs_ret. rewrite <- E3 in Hn2, Ht.
  krun. rewrite list_alter_alter_eq. by apply (counted_new np k3 (set_ofile (p_ofile cur) n) (p_cwd cur)).
Qed.

Lemma fork_counted me k : running me k → counted k → rets (fork me) k (λ _ k', counted k').
Proof.
  intros Hr Hc. destruct (counted_cwd _ _ Hr Hc) as (cur & Hcur & Hs & Hcwd). unfold fork. apply rets_bind.
  eapply rets_mono; [by apply allocproc_counted|]. intros [np|] k1 (Hc1 & Ht & Hnp); [|by krun].
  destruct Hnp as (n & Hn & Hd). apply rets_bind, rets_proc_at. intros cur1 Hcur1.
  destruct (tview_lookup _ _ _ _ (eq_sym Ht) Hcur1) as (x & Hx & Eo & Ec & Ed). rewrite Hcur in Hx. injection Hx as <-.
  assert (Hne : np ≠ me). { intros ->. rewrite Hcur1 in Hn. injection Hn as ->. rewrite Ed, dead_alive in Hd by auto. done. }
  apply rets_bind, rets_in_phys. intros pgdir s. apply rets_bind, rets_upd. destruct (pgdir =? 0).
  { krun. rewrite !list_alter_alter_eq. eapply (counted_still k1); [done| |done]. kcbn. apply tview_alter. intros q Hq. rewrite Hn in Hq. injection Hq as <-. by rewrite Hd. }
  do 2 apply rets_bind, rets_upd. apply rets_bind, rets_proc_at. intros n2 Hn2. do 2 (apply rets_bind, rets_in_phys; intros ? ?).
  match goal with |- rets _ ?k _ => assert (Hc2 : counted k); [|set (k2 := k) in *] end.
  { eapply (counted_still k1); [done| |done]. kstate. rewrite !list_alter_alter_eq. apply tview_alter. intros q Hq. done. }
  assert (Hn2' : k_procs k2 !! np = Some n2) by done. assert (Hd2 : dead n2 = true).
  { revert Hn2. kstate. rewrite !list_alter_alter_eq, list_lookup_alter_eq, Hn. intros [= <-]. done. }
  clearbody k2. clear Hn2 Hc. destruct (kinv_desc _ _ _ _ _ _ (proj1 Hc1) Hcur1) as (? & ? & _). apply (fork_hands np k2 n2 cur1); try done. by rewrite Ec.
Qed.

(** ** The other calls of proc.c move no references *)

Lemma counted_alter k i f : (∀ p, k_procs k !! i = Some p → p_ofile (f p) = p_ofile p ∧ p_cwd (f p) = p_cwd p ∧ dead (f p) = dead p) →
  counted k → counted (with_procs (alter f i) k).
Proof. intros Hf. apply counted_still; [done|]. by apply tview_alter. Qed.
Lemma counted_running k me f : running me k → (∀ p, p_ofile (f p) = p_ofile p ∧ p_cwd (f p) = p_cwd p ∧ (p_state p = RUNNING → dead (f p) = false)) →
  counted k → counted (with_procs (alter f me) k).
Proof.
  intros (q & Hq & Hr) Hf. apply counted_alter. intros p Hp. rewrite Hq in Hp. injection Hp as <-. destruct (Hf q) as (? & ? & Hd).
  rewrite Hd by done. rewrite dead_alive by auto. done.
Qed.

Lemma still_tview {A} (m : K A) k a k' : still m → m k = Ret a k' → counted k → counted k'.
Proof. intros Hm E. destruct (Hm k a k' E). by apply counted_still. Qed.

Lemma still_wait me : still (wait me).
Proof.
  intros k. unfold wait. krun. destruct (find_slot _ (k_procs k)) as [i|] eqn:E.
  - destruct (find_slot_Some _ _ _ E) as (q & Hi & Hz & _). apply bool_decide_eq_true in Hz as [_ Hz].
    krun. rewrite !list_alter_alter_eq. split; [done|]. apply tview_alter. intros x Hx. rewrite Hi in Hx. injection Hx as <-. split_and!; [done..|].
    unfold dead. by rewrite Hz.
  - destruct (_ || _); krun; [done|]. by intros a k'.
Qed.
Lemma still_kill pid : still (kill pid).
Proof.
  intros k. unfold kill. krun. destruct (find_slot _ _) as [i|]; krun; [|done]. case_decide as Hd; krun; (split; [done|]).
  - rewrite list_alter_alter_eq. rewrite list_lookup_alter_eq in H1. apply tview_alter. intros q Hq. rewrite Hq in H1. injection H1 as <-.
    split_and!; [done..|]. rewrite !dead_alive; cbn in *; auto.
  - by apply tview_alter.
Qed.
Lemma still_scheduler c : still (scheduler_step c).
Proof.
  intros k. unfold scheduler_step. krun. destruct (pick c _) as [i|] eqn:E; [|by krun].
  unfold pick in E. apply fmap_Some in E as (d & E & ->). destruct (find_slot_Some _ _ _ E) as (p & Hi & Hu & _). apply bool_decide_eq_true in Hu.
  rewrite lookup_drop in Hi. krun. apply rets_switchuvm. krun. split; [done|]. apply tview_alter. intros q Hq. rewrite Hi in Hq. injection Hq as <-.
  split_and!; [done..|]. rewrite !dead_alive; auto.
Qed.
Lemma still_growproc me n : still (growproc me n).
Proof.
  assert (Hq : ∀ z (k : kern (flayer S)), rets (_ ← upd me (set_sz z); _ ← switchuvm me; mret 0) k (λ _ k', k_fs k' = k_fs k ∧ tview (k_procs k') = tview (k_procs k))).
  { intros z k. krun. apply rets_switchuvm. krun. split; [done|]. by apply tview_alter. }
  intros k. unfold growproc. krun. destruct (0 <? n); [|destruct (n <? 0); [|apply Hq]].
  all: krun; destruct (_ =? 0); [by krun|apply (Hq _ (Build_kern _ _ _ _ _))].
Qed.

Lemma pstep_counted k k' : ProcTree.pstep k k' → counted k → counted k'.
Proof.
  intros Hst. destruct Hst as
    [me k r k' Hrun E|me k k' Hrun E|me k r k' Hrun E|me k c k' Hrun E|me k c k' Hrun Hc E
    |me k k' Hrun E|k c k' E|k pid r k' E|me k k' Hrun E|k c r k' E|me k n r k' Hrun E
    |me k n r k' Hrun E|me k cr2 r k' Hrun E].
  - intros Hk. by eapply fork_counted.
  - intros Hk. by eapply exit_counted.
  - by eapply still_tview; [apply still_wait|].
  - apply wait_sleeps in E as (-> & Hz & ->). by apply counted_running.
  - injection E as <-. by apply counted_running.
  - injection E as <-. apply counted_alter. done.
  - injection E as <-. apply counted_still; [done|]. apply tview_wake.
  - by eapply still_tview; [apply still_kill|].
  - injection E as <-. by apply counted_running.
  - by eapply still_tview; [apply still_scheduler|].
  - by eapply still_tview; [apply still_growproc|].
  - eapply still_tview; [|done]. intros k1. unfold mmap. krun. split; [done|]. by apply tview_alter.
  - eapply still_tview; [|done]. intros k1. unfold pgfault. krun. apply rets_switchuvm. by krun.
Qed.

(** ** The steps of the kernel *)

Inductive kstep : kern (flayer S) → kern (flayer S) → Prop :=
| ks_proc k k' : ProcTree.pstep k k' → kstep k k'
| ks_file me num m k r k' : running me k → sysfile devsw_read devsw_write me num = Some m → m k = Ret r k' → kstep k k'.

Lemma sysfile_mildly me num m k : sysfile devsw_read devsw_write me num = Some m → mildly m k.
Proof.
  intros Hm a k' E. destruct (decide (num = 9)) as [->|Hn].
  - injection Hm as <-. destruct (local_chdir false me devsw_read eq_refl k a k' E) as [? Hmv]. split; [done|]. by eapply mild_calm, moved_calm.
  - destruct (local_sysfile true me devsw_read devsw_write num m Hn Hm k a k' E) as [? Hmv]. split; [done|]. by eapply mild_calm, moved_calm.
Qed.

Lemma kstep_counted k k' : kstep k k' → counted k ∧ kern_tree k → counted k' ∧ kern_tree k'.
Proof.
  intros [k1 k2 Hst|me num m k1 r k2 Hr Hm E] [Hc Ht].
  - split; [by eapply pstep_counted|by eapply pstep_tree].
  - split; [by eapply sysfile_counted|]. by eapply mildly_tree; [eapply sysfile_mildly| |].
Qed.

(** ** The first process *)

(** before [userinit]: the counts are exact and no slot is in use *)
Definition fresh (k : kern (flayer S)) : Prop :=
  counted k ∧ ∀ i p, k_procs k !! i = Some p → p_state p = UNUSED ∧ p_parent p = None.

Lemma namei_root c s : iref_ok c s → rets (Fs.namei 0 0 devsw_read [47]) s (λ r s', ∃ ip, r = Some ip ∧ iref_ok (add1 ip c) s').
Proof.
  intros Hs. unfold Fs.namei, namex. change (47 =? slash) with true. cbv iota. do 2 apply rets_bind.
  eapply rets_mono; [by apply takes_iget|]. cbn beta iota. intros ip s' Hs'. apply rets_ret, rets_ret. eauto.
Qed.

Lemma userinit_counted name k : fresh k → rets (userinit name) k (λ _ k', counted k').
Proof.
  intros [Hc Hu]. unfold userinit. apply rets_bind. eapply rets_mono; [by apply allocproc_counted|]. intros [i|] k1 (Hc1 & _ & Hn); [|krun].
  destruct Hn as (n & Hn & Hd). apply rets_bind, rets_modify. apply rets_bind, rets_in_phys. intros pgdir s. apply rets_bind, rets_upd. kstate.
  destruct (pgdir =? 0); [krun|]. apply rets_bind, rets_in_phys. intros [] s1. apply rets_bind, rets_upd. kstate. apply rets_bind, rets_proc_at. intros n1 Hn1.
  do 8 (apply rets_bind, rets_in_phys; intros [] ?; kcbn). apply rets_bind, rets_upd. kstate.
  match goal with |- rets _ ?k _ => assert (Hc2 : counted k); [|set (k2 := k) in *] end.
  { eapply (counted_still k1); [done| |done]. kstate. rewrite !list_alter_alter_eq. by apply tview_alter. }
  assert (Hn2 : ∃ n2, k_procs k2 !! i = Some n2 ∧ dead n2 = true).
  { subst k2. kstate. rewrite !list_alter_alter_eq, list_lookup_alter_eq, Hn. eexists. by split. }
  clearbody k2. destruct Hn2 as (n2 & Hn2 & Hd2), Hc2 as [Hk2 Ht2]. pose proof Ht2 as Hcwd. rewrite Forall_lookup in Hcwd. specialize (Hcwd i n2 Hn2).
  unfold tidy in Hcwd. rewrite Hd2 in Hcwd. apply rets_bind. cbn [Proc.namei ops layer_ops]. apply rets_fs_bind.
  eapply rets_mono; [apply (rets_layer _ is_Some (λ r j, if decide (r = Some j) then 1 else 0)); [|exact Hk2]|].
  { intros c s' Hs. eapply rets_mono; [by apply namei_root|]. intros r t (ip & -> & Hs2). split; [done|]. eapply iref_ext; [|exact Hs2].
    intros j. unfold add1. repeat case_decide; simplify_eq; lia. }
  intros r k3 ((ip & ->) & E3 & Hk3). apply rets_fs_ret. krun. apply (tidy_but_all i) in Ht2. rewrite <- E3 in Hn2, Ht2.
  apply (counted_new i k3 n2 (ptr ip)); try done; [|apply Hcwd|unfold ptr; lia]. eapply kinv_ext; [| | |exact Hk3]; try done.
  intros j. assert (idx (ptr ip) = ip) as -> by (unfold ptr, idx; lia). repeat case_decide; simplify_eq; done.
Qed.

(** ** The counts in every reachable state *)

(** the counters do not overflow *)
Lemma counts_small k i : counted k →
  i32 (times (ptr i) (file_refs (k_procs k)) + 0) = times (ptr i) (file_refs (k_procs k)) ∧
  i32 (times (ptr i) (inode_refs (k_procs k)) + 0 + opens i (fl_files (k_fs k))) = times (ptr i) (inode_refs (k_procs k)) + opens i (fl_files (k_fs k)).
Proof.
  intros [([F1 _ _ _] & Hd & Hl) _]. assert (Ho : Forall (λ p, length (p_ofile p) = NOFILE) (k_procs k)).
  { unfold refview in Hd. rewrite Forall_fmap in Hd. eapply Forall_impl; [exact Hd|]. by intros p [? _]. }
  destruct (refs_few _ Ho) as [B1 B2]. pose proof (times_nonneg (ptr i) (file_refs (k_procs k))). pose proof (times_nonneg (ptr i) (inode_refs (k_procs k))).
  assert (0 ≤ opens i (fl_files (k_fs k)) ≤ 100).
  { unfold opens. pose proof (length_filter (open_on i) (fl_files (k_fs k))) as B3. rewrite F1 in B3. unfold NFILE in B3. lia. }
  unfold NOFILE, NPROC in *. rewrite !i32_id by lia. lia.
Qed.

(** the state [userinit] leaves *)
Definition started (k : kern (flayer S)) : Prop := ∃ k0 name, fresh k0 ∧ userinit name k0 = Ret () k.

(** C6: Processes over the real file layer.  From the state in which [userinit] leaves the
    kernel (or any with exact counts and a process tree), in every state that is reached by
    calls that return -- the calls of proc.c (fork, exit, wait, sleep, wakeup, kill, the
    scheduler, sbrk, mmap and page faults) and the calls of sysfile.c, made by any running
    processes in any order -- the reference count of every open file is the number of
    descriptors that point to it, the count of every inode is the number of open files and
    of working directories that hold it, a slot that is not in use holds nothing, a live
    process has a directory, and every process has a parent to reap it.  So no file or
    inode is given up while in use, and none leaks. *)
Theorem references_counted k0 k : started k0 ∨ counted k0 ∧ kern_tree k0 → rtc kstep k0 k →
  (∀ i f, fl_files (k_fs k) !! i = Some f → fi_ref f = times (ptr i) (file_refs (k_procs k))) ∧
  (∀ i n, f_inodes (fl_fs (k_fs k)) !! i = Some n → i_ref n = times (ptr i) (inode_refs (k_procs k)) + opens i (fl_files (k_fs k))) ∧
  (∀ j p, k_procs k !! j = Some p → tidy p) ∧ kern_tree k.
Proof.
  intros H0' Hr. assert (H1 : counted k0 ∧ kern_tree k0).
  { destruct H0' as [(k1 & name & Hf & E)|?]; [|done]. split; [by eapply userinit_counted|].
    apply tree_booted. exists k1, name. destruct Hf as [[(_ & _ & ?) _] ?]. done. }
  assert (Hk : counted k ∧ kern_tree k) by (clear H0'; induction Hr as [|? ? ? Hs _ IH]; [done|]; apply IH; by eapply kstep_counted).
  destruct Hk as [Hc Htree]. pose proof (λ i, counts_small k i Hc) as Hb. destruct Hc as [[[_ F2 _ F3] _] Ht].
  split_and!; [| |by apply Forall_lookup|done].
  - intros i f Hi. destruct (F2 i f Hi) as [-> _]. apply Hb.
  - intros i n Hi. rewrite (F3 i n Hi). apply Hb.
Qed.
End counted.

(** ** A kernel whose init has the console open three times *)

(** the log layer under it, used by the process [pid] *)
#[export] Instance log_calls (pid : Z) : LogOps lstate := {| File.begin_op := Log.begin_op; File.end_op := Log.end_op pid |}.

Definition init1 : proc := set_state RUNNING (set_pid 1 (set_cwd (ptr 0) (set_ofile (replicate 3 (ptr 0) ++ replicate 13 0) proc0))).
Definition console1 : file :=
  {| fi_type := FD_INODE; fi_ref := 3; fi_readable := true; fi_writable := true; fi_pipe := 0; fi_ip := 1; fi_off := 0 |}.
Definition layer1 (s : lstate) (sb : superblock) : flayer lstate :=
  {| fl_fs := {| f_sub := s; f_inodes := [set_iref 1 zero_inode; set_iref 1 zero_inode]; f_sb := sb |};
     fl_files := console1 :: replicate 99 (set_fref 0 (set_ftype FD_NONE console1)); fl_pipes := ∅ |}.
Definition kern1 : kern (flayer lstate) :=
  {| k_phys := {| mem := ∅; use_lock := true; freelist := 0 |};
     k_fs := layer1 {| ls_bio := {| bufs := []; havedisk1 := true; disk := ∅; writes := [] |}; ls_log := boot_log |}
       {| sb_size := 100; sb_nblocks := 66; sb_ninodes := 8; sb_nlog := 30; sb_logstart := 2; sb_inodestart := 32; sb_bmapstart := 33 |};
     k_procs := [init1; proc0]; k_nextpid := 2; k_initproc := Some 0%nat |}.

Lemma kern1_counted : counted kern1.
Proof.
  split; [split|].
  - split.
    + reflexivity.
    + intros [|i] f; cbn [kern1 k_fs layer1 fl_files lookup list_lookup].
      * intros [= <-]. split; [vm_compute; reflexivity|done].
      * intros [-> _]%lookup_replicate. split; [|done]. unfold tfiles. change (file_refs (k_procs kern1)) with [ptr 0; ptr 0; ptr 0].
        rewrite !times_cons. by rewrite decide_False by (unfold ptr; lia).
    + by intros i ?%elem_of_nil.
    + assert (Ho : ∀ i, opens i (fl_files (k_fs kern1)) = if decide (i = 1%nat) then 1 else 0).
      { assert (Hn : ∀ i n, opens i (replicate n (set_fref 0 (set_ftype FD_NONE console1))) = 0) by (intros i n; induction n; done).
        intros i. specialize (Hn i 99%nat). unfold opens, kern1, k_fs, layer1, fl_files in *. rewrite filter_cons. case_decide as Hd.
        - destruct Hd as [_ <-]. rewrite decide_True by done. cbn [length]. lia.
        - rewrite decide_False; [done|]. intros ->. by apply Hd. }
      intros [|[|i]] n; [intros [= <-]; rewrite Ho; reflexivity..|done].
  - split; [|cbn; unfold NPROC; lia]. constructor; [|constructor; [|constructor]]; (split_and!; [done| |cbn; unfold ptr; lia]).
    + apply (bool_decide_unpack _). vm_compute. done.
    + apply (bool_decide_unpack _). vm_compute. done.
  - constructor; [by vm_compute|]. constructor; [done|constructor].
Qed.
Lemma kern1_tree : kern_tree kern1.
Proof.
  unfold kern_tree, alive. split.
  - cbn. unfold NPROC. lia.
  - exists 0%nat, init1. done.
  - intros [|[|i]] p [= <-]; done.
  - intros [|[|i]] p [= <-] Hs Hn; done.
  - intros [|[|i]] p j q [= <-] Hs; done.
Qed.

Definition kern2 : kern (flayer lstate) := with_procs (alter (set_state RUNNABLE) 0%nat) kern1.

Example references_counted_witness : fi_ref console1 = times (ptr 0) (file_refs (k_procs kern2)) ∧ kern_tree kern2.
Proof.
  destruct (references_counted (BO := log_ops 1) (LO := log_calls 1) (λ _, None) (λ _, None) ltac:(done) ltac:(done)
    kern1 kern2 (or_intror (conj kern1_counted kern1_tree))) as (Hf & _ & _ & Ht).
  - apply rtc_once. apply ks_proc. apply (ps_yield 0); [by exists init1|done].
  - split; [by apply (Hf 0%nat)|done].
Defined.
