(* ===== verification/KernelPages.v ===== *)
(** * The pages of the running kernel

    Over the pool of VmPool: in every state that the calls of proc.c and sysfile.c reach,
    each page of physical memory is on the free list, or a kernel stack, or in the address
    space of one process, or a pipe; and every process has the kernel mapped in the same
    way.  The logic follows the pages that a call has in its hands: [paged zf ds hs k] says
    that besides what the table of processes and the pipes own there are the address spaces
    [ds] and the pages [hs]; [zf] gives for each process addresses known to hold a zero,
    which is what [fetchstr] has checked when [exec] reads the strings again. *)

From S2P Require Import Prelude Bio Log LogLaws.
From S2P Require Import Mmu CString Kalloc Vm VmSpec VmUser VmAlloc VmGrow VmKernel VmCopy VmPool.
From S2P Require Import Proc Trap ProcMem ProcFork ProcState ProcTree.
From S2P Require Import Syscall Pipe Block Fs File Exec Sysfile FileSpec KernelRefs.

#[local] Opaque tables uframes memset memmove store32 load32.

(** ** Lists indexed by slots *)

Lemma imap_split {A B} (g : nat → A → list B) l i p : l !! i = Some p →
  ∃ rest, mjoin (imap g l) ≡ₚ g i p ++ rest ∧
    ∀ g' h, (∀ j x, j ≠ i → g' j x = g j x) → mjoin (imap g' (alter h i l)) ≡ₚ g' i (h p) ++ rest.
Proof.
  revert g i. induction l as [|x l IH]; intros g i; [done|]. destruct i as [|i]; cbn [lookup list_lookup].
  - intros [= ->]. exists (mjoin (imap (g ∘ S) l)). cbn [imap mjoin list_join]. split; [done|]. intros g' h Hg. cbn.
    rewrite (imap_ext (g' ∘ S) (g ∘ S)); [done|]. intros j y _. cbn. by apply Hg.
  - intros Hl. destruct (IH (g ∘ S) i Hl) as (rest & E & Hr). exists (g 0%nat x ++ rest). split.
    + cbn [imap mjoin list_join]. rewrite E. cbn. solve_Permutation.
    + intros g' h Hg. cbn [alter list_alter imap mjoin list_join]. rewrite (Hr (g' ∘ S) h) by (intros j y Hj; apply Hg; lia).
      rewrite Hg by lia. cbn. solve_Permutation.
Qed.

Section pages.
  Context `{KernelImage} `{ProcImage} {S : Type}.
  Context (pool : list Z) (Hnodup : NoDup pool) (Hpages : Forall is_page pool).

Abbreviation kern := (kern (flayer S)).
Abbreviation K := (M kern).

(** ** What the table and the pipes own *)

Definition slot_space (zf : nat → list Z) (i : nat) (p : proc) : list space :=
  if decide (p_state p = UNUSED) then [] else [Sp (p_pgdir p) 0 (zf i)].
Definition slot_stack (_ : nat) (p : proc) : list Z := if decide (p_state p = UNUSED) then [] else [p_kstack p].
Definition kdirs (zf : nat → list Z) (l : list proc) : list space := mjoin (imap (slot_space zf) l).
Definition kstacks (l : list proc) : list Z := mjoin (imap slot_stack l).
Definition kpipes (f : flayer S) : list Z := elements (dom (fl_pipes f)).

(** the memory of a process ends below the kernel, and its trap frame is in its kernel stack *)
Definition fits (p : proc) : Prop := p_state p ≠ UNUSED →
  0 ≤ p_sz p ≤ KERNBASE ∧ p_kstack p ≤ p_tf p ∧ p_tf p + TF_SIZE ≤ p_kstack p + PGSIZE.

Definition paged_at (zf : nat → list Z) (ds : list space) (hs : list Z) (l : list proc) (s : phys) (f : flayer S) : Prop :=
  holds pool (ds ++ kdirs zf l) (hs ++ kstacks l ++ kpipes f) s ∧ Forall fits l ∧ Forall (λ x, 0 ≤ fi_off x) (fl_files f).
Definition paged (zf : nat → list Z) (ds : list space) (hs : list Z) (k : kern) : Prop :=
  paged_at zf ds hs (k_procs k) (k_phys k) (k_fs k).

(** what matters of a slot *)
Definition pv (p : proc) : bool * Z * Z * Z * Z := (bool_decide (p_state p = UNUSED), p_pgdir p, p_kstack p, p_tf p, p_sz p).
Definition pview (l : list proc) : list (bool * Z * Z * Z * Z) := pv <$> l.

Lemma pv_eq p p' : pv p' = pv p → (p_state p' = UNUSED ↔ p_state p = UNUSED) ∧ p_pgdir p' = p_pgdir p ∧ p_kstack p' = p_kstack p ∧
  p_tf p' = p_tf p ∧ p_sz p' = p_sz p.
Proof. unfold pv. intros [= E -> -> -> ->]. split_and!; try done. repeat case_bool_decide; (done || tauto). Qed.

Lemma paged_pview zf ds hs l l' s f : pview l' = pview l → paged_at zf ds hs l s f → paged_at zf ds hs l' s f.
Proof.
  intros E (Hh & Hf & Ho). assert (Hj : ∀ j, pv <$> l' !! j = pv <$> l !! j).
  { intros j. rewrite <- !list_lookup_fmap. unfold pview in E. by rewrite E. }
  assert (Hi : ∀ {B} (g : nat → proc → list B), (∀ i p p', pv p' = pv p → g i p' = g i p) → imap g l' = imap g l).
  { intros B g Hg. apply list_eq. intros j. rewrite !list_lookup_imap. specialize (Hj j). destruct (l' !! j), (l !! j); try done.
    cbn [fmap option_fmap option_map] in *. apply (inj Some) in Hj. f_equal. by apply Hg. }
  split_and!; [| |done].
  - unfold kdirs, kstacks in *. rewrite !Hi; [done|..]; intros i p p' (E1 & E2 & E3 & E4 & E5)%pv_eq.
    + unfold slot_stack. rewrite E3. by repeat case_decide; tauto.
    + unfold slot_space. rewrite E2. by repeat case_decide; tauto.
  - rewrite Forall_lookup in Hf |- *. intros j p' Hl'. specialize (Hj j). rewrite Hl' in Hj. destruct (l !! j) as [p|] eqn:Hl; [|done].
    apply (inj Some) in Hj. destruct (pv_eq p p' Hj) as (E1 & E2 & E3 & E4 & E5). specialize (Hf j p Hl).
    unfold fits in *. rewrite E3, E4, E5, E1. done.
Qed.

(** one slot taken out of the table, and put back changed *)
Lemma slot_out zf ds hs l s f i p : paged_at zf ds hs l s f → l !! i = Some p →
  ∃ dr hr, holds pool (slot_space zf i p ++ ds ++ dr) (slot_stack i p ++ hs ++ hr ++ kpipes f) s ∧
    ∀ zf' h ds' hs' s' f', (∀ j, j ≠ i → zf' j = zf j) → fits (h p) → Forall (λ x, 0 ≤ fi_off x) (fl_files f') →
      holds pool (slot_space zf' i (h p) ++ ds' ++ dr) (slot_stack i (h p) ++ hs' ++ hr ++ kpipes f') s' →
      paged_at zf' ds' hs' (alter h i l) s' f'.
Proof.
  intros (Hh & Hf & Ho) Hl. destruct (imap_split (slot_space zf) l i p Hl) as (dr & Ed & Hd).
  destruct (imap_split slot_stack l i p Hl) as (hr & Eh & Hr). exists dr, hr. split.
  - eapply holds_perm; [| |reflexivity|exact Hh]; unfold kdirs, kstacks; rewrite ?Ed, ?Eh; solve_Permutation.
  - intros zf' h ds' hs' s' f' Hz Hfit Ho' Hh'. split_and!; [| |done].
    + eapply holds_perm; [| |reflexivity|exact Hh']; unfold kdirs, kstacks; [rewrite (Hd (slot_space zf') h)|rewrite (Hr slot_stack h)]; try done.
      * solve_Permutation.
      * intros j x Hj. unfold slot_space. by rewrite Hz.
      * solve_Permutation.
    + apply Forall_alter; [done|]. intros x Hx _. rewrite Hl in Hx. by injection Hx as <-.
Qed.

Lemma slot_space_live zf i p : p_state p ≠ UNUSED → slot_space zf i p = [Sp (p_pgdir p) 0 (zf i)].
Proof. intros Hp. unfold slot_space. by rewrite decide_False. Qed.
Lemma slot_stack_live i p : p_state p ≠ UNUSED → slot_stack i p = [p_kstack p].
Proof. intros Hp. unfold slot_stack. by rewrite decide_False. Qed.

(** what is known of zero bytes may be forgotten *)
Lemma paged_sub zf zf' ds hs k : (∀ j, zf' j ⊆ zf j) → paged zf ds hs k → paged zf' ds hs k.
Proof.
  intros Hz (Hh & Hf & Ho). split_and!; [|done..]. eapply holds_sub; [|exact Hh]. apply Forall2_app; [reflexivity|].
  unfold kdirs. generalize (k_procs k). intros l. assert (Hg : ∀ g g' : nat → proc → list space, (∀ i p, Forall2 sub_space (g' i p) (g i p)) →
    Forall2 sub_space (mjoin (imap g' l)) (mjoin (imap g l))).
  { induction l as [|p l IH]; intros g g' Hg; [constructor|]. rewrite !imap_cons. cbn [mjoin list_join]. apply Forall2_app; [done|]. apply IH. intros i q. apply Hg. }
  apply Hg. intros i p. unfold slot_space. case_decide; [done|]. constructor; [|done]. split_and!; [done|done|apply Hz].
Qed.

(** ** Parts of the state *)

Lemma paged_phys {A} (m : M phys A) zf ds1 ds hs1 hs (D : A → list space) (H1 : A → list Z) (P : A → Prop) k :
  (∀ ds hs, holds pool (ds1 ++ ds) (hs1 ++ hs) (k_phys k) → rets m (k_phys k) (λ a s', holds pool (D a ++ ds) (H1 a ++ hs) s' ∧ P a)) →
  paged zf (ds1 ++ ds) (hs1 ++ hs) k →
  rets (in_phys m) k (λ a k', paged zf (D a ++ ds) (H1 a ++ hs) k' ∧ P a ∧ k_procs k' = k_procs k ∧ k_fs k' = k_fs k).
Proof.
  intros Hm (Hh & Hf & Ho) a k'. unfold in_phys, zoom. destruct (m (k_phys k)) as [a' s'| | |] eqn:E; try done. intros [= <- <-].
  rewrite <- !app_assoc in Hh. destruct (Hm _ _ Hh _ _ E) as [Hh' HP]. split_and!; [|done|done|done]. split_and!; [|done|done]. kcbn. by rewrite <- !app_assoc.
Qed.

(** an operation on the address space of process [i] *)
Lemma paged_space {A} (m : M phys A) zf zs ds hs k i p (P : A → Prop) :
  k_procs k !! i = Some p → p_state p ≠ UNUSED → paged zf ds hs k →
  (∀ ds hs, holds pool (Sp (p_pgdir p) 0 (zf i) :: ds) hs (k_phys k) → rets m (k_phys k) (λ a s', holds pool (Sp (p_pgdir p) 0 zs :: ds) hs s' ∧ P a)) →
  rets (in_phys m) k (λ a k', paged (λ j, if decide (j = i) then zs else zf j) ds hs k' ∧ P a ∧ k_procs k' = k_procs k ∧ k_fs k' = k_fs k).
Proof.
  intros Hi Hl Hp Hm a k'. destruct (slot_out _ _ _ _ _ _ _ _ Hp Hi) as (dr & hr & Hh & Hback). pose proof Hp as (_ & Hf & Ho).
  rewrite slot_space_live, slot_stack_live in Hh by done. unfold in_phys, zoom. destruct (m (k_phys k)) as [a' s'| | |] eqn:E; try done. intros [= <- <-].
  destruct (Hm _ _ Hh _ _ E) as [Hh' HP]. split_and!; [|done|done|done]. unfold paged. kcbn. rewrite <- (list_alter_id id (k_procs k) i) by done.
  apply Hback; [intros j Hj; by rewrite decide_False|cbn; rewrite Forall_lookup in Hf; by apply (Hf i)|done|].
  cbn [id]. rewrite slot_space_live, slot_stack_live by done. by rewrite decide_True.
Qed.

(** ** Calls of the process [me] that leave everything owned as it was *)

Definition live_at (me : nat) (k : kern) : Prop := ∃ p, k_procs k !! me = Some p ∧ p_state p ≠ UNUSED.

Definition qt {A} (me : nat) (zf : nat → list Z) (m : K A) (P : A → Prop) : Prop :=
  ∀ ds hs k, paged zf ds hs k → live_at me k → rets m k (λ a k', paged zf ds hs k' ∧ live_at me k' ∧ P a).

Section rules.
  Context (me : nat) (zf : nat → list Z).

Lemma qt_bind {A B} (m : K A) (n : A → K B) P Q : qt me zf m P → (∀ a, P a → qt me zf (n a) Q) → qt me zf (m ≫= n) Q.
Proof.
  intros Hm Hn ds hs k Hk Hl. apply rets_bind. eapply rets_mono; [by apply Hm|]. intros a k1 (Hk1 & Hl1 & HP). by apply Hn.
Qed.
Lemma qt_any {A} (m : K A) P : qt me zf m P → qt me zf m (λ _, True).
Proof. intros Hm ds hs k Hk Hl. eapply rets_mono; [by apply Hm|]. by intros a k' (? & ? & _). Qed.
Lemma qt_ret {A} (a : A) (P : A → Prop) : P a → qt me zf (mret a) P.
Proof. intros HP ds hs k Hk Hl. apply rets_ret. by split_and!. Qed.
Lemma qt_panic {A} msg (P : A → Prop) : qt me zf (panic msg) P.
Proof. intros ds hs k Hk Hl. apply rets_panic. Qed.
Lemma qt_stop {A} (P : A → Prop) : qt me zf (λ _, NoFuel) P.
Proof. by intros ds hs k Hk Hl a k'. Qed.
Lemma qt_sleep {A} i c (P : A → Prop) : qt me zf (sleep i c) P.
Proof. by intros ds hs k Hk Hl a k'. Qed.

Lemma pview_live l l' i p : pview l' = pview l → l !! i = Some p → p_state p ≠ UNUSED → ∃ p', l' !! i = Some p' ∧ p_state p' ≠ UNUSED.
Proof.
  intros E Hi Hl. pose proof (f_equal (λ x, x !! i) E) as Ei. unfold pview in Ei. cbn beta in Ei. rewrite !list_lookup_fmap, Hi in Ei.
  destruct (l' !! i) as [p'|]; [|done]. apply (inj Some), pv_eq in Ei as [Es _]. exists p'. split; [done|]. by rewrite Es.
Qed.
(** only the table changes, and nothing in it that matters *)
Lemma qt_table {A} (m : K A) (P : A → Prop) :
  (∀ k, rets m k (λ a k', k_phys k' = k_phys k ∧ k_fs k' = k_fs k ∧ pview (k_procs k') = pview (k_procs k) ∧ P a)) → qt me zf m P.
Proof.
  intros Hm ds hs k Hk (p & Hp & Hl). eapply rets_mono; [apply Hm|]. intros a k' (E1 & E2 & E3 & HP). split_and!; [|by eapply pview_live|done].
  unfold paged. rewrite E1, E2. by eapply paged_pview.
Qed.
Lemma pview_alter f i l : (∀ p, l !! i = Some p → pv (f p) = pv p) → pview (alter f i l) = pview l.
Proof.
  intros Hf. apply list_eq. intros j. unfold pview. rewrite !list_lookup_fmap, list_lookup_alter. case_decide as Hd; [subst j|done].
  destruct (l !! i) as [p|]; [|done]. cbn [fmap option_fmap option_map]. by rewrite Hf.
Qed.
Lemma pview_wake c l : pview (imap (λ _, wake c) l) = pview l.
Proof.
  apply list_eq. intros j. unfold pview. rewrite !list_lookup_fmap, list_lookup_imap. destruct (l !! j) as [p|]; [|done].
  cbn [fmap option_fmap option_map]. f_equal. unfold wake. case_decide as Hd; [|done]. destruct Hd as [Hd _]. unfold pv. by rewrite Hd.
Qed.
Lemma qt_upd i f : (∀ p, pv (f p) = pv p) → qt me zf (upd i f) (λ _, True).
Proof. intros Hf. apply qt_table. intros k. apply rets_upd. split_and!; try done. kcbn. by apply pview_alter. Qed.
Lemma qt_wakeup c : qt me zf (wakeup c) (λ _, True).
Proof. apply qt_table. intros k. apply rets_modify. split_and!; try done. kcbn. apply pview_wake. Qed.

Lemma qt_proc_at : qt me zf (proc_at me) (λ p, 0 ≤ p_sz p ≤ KERNBASE).
Proof.
  intros ds hs k Hk Hl. apply rets_proc_at. intros p Hp. split_and!; [done|done|..]; destruct Hl as (q & Hq & Hs), Hk as (_ & Hf & _);
    rewrite Forall_lookup in Hf; specialize (Hf me p Hp); rewrite Hp in Hq; injection Hq as ->; by apply Hf.
Qed.
Lemma qt_proc_any i : qt me zf (proc_at i) (λ _, True).
Proof. apply qt_table. intros k. apply rets_proc_at. by intros p _. Qed.
Lemma qt_switchuvm i : qt me zf (switchuvm i) (λ _, True).
Proof. apply qt_table. intros k. apply rets_switchuvm. done. Qed.

Lemma qt_read {A} (g : phys → A) : qt me zf (in_phys (gets g)) (λ _, True).
Proof. intros ds hs k Hk Hl a k'. unfold in_phys, zoom. intros [= <- <-]. by split_and!. Qed.

(** ** The file layer *)

Definition fskeep {A} (m : M (flayer S) A) (P : A → Prop) : Prop :=
  ∀ f, Forall (λ x, 0 ≤ fi_off x) (fl_files f) → rets m f (λ a f', Forall (λ x, 0 ≤ fi_off x) (fl_files f') ∧ dom (fl_pipes f') = dom (fl_pipes f) ∧ P a).

Lemma qt_fs {A} (m : M (flayer S) A) P : fskeep m P → qt me zf (in_fs m) P.
Proof.
  intros Hm ds hs k (Hh & Hf & Ho) Hl a k'. unfold in_fs, zoom. destruct (m (k_fs k)) as [a' f'| | |] eqn:E; try done. intros [= <- <-].
  destruct (Hm _ Ho _ _ E) as (Ho' & Ed & HP). split_and!; [|done|done]. split_and!; [|done|done]. kcbn. unfold kpipes in *. by rewrite Ed.
Qed.
Lemma qt_fsys {A} (m : Z → nat → M (fs S) A) (P : A → Prop) : (∀ pid cwd s, rets (m pid cwd) s (λ a _, P a)) → qt me zf (fsys me m) P.
Proof.
  intros Hm. unfold fsys. eapply qt_bind; [apply qt_proc_at|]. intros p _. apply qt_fs. intros f Ho a f'. unfold zoom.
  destruct (m _ _ (fl_fs f)) as [a' x| | |] eqn:E; try done. intros [= <- <-]. split_and!; [done|done|]. by eapply Hm.
Qed.
Lemma fskeep_files_at f : fskeep (files_at f) (λ x, 0 ≤ fi_off x).
Proof.
  intros s Ho. unfold files_at. apply rets_bind, rets_gets. destruct (fl_files s !! f) as [x|] eqn:E; [|apply rets_panic]. apply rets_ret.
  split_and!; [done|done|]. rewrite Forall_lookup in Ho. by eapply Ho.
Qed.
Lemma fskeep_fupd f g : (∀ x, 0 ≤ fi_off x → 0 ≤ fi_off (g x)) → fskeep (fupd f g) (λ _, True).
Proof. intros Hg s Ho. apply rets_modify. split_and!; [|done|done]. apply Forall_alter; [done|]. intros x _. apply Hg. Qed.
Lemma fskeep_filealloc : fskeep filealloc (λ _, True).
Proof.
  intros s Ho. unfold filealloc. apply rets_bind, rets_gets. destruct (list_find _ _) as [[f ?]|]; [|by apply rets_ret].
  apply rets_bind. eapply rets_mono; [by apply (fskeep_fupd f)|]. intros [] s' Hs. by apply rets_ret.
Qed.
Lemma fskeep_filedup f : fskeep (filedup f) (λ _, True).
Proof.
  intros s Ho. unfold filedup. apply rets_bind. eapply rets_mono; [by apply fskeep_files_at|]. intros x s1 (Ho1 & E1 & _). destruct (_ <? 1); [apply rets_panic|].
  apply rets_bind. eapply rets_mono; [by apply fskeep_fupd|]. intros [] s' (Ho2 & E2 & _). apply rets_ret. split_and!; [done|congruence|done].
Qed.

(** ** Loads from user memory *)

Lemma pgrounddown_page va : is_u32 va → va < KERNBASE → ∃ i, PGROUNDDOWN va = i * PGSIZE ∧ 0 ≤ i < KERNBASE / PGSIZE.
Proof. intros Hva Hu. exists (va / PGSIZE). rewrite PGROUNDDOWN_mod by done. split; revert Hva Hu; mmu_consts; zdm. Qed.

Lemma qt_pgfault va : is_u32 va → va < KERNBASE → qt me zf (pgfault (Some me) va) (λ _, True).
Proof.
  intros Hva Hu ds hs k Hk (p & Hp & Hl). destruct (pgrounddown_page va Hva Hu) as (i & E & Hi). unfold pgfault. apply rets_bind, rets_proc_at.
  intros q Hq. rewrite Hp in Hq. injection Hq as <-. apply rets_bind. rewrite E. eapply rets_mono; [apply (paged_space _ zf (zf me) ds hs k me p (λ _, True)); try done|].
  { intros ds' hs' Hs. eapply rets_mono; [by apply pool_page_fault|]. done. }
  intros r k1 (Hk1 & _ & Ep & _). apply rets_bind, rets_switchuvm, rets_ret. split_and!; [|exists p; by rewrite Ep|done].
  eapply paged_sub; [|exact Hk1]. intros j. cbn. by case_decide; subst.
Qed.

(** the byte found, which is the one in memory *)
Lemma rets_uload8_now va ds hs k (Q : option Z → kern → Prop) : paged zf ds hs k → live_at me k →
  (∀ v, (v = Some 0 → is_u32 va → va < KERNBASE → paged (λ j, if decide (j = me) then va :: zf j else zf j) ds hs k) →
     (va ∈ zf me → v = Some 0) → Q v k) → rets (uload8_now me va) k Q.
Proof.
  intros Hk (p & Hp & Hl) HQ. unfold uload8_now. apply rets_bind, rets_proc_at. intros q Hq. rewrite Hp in Hq. injection Hq as <-.
  intros v k'. unfold in_phys, zoom. intros [= <- <-]. destruct (slot_out _ _ _ _ _ _ _ _ Hk Hp) as (dr & hr & Hh & Hback).
  rewrite slot_space_live, slot_stack_live in Hh by done. pose proof Hk as (_ & Hf & Ho). destruct k as [s f l n ip]. kcbn. apply HQ; kcbn.
  - intros Hv Hva Hu. unfold paged. kcbn. rewrite <- (list_alter_id id l me) by done.
    apply Hback; [intros j Hj; by rewrite decide_False|rewrite Forall_lookup in Hf; by apply (Hf me)|done|].
    cbn [id]. rewrite slot_space_live, slot_stack_live, decide_True by done. by apply holds_zero.
  - intros Hin. destruct Hh as (fl & _ & _ & [(_ & _ & Hz) _]%Forall_cons). rewrite Forall_forall in Hz. by apply Hz.
Qed.

Definition add_zero (z : Z) (j : nat) : list Z := if decide (j = me) then z :: zf j else zf j.

Lemma paged_drop z ds hs k : paged (add_zero z) ds hs k → paged zf ds hs k.
Proof. apply paged_sub. intros j. unfold add_zero. case_decide; set_solver. Qed.

Lemma rets_uload8 va ds hs k : is_u32 va → va < KERNBASE → paged zf ds hs k → live_at me k →
  rets (uload8 me va) k (λ b k', live_at me k' ∧ paged zf ds hs k' ∧ (b = 0 → paged (add_zero va) ds hs k') ∧ (va ∈ zf me → b = 0)).
Proof.
  intros Hva Hu Hk Hl. unfold uload8. apply rets_bind. eapply rets_uload8_now; [done|done|]. intros [b|] H1 H2.
  { apply rets_ret. split_and!; [done|done| |]; [intros ->; by apply H1|intros Hin; by injection (H2 Hin)]. }
  apply rets_bind. eapply rets_mono; [by apply qt_pgfault|]. intros r k1 (Hk1 & Hl1 & _). apply rets_bind. eapply rets_uload8_now; [done|done|].
  intros [b|] H3 H4; [|by intros a k']. apply rets_ret. split_and!; [done|done| |]; [intros ->; by apply H3|intros Hin; by injection (H4 Hin)].
Qed.
Lemma qt_uload8 va : is_u32 va → va < KERNBASE → qt me zf (uload8 me va) (λ _, True).
Proof. intros Hva Hu ds hs k Hk Hl. eapply rets_mono; [by apply rets_uload8|]. by intros b k' (? & ? & _). Qed.

Lemma qt_uload32 a : 0 ≤ a → a + 4 ≤ KERNBASE → qt me zf (uload32 me a) (λ _, True).
Proof.
  intros Ha Hb. unfold uload32. do 4 (eapply qt_bind; [apply qt_uload8; revert Hb; mmu_consts; lia|intros ? _]). by apply qt_ret.
Qed.
Lemma qt_uload n a : 0 ≤ a → a + Z.of_nat n ≤ KERNBASE → qt me zf (uload me n a) (λ bs, length bs = n).
Proof.
  revert a. induction n as [|n IH]; intros a Ha Hb; cbn [uload]; [by apply qt_ret|].
  eapply qt_bind; [apply qt_uload8; revert Hb; mmu_consts; lia|]. intros b _. rewrite u32_id by (revert Hb; mmu_consts; lia).
  eapply qt_bind; [apply IH; lia|]. intros bs <-. by apply qt_ret.
Qed.
Lemma qt_fetchint a : is_u32 a → qt me zf (fetchint me a) (λ r, ∀ v, r = Some v → -2 ^ 31 ≤ v < 2 ^ 31).
Proof.
  intros Ha. unfold fetchint. eapply qt_bind; [apply qt_proc_at|]. cbn beta. intros p Hp. destruct (_ || _) eqn:E; [by apply qt_ret|].
  apply orb_false_iff in E as [E1%Z.leb_gt E2%Z.ltb_ge]. rewrite u32_id in E2 by (revert Hp Ha; mmu_consts; lia).
  eapply qt_bind; [apply qt_uload32; [apply Ha|lia]|]. intros v _. apply qt_ret. intros ? [= <-]. apply i32_range.
Qed.

(** a string that was found has its end below [ep] *)
Lemma rets_fetchstr_loop n s ep pp ds hs k : 0 ≤ s → ep ≤ KERNBASE → 0 ≤ pp ≤ s → paged zf ds hs k → live_at me k →
  rets (fetchstr_loop n me s ep pp) k (λ r k', live_at me k' ∧ paged zf ds hs k' ∧
    ∀ len, r = Some len → ∃ z, s ≤ z < ep ∧ len = z - pp ∧ paged (add_zero z) ds hs k').
Proof.
  revert s k. induction n as [|n IH]; intros s k Hs He Hp Hk Hl; [done|]. cbn [fetchstr_loop]. destruct (Z.ltb_spec s ep) as [Hlt|]; [|by apply rets_ret].
  assert (is_u32 s ∧ s < KERNBASE) as [Hsu Hsk] by (revert He; mmu_consts; lia).
  apply rets_bind. eapply rets_mono; [by apply rets_uload8|]. intros b k1 (Hl1 & Hk1 & Hz & _). destruct (Z.eqb_spec b 0) as [->|].
  - apply rets_ret. split_and!; [done|done|]. intros len [= <-]. exists s. split_and!; [lia|lia| |by apply Hz]. apply i32_id. revert He. mmu_consts. lia.
  - rewrite u32_id by (revert He; mmu_consts; lia). eapply rets_mono; [apply (IH (s + 1)); [lia|lia|lia|done|done]|].
    intros r k2 (Hl2 & Hk2 & Hr). split_and!; [done|done|]. intros len Hlen. destruct (Hr len Hlen) as (z & Hzr & ? & ?). exists z. split_and!; [lia|lia|done|done].
Qed.
Lemma rets_fetchstr a ds hs k : 0 ≤ a → paged zf ds hs k → live_at me k →
  rets (fetchstr me a) k (λ r k', live_at me k' ∧ paged zf ds hs k' ∧
    ∀ p len, r = Some (p, len) → p = a ∧ 0 ≤ len ∧ a + len < KERNBASE ∧ paged (add_zero (a + len)) ds hs k').
Proof.
  intros Ha Hk Hl. unfold fetchstr. apply rets_bind. eapply rets_mono; [by apply qt_proc_at|]. intros p k1 (Hk1 & Hl1 & Hp).
  destruct (_ <=? a); [by apply rets_ret|]. apply rets_bind. eapply rets_mono; [apply rets_fetchstr_loop; [done|apply Hp|lia|done|done]|].
  intros r k2 (Hl2 & Hk2 & Hr). apply rets_ret. split_and!; [done|done|]. intros q len Hq. destruct r as [len'|]; [|done]. injection Hq as <- <-.
  destruct (Hr len' eq_refl) as (z & Hz & -> & Hz'). split_and!; [done|lia|lia|]. by replace (a + (z - a)) with z by lia.
Qed.
Lemma qt_fetchstr a : 0 ≤ a → qt me zf (fetchstr me a) (λ r, ∀ p len, r = Some (p, len) → 0 ≤ p ∧ 0 ≤ len ∧ p + len < KERNBASE).
Proof.
  intros Ha ds hs k Hk Hl. eapply rets_mono; [by apply rets_fetchstr|]. intros r k' (Hl' & Hk' & Hr). split_and!; [done|done|].
  intros p len E. destruct (Hr p len E) as (-> & ? & ? & _). lia.
Qed.

(** ** Arguments *)

Lemma qt_argint n : qt me zf (argint me n) (λ r, ∀ v, r = Some v → -2 ^ 31 ≤ v < 2 ^ 31).
Proof.
  unfold argint. eapply qt_bind; [apply qt_proc_at|]. intros p _. eapply qt_bind; [apply qt_read|]. intros esp _. apply qt_fetchint, u32_range.
Qed.
Lemma qt_argptr n size : size < 2 ^ 31 → qt me zf (argptr me n size) (λ r, ∀ a, r = Some a → is_u32 a ∧ 0 ≤ size ∧ a + size ≤ KERNBASE).
Proof.
  intros Hs. unfold argptr. eapply qt_bind; [apply qt_proc_at|]. cbn beta. intros p Hp. eapply qt_bind; [apply qt_argint|]. intros [i|] _; [|by apply qt_ret].
  destruct (_ || _) eqn:E; apply qt_ret; [done|]. intros a [= <-]. apply orb_false_iff in E as [[E1%Z.ltb_ge E2%Z.leb_gt]%orb_false_iff E3%Z.ltb_ge].
  pose proof (u32_range i) as Hi. split_and!; [done|done|]. rewrite (u32_id (u32 i + size)) in E3 by (revert Hp Hi; mmu_consts; lia). lia.
Qed.
Lemma qt_argpath n : qt me zf (argpath me n) (λ _, True).
Proof.
  unfold argpath, argstr. eapply qt_bind.
  - eapply qt_bind; [apply qt_argint|]. intros [a|] _; [apply qt_fetchstr; apply u32_range|]. by apply qt_ret.
  - cbn beta. intros [[q len]|] Hr; [|by apply qt_ret]. destruct (Hr q len eq_refl) as (? & ? & ?). eapply qt_bind; [apply qt_uload; lia|].
    intros bs _. by apply qt_ret.
Qed.
Lemma qt_argfd n : qt me zf (argfd me n) (λ _, True).
Proof.
  unfold argfd. eapply qt_bind; [apply qt_argint|]. intros [fd|] _; [|by apply qt_ret]. eapply qt_bind; [apply qt_proc_at|]. intros p _.
  destruct (_ || _); [by apply qt_ret|]. destruct (_ =? 0); by apply qt_ret.
Qed.
Lemma qt_fdalloc f : qt me zf (fdalloc me f) (λ _, True).
Proof.
  unfold fdalloc. eapply qt_bind; [apply qt_proc_at|]. intros p _. destruct (list_find _ _) as [[fd ?]|]; [|by apply qt_ret].
  eapply qt_bind; [by apply qt_upd|]. intros [] _. by apply qt_ret.
Qed.
Lemma qt_rw_args : qt me zf (rw_args me) (λ r, ∀ f p n, r = Some (f, p, n) → 0 ≤ p ∧ 0 ≤ n ∧ p + n ≤ KERNBASE).
Proof.
  unfold rw_args. eapply qt_bind; [apply qt_argfd|]. intros [[fd f]|] _; [|by apply qt_ret]. eapply qt_bind; [apply qt_argint|]. cbn beta.
  intros [n|] Hn; [|by apply qt_ret]. specialize (Hn n eq_refl). eapply qt_bind; [apply qt_argptr; lia|]. cbn beta.
  intros [a|] Ha; [|by apply qt_ret]. destruct (Ha a eq_refl) as (? & ? & ?). apply qt_ret. intros ? ? ? [= <- <- <-]. rewrite u32_id by done. revert H1. mmu_consts. lia.
Qed.

(** ** Pipes *)

Lemma qt_wakeup_all p cs : qt me zf (wakeup_all p cs) (λ _, True).
Proof. induction cs as [|c cs IH]; cbn [wakeup_all]; [by apply qt_ret|]. eapply qt_bind; [apply qt_wakeup|]. by intros [] _. Qed.

Lemma rets_wakeup_all p cs (k : kern) : rets (wakeup_all p cs) k (λ _ k', k_phys k' = k_phys k ∧ k_fs k' = k_fs k ∧ pview (k_procs k') = pview (k_procs k)).
Proof.
  revert k. induction cs as [|c cs IH]; intros k; cbn [wakeup_all]; [by apply rets_ret|]. apply rets_bind, rets_modify.
  eapply rets_mono; [apply IH|]. cbn beta. intros [] k' (E1 & E2 & E3). split_and!; [done|done|]. rewrite E3. kstate. apply pview_wake.
Qed.

Lemma qt_pipe {A} p (n : pipe → K A) Q :
  (∀ x ds hs k, paged zf ds hs k → live_at me k → fl_pipes (k_fs k) !! p = Some x → rets (n x) k (λ a k', paged zf ds hs k' ∧ live_at me k' ∧ Q a)) →
  qt me zf (x ← in_fs (pipe_at p); n x) Q.
Proof.
  intros Hn ds hs k Hk Hl. apply rets_bind. apply rets_fs_bind. intros l k1. unfold in_fs, zoom. intros [= <- <-].
  destruct k as [s f l i ip]. kcbn. destruct (fl_pipes f !! p) as [x|] eqn:E; [|by intros a k']. apply (rets_fs_ret x). by apply Hn.
Qed.

Lemma paged_fs ds ds' hs hs' f' (k : kern) : ds' ++ kdirs zf (k_procs k) ≡ₚ ds ++ kdirs zf (k_procs k) → hs' ++ kpipes f' ≡ₚ hs ++ kpipes (k_fs k) →
  fl_files f' = fl_files (k_fs k) → paged zf ds hs k → paged zf ds' hs' (Build_kern (k_phys k) f' (k_procs k) (k_nextpid k) (k_initproc k)).
Proof.
  intros Ed Eh Ef (Hh & Hf & Ho). split_and!; kcbn; [|done|by rewrite Ef]. eapply holds_perm; [exact Ed| |reflexivity|exact Hh].
  transitivity ((hs' ++ kpipes f') ++ kstacks (k_procs k)); [solve_Permutation|]. rewrite Eh. solve_Permutation.
Qed.

(** a pipe in use changes *)
Lemma rets_put_pipe p x y ds hs k : fl_pipes (k_fs k) !! p = Some x → paged zf ds hs k → live_at me k →
  rets (in_fs (put_pipe p y)) k (λ _ k', paged zf ds hs k' ∧ live_at me k' ∧ p ∈ dom (fl_pipes (k_fs k'))).
Proof.
  intros Hp Hk Hl [] k'. unfold in_fs, zoom, put_pipe. cbn. intros [= <-]. apply elem_of_dom_2 in Hp. split_and!; [|done|kcbn; cbn; set_solver].
  apply (paged_fs ds ds hs hs); [done| |done|done]. unfold kpipes. cbn. f_equiv. rewrite dom_insert_L. assert ({[p]} ∪ dom (fl_pipes (k_fs k)) = dom (fl_pipes (k_fs k))) as -> by set_solver. done.
Qed.
(** a page in hand becomes a pipe *)
Lemma rets_new_pipe p y ds hs k : paged zf ds (p :: hs) k → live_at me k →
  rets (in_fs (put_pipe p y)) k (λ _ k', paged zf ds hs k' ∧ live_at me k').
Proof.
  intros Hk Hl [] k'. unfold in_fs, zoom, put_pipe. cbn. intros [= <-]. split; [|done]. apply (paged_fs ds ds (p :: hs) hs); [done| |done|done].
  unfold kpipes. cbn. rewrite dom_insert_L, elements_union_singleton; [solve_Permutation|]. intros Hin.
  destruct Hk as ((fl & Hpl) & _). pose proof (pooled_nodup _ Hnodup _ _ _ _ Hpl) as Hn. apply NoDup_app in Hn as (_ & _ & [_ [_ Hn]]%NoDup_app).
  apply NoDup_app in Hn as (_ & Hd & _). apply (Hd p); [by left|]. apply elem_of_app. right. unfold kpipes. by apply elem_of_elements.
Qed.
(** a pipe is freed *)
Lemma rets_free_pipe p ds hs k : paged zf ds hs k → live_at me k → p ∈ dom (fl_pipes (k_fs k)) →
  rets (_ ← in_phys (kfree p); in_fs (modify (λ s, Build_flayer (fl_fs s) (fl_files s) (delete p (fl_pipes s))))) k
    (λ _ k', paged zf ds hs k' ∧ live_at me k').
Proof.
  intros (Hh & Hf & Ho) Hl Hp [] k' E. apply bind_Ret_inv in E as ([] & k1 & E1 & E2). revert E1 E2. unfold in_phys, in_fs, zoom.
  destruct (kfree p (k_phys k)) as [[] s'| | |] eqn:E; try done. intros [= <-] [= <-]. split; [|done]. split_and!; kcbn; [|done|done].
  assert (Ed : kpipes (k_fs k) ≡ₚ p :: elements (dom (fl_pipes (k_fs k)) ∖ {[p]})).
  { unfold kpipes. rewrite (union_difference_singleton_L p (dom (fl_pipes (k_fs k)))) at 1 by done. apply elements_union_singleton. set_solver. }
  eapply (pool_kfree pool Hnodup Hpages p); [|exact E]. eapply holds_perm; [reflexivity| |reflexivity|exact Hh]. rewrite Ed. unfold kpipes. cbn. rewrite dom_delete_L. solve_Permutation.
Qed.

Lemma qt_piperead_k p n : 0 ≤ n → qt me zf (piperead_k me p n) (λ r, Z.of_nat (length r.2) ≤ n).
Proof.
  intros Hn. unfold piperead_k. eapply qt_bind; [apply qt_proc_at|]. intros cur _. apply qt_pipe. intros x ds hs k Hk Hl Hx.
  assert (Hb : match piperead (p_killed cur) n x with (_, _, r, bs) => match r with Pret _ => Z.of_nat (length bs) ≤ n | Psleep _ => True end end).
  { assert (Hc : ∀ i y, (length (piperead_copy i y).1 ≤ i)%nat).
    { induction i as [|i IH]; intros y; cbn [piperead_copy]; [done|]. destruct (is_empty y); [cbn; lia|]. destruct (ring_get y) as [b z].
      specialize (IH z). destruct (piperead_copy i z). cbn in *. lia. }
    unfold piperead. destruct (is_empty x && writeopen x); [by destruct (p_killed cur)|]. specialize (Hc (Z.to_nat n) x). destruct (piperead_copy _ _). cbn in *. lia. }
  destruct (piperead (p_killed cur) n x) as [[[x' ws] r] bs]. apply rets_bind. eapply rets_mono; [by eapply rets_put_pipe|]. intros [] k1 (Hk1 & Hl1 & _).
  apply rets_bind. eapply rets_mono; [by apply qt_wakeup_all|]. intros [] k2 (Hk2 & Hl2 & _). destruct r; [|by intros a k']. by apply rets_ret.
Qed.
Lemma qt_pipewrite_k p bs : qt me zf (pipewrite_k me p bs) (λ _, True).
Proof.
  unfold pipewrite_k. eapply qt_bind; [apply qt_proc_at|]. intros cur _. apply qt_pipe. intros x ds hs k Hk Hl Hx.
  destruct (pipewrite _ _ _ _) as [[[x' ws] r] ?]. apply rets_bind. eapply rets_mono; [by eapply rets_put_pipe|]. intros [] k1 (Hk1 & Hl1 & _).
  apply rets_bind. eapply rets_mono; [by apply qt_wakeup_all|]. intros [] k2 (Hk2 & Hl2 & _). destruct r; [|by intros a k']. by apply rets_ret.
Qed.
Lemma qt_pipeclose_k p w : qt me zf (pipeclose_k p w) (λ _, True).
Proof.
  unfold pipeclose_k. apply qt_pipe. intros x ds hs k Hk Hl Hx. destruct (pipeclose w x) as [[x' ws] freed].
  apply rets_bind. eapply rets_mono; [by eapply rets_put_pipe|]. intros [] k1 (Hk1 & Hl1 & Hd1). apply rets_bind.
  pose proof (qt_wakeup_all p ws ds hs k1 Hk1 Hl1) as Hw. pose proof (rets_wakeup_all p ws k1) as Hw'. intros [] k2 E2.
  destruct (Hw _ _ E2) as (Hk2 & Hl2 & _), (Hw' _ _ E2) as (_ & Ef & _). rewrite <- Ef in Hd1. destruct freed; [|by apply rets_ret].
  eapply rets_mono; [by apply rets_free_pipe|]. by intros [] k3 [? ?].
Qed.
End rules.

Create HintDb qt.
#[local] Hint Resolve qt_panic qt_stop qt_sleep qt_proc_at qt_switchuvm qt_read qt_wakeup qt_wakeup_all qt_pgfault qt_uload8 qt_uload qt_fetchint
  qt_fetchstr qt_argint qt_argpath qt_argfd qt_fdalloc qt_rw_args qt_piperead_k qt_pipewrite_k qt_pipeclose_k fskeep_files_at fskeep_filealloc fskeep_filedup : qt.
#[local] Hint Extern 1 (qt _ _ (in_fs _) _) => apply qt_fs : qt.
#[local] Hint Extern 1 (fskeep (fupd _ _) _) => apply fskeep_fupd; done : qt.
#[local] Hint Extern 1 (qt _ _ (upd _ _) _) => apply qt_upd; done : qt.

Ltac qs := repeat first
  [ solve [eauto 3 with qt]
  | match goal with
    | |- qt _ _ (mret _) _ => apply qt_ret; done
    | |- qt _ _ (mbind _ _) _ => first [eapply qt_bind; [solve [eauto 3 with qt]|cbn beta; intros ? ?] | eapply (qt_bind _ _ _ _ (λ _, True)); [|intros ? _]]
    | |- qt _ _ (match ?x with _ => _ end) _ => destruct x
    | |- qt _ _ _ (λ _, True) => eapply qt_any; solve [eauto 3 with qt]
    end].

(** ** file.c *)

Section file.
  Context {BO : BufOps S} {LO : LogOps S}.
  Context (devsw_read : Z → option (nat → Z → M (fs S) (Z * list Z))).
  Context (devsw_write : Z → option (nat → list Z → M (fs S) Z)).
  (** a device returns no more bytes than it was asked for *)
  Context (Hdev : ∀ major f ip n s, devsw_read major = Some f → 0 ≤ n → rets (f ip n) s (λ r _, Z.of_nat (length r.2) ≤ n)).
  Context (me : nat) (zf : nat → list Z).

Lemma qt_fslog m : qt me zf (fslog me m) (λ _, True).
Proof. apply qt_fsys. intros pid cwd s. by apply rets_any. Qed.
Lemma qt_fsys_any {A} (m : Z → nat → M (fs S) A) : qt me zf (fsys me m) (λ _, True).
Proof. apply qt_fsys. intros pid cwd s. by apply rets_any. Qed.
Hint Resolve qt_fslog qt_fsys_any : qt.

Lemma qt_fileclose f : qt me zf (File.fileclose me f) (λ _, True).
Proof. unfold File.fileclose. qs. Qed.
Hint Resolve qt_fileclose : qt.

Lemma readi_loop_length fuel ip tot n off s : 0 ≤ off → tot ≤ n → rets (readi_loop fuel ip tot n off) s (λ bs _, Z.of_nat (length bs) ≤ n - tot).
Proof.
  revert tot off s. induction fuel as [|fuel IH]; intros tot off s Ho Ht; [done|]. cbn [readi_loop]. destruct (Z.ltb_spec tot n) as [Hlt|]; [|apply rets_ret; cbn; lia].
  apply rets_bind, rets_any. intros i s1. apply rets_bind, rets_any. intros bno s2. apply rets_bind, rets_any. intros bp s3. apply rets_bind, rets_any. intros data s4.
  apply rets_bind, rets_any. intros [] s5. set (m := Z.min _ _).
  assert (Hm : 0 < m ≤ n - tot) by (unfold m, BSIZE; pose proof (Z.mod_pos_bound off 512); lia).
  apply rets_bind. eapply rets_mono; [apply IH; lia|]. cbn beta. intros rest s6 Hr. apply rets_ret. rewrite length_app. unfold get_bytes. rewrite length_take. lia.
Qed.
Lemma readi_length ip off n s : 0 ≤ off → 0 ≤ n → rets (readi devsw_read ip off n) s (λ r _, Z.of_nat (length r.2) ≤ n).
Proof.
  intros Ho Hn. unfold readi. apply rets_bind, rets_any. intros i s1. destruct (_ =? T_DEV).
  { destruct (if _ && _ then _ else _) as [f|] eqn:E; [|by apply rets_ret]. destruct (_ && _); [|done]. by eapply Hdev. }
  destruct (_ || _) eqn:E; [by apply rets_ret|]. apply orb_false_iff in E as [E1%Z.ltb_ge E2%Z.ltb_ge].
  assert (Hu : u32 (off + n) ≤ off + n) by (unfold u32; apply Z.mod_le; lia).
  apply rets_bind. destruct (Z.ltb_spec (i_size i) (u32 (off + n))).
  - eapply rets_mono; [apply readi_loop_length; lia|]. cbn beta. intros bs s2 Hb. apply rets_ret. cbn. lia.
  - eapply rets_mono; [apply readi_loop_length; lia|]. cbn beta. intros bs s2 Hb. apply rets_ret. cbn. lia.
Qed.

Lemma qt_fileread f n : 0 ≤ n → qt me zf (fileread devsw_read me f n) (λ r, Z.of_nat (length r.2) ≤ n).
Proof.
  intros Hn. unfold fileread. eapply qt_bind; [apply qt_fs, fskeep_files_at|]. cbn beta. intros x Hx. destruct (negb _); [by apply qt_ret|].
  destruct (fi_type x); [qs|by apply qt_piperead_k|]. eapply qt_bind; [apply qt_fsys_any|]. intros [] _.
  eapply qt_bind; [apply (qt_fsys _ _ _ (λ r, Z.of_nat (length r.2) ≤ n)); intros pid cwd s|].
  { eapply rets_mono; [apply readi_length; [done|apply u32_range]|]. cbn beta. intros r s' Hr. unfold u32 in Hr. pose proof (Z.mod_le n (2 ^ 32)). lia. }
  intros [r bs] Hr. eapply (qt_bind _ _ _ _ (λ _, True)).
  { destruct (0 <? r); [|by apply qt_ret]. apply qt_fs, fskeep_fupd. intros y _. apply u32_range. }
  intros _ _. eapply qt_bind; [apply qt_fsys_any|]. intros [] _. by apply qt_ret.
Qed.

Lemma qt_filewrite f bs : qt me zf (filewrite devsw_write me f bs) (λ _, True).
Proof.
  assert (Hl : ∀ fuel ip bs i n, qt me zf (filewrite_loop devsw_write me fuel f ip bs i n) (λ _, True)).
  { induction fuel as [|fuel IH]; intros ip bs' i n; cbn [filewrite_loop]; [apply qt_stop|]. qs. apply qt_fs, fskeep_fupd. intros y _. apply u32_range. }
  unfold filewrite. qs.
Qed.

Lemma qt_pipealloc : qt me zf (pipealloc me) (λ _, True).
Proof.
  unfold pipealloc. eapply qt_bind; [apply qt_fs, fskeep_filealloc|]. intros [f0|] _; [|qs]. eapply qt_bind; [apply qt_fs, fskeep_filealloc|]. intros [f1|] _; [|qs].
  intros ds hs k Hk Hl. apply rets_bind.
  eapply rets_mono; [apply (paged_phys _ zf [] ds [] hs (λ _, []) (λ p, if decide (p = 0) then [] else [p]) (λ _, True)); [|exact Hk]|].
  { intros ds' hs' Hs. eapply rets_mono; [by apply pool_kalloc|]. intros p s' [_ [[-> Hs']|[Hp Hs']]]; [done|].
    rewrite decide_False by (by apply is_page_nonzero). done. }
  cbn beta. intros p k1 (Hk1 & _ & Ep & _). assert (Hl1 : live_at me k1) by (unfold live_at; by rewrite Ep). destruct (Z.eqb_spec p 0) as [->|Hp].
  { match goal with |- rets ?m _ _ => assert (Hq : qt me zf m (λ _, True)) by qs end. by apply Hq. }
  rewrite decide_False in Hk1 by done. apply rets_bind. eapply rets_mono; [by apply (qt_read me)|]. intros junk k2 (Hk2 & Hl2 & _).
  apply rets_bind. eapply rets_mono; [by apply (rets_new_pipe me)|]. cbn beta. intros [] k3 [Hk3 Hl3].
  match goal with |- rets ?m _ _ => assert (Hq : qt me zf m (λ _, True)) by qs end. by apply Hq.
Qed.
End file.

(** ** Stores to user memory *)

Definition no_zeros (_ : nat) : list Z := [].

Lemma store8_page p a b m : p ≤ a < p + PGSIZE → same_outside [p] m (store8 a b m).
Proof.
  intros Ha x Hx. rewrite load8_store8. rewrite decide_False; [done|]. intros ->. apply (Hx p); [by left|done].
Qed.

Lemma rets_ustore8_now me va b ds hs k : is_u32 va → va < KERNBASE → paged no_zeros ds hs k → live_at me k →
  rets (ustore8_now me va b) k (λ _ k', paged no_zeros ds hs k' ∧ live_at me k' ∧ True).
Proof.
  intros Hva Hu Hk (p & Hp & Hl). unfold ustore8_now. apply rets_bind, rets_proc_at. intros q Hq. rewrite Hp in Hq. injection Hq as <-.
  apply rets_bind. intros v k1. unfold in_phys, zoom. intros [= <- <-]. destruct (_ && _) eqn:E; [|apply rets_ret; split_and!; [by destruct k|by exists p|done]].
  apply andb_true_iff in E as [E _]. apply rets_bind. destruct k as [s f l n ip]. kcbn. eapply rets_mono; [apply (paged_space _ no_zeros [] ds hs _ me p (λ _, True)); try done|].
  { intros ds' hs' Hs. apply rets_modify. split; [|done]. eapply (pool_user pool Hnodup Hpages _ (p_pgdir p) 0 _ va); [exact Hs|done|done|done|].
    apply store8_page. pose proof (Z.mod_pos_bound va PGSIZE eq_refl). kcbn. lia. }
  cbn beta. intros [] k1 (Hk1 & _ & Ep & _). apply rets_ret. split_and!; [|exists p; by rewrite Ep|done]. eapply paged_sub; [|exact Hk1]. intros j x Hx. by apply elem_of_nil in Hx.
Qed.
Lemma qt_ustore8 me va b : is_u32 va → va < KERNBASE → qt me no_zeros (ustore8 me va b) (λ _, True).
Proof.
  intros Hva Hu. unfold ustore8. eapply (qt_bind _ _ _ _ (λ _, True)); [intros ds hs k Hk Hl; by apply rets_ustore8_now|]. intros [] _; [qs|].
  eapply qt_bind; [by apply qt_pgfault|]. intros _ _. eapply (qt_bind _ _ _ _ (λ _, True)); [intros ds hs k Hk Hl; by apply rets_ustore8_now|]. intros [] _; [qs|]. apply qt_stop.
Qed.
Lemma qt_ustore me a bs : 0 ≤ a → a + Z.of_nat (length bs) ≤ KERNBASE → qt me no_zeros (ustore me a bs) (λ _, True).
Proof.
  revert a. induction bs as [|b bs IH]; intros a Ha Hb; cbn [ustore length] in *; [by apply qt_ret|].
  eapply qt_bind; [apply qt_ustore8; revert Hb; mmu_consts; lia|]. intros [] _. rewrite u32_id by (revert Hb; mmu_consts; lia). apply IH; lia.
Qed.

(** ** exec: a new address space in hand *)

Lemma store_bytes_page p bs a m : p ≤ a → a + Z.of_nat (length bs) ≤ p + PGSIZE → same_outside [p] m (store_bytes a bs m).
Proof.
  revert a m. induction bs as [|b bs IH]; intros a m Ha Hb; cbn [store_bytes length] in *; [apply same_outside_refl|].
  eapply same_outside_trans; [apply (store8_page p a b); lia|]. apply IH; lia.
Qed.

Lemma pool_copyout fuel d n va bs ds held s : holds pool (Sp d n [] :: ds) held s → is_u32 va →
  rets (copyout_bytes fuel d va bs) s (λ _ s', holds pool (Sp d n [] :: ds) held s').
Proof.
  revert va bs s. induction fuel as [|fuel IH]; intros va bs s Hs Hva; [done|]. cbn [copyout_bytes].
  destruct (Z.ltb_spec 0 (Z.of_nat (length bs))) as [Hlen|]; [|by apply rets_ret].
  assert (Hv0 : is_u32 (PGROUNDDOWN va) ∧ va - PGROUNDDOWN va = va mod PGSIZE) by (rewrite PGROUNDDOWN_mod by done; revert Hva; mmu_consts; zdm).
  destruct Hv0 as [Hv0 Eo]. apply rets_bind. eapply rets_mono; [by apply (pool_uva2ka pool Hnodup Hpages _ _ _ _ _ _ _ Hs)|].
  intros pa ? [-> Hpa]. destruct (Z.eqb_spec pa 0) as [->|Hnz]; [by apply rets_ret|]. destruct Hpa as [|(Hu & Hb & ->)]; [done|].
  rewrite Eo. set (j := if _ <? _ then _ else _). pose proof (Z.mod_pos_bound va PGSIZE eq_refl) as Hm.
  assert (Hj : 0 ≤ j ≤ PGSIZE - va mod PGSIZE) by (unfold j; destruct (Z.ltb_spec (Z.of_nat (length bs)) (PGSIZE - va mod PGSIZE)); lia).
  apply rets_bind, rets_modify. apply IH; [|apply u32_range]. eapply (pool_user pool Hnodup Hpages _ d n [] (PGROUNDDOWN va)); [done..|].
  apply store_bytes_page; [lia|]. rewrite length_take. lia.
Qed.

Section exec.
  Context {BO : BufOps S} {LO : LogOps S}.
  Context (devsw_read : Z → option (nat → Z → M (fs S) (Z * list Z))).
  Context (Hdev : ∀ major f ip n s, devsw_read major = Some f → 0 ≤ n → rets (f ip n) s (λ r _, Z.of_nat (length r.2) ≤ n)).
  Context (me : nat) (zf : nat → list Z).

Hint Resolve qt_fslog qt_fsys_any : qt.

(** an operation on the space in hand *)
Lemma rets_new {A} (m : M phys A) d n (N : A → Z) (P : A → Prop) ds hs k :
  (∀ ds hs, holds pool (Sp d n [] :: ds) hs (k_phys k) → rets m (k_phys k) (λ a s', holds pool (Sp d (N a) [] :: ds) hs s' ∧ P a)) →
  paged zf (Sp d n [] :: ds) hs k → live_at me k →
  rets (in_phys m) k (λ a k', paged zf (Sp d (N a) [] :: ds) hs k' ∧ live_at me k' ∧ P a).
Proof.
  intros Hm Hk Hl. eapply rets_mono; [apply (paged_phys m zf [Sp d n []] ds [] hs (λ a, [Sp d (N a) []]) (λ _, []) P); [exact Hm|exact Hk]|].
  intros a k' (Hk' & HP & Ep & _). split_and!; [exact Hk'| |done]. unfold live_at. by rewrite Ep.
Qed.

Lemma rets_readi ip off n ds hs k : 0 ≤ off → 0 ≤ n → paged zf ds hs k → live_at me k →
  rets (readi_ip devsw_read me ip off n) k (λ r k', k_phys k' = k_phys k ∧ paged zf ds hs k' ∧ live_at me k' ∧ Z.of_nat (length r.2) ≤ n).
Proof.
  intros Ho Hn Hk Hl r k' E. assert (Hq : qt me zf (readi_ip devsw_read me ip off n) (λ r, Z.of_nat (length r.2) ≤ n)).
  { apply qt_fsys. intros pid cwd s. by apply readi_length. }
  destruct (Hq _ _ _ Hk Hl _ _ E) as (Hk' & Hl' & HP). split_and!; [|done..].
  revert r k' E Hk' Hl' HP. change (rets (readi_ip devsw_read me ip off n) k (λ r k', paged zf ds hs k' → live_at me k' → Z.of_nat (length r.2) ≤ n → k_phys k' = k_phys k)).
  unfold readi_ip, fsys. by krun.
Qed.

Lemma rets_load_pages fuel d addr n ip off sz i ds hs k : 0 ≤ addr → 0 ≤ i → addr + sz ≤ KERNBASE → grow_lo (addr + sz) ≤ n →
  paged zf (Sp d n [] :: ds) hs k → live_at me k →
  rets (load_pages devsw_read me fuel d addr ip off sz i) k (λ _ k', paged zf (Sp d n [] :: ds) hs k' ∧ live_at me k').
Proof.
  intros Ha. revert i k. induction fuel as [|fuel IH]; intros i k Hi Hs Hn Hk Hl; [done|]. cbn [load_pages].
  destruct (Z.ltb_spec i sz) as [Hlt|]; [|by apply rets_ret]. rewrite (u32_id (addr + i)) by (revert Hs; mmu_consts; lia).
  pose proof Hk as ((fl & Hp) & _). pose proof (pooled_focus pool Hnodup Hpages _ _ _ _ _ _ _ Hp) as Hok. pose proof Hp as (_ & _ & [(_ & L & _) _]%Forall_cons).
  cbn [sp_dir sp_low] in L. apply rets_bind. intros a k1. unfold in_phys at 1, zoom. rewrite walkpgdir_false. intros [= <- <-].
  assert (Ek : Build_kern (k_phys k) (k_fs k) (k_procs k) (k_nextpid k) (k_initproc k) = k) by (by destruct k). rewrite Ek.
  assert (Hv : is_u32 (addr + i) ∧ addr + i < KERNBASE) by (revert Hs; mmu_consts; lia). destruct Hv as [Hva Hu].
  assert (Hpb : pbit (pte (mem (k_phys k)) d (addr + i)) = true).
  { apply L; [done|done|]. revert Hn Hlt. unfold grow_lo. mmu_consts. zdm. }
  assert (Ev : ∀ a, pte_addr (mem (k_phys k)) d (addr + i) = Some a → load32 (mem (k_phys k)) a = pte (mem (k_phys k)) d (addr + i)) by (intros a E; unfold pte; by rewrite E).
  destruct (pte_addr (mem (k_phys k)) d (addr + i)) as [a|] eqn:Ea; [|by apply rets_panic]. cbn [from_option id]. destruct (a =? 0); [apply rets_panic|].
  apply rets_bind. intros v k1. unfold in_phys at 1, zoom. intros [= <- <-]. rewrite Ek, (Ev a eq_refl). set (j := if _ <? _ then _ else _).
  assert (Hj : 0 ≤ j ≤ PGSIZE) by (unfold j; destruct (Z.ltb_spec (sz - i) PGSIZE); lia || (mmu_consts; lia)).
  apply rets_bind. eapply rets_mono; [apply (rets_readi ip (u32 (off + i)) j); [apply u32_range|apply Hj|exact Hk|exact Hl]|].
  intros [r bs] k1 (Ep & Hk1 & Hl1 & Hb). cbn [snd] in Hb. apply rets_bind. eapply rets_mono; [apply (rets_new _ d n (λ _, n) (λ _, True)); [|exact Hk1|exact Hl1]|].
  { intros ds' hs' Hs'. apply rets_modify. split; [|done]. rewrite Ep in *. eapply (pool_user pool Hnodup Hpages _ d n [] (addr + i)); [done..|].
    apply store_bytes_page; [unfold tab; lia|unfold tab; lia]. }
  intros [] k2 (Hk2 & Hl2 & _). destruct (r =? j); [|by apply rets_ret]. by apply IH; [apply u32_range|..].
Qed.

(** growing the space in hand: all pages below the result are present *)
Lemma rets_new_alloc d ds hs k oldsz newsz : 0 ≤ oldsz ≤ KERNBASE → paged zf (Sp d (grow_lo oldsz) [] :: ds) hs k → live_at me k →
  rets (in_phys (allocuvm d oldsz newsz)) k (λ r k', paged zf (Sp d (if decide (r = 0) then 0 else grow_lo r) [] :: ds) hs k' ∧ live_at me k' ∧
    (r = 0 ∨ 0 ≤ r ≤ KERNBASE ∧ newsz ≤ r ∧ oldsz ≤ r)).
Proof.
  intros Ho. apply rets_new. intros ds' hs' Hs. eapply rets_mono; [apply (pool_allocuvm pool Hnodup Hpages _ _ _ _ _ _ newsz Hs Ho); lia|].
  assert (H0g : 0 ≤ grow_lo oldsz) by (revert Ho; unfold grow_lo; mmu_consts; zdm).
  intros r s' [[-> Hr]|(Hr1 & Hr2 & Hr3 & Hr)].
  - rewrite decide_True by done. split; [by eapply holds_low|by left].
  - rewrite decide_True in Hr by done. split; [|right; lia]. case_decide; [|done]. eapply holds_low; [|exact Hr]. unfold grow_lo in *. revert Hr1. mmu_consts. zdm.
Qed.

Lemma rets_load_program n ip d sz off ds hs k : 0 ≤ sz ≤ KERNBASE → paged zf (Sp d (grow_lo sz) [] :: ds) hs k → live_at me k →
  rets (load_program devsw_read me n ip d sz off) k (λ r k', live_at me k' ∧
    match r with Some sz => 0 ≤ sz ≤ KERNBASE ∧ paged zf (Sp d (grow_lo sz) [] :: ds) hs k' | None => ∃ j, paged zf (Sp d j [] :: ds) hs k' end).
Proof.
  revert sz off k. induction n as [|n IH]; intros sz off k Hsz Hk Hl; cbn [load_program]; [by apply rets_ret|].
  apply rets_bind. eapply rets_mono; [apply (rets_readi ip (u32 off)); [apply u32_range|done|exact Hk|exact Hl]|].
  intros [r b] k1 (_ & Hk1 & Hl1 & _). destruct (negb _); [apply rets_ret; eauto|]. set (ph := decode_proghdr b).
  assert (Hph : is_u32 (ph_vaddr ph) ∧ is_u32 (ph_filesz ph) ∧ is_u32 (ph_memsz ph)) by (split_and!; apply u32_range). destruct Hph as (Hv & Hf & Hm). clearbody ph.
  destruct (negb _); [by apply IH|]. destruct (Z.ltb_spec (ph_memsz ph) (ph_filesz ph)) as [|Hmf]; [apply rets_ret; eauto|].
  destruct (Z.ltb_spec (u32 (ph_vaddr ph + ph_memsz ph)) (ph_vaddr ph)) as [|Hw]; [apply rets_ret; eauto|].
  assert (Eu : u32 (ph_vaddr ph + ph_memsz ph) = ph_vaddr ph + ph_memsz ph) by (revert Hw Hv Hm; unfold u32, is_u32; zdm).
  apply rets_bind. eapply rets_mono; [by apply rets_new_alloc|]. rewrite Eu. intros sz' k2 (Hk2 & Hl2 & Hr). destruct (Z.eqb_spec sz' 0) as [->|Hnz]; [apply rets_ret; eauto|].
  destruct Hr as [|(Hr1 & Hr2 & Hr3)]; [done|]. rewrite decide_False in Hk2 by done. destruct (negb _); [apply rets_ret; eauto|].
  apply rets_bind. unfold load_segment. destruct (negb _); [apply rets_panic|]. eapply rets_mono; [apply (rets_load_pages _ d (ph_vaddr ph) (grow_lo sz')); [apply Hv|done|lia| |exact Hk2|exact Hl2]|].
  { apply grow_lo_mono. lia. }
  intros r' k3 [Hk3 Hl3]. destruct (r' <? 0); [apply rets_ret; eauto|]. by apply IH.
Qed.

(** ** The arguments of exec *)

(** the string at [a] has a known end *)
Definition ends (a : Z) : Prop := 0 ≤ a ∧ ∃ z, z ∈ zf me ∧ a ≤ z < KERNBASE.

Lemma rets_ustring fuel va z ds hs k : z ∈ zf me → 0 ≤ va ≤ z → z < KERNBASE → paged zf ds hs k → live_at me k →
  rets (ustring me fuel va) k (λ _ k', paged zf ds hs k' ∧ live_at me k').
Proof.
  intros Hz. revert va k. induction fuel as [|fuel IH]; intros va k Hva Hzk Hk Hl; [done|]. cbn [ustring].
  assert (is_u32 va ∧ va < KERNBASE) as [Hu Hv] by (revert Hzk; mmu_consts; lia).
  apply rets_bind. eapply rets_mono; [by apply rets_uload8|]. intros b k1 (Hl1 & Hk1 & _ & Hb). destruct (Z.eqb_spec b 0) as [|Hnz]; [by apply rets_ret|].
  assert (va ≠ z) by (intros ->; auto). rewrite u32_id by (revert Hzk; mmu_consts; lia).
  apply rets_bind. eapply rets_mono; [apply IH; [lia|done|done|done]|]. intros bs k2 [? ?]. by apply rets_ret.
Qed.

Lemma rets_push_args argv argc d n sp stack ds hs k : Forall ends argv → is_u32 sp → paged zf (Sp d n [] :: ds) hs k → live_at me k →
  rets (push_args me argv argc d sp stack) k (λ r k', paged zf (Sp d n [] :: ds) hs k' ∧ live_at me k').
Proof.
  revert argc sp stack k. induction argv as [|a argv IH]; intros argc sp stack k Ha Hsp Hk Hl; cbn [push_args]; [by apply rets_ret|].
  apply Forall_cons in Ha as [(Ha & z & Hz & Hza & Hzk) Hargv]. destruct (MAXARG <=? argc); [by apply rets_ret|].
  apply rets_bind. eapply rets_mono; [by apply qt_proc_at|]. intros p k1 (Hk1 & Hl1 & _). apply rets_bind. eapply rets_mono; [by apply (rets_ustring _ a z)|].
  intros str k2 [Hk2 Hl2]. set (sp' := Z.land _ _).
  assert (Hs' : is_u32 sp').
  { unfold sp'. change (u32 (Z.lnot 3)) with (2 ^ 32 - 2 ^ 2). unfold is_u32. split; [apply Z.land_nonneg; left; apply u32_range|].
    rewrite land_high by (done || apply u32_range). pose proof (u32_range (sp - (Z.of_nat (length str) + 1))) as Hr. unfold is_u32 in Hr. pose proof (Z.mod_pos_bound (u32 (sp - (Z.of_nat (length str) + 1))) (2 ^ 2)). lia. }
  apply rets_bind. eapply rets_mono; [apply (rets_new _ d n (λ _, n) (λ _, True)); [|exact Hk2|exact Hl2]|].
  { intros ds' hs' Hs. eapply rets_mono; [by apply pool_copyout|]. done. }
  intros r k3 (Hk3 & Hl3 & _). destruct (r <? 0); [by apply rets_ret|]. by apply IH.
Qed.

Lemma rets_exec_bad d n ip ds hs k : d ≠ 0 → paged zf (Sp d n [] :: ds) hs k → live_at me k →
  rets (exec_bad me d ip) k (λ _ k', paged zf ds hs k' ∧ live_at me k').
Proof.
  intros Hd Hk Hl. unfold exec_bad. rewrite (proj2 (Z.eqb_neq d 0) Hd). apply rets_bind.
  eapply rets_mono; [apply (paged_phys _ zf [Sp d n []] ds [] hs (λ _, []) (λ _, []) (λ _, True)); [|exact Hk]|].
  { intros ds' hs' Hs. eapply rets_mono; [by apply (pool_freevm pool Hnodup Hpages d n [])|]. done. }
  intros [] k1 (Hk1 & _ & Ep & _). assert (Hl1 : live_at me k1) by (unfold live_at; by rewrite Ep).
  match goal with |- rets ?m _ _ => assert (Hq : qt me zf m (λ _, True)) by qs end. eapply rets_mono; [by apply Hq|]. by intros r k2 (? & ? & _).
Qed.

Lemma rets_phys_at {A} (m : M phys A) (k : kern) Q :
  rets m (k_phys k) (λ a s, Q a (Build_kern s (k_fs k) (k_procs k) (k_nextpid k) (k_initproc k))) → rets (in_phys m) k Q.
Proof. intros Hm a k'. unfold in_phys, zoom. destruct (m (k_phys k)) as [a' s'| | |] eqn:E; try done. intros [= <- <-]. by apply Hm. Qed.

Lemma tf_write p o v s ds held : holds pool ds (p_kstack p :: held) s → fits p → p_state p ≠ UNUSED → 0 ≤ o → o + 4 ≤ TF_SIZE →
  rets (wr32 (p_tf p + o) v) s (λ _ s', holds pool ds (p_kstack p :: held) s').
Proof.
  intros Hs Hf Hl Ho Ho'. destruct (Hf Hl) as (_ & Ht1 & Ht2). apply (pool_on_mem pool Hnodup Hpages (store32 (p_tf p + o) v) (p_kstack p)); [done|by left|].
  apply same_outside_store32; lia.
Qed.

(** the new space takes the place of the old one *)
Lemma rets_commit elf path d n sz sp ds hs k : 0 ≤ n → 0 ≤ sz ≤ KERNBASE → paged zf (Sp d n [] :: ds) hs k → live_at me k →
  rets (_ ← upd me (λ p, set_name (safestrcpy_name (p_name p) (last_elem path path ++ [0])) p);
        p ← proc_at me;
        let oldpgdir := p_pgdir p in
        _ ← upd me (set_pgdir d);
        _ ← upd me (set_sz sz);
        _ ← in_phys (wr32 (p_tf p + TF_eip) (e_entry elf));
        _ ← in_phys (wr32 (p_tf p + TF_esp) sp);
        _ ← switchuvm me;
        _ ← in_phys (freevm oldpgdir);
        mret 0) k (λ _ k', paged no_zeros ds hs k' ∧ live_at me k').
Proof.
  intros Hn Hsz Hk Hl. apply rets_bind. eapply rets_mono; [by apply (qt_upd me zf me)|]. intros [] k1 (Hk1 & (p & Hp & Hlive) & _).
  apply rets_bind, rets_proc_at. intros q Hq. rewrite Hp in Hq. injection Hq as <-. cbn zeta. destruct (slot_out _ _ _ _ _ _ _ _ Hk1 Hp) as (dr & hr & Hh & Hback).
  rewrite slot_space_live, slot_stack_live in Hh by done. pose proof Hk1 as (_ & Hf & Ho). assert (Hfit : fits p) by (rewrite Forall_lookup in Hf; by eapply Hf).
  destruct k1 as [s f l i ip]. do 2 apply rets_bind, rets_upd. kstate. rewrite list_alter_alter_eq. cbn [k_phys k_fs k_procs] in *.
  apply rets_bind, rets_phys_at. kcbn. eapply rets_mono; [by apply (tf_write p _ _ _ _ _ Hh)|]. intros [] s1 H1. kcbn.
  apply rets_bind, rets_phys_at. kcbn. eapply rets_mono; [by apply (tf_write p _ _ _ _ _ H1)|]. intros [] s2 H2. kcbn.
  apply rets_bind, rets_switchuvm, rets_bind, rets_phys_at. kcbn. eapply rets_mono; [by apply (pool_freevm pool Hnodup Hpages (p_pgdir p) 0 (zf me))|]. intros [] s3 H3.
  apply rets_ret. kcbn. split.
  - eapply (paged_sub (λ j, if decide (j = me) then [] else zf j)); [intros j x Hx; by apply elem_of_nil in Hx|]. unfold paged. kcbn.
    apply Hback; [intros j Hj; by rewrite decide_False| |done|].
    + intros Hs. destruct (Hfit Hlive) as (_ & ? & ?). split; [exact Hsz|by split].
    + rewrite slot_space_live, slot_stack_live by done. rewrite decide_True by done. eapply (holds_low pool d n 0); [done|]. exact H3.
  - exists (set_sz sz (set_pgdir d p)). kcbn. by rewrite list_lookup_alter_eq, Hp.
Qed.

Lemma paged_no_zeros ds hs k : paged zf ds hs k → paged no_zeros ds hs k.
Proof. apply paged_sub. intros j x Hx. by apply elem_of_nil in Hx. Qed.

Lemma rets_exec_stack elf path argv d sz ds hs k : d ≠ 0 → 0 ≤ sz ≤ KERNBASE → Forall ends argv → paged zf (Sp d (grow_lo sz) [] :: ds) hs k → live_at me k →
  rets (exec_stack me elf path argv d sz) k (λ _ k', paged no_zeros ds hs k' ∧ live_at me k').
Proof.
  intros Hd Hsz Ha Hk Hl. unfold exec_stack. rewrite pgroundup_lo by done. cbn zeta.
  assert (Hbad : ∀ n k1, paged zf (Sp d n [] :: ds) hs k1 → live_at me k1 → rets (exec_bad me d None) k1 (λ _ k', paged no_zeros ds hs k' ∧ live_at me k')).
  { intros n k1 Hk1 Hl1. eapply rets_mono; [by eapply rets_exec_bad|]. intros r k' [? ?]. split; [by apply paged_no_zeros|done]. }
  assert (Hsz' : 0 ≤ grow_lo sz * PGSIZE ≤ KERNBASE ∧ grow_lo (grow_lo sz * PGSIZE) = grow_lo sz) by (revert Hsz; unfold grow_lo; mmu_consts; zdm).
  destruct Hsz' as [Hsz' El]. apply rets_bind. eapply rets_mono; [apply rets_new_alloc; [exact Hsz'|by rewrite El|done]|].
  intros r k1 (Hk1 & Hl1 & Hr). destruct (Z.eqb_spec r 0) as [->|Hnz]; [by eapply Hbad|]. destruct Hr as [|(Hr & Hr2 & _)]; [done|]. rewrite decide_False in Hk1 by done.
  rewrite u32_id in Hr2 by (revert Hsz'; mmu_consts; lia). apply rets_bind.
  eapply rets_mono; [apply (rets_new _ d (grow_lo r) (λ _, grow_lo r) (λ _, True)); [|exact Hk1|exact Hl1]|].
  { intros ds' hs' Hs. eapply rets_mono; [apply (pool_clearpteu pool Hnodup Hpages _ _ _ _ _ _ Hs); [apply u32_range|]|done].
    rewrite u32_id; revert Hr Hr2 Hsz'; mmu_consts; lia. }
  intros [] k2 (Hk2 & Hl2 & _). apply rets_bind. eapply rets_mono; [apply rets_push_args; [done| |exact Hk2|exact Hl2]; revert Hr; mmu_consts; lia|].
  intros [[sp ptrs]|] k3 [Hk3 Hl3]; [|by eapply Hbad]. apply rets_bind.
  eapply rets_mono; [apply (rets_new _ d (grow_lo r) (λ _, grow_lo r) (λ _, True)); [|exact Hk3|exact Hl3]|].
  { intros ds' hs' Hs. eapply rets_mono; [apply pool_copyout; [exact Hs|apply u32_range]|done]. }
  intros r4 k4 (Hk4 & Hl4 & _). destruct (r4 <? 0); [by eapply Hbad|]. eapply rets_commit; [|done|exact Hk4|done]. revert Hr. unfold grow_lo. mmu_consts. zdm.
Qed.

Lemma rets_exec path argv ds hs k : Forall ends argv → paged zf ds hs k → live_at me k →
  rets (exec devsw_read me path argv) k (λ _ k', paged no_zeros ds hs k' ∧ live_at me k').
Proof.
  intros Ha Hk Hl. unfold exec. apply rets_bind. eapply rets_mono; [by apply qt_fslog|]. intros [] k1 (Hk1 & Hl1 & _).
  apply rets_bind. eapply rets_mono; [by apply (qt_fsys_any me zf)|]. intros [ip|] k2 (Hk2 & Hl2 & _).
  2: { apply rets_bind. eapply rets_mono; [by apply qt_fslog|]. intros [] k3 (Hk3 & Hl3 & _). apply rets_ret. split; [by apply paged_no_zeros|done]. }
  apply rets_bind. eapply rets_mono; [by apply (qt_fsys_any me zf)|]. intros [] k3 (Hk3 & Hl3 & _).
  apply rets_bind. eapply rets_mono; [by apply (rets_readi ip 0)|]. intros [r b] k4 (_ & Hk4 & Hl4 & _).
  assert (Hbad0 : ∀ k', paged zf ds hs k' → live_at me k' → rets (exec_bad me 0 (Some ip)) k' (λ _ k', paged no_zeros ds hs k' ∧ live_at me k')).
  { intros k' Hk' Hl'. assert (Hq : qt me zf (exec_bad me 0 (Some ip)) (λ _, True)) by (unfold exec_bad; cbn [Z.eqb]; qs). eapply rets_mono; [by apply Hq|].
    intros a k'' (? & ? & _). split; [by apply paged_no_zeros|done]. }
  destruct (_ || _); [by apply Hbad0|]. apply rets_bind.
  eapply rets_mono; [apply (paged_phys _ zf [] ds [] hs (λ d, if decide (d = 0) then [] else [Sp d 0 []]) (λ _, []) (λ _, True)); [|exact Hk4]|].
  { intros ds' hs' Hs. eapply rets_mono; [by apply pool_setupkvm|]. intros d s' [[-> Hs']|[Hd Hs']]; [done|]. by rewrite decide_False. }
  intros d k5 (Hk5 & _ & Ep & _). assert (Hl5 : live_at me k5) by (unfold live_at; by rewrite Ep). destruct (Z.eqb_spec d 0) as [->|Hd]; [by apply Hbad0|].
  rewrite decide_False in Hk5 by done. apply rets_bind. eapply rets_mono; [by apply (rets_load_program _ ip d 0)|]. intros [sz|] k6 [Hl6 Hk6].
  - destruct Hk6 as [Hsz Hk6]. apply rets_bind. eapply rets_mono; [by apply (qt_fsys_any me zf)|]. intros [] k7 (Hk7 & Hl7 & _).
    apply rets_bind. eapply rets_mono; [by apply qt_fslog|]. intros [] k8 (Hk8 & Hl8 & _). by apply rets_exec_stack.
  - destruct Hk6 as [j Hk6]. eapply rets_mono; [by eapply rets_exec_bad|]. intros a k' [? ?]. split; [by apply paged_no_zeros|done].
Qed.
End exec.

(** ** sysfile.c *)

Section sysfile.
  Context {BO : BufOps S} {LO : LogOps S}.
  Context (devsw_read : Z → option (nat → Z → M (fs S) (Z * list Z))).
  Context (devsw_write : Z → option (nat → list Z → M (fs S) Z)).
  Context (Hdev : ∀ major f ip n s, devsw_read major = Some f → 0 ≤ n → rets (f ip n) s (λ r _, Z.of_nat (length r.2) ≤ n)).
  Context (me : nat).

Hint Resolve qt_fslog qt_fsys_any qt_fileclose qt_filewrite qt_pipealloc : qt.

Lemma ends_mono zf zf' a : (∀ j, zf j ⊆ zf' j) → ends me zf a → ends me zf' a.
Proof. intros Hz (Ha & z & Hin & Hr). split; [done|]. exists z. split; [by apply Hz|done]. Qed.

(** the strings that [exec_args] has found end below the kernel *)
Lemma rets_exec_args n uargv i zf ds hs k : paged zf ds hs k → live_at me k →
  rets (exec_args me n uargv i) k (λ r k', live_at me k' ∧ ∃ zf', paged zf' ds hs k' ∧ (∀ j, zf j ⊆ zf' j) ∧
    ∀ l, r = Some l → Forall (ends me zf') l).
Proof.
  revert i zf k. induction n as [|n IH]; intros i zf k Hk Hl; cbn [exec_args]; [apply rets_ret; split; [done|]; by exists zf|].
  apply rets_bind. eapply rets_mono; [by apply (qt_fetchint me zf); first apply u32_range|]. intros [uarg|] k1 (Hk1 & Hl1 & _).
  2: { apply rets_ret. split; [done|]. by exists zf. }
  destruct (uarg =? 0); [apply rets_ret; split; [done|]; exists zf; split_and!; [done|done|]; by intros l [= <-]|].
  apply rets_bind. eapply rets_mono; [apply (rets_fetchstr me zf (u32 uarg)); [apply u32_range|exact Hk1|exact Hl1]|].
  intros [[p len]|] k2 (Hl2 & Hk2 & Hr). 2: { apply rets_ret. split; [done|]. by exists zf. }
  destruct (Hr p len eq_refl) as (-> & Hlen & Hend & Hk2'). clear Hr Hk2.
  apply rets_bind. eapply rets_mono; [by apply (IH (i + 1))|]. intros rest k3 (Hl3 & zf' & Hk3 & Hsub & Hrest). apply rets_ret. split; [done|]. exists zf'.
  assert (Hsub' : ∀ j, zf j ⊆ zf' j). { intros j. etrans; [|apply Hsub]. unfold add_zero. case_decide; set_solver. }
  split_and!; [done|done|]. intros l Hl'. destruct rest as [rest|]; [|done]. injection Hl' as <-. constructor; [|by apply Hrest].
  split; [apply u32_range|]. exists (u32 uarg + len). split; [|lia]. apply (Hsub me). unfold add_zero. rewrite decide_True by done. by left.
Qed.

Lemma qt_sys_exec : qt me no_zeros (sys_exec devsw_read me) (λ _, True).
Proof.
  unfold sys_exec. eapply qt_bind; [apply qt_argpath|]. intros [path|] _; [|qs]. eapply qt_bind; [apply qt_argint|]. intros [uargv|] _; [|qs].
  intros ds hs k Hk Hl. apply rets_bind. eapply rets_mono; [by apply rets_exec_args|]. intros [argv|] k1 (Hl1 & zf' & Hk1 & _ & Ha).
  - eapply rets_mono; [by apply (rets_exec devsw_read Hdev me zf'); first by apply Ha|]. by intros r k' [? ?].
  - apply rets_ret. split_and!; [|done|done]. by eapply paged_no_zeros.
Qed.

Lemma qt_sys_read : qt me no_zeros (sys_read devsw_read me) (λ _, True).
Proof.
  unfold sys_read. eapply qt_bind; [apply qt_rw_args|]. cbn beta. intros [[[f p] n]|] Hr; [|qs]. destruct (Hr f p n eq_refl) as (? & ? & ?).
  eapply qt_bind; [by apply qt_fileread|]. cbn beta. intros [r bs] Hb. cbn [snd] in Hb. eapply qt_bind; [apply qt_ustore; lia|]. intros [] _. by apply qt_ret.
Qed.
Lemma qt_sys_write : qt me no_zeros (sys_write devsw_write me) (λ _, True).
Proof.
  unfold sys_write. eapply qt_bind; [apply qt_rw_args|]. cbn beta. intros [[[f p] n]|] Hr; [|qs]. destruct (Hr f p n eq_refl) as (? & ? & ?).
  eapply qt_bind; [apply qt_uload; lia|]. intros bs _. apply qt_filewrite.
Qed.
Lemma qt_store_stat a st : 0 ≤ a → a + STAT_SIZE ≤ KERNBASE → qt me no_zeros (store_stat me a st) (λ _, True).
Proof.
  intros Ha Hb. unfold STAT_SIZE in Hb. assert (Hu : ∀ o, 0 ≤ o ≤ 16 → u32 (a + o) = a + o) by (intros o Ho; rewrite u32_id; revert Hb; mmu_consts; lia).
  unfold store_stat. rewrite !Hu by lia. do 4 (eapply qt_bind; [apply qt_ustore; cbn; lia|intros [] _]). apply qt_ustore; cbn; lia.
Qed.
Lemma qt_sys_fstat : qt me no_zeros (sys_fstat me) (λ _, True).
Proof.
  unfold sys_fstat. eapply qt_bind; [apply qt_argfd|]. intros [[fd f]|] _; [|qs]. eapply qt_bind; [by apply qt_argptr|]. cbn beta. intros [p|] Hp; [|qs].
  destruct (Hp p eq_refl) as (Hu & _ & ?). rewrite u32_id by done. eapply (qt_bind _ _ _ _ (λ _, True)); [unfold filestat; qs|]. intros [st|] _; [|qs].
  eapply qt_bind; [apply qt_store_stat; [apply Hu|done]|]. intros [] _. by apply qt_ret.
Qed.
Lemma qt_sys_pipe : qt me no_zeros (sys_pipe me) (λ _, True).
Proof.
  unfold sys_pipe, clear_fd. eapply qt_bind; [by apply qt_argptr|]. cbn beta. intros [a|] Ha; [|qs]. destruct (Ha a eq_refl) as (Hu & _ & Hb).
  eapply qt_bind; [apply qt_pipealloc|]. intros [[rf wf]|] _; [|qs]. eapply qt_bind; [apply qt_fdalloc|]. intros [fd0|] _; [|qs].
  eapply qt_bind; [apply qt_fdalloc|]. intros [fd1|] _; [|qs]. rewrite !u32_id by (revert Hu Hb; mmu_consts; lia).
  do 2 (eapply qt_bind; [apply qt_ustore; cbn; unfold is_u32 in Hu; lia|intros [] _]). by apply qt_ret.
Qed.

Lemma qt_sysfile num m : sysfile devsw_read devsw_write me num = Some m → qt me no_zeros m (λ _, True).
Proof.
  assert (Hdir : ∀ dp, qt me no_zeros (isdirempty devsw_read me dp) (λ _, True)).
  { intros dp. assert (Hl : ∀ n off, qt me no_zeros (isdirempty_loop devsw_read me n dp off) (λ _, True)) by (induction n as [|n IH]; intros; cbn [isdirempty_loop]; qs).
    unfold isdirempty. qs. }
  assert (Hcr : ∀ path type major minor, qt me no_zeros (create devsw_read devsw_write me path type major minor) (λ _, True)) by (intros; unfold create; qs).
  unfold sysfile. repeat (case_match; [simplify_eq|]); intros; simplify_eq.
  all: eauto using qt_sys_exec, qt_sys_read, qt_sys_write, qt_sys_fstat, qt_sys_pipe.
  all: unfold sys_dup, sys_open, sys_mknod, sys_unlink, sys_link, sys_mkdir, sys_close, sys_chdir, link_bad, unlink_bad, open_inode, created, clear_fd; qs.
Qed.
End sysfile.

(** ** proc.c *)

Section proc.
  Context {BO : BufOps S} {LO : LogOps S}.
  Context (devsw_read : Z → option (nat → Z → M (fs S) (Z * list Z))).
  Context (devsw_write : Z → option (nat → list Z → M (fs S) Z)).
  Context (Hdev : ∀ major f ip n s, devsw_read major = Some f → 0 ≤ n → rets (f ip n) s (λ r _, Z.of_nat (length r.2) ≤ n)).

#[local] Instance page_ops : FileOps (flayer S) := layer_ops devsw_read.

(** everything is owned by the table or a pipe *)
Definition pages_ok (k : kern) : Prop := paged no_zeros [] [] k.

Lemma fskeep_layer {A} (m : M (fs S) A) : fskeep (in_layer m) (λ _, True).
Proof. intros f Ho a f'. unfold in_layer, zoom. destruct (m (fl_fs f)) as [a' x| | |]; try done. intros [= <- <-]. by split_and!. Qed.
Lemma qt_layer {A} me zf (m : M (fs S) A) : qt me zf (in_fs (in_layer m)) (λ _, True).
Proof. apply qt_fs, fskeep_layer. Qed.

(** a slot in use stays in use *)
Lemma qt_set_state me zf v : v ≠ UNUSED → qt me zf (upd me (set_state v)) (λ _, True).
Proof.
  intros Hv ds hs k Hk (p & Hp & Hl). apply rets_upd.
  assert (E : pview (alter (set_state v) me (k_procs k)) = pview (k_procs k)).
  { apply pview_alter. intros q Hq. rewrite Hp in Hq. injection Hq as <-. unfold pv. cbn. by rewrite !bool_decide_eq_false_2. }
  split_and!; [unfold paged; by eapply paged_pview|by eapply pview_live|done].
Qed.

Lemma qt_reparent me zf n i who init : qt me zf (reparent_loop n i who init) (λ _, True).
Proof.
  revert i. induction n as [|n IH]; intros i; cbn [reparent_loop]; [by apply qt_ret|]. eapply qt_bind; [apply qt_proc_any|]. intros p _.
  eapply (qt_bind _ _ _ _ (λ _, True)); [|intros [] _; apply IH]. case_decide; [|by apply qt_ret]. eapply qt_bind; [by apply qt_upd|]. intros [] _.
  case_decide; [apply qt_wakeup|by apply qt_ret].
Qed.
Lemma qt_exit me zf : qt me zf (exit me) (λ _, True).
Proof.
  unfold exit. eapply (qt_bind _ _ _ _ (λ _, True)); [by apply qt_table; intros k; apply rets_gets|]. intros init _. case_decide; [apply qt_panic|].
  assert (Hc : ∀ n fd, qt me zf (close_files n fd me) (λ _, True)).
  { induction n as [|n IH]; intros fd; cbn [close_files]; [by apply qt_ret|]. eapply qt_bind; [apply qt_proc_at|]. intros cur _.
    eapply (qt_bind _ _ _ _ (λ _, True)); [|intros [] _; apply IH]. destruct (_ =? 0); [by apply qt_ret|].
    eapply qt_bind; [apply (qt_fileclose me zf)|]. intros [] _. by apply qt_upd. }
  eapply qt_bind; [apply Hc|]. intros [] _. eapply qt_bind; [apply qt_proc_at|]. intros cur _. do 3 (eapply qt_bind; [apply qt_layer|intros [] _]).
  eapply qt_bind; [by apply qt_upd|]. intros [] _. eapply qt_bind; [apply qt_proc_at|]. intros cur' _. eapply qt_bind; [apply qt_wakeup|]. intros [] _.
  eapply qt_bind; [apply qt_reparent|]. intros [] _. by apply qt_set_state.
Qed.

(** *** wait gives back the stack and the address space of the child *)
Lemma wait_paged me k : pages_ok k → rets (wait me) k (λ _ k', pages_ok k').
Proof.
  intros Hk. unfold wait. apply rets_bind, rets_gets, rets_bind, rets_proc_at. intros cur _. destruct (find_slot _ (k_procs k)) as [i|] eqn:E.
  2: { destruct (_ || _); [by apply rets_ret|]. by intros a k'. }
  destruct (find_slot_Some _ _ _ E) as (p & Hi & Hz & _). apply bool_decide_eq_true in Hz as [_ Hz]. assert (Hl : p_state p ≠ UNUSED) by congruence.
  destruct (slot_out _ _ _ _ _ _ _ _ Hk Hi) as (dr & hr & Hh & Hback). rewrite slot_space_live, slot_stack_live in Hh by done. pose proof Hk as (_ & _ & Ho).
  apply rets_bind, rets_proc_at. intros q Hq. rewrite Hi in Hq. injection Hq as <-. destruct k as [s f l n ip]. cbn [k_phys k_fs k_procs] in *.
  apply rets_bind, rets_phys_at. kcbn. eapply rets_mono; [by apply (pool_kfree pool Hnodup Hpages)|]. intros [] s1 H1. kcbn. apply rets_bind, rets_upd. kstate.
  apply rets_bind, rets_phys_at. kcbn. eapply rets_mono; [by apply (pool_freevm pool Hnodup Hpages (p_pgdir p) 0 [])|]. intros [] s2 H2. kcbn.
  do 5 (apply rets_bind, rets_upd; kstate; rewrite list_alter_alter_eq). apply rets_ret. unfold pages_ok, paged. kcbn. by apply Hback.
Qed.

(** *** sbrk *)
Lemma paged_set_sz me v k : 0 ≤ v ≤ KERNBASE → pages_ok k → pages_ok (with_procs (alter (set_sz v) me) k).
Proof.
  intros Hv Hk. destruct (k_procs k !! me) as [p|] eqn:Hp.
  2: { eapply paged_pview; [|exact Hk]. kcbn. apply pview_alter. intros p Hp'. congruence. }
  destruct (slot_out _ _ _ _ _ _ _ _ Hk Hp) as (dr & hr & Hh & Hback). pose proof Hk as (_ & Hf & Ho). rewrite Forall_lookup in Hf. specialize (Hf _ _ Hp).
  apply Hback; [done| |done|exact Hh]. intros Hl. destruct (Hf Hl) as (_ & ? & ?). by split.
Qed.
Lemma growproc_paged me n k : live_at me k → pages_ok k → rets (growproc me n) k (λ _ k', pages_ok k').
Proof.
  intros (p & Hp & Hl) Hk. pose proof Hk as (_ & Hf & _). rewrite Forall_lookup in Hf. destruct (Hf _ _ Hp Hl) as (Hsz & _).
  assert (Hend : ∀ v k1, 0 ≤ v ≤ KERNBASE → pages_ok k1 → rets (_ ← upd me (set_sz v); _ ← switchuvm me; mret 0) k1 (λ _ k', pages_ok k')).
  { intros v k1 Hv Hk1. apply rets_bind, rets_upd, rets_bind, rets_switchuvm, rets_ret. by apply paged_set_sz. }
  assert (Hgo : ∀ m, (∀ ds hs, holds pool (Sp (p_pgdir p) 0 [] :: ds) hs (k_phys k) →
      rets m (k_phys k) (λ r s', holds pool (Sp (p_pgdir p) 0 [] :: ds) hs s' ∧ 0 ≤ r ≤ KERNBASE)) →
    rets (sz' ← in_phys m; if sz' =? 0 then mret (-1) else _ ← upd me (set_sz sz'); _ ← switchuvm me; mret 0) k (λ _ k', pages_ok k')).
  { intros m Hm. apply rets_bind. eapply rets_mono; [by apply (paged_space m no_zeros [] [] [] k me p (λ r, 0 ≤ r ≤ KERNBASE))|]. intros r k1 (Hk1 & Hr & _).
    assert (pages_ok k1) by (eapply paged_sub; [|exact Hk1]; intros j x Hx; by apply elem_of_nil in Hx). destruct (r =? 0); [by apply rets_ret|]. by apply Hend. }
  unfold growproc. apply rets_bind, rets_proc_at. intros q Hq. rewrite Hp in Hq. injection Hq as <-. cbn zeta. destruct (0 <? n); [|destruct (n <? 0); [|by apply Hend]].
  - apply Hgo. intros ds hs Hs. assert (0 ≤ grow_lo (p_sz p)) by (revert Hsz; unfold grow_lo; mmu_consts; zdm).
    eapply rets_mono; [by apply (pool_allocuvm pool Hnodup Hpages _ _ _ _ _ _ (u32 (p_sz p + n)) Hs)|].
    intros r s' [[-> Hr]|(Hr & _ & _ & Hr')]; [split; [done|by mmu_consts]|]. split; [|done]. case_decide as Hd; [|done]. eapply holds_low; [|exact Hr'].
    unfold grow_lo. revert Hr. mmu_consts. zdm.
  - apply Hgo. intros ds hs Hs. pose proof (u32_range (p_sz p + n)) as Hu. eapply rets_mono; [apply (pool_dealloc pool Hnodup Hpages _ _ _ _ _ (p_sz p) (u32 (p_sz p + n)) Hs); [apply Hu|apply Hsz]|].
    intros r s' [-> Hr]. split; [|unfold is_u32 in Hu; lia]. eapply holds_low; [|exact Hr]. unfold grow_lo, is_u32 in *. mmu_consts. zdm.
Qed.

(** *** a new process *)

(** [allocproc] finds an unused slot and takes a page for its stack; [dr] and [hr] are owned
    by the other slots *)
Definition allotted (k : kern) (fl : list Z) (i : nat) (k' : kern) : Prop :=
  ∃ p q dr hr fl', k_procs k !! i = Some p ∧ p_state p = UNUSED ∧ k_procs k' = alter (embryo (k_nextpid k) q) i (k_procs k) ∧ k_fs k' = k_fs k ∧
    is_page q ∧ pooled pool dr (q :: hr ++ kpipes (k_fs k)) (k_phys k') fl' ∧ (length fl ≤ Datatypes.S (length fl'))%nat ∧
    ∀ h s' f', fits (h p) → Forall (λ x, 0 ≤ fi_off x) (fl_files f') → dom (fl_pipes f') = dom (fl_pipes (k_fs k)) →
      holds pool (slot_space no_zeros i (h p) ++ dr) (slot_stack i (h p) ++ hr ++ kpipes (k_fs k)) s' →
      paged_at no_zeros [] [] (alter h i (k_procs k)) s' f'.

Lemma rets_allocproc k fl : pages_ok k → pooled pool (kdirs no_zeros (k_procs k)) (kstacks (k_procs k) ++ kpipes (k_fs k)) (k_phys k) fl →
  rets allocproc k (λ r k', match r with None => pages_ok k' | Some i => allotted k fl i k' end).
Proof.
  intros Hk Hp. destruct k as [s f l n ip]. destruct (find_slot is_unused l) as [i|] eqn:E.
  2: { intros r k'. rewrite allocproc_full by done. by intros [= <- <-]. }
  destruct (find_slot_Some _ _ _ E) as (p & Hi & Hu & _). apply bool_decide_eq_true in Hu. cbn [k_phys k_fs k_procs k_nextpid] in *.
  destruct (slot_out _ _ _ _ _ _ _ _ Hk Hi) as (dr & hr & Hh & Hback). pose proof Hk as (_ & _ & Ho). pose proof Hp as (Hkm & Hperm & Hok).
  assert (Es : slot_space no_zeros i p = [] ∧ slot_stack i p = []) by (unfold slot_space, slot_stack; by rewrite !decide_True). destruct Es as [Es1 Es2].
  rewrite Es1, Es2 in Hh. destruct fl as [|q fl].
  - intros r k'. rewrite (allocproc_nomem s f l n ip i) by done. intros [= <- <-]. unfold pages_ok, paged. kcbn.
    apply Hback; [done|intros Hs; by destruct Hs|done|]. unfold slot_space, slot_stack. by rewrite !decide_True.
  - destruct (allocproc_ok s f l n ip i q fl E Hkm) as (s' & Ea & Hkm' & Hq & _ & Hs). intros r k'. rewrite Ea. intros [= <- <-].
    exists p, q, dr, hr, fl. cbn [k_phys k_fs k_procs k_nextpid]. split_and!; try done.
    + destruct Hh as (fl0 & Hp0). rewrite (kmem_unique s fl0 (q :: fl)) in Hp0 by (done || apply Hp0).
      apply (pooled_step pool Hnodup Hpages [] [] dr (hr ++ kpipes f) (q :: hr ++ kpipes f) s s' (q :: fl) fl [q]); [done|done|set_solver|done| |done].
      cbn. solve_Permutation.
    + intros h s2 f' Hf Ho' Ed Hh'. apply Hback; [done|done|done|]. unfold kpipes in *. by rewrite Ed.
Qed.

Lemma rets_fs_at {A} (m : M (flayer S) A) P (k : kern) (Q : A → kern → Prop) : fskeep m P → Forall (λ x, 0 ≤ fi_off x) (fl_files (k_fs k)) →
  (∀ a f', Forall (λ x, 0 ≤ fi_off x) (fl_files f') → dom (fl_pipes f') = dom (fl_pipes (k_fs k)) → Q a (Build_kern (k_phys k) f' (k_procs k) (k_nextpid k) (k_initproc k))) →
  rets (in_fs m) k Q.
Proof.
  intros Hm Ho HQ a k'. unfold in_fs, zoom. destruct (m (k_fs k)) as [a' f'| | |] eqn:E; try done. intros [= <- <-]. destruct (Hm _ Ho _ _ E) as (? & ? & _). by apply HQ.
Qed.
Lemma fskeep_dup_files src dst : fskeep (dup_files src dst) (λ _, True).
Proof.
  revert dst. induction src as [|x src IH]; intros dst f Ho; cbn [dup_files]; [by apply rets_ret|]. destruct dst as [|y dst]; [by apply rets_ret|]. apply rets_bind.
  eapply (rets_mono _ _ (λ _ f', Forall (λ x, 0 ≤ fi_off x) (fl_files f') ∧ dom (fl_pipes f') = dom (fl_pipes f))).
  - destruct (x =? 0); [by apply rets_ret|]. apply rets_bind. eapply rets_mono; [by apply fskeep_filedup|]. intros z f1 (? & ? & _). by apply rets_ret.
  - intros z f1 [Ho1 E1]. apply rets_bind. eapply rets_mono; [by apply IH|]. intros zs f2 (Ho2 & E2 & _). apply rets_ret. split_and!; [done|congruence|done].
Qed.
Lemma fskeep_idup x : fskeep (Proc.idup x) (λ _, True).
Proof. intros f Ho. cbn. apply rets_bind. eapply rets_mono; [by apply fskeep_layer|]. intros z f1 ?. by apply rets_ret. Qed.

Lemma child_fits pid q d sz me ofile cwd nm p : 0 ≤ sz ≤ KERNBASE → fits (born pid q d sz me ofile cwd nm p).
Proof. intros Hsz _. split; [exact Hsz|]. cbn. unfold KSTACKSIZE, TF_SIZE. mmu_consts. lia. Qed.

(** writing into the trap frame of the new process *)
Lemma new_tf_copy q src ds held s : holds pool ds (q :: held) s → rets (on_mem (memmove (child_tf q) src TF_SIZE)) s (λ _ s', holds pool ds (q :: held) s').
Proof.
  intros Hs. apply (pool_on_mem pool Hnodup Hpages _ q); [done|by left|]. intros b Hb. rewrite memmove_ok by done. rewrite decide_False; [done|].
  intros Hin. apply (Hb q); [by left|]. revert Hin. unfold child_tf, KSTACKSIZE, TF_SIZE. mmu_consts. lia.
Qed.
Lemma new_tf_write q o v ds held s : 0 ≤ o → o + 4 ≤ TF_SIZE → holds pool ds (q :: held) s → rets (wr32 (child_tf q + o) v) s (λ _ s', holds pool ds (q :: held) s').
Proof.
  intros Ho Ho' Hs. apply (pool_on_mem pool Hnodup Hpages (store32 (child_tf q + o) v) q); [done|by left|].
  apply same_outside_store32; revert Ho'; unfold child_tf, KSTACKSIZE, TF_SIZE; mmu_consts; lia.
Qed.

Lemma fork_paged me k : live_at me k → pages_ok k → rets (fork me) k (λ _ k', pages_ok k').
Proof.
  intros (cur & Hcur & Hlc) Hk. pose proof Hk as ((fl & Hp) & Hf & Ho). rewrite Forall_lookup in Hf. destruct (Hf _ _ Hcur Hlc) as [Hsz _].
  unfold fork. apply rets_bind. eapply rets_mono; [by apply rets_allocproc|]. intros [i|] k1 Ha; [|by apply rets_ret].
  destruct Ha as (p & q & dr & hr & fl' & Hi & Hu & El & Ef & Hq & Hp1 & _ & Hback). assert (Hne : i ≠ me) by congruence.
  destruct k1 as [s1 f1 l1 n1 ip1]. cbn [k_phys k_fs k_procs k_nextpid] in *. subst l1 f1.
  apply rets_bind, rets_proc_at. kcbn. intros c Hc. rewrite list_lookup_alter_ne, Hcur in Hc by done. injection Hc as <-.
  apply rets_bind, rets_phys_at. kcbn. eapply rets_mono; [apply (pool_copyuvm pool Hnodup Hpages); [by eexists|apply Hsz]|]. intros d s2 Hd. kcbn.
  apply rets_bind, rets_upd. kstate. rewrite list_alter_alter_eq. destruct Hd as [[-> H2]|[Hd H2]].
  - cbn [Z.eqb]. apply rets_bind, rets_proc_at. kcbn. intros x Hx. rewrite list_lookup_alter_eq, Hi in Hx. injection Hx as <-. cbn [p_kstack].
    apply rets_bind, rets_phys_at. kcbn. eapply rets_mono; [by apply (pool_kfree pool Hnodup Hpages q)|]. intros [] s3 H3. kcbn.
    do 2 (apply rets_bind, rets_upd; kstate; rewrite list_alter_alter_eq). apply rets_ret. unfold pages_ok, paged. kcbn. by apply Hback.
  - rewrite (proj2 (Z.eqb_neq d 0) Hd). do 2 (apply rets_bind, rets_upd; kstate; rewrite list_alter_alter_eq).
    apply rets_bind, rets_proc_at. kcbn. intros x Hx. rewrite list_lookup_alter_eq, Hi in Hx. injection Hx as <-.
    apply rets_bind, rets_phys_at. kcbn. eapply rets_mono; [by apply (new_tf_copy q)|]. intros [] s3 H3. kcbn.
    apply rets_bind, rets_phys_at. kcbn. eapply rets_mono; [by apply (new_tf_write q TF_eax)|]. intros [] s4 H4. kcbn.
    apply rets_bind. eapply rets_fs_at; [apply fskeep_dup_files|done|]. intros ofile f2 Ho2 E2. kcbn. apply rets_bind, rets_upd. kstate. rewrite list_alter_alter_eq.
    apply rets_bind. eapply rets_fs_at; [apply fskeep_idup|done|]. intros cwd f3 Ho3 E3. kcbn. do 3 (apply rets_bind, rets_upd; kstate; rewrite list_alter_alter_eq).
    apply rets_ret. unfold pages_ok, paged. kcbn. apply Hback; [by apply child_fits|done|by rewrite E3|exact H4].
Qed.

(** *** the first process *)

Lemma new_tf_write16 q o v ds held s : 0 ≤ o → o + 2 ≤ TF_SIZE → holds pool ds (q :: held) s → rets (wr16 (child_tf q + o) v) s (λ _ s', holds pool ds (q :: held) s').
Proof.
  intros Ho Ho' Hs. unfold wr16. apply (pool_on_mem pool Hnodup Hpages _ q); [done|by left|].
  eapply same_outside_trans; apply (store8_page q); revert Ho'; unfold child_tf, KSTACKSIZE, TF_SIZE; mmu_consts; lia.
Qed.
Lemma new_tf_clear q ds held s : holds pool ds (q :: held) s → rets (on_mem (memset (child_tf q) 0 TF_SIZE)) s (λ _ s', holds pool ds (q :: held) s').
Proof.
  intros Hs. apply (pool_on_mem pool Hnodup Hpages _ q); [done|by left|]. intros b Hb. rewrite memset_ok by done. rewrite decide_False; [done|].
  intros Hin. apply (Hb q); [by left|]. revert Hin. unfold child_tf, KSTACKSIZE, TF_SIZE. mmu_consts. lia.
Qed.
Lemma fskeep_namei path : fskeep (Proc.namei path) (λ _, True).
Proof. intros f Ho. cbn. apply rets_bind. eapply rets_mono; [by apply fskeep_layer|]. intros z f1 ?. by apply rets_ret. Qed.

(** setupkvm takes at most 1025 pages, and inituvm two *)
Lemma userinit_paged name k fl : pages_ok k → pooled pool (kdirs no_zeros (k_procs k)) (kstacks (k_procs k) ++ kpipes (k_fs k)) (k_phys k) fl →
  (1028 ≤ length fl)%nat → 0 ≤ initcode_size → rets (userinit name) k (λ _ k', pages_ok k').
Proof.
  intros Hk Hp Hlen Hsz. pose proof Hk as (_ & _ & Ho). unfold userinit. apply rets_bind. eapply rets_mono; [by apply rets_allocproc|]. intros [i|] k1 Ha; [|apply rets_panic].
  destruct Ha as (p & q & dr & hr & fl' & Hi & Hu & El & Ef & Hq & Hp1 & Hl1 & Hback). destruct k1 as [s1 f1 l1 n1 ip1]. cbn [k_phys k_fs k_procs k_nextpid] in *. subst l1 f1.
  apply rets_bind, rets_modify. kstate. apply rets_bind, rets_phys_at. kcbn. eapply rets_mono; [by apply (pooled_setupkvm pool Hnodup Hpages)|]. intros d s2 Hd. kcbn.
  apply rets_bind, rets_upd. kstate. rewrite list_alter_alter_eq. destruct Hd as [[-> _]|(Hd & fl2 & Hp2 & Hl2 & He)]; [apply rets_panic|].
  rewrite (proj2 (Z.eqb_neq d 0) Hd). apply rets_bind, rets_phys_at. kcbn. eapply rets_mono; [by apply (pool_inituvm pool Hnodup Hpages _ _ _ _ _ _ _ Hp2); first lia|]. intros [] s3 H3. kcbn.
  apply rets_bind, rets_upd. kstate. rewrite list_alter_alter_eq. apply rets_bind, rets_proc_at. kcbn. intros x Hx. rewrite list_lookup_alter_eq, Hi in Hx. injection Hx as <-.
  apply rets_bind, rets_phys_at. kcbn. eapply rets_mono; [by apply (new_tf_clear q)|]. clear H3. intros [] s4 H4. kcbn.
  do 4 (apply rets_bind, rets_phys_at; kcbn; eapply rets_mono; [by apply (new_tf_write16 q)|]; clear H4; intros [] ? H4; kcbn).
  do 3 (apply rets_bind, rets_phys_at; kcbn; eapply rets_mono; [by apply (new_tf_write q)|]; clear H4; intros [] ? H4; kcbn).
  apply rets_bind, rets_upd. kstate. rewrite list_alter_alter_eq. apply rets_bind. eapply rets_fs_at; [apply fskeep_namei|done|]. intros cwd f2 Ho2 E2. kcbn.
  apply rets_bind, rets_upd. kstate. rewrite list_alter_alter_eq. apply rets_upd. kstate. rewrite list_alter_alter_eq. unfold pages_ok, paged. kcbn.
  apply Hback; [|done|by rewrite E2|exact H4]. intros _. cbn. split; [by mmu_consts|]. unfold KSTACKSIZE, TF_SIZE. mmu_consts. lia.
Qed.

(** ** The steps of the kernel *)

(** the calls of KernelRefs, with sizes and faults that stay below the kernel: [mmap] and the
    handler of page faults do not look at either *)
Inductive ustep : kern → kern → Prop :=
| us_fork me k r k' : running me k → fork me k = Ret r k' → ustep k k'
| us_exit me k k' : running me k → exit me k = Ret () k' → ustep k k'
| us_wait me k r k' : running me k → wait me k = Ret r k' → ustep k k'
| us_wait_sleep me k c k' : running me k → wait me k = Asleep c k' → ustep k k'
| us_sleep me k c k' : running me k → (∀ i, c ≠ procp i) → sleep (A := unit) me c k = Asleep c k' → ustep k k'
| us_resume me k k' : running me k → sleep_resume me k = Ret () k' → ustep k k'
| us_wakeup k c k' : wakeup c k = Ret () k' → ustep k k'
| us_kill k pid r k' : kill pid k = Ret r k' → ustep k k'
| us_yield me k k' : running me k → yield me k = Ret () k' → ustep k k'
| us_sched k c r k' : scheduler_step c k = Ret r k' → ustep k k'
| us_growproc me k n r k' : running me k → growproc me n k = Ret r k' → ustep k k'
| us_mmap me k n r k' : running me k → mmap me n k = Ret r k' → (∀ p, k_procs k' !! me = Some p → p_sz p ≤ KERNBASE) → ustep k k'
| us_pgfault me k cr2 r k' : running me k → is_u32 cr2 → cr2 < KERNBASE → pgfault (Some me) cr2 k = Ret r k' → ustep k k'
| us_file me num m k r k' : running me k → sysfile devsw_read devsw_write me num = Some m → m k = Ret r k' → ustep k k'.

Lemma ustep_kstep k k' : ustep k k' → kstep devsw_read devsw_write k k'.
Proof. intros []; try (by apply ks_proc; econstructor); by econstructor. Qed.

Lemma running_live me (k : kern) : running me k → live_at me k.
Proof. intros (p & Hp & Hs). exists p. split; [done|congruence]. Qed.
Lemma pages_pview k k' : k_phys k' = k_phys k → k_fs k' = k_fs k → pview (k_procs k') = pview (k_procs k) → pages_ok k → pages_ok k'.
Proof. intros E1 E2 E3. unfold pages_ok, paged. rewrite E1, E2. by apply paged_pview. Qed.
(** the state of a slot in use changes *)
Lemma pages_state k i f : (∀ p, k_procs k !! i = Some p → p_state p ≠ UNUSED ∧ p_state (f p) ≠ UNUSED ∧ pv (f p) = pv (set_state (p_state (f p)) p)) →
  pages_ok k → pages_ok (with_procs (alter f i) k).
Proof.
  intros Hf. apply pages_pview; [done|done|]. kcbn. apply pview_alter. intros p Hp. destruct (Hf p Hp) as (H1 & H2 & ->). unfold pv. cbn.
  by rewrite !bool_decide_eq_false_2.
Qed.
Lemma pages_running k i f : running i k → (∀ p, p_state (f p) ≠ UNUSED ∧ pv (f p) = pv (set_state (p_state (f p)) p)) →
  pages_ok k → pages_ok (with_procs (alter f i) k).
Proof.
  intros (q & Hq & Hs) Hf. apply pages_state. intros p Hp. rewrite Hq in Hp. injection Hp as <-. split; [congruence|]. apply Hf.
Qed.

Lemma ustep_pages k k' : ustep k k' → pages_ok k → pages_ok k'.
Proof.
  intros Hst Hk. destruct Hst as
    [me k r k' Hrun E|me k k' Hrun E|me k r k' Hrun E|me k c k' Hrun E|me k c k' Hrun Hc E
    |me k k' Hrun E|k c k' E|k pid r k' E|me k k' Hrun E|k c r k' E|me k n r k' Hrun E
    |me k n r k' Hrun E Hb|me k cr2 r k' Hrun Hu Hb E|me num m k r k' Hrun Hm E].
  - eapply fork_paged; [by apply running_live|done|done].
  - by eapply (qt_exit me no_zeros); [exact Hk|apply running_live|].
  - by eapply wait_paged.
  - apply wait_sleeps in E as (-> & _ & ->). by apply pages_running.
  - injection E as <-. by apply pages_running.
  - injection E as <-. apply (pages_pview k); [done|done| |done]. kcbn. by apply pview_alter.
  - injection E as <-. apply (pages_pview k); [done|done| |done]. kcbn. apply pview_wake.
  - revert E. enough (Hr : rets (kill pid) k (λ _ k', pages_ok k')) by apply Hr. unfold kill. krun. destruct (find_slot _ _) as [i|]; krun; [|done].
    case_decide as Hd; krun.
    + rewrite list_alter_alter_eq. rewrite list_lookup_alter_eq in H1. apply (pages_state k i (set_state RUNNABLE ∘ set_killed true)); [|done].
      intros x Hx. rewrite Hx in H1. injection H1 as <-. split_and!; [|done|done]. cbn in Hd. congruence.
    + apply (pages_pview k); [done|done| |done]. kcbn. by apply pview_alter.
  - injection E as <-. by apply pages_running.
  - revert E. enough (Hr : rets (scheduler_step c) k (λ _ k', pages_ok k')) by apply Hr. unfold scheduler_step. krun. destruct (pick c _) as [i|] eqn:E; [|by krun].
    unfold pick in E. apply fmap_Some in E as (d & E & ->). destruct (find_slot_Some _ _ _ E) as (p & Hi & Hu & _). apply bool_decide_eq_true in Hu.
    rewrite lookup_drop in Hi. krun. apply rets_switchuvm. krun. apply (pages_state k (c + d) (set_state RUNNING)); [|done].
    intros q Hq. rewrite Hi in Hq. injection Hq as <-. split_and!; [congruence|done|done].
  - eapply growproc_paged; [by apply running_live|done|done].
  - revert Hb. enough (Hr : rets (mmap me n) k (λ _ k', (∀ p, k_procs k' !! me = Some p → p_sz p ≤ KERNBASE) → pages_ok k')) by (by eapply Hr).
    unfold mmap. apply rets_bind, rets_proc_at. intros p Hp. apply rets_bind, rets_upd, rets_ret. intros Hb. apply paged_set_sz; [|done].
    split; [apply u32_range|]. apply (Hb (set_sz (u32 (p_sz p + n)) p)). kcbn. by rewrite list_lookup_alter_eq, Hp.
  - by eapply (qt_pgfault me no_zeros cr2); [..|exact Hk|apply running_live|].
  - by eapply (qt_sysfile devsw_read devsw_write Hdev me num m Hm); [exact Hk|apply running_live|].
Qed.
End proc.
End pages.

(** ** The theorem *)

Section conserved.
  Context `{KernelImage} `{ProcImage} {S : Type} {BO : BufOps S} {LO : LogOps S}.
  Context (devsw_read : Z → option (nat → Z → M (fs S) (Z * list Z))).
  Context (devsw_write : Z → option (nat → list Z → M (fs S) Z)).

#[local] Instance boot_ops : FileOps (flayer S) := layer_ops devsw_read.

(** before [userinit]: the pages that kinit1 and kinit2 freed are the pool, and nothing is in use *)
Definition boot_pages (pool : list Z) (k : kern (flayer S)) : Prop :=
  kmem_ok (k_phys k) pool ∧ Forall (λ p, p_state p = UNUSED) (k_procs k) ∧ fl_pipes (k_fs k) = ∅ ∧
  Forall (λ x, 0 ≤ fi_off x) (fl_files (k_fs k)).

Lemma unused_owns zf l : Forall (λ p, p_state p = UNUSED) l → kdirs zf l = [] ∧ kstacks l = [].
Proof.
  intros Hl. assert (Hg : ∀ {B} (g : nat → proc → list B), (∀ i p, p_state p = UNUSED → g i p = []) → mjoin (imap g l) = []).
  { intros B g. revert g. induction Hl as [|p l Hp _ IH]; intros g Hg; [done|]. rewrite imap_cons. cbn [mjoin list_join]. rewrite Hg by done.
    apply (IH (g ∘ Datatypes.S)). intros i q. apply Hg. }
  unfold kdirs, kstacks. split; apply Hg; intros i p Hp; unfold slot_space, slot_stack; by rewrite decide_True.
Qed.

Lemma table_owns zf m l : spaces m (kdirs zf l) ++ kstacks l ≡ₚ all_owned m l.
Proof.
  assert (Hg : ∀ g h, (∀ i p, spaces m (g i p) ++ h i p ≡ₚ powned m p) → spaces m (mjoin (imap g l)) ++ mjoin (imap h l) ≡ₚ all_owned m l).
  { induction l as [|p l IH]; intros g h Hgh; [done|]. rewrite !imap_cons. cbn [mjoin list_join]. unfold spaces, all_owned. rewrite bind_app, fmap_cons. cbn [mjoin list_join].
    pose proof (Hgh 0%nat p) as H1. pose proof (IH (g ∘ Datatypes.S) (h ∘ Datatypes.S) (λ i q, Hgh (Datatypes.S i) q)) as H2. unfold spaces, all_owned in *.
    rewrite <- H1, <- H2. solve_Permutation. }
  apply Hg. intros i p. unfold slot_space, slot_stack, powned. case_decide; [done|]. cbn [spaces mbind list_bind sp_dir]. rewrite app_nil_r. solve_Permutation.
Qed.

Lemma table_spaces zf l i p : l !! i = Some p → p_state p ≠ UNUSED → Sp (p_pgdir p) 0 (zf i) ∈ kdirs zf l.
Proof.
  intros Hi Hl. destruct (imap_split (slot_space zf) l i p Hi) as (rest & E & _). unfold kdirs. rewrite E, slot_space_live by done. by left.
Qed.

(** nothing is shared between two slots *)
Lemma owned_apart m l i j p q x : NoDup (all_owned m l) → i ≠ j → l !! i = Some p → l !! j = Some q → x ∈ powned m p → x ∉ powned m q.
Proof.
  intros Hn Hne Hi Hj Hx Hx'. rewrite (all_owned_delete _ _ _ _ Hi) in Hn. apply NoDup_app in Hn as (_ & Hd & _). apply (Hd x Hx). apply elem_of_all_owned.
  destruct (decide (j < i)%nat).
  - exists j, q. split; [|done]. by rewrite list_lookup_delete_lt.
  - exists (j - 1)%nat, q. split; [|done]. rewrite list_lookup_delete_ge by lia. by replace (Datatypes.S (j - 1)) with j by lia.
Qed.

(** C2: No page of memory is lost or owned twice.  From the state in which [userinit] leaves a
    kernel that had at least 1028 free pages, in every state reached by calls that return --
    fork, exit, wait, sleep, wakeup, kill, the scheduler, sbrk, mmap, page faults and the
    calls of sysfile.c, exec and pipe among them, made by any running processes in any order
    -- the pages that were free at boot are, each exactly once, on the free list, the kernel
    stack of a process, in its page tables, one of the frames mapped in its user half, or a
    pipe.  Every process has the kernel's half of its address space exactly as setupkvm
    builds it, and two processes share no page.  This needs that mmap leaves the size at most
    KERNBASE and that faults are taken below it, which the code does not check. *)
Theorem pages_conserved pool name k0 k1 k :
  (∀ major f ip n s, devsw_read major = Some f → 0 ≤ n → rets (f ip n) s (λ r _, Z.of_nat (length r.2) ≤ n)) → 0 ≤ initcode_size →
  boot_pages pool k0 → (1028 ≤ length pool)%nat → userinit name k0 = Ret () k1 → rtc (ustep devsw_read devsw_write) k1 k →
  ∃ fl, kmem_ok (k_phys k) fl ∧ fl ++ all_owned (mem (k_phys k)) (k_procs k) ++ elements (dom (fl_pipes (k_fs k))) ≡ₚ pool ∧
    (∀ i p, k_procs k !! i = Some p → p_state p ≠ UNUSED → 0 ≤ p_sz p ≤ KERNBASE ∧
      ∀ va, is_u32 va → KERNBASE ≤ va → pte (mem (k_phys k)) (p_pgdir p) va = kernel_pte va) ∧
    ∀ i j p q, i ≠ j → k_procs k !! i = Some p → k_procs k !! j = Some q →
      ∀ x, x ∈ powned (mem (k_phys k)) p → x ∉ powned (mem (k_phys k)) q.
Proof.
  intros Hdev Hic (Hkm & Hu & Hpi & Ho) Hlen E Hr. pose proof Hkm as [_ Hpages Hnodup]. destruct (unused_owns no_zeros _ Hu) as [Ed Eh].
  assert (Hp0 : pooled pool (kdirs no_zeros (k_procs k0)) (kstacks (k_procs k0) ++ kpipes (k_fs k0)) (k_phys k0) pool).
  { rewrite Ed, Eh. unfold kpipes. rewrite Hpi, dom_empty_L, elements_empty. split_and!; [done|by rewrite !app_nil_r|done]. }
  assert (Hk0 : pages_ok pool k0).
  { split_and!; [by exists pool| |done]. eapply Forall_impl; [exact Hu|]. intros p Hp Hn. congruence. }
  assert (Hk1 : pages_ok pool k1) by (eapply (userinit_paged pool Hnodup Hpages); eassumption).
  assert (Hk : pages_ok pool k).
  { clear -Hr Hk1 Hdev Hnodup Hpages. induction Hr as [|? ? ? Hs _ IH]; [done|]. apply IH. eapply (ustep_pages pool Hnodup Hpages); eassumption. }
  destruct Hk as ((fl & F1 & F2 & F3) & Hf & _). exists fl.
  assert (Hperm : fl ++ all_owned (mem (k_phys k)) (k_procs k) ++ elements (dom (fl_pipes (k_fs k))) ≡ₚ pool).
  { rewrite <- F2. cbn [app]. rewrite <- (table_owns no_zeros). unfold kpipes. solve_Permutation. }
  split_and!; [done|done| |].
  2: { intros i j p q Hne Hi Hj x. rewrite <- Hperm in Hnodup. apply NoDup_app in Hnodup as (_ & _ & [Hn _]%NoDup_app). by apply (owned_apart _ (k_procs k) i j). }
  - intros i p Hi Hl. rewrite Forall_lookup in Hf. destruct (Hf i p Hi Hl) as [Hsz _]. split; [done|].
    rewrite Forall_forall in F3. apply (F3 _ (table_spaces no_zeros _ _ _ Hi Hl)).
Qed.
End conserved.

(** ** Booting *)

Section boot.
  Context `{KernelImage} `{ProcImage} {F : Type} `{FileOps F}.

Lemma inituvm_runs s fl d other init sz : as_ok s fl d other → user_empty (pte (mem s) d) → (2 ≤ length fl)%nat → sz < PGSIZE →
  ∃ s', inituvm d init sz s = Ret () s'.
Proof.
  intros Hok He Hl Hsz. unfold inituvm. rewrite (proj2 (Z.leb_gt PGSIZE sz)) by lia.
  destruct (alloc_one s fl d other 0 (Z.lor PTE_W PTE_U) Hok) as [[-> _]|(p & s1 & _ & _ & Hk & Em & Hmap)]; [mmu_consts; zdm|done| |cbn in Hl; lia|].
  { rewrite He; [done|by mmu_consts|mmu_consts; lia]. }
  erewrite bind_Ret by exact Hk. erewrite bind_Ret by reflexivity. cbn beta.
  destruct (Hmap (memset p 0 PGSIZE (mem s1))) as (r & s2 & fl2 & E2 & _); [rewrite Em; apply memset_page_same|].
  erewrite bind_Ret by exact E2. by eexists.
Qed.

(** with enough free pages the first process is created *)
Lemma userinit_runs name s (f : F) l n ip i fl c f' :
  find_slot is_unused l = Some i → kmem_ok s fl → (1028 ≤ length fl)%nat → initcode_size < PGSIZE → Proc.namei [47] f = Ret c f' →
  ∃ k1, userinit name (Build_kern s f l n ip) = Ret () k1.
Proof.
  intros Hi Hk Hlen Hsz Hn. destruct fl as [|q fl]; [cbn in Hlen; lia|]. cbn [length] in Hlen. destruct (allocproc_ok s f l n ip i q fl Hi Hk) as (s1 & E1 & Hk1 & _).
  destruct (find_slot_Some _ _ _ Hi) as (p & Hp & _). unfold userinit. erewrite bind_Ret by exact E1. cbv beta iota. kstep.
  destruct (setupkvm_ok s1 fl []) as (d & s2 & fl2 & E2 & Hd); [done|done|rewrite app_nil_r; apply Hk1|].
  destruct Hd as [[Hd Hks]|(_ & _ & Hf)]; [|lia]. kphys E2. kstep. rewrite (proj2 (Z.eqb_neq d 0) Hd).
  destruct (owned_kspace _ _ _ _ _ _ _ kernel_pte_user Hks) as [Hok _]. destruct Hks as [_ K2 K3 _].
  destruct (inituvm_runs s2 fl2 d [] initcode_start initcode_size Hok) as (s3 & E3); [|apply Permutation_length in K3; rewrite length_app in K3; cbn [length] in K3;
    pose proof (tables_length (mem s2) d); lia|done|].
  { intros va Hva Hu. rewrite K2 by done. by apply kernel_pte_user. }
  kphys E3. kstep. rewrite !list_alter_alter_eq. erewrite bind_Ret by (apply proc_at_Ret; rewrite list_lookup_alter_eq, Hp; reflexivity).
  do 9 kstep. kfs Hn. kstep. by eexists.
Qed.
End boot.

(** a kernel with five megabytes of free memory and one slot *)
Definition boot_layer : flayer lstate :=
  {| fl_fs := {| f_sub := {| ls_bio := {| bufs := []; havedisk1 := true; disk := ∅; writes := [] |}; ls_log := boot_log |}; f_inodes := [zero_inode];
       f_sb := {| sb_size := 100; sb_nblocks := 66; sb_ninodes := 8; sb_nlog := 30; sb_logstart := 2; sb_inodestart := 32; sb_bmapstart := 33 |} |};
     fl_files := []; fl_pipes := ∅ |}.

Lemma length_pages p n : length (pages p n) = n.
Proof. revert p. induction n as [|n IH]; intros p; cbn [pages length]; [done|]. by rewrite IH. Qed.

Lemma boot_memory : ∃ s pool, kmem_ok s pool ∧ (1028 ≤ length pool)%nat.
Proof.
  destruct (freerange_spec kend (kend + 0x500000) {| mem := ∅; use_lock := false; freelist := 0 |} []) as (s & _ & Hk & _).
  - lia.
  - by apply Z.leb_le.
  - by intros q ?%elem_of_nil.
  - split; [done|by constructor|by constructor].
  - exists s, (reverse (range_pages kend (kend + 0x500000)) ++ []). split; [exact Hk|]. rewrite app_nil_r, length_reverse. unfold range_pages. rewrite length_pages.
    apply Nat2Z.inj_le. rewrite Z2Nat.id by (by apply Z.leb_le). by apply Z.leb_le.
Qed.

Lemma boot_kernel : ∃ s pool k, (1028 ≤ length pool)%nat ∧ kmem_ok s pool ∧
  userinit (H1 := layer_ops (BO := log_ops 1) (LO := log_calls 1) (λ _, None)) [105] (Build_kern s boot_layer [proc0] 1 None) = Ret () k.
Proof.
  destruct boot_memory as (s & pool & Hk & Hl).
  edestruct (userinit_runs (H1 := layer_ops (BO := log_ops 1) (LO := log_calls 1) (λ _, None)) [105] s boot_layer [proc0] 1 None 0 pool) as (k & E).
  - reflexivity.
  - exact Hk.
  - exact Hl.
  - by apply Z.ltb_lt.
  - reflexivity.
  - by exists s, pool, k.
Qed.

Example pages_conserved_witness : ∃ pool (k : kern (flayer lstate)) fl, (1028 ≤ length pool)%nat ∧ kmem_ok (k_phys k) fl ∧
  fl ++ all_owned (mem (k_phys k)) (k_procs k) ++ elements (dom (fl_pipes (k_fs k))) ≡ₚ pool.
Proof.
  destruct boot_kernel as (s & pool & k & Hl & Hk & E).
  destruct (pages_conserved (BO := log_ops 1) (LO := log_calls 1) (λ _, None) (λ _, None) pool [105] (Build_kern s boot_layer [proc0] 1 None) k
    (with_procs (imap (λ _, wake 7)) k)) as (fl & Hfl & Hp & _).
  - done.
  - by apply Z.leb_le.
  - split_and!; [exact Hk|by constructor|done|by constructor].
  - exact Hl.
  - exact E.
  - apply rtc_once. by apply (us_wakeup _ _ k 7).
  - by exists pool, (with_procs (imap (λ _, wake 7)) k), fl.
Defined.
