(* ===== verification/Grep.v ===== *)
(** * grep.c: the pattern matcher and the line loop

    Strings are lists of bytes without the terminator.  [lang] gives a meaning to
    patterns, as sets of strings, and the matcher of Kernighan and Pike decides
    it.  The loop over a file is modelled with the sequence of what its [read]
    calls return. *)

From S2P Require Import Prelude.

Definition caret : Z := 94.
Definition dollar : Z := 36.
Definition period : Z := 46.
Definition star : Z := 42.
Definition newline : Z := 10.

(** ** The matcher *)

Definition fits (c t : Z) : bool := (t =? c) || (c =? period).

(** [here text] is [matchhere(re, text)] *)
Fixpoint matchstar (here : list Z → bool) (c : Z) (text : list Z) : bool :=
  if here text then true
  else match text with
       | [] => false
       | t :: text => if fits c t then matchstar here c text else false
       end.

Fixpoint matchhere (re text : list Z) : bool :=
  match re with
  | [] => true
  | c :: re1 =>
      match re1 with
      | s :: re2 =>
          if s =? star then matchstar (matchhere re2) c text
          else match text with
               | t :: text => if (c =? period) || (c =? t) then matchhere re1 text else false
               | [] => false
               end
      | [] =>
          if c =? dollar then match text with [] => true | _ => false end
          else match text with
               | t :: text => if (c =? period) || (c =? t) then matchhere re1 text else false
               | [] => false
               end
      end
  end.

(** the loop of [match] over the starts in [text] *)
Fixpoint match_from (re text : list Z) : bool :=
  if matchhere re text then true
  else match text with [] => false | _ :: text => match_from re text end.

Definition match_re (re text : list Z) : bool :=
  match re with
  | c :: re1 => if c =? caret then matchhere re1 text else match_from re text
  | [] => match_from re text
  end.

(** ** What patterns mean *)

Inductive item := One (c : Z) | Many (c : Z).

(** the items of a pattern, and whether it ends in [$] *)
Fixpoint items (re : list Z) : list item * bool :=
  match re with
  | [] => ([], false)
  | c :: re1 =>
      match re1 with
      | s :: re2 =>
          if s =? star then let '(l, e) := items re2 in (Many c :: l, e)
          else let '(l, e) := items re1 in (One c :: l, e)
      | [] => if c =? dollar then ([], true) else ([One c], false)
      end
  end.

Definition sym (c : Z) (t : Z) : Prop := t = c ∨ c = period.

Fixpoint lang (l : list item) (w : list Z) : Prop :=
  match l with
  | [] => w = []
  | One c :: l => ∃ t w', w = t :: w' ∧ sym c t ∧ lang l w'
  | Many c :: l => ∃ u v, w = u ++ v ∧ Forall (sym c) u ∧ lang l v
  end.

(** the pattern describes a prefix of [text], all of it when it ends in [$] *)
Definition begins (re text : list Z) : Prop :=
  ∃ y z, text = y ++ z ∧ lang (items re).1 y ∧ ((items re).2 = true → z = []).

Lemma fits_sym c t : fits c t = true ↔ sym c t.
Proof. unfold fits, sym. rewrite orb_true_iff, !Z.eqb_eq. done. Qed.

Lemma eqb_sym_or c t : (c =? period) || (c =? t) = fits c t.
Proof. unfold fits. rewrite orb_comm. by rewrite (Z.eqb_sym c t). Qed.

Lemma matchstar_spec here c text :
  matchstar here c text = true ↔ ∃ u v, text = u ++ v ∧ Forall (sym c) u ∧ here v = true.
Proof.
  induction text as [|t text IH]; cbn [matchstar].
  - destruct (here []) eqn:E; split; try done.
    + intros _. by exists [], [].
    + intros (u & v & Huv & _ & Hh). symmetry in Huv. apply app_nil in Huv as [-> ->]. congruence.
  - destruct (here (t :: text)) eqn:E.
    { split; [|done]. intros _. by exists [], (t :: text). }
    destruct (fits c t) eqn:Hf.
    + rewrite IH. split.
      * intros (u & v & -> & Hu & Hv). exists (t :: u), v. split_and!; [done| |done].
        constructor; [by apply fits_sym|done].
      * intros (u & v & Huv & Hu & Hv). destruct u as [|t' u]; simplify_eq/=; [congruence|].
        apply Forall_cons in Hu as [_ Hu]. eauto.
    + split; [done|]. intros (u & v & Huv & Hu & Hv). destruct u as [|t' u]; simplify_eq/=; [congruence|].
      apply Forall_cons in Hu as [Hs _]. apply fits_sym in Hs. congruence.
Qed.

Lemma matchhere_cons c s re text :
  matchhere (c :: s :: re) text =
    if s =? star then matchstar (matchhere re) c text
    else match text with
         | t :: text => if (c =? period) || (c =? t) then matchhere (s :: re) text else false
         | [] => false
         end.
Proof. done. Qed.
Lemma items_cons c s re :
  items (c :: s :: re) =
    if s =? star then let '(l, e) := items re in (Many c :: l, e)
    else let '(l, e) := items (s :: re) in (One c :: l, e).
Proof. done. Qed.

Lemma matchhere_spec re : ∀ text, matchhere re text = true ↔ begins re text.
Proof.
  induction re as [re IH] using (well_founded_induction (Wf_nat.well_founded_ltof _ length)).
  unfold Wf_nat.ltof in IH. intros text. unfold begins.
  destruct re as [|c [|s re2]].
  - cbn. split; [|done]. intros _. by exists [], text.
  - cbn. case (Z.eqb_spec c dollar) as [->|Hd]; cbn.
    + split.
      * destruct text; [|done]. intros _. by exists [], [].
      * intros (y & z & -> & -> & Hz). by rewrite Hz.
    + split.
      * destruct text as [|t text]; [done|]. rewrite eqb_sym_or. destruct (fits c t) eqn:Hf; [|done]. intros _.
        exists [t], text. split_and!; [done| |done]. exists t, []. by rewrite <- fits_sym.
      * intros (y & z & -> & (t & w' & -> & Hs & ->) & _). cbn. by rewrite eqb_sym_or, (proj2 (fits_sym c t) Hs).
  - rewrite matchhere_cons, items_cons. case (Z.eqb_spec s star) as [->|Hs].
    + rewrite matchstar_spec. specialize (IH re2). destruct (items re2) as [l e] eqn:Ei. cbn. split.
      * intros (u & v & -> & Hu & (y & z & -> & Hl & Hz)%IH); [|cbn; lia]. rewrite Ei in Hl, Hz.
        exists (u ++ y), z. split_and!; [by rewrite (assoc_L (++))| |done]. by exists u, y.
      * intros (y & z & -> & (u & v & -> & Hu & Hl) & Hz). exists u, (v ++ z).
        split_and!; [by rewrite (assoc_L (++))|done|]. apply IH; [cbn; lia|]. exists v, z. by rewrite Ei.
    + specialize (IH (s :: re2)). destruct (items (s :: re2)) as [l e] eqn:Ei. cbn [fst snd lang]. split.
      * destruct text as [|t text]; [done|]. rewrite eqb_sym_or. destruct (fits c t) eqn:Hf; [|done].
        intros (y & z & -> & Hl & Hz)%IH; [|cbn; lia]. rewrite Ei in Hl, Hz. exists (t :: y), z.
        split_and!; [done| |done]. exists t, y. by rewrite <- fits_sym.
      * intros (y & z & -> & (t & w' & -> & Hf%fits_sym & Hl) & Hz). cbn [app]. rewrite eqb_sym_or, Hf.
        apply IH; [cbn; lia|]. exists w', z. by rewrite Ei.
Qed.

(** C21: The matcher agrees with the meaning of patterns: it accepts a text exactly
    when some part of it is described by the pattern, the part being a prefix after
    [^] and a suffix before [$]. *)
Theorem match_correct re text :
  match_re re text = true ↔
  match re with
  | c :: re1 => if c =? caret then begins re1 text else ∃ x y, text = x ++ y ∧ begins re y
  | [] => ∃ x y, text = x ++ y ∧ begins re y
  end.
Proof.
  assert (Hfrom : ∀ re text, match_from re text = true ↔ ∃ x y, text = x ++ y ∧ begins re y).
  { clear re text. intros re text. induction text as [|t text IH]; cbn [match_from].
    - destruct (matchhere re []) eqn:E; split; try done.
      + intros _. exists [], []. split; [done|]. by apply matchhere_spec.
      + intros (x & y & Hxy & Hb). symmetry in Hxy. apply app_nil in Hxy as [-> ->].
        apply matchhere_spec in Hb. congruence.
    - destruct (matchhere re (t :: text)) eqn:E.
      + split; [|done]. intros _. exists [], (t :: text). split; [done|]. by apply matchhere_spec.
      + rewrite IH. split; [intros (x & y & -> & ?); by exists (t :: x), y|].
        intros (x & y & Hxy & Hb). destruct x as [|t' x]; simplify_eq/=; [|eauto].
        apply matchhere_spec in Hb. congruence. }
  unfold match_re. destruct re as [|c re1]; [apply Hfrom|].
  destruct (c =? caret); [apply matchhere_spec|apply Hfrom].
Qed.

(** ** The loop over a file *)

Definition BUFSIZE : nat := 1024.

(** [q = strchr(p, '\n')]: the line before the newline, and what follows it *)
Fixpoint line_end (p : list Z) : option (list Z * list Z) :=
  match p with
  | [] => None
  | c :: p =>
      if c =? 0 then None
      else if c =? newline then Some ([], p)
      else match line_end p with Some (l, r) => Some (c :: l, r) | None => None end
  end.

(** the inner loop: what is written, and the rest of the buffer *)
Fixpoint grep_lines (fuel : nat) (pattern p : list Z) : list Z * list Z :=
  match fuel with
  | O => ([], p)
  | S fuel =>
      match line_end p with
      | None => ([], p)
      | Some (l, r) =>
          let '(out, rest) := grep_lines fuel pattern r in
          ((if match_re pattern l then l ++ [newline] else []) ++ out, rest)
      end
  end.

(** one turn of the outer loop, the buffer holding [buf] before the [read] that
    returns [chunk] *)
Definition grep_turn (pattern buf chunk : list Z) : list Z * list Z :=
  let b := buf ++ chunk in
  let '(out, p) := grep_lines (length b) pattern b in
  (out, if decide (length p = length b) then [] else p).

(** [grep] on a file: a [read] returns what it is asked for, if there is as much *)
Fixpoint grep_loop (fuel : nat) (pattern buf inp : list Z) : list Z :=
  match fuel with
  | O => []
  | S fuel =>
      let n := Nat.min (BUFSIZE - length buf - 1) (length inp) in
      if decide (n = O) then []
      else
        let '(out, buf) := grep_turn pattern buf (take n inp) in
        out ++ grep_loop fuel pattern buf (drop n inp)
  end.
Definition grep (pattern inp : list Z) : list Z := grep_loop (S (length inp)) pattern [] inp.

(** ** What it prints *)

(** the lines of a text that end in a newline, and the rest *)
Fixpoint split_lines (s : list Z) : list (list Z) * list Z :=
  match s with
  | [] => ([], [])
  | c :: s =>
      let '(ls, r) := split_lines s in
      if c =? newline then ([] :: ls, r)
      else match ls with
           | [] => ([], c :: r)
           | l :: ls => ((c :: l) :: ls, r)
           end
  end.

Definition show (pattern : list Z) (ls : list (list Z)) : list Z :=
  ls ≫= λ l, if match_re pattern l then l ++ [newline] else [].

Lemma split_lines_app s t :
  split_lines (s ++ t) =
    ((split_lines s).1 ++ (split_lines ((split_lines s).2 ++ t)).1, (split_lines ((split_lines s).2 ++ t)).2).
Proof.
  induction s as [|c s IH]; cbn [app split_lines].
  { cbn. by destruct (split_lines t). }
  rewrite IH. destruct (split_lines s) as [ls r]. cbn [fst snd]. destruct (c =? newline) eqn:Hc.
  - done.
  - destruct ls as [|l ls]; cbn [app fst snd]; [|done]. cbn [split_lines].
    destruct (split_lines (r ++ t)) as [ls' r']. cbn [fst snd]. rewrite Hc. by destruct ls'.
Qed.

Lemma line_end_split s :
  0 ∉ s → match line_end s with
          | Some (l, r) => s = l ++ newline :: r ∧ split_lines s = (l :: (split_lines r).1, (split_lines r).2)
          | None => split_lines s = ([], s)
          end.
Proof.
  induction s as [|c s IH]; intros Hs; [done|]. apply not_elem_of_cons in Hs as [Hc Hs].
  specialize (IH Hs). cbn [line_end split_lines]. rewrite (proj2 (Z.eqb_neq c 0)) by done.
  destruct (Z.eqb_spec c newline) as [->|Hn].
  - split; [done|]. by destruct (split_lines s).
  - destruct (line_end s) as [[l r]|].
    + destruct IH as [-> IH]. split; [done|]. by rewrite IH.
    + by rewrite IH.
Qed.

Lemma grep_lines_spec pattern fuel : ∀ p,
  0 ∉ p → (length p ≤ fuel)%nat →
  grep_lines fuel pattern p = (show pattern (split_lines p).1, (split_lines p).2).
Proof.
  induction fuel as [|fuel IH]; intros p Hp Hl.
  { destruct p; [done|cbn in Hl; lia]. }
  cbn [grep_lines]. pose proof (line_end_split p Hp) as Hsp. destruct (line_end p) as [[l r]|].
  - destruct Hsp as [-> ->]. rewrite IH; [done| |].
    + intros Hin. apply Hp. set_solver.
    + rewrite length_app in Hl. cbn in Hl. lia.
  - by rewrite Hsp.
Qed.

Lemma split_rest_length s : (length (split_lines s).2 ≤ length s)%nat ∧
  ((split_lines s).1 = [] ↔ length (split_lines s).2 = length s).
Proof.
  induction s as [|c s [IH1 IH2]]; [done|]. cbn [split_lines]. destruct (split_lines s) as [ls r].
  destruct (c =? newline); [cbn in *; split; [lia|split; [done|lia]]|].
  destruct ls as [|l ls]; cbn in *; split; try lia; split; try done; try lia.
  intros H. assert (length r = length s) by (by apply IH2). lia.
Qed.

Lemma split_rest_nil s : (split_lines (split_lines s).2).1 = [] ∧ (split_lines (split_lines s).2).2 = (split_lines s).2.
Proof.
  induction s as [|c s IH]; [done|]. cbn [split_lines]. destruct (split_lines s) as [ls r].
  cbn [fst snd] in IH. destruct (c =? newline) eqn:Hc; [done|]. destruct ls as [|l ls]; [|done].
  cbn [fst snd split_lines]. destruct (split_lines r) as [ls' r']. cbn in IH. destruct IH as [-> ->].
  by rewrite Hc.
Qed.

Lemma split_bytes s : 0 ∉ s → 0 ∉ (split_lines s).2.
Proof.
  induction s as [|c s IH]; [done|]. intros [Hc Hs]%not_elem_of_cons. cbn [split_lines].
  specialize (IH Hs). destruct (split_lines s) as [ls r]. destruct (c =? newline); [done|].
  destruct ls; cbn in *; [by apply not_elem_of_cons|done].
Qed.

(** if no line ends within [s], the first line that ends after it is as long *)
Lemma split_long s t l ls :
  (split_lines s).1 = [] → (split_lines (s ++ t)).1 = l :: ls → (length s ≤ length l)%nat.
Proof.
  revert l. induction s as [|c s IH]; intros l H1 H2; [cbn; lia|]. cbn [split_lines app] in *.
  destruct (split_lines s) as [lsa ra]. destruct (split_lines (s ++ t)) as [lsb rb].
  destruct (c =? newline); [done|]. destruct lsa; [|done]. destruct lsb as [|l' lsb]; [done|].
  cbn in H2. simplify_eq. cbn. specialize (IH l' ltac:(done) ltac:(done)). lia.
Qed.

Lemma split_suffix s t : (split_lines (s ++ t)).1 = [] → (split_lines t).1 = [].
Proof.
  induction s as [|c s IH]; [done|]. cbn [app split_lines]. destruct (split_lines (s ++ t)) as [ls r].
  destruct (c =? newline); [done|]. destruct ls; [auto|done].
Qed.

Lemma grep_loop_spec pattern fuel : ∀ buf inp,
  (length inp < fuel)%nat → 0 ∉ buf ++ inp → (split_lines buf).1 = [] → (length buf + 1 < BUFSIZE)%nat →
  Forall (λ l, (length l + 1 < BUFSIZE)%nat) (split_lines (buf ++ inp)).1 →
  grep_loop fuel pattern buf inp = show pattern (split_lines (buf ++ inp)).1.
Proof.
  induction fuel as [|fuel IH]; intros buf inp Hf H0 Hbuf Hlen Hshort; [lia|]. cbn [grep_loop].
  set (n := Nat.min (BUFSIZE - length buf - 1) (length inp)). case_decide as Hn.
  { assert (length inp = 0%nat) by lia. destruct inp; [|done]. rewrite app_nil_r, Hbuf. done. }
  set (b := buf ++ take n inp). assert (Hb : buf ++ inp = b ++ drop n inp).
  { unfold b. by rewrite <- (assoc_L (++)), take_drop. }
  rewrite Hb in *. assert (H0b : 0 ∉ b) by set_solver.
  unfold grep_turn. fold b. rewrite grep_lines_spec by done.
  destruct (split_rest_length b) as [Hrl Hre].
  assert (Hdl : (length (drop n inp) < fuel)%nat) by (rewrite length_drop; lia).
  case_decide as Hd.
  - apply Hre in Hd as Hno. rewrite Hno. cbn [show mbind list_bind]. change (show pattern [] ++ ?x) with x.
    assert (Hall : (split_lines (b ++ drop n inp)).1 = []).
    { destruct (split_lines (b ++ drop n inp)).1 as [|l ls] eqn:El; [done|]. exfalso.
      pose proof (split_long _ _ _ _ Hno El) as Hll. apply Forall_cons in Hshort as [Hs _].
      assert (length b = (length buf + n)%nat) as Hbl by (unfold b; rewrite length_app, length_take; lia).
      assert (n = length inp) as Hni by lia. rewrite drop_ge, app_nil_r in El by lia. congruence. }
    pose proof (split_suffix _ _ Hall) as Hsuf. rewrite Hall.
    rewrite IH; change ([] ++ drop n inp) with (drop n inp);
      [by rewrite Hsuf|done|set_solver|done|cbn; unfold BUFSIZE; lia|rewrite Hsuf; constructor].
  - rewrite split_lines_app in Hshort |- *. cbn [fst] in *. apply Forall_app in Hshort as [_ Hshort].
    unfold show. rewrite bind_app. f_equal. fold (show pattern (split_lines ((split_lines b).2 ++ drop n inp)).1).
    apply IH; [done| |apply split_rest_nil| |done].
    + pose proof (split_bytes b H0b). set_solver.
    + assert (length b = (length buf + n)%nat) as Hbl by (unfold b; rewrite length_app, length_take; lia). lia.
Qed.

(** On a file without NUL bytes whose lines fit the buffer, [grep] prints
    exactly the matching lines, in order.  A last line without a newline is not
    among them. *)
Theorem grep_prints_matches pattern inp :
  0 ∉ inp → Forall (λ l, (length l + 1 < BUFSIZE)%nat) (split_lines inp).1 →
  grep pattern inp = show pattern (split_lines inp).1.
Proof.
  intros H0 Hs. unfold grep. by rewrite grep_loop_spec by (done || cbn; unfold BUFSIZE; lia || lia).
Qed.

Lemma grep_prints_matches_witness :
  grep [97; 46; 99] [97; 98; 99; 10; 98; 10; 120; 97; 97; 99] = [97; 98; 99; 10].
Proof.
  rewrite (grep_prints_matches [97; 46; 99] [97; 98; 99; 10; 98; 10; 120; 97; 97; 99]).
  - reflexivity.
  - apply (bool_decide_unpack _). reflexivity.
  - cbn. repeat constructor; unfold BUFSIZE; lia.
Defined.
