(* ===== verification/Printf.v ===== *)
(** * printf.c, ulib.c and the printing of console.c

    What is printed is the list of bytes given to [putc] or [consputc].  The
    variable arguments are the words on the stack after the format, [ap]; [str a]
    is the string at the address [a].  Strings are lists of bytes without the
    terminator. *)

From S2P Require Import Prelude.

Definition percent : Z := 37.
Definition minus : Z := 45.
Definition ch_0 : Z := 48.

(** "0123456789ABCDEF" *)
Definition digits : list Z := [48; 49; 50; 51; 52; 53; 54; 55; 56; 57; 65; 66; 67; 68; 69; 70].
(** "0123456789abcdef" *)
Definition digits_lower : list Z := [48; 49; 50; 51; 52; 53; 54; 55; 56; 57; 97; 98; 99; 100; 101; 102].
(** "(null)" *)
Definition null_str : list Z := [40; 110; 117; 108; 108; 41].

(** ** printint *)

(** the loop that fills [buf]; a [uint] has at most 32 digits *)
Fixpoint digit_loop (fuel : nat) (ds : list Z) (x base : Z) : list Z :=
  match fuel with
  | O => []
  | S fuel =>
      ds !!! Z.to_nat (x mod base) ::
      (if x / base =? 0 then [] else digit_loop fuel ds (x / base) base)
  end.

(** [buf] before it is printed backwards *)
Definition printint_buf (ds : list Z) (xx base : Z) (sgn : bool) : list Z :=
  let neg := sgn && (xx <? 0) in
  let x := u32 (if neg then - xx else xx) in
  digit_loop 32 ds x base ++ (if neg then [minus] else []).

Definition printint (xx base : Z) (sgn : bool) : list Z := reverse (printint_buf digits xx base sgn).
(** [printint] of console.c *)
Definition cprintint (xx base : Z) (sgn : bool) : list Z := reverse (printint_buf digits_lower xx base sgn).

(** ** printf *)

Section printf.
  Context (str : Z → list Z) (ap : nat → Z).

Definition print_str (a : Z) : list Z := if a =? 0 then null_str else str a.

(** [pct]: the last byte was a percent sign; [k] arguments have been used *)
Fixpoint printf_loop (fmt : list Z) (pct : bool) (k : nat) : list Z :=
  match fmt with
  | [] => []
  | c :: fmt =>
      if negb pct then
        if c =? percent then printf_loop fmt true k
        else c :: printf_loop fmt false k
      else if c =? 100 (* d *) then printint (i32 (ap k)) 10 true ++ printf_loop fmt false (S k)
      else if (c =? 120) || (c =? 112) (* x, p *) then printint (i32 (ap k)) 16 false ++ printf_loop fmt false (S k)
      else if c =? 115 (* s *) then print_str (ap k) ++ printf_loop fmt false (S k)
      else if c =? 99 (* c *) then u8 (ap k) :: printf_loop fmt false (S k)
      else if c =? percent then c :: printf_loop fmt false k
      else percent :: c :: printf_loop fmt false k
  end.
Definition printf (fmt : list Z) : list Z := printf_loop fmt false 0.

Fixpoint cprintf_loop (fmt : list Z) (pct : bool) (k : nat) : list Z :=
  match fmt with
  | [] => []
  | c :: fmt =>
      if negb pct then
        if c =? percent then cprintf_loop fmt true k
        else c :: cprintf_loop fmt false k
      else if c =? 100 then cprintint (i32 (ap k)) 10 true ++ cprintf_loop fmt false (S k)
      else if (c =? 120) || (c =? 112) then cprintint (i32 (ap k)) 16 false ++ cprintf_loop fmt false (S k)
      else if c =? 115 then print_str (ap k) ++ cprintf_loop fmt false (S k)
      else if c =? percent then c :: cprintf_loop fmt false k
      else percent :: c :: cprintf_loop fmt false k
  end.
Definition cprintf (fmt : list Z) : list Z := cprintf_loop fmt false 0.

End printf.

(** ** ulib.c *)

(** the destination after [strcpy], which had the bytes [dst] *)
Definition strcpy (dst t : list Z) : list Z := t ++ [0] ++ drop (S (length t)) dst.

Fixpoint strcmp (p q : list Z) : Z :=
  match p, q with
  | a :: p, b :: q => if a =? b then strcmp p q else u8 a - u8 b
  | a :: _, [] => u8 a
  | [], b :: _ => - u8 b
  | [], [] => 0
  end.

Definition strlen (s : list Z) : Z := Z.of_nat (length s).

(** the string from the first [c] on *)
Fixpoint strchr (s : list Z) (c : Z) : option (list Z) :=
  match s with
  | [] => None
  | a :: r => if a =? c then Some s else strchr r c
  end.

(** [gets]: [input] is what the calls of [read] return, byte by byte; the bytes
    stored before the terminator, and the input left *)
Fixpoint gets_loop (room : nat) (input : list Z) : list Z * list Z :=
  match room with
  | O => ([], input)
  | S room =>
      match input with
      | [] => ([], [])
      | c :: input =>
          if (c =? 10) || (c =? 13) then ([c], input)
          else let '(s, rest) := gets_loop room input in (c :: s, rest)
      end
  end.
Definition gets_str (max : Z) (input : list Z) : list Z * list Z := gets_loop (Z.to_nat (max - 1)) input.

(** signed overflow is taken to wrap *)
Fixpoint atoi_loop (s : list Z) (n : Z) : Z :=
  match s with
  | c :: s => if (48 <=? c) && (c <=? 57) then atoi_loop s (i32 (n * 10 + c - 48)) else n
  | [] => n
  end.
Definition atoi (s : list Z) : Z := atoi_loop s 0.

(** [memmove] of ulib.c copies upwards: the bytes of [m] from [src] to [dst] *)
Fixpoint memmove_up (n : nat) (dst src : Z) (m : gmap Z Z) : gmap Z Z :=
  match n with
  | O => m
  | S n => memmove_up n (dst + 1) (src + 1) (<[dst := default 0 (m !! src)]> m)
  end.

(** ** Numbers come out as they went in *)

Fixpoint value (base : Z) (ds : list Z) : Z :=
  match ds with [] => 0 | d :: ds => d + base * value base ds end.

(** the value of a digit, of either case *)
Definition digit_val (c : Z) : Z := if c <? 58 then c - 48 else if c <? 71 then c - 55 else c - 87.

Lemma digit_val_digits (i : nat) : (i < 16)%nat →
  digit_val (digits !!! i) = Z.of_nat i ∧ digit_val (digits_lower !!! i) = Z.of_nat i ∧
  ((i < 10)%nat → digits !!! i = 48 + Z.of_nat i).
Proof. intros Hi. do 16 (destruct i as [|i]; [split_and!; [done|done|intros; first [done|lia]]|]). lia. Qed.

Lemma digit_loop_value fuel ds base x :
  ds = digits ∨ ds = digits_lower → 2 ≤ base ≤ 16 → 0 ≤ x < base ^ Z.of_nat fuel → (0 < fuel)%nat →
  value base (digit_val <$> digit_loop fuel ds x base) = x.
Proof.
  intros Hds Hb. revert x. induction fuel as [|fuel IH]; intros x Hx Hf; [lia|]. cbn [digit_loop fmap list_fmap value].
  assert (Hm : 0 ≤ x mod base < base) by (apply Z.mod_pos_bound; lia).
  assert (Hd : digit_val (ds !!! Z.to_nat (x mod base)) = x mod base).
  { destruct (digit_val_digits (Z.to_nat (x mod base))) as (H1 & H2 & _); [lia|]. destruct Hds as [-> | ->]; lia. }
  pose proof (Z.div_mod x base ltac:(lia)) as Hdm.
  destruct (Z.eqb_spec (x / base) 0) as [E|E]; cbn [fmap list_fmap value]; rewrite Hd.
  - rewrite E in Hdm. lia.
  - assert (0 ≤ x / base) by (apply Z.div_pos; lia). rewrite Nat2Z.inj_succ, Z.pow_succ_r in Hx by lia.
    destruct fuel as [|fuel]. { change (Z.of_nat 0) with 0 in Hx. rewrite Z.pow_0_r in Hx. rewrite Z.div_small in E; lia. }
    change (digit_val <$> ?l) with (digit_val <$> l). rewrite IH; [lia| |lia]. split; [lia|]. apply Z.div_lt_upper_bound; lia.
Qed.

Lemma digit_loop_length fuel ds base x (n : nat) :
  2 ≤ base → 0 ≤ x < base ^ Z.of_nat (S n) → (length (digit_loop fuel ds x base) ≤ S n)%nat.
Proof.
  intros Hb. revert x n. induction fuel as [|fuel IH]; intros x n Hx; [cbn; lia|]. cbn [digit_loop length].
  destruct (Z.eqb_spec (x / base) 0) as [E|E]; [cbn; lia|].
  assert (0 ≤ x / base) by (apply Z.div_pos; lia).
  destruct n as [|n]. { change (base ^ Z.of_nat 1) with (base ^ 1) in Hx. rewrite Z.pow_1_r in Hx. rewrite Z.div_small in E; lia. }
  assert (length (digit_loop fuel ds (x / base) base) ≤ S n)%nat; [|lia]. apply IH. split; [lia|].
  rewrite Nat2Z.inj_succ, Z.pow_succ_r in Hx by lia. apply Z.div_lt_upper_bound; lia.
Qed.

Lemma digit_loop_decimal fuel x :
  0 ≤ x → Forall (λ c, 48 ≤ c ≤ 57) (digit_loop fuel digits x 10).
Proof.
  revert x. induction fuel as [|fuel IH]; intros x Hx; cbn [digit_loop]; [constructor|]. constructor.
  - assert (0 ≤ x mod 10 < 10) by (apply Z.mod_pos_bound; lia).
    destruct (digit_val_digits (Z.to_nat (x mod 10))) as (_ & _ & Hdg); [lia|]. rewrite Hdg by lia. lia.
  - destruct (x / 10 =? 0); [constructor|]. apply IH. apply Z.div_pos; lia.
Qed.

(** [atoi] reads decimal digits, most significant first *)
Lemma atoi_loop_value l : ∀ n,
  Forall (λ c, 48 ≤ c ≤ 57) l → 0 ≤ n → n * 10 ^ Z.of_nat (length l) + value 10 (digit_val <$> reverse l) < 2 ^ 31 →
  atoi_loop l n = n * 10 ^ Z.of_nat (length l) + value 10 (digit_val <$> reverse l).
Proof.
  assert (Hval : ∀ l c, value 10 (digit_val <$> (l ++ [c])) = value 10 (digit_val <$> l) + 10 ^ Z.of_nat (length l) * digit_val c).
  { intros m c. induction m as [|d m IH]; [cbn; lia|]. cbn [app fmap list_fmap value length] in *.
    change (list_fmap _ _ digit_val ?l) with (digit_val <$> l) in *. rewrite IH, Nat2Z.inj_succ, Z.pow_succ_r by lia. lia. }
  assert (Hpos : ∀ l, Forall (λ c, 48 ≤ c ≤ 57) l → 0 ≤ value 10 (digit_val <$> l)).
  { intros m. induction 1 as [|d m Hd _ IH]; [done|]. cbn [fmap list_fmap value].
    change (list_fmap _ _ digit_val ?l) with (digit_val <$> l). unfold digit_val at 1. rewrite (proj2 (Z.ltb_lt _ _)) by lia. lia. }
  induction l as [|c l IH]; intros n Hl Hn Hb; [cbn in *; lia|]. apply Forall_cons in Hl as [Hc Hl].
  cbn [atoi_loop length] in Hb |- *. rewrite (proj2 (Z.leb_le _ _)), (proj2 (Z.leb_le _ _)) by lia. cbn [andb].
  rewrite reverse_cons, Hval, length_reverse in Hb |- *. rewrite Nat2Z.inj_succ, Z.pow_succ_r in Hb |- * by lia.
  assert (Hcv : digit_val c = c - 48) by (unfold digit_val; by rewrite (proj2 (Z.ltb_lt _ _)) by lia).
  rewrite Hcv in *. assert (0 < 10 ^ Z.of_nat (length l)) by (apply Z.pow_pos_nonneg; lia).
  assert (0 ≤ value 10 (digit_val <$> reverse l)) by (apply Hpos; by rewrite Forall_reverse).
  assert (0 ≤ n * 10 + c - 48 < 2 ^ 31) by nia.
  rewrite i32_id by lia. rewrite IH; [nia|done|lia|nia].
Qed.

(** A number is printed so that it reads back: [atoi] inverts the decimal
    format, a negative number is a minus sign and the digits of its absolute value
    (also for the smallest), hexadecimal gives the unsigned value; and the digits
    and sign fit the buffer of 16 bytes. *)
Theorem printint_roundtrip xx :
  - 2 ^ 31 ≤ xx < 2 ^ 31 →
  (0 ≤ xx → atoi (printint xx 10 true) = xx) ∧
  (xx < 0 → ∃ l, printint xx 10 true = minus :: l ∧ value 10 (digit_val <$> reverse l) = - xx) ∧
  value 16 (digit_val <$> reverse (printint xx 16 false)) = u32 xx ∧
  value 16 (digit_val <$> reverse (cprintint xx 16 false)) = u32 xx ∧
  (length (printint_buf digits xx 10 true) ≤ 16)%nat ∧ (length (printint_buf digits xx 16 false) ≤ 16)%nat.
Proof.
  intros Hx. unfold printint, cprintint, printint_buf. cbn [andb].
  pose proof (u32_range xx) as Hu. unfold is_u32 in Hu.
  rewrite !app_nil_r, !reverse_involutive. split_and!.
  - intros H0. rewrite (proj2 (Z.ltb_ge _ _)), app_nil_r by lia. rewrite u32_id by (unfold is_u32; lia).
    unfold atoi. rewrite atoi_loop_value; rewrite ?reverse_involutive.
    + rewrite Z.mul_0_l, digit_loop_value; [done|by left|lia| |lia]. split; [lia|]. change (10 ^ Z.of_nat 32) with (10 ^ 32). lia.
    + apply Forall_reverse. by apply digit_loop_decimal.
    + done.
    + rewrite Z.mul_0_l, digit_loop_value; [lia|by left|lia| |lia]. split; [lia|]. change (10 ^ Z.of_nat 32) with (10 ^ 32). lia.
  - intros H0. rewrite (proj2 (Z.ltb_lt _ _)) by lia. rewrite reverse_snoc. eexists. split; [done|].
    rewrite reverse_involutive. rewrite u32_id by (unfold is_u32; lia).
    apply digit_loop_value; [by left|lia| |lia]. split; [lia|]. change (10 ^ Z.of_nat 32) with (10 ^ 32). lia.
  - apply digit_loop_value; [by left|lia| |lia]. split; [lia|]. change (16 ^ Z.of_nat 32) with (16 ^ 32). lia.
  - apply digit_loop_value; [by right|lia| |lia]. split; [lia|]. change (16 ^ Z.of_nat 32) with (16 ^ 32). lia.
  - rewrite length_app. pose proof (digit_loop_length 32 digits 10 (u32 (if xx <? 0 then - xx else xx)) 9 ltac:(lia)) as H.
    pose proof (u32_range (if xx <? 0 then - xx else xx)) as Hr. unfold is_u32 in Hr.
    change (10 ^ Z.of_nat 10) with (10 ^ 10) in H. specialize (H ltac:(lia)). destruct (xx <? 0); cbn [length]; lia.
  - pose proof (digit_loop_length 32 digits 16 (u32 xx) 7 ltac:(lia)) as H.
    change (16 ^ Z.of_nat 8) with (16 ^ 8) in H. specialize (H ltac:(lia)). lia.
Qed.

Lemma printint_roundtrip_witness : atoi (printint 907 10 true) = 907 ∧ printint (-13) 10 true = [45; 49; 51].
Proof. split; [apply (printint_roundtrip 907); lia|reflexivity]. Defined.
