(* ===== verification/Console.v ===== *)
(** * console.c, uart.c and kbd.c: the console

    The devices are part of the state: the CGA text memory and the two cursor
    registers of its controller behind the ports 0x3d4 and 0x3d5, the serial port
    with the bytes it has received and sent, and the keyboard controller with the
    scan codes it has pending.  The code that runs with [cons.lock] held is one
    step; [consoleread] is the segments between its calls of [sleep].  A processor
    that stops in an endless loop is [NoFuel].

    [crt] is memory from the address 0xb8000 on in cells of 16 bits: a write to a
    cell past the screen is a write to other memory. *)

From S2P Require Import Prelude Printf.

(** ** State *)

Record screen := { crt : Z → Z; crt_idx : Z; cur_hi : Z; cur_lo : Z }.
(** [u_thre]: what the next reads of the status say about the transmitter *)
Record uartdev := { u_on : bool; u_rx : list Z; u_tx : list Z; u_thre : list bool }.
Record inbuf := { in_buf : list Z; in_r : Z; in_w : Z; in_e : Z }.
Record kbdev := { k_scan : list Z; k_shift : Z }.

(** [wakeups]: how often [wakeup(&input.r)] has been called *)
Record cons := { scr : screen; ser : uartdev; input : inbuf; kbd : kbdev; panicked : bool; locking : bool; wakeups : nat }.

Abbreviation C := (M cons).

Definition set_scr v s := {| scr := v; ser := ser s; input := input s; kbd := kbd s; panicked := panicked s; locking := locking s; wakeups := wakeups s |}.
Definition set_ser v s := {| scr := scr s; ser := v; input := input s; kbd := kbd s; panicked := panicked s; locking := locking s; wakeups := wakeups s |}.
Definition set_input v s := {| scr := scr s; ser := ser s; input := v; kbd := kbd s; panicked := panicked s; locking := locking s; wakeups := wakeups s |}.
Definition set_kbd v s := {| scr := scr s; ser := ser s; input := input s; kbd := v; panicked := panicked s; locking := locking s; wakeups := wakeups s |}.
Definition set_panicked v s := {| scr := scr s; ser := ser s; input := input s; kbd := kbd s; panicked := v; locking := locking s; wakeups := wakeups s |}.
Definition set_locking v s := {| scr := scr s; ser := ser s; input := input s; kbd := kbd s; panicked := panicked s; locking := v; wakeups := wakeups s |}.

Definition in_scr {A} (m : M screen A) : C A := zoom scr set_scr m.
Definition in_ser {A} (m : M uartdev A) : C A := zoom ser set_ser m.

(** ** The screen *)

Definition CRTPORT : Z := 0x3d4.
Definition BACKSPACE : Z := 0x100.
Definition newline : Z := 10.

Definition crt_outb (port v : Z) : M screen unit :=
  modify (λ d,
    if port =? CRTPORT then {| crt := crt d; crt_idx := u8 v; cur_hi := cur_hi d; cur_lo := cur_lo d |}
    else if crt_idx d =? 14 then {| crt := crt d; crt_idx := crt_idx d; cur_hi := u8 v; cur_lo := cur_lo d |}
    else if crt_idx d =? 15 then {| crt := crt d; crt_idx := crt_idx d; cur_hi := cur_hi d; cur_lo := u8 v |}
    else d).
Definition crt_inb (port : Z) : M screen Z :=
  gets (λ d, if port =? CRTPORT then crt_idx d else if crt_idx d =? 14 then cur_hi d else if crt_idx d =? 15 then cur_lo d else 0).

Definition with_crt (f : (Z → Z) → Z → Z) : M screen unit :=
  modify (λ d, {| crt := f (crt d); crt_idx := crt_idx d; cur_hi := cur_hi d; cur_lo := cur_lo d |}).
Definition cell (pos v : Z) (m : Z → Z) : Z → Z := λ k, if k =? pos then v else m k.
(** [memmove(crt, crt+80, sizeof(crt[0])*23*80)] *)
Definition move_up (m : Z → Z) : Z → Z := λ k, if (0 <=? k) && (k <? 23 * 80) then m (k + 80) else m k.
(** [memset(crt+pos, 0, sizeof(crt[0])*(24*80 - pos))] *)
Definition clear_from (pos : Z) (m : Z → Z) : Z → Z := λ k, if (pos <=? k) && (k <? 24 * 80) then 0 else m k.

Definition cgaputc (c : Z) : M screen unit :=
  _ ← crt_outb CRTPORT 14;
  hi ← crt_inb (CRTPORT + 1);
  _ ← crt_outb CRTPORT 15;
  lo ← crt_inb (CRTPORT + 1);
  let pos := Z.lor (Z.shiftl hi 8) lo in
  pos ← (if c =? newline then mret (pos + (80 - Z.rem pos 80))
         else if c =? BACKSPACE then mret (if 0 <? pos then pos - 1 else pos)
         else
           _ ← with_crt (cell pos (Z.lor (Z.land c 0xff) 0x0700));
           mret (pos + 1));
  if (pos <? 0) || (25 * 80 <? pos) then panic "pos under/overflow"
  else
    pos ← (if 24 <=? Z.quot pos 80 then
             _ ← with_crt move_up;
             let pos := pos - 80 in
             _ ← with_crt (clear_from pos);
             mret pos
           else mret pos);
    _ ← crt_outb CRTPORT 14;
    _ ← crt_outb (CRTPORT + 1) (Z.shiftr pos 8);
    _ ← crt_outb CRTPORT 15;
    _ ← crt_outb (CRTPORT + 1) pos;
    with_crt (cell pos (Z.lor 32 0x0700)).

(** ** The serial port *)

(** [inb(COM1+5)]: bit 5 is set when the port can send, bit 0 when it has received *)
Definition uart_status : M uartdev Z :=
  d ← get;
  _ ← put {| u_on := u_on d; u_rx := u_rx d; u_tx := u_tx d; u_thre := tail (u_thre d) |};
  mret (Z.lor (if default true (head (u_thre d)) then 0x20 else 0) (match u_rx d with [] => 0 | _ => 1 end)).

(** [outb(COM1+0, c)] and [inb(COM1+0)] *)
Definition uart_send (c : Z) : M uartdev unit :=
  modify (λ d, {| u_on := u_on d; u_rx := u_rx d; u_tx := u_tx d ++ [u8 c]; u_thre := u_thre d |}).
Definition uart_receive : M uartdev Z :=
  d ← get;
  _ ← put {| u_on := u_on d; u_rx := tail (u_rx d); u_tx := u_tx d; u_thre := u_thre d |};
  mret (default 0 (head (u_rx d))).

(** the wait in [uartputc], at most 128 rounds *)
Fixpoint uart_wait (n : nat) : M uartdev unit :=
  match n with
  | O => mret ()
  | S n =>
      st ← uart_status;
      if Z.land st 0x20 =? 0 then uart_wait n else mret ()
  end.

Definition uartputc (c : Z) : M uartdev unit :=
  on ← gets u_on;
  if negb on then mret ()
  else
    _ ← uart_wait 128;
    uart_send c.

Definition uartgetc : M uartdev Z :=
  on ← gets u_on;
  if negb on then mret (-1)
  else
    st ← uart_status;
    if Z.land st 0x01 =? 0 then mret (-1) else uart_receive.

(** "xv6...\n" *)
Definition hello : list Z := [120; 118; 54; 46; 46; 46; 10].

Fixpoint uart_puts (l : list Z) : M uartdev unit :=
  match l with
  | [] => mret ()
  | c :: l => _ ← uartputc c; uart_puts l
  end.

(** [present]: a serial port answers; the writes that set its speed and turn its
    interrupts on have no effect in the model *)
Definition uartinit (present : bool) : M uartdev unit :=
  if negb present then mret ()
  else
    _ ← modify (λ d, {| u_on := true; u_rx := tail (u_rx d); u_tx := u_tx d; u_thre := u_thre d |});
    uart_puts hello.

(** ** Output *)

(** [for(;;);] *)
Definition stopped : C unit := λ _, NoFuel.

Definition consputc (c : Z) : C unit :=
  p ← gets panicked;
  if (p : bool) then stopped
  else
    _ ← (if c =? BACKSPACE then
           _ ← in_ser (uartputc 8);
           _ ← in_ser (uartputc 32);
           in_ser (uartputc 8)
         else in_ser (uartputc c));
    in_scr (cgaputc c).

Fixpoint consputs (l : list Z) : C unit :=
  match l with
  | [] => mret ()
  | c :: l => _ ← consputc c; consputs l
  end.

(** [cprintf] with the arguments [ap] on the stack; [null_fmt]: the format is a null pointer *)
Definition cprintf_cons (null_fmt : bool) (str : Z → list Z) (ap : nat → Z) (fmt : list Z) : C unit :=
  if null_fmt then panic "null fmt" else consputs (cprintf str ap fmt).

(** "lapicid %d: panic: " and " %p" *)
Definition panic_fmt : list Z := [108; 97; 112; 105; 99; 105; 100; 32; 37; 100; 58; 32; 112; 97; 110; 105; 99; 58; 32].
Definition pc_fmt : list Z := [32; 37; 112].

Fixpoint print_pcs (str : Z → list Z) (pcs : list Z) : C unit :=
  match pcs with
  | [] => mret ()
  | pc :: pcs => _ ← cprintf_cons false str (λ _, pc) pc_fmt; print_pcs str pcs
  end.

(** [panic] up to its endless loop; the words after [s] on the stack are [ap] *)
Definition panic_print (lapicid : Z) (str : Z → list Z) (ap : nat → Z) (pcs s : list Z) : C unit :=
  _ ← modify (set_locking false);
  _ ← cprintf_cons false str (λ _, lapicid) panic_fmt;
  _ ← cprintf_cons false str ap s;
  _ ← cprintf_cons false str ap [newline];
  _ ← print_pcs str pcs;
  modify (set_panicked true).
Definition panic_cons (lapicid : Z) (str : Z → list Z) (ap : nat → Z) (pcs s : list Z) : C unit :=
  _ ← panic_print lapicid str ap pcs s;
  stopped.

(** [iunlock] and [ilock] of the inode are done by the file system *)
Definition consolewrite (buf : list Z) (n : Z) : C Z :=
  _ ← consputs ((λ b, Z.land b 0xff) <$> take (Z.to_nat n) buf);
  mret n.

(** ** Input *)

Definition INPUT_BUF : Z := 128.
Definition ctrl (x : Z) : Z := x - 64.
Definition ctrl_P : Z := ctrl 80.
Definition ctrl_U : Z := ctrl 85.
Definition ctrl_H : Z := ctrl 72.
Definition ctrl_D : Z := ctrl 68.
Definition del : Z := 0x7f.

(** [input.buf[i % INPUT_BUF]], a [char] *)
Definition i8 (z : Z) : Z := (z + 2 ^ 7) mod 2 ^ 8 - 2 ^ 7.
Definition buf_at (i : Z) (b : inbuf) : Z := i8 (in_buf b !!! Z.to_nat (u32 i mod INPUT_BUF)).

Definition set_e e b := {| in_buf := in_buf b; in_r := in_r b; in_w := in_w b; in_e := u32 e |}.
Definition set_r r b := {| in_buf := in_buf b; in_r := u32 r; in_w := in_w b; in_e := in_e b |}.

(** the loop of [^U]; it runs at most [INPUT_BUF] times *)
Fixpoint kill_line (fuel : nat) : C unit :=
  match fuel with
  | O => λ _, NoFuel
  | S fuel =>
      b ← gets input;
      if negb (in_e b =? in_w b) && negb (buf_at (in_e b - 1) b =? newline) then
        _ ← modify (λ s, set_input (set_e (in_e (input s) - 1) (input s)) s);
        _ ← consputc BACKSPACE;
        kill_line fuel
      else mret ()
  end.

(** one round of the loop of [consoleintr]; [true]: the process table is to be printed *)
Definition console_key (c : Z) : C bool :=
  if c =? ctrl_P then mret true
  else if c =? ctrl_U then _ ← kill_line (S (Z.to_nat INPUT_BUF)); mret false
  else if (c =? ctrl_H) || (c =? del) then
    b ← gets input;
    if negb (in_e b =? in_w b) then
      _ ← modify (λ s, set_input (set_e (in_e (input s) - 1) (input s)) s);
      _ ← consputc BACKSPACE;
      mret false
    else mret false
  else
    b ← gets input;
    if negb (c =? 0) && (u32 (in_e b - in_r b) <? INPUT_BUF) then
      let c := if c =? 13 then newline else c in
      _ ← modify (λ s, set_input
            {| in_buf := <[Z.to_nat (in_e b mod INPUT_BUF) := u8 c]> (in_buf b); in_r := in_r b; in_w := in_w b;
               in_e := u32 (in_e b + 1) |} s);
      _ ← consputc c;
      b ← gets input;
      if (c =? newline) || (c =? ctrl_D) || (in_e b =? u32 (in_r b + INPUT_BUF)) then
        _ ← modify (λ s, {| scr := scr s; ser := ser s;
              input := {| in_buf := in_buf b; in_r := in_r b; in_w := in_e b; in_e := in_e b |};
              kbd := kbd s; panicked := panicked s; locking := locking s; wakeups := S (wakeups s) |});
        mret false
      else mret false
    else mret false.

Fixpoint intr_loop (fuel : nat) (getc : C Z) (dump : bool) : C bool :=
  match fuel with
  | O => λ _, NoFuel
  | S fuel =>
      c ← getc;
      if c <? 0 then mret dump
      else
        d ← console_key c;
        intr_loop fuel getc (dump || d)
  end.

Definition consoleintr (fuel : nat) (getc : C Z) (procdump : C unit) : C unit :=
  dump ← intr_loop fuel getc false;
  if (dump : bool) then procdump else mret ().

(** how a segment of [consoleread] ends *)
Inductive cres := Cret (r : Z) | Csleep.

(** a segment with [n] of [target] bytes still to read: the bytes stored and how it ends *)
Fixpoint consoleread (killed : bool) (target n : nat) : C (list Z * cres) :=
  match n with
  | O => mret ([], Cret (Z.of_nat target))
  | S n' =>
      b ← gets input;
      if in_r b =? in_w b then
        mret ([], if killed then Cret (-1) else Csleep)
      else
        let c := buf_at (in_r b) b in
        _ ← modify (λ s, set_input (set_r (in_r b + 1) (input s)) s);
        if c =? ctrl_D then
          _ ← (if (n <? target)%nat then modify (λ s, set_input (set_r (in_r (input s) - 1) (input s)) s) else mret ());
          mret ([], Cret (Z.of_nat target - Z.of_nat n))
        else if c =? newline then mret ([u8 c], Cret (Z.of_nat target - Z.of_nat n'))
        else
          '(bs, r) ← consoleread killed target n';
          mret (u8 c :: bs, r)
  end.

Definition consoleinit : C unit := modify (set_locking true).
