(* ===== verification/Kbd.v ===== *)
(** * kbd.c: the keyboard

    Scan codes become characters through the tables of kbd.h; the state of the shift
    keys is kept between calls.  The table entries that C computes as [C('/')] wrap
    around in a [uchar]. *)

From S2P Require Import Prelude Console.

Definition SHIFT : Z := Z.shiftl 1 0.
Definition CTL : Z := Z.shiftl 1 1.
Definition ALT : Z := Z.shiftl 1 2.
Definition CAPSLOCK : Z := Z.shiftl 1 3.
Definition NUMLOCK : Z := Z.shiftl 1 4.
Definition SCROLLLOCK : Z := Z.shiftl 1 5.
Definition E0ESC : Z := Z.shiftl 1 6.

Definition KEY_HOME : Z := 0xE0.
Definition KEY_END : Z := 0xE1.
Definition KEY_UP : Z := 0xE2.
Definition KEY_DN : Z := 0xE3.
Definition KEY_LF : Z := 0xE4.
Definition KEY_RT : Z := 0xE5.
Definition KEY_PGUP : Z := 0xE6.
Definition KEY_PGDN : Z := 0xE7.
Definition KEY_INS : Z := 0xE8.
Definition KEY_DEL : Z := 0xE9.

(** an array of 256 bytes from its first entries and those given with an index; the
    others are 0 *)
Definition table (first : list Z) (at_ : list (Z * Z)) (i : Z) : Z :=
  match list_find (λ e, e.1 = i) at_ with
  | Some (_, (_, v)) => v
  | None => default 0 (first !! Z.to_nat i)
  end.

Definition shiftcode : Z → Z := table [] [(0x1D, CTL); (0x2A, SHIFT); (0x36, SHIFT); (0x38, ALT); (0x9D, CTL); (0xB8, ALT)].
Definition togglecode : Z → Z := table [] [(0x3A, CAPSLOCK); (0x45, NUMLOCK); (0x46, SCROLLLOCK)].

Definition normalmap : Z → Z := table
  [0; 27; 49; 50; 51; 52; 53; 54; 55; 56; 57; 48; 45; 61; 8; 9;
   113; 119; 101; 114; 116; 121; 117; 105; 111; 112; 91; 93; 10; 0; 97; 115;
   100; 102; 103; 104; 106; 107; 108; 59; 39; 96; 0; 92; 122; 120; 99; 118;
   98; 110; 109; 44; 46; 47; 0; 42; 0; 32; 0; 0; 0; 0; 0; 0;
   0; 0; 0; 0; 0; 0; 0; 55; 56; 57; 45; 52; 53; 54; 43; 49;
   50; 51; 48; 46; 0; 0; 0; 0]
  [(0x9C, 10); (0xB5, 47); (0xC8, KEY_UP); (0xD0, KEY_DN); (0xC9, KEY_PGUP); (0xD1, KEY_PGDN); (0xCB, KEY_LF); (0xCD, KEY_RT); (0x97, KEY_HOME); (0xCF, KEY_END); (0xD2, KEY_INS); (0xD3, KEY_DEL)].

Definition shiftmap : Z → Z := table
  [0; 27; 33; 64; 35; 36; 37; 94; 38; 42; 40; 41; 95; 43; 8; 9;
   81; 87; 69; 82; 84; 89; 85; 73; 79; 80; 123; 125; 10; 0; 65; 83;
   68; 70; 71; 72; 74; 75; 76; 58; 34; 126; 0; 124; 90; 88; 67; 86;
   66; 78; 77; 60; 62; 63; 0; 42; 0; 32; 0; 0; 0; 0; 0; 0;
   0; 0; 0; 0; 0; 0; 0; 55; 56; 57; 45; 52; 53; 54; 43; 49;
   50; 51; 48; 46; 0; 0; 0; 0]
  [(0x9C, 10); (0xB5, 47); (0xC8, KEY_UP); (0xD0, KEY_DN); (0xC9, KEY_PGUP); (0xD1, KEY_PGDN); (0xCB, KEY_LF); (0xCD, KEY_RT); (0x97, KEY_HOME); (0xCF, KEY_END); (0xD2, KEY_INS); (0xD3, KEY_DEL)].

Definition ctlmap : Z → Z := table
  [0; 0; 0; 0; 0; 0; 0; 0; 0; 0; 0; 0; 0; 0; 0; 0;
   17; 23; 5; 18; 20; 25; 21; 9; 15; 16; 0; 0; 13; 0; 1; 19;
   4; 6; 7; 8; 10; 11; 12; 0; 0; 0; 0; 28; 26; 24; 3; 22;
   2; 14; 13; 0; 0; 239; 0; 0]
  [(0x9C, 13); (0xB5, 239); (0xC8, KEY_UP); (0xD0, KEY_DN); (0xC9, KEY_PGUP); (0xD1, KEY_PGDN); (0xCB, KEY_LF); (0xCD, KEY_RT); (0x97, KEY_HOME); (0xCF, KEY_END); (0xD2, KEY_INS); (0xD3, KEY_DEL)].

(** [charcode[k]] *)
Definition charcode (k : Z) : Z → Z := if k =? 0 then normalmap else if k =? 1 then shiftmap else ctlmap.

Definition set_shift (v : Z) : C unit :=
  modify (λ s, set_kbd {| k_scan := k_scan (kbd s); k_shift := v |} s).

(** [inb(KBSTATP)] and [inb(KBDATAP)] *)
Definition kbd_status : C Z := gets (λ s, match k_scan (kbd s) with [] => 0 | _ => 1 end).
Definition kbd_data : C Z :=
  s ← get;
  _ ← put (set_kbd {| k_scan := tail (k_scan (kbd s)); k_shift := k_shift (kbd s) |} s);
  mret (default 0 (head (k_scan (kbd s)))).

Definition kbdgetc : C Z :=
  st ← kbd_status;
  if Z.land st 0x01 =? 0 then mret (-1)
  else
    data ← kbd_data;
    shift ← gets (λ s, k_shift (kbd s));
    if data =? 0xE0 then
      _ ← set_shift (Z.lor shift E0ESC);
      mret 0
    else if negb (Z.land data 0x80 =? 0) then
      let data := if negb (Z.land shift E0ESC =? 0) then data else Z.land data 0x7F in
      _ ← set_shift (Z.ldiff shift (Z.lor (shiftcode data) E0ESC));
      mret 0
    else
      let esc := negb (Z.land shift E0ESC =? 0) in
      let data := if esc then Z.lor data 0x80 else data in
      let shift := if esc then Z.ldiff shift E0ESC else shift in
      let shift := Z.lxor (Z.lor shift (shiftcode data)) (togglecode data) in
      _ ← set_shift shift;
      let c := charcode (Z.land shift (Z.lor CTL SHIFT)) data in
      if negb (Z.land shift CAPSLOCK =? 0) then
        if (97 <=? c) && (c <=? 122) then mret (c + (65 - 97))
        else if (65 <=? c) && (c <=? 90) then mret (c + (97 - 65))
        else mret c
      else mret c.

(** every scan code that is pending takes one round of the loop *)
Definition kbdintr (procdump : C unit) : C unit :=
  n ← gets (λ s, length (k_scan (kbd s)));
  consoleintr (S n) kbdgetc procdump.

Definition uartintr (procdump : C unit) : C unit :=
  n ← gets (λ s, length (u_rx (ser s)));
  consoleintr (S n) (in_ser uartgetc) procdump.
