(* ===== verification/ConsoleSpec.v ===== *)
(** * The console as a terminal

    What the console does, without rings and registers: a terminal ([term]) has the
    text that was written, as cells in lines of 80, the number of lines that have
    scrolled off, the input lines that are complete, and the line being edited. *)

From S2P Require Import Prelude Console.

(** ** The screen *)

Definition WIDTH : Z := 80.
Definition SCREEN : Z := 24 * 80.

Definition cursor (d : screen) : Z := Z.lor (Z.shiftl (cur_hi d) 8) (cur_lo d).
Definition set_cursor (m : Z → Z) (pos : Z) : screen :=
  {| crt := cell pos (Z.lor 32 0x0700) m; crt_idx := 15; cur_hi := u8 (Z.shiftr pos 8); cur_lo := u8 pos |}.

(** memory and position after the character is placed, and after scrolling *)
Definition placed (c pos : Z) (m : Z → Z) : (Z → Z) * Z :=
  if c =? newline then (m, pos + (80 - Z.rem pos 80))
  else if c =? BACKSPACE then (m, if 0 <? pos then pos - 1 else pos)
  else (cell pos (Z.lor (Z.land c 0xff) 0x0700) m, pos + 1).
Definition scrolled (m : Z → Z) (pos : Z) : (Z → Z) * Z :=
  if 24 <=? Z.quot pos 80 then (clear_from (pos - 80) (move_up m), pos - 80) else (m, pos).

Lemma cgaputc_eq c d :
  cgaputc c d =
  let '(m, pos) := placed c (cursor d) (crt d) in
  if (pos <? 0) || (25 * 80 <? pos) then Panic "pos under/overflow"
  else let '(m, pos) := scrolled m pos in Ret () (set_cursor m pos).
Proof.
  unfold cgaputc, placed, scrolled, cursor. destruct d as [m i hi lo].
  destruct (c =? newline); [|destruct (c =? BACKSPACE)]; unfold mbind, M_bind, crt_outb, crt_inb, modify, gets;
    cbn -[Z.lor Z.shiftl Z.rem Z.quot Z.shiftr u8 Z.ltb Z.leb];
    change (u8 14) with 14; change (u8 15) with 15; cbn -[Z.lor Z.shiftl Z.rem Z.quot Z.shiftr u8 Z.ltb Z.leb];
    (destruct ((_ <? _) || _); [done|destruct (24 <=? _); reflexivity]).
Qed.

(** the cursor is on the screen *)
Definition screen_ok (d : screen) : Prop := is_u8 (cur_hi d) ∧ is_u8 (cur_lo d) ∧ cursor d < SCREEN.

Lemma cursor_sum d : is_u8 (cur_hi d) → is_u8 (cur_lo d) → cursor d = 256 * cur_hi d + cur_lo d.
Proof.
  unfold is_u8. intros H1 H2. unfold cursor. rewrite Z.shiftl_mul_pow2 by lia. rewrite (lor_low 8); [lia|done| |done].
  apply Z.mod_mul. lia.
Qed.

Lemma screen_cursor d : screen_ok d → 0 ≤ cursor d < SCREEN.
Proof. intros (H1 & H2 & H3). rewrite cursor_sum in * by done. unfold is_u8 in *. lia. Qed.

Lemma cursor_set m pos : 0 ≤ pos < SCREEN → screen_ok (set_cursor m pos) ∧ cursor (set_cursor m pos) = pos.
Proof.
  unfold SCREEN. intros Hp. assert (H1 : is_u8 (u8 (Z.shiftr pos 8))) by (unfold is_u8, u8; zdm).
  assert (H2 : is_u8 (u8 pos)) by (unfold is_u8, u8; zdm).
  assert (E : cursor (set_cursor m pos) = pos).
  { rewrite cursor_sum by done. cbn [cur_hi cur_lo set_cursor]. rewrite Z.shiftr_div_pow2 by lia. unfold u8. change (2 ^ 8) with 256. zdm. }
  split; [|done]. split_and!; [done..|]. rewrite E. unfold SCREEN. lia.
Qed.

Lemma placed_range c pos m : 0 ≤ pos < SCREEN → 0 ≤ (placed c pos m).2 ≤ SCREEN.
Proof.
  unfold SCREEN, placed. intros Hp. destruct (c =? newline); [|destruct (c =? BACKSPACE)]; cbn [snd].
  - rewrite Z.rem_mod_nonneg by lia. zdm.
  - destruct (Z.ltb_spec 0 pos); lia.
  - lia.
Qed.

Lemma scrolled_range m pos : 0 ≤ pos ≤ SCREEN → 0 ≤ (scrolled m pos).2 < SCREEN.
Proof.
  unfold SCREEN, scrolled. intros Hp. rewrite Z.quot_div_nonneg by lia. destruct (Z.leb_spec 24 (pos / 80)); cbn [snd]; zdm.
Qed.

Lemma cgaputc_ret c d :
  screen_ok d → let '(m, pos) := placed c (cursor d) (crt d) in let '(m, pos) := scrolled m pos in
  cgaputc c d = Ret () (set_cursor m pos) ∧ 0 ≤ pos < SCREEN.
Proof.
  intros Hok. pose proof (screen_cursor d Hok) as Hp.
  rewrite cgaputc_eq. pose proof (placed_range c (cursor d) (crt d) Hp) as Hr. destruct (placed c (cursor d) (crt d)) as [m pos].
  cbn [snd] in Hr. pose proof (scrolled_range m pos Hr) as Hs. destruct (scrolled m pos) as [m' pos']. cbn [snd] in Hs.
  unfold SCREEN in *. rewrite (proj2 (Z.ltb_ge _ _)), (proj2 (Z.ltb_ge _ _)) by lia. done.
Qed.

(** memory outside the screen *)
Definition same_offscreen (m m' : Z → Z) : Prop := ∀ k, ¬ 0 ≤ k < SCREEN → m' k = m k.

Lemma offscreen_trans m m1 m2 : same_offscreen m m1 → same_offscreen m1 m2 → same_offscreen m m2.
Proof. intros H1 H2 k Hk. by rewrite H2, H1. Qed.

Lemma cell_offscreen pos v m : 0 ≤ pos < SCREEN → same_offscreen m (cell pos v m).
Proof. intros Hp k Hk. unfold cell. destruct (Z.eqb_spec k pos); [lia|done]. Qed.

Lemma placed_offscreen c pos m : 0 ≤ pos < SCREEN → same_offscreen m (placed c pos m).1.
Proof.
  intros Hp. unfold placed. destruct (c =? newline); [done|]. destruct (c =? BACKSPACE); [done|]. by apply cell_offscreen.
Qed.

Lemma scrolled_offscreen m pos : 0 ≤ pos ≤ SCREEN → same_offscreen m (scrolled m pos).1.
Proof.
  unfold SCREEN. intros Hp k Hk. unfold SCREEN in Hk. unfold scrolled. destruct (24 <=? Z.quot pos 80) eqn:E; [|done]. cbn [fst].
  rewrite Z.quot_div_nonneg in E by lia. apply Z.leb_le in E. unfold clear_from, move_up.
  destruct (Z.leb_spec (pos - 80) k), (Z.ltb_spec k (24 * 80)), (Z.leb_spec 0 k), (Z.ltb_spec k (23 * 80)); cbn [andb]; try done; zdm.
Qed.

Lemma cgaputc_bounds c d : screen_ok d → runs (cgaputc c) d (λ _ d', screen_ok d' ∧ same_offscreen (crt d) (crt d')).
Proof.
  intros Hok. pose proof (cgaputc_ret c d Hok) as Hret. pose proof (screen_cursor d Hok) as Hcr.
  pose proof (placed_range c _ (crt d) Hcr) as Hr. pose proof (placed_offscreen c _ (crt d) Hcr) as Ho1.
  destruct (placed c (cursor d) (crt d)) as [m pos]. cbn [fst snd] in *. pose proof (scrolled_offscreen m pos Hr) as Ho2.
  destruct (scrolled m pos) as [m' pos']. cbn [fst] in *. destruct Hret as [Hrun Hpos]. exists (), (set_cursor m' pos').
  split; [done|]. split; [by apply cursor_set|]. eapply offscreen_trans; [done|]. eapply offscreen_trans; [done|by apply cell_offscreen].
Qed.

(** ** Text on the screen *)

(** the cells written so far, [None] for those that a newline skipped, and the
    number of lines that have scrolled off *)
Record text := { cells : list (option Z); top : Z }.

Definition column (t : text) : Z := Z.of_nat (length (cells t)) - WIDTH * top t.

Definition put_text (c : Z) (t : text) : text :=
  let pos := column t in
  let l :=
    if c =? newline then cells t ++ replicate (Z.to_nat (WIDTH - pos mod WIDTH)) None
    else if c =? BACKSPACE then (if 0 <? pos then removelast (cells t) else cells t)
    else cells t ++ [Some (Z.land c 0xff)] in
  {| cells := l; top := if Z.of_nat (length l) - WIDTH * top t =? SCREEN then top t + 1 else top t |}.

Definition cell_is (o : option Z) (v : Z) : Prop :=
  match o with Some c => v = Z.lor c 0x0700 | None => v = 0 ∨ v = 0x0720 end.

(** the cell of the text that belongs at a place of the screen *)
Definition text_at (l : list (option Z)) (tp k : Z) : option Z := mjoin (l !! Z.to_nat (WIDTH * tp + k)).

Definition on_screen (m : Z → Z) (l : list (option Z)) (tp : Z) : Prop :=
  ∀ k, 0 ≤ k < SCREEN → cell_is (text_at l tp k) (m k).

Record shows (d : screen) (t : text) : Prop := {
  sh_ok : screen_ok d;
  sh_top : 0 ≤ top t;
  sh_cursor : cursor d = column t;
  sh_cells : on_screen (crt d) (cells t) (top t) }.

Lemma text_at_past l tp k : 0 ≤ tp → 0 ≤ k → Z.of_nat (length l) - WIDTH * tp ≤ k → text_at l tp k = None.
Proof. intros Ht Hk Hle. unfold text_at. rewrite lookup_ge_None_2; [done|]. unfold WIDTH in *. lia. Qed.

Lemma text_at_app l l' tp k : 0 ≤ tp → 0 ≤ k < Z.of_nat (length l) - WIDTH * tp → text_at (l ++ l') tp k = text_at l tp k.
Proof. intros Ht Hk. unfold text_at. rewrite lookup_app_l; [done|]. unfold WIDTH in *. lia. Qed.

(** the position may move on over cells that are blank *)
Lemma on_screen_blanks m l tp n : 0 ≤ tp → on_screen m l tp → on_screen m (l ++ replicate n None) tp.
Proof.
  intros Ht Hm k Hk. specialize (Hm k Hk). unfold text_at in *. destruct (decide (Z.to_nat (WIDTH * tp + k) < length l)%nat).
  - by rewrite lookup_app_l.
  - rewrite lookup_ge_None_2 in Hm by lia. rewrite lookup_app_r by lia.
    destruct (replicate n None !! _) as [o|] eqn:E; [|done]. apply lookup_replicate_1 in E as [-> _]. done.
Qed.

Lemma on_screen_cell m l tp pos o v :
  0 ≤ tp → 0 ≤ pos → Z.of_nat (length l) = WIDTH * tp + pos → cell_is o v → on_screen m l tp →
  on_screen (cell pos v m) (l ++ [o]) tp.
Proof.
  intros Ht Hp Hl Hv Hm k Hk. unfold cell. destruct (Z.eqb_spec k pos) as [->|Hne].
  - unfold text_at. rewrite lookup_app_r by lia. replace (_ - _)%nat with 0%nat by lia. done.
  - destruct (decide (k < pos)).
    + rewrite text_at_app by lia. by apply Hm.
    + specialize (Hm k Hk). rewrite text_at_past in Hm by (unfold WIDTH in *; lia).
      rewrite text_at_past; [done|done|lia|]. rewrite length_app. cbn. lia.
Qed.

(** the cell at the cursor is blank *)
Lemma on_screen_cursor m l tp pos :
  0 ≤ tp → Z.of_nat (length l) = WIDTH * tp + pos → 0 ≤ pos → on_screen m l tp → on_screen (cell pos (Z.lor 32 0x0700) m) l tp.
Proof.
  intros Ht Hl Hp Hm k Hk. unfold cell. destruct (Z.eqb_spec k pos) as [->|Hne]; [|by apply Hm].
  rewrite text_at_past by lia. by right.
Qed.

Lemma on_screen_scroll m l tp pos :
  0 ≤ tp → Z.of_nat (length l) = WIDTH * tp + pos → pos = SCREEN → on_screen m l tp →
  on_screen (clear_from (pos - 80) (move_up m)) l (tp + 1).
Proof.
  intros Ht Hl -> Hm k Hk. unfold SCREEN in *. unfold clear_from, move_up.
  destruct (Z.leb_spec (24 * 80 - 80) k), (Z.ltb_spec k (24 * 80)), (Z.leb_spec 0 k), (Z.ltb_spec k (23 * 80)); cbn [andb]; try lia.
  - rewrite text_at_past; [by left|lia..|unfold WIDTH in *; lia].
  - specialize (Hm (k + 80)). unfold text_at in *. replace (WIDTH * (tp + 1) + k) with (WIDTH * tp + (k + 80)) by (unfold WIDTH; lia).
    apply Hm. unfold SCREEN. lia.
Qed.

Lemma on_screen_back m l tp pos :
  0 ≤ tp → Z.of_nat (length l) = WIDTH * tp + pos → 0 < pos → on_screen m l tp →
  on_screen (cell (pos - 1) (Z.lor 32 0x0700) m) (removelast l) tp ∧ Z.of_nat (length (removelast l)) = WIDTH * tp + (pos - 1).
Proof.
  intros Ht Hl Hp Hm. destruct l as [|x l _] using rev_ind; [cbn in Hl; unfold WIDTH in *; lia|].
  rewrite removelast_last. rewrite length_app in Hl. cbn in Hl. split; [|lia].
  intros k Hk. unfold cell. destruct (Z.eqb_spec k (pos - 1)) as [->|Hne].
  - rewrite text_at_past by lia. by right.
  - specialize (Hm k Hk). destruct (decide (k < pos - 1)); [by rewrite text_at_app in Hm by lia|].
    rewrite text_at_past in * by (rewrite ?length_app; cbn; lia). done.
Qed.

(** the text after the character is placed, before the screen scrolls *)
Lemma placed_shows c d t :
  shows d t →
  let '(m, pos) := placed c (cursor d) (crt d) in
  let l := cells (put_text c t) in
  Z.of_nat (length l) = WIDTH * top t + pos ∧
  (on_screen m l (top t) ∨ c = BACKSPACE ∧ pos < SCREEN ∧ on_screen (cell pos (Z.lor 32 0x0700) m) l (top t)).
Proof.
  intros [Hok Ht Hc Hm]. unfold column in Hc. pose proof (screen_cursor d Hok) as Hp.
  unfold placed, put_text, column. rewrite <- Hc. destruct (c =? newline) eqn:E1; [|destruct (Z.eqb_spec c BACKSPACE) as [->|E2]]; cbn [cells].
  - rewrite Z.rem_mod_nonneg by lia. change 80 with WIDTH. split; [|left; by apply on_screen_blanks].
    rewrite length_app, length_replicate. pose proof (Z.mod_pos_bound (cursor d) WIDTH ltac:(done)). lia.
  - destruct (Z.ltb_spec 0 (cursor d)) as [H0|H0].
    + destruct (on_screen_back (crt d) (cells t) (top t) (cursor d)) as [Hs Hl]; [lia..|done|]. split; [done|].
      right. split_and!; [done|lia|done].
    + split; [lia|by left].
  - split; [rewrite length_app; cbn; lia|left]. apply on_screen_cell; [done|lia..|done|done].
Qed.

Lemma cgaputc_shows c d t :
  shows d t → runs (cgaputc c) d (λ _ d', shows d' (put_text c t) ∧ same_offscreen (crt d) (crt d')).
Proof.
  intros Hsh. pose proof Hsh as [Hok Ht Hc Hm]. pose proof (placed_shows c d t Hsh) as Hp.
  pose proof (cgaputc_ret c d Hok) as Hret. pose proof (screen_cursor d Hok) as Hcr.
  pose proof (placed_range c _ (crt d) Hcr) as Hr. pose proof (placed_offscreen c _ (crt d) Hcr) as Ho1.
  destruct (placed c (cursor d) (crt d)) as [m pos]. cbn [fst snd] in *. destruct Hp as [Hl Hs].
  pose proof (scrolled_offscreen m pos Hr) as Ho2.
  assert (Etop : top (put_text c t) = if pos =? SCREEN then top t + 1 else top t).
  { unfold put_text in *. cbn [cells top] in *. rewrite Hl. replace (WIDTH * top t + pos - WIDTH * top t) with pos by lia. done. }
  assert (Esc : (24 <=? Z.quot pos 80) = (pos =? SCREEN)).
  { unfold SCREEN in *. rewrite Z.quot_div_nonneg by lia. destruct (Z.leb_spec 24 (pos / 80)), (Z.eqb_spec pos (24 * 80)); zdm. }
  unfold scrolled in *. rewrite Esc in *. destruct (Z.eqb_spec pos SCREEN) as [E|E]; cbn [fst] in *.
  - destruct Hret as [Hrun Hpos]. exists (), (set_cursor (clear_from (pos - 80) (move_up m)) (pos - 80)). split; [done|].
    destruct (cursor_set (clear_from (pos - 80) (move_up m)) _ Hpos) as [Hok' Hcur].
    assert (Hs' : on_screen m (cells (put_text c t)) (top t)) by (destruct Hs as [|(_ & ? & _)]; [done|lia]).
    split; [|eapply offscreen_trans; [done|eapply offscreen_trans; [done|by apply cell_offscreen]]].
    assert (Hl' : Z.of_nat (length (cells (put_text c t))) = WIDTH * (top t + 1) + (pos - 80)) by (unfold WIDTH in *; lia).
    constructor; [done|lia|rewrite Hcur; unfold column; lia|]. rewrite Etop. apply on_screen_cursor; [lia|done|lia|].
    by apply on_screen_scroll.
  - destruct Hret as [Hrun Hpos]. exists (), (set_cursor m pos). split; [done|]. destruct (cursor_set m _ Hpos) as [Hok' Hcur].
    split; [|eapply offscreen_trans; [done|by apply cell_offscreen]].
    constructor; [done|lia|rewrite Hcur; unfold column; lia|]. rewrite Etop. destruct Hs as [Hs|(_ & _ & Hs)]; [|done].
    apply on_screen_cursor; [done|done|lia|done].
Qed.

(** ** The serial port *)

(** [l] has been sent *)
Record sent (u : uartdev) (l : list Z) (u' : uartdev) : Prop := {
  se_on : u_on u' = u_on u;
  se_rx : u_rx u' = u_rx u;
  se_tx : u_tx u' = u_tx u ++ (if u_on u then l else []) }.

Lemma sent_trans u l u1 l' u2 : sent u l u1 → sent u1 l' u2 → sent u (l ++ l') u2.
Proof. intros [A1 B1 C1] [A2 B2 C2]. constructor; [congruence..|]. rewrite C2, C1, A1. destruct (u_on u); by rewrite ?app_nil_r, <- ?app_assoc. Qed.

Lemma sent_nil u : sent u [] u.
Proof. constructor; [done..|]. destruct (u_on u); by rewrite app_nil_r. Qed.

Lemma uart_wait_runs n : ∀ u, runs (uart_wait n) u (λ _ u', u_on u' = u_on u ∧ u_rx u' = u_rx u ∧ u_tx u' = u_tx u).
Proof.
  induction n as [|n IH]; intros u; cbn [uart_wait]; [by apply runs_ret|]. apply runs_bind. unfold uart_status.
  set (u1 := {| u_on := u_on u; u_rx := u_rx u; u_tx := u_tx u; u_thre := tail (u_thre u) |}).
  eexists _, u1. split; [reflexivity|]. case_match; [apply (IH u1)|by apply runs_ret].
Qed.

Lemma uartputc_runs c u : runs (uartputc c) u (λ _ u', sent u [u8 c] u').
Proof.
  unfold uartputc. rprim. destruct (u_on u) eqn:E; cbn [negb].
  - eapply runs_bind_mono; [apply uart_wait_runs|]. cbn beta. intros _ u1 (H1 & H2 & H3). apply runs_modify. constructor; cbn; [done..|].
    by rewrite E, H3.
  - apply runs_ret. constructor; [done..|]. by rewrite E, app_nil_r.
Qed.

Lemma runs_in_scr {A} (m : M screen A) s (Q : A → cons → Prop) :
  runs m (scr s) (λ a d, Q a (set_scr d s)) → runs (in_scr m) s Q.
Proof. intros (a & d & E & HQ). exists a, (set_scr d s). split; [|done]. unfold in_scr. by rewrite (zoom_Ret _ _ _ _ _ _ E). Qed.
Lemma runs_in_ser {A} (m : M uartdev A) s (Q : A → cons → Prop) :
  runs m (ser s) (λ a d, Q a (set_ser d s)) → runs (in_ser m) s Q.
Proof. intros (a & d & E & HQ). exists a, (set_ser d s). split; [|done]. unfold in_ser. by rewrite (zoom_Ret _ _ _ _ _ _ E). Qed.

(** the bytes that stand for a character on the serial line *)
Definition wire (c : Z) : list Z := if c =? BACKSPACE then [8; 32; 8] else [u8 c].

Definition transmits (m : C unit) (l : list Z) : Prop :=
  ∀ s, runs m s (λ _ s', ∃ u, s' = set_ser u s ∧ sent (ser s) l u).

Lemma transmits_putc c : transmits (in_ser (uartputc c)) [u8 c].
Proof. intros s. apply runs_in_ser. eapply runs_mono; [apply uartputc_runs|]. cbn beta. eauto. Qed.
Lemma transmits_bind m l k l' : transmits m l → transmits k l' → transmits (_ ← m; k) (l ++ l').
Proof.
  intros Hm Hk s. eapply runs_bind_mono; [apply Hm|]. cbn beta. intros [] s1 (u1 & -> & H1).
  eapply runs_mono; [apply Hk|]. cbn beta. intros [] s2 (u2 & -> & H2). exists u2. split; [done|]. by eapply sent_trans.
Qed.

Lemma consputc_runs c s (R : screen → Prop) (Q : unit → cons → Prop) :
  panicked s = false → runs (cgaputc c) (scr s) (λ _ d, R d) →
  (∀ d u, R d → sent (ser s) (wire c) u → Q () (set_scr d (set_ser u s))) → runs (consputc c) s Q.
Proof.
  intros Hp Hc HQ. unfold consputc. rprim. rewrite Hp.
  apply (runs_bind_mono _ _ _ (λ _ s', ∃ u, s' = set_ser u s ∧ sent (ser s) (wire c) u)); [|intros [] s1 (u & -> & Hu); apply runs_in_scr; eapply runs_mono; [exact Hc|intros [] d Hd; by apply HQ]].
  generalize s. change (transmits (if c =? BACKSPACE then _ ← in_ser (uartputc 8); _ ← in_ser (uartputc 32); in_ser (uartputc 8)
    else in_ser (uartputc c)) (wire c)). unfold wire. destruct (c =? BACKSPACE); [|apply transmits_putc].
  apply (transmits_bind _ [8]); [apply (transmits_putc 8)|]. apply (transmits_bind _ [32]); [apply (transmits_putc 32)|apply (transmits_putc 8)].
Qed.

(** ** The terminal *)

(** [t_com]: the bytes that are ready to be read; [t_line]: the line being edited *)
Record term := { t_text : text; t_tx : list Z; t_com : list Z; t_line : list Z; t_wakes : nat }.

Section term.
  (** there is a serial port *)
  Context (on : bool).

Definition put_term (c : Z) (t : term) : term :=
  {| t_text := put_text c (t_text t); t_tx := t_tx t ++ (if on then wire c else []); t_com := t_com t;
     t_line := t_line t; t_wakes := t_wakes t |}.

Definition with_line (l : list Z) (t : term) : term :=
  {| t_text := t_text t; t_tx := t_tx t; t_com := t_com t; t_line := l; t_wakes := t_wakes t |}.
Definition with_com (l : list Z) (t : term) : term :=
  {| t_text := t_text t; t_tx := t_tx t; t_com := l; t_line := t_line t; t_wakes := t_wakes t |}.

Definition rub_out (t : term) : term :=
  match t_line t with [] => t | l => put_term BACKSPACE (with_line (removelast l) t) end.

Definition commit (t : term) : term :=
  {| t_text := t_text t; t_tx := t_tx t; t_com := t_com t ++ t_line t; t_line := []; t_wakes := S (t_wakes t) |}.

Definition t_room (t : term) : Z := INPUT_BUF - Z.of_nat (length (t_com t)) - Z.of_nat (length (t_line t)).

Definition t_key (c : Z) (t : term) : term :=
  if c =? ctrl_P then t
  else if c =? ctrl_U then Nat.iter (length (t_line t)) rub_out t
  else if (c =? ctrl_H) || (c =? del) then rub_out t
  else if (c =? 0) || (t_room t =? 0) then t
  else
    let c := if c =? 13 then newline else c in
    let t := put_term c (with_line (t_line t ++ [u8 c]) t) in
    if (c =? newline) || (c =? ctrl_D) || (t_room t =? 0) then commit t else t.

Fixpoint t_read (killed : bool) (target n : nat) (t : term) : (list Z * cres) * term :=
  match n with
  | O => (([], Cret (Z.of_nat target)), t)
  | S n' =>
      match t_com t with
      | [] => (([], if killed then Cret (-1) else Csleep), t)
      | c :: com =>
          if c =? ctrl_D then
            (([], Cret (Z.of_nat target - Z.of_nat n)), if (n <? target)%nat then t else with_com com t)
          else if c =? newline then (([c], Cret (Z.of_nat target - Z.of_nat n')), with_com com t)
          else
            let '((bs, r), t) := t_read killed target n' (with_com com t) in
            ((c :: bs, r), t)
      end
  end.

(** ** The ring buffer *)

Record ring (b : inbuf) (com line : list Z) : Prop := {
  rg_len : length (in_buf b) = Z.to_nat INPUT_BUF;
  rg_r : is_u32 (in_r b);
  rg_w : in_w b = u32 (in_r b + Z.of_nat (length com));
  rg_e : in_e b = u32 (in_r b + Z.of_nat (length com) + Z.of_nat (length line));
  rg_fit : Z.of_nat (length com) + Z.of_nat (length line) ≤ INPUT_BUF;
  rg_bytes i x : (com ++ line) !! i = Some x → in_buf b !! Z.to_nat ((in_r b + Z.of_nat i) mod INPUT_BUF) = Some x;
  rg_u8 : Forall (λ x, is_u8 x) (com ++ line) }.

Record models (s : cons) (t : term) : Prop := {
  mo_run : panicked s = false;
  mo_scr : shows (scr s) (t_text t);
  mo_ser : u_on (ser s) = on ∧ u_tx (ser s) = t_tx t;
  mo_in : ring (input s) (t_com t) (t_line t);
  mo_wakes : wakeups s = t_wakes t }.

Lemma u32_mod_ring z : u32 z mod INPUT_BUF = z mod INPUT_BUF.
Proof. unfold u32, INPUT_BUF. change (2 ^ 32) with (128 * 33554432). rewrite Z.rem_mul_r by lia. rewrite Z.mul_comm, Z.mod_add by lia. apply Z.mod_mod. lia. Qed.

Lemma u32_add_l a b : u32 (u32 a + b) = u32 (a + b).
Proof. unfold u32. apply Zplus_mod_idemp_l. Qed.

Lemma i8_u8 x : is_u8 x → u8 (i8 x) = x ∧ ∀ c, 0 ≤ c < 128 → (i8 x =? c) = (x =? c).
Proof.
  unfold is_u8, u8, i8. change (2 ^ 8) with 256. change (2 ^ 7) with 128. intros Hx.
  split; [zdm|]. intros c Hc. destruct (Z.eqb_spec x c), (Z.eqb_spec ((x + 128) mod 256 - 128) c); zdm.
Qed.

Lemma ring_at b com line i x : ring b com line → (com ++ line) !! i = Some x → buf_at (in_r b + Z.of_nat i) b = i8 x.
Proof.
  intros Hr Hi. unfold buf_at. rewrite u32_mod_ring. by rewrite (list_lookup_total_correct _ _ _ (rg_bytes _ _ _ Hr _ _ Hi)).
Qed.

(** the counters tell whether a part is empty *)
Lemma ring_no_line b com line : ring b com line → (in_e b =? in_w b) = bool_decide (line = []).
Proof.
  intros [_ Hr Hw He Hf _ _]. rewrite He, Hw. unfold is_u32, u32, INPUT_BUF in *.
  destruct line as [|x line]; [rewrite Z.add_0_r, bool_decide_eq_true_2 by done; apply Z.eqb_refl|].
  rewrite bool_decide_eq_false_2 by done. apply Z.eqb_neq. cbn [length] in *. zdm.
Qed.
Lemma ring_no_com b com line : ring b com line → (in_r b =? in_w b) = bool_decide (com = []).
Proof.
  intros [_ Hr Hw He Hf _ _]. rewrite Hw. unfold is_u32, u32, INPUT_BUF in *.
  destruct com as [|x com]; [rewrite Z.add_0_r, bool_decide_eq_true_2 by done; apply Z.eqb_eq; zdm|].
  rewrite bool_decide_eq_false_2 by done. apply Z.eqb_neq. cbn [length] in *. zdm.
Qed.
Lemma ring_count b com line : ring b com line → u32 (in_e b - in_r b) = Z.of_nat (length com) + Z.of_nat (length line).
Proof.
  intros [_ Hr Hw He Hf _ _]. rewrite He. unfold u32, is_u32, INPUT_BUF in *. rewrite Zminus_mod_idemp_l.
  replace (_ - in_r b) with (Z.of_nat (length com) + Z.of_nat (length line)) by lia. apply Z.mod_small. lia.
Qed.

Lemma ring_drop b com line x : ring b com (line ++ [x]) → ring (set_e (in_e b - 1) b) com line.
Proof.
  intros [Hl Hr Hw He Hf Hb Hu]. rewrite length_app in *. cbn in He, Hf. constructor; cbn; try done.
  - rewrite He. unfold u32. rewrite Zminus_mod_idemp_l. f_equal. lia.
  - lia.
  - intros i y Hi. apply Hb. rewrite app_assoc. by apply lookup_app_l_Some.
  - rewrite app_assoc, Forall_app in Hu. apply Hu.
Qed.

Lemma ring_commit b com line :
  ring b com line → ring {| in_buf := in_buf b; in_r := in_r b; in_w := in_e b; in_e := in_e b |} (com ++ line) [].
Proof.
  intros [Hl Hr Hw He Hf Hb Hu]. constructor; cbn; rewrite ?length_app, ?app_nil_r; try done.
  - rewrite He. f_equal. lia.
  - rewrite He. f_equal. lia.
  - lia.
Qed.

Lemma ring_take b c com line : ring b (c :: com) line → ring (set_r (in_r b + 1) b) com line.
Proof.
  intros [Hl Hr Hw He Hf Hb Hu]. cbn in Hw, He, Hf. constructor; cbn; try done.
  - apply u32_range.
  - rewrite Hw. unfold u32. rewrite Zplus_mod_idemp_l. f_equal. lia.
  - rewrite He. symmetry. unfold u32. rewrite <- Z.add_assoc, Zplus_mod_idemp_l. f_equal. lia.
  - lia.
  - intros i y Hi. rewrite <- (u32_mod_ring (_ + _)), u32_add_l, u32_mod_ring. rewrite <- (Hb (S i) y Hi). do 3 f_equal. lia.
  - by apply Forall_cons in Hu as [_ ?].
Qed.

(** taking a byte back *)
Lemma ring_untake b com line x :
  ring b (x :: com) line → set_r (in_r (set_r (in_r b + 1) b) - 1) (set_r (in_r b + 1) b) = b.
Proof.
  intros Hr. pose proof (rg_r _ _ _ Hr) as Hu. destruct b as [l r w e]. unfold set_r. cbn in *. f_equal. unfold u32.
  rewrite Zminus_mod_idemp_l. replace (r + 1 - 1) with r by lia. by apply Z.mod_small.
Qed.

Lemma ring_push b com line x :
  ring b com line → is_u8 x → Z.of_nat (length com) + Z.of_nat (length line) < INPUT_BUF →
  ring {| in_buf := <[Z.to_nat (in_e b mod INPUT_BUF) := x]> (in_buf b); in_r := in_r b; in_w := in_w b; in_e := u32 (in_e b + 1) |}
    com (line ++ [x]).
Proof.
  intros [Hl Hr Hw He Hf Hb Hu] Hx Hlt. set (n := (length com + length line)%nat).
  assert (Ee : in_e b mod INPUT_BUF = (in_r b + Z.of_nat n) mod INPUT_BUF).
  { rewrite He, u32_mod_ring. f_equal. lia. }
  assert (Hrange : ∀ z, 0 ≤ z mod INPUT_BUF < 128) by (intros z; apply Z.mod_pos_bound; done).
  constructor; cbn [in_buf in_r in_w in_e]; try done.
  - by rewrite length_insert.
  - rewrite length_app, He. cbn. unfold u32. rewrite Zplus_mod_idemp_l. f_equal. lia.
  - rewrite length_app. cbn. lia.
  - intros i y. rewrite app_assoc. intros [[Hi Hy]|[Hi <-]]%lookup_snoc_Some; rewrite Ee.
    + rewrite length_app in Hi. rewrite list_lookup_insert_ne; [by apply Hb|]. intros E%Z2Nat.inj; [|apply Hrange..].
      unfold INPUT_BUF in *. zdm.
    + rewrite length_app in Hi. subst i. fold n. apply list_lookup_insert_eq. rewrite Hl. pose proof (Hrange (in_r b + Z.of_nat n)). unfold INPUT_BUF in *. lia.
  - rewrite app_assoc, Forall_app. split; [done|by constructor].
Qed.

(** ** The operations *)

(** the line being edited never has a newline *)
Definition tty_ok (t : term) : Prop := newline ∉ t_line t.

(** pending input of the devices, and memory outside the screen *)
Record keeps (s s' : cons) : Prop := {
  kp_kbd : kbd s' = kbd s;
  kp_rx : u_rx (ser s') = u_rx (ser s);
  kp_mem : same_offscreen (crt (scr s)) (crt (scr s')) }.

Lemma keeps_trans s s1 s2 : keeps s s1 → keeps s1 s2 → keeps s s2.
Proof. intros [A1 B1 C1] [A2 B2 C2]. constructor; [congruence..|]. by eapply offscreen_trans. Qed.
Lemma keeps_input b s : keeps s (set_input b s).
Proof. by constructor. Qed.

Lemma consputc_models c s t :
  models s t → runs (consputc c) s (λ _ s', models s' (put_term c t) ∧ input s' = input s ∧ keeps s s').
Proof.
  intros [Hp Hs [Hon Htx] Hi Hw]. apply (consputc_runs c s (λ d, shows d (put_text c (t_text t)) ∧ same_offscreen (crt (scr s)) (crt d))); [done|by apply cgaputc_shows|].
  intros d u [Hd Ho] [U1 U2 U3]. split_and!; [|done|by constructor]. constructor; try done. cbn. rewrite U1, U3, Hon, Htx. done.
Qed.

(** a change to the input buffer, then a character *)
Lemma edit_models {A} (f : cons → cons) b com line c s t (k : C A) (Q : A → cons → Prop) :
  models s t → f s = set_input b s → ring b com line →
  (∀ s', models s' (put_term c (with_com com (with_line line t))) → input s' = b → keeps s s' → runs k s' Q) →
  runs (_ ← modify f; _ ← consputc c; k) s Q.
Proof.
  intros [Hp Hs Hu Hi Hw] Hf Hb HQ. rprim. rewrite Hf.
  eapply runs_bind_mono; [apply (consputc_models c (set_input b s) (with_com com (with_line line t))); by constructor|].
  cbn beta. intros [] s' (Hm & Hin & Hk). apply HQ; [done..|]. by eapply keeps_trans; [apply keeps_input|].
Qed.

Lemma ring_last b com line x : ring b com (line ++ [x]) → buf_at (in_e b - 1) b = i8 x.
Proof.
  intros Hr. rewrite <- (ring_at b com (line ++ [x]) (length com + length line) x Hr).
  - unfold buf_at. do 4 f_equal. rewrite (rg_e _ _ _ Hr), length_app. cbn. unfold u32. rewrite Zminus_mod_idemp_l. f_equal. lia.
  - rewrite app_assoc. apply lookup_snoc_Some. right. by rewrite length_app.
Qed.

Lemma rub_out_snoc t l x : t_line t = l ++ [x] → rub_out t = put_term BACKSPACE (with_line l t).
Proof. intros E. unfold rub_out. rewrite E. destruct (l ++ [x]) eqn:E'; [by destruct l|]. by rewrite <- E', removelast_last. Qed.

Lemma with_com_id t l : with_com (t_com t) (with_line l t) = with_line l t.
Proof. done. Qed.

Lemma kill_line_models fuel : ∀ s t,
  models s t → tty_ok t → (length (t_line t) < fuel)%nat →
  runs (kill_line fuel) s (λ _ s', models s' (Nat.iter (length (t_line t)) rub_out t) ∧ keeps s s').
Proof.
  induction fuel as [|fuel IH]; intros s t Hm Hok Hlt; [lia|]. cbn [kill_line]. rprim.
  pose proof (mo_in _ _ Hm) as Hr. rewrite (ring_no_line _ _ _ Hr). destruct (t_line t) as [|x l _] eqn:El using rev_ind.
  { rewrite bool_decide_eq_true_2 by done. cbn [negb andb]. apply runs_ret. split; [done|by constructor]. }
  rewrite bool_decide_eq_false_2 by (by destruct l). rewrite (ring_last _ _ _ _ Hr). pose proof (rg_u8 _ _ _ Hr) as Hu8.
  rewrite app_assoc, Forall_app, Forall_singleton in Hu8. unfold tty_ok in Hok. rewrite El in Hok.
  rewrite (proj2 (i8_u8 x (proj2 Hu8)) newline) by done. rewrite (proj2 (Z.eqb_neq _ _)) by set_solver. cbn [negb andb].
  eapply edit_models; [done|reflexivity|by apply (ring_drop _ _ l x)|]. intros s1 Hm1 _ Hk1.
  assert (Erub : put_term BACKSPACE (with_com (t_com t) (with_line l t)) = rub_out t) by by rewrite (rub_out_snoc t l x El).
  rewrite Erub in Hm1. assert (El1 : t_line (rub_out t) = l) by by rewrite (rub_out_snoc t l x El).
  rewrite length_app in *. cbn [length] in *. rewrite Nat.add_1_r. rewrite Nat.iter_succ_r.
  eapply runs_mono; [apply (IH s1 (rub_out t) Hm1); [unfold tty_ok; rewrite El1; set_solver|rewrite El1; lia]|].
  cbn beta. rewrite El1. intros [] s2 [? ?]. split; [done|by eapply keeps_trans].
Qed.

Lemma iter_rub_out_ok n t : tty_ok t → tty_ok (Nat.iter n rub_out t).
Proof.
  intros Ht. induction n as [|n IH]; [done|]. rewrite Nat.iter_succ. generalize dependent (Nat.iter n rub_out t). intros t' IH.
  destruct (t_line t') as [|x l _] eqn:E using rev_ind; [unfold rub_out, tty_ok in *; by rewrite E|].
  rewrite (rub_out_snoc _ _ _ E). unfold tty_ok in *. rewrite E in IH. cbn. set_solver.
Qed.

Lemma t_key_ok c t : tty_ok t → 0 ≤ c < 256 → tty_ok (t_key c t).
Proof.
  intros Ht Hc. unfold t_key. case_match; [done|]. case_match; [by apply iter_rub_out_ok|].
  case_match; [by apply (iter_rub_out_ok 1)|]. case_match; [done|]. set (c' := if c =? 13 then newline else c).
  assert (Hu : u8 c' = c') by (unfold c'; case_match; [done|by apply Z.mod_small]).
  assert (Hcom : ∀ t, tty_ok (commit t)) by (intros t'; apply not_elem_of_nil).
  destruct (Z.eqb_spec c' newline) as [E|E]; cbn [orb]; [apply Hcom|]. destruct ((c' =? ctrl_D) || _); [apply Hcom|].
  unfold tty_ok in *. cbn. rewrite Hu. set_solver.
Qed.

(** a character for the line *)
Lemma type_models c s t :
  models s t → 0 ≤ c < 256 → (c =? 0) || (t_room t =? 0) = false →
  let c' := if c =? 13 then newline else c in
  let t' := put_term c' (with_line (t_line t ++ [u8 c']) t) in
  runs (b ← gets input;
    if negb (c =? 0) && (u32 (in_e b - in_r b) <? INPUT_BUF) then
      let c := if c =? 13 then newline else c in
      _ ← modify (λ s, set_input
            {| in_buf := <[Z.to_nat (in_e b mod INPUT_BUF) := u8 c]> (in_buf b); in_r := in_r b; in_w := in_w b;
               in_e := u32 (in_e b + 1) |} s);
      _ ← consputc c;
      b ← gets input;
      if (c =? newline) || (c =? ctrl_D) || (in_e b =? u32 (in_r b + INPUT_BUF)) then
        _ ← modify (λ s, {| scr := scr s; ser := ser s;
              input := {| in_buf := in_buf b; in_r := in_r b; in_w := in_e b; in_e := in_e b |};
              kbd := kbd s; panicked := panicked s; locking := locking s; wakeups := S (wakeups s) |});
        mret false
      else mret false
    else mret false) s (λ d s', d = false ∧
      models s' (if (c' =? newline) || (c' =? ctrl_D) || (t_room t' =? 0) then commit t' else t') ∧ keeps s s').
Proof.
  intros Hm Hc Hroom c' t'. apply orb_false_iff in Hroom as [H0 Hroom]. pose proof (mo_in _ _ Hm) as Hr. pose proof (rg_fit _ _ _ Hr) as Hfit.
  apply Z.eqb_neq in Hroom. unfold t_room in Hroom. rprim. rewrite H0, (ring_count _ _ _ Hr), (proj2 (Z.ltb_lt _ _)) by lia. cbn [negb andb]. fold c'.
  assert (Hu : is_u8 (u8 c')) by (unfold is_u8, u8; apply Z.mod_pos_bound; lia).
  eapply edit_models; [done|reflexivity|apply ring_push; [done..|lia]|]. intros s1 Hm1 Hin Hk. fold t' in Hm1. rprim.
  pose proof (mo_in _ _ Hm1) as Hr1. assert (Efull : (in_e (input s1) =? u32 (in_r (input s1) + INPUT_BUF)) = (t_room t' =? 0)).
  { pose proof (rg_e _ _ _ Hr1) as He. pose proof (rg_fit _ _ _ Hr1) as Hf1. pose proof (rg_r _ _ _ Hr1) as Hr32. rewrite He. unfold t_room in *.
    unfold u32, is_u32, INPUT_BUF in *. cbn [t_com t_line put_term with_com with_line t'] in *.
    set (a := Z.of_nat (length (t_com t))) in *. set (n := Z.of_nat (length (t_line t ++ _))) in *.
    destruct (Z.eqb_spec (128 - a - n) 0), (Z.eqb_spec ((in_r (input s1) + a + n) mod 2 ^ 32) ((in_r (input s1) + 128) mod 2 ^ 32)); zdm. }
  rewrite Efull. destruct ((c' =? newline) || (c' =? ctrl_D) || (t_room t' =? 0)).
  - rprim. apply runs_ret. split_and!; [done| |].
    + destruct Hm1 as [A1 A2 A3 A4 A5]. constructor; cbn; try done; [by apply ring_commit|by rewrite A5].
    + eapply keeps_trans; [done|by constructor].
  - by apply runs_ret.
Qed.

Lemma console_key_models c s t :
  models s t → tty_ok t → 0 ≤ c < 256 →
  runs (console_key c) s (λ d s', d = (c =? ctrl_P) ∧ models s' (t_key c t) ∧ keeps s s').
Proof.
  intros Hm Hok Hc. unfold console_key, t_key. destruct (c =? ctrl_P); [by apply runs_ret|].
  pose proof (mo_in _ _ Hm) as Hr. destruct (c =? ctrl_U).
  { pose proof (rg_fit _ _ _ Hr). eapply runs_bind_mono; [apply (kill_line_models _ s t Hm Hok); unfold INPUT_BUF in *; lia|].
    cbn beta. intros [] s1 [? ?]. by apply runs_ret. }
  destruct ((c =? ctrl_H) || (c =? del)).
  { rprim. rewrite (ring_no_line _ _ _ Hr). destruct (t_line t) as [|x l _] eqn:El using rev_ind.
    - rewrite bool_decide_eq_true_2 by done. cbn [negb]. apply runs_ret. split_and!; [done| |by constructor]. unfold rub_out. by rewrite El.
    - rewrite bool_decide_eq_false_2 by (by destruct l). cbn [negb]. eapply edit_models; [done|reflexivity|by apply (ring_drop _ _ l x)|].
      intros s1 Hm1 _ Hk. apply runs_ret. split_and!; [done| |done]. by rewrite (rub_out_snoc t l x El). }
  destruct ((c =? 0) || (t_room t =? 0)) eqn:Eroom; [|by apply type_models].
  rprim. rewrite (ring_count _ _ _ Hr). unfold t_room in Eroom.
  assert (E : negb (c =? 0) && (Z.of_nat (length (t_com t)) + Z.of_nat (length (t_line t)) <? INPUT_BUF) = false).
  { apply orb_true_iff in Eroom as [->|Er%Z.eqb_eq]; [done|]. rewrite (proj2 (Z.ltb_ge _ _)) by lia. apply andb_false_r. }
  rewrite E. by apply runs_ret.
Qed.

Lemma consoleread_models killed target n : ∀ s t,
  models s t →
  runs (consoleread killed target n) s (λ r s', r = (t_read killed target n t).1 ∧ models s' (t_read killed target n t).2 ∧ keeps s s').
Proof.
  induction n as [|n IH]; intros s t Hm; cbn [consoleread t_read]; [by apply runs_ret|].
  rprim. pose proof (mo_in _ _ Hm) as Hr. rewrite (ring_no_com _ _ _ Hr). destruct (t_com t) as [|c com] eqn:Ec.
  { rewrite bool_decide_eq_true_2 by done. by apply runs_ret. }
  rewrite bool_decide_eq_false_2 by done. pose proof (ring_at _ _ _ 0%nat c Hr eq_refl) as Hat. rewrite Z.add_0_r in Hat. rewrite Hat.
  pose proof (Forall_inv (rg_u8 _ _ _ Hr)) as Hu. destruct (i8_u8 c Hu) as [Hu8 Hcmp]. rewrite !Hcmp by done. rewrite Hu8.
  pose proof (ring_take _ _ _ _ Hr) as Hr1. set (s1 := set_input (set_r (in_r (input s) + 1) (input s)) s).
  assert (Hm1 : models s1 (with_com com t)) by (destruct Hm; by constructor). assert (Hk1 : keeps s s1) by by constructor.
  rprim. fold s1. destruct (c =? ctrl_D).
  - apply runs_bind. destruct (S n <? target)%nat; [apply runs_modify|apply runs_ret]; apply runs_ret; [|done].
    assert (E : set_input (set_r (in_r (input s1) - 1) (input s1)) s1 = s).
    { unfold s1. cbn [input set_input]. rewrite (ring_untake _ _ _ _ Hr). by destruct s. }
    rewrite E. split_and!; [done..|by constructor].
  - destruct (c =? newline); [by apply runs_ret|]. eapply runs_bind_mono; [by apply IH|]. cbn beta.
    intros [bs r] s2 (Er & Hm2 & Hk2). destruct (t_read killed target n (with_com com t)) as [[bs' r'] t'].
    cbn [fst snd] in *. injection Er as -> ->. apply runs_ret. split_and!; [done..|by eapply keeps_trans].
Qed.

Lemma consputs_models l : ∀ s t,
  models s t → runs (consputs l) s (λ _ s', models s' (foldl (flip put_term) t l) ∧ keeps s s').
Proof.
  induction l as [|c l IH]; intros s t Hm; cbn [consputs foldl]; [apply runs_ret; split; [done|by constructor]|].
  eapply runs_bind_mono; [by apply consputc_models|]. cbn beta. intros [] s1 (Hm1 & _ & Hk1).
  eapply runs_mono; [by apply IH|]. cbn beta. intros [] s2 [? ?]. split; [done|by eapply keeps_trans].
Qed.

(** ** Interleavings *)

(** what happens to the console: a character arrives, a process writes, a segment of
    a read runs with [n] of [target] bytes to go *)
Inductive event := Key (c : Z) | Write (l : list Z) | Read (killed : bool) (target n : nat).

Definition do_event (e : event) : C (option (list Z * cres)) :=
  match e with
  | Key c => _ ← console_key c; mret None
  | Write l => _ ← consolewrite l (Z.of_nat (length l)); mret None
  | Read killed target n => r ← consoleread killed target n; mret (Some r)
  end.
Fixpoint do_events (es : list event) : C (list (option (list Z * cres))) :=
  match es with
  | [] => mret []
  | e :: es => r ← do_event e; rs ← do_events es; mret (r :: rs)
  end.

Definition t_event (e : event) (t : term) : option (list Z * cres) * term :=
  match e with
  | Key c => (None, t_key c t)
  | Write l => (None, foldl (flip put_term) t ((λ b, Z.land b 0xff) <$> l))
  | Read killed target n => let '(r, t) := t_read killed target n t in (Some r, t)
  end.
Fixpoint t_events (es : list event) (t : term) : list (option (list Z * cres)) * term :=
  match es with
  | [] => ([], t)
  | e :: es => let '(r, t) := t_event e t in let '(rs, t) := t_events es t in (r :: rs, t)
  end.

Definition event_ok (e : event) : Prop := match e with Key c => 0 ≤ c < 256 | _ => True end.

Lemma t_line_put l : ∀ t, t_line (foldl (flip put_term) t l) = t_line t.
Proof. induction l as [|c l IH]; intros t; [done|]. cbn [foldl]. by rewrite IH. Qed.
Lemma t_line_read killed target n : ∀ t, t_line (t_read killed target n t).2 = t_line t.
Proof.
  induction n as [|n IH]; intros t; cbn [t_read]; [done|]. destruct (t_com t) as [|c com]; [done|].
  destruct (c =? ctrl_D); [by destruct (_ <? _)%nat|]. destruct (c =? newline); [done|].
  specialize (IH (with_com com t)). by destruct (t_read killed target n (with_com com t)) as [[? ?] ?].
Qed.

Lemma do_event_models e s t :
  models s t → tty_ok t → event_ok e →
  runs (do_event e) s (λ r s', r = (t_event e t).1 ∧ models s' (t_event e t).2 ∧ tty_ok (t_event e t).2 ∧ keeps s s').
Proof.
  intros Hm Hok He. destruct e as [c|l|killed target n]; cbn [do_event t_event].
  - eapply runs_bind_mono; [by apply console_key_models|]. cbn beta. intros d s1 (_ & ? & ?). apply runs_ret.
    split_and!; [done..|by apply t_key_ok|done].
  - unfold consolewrite. rewrite Nat2Z.id, firstn_all. apply runs_bind. eapply runs_bind_mono; [by apply consputs_models|].
    cbn beta. intros [] s1 [? ?]. apply runs_ret, runs_ret. split_and!; [done..| |done]. unfold tty_ok. cbn [snd]. by rewrite t_line_put.
  - eapply runs_bind_mono; [by apply consoleread_models|]. cbn beta. intros r s1 (-> & Hm1 & Hk). apply runs_ret.
    pose proof (t_line_read killed target n t) as El. destruct (t_read killed target n t) as [r t']. cbn [fst snd] in *.
    split_and!; [done..| |done]. unfold tty_ok. by rewrite El.
Qed.

Lemma do_events_models es : ∀ s t,
  models s t → tty_ok t → Forall event_ok es →
  runs (do_events es) s (λ rs s', rs = (t_events es t).1 ∧ models s' (t_events es t).2 ∧ tty_ok (t_events es t).2 ∧ keeps s s').
Proof.
  induction es as [|e es IH]; intros s t Hm Hok Hes; cbn [do_events t_events]; [apply runs_ret; split_and!; [done..|by constructor]|].
  apply Forall_cons in Hes as [He Hes]. eapply runs_bind_mono; [by apply do_event_models|]. cbn beta. intros r s1 (-> & Hm1 & Hok1 & Hk1).
  destruct (t_event e t) as [r t1]. cbn [fst snd] in *. eapply runs_bind_mono; [by apply IH|]. cbn beta. intros rs s2 (-> & Hm2 & Hok2 & Hk2).
  destruct (t_events es t1) as [rs t2]. cbn [fst snd] in *. apply runs_ret. split_and!; [done..|by eapply keeps_trans].
Qed.

(** C17: The console is a terminal: any interleaving of characters from the keyboard,
    writes and reads gives the replies that the terminal gives, and the screen, the
    serial line, the input buffer and the wakeups stay those of the terminal; no
    character makes the console panic or write outside the screen. *)
Theorem console_refines es s t :
  models s t → tty_ok t → Forall event_ok es →
  runs (do_events es) s (λ rs s', rs = (t_events es t).1 ∧ models s' (t_events es t).2 ∧ same_offscreen (crt (scr s)) (crt (scr s'))).
Proof.
  intros Hm Hok Hes. eapply runs_mono; [by apply do_events_models|]. cbn beta. intros rs s' (? & ? & _ & Hk). split_and!; [done..|apply Hk].
Qed.

(** ** A line that is typed *)

Definition edit (l : list Z) (c : Z) : list Z :=
  if c =? ctrl_U then []
  else if (c =? ctrl_H) || (c =? del) then removelast l
  else if (c =? ctrl_P) || (c =? 0) then l
  else l ++ [c].

(** a key that does not end the line *)
Definition plain (c : Z) : Prop := 0 ≤ c < 256 ∧ c ≠ newline ∧ c ≠ 13 ∧ c ≠ ctrl_D.

Lemma rub_out_parts t : t_line (rub_out t) = removelast (t_line t) ∧ t_com (rub_out t) = t_com t.
Proof. unfold rub_out. by destruct (t_line t) as [|x l] eqn:E; cbn; rewrite ?E. Qed.

Lemma rub_all l : ∀ t, t_line t = l → t_line (Nat.iter (length l) rub_out t) = [] ∧ t_com (Nat.iter (length l) rub_out t) = t_com t.
Proof.
  induction l as [|x l IH] using rev_ind; intros t E; [done|]. rewrite length_app, Nat.add_1_r, Nat.iter_succ_r.
  destruct (rub_out_parts t) as [E1 E2]. rewrite <- E2. apply IH. by rewrite E1, E, removelast_last.
Qed.

Lemma t_key_edit c t :
  plain c → (length (t_com t) + length (t_line t) < 127)%nat →
  t_line (t_key c t) = edit (t_line t) c ∧ t_com (t_key c t) = t_com t.
Proof.
  intros (Hc & H1 & H2 & H3) Hlen. unfold t_key, edit. destruct (Z.eqb_spec c ctrl_P) as [->|HP]; [done|].
  destruct (c =? ctrl_U); [by apply rub_all|]. destruct ((c =? ctrl_H) || (c =? del)); [apply rub_out_parts|].
  cbn [orb]. destruct (c =? 0); [done|]. cbn [orb]. unfold t_room, INPUT_BUF. rewrite (proj2 (Z.eqb_neq _ 0)) by lia.
  rewrite (proj2 (Z.eqb_neq c 13)), (proj2 (Z.eqb_neq c newline)), (proj2 (Z.eqb_neq c ctrl_D)) by done. cbn [orb].
  cbn [t_com t_line put_term with_line]. rewrite length_app. cbn [length]. rewrite (proj2 (Z.eqb_neq _ 0)) by lia.
  cbn [t_com t_line put_term with_line]. assert (Hu : u8 c = c) by by apply Z.mod_small. by rewrite Hu.
Qed.

Lemma length_edit l c : (length (edit l c) ≤ S (length l))%nat.
Proof.
  unfold edit. repeat case_match; cbn; try lia; [|rewrite length_app; cbn; lia].
  destruct l as [|x l _] using rev_ind; [cbn; lia|]. rewrite removelast_last, length_app. lia.
Qed.

Lemma plain_edit l c : plain c → Forall plain l → Forall plain (edit l c).
Proof.
  intros Hc Hl. unfold edit. repeat case_match; try done; [|apply Forall_app; by split; [|constructor]].
  destruct l as [|x l _] using rev_ind; [done|]. rewrite removelast_last. by apply Forall_app in Hl as [? _].
Qed.

Lemma t_keys_edit keys : ∀ t,
  Forall plain keys → t_com t = [] → (length (t_line t) + length keys < 127)%nat → Forall plain (t_line t) →
  let r := t_events (Key <$> keys) t in
  r.1 = (λ _, None) <$> keys ∧ t_line r.2 = foldl edit (t_line t) keys ∧ t_com r.2 = [] ∧
  (length (t_line r.2) < 127)%nat ∧ Forall plain (t_line r.2).
Proof.
  induction keys as [|c keys IH]; intros t Hk Hcom Hlen Hpl; cbn [fmap list_fmap t_events]; [split_and!; [done..|cbn in *; lia|done]|].
  apply Forall_cons in Hk as [Hc Hk]. cbn [length] in Hlen. destruct (t_key_edit c t Hc) as [El Ec]; [rewrite Hcom; cbn; lia|].
  pose proof (length_edit (t_line t) c) as Hle. pose proof (plain_edit _ _ Hc Hpl) as Hpe. rewrite <- El in Hle, Hpe.
  specialize (IH (t_key c t) Hk ltac:(congruence) ltac:(lia) Hpe). cbn [t_event] in *.
  destruct (t_events (Key <$> keys) (t_key c t)) as [rs t']. cbn [fst snd foldl] in *. destruct IH as (-> & E & H1 & H2 & H3). rewrite <- El. split_and!; done.
Qed.

Lemma t_read_line target l rest : ∀ n t,
  Forall plain l → t_com t = l ++ newline :: rest → (length l < n)%nat →
  t_read false target n t = ((l ++ [newline], Cret (Z.of_nat target - Z.of_nat n + Z.of_nat (length l) + 1)), with_com rest t).
Proof.
  induction l as [|c l IH]; intros [|n] t Hl Hcom Hn; cbn [length] in *; try lia; cbn [t_read]; rewrite Hcom; cbn [app].
  - change (newline =? ctrl_D) with false. change (newline =? newline) with true. cbv iota. do 3 f_equal. lia.
  - apply Forall_cons in Hl as [(_ & H1 & _ & H3) Hl]. rewrite (proj2 (Z.eqb_neq c ctrl_D)), (proj2 (Z.eqb_neq c newline)) by done.
    rewrite (IH n (with_com (l ++ newline :: rest) t)); [|done..|lia]. cbn. do 3 f_equal. lia.
Qed.

Lemma t_events_app es es' t :
  t_events (es ++ es') t = let '(r, t1) := t_events es t in let '(r', t2) := t_events es' t1 in (r ++ r', t2).
Proof.
  revert t. induction es as [|e es IH]; intros t; cbn [app t_events]; [by destruct (t_events es' t)|].
  destruct (t_event e t) as [r t1]. rewrite IH. destruct (t_events es t1) as [rs t2]. by destruct (t_events es' t2).
Qed.

(** Keys that are typed at an idle console, with a return at the end, and that
    leave a line that fits, are read as the line they edit: each backspace removes the
    character before it and control-U the whole line; a read with room for it returns
    exactly that line with a newline. *)
Theorem typed_line_read keys s t (n : nat) :
  models s t → t_com t = [] → t_line t = [] → Forall plain keys → (length keys < 127)%nat →
  let l := foldl edit [] keys in
  (length l < n)%nat →
  runs (do_events ((Key <$> keys ++ [13]) ++ [Read false n n])) s (λ rs s',
    last rs = Some (Some (l ++ [newline], Cret (Z.of_nat (length l) + 1))) ∧ models s' (t_events ((Key <$> keys ++ [13]) ++ [Read false n n]) t).2).
Proof.
  intros Hm Hcom Hline Hk Hlen l Hn.
  eapply runs_mono; [apply (do_events_models _ s t Hm)|].
  - unfold tty_ok. rewrite Hline. apply not_elem_of_nil.
  - rewrite fmap_app, !Forall_app, Forall_fmap. split_and!; [|repeat constructor; cbn; lia..]. eapply Forall_impl; [exact Hk|]. by intros c [? _].
  - cbn beta. intros rs s' (-> & Hm' & _). split; [|done]. rewrite fmap_app, <- app_assoc, t_events_app.
    assert (Hpl : Forall plain (t_line t)) by by rewrite Hline.
    pose proof (t_keys_edit keys t Hk Hcom ltac:(rewrite Hline; cbn; lia) Hpl) as Hkeys. cbv zeta in Hkeys.
    destruct (t_events (Key <$> keys) t) as [rs1 t1]. cbn [fst snd] in Hkeys. destruct Hkeys as (_ & El & Ec & Hl1 & Hp1).
    rewrite Hline in El. fold l in El. set (t2 := t_key 13 t1).
    assert (Hcom2 : t_com t2 = l ++ newline :: []).
    { unfold t2, t_key. cbn [Z.eqb orb ctrl_P ctrl_U ctrl_H]. unfold t_room at 1. rewrite Ec. cbn [length]. unfold INPUT_BUF at 1.
      rewrite (proj2 (Z.eqb_neq _ 0)) by lia. change (13 =? ctrl_P) with false. change (13 =? ctrl_U) with false.
      change ((13 =? ctrl_H) || (13 =? del)) with false. change (13 =? 13) with true. change (newline =? newline) with true.
      cbn [orb]. cbv iota zeta. unfold commit. cbn [t_com t_line put_term with_line]. by rewrite Ec, El. }
    cbn [fmap list_fmap app t_events t_event]. fold t2. rewrite (t_read_line n l [] n t2); [|by rewrite <- El|done|done].
    replace (Z.of_nat n - Z.of_nat n + Z.of_nat (length l) + 1) with (Z.of_nat (length l) + 1) by lia. cbn [fst]. by rewrite last_app.
Qed.
End term.
