(* ===== verification/KbdSpec.v ===== *)
(** * The interrupts of the console

    The keyboard turns every scan code into a character of a byte, so that the handler
    ends with no scan code pending; and whatever is printed, the cursor stays on the
    screen. *)

From S2P Require Import Prelude Console ConsoleSpec Kbd.

(** ** Bits of the shift state *)

Lemma bits_bound k x : 0 ≤ k → 0 ≤ x → (0 ≤ x < 2 ^ k ↔ ∀ n, k ≤ n → Z.testbit x n = false).
Proof.
  intros Hk Hx. split.
  - intros Hr n Hn. rewrite <- (Z.mod_small x (2 ^ k)) by done. by apply Z.mod_pow2_bits_high.
  - intros Hb. split; [done|]. assert (E : x = x mod 2 ^ k); [|rewrite E; apply Z.mod_pos_bound; lia].
    apply Z.bits_inj'. intros n Hn. destruct (decide (n < k)); [by rewrite Z.mod_pow2_bits_low|].
    rewrite Z.mod_pow2_bits_high by lia. apply Hb. lia.
Qed.

Lemma ldiff_bound k a b : 0 ≤ k → 0 ≤ a < 2 ^ k → 0 ≤ Z.ldiff a b < 2 ^ k.
Proof.
  intros Hk Ha. assert (0 ≤ Z.ldiff a b) by (apply Z.ldiff_nonneg; lia). apply bits_bound; [done..|]. intros n Hn.
  rewrite Z.ldiff_spec. by rewrite (proj1 (bits_bound k a Hk ltac:(lia)) Ha n Hn).
Qed.
Lemma lxor_bound k a b : 0 ≤ k → 0 ≤ a < 2 ^ k → 0 ≤ b < 2 ^ k → 0 ≤ Z.lxor a b < 2 ^ k.
Proof.
  intros Hk Ha Hb. assert (0 ≤ Z.lxor a b) by (apply Z.lxor_nonneg; lia). apply bits_bound; [done..|]. intros n Hn.
  rewrite Z.lxor_spec. by rewrite (proj1 (bits_bound k a Hk ltac:(lia)) Ha n Hn), (proj1 (bits_bound k b Hk ltac:(lia)) Hb n Hn).
Qed.

(** ** The tables *)

Lemma table_bound hi first at_ i :
  forallb (λ v, (0 <=? v) && (v <? hi)) (0 :: first ++ (snd <$> at_)) = true → 0 ≤ table first at_ i < hi.
Proof.
  intros H. rewrite forallb_forall in H. assert (Hin : ∀ v, v ∈ 0 :: first ++ (snd <$> at_) → 0 ≤ v < hi).
  { intros v Hv%list_elem_of_In%H. lia. }
  unfold table. destruct (list_find _ at_) as [[k [a v]]|] eqn:E.
  - apply list_find_Some in E as [E _]. apply Hin. apply list_elem_of_further, elem_of_app. right. apply list_elem_of_fmap.
    exists (a, v). split; [done|by eapply list_elem_of_lookup_2].
  - destruct (first !! Z.to_nat i) as [v|] eqn:E'; cbn; apply Hin; [|apply list_elem_of_here].
    apply list_elem_of_further, elem_of_app. left. by eapply list_elem_of_lookup_2.
Qed.

Lemma shiftcode_bound i : 0 ≤ shiftcode i < 2 ^ 7.
Proof. apply table_bound. reflexivity. Qed.
Lemma togglecode_bound i : 0 ≤ togglecode i < 2 ^ 7.
Proof. apply table_bound. reflexivity. Qed.
Lemma charcode_bound k i : 0 ≤ charcode k i < 256.
Proof. unfold charcode. repeat case_match; apply table_bound; reflexivity. Qed.

(** ** kbdgetc *)

Definition kbd_ok (k : kbdev) : Prop := Forall (λ d, is_u8 d) (k_scan k) ∧ 0 ≤ k_shift k < 2 ^ 7.

Lemma kbdgetc_runs s :
  kbd_ok (kbd s) →
  runs kbdgetc s (λ c s', match k_scan (kbd s) with
    | [] => c = -1 ∧ s' = s
    | _ :: r => 0 ≤ c < 256 ∧ ∃ k, s' = set_kbd k s ∧ k_scan k = r ∧ 0 ≤ k_shift k < 2 ^ 7
    end).
Proof.
  intros [_ Hsh]. unfold kbdgetc, kbd_status. rprim. destruct (k_scan (kbd s)) as [|d r] eqn:E; [by apply runs_ret|].
  change (Z.land 1 0x01 =? 0) with false. cbv iota. unfold kbd_data. set (s1 := set_kbd {| k_scan := r; k_shift := k_shift (kbd s) |} s).
  apply runs_bind. exists d, s1. split; [unfold mbind, M_bind, get, put; cbn; by rewrite E|]. rprim. change (k_shift (kbd s1)) with (k_shift (kbd s)).
  set (sh := k_shift (kbd s)) in *.
  assert (Hset : ∀ v, 0 ≤ v < 2 ^ 7 → ∃ k, set_kbd {| k_scan := k_scan (kbd s1); k_shift := v |} s1 = set_kbd k s ∧ k_scan k = r ∧ 0 ≤ k_shift k < 2 ^ 7).
  { intros v Hv. by exists {| k_scan := r; k_shift := v |}. }
  destruct (d =? 0xE0); [|destruct (negb (Z.land d 0x80 =? 0))].
  - unfold set_shift. rprim. apply runs_ret. split; [lia|]. apply Hset. by apply lor_range.
  - unfold set_shift. rprim. apply runs_ret. split; [lia|]. apply Hset. by apply ldiff_bound.
  - set (esc := negb (Z.land sh E0ESC =? 0)). set (d' := if esc then _ else d). set (sh1 := if esc then Z.ldiff sh E0ESC else sh).
    assert (Hsh1 : 0 ≤ sh1 < 2 ^ 7) by (unfold sh1; destruct esc; [by apply ldiff_bound|done]).
    set (sh2 := Z.lxor (Z.lor sh1 (shiftcode d')) (togglecode d')).
    assert (Hsh2 : 0 ≤ sh2 < 2 ^ 7).
    { apply lxor_bound; [done| |apply togglecode_bound]. apply lor_range; [done..|apply shiftcode_bound]. }
    unfold set_shift. rprim. pose proof (charcode_bound (Z.land sh2 (Z.lor CTL SHIFT)) d') as Hc. specialize (Hset sh2 Hsh2).
    generalize dependent (charcode (Z.land sh2 (Z.lor CTL SHIFT)) d'). intros c Hc.
    destruct (negb (Z.land sh2 CAPSLOCK =? 0)); [destruct (Z.leb_spec 97 c), (Z.leb_spec c 122), (Z.leb_spec 65 c), (Z.leb_spec c 90); cbn [andb]|];
      apply runs_ret; (split; [lia|exact Hset]).
Qed.

(** ** The handler *)

Section handler.
  Context (on : bool).

Abbreviation models := (models on).

Lemma models_kbd k s t : models s t → models (set_kbd k s) t.
Proof. intros [? ? ? ? ?]. by constructor. Qed.

Lemma intr_loop_kbd n : ∀ s t d,
  models s t → tty_ok t → kbd_ok (kbd s) → length (k_scan (kbd s)) = n →
  runs (intr_loop (S n) kbdgetc d) s (λ d' s', ∃ keys, length keys = n ∧ Forall (λ c, 0 ≤ c < 256) keys ∧
    models s' (foldl (flip (t_key on)) t keys) ∧ k_scan (kbd s') = [] ∧ d' = d || existsb (λ c, c =? ctrl_P) keys).
Proof.
  induction n as [|n IH]; intros s t d Hm Hok Hk Hn; cbn [intr_loop]; (eapply runs_bind_mono; [by apply kbdgetc_runs|]); cbn beta; intros c s1.
  - apply nil_length_inv in Hn as E. rewrite E. intros [-> ->]. cbn. apply runs_ret. exists []. cbn. by rewrite orb_false_r.
  - destruct (k_scan (kbd s)) as [|x r] eqn:E; [done|]. intros (Hc & k & -> & Er & Hsh). rewrite (proj2 (Z.ltb_ge _ _)) by lia.
    eapply runs_bind_mono; [apply (console_key_models on c _ t); [by apply models_kbd|done..]|].
    cbn beta. intros d1 s2 (-> & Hm2 & Hk2). pose proof (kp_kbd _ _ Hk2) as Ek. cbn in Ek.
    eapply runs_mono; [apply (IH s2 (t_key on c t)); [done|by apply t_key_ok| |]|].
    + rewrite Ek. split; [|done]. rewrite Er. destruct Hk as [Hk _]. rewrite E in Hk. by apply Forall_cons in Hk as [_ ?].
    + rewrite Ek, Er. cbn in Hn. lia.
    + cbn beta. intros d2 s3 (keys & Hlen & Hkeys & Hm3 & Hs3 & ->). exists (c :: keys). split_and!; [cbn; lia|by constructor|done..|].
      cbn. by rewrite orb_assoc.
Qed.

(** The keyboard interrupt returns with no scan code pending, whatever codes were
    pending and whatever shift keys are down: each code becomes one character between
    0 and 255, the characters are typed at the terminal in that order, and the process
    table [dump] is printed after them if one of them was control-P. *)
Theorem kbdintr_total dump s t :
  models s t → tty_ok t → kbd_ok (kbd s) →
  runs (kbdintr (consputs dump)) s (λ _ s', k_scan (kbd s') = [] ∧ ∃ keys,
    length keys = length (k_scan (kbd s)) ∧ Forall (λ c, 0 ≤ c < 256) keys ∧
    let t' := foldl (flip (t_key on)) t keys in
    models s' (if existsb (λ c, c =? ctrl_P) keys then foldl (flip (put_term on)) t' dump else t')).
Proof.
  intros Hm Hok Hk. unfold kbdintr, consoleintr. rprim. eapply runs_bind_mono; [by apply intr_loop_kbd|]. cbn beta.
  intros d s1 (keys & Hlen & Hkeys & Hm1 & Hs1 & ->). cbn [orb]. destruct (existsb (λ c, c =? ctrl_P) keys) eqn:E.
  - eapply runs_mono; [by apply consputs_models|]. cbn beta. intros _ s2 [Hm2 Hk2]. split; [by rewrite (kp_kbd _ _ Hk2)|].
    exists keys. by rewrite E.
  - apply runs_ret. split; [done|]. exists keys. by rewrite E.
Qed.
End handler.

(** ** Printing *)

(** Whatever is printed, and whatever was on the screen, [consputc] does not panic:
    a cursor that is on the 24 lines stays there, and no memory outside them is written. *)
Theorem consputs_in_bounds l : ∀ s,
  panicked s = false → screen_ok (scr s) →
  runs (consputs l) s (λ _ s', screen_ok (scr s') ∧ same_offscreen (crt (scr s)) (crt (scr s'))).
Proof.
  induction l as [|c l IH]; intros s Hp Hs; cbn [consputs]; [by apply runs_ret|]. apply runs_bind.
  apply (consputc_runs c s (λ d, screen_ok d ∧ same_offscreen (crt (scr s)) (crt d))); [done|by apply cgaputc_bounds|].
  intros d u [Hd Ho] _. eapply runs_mono; [by apply IH|]. cbn beta. intros _ s' [? ?]. split; [done|]. by eapply offscreen_trans.
Qed.

(** ** An idle console

    A console with a blank screen and nothing typed, to which the theorems of
    [ConsoleSpec] and [KbdSpec] apply. *)

Definition cons0 (scan : list Z) : cons :=
  {| scr := {| crt := λ _, 0; crt_idx := 0; cur_hi := 0; cur_lo := 0 |};
     ser := {| u_on := true; u_rx := []; u_tx := []; u_thre := [] |};
     input := {| in_buf := replicate (Z.to_nat INPUT_BUF) 0; in_r := 0; in_w := 0; in_e := 0 |};
     kbd := {| k_scan := scan; k_shift := 0 |}; panicked := false; locking := true; wakeups := 0 |}.
Definition term0 : term :=
  {| t_text := {| cells := []; top := 0 |}; t_tx := []; t_com := []; t_line := []; t_wakes := 0 |}.

Lemma screen0 scan : screen_ok (scr (cons0 scan)).
Proof. by repeat split. Qed.

Lemma cons0_models scan : models true (cons0 scan) term0.
Proof.
  constructor; [done| |done| |done].
  - constructor; [apply screen0|done|done|]. intros k Hk. by left.
  - constructor; try done.
Qed.
Lemma term0_ok : tty_ok term0.
Proof. apply not_elem_of_nil. Qed.

Lemma console_refines_witness :
  runs (do_events [Write [104; 105]; Key 97; Key 13; Read false 8 8]) (cons0 []) (λ rs _,
    rs = [None; None; None; Some ([97; 10], Cret 2)]).
Proof.
  eapply runs_mono; [apply (console_refines true _ _ term0)|].
  - apply cons0_models.
  - apply term0_ok.
  - repeat constructor; cbn; lia.
  - cbn beta. intros rs s' (-> & _). reflexivity.
Defined.

Lemma typed_line_read_witness :
  runs (do_events ((Key <$> [97; 98; 8; 99] ++ [13]) ++ [Read false 8 8])) (cons0 []) (λ rs _,
    last rs = Some (Some ([97; 99; 10], Cret 3))).
Proof.
  eapply runs_mono; [apply (typed_line_read true [97; 98; 8; 99] _ term0 8)|].
  - apply cons0_models.
  - reflexivity.
  - reflexivity.
  - rewrite !Forall_cons. split_and!; [unfold plain, newline, ctrl_D, ctrl; lia..|constructor].
  - cbn; lia.
  - by apply Nat.ltb_lt.
  - cbn beta. intros rs s' [E _]. exact E.
Defined.

(** the scan codes of a shifted letter and its release *)
Lemma kbdintr_total_witness :
  runs (kbdintr (consputs [])) (cons0 [0x2A; 0x1E; 0x9E; 0xAA]) (λ _ s', k_scan (kbd s') = []).
Proof.
  eapply runs_mono; [apply (kbdintr_total true [] _ term0)|].
  - apply cons0_models.
  - apply term0_ok.
  - split; [|done]. repeat constructor; unfold is_u8; lia.
  - cbn beta. intros _ s' [E _]. exact E.
Defined.

Lemma consputs_in_bounds_witness :
  runs (consputs [104; 10; BACKSPACE]) (cons0 []) (λ _ s', screen_ok (scr s')).
Proof.
  eapply runs_mono; [apply (consputs_in_bounds [104; 10; BACKSPACE] (cons0 []))|].
  - reflexivity.
  - apply screen0.
  - cbn beta. intros _ s' [H _]. exact H.
Defined.
