(* ===== verification/Umalloc.v ===== *)
(** * umalloc.c: malloc and free

    The user memory is a function from addresses to words; a [Header] at [p] has its
    [ptr] in the word at [p] and its [size] in the word at [p + 4].  Addresses and
    sizes are [uint]s, so that [p + n] for a [Header *] is [u32 (p + 8 * n)].  [BASE]
    is the address of the static [base].

    The process has the memory below [brk], and the kernel lets it grow up to [lim].
    [sbrk] takes an [int]: it is what sys_sbrk with growproc does to the size. *)

From S2P Require Import Prelude.

Definition HDR : Z := 8.

Record um := { mem : Z → Z; freep : Z; brk : Z; lim : Z }.

Abbreviation U := (M um).

Section umalloc.
  Context (BASE : Z).

Definition word (a v : Z) (m : Z → Z) : Z → Z := λ k, if k =? a then v else m k.

Definition set_mem f s := {| mem := f (mem s); freep := freep s; brk := brk s; lim := lim s |}.
Definition set_freep p : U unit := modify (λ s, {| mem := mem s; freep := p; brk := brk s; lim := lim s |}).

(** [p->s.ptr] and [p->s.size] *)
Definition hptr (p : Z) : U Z := gets (λ s, mem s p).
Definition hsize (p : Z) : U Z := gets (λ s, mem s (p + 4)).
Definition set_hptr (p v : Z) : U unit := modify (set_mem (word p v)).
Definition set_hsize (p v : Z) : U unit := modify (set_mem (word (p + 4) v)).

(** [p + n] *)
Definition hplus (p n : Z) : Z := u32 (p + HDR * n).

Definition sbrk (n : Z) : U Z :=
  s ← get;
  let n := i32 n in
  let sz := brk s in
  let sz' := u32 (sz + n) in
  if 0 <? n then
    if lim s <? sz' then mret (-1)
    else if sz' <? sz then mret sz
    else _ ← put {| mem := mem s; freep := freep s; brk := sz'; lim := lim s |}; mret sz
  else if n <? 0 then
    if sz <=? sz' then mret sz
    else if sz' =? 0 then mret (-1)
    else _ ← put {| mem := mem s; freep := freep s; brk := sz'; lim := lim s |}; mret sz
  else mret sz.

(** the loop of [free] *)
Fixpoint find_slot (fuel : nat) (bp p : Z) : U Z :=
  match fuel with
  | O => λ _, NoFuel
  | S fuel =>
      q ← hptr p;
      if (p <? bp) && (bp <? q) then mret p
      else if (q <=? p) && ((p <? bp) || (bp <? q)) then mret p
      else find_slot fuel bp q
  end.

Definition free (fuel : nat) (ap : Z) : U unit :=
  let bp := u32 (ap - HDR) in
  p0 ← gets freep;
  p ← find_slot fuel bp p0;
  n ← hsize bp;
  q ← hptr p;
  _ ← (if hplus bp n =? q then
         m ← hsize q;
         _ ← set_hsize bp (u32 (n + m));
         qq ← hptr q;
         set_hptr bp qq
       else set_hptr bp q);
  m ← hsize p;
  _ ← (if hplus p m =? bp then
         n ← hsize bp;
         _ ← set_hsize p (u32 (m + n));
         q ← hptr bp;
         set_hptr p q
       else set_hptr p bp);
  set_freep p.

Definition morecore (fuel : nat) (nu : Z) : U Z :=
  let nu := if nu <? 4096 then 4096 else nu in
  p ← sbrk (u32 (nu * HDR));
  if p =? -1 then mret 0
  else
    let hp := p in
    _ ← set_hsize hp nu;
    _ ← free fuel (hplus hp 1);
    gets freep.

(** the loop of [malloc]; [free] gets [fuel0] *)
Fixpoint malloc_loop (fuel fuel0 : nat) (nunits prevp p : Z) : U Z :=
  match fuel with
  | O => λ _, NoFuel
  | S fuel =>
      n ← hsize p;
      if nunits <=? n then
        p ← (if n =? nunits then
               q ← hptr p;
               _ ← set_hptr prevp q;
               mret p
             else
               _ ← set_hsize p (u32 (n - nunits));
               m ← hsize p;
               let p := hplus p m in
               _ ← set_hsize p nunits;
               mret p);
        _ ← set_freep prevp;
        mret (hplus p 1)
      else
        fp ← gets freep;
        if p =? fp then
          p ← morecore fuel0 nunits;
          if p =? 0 then mret 0
          else
            q ← hptr p;
            malloc_loop fuel fuel0 nunits p q
        else
          q ← hptr p;
          malloc_loop fuel fuel0 nunits p q
  end.

Definition nunits_of (nbytes : Z) : Z := u32 (u32 (nbytes + (HDR - 1)) / HDR + 1).

Definition malloc (fuel : nat) (nbytes : Z) : U Z :=
  let nunits := nunits_of nbytes in
  fp ← gets freep;
  prevp ← (if fp =? 0 then
             _ ← set_hptr BASE BASE;
             _ ← set_freep BASE;
             _ ← set_hsize BASE 0;
             mret BASE
           else mret fp);
  p ← hptr prevp;
  malloc_loop fuel fuel nunits prevp p.
End umalloc.
