(* ===== verification/UmallocSpec.v ===== *)
(** * The heap of malloc and free

    [heap s F A]: the free blocks [F], sorted and with gaps between them, are linked in a
    ring with [base]; the blocks [A] have been handed out; all of them lie in the memory
    of the process and none overlap.  [free] moves a block from [A] to [F] and joins it
    with its neighbours, and [malloc] moves one from [F] to [A], after asking the kernel
    for more memory if it must. *)

From Stdlib Require Import Sorted.
From S2P Require Import Prelude Umalloc.

(** ** Blocks *)

(** a block: the address of its header and its size in headers *)
Abbreviation block := (Z * Z)%type.

Definition disj (x y : block) : Prop := x.1 + HDR * x.2 ≤ y.1 ∨ y.1 + HDR * y.2 ≤ x.1.

Fixpoint disjs (l : list block) : Prop :=
  match l with
  | [] => True
  | x :: l => Forall (disj x) l ∧ disjs l
  end.

Lemma disj_sym x y : disj x y → disj y x.
Proof. unfold disj. tauto. Qed.

#[export] Instance disjs_proper : Proper ((≡ₚ) ==> iff) disjs.
Proof.
  assert (Himp : ∀ l l', l ≡ₚ l' → disjs l → disjs l').
  { induction 1 as [|x l l' Hp IH|x y l|l l1 l2 _ IH1 _ IH2]; cbn; [done| | |by auto].
    - intros [Hx Hl]. split; [by rewrite <- Hp|auto].
    - rewrite !Forall_cons. intros [[Hxy Hy] [Hx Hl]]. split_and!; [by apply disj_sym|done..]. }
  intros l l' Hp. split; apply Himp; [done|by symmetry].
Qed.

Lemma disjs_pair l x y : disjs l → x ∈ l → y ∈ l → x = y ∨ disj x y.
Proof.
  induction l as [|z l IH]; [by intros _ ?%not_elem_of_nil|]. intros [Hz Hl] Hx Hy. rewrite Forall_forall in Hz.
  apply elem_of_cons in Hx as [->|Hx], Hy as [->|Hy]; [by left|right; by apply Hz|right; by apply disj_sym, Hz|by apply IH].
Qed.

Definition pos (x : block) : Prop := 1 ≤ x.2.

(** two neighbours are as good as one block *)
Lemma disjs_join p n m l :
  1 ≤ n → 1 ≤ m → Forall pos l → disjs ((p, n) :: (p + HDR * n, m) :: l) ↔ disjs ((p, n + m) :: l).
Proof.
  intros Hn Hm Hl. cbn. rewrite Forall_cons. split.
  - intros ([_ H1] & H2 & H3). split; [|done]. rewrite !Forall_forall in *. intros y Hy. specialize (H1 y Hy). specialize (H2 y Hy).
    specialize (Hl y Hy). unfold disj, pos, HDR in *. cbn in *. lia.
  - intros [H1 H2]. rewrite !Forall_forall in *. split_and!; try done.
    + unfold disj, HDR. cbn. lia.
    + intros y Hy. specialize (H1 y Hy). unfold disj, HDR in *. cbn in *. lia.
    + intros y Hy. specialize (H1 y Hy). unfold disj, HDR in *. cbn in *. lia.
Qed.

(** the words of different headers are different *)
Lemma hdr_ne l x y : disjs l → Forall pos l → x ∈ l → y ∈ l → x.1 + 4 ≠ y.1 ∧ (x.1 = y.1 → x = y).
Proof.
  intros Hd Hn Hx Hy. rewrite Forall_forall in Hn. pose proof (Hn x Hx). pose proof (Hn y Hy). unfold pos in *.
  destruct (disjs_pair l x y Hd Hx Hy) as [->|[H1|H1]]; [split; [lia|done]|unfold HDR in H1; lia..].
Qed.

(** ** Linked headers *)

(** from the header at [a] the pointers lead through [l] to [b] *)
Fixpoint path (m : Z → Z) (a : Z) (l : list Z) (b : Z) : Prop :=
  match l with
  | [] => m a = b
  | x :: l => m a = x ∧ path m x l b
  end.

Lemma path_app m a l x r b : path m a (l ++ x :: r) b ↔ path m a l x ∧ path m x r b.
Proof. revert a. induction l as [|y l IH]; intros a; cbn; [tauto|]. rewrite IH. tauto. Qed.

Lemma path_ext m m' a l b : (∀ x, x ∈ a :: l → m' x = m x) → path m a l b → path m' a l b.
Proof.
  revert a. induction l as [|y l IH]; intros a He; cbn; [by rewrite He by apply list_elem_of_here|].
  intros [H1 H2]. split; [by rewrite He by apply list_elem_of_here|]. apply IH; [|done]. intros x Hx. apply He. by apply list_elem_of_further.
Qed.

(** the end of a path *)
Definition node (a : Z) (l : list Z) : Z := default a (last l).

Lemma node_app a l x : node a (l ++ [x]) = x.
Proof. unfold node. by rewrite last_snoc. Qed.

Lemma node_cons a x l : node a (x :: l) = node x l.
Proof. unfold node. rewrite last_cons. by destruct (last l). Qed.

Lemma node_elem a l : node a l ∈ a :: l.
Proof. revert a. induction l as [|x l IH]; intros a; [apply list_elem_of_here|]. rewrite node_cons. apply list_elem_of_further, IH. Qed.

Lemma path_node m a l b : path m a l b → m (node a l) = b.
Proof. revert a. induction l as [|x l IH]; intros a; [done|]. rewrite node_cons. intros [_ H]. by apply IH. Qed.

Lemma word_eq a v m : word a v m a = v.
Proof. unfold word. by rewrite Z.eqb_refl. Qed.

Lemma word_ne a v m k : k ≠ a → word a v m k = m k.
Proof. unfold word. intros H. by rewrite (proj2 (Z.eqb_neq k a)) by done. Qed.

(** changing the last pointer of a path *)
Lemma path_set m a l b v : NoDup (a :: l) → path m a l b → path (word (node a l) v m) a l v.
Proof.
  revert a. induction l as [|x l IH]; intros a Hnd; [intros _; apply word_eq|]. rewrite node_cons. intros [H1 H2].
  apply NoDup_cons in Hnd as [Ha Hnd]. split; [|by apply IH]. rewrite word_ne; [done|]. intros He. apply Ha. rewrite He. apply node_elem.
Qed.

Lemma path_word m a l b p v : p ∉ a :: l → path m a l b → path (word p v m) a l b.
Proof. intros Hp. apply path_ext. intros x Hx. apply word_ne. by intros ->. Qed.

Lemma path_suffix m a l b X f Y : a :: l = X ++ f :: Y → path m a l b → path m f Y b ∧ node f Y = node a l.
Proof.
  revert a l. induction X as [|x X IH]; intros a l; cbn; [by intros [= -> ->]|]. intros [= -> ->].
  destruct X as [|y X]; cbn.
  - intros [_ H]. by rewrite node_cons.
  - intros [_ H]. rewrite node_cons. by apply IH.
Qed.

(** ** The search of free *)

(** free blocks in order, with a gap after each *)
Fixpoint gaps (l : list block) : Prop :=
  match l with
  | [] => True
  | x :: l => match l with [] => True | y :: _ => x.1 + HDR * x.2 < y.1 end ∧ gaps l
  end.

Lemma gaps_sorted l : gaps l → Forall pos l → StronglySorted Z.lt l.*1.
Proof.
  induction l as [|x l IH]; [constructor|]. intros [Hx Hg] [Hp Hl]%Forall_cons. specialize (IH Hg Hl). cbn. constructor; [done|].
  destruct l as [|y l]; [constructor|]. cbn in *. apply StronglySorted_inv in IH as [_ IH]. unfold pos, HDR in *.
  constructor; [lia|]. eapply Forall_impl; [exact IH|]. cbn. lia.
Qed.

Lemma gaps_app l x r : gaps (l ++ x :: r) ↔ gaps (l ++ [x]) ∧ gaps (x :: r).
Proof. induction l as [|y l IH]; [cbn; tauto|]. destruct l as [|z l]; [cbn; tauto|]. cbn [app gaps] in *. rewrite IH. tauto. Qed.

Lemma sorted_split bp (l : list block) :
  StronglySorted Z.lt l.*1 → bp ∉ l.*1 → ∃ l1 l2, l = l1 ++ l2 ∧ Forall (λ x, x < bp) l1.*1 ∧ Forall (λ x, bp < x) l2.*1.
Proof.
  induction l as [|x l IH]; cbn; [by exists [], []|]. intros [Hs Hx]%StronglySorted_inv [Hne Hn]%not_elem_of_cons.
  destruct (Z.lt_ge_cases x.1 bp) as [Hlt|Hge].
  - destruct (IH Hs Hn) as (l1 & l2 & -> & H1 & H2). exists (x :: l1), l2. split_and!; [done|by constructor|done].
  - exists [], (x :: l). split_and!; [done|constructor|]. constructor; [lia|]. eapply Forall_impl; [exact Hx|]. cbn. lia.
Qed.

Lemma find_low s bp a l b fuel :
  path (mem s) a l b → StronglySorted Z.lt (a :: l) → Forall (λ x, x < bp) (a :: l) → bp < b ∨ b ≤ a → (length l < fuel)%nat →
  find_slot fuel bp a s = Ret (node a l) s.
Proof.
  revert a fuel. induction l as [|x l IH]; intros a [|fuel] Hp Hs Hb Hend Hf; cbn in Hf; try lia; cbn [find_slot]; unfold hptr.
  - erewrite bind_Ret by reflexivity. cbn in Hp. rewrite Hp. apply Forall_cons in Hb as [Ha _].
    destruct (bp <? b) eqn:E; rewrite (proj2 (Z.ltb_lt a bp) Ha); cbn; [done|]. by rewrite (proj2 (Z.leb_le b a)) by lia.
  - destruct Hp as [Hx Hp]. erewrite bind_Ret by reflexivity. rewrite Hx. apply Forall_cons in Hb as [Ha Hb]. pose proof (Forall_inv Hb) as Hxb.
    apply StronglySorted_inv in Hs as [Hs Hax]. pose proof (Forall_inv Hax) as Hlt. cbn in *.
    rewrite (proj2 (Z.ltb_ge bp x)), andb_false_r, (proj2 (Z.leb_gt x a)) by lia. cbn. rewrite node_cons. apply IH; try done; lia.
Qed.

Lemma find_high s bp a l b fuel :
  path (mem s) a l b → StronglySorted Z.lt (a :: l) → Forall (λ x, bp < x) (a :: l) → b < bp →
  find_slot (S (length l) + fuel) bp a s = find_slot fuel bp b s.
Proof.
  revert a. induction l as [|x l IH]; intros a Hp Hs Hb Hend; cbn [length Nat.add find_slot]; unfold hptr.
  - erewrite bind_Ret by reflexivity. cbn in Hp. rewrite Hp. apply Forall_cons in Hb as [Ha _].
    rewrite (proj2 (Z.ltb_ge a bp)), (proj2 (Z.ltb_ge bp b)) by lia. cbn. by rewrite andb_false_r.
  - destruct Hp as [Hx Hp]. erewrite bind_Ret by reflexivity. rewrite Hx. apply Forall_cons in Hb as [Ha Hb].
    apply StronglySorted_inv in Hs as [Hs Hax]. pose proof (Forall_inv Hax) as Hlt. cbn in *.
    rewrite (proj2 (Z.ltb_ge a bp)), (proj2 (Z.leb_gt x a)) by lia. cbn. by apply IH.
Qed.

Lemma sorted_suffix X f (Y : list Z) : StronglySorted Z.lt (X ++ f :: Y) → StronglySorted Z.lt (f :: Y).
Proof. induction X as [|x X IH]; [done|]. cbn. intros [H _]%StronglySorted_inv. by apply IH. Qed.

Lemma sorted_prefix (X Y : list Z) : StronglySorted Z.lt (X ++ Y) → StronglySorted Z.lt X.
Proof. induction X as [|x X IH]; [constructor|]. cbn. intros [H Hx]%StronglySorted_inv. apply Forall_app in Hx as [Hx _]. by constructor; [apply IH|]. Qed.

Lemma find_low_from s bp a l b f fuel :
  path (mem s) a l b → StronglySorted Z.lt (a :: l) → Forall (λ x, x < bp) (a :: l) → bp < b ∨ b ≤ a → f ∈ a :: l →
  (length l < fuel)%nat → find_slot fuel bp f s = Ret (node a l) s.
Proof.
  intros Hp Hs Hb Hend (X & Y & HX)%list_elem_of_split Hf. destruct (path_suffix _ _ _ _ _ _ _ HX Hp) as [Hp' <-].
  assert (Haf : a ≤ f).
  { destruct X as [|x X]; injection HX as -> ->; [lia|]. apply StronglySorted_inv in Hs as [_ Hs]. rewrite Forall_forall in Hs.
    assert (x < f) by (apply Hs; set_solver). lia. }
  assert (length (a :: l) = length (X ++ f :: Y)) as Hlen by by rewrite HX. rewrite length_app in Hlen. cbn in Hlen.
  rewrite HX in Hs, Hb. apply Forall_app in Hb as [_ Hb]. apply sorted_suffix in Hs. apply (find_low _ _ _ _ b); try done; lia.
Qed.

(** the search finds the last node below the block, from wherever in the ring it starts *)
Lemma find_slot_spec s bp base l1 l2 f fuel :
  path (mem s) base (l1 ++ l2) base → StronglySorted Z.lt (base :: l1 ++ l2) → f ∈ base :: l1 ++ l2 →
  base < bp → Forall (λ x, x < bp) l1 → Forall (λ x, bp < x) l2 → (length (l1 ++ l2) + 2 ≤ fuel)%nat →
  find_slot fuel bp f s = Ret (node base l1) s.
Proof.
  intros Hp Hs Hf Hbp H1 H2 Hfuel. rewrite length_app in Hfuel.
  assert (Hs1 : StronglySorted Z.lt (base :: l1)) by by apply (sorted_prefix (base :: l1) l2).
  assert (Hb1 : Forall (λ x, x < bp) (base :: l1)) by by constructor.
  destruct l2 as [|y l2]; [rewrite app_nil_r in *; apply (find_low_from _ _ _ _ base); try done; [by right|lia]|].
  apply path_app in Hp as [Hp1 Hp2]. pose proof (Forall_inv H2) as Hy. cbn in Hy, Hfuel.
  assert (Hlow : ∀ f n, f ∈ base :: l1 → (length l1 < n)%nat → find_slot n bp f s = Ret (node base l1) s).
  { intros g n Hg Hn. apply (find_low_from _ _ _ _ y); try done. by left. }
  rewrite app_comm_cons, elem_of_app in Hf. destruct Hf as [Hf|(X & Y & HX)%list_elem_of_split]; [apply Hlow; [done|lia]|].
  destruct (path_suffix _ _ _ _ _ _ _ HX Hp2) as [Hp' _]. rewrite app_comm_cons, HX in Hs. rewrite HX in H2.
  assert (length (y :: l2) = length (X ++ f :: Y)) as Hlen by by rewrite HX. rewrite length_app in Hlen. cbn in Hlen.
  replace fuel with (S (length Y) + (fuel - S (length Y)))%nat by lia.
  rewrite (find_high _ _ _ _ base); [apply Hlow; [apply list_elem_of_here|lia]|done| |by apply Forall_app in H2 as [_ H2]|done].
  rewrite app_assoc in Hs. by apply sorted_suffix in Hs.
Qed.

(** ** The heap *)

Section heap.
  Context (BASE : Z).

(** the blocks [L] lie in memory above [base], with their sizes in their headers, and do not overlap *)
Definition block_ok (s : um) (x : block) : Prop :=
  mem s (x.1 + 4) = x.2 ∧ BASE + HDR ≤ x.1 ∧ 1 ≤ x.2 ∧ x.1 + HDR * x.2 ≤ brk s.

Definition blocks (s : um) (L : list block) : Prop := Forall (block_ok s) L ∧ disjs L.

(** the memory of the process, with [base] in it *)
Definition space (s : um) : Prop := 0 < BASE ∧ BASE + HDR ≤ brk s ≤ lim s ∧ lim s < 2 ^ 31 ∧ mem s (BASE + 4) = 0.

Record arena (s : um) (F A : list block) : Prop := {
  ar_space : space s;
  ar_blocks : blocks s (F ++ A);
  ar_ring : path (mem s) BASE F.*1 BASE;
  ar_gaps : gaps F
}.

Definition heap (s : um) (F A : list block) : Prop := arena s F A ∧ freep s ∈ BASE :: F.*1.

#[global] Instance blocks_proper s : Proper ((≡ₚ) ==> iff) (blocks s).
Proof. intros L L' H. unfold blocks. by rewrite H. Qed.

Lemma blocks_pos s L : blocks s L → Forall pos L.
Proof. intros [H _]. eapply Forall_impl; [exact H|]. intros x (_ & _ & Hx & _). exact Hx. Qed.

(** the headers *)
Definition is_hdr (L : list block) (p : Z) : Prop := p ∈ BASE :: L.*1.

Lemma hdr_words s L p q : blocks s L → is_hdr L p → is_hdr L q → p + 4 ≠ q.
Proof.
  intros HL Hp Hq. pose proof HL as [Hb Hd]. rewrite Forall_forall in Hb. unfold is_hdr in *. rewrite !elem_of_cons, !list_elem_of_fmap in *.
  destruct Hp as [->|(x & -> & Hx)], Hq as [->|(y & -> & Hy)]; [lia| | |].
  - destruct (Hb y Hy) as (_ & H & _). unfold HDR in H. lia.
  - destruct (Hb x Hx) as (_ & H & _). unfold HDR in H. lia.
  - apply (hdr_ne L x y); try done. by apply (blocks_pos s).
Qed.

(** the pointers may change *)
Lemma blocks_ptr s L p v : blocks s L → is_hdr L p → blocks (set_mem (word p v) s) L.
Proof.
  intros Hb Hp. pose proof Hb as [Hok Hd]. split; [|done]. rewrite Forall_forall in *. intros x Hx. destruct (Hok x Hx) as (H1 & H2).
  split; [|exact H2]. cbn. rewrite word_ne; [done|]. apply (hdr_words s L); [done| |done]. right. apply list_elem_of_fmap. eauto.
Qed.

(** two neighbours become one, with the size in the first header *)
Lemma blocks_join s p n m L :
  blocks s ((p, n) :: (p + HDR * n, m) :: L) → blocks (set_mem (word (p + 4) (n + m)) s) ((p, n + m) :: L).
Proof.
  intros Hb. pose proof (blocks_pos _ _ Hb) as Hpos. pose proof Hb as [Hok Hd]. apply Forall_cons in Hok as [Hp Hok]. apply Forall_cons in Hok as [Hm Hok].
  apply Forall_cons in Hpos as [Hn Hpos]. apply Forall_cons in Hpos as [Hm' Hpos]. split; [|by apply disjs_join in Hd].
  destruct Hp as (H1 & H2 & H3 & H4), Hm as (H5 & H6 & H7 & H8). cbn in *. constructor.
  - unfold block_ok. cbn. rewrite word_eq. unfold HDR in *. split_and!; lia.
  - rewrite Forall_forall in *. intros x Hx. destruct (Hok x Hx) as (H9 & H10 & H11 & H12). split; [|done]. cbn. rewrite word_ne; [done|].
    destruct Hd as [Hd _]. specialize (Hd x (list_elem_of_further _ _ _ Hx)). unfold disj, HDR in *. cbn in *. lia.
Qed.

(** and one becomes two, with the new size in the second header *)
Lemma blocks_split s p n k L :
  1 ≤ k → k < n → blocks s ((p, n) :: L) →
  blocks (set_mem (word (p + HDR * (n - k) + 4) k) (set_mem (word (p + 4) (n - k)) s)) ((p, n - k) :: (p + HDR * (n - k), k) :: L).
Proof.
  intros Hk Hkn Hb. pose proof (blocks_pos _ _ Hb) as Hpos. pose proof Hb as [Hok Hd]. apply Forall_cons in Hok as [Hp Hok].
  apply Forall_cons in Hpos as [Hn Hpos]. split; [|apply disjs_join; [lia..|done|]; by replace (n - k + k) with n by lia].
  destruct Hp as (H1 & H2 & H3 & H4). cbn in *. unfold HDR in *. constructor; [|constructor].
  - unfold block_ok, HDR. cbn. rewrite word_ne by lia. rewrite word_eq. split_and!; lia.
  - unfold block_ok, HDR. cbn. rewrite word_eq. split_and!; lia.
  - rewrite Forall_forall in *. intros x Hx. destruct (Hok x Hx) as (H9 & H10 & H11 & H12). split; [|done]. cbn.
    destruct Hd as [Hd _]. specialize (Hd x Hx). unfold disj, HDR in *. cbn in *. rewrite !word_ne; [done|lia..].
Qed.

Lemma blocks_NoDup s L : blocks s L → NoDup (BASE :: L.*1).
Proof.
  intros Hb. pose proof Hb as [Hok Hd]. apply NoDup_cons. split.
  - intros (x & He & Hx)%list_elem_of_fmap. rewrite Forall_forall in Hok. destruct (Hok x Hx) as (_ & H & _). unfold HDR in H. lia.
  - pose proof (blocks_pos _ _ Hb) as Hpos. clear Hb Hok. induction L as [|x L IH]; cbn; [constructor|].
    apply Forall_cons in Hpos as [Hx Hpos]. destruct Hd as [Hxd Hd]. apply NoDup_cons. split; [|by apply IH].
    intros (y & He & Hy)%list_elem_of_fmap. rewrite Forall_forall in Hxd, Hpos. specialize (Hxd y Hy). specialize (Hpos y Hy).
    unfold disj, pos, HDR in *. lia.
Qed.

(** the words of the blocks that belong to their owner *)
Definition owned (x : block) (k : Z) : Prop := x.1 + HDR ≤ k < x.1 + HDR * x.2.

Definition kept (L : list block) (s s' : um) : Prop := ∀ x k, x ∈ L → owned x k → mem s' k = mem s k.

Lemma kept_refl L s : kept L s s.
Proof. done. Qed.

Lemma kept_trans L s1 s2 s3 : kept L s1 s2 → kept L s2 s3 → kept L s1 s3.
Proof. intros H1 H2 x k Hx Hk. by rewrite (H2 x k Hx Hk), (H1 x k Hx Hk). Qed.

Lemma kept_sub L L' s s' : L' ⊆ L → kept L s s' → kept L' s s'.
Proof. intros Hs H x k Hx. apply H. by apply Hs. Qed.

(** a word that is in none of the blocks, or in a header *)
Lemma kept_out L s a v : (∀ x, x ∈ L → a < x.1 + HDR ∨ x.1 + HDR * x.2 ≤ a) → kept L s (set_mem (word a v) s).
Proof. intros Ha x k Hx Hk. cbn. apply word_ne. intros ->. destruct (Ha x Hx), Hk; lia. Qed.

Lemma kept_hdr s L L' p v a s' : blocks s L → L' ⊆ L → is_hdr L p → a = p ∨ a = p + 4 → kept L' s' (set_mem (word a v) s').
Proof.
  intros [Hok Hd] HL Hp Ha. apply kept_out. intros x Hx%HL. rewrite Forall_forall in Hok. destruct (Hok x Hx) as (_ & H1 & H2 & _). unfold is_hdr in Hp.
  rewrite elem_of_cons, list_elem_of_fmap in Hp. destruct Hp as [->|(y & -> & Hy)]; [unfold HDR in *; lia|].
  destruct (Hok y Hy) as (_ & H3 & H4 & _). destruct (disjs_pair L x y Hd Hx Hy) as [->|[H|H]]; unfold HDR in *; lia.
Qed.

(** ** free *)

Lemma space_word s a v : space s → a ≠ BASE + 4 → space (set_mem (word a v) s).
Proof. intros (H1 & H2 & H3 & H4) Ha. repeat split; try done; try apply H2. cbn. by rewrite word_ne. Qed.

Lemma space_ptr s L p v : space s → blocks s L → is_hdr L p → space (set_mem (word p v) s).
Proof. intros Hs Hb Hp. apply space_word; [done|]. intros ->. by apply (hdr_words s L BASE (BASE + 4)); [done|left|done|]. Qed.

Lemma space_size s L x v : space s → blocks s L → x ∈ L → space (set_mem (word (x.1 + 4) v) s).
Proof.
  intros Hs [Hok _] Hx. apply space_word; [done|]. rewrite Forall_forall in Hok. destruct (Hok x Hx) as (_ & H & _). unfold HDR in H. lia.
Qed.

(** a size written in a header leaves the pointers *)
Lemma path_size s L p v a l b :
  blocks s L → is_hdr L p → (∀ x, x ∈ a :: l → is_hdr L x) → path (mem s) a l b → path (word (p + 4) v (mem s)) a l b.
Proof. intros Hb Hp Hl. apply path_word. intros Hin. by apply (hdr_words s L p (p + 4)); [done|done|apply Hl|]. Qed.

Lemma path_head m m' a a' l b : m' a' = m a → (∀ x, x ∈ l → m' x = m x) → path m a l b → path m' a' l b.
Proof.
  intros Ha Hl. destruct l as [|x l]; cbn; [by rewrite Ha|]. intros [H1 H2]. split; [by rewrite Ha|]. by eapply path_ext.
Qed.

(** between the two ifs of [free]: the block [bp] leads on to [F2], and [F1] does not lead to it yet *)
Record slot (s : um) (F1 : list block) (bp n : Z) (F2 A : list block) : Prop := {
  sl_space : space s;
  sl_blocks : blocks s (F1 ++ (bp, n) :: F2 ++ A);
  sl_low : ∃ q, path (mem s) BASE F1.*1 q;
  sl_high : path (mem s) bp F2.*1 BASE;
  sl_gaps1 : gaps F1;
  sl_gaps2 : gaps ((bp, n) :: F2);
  sl_ord : Forall (λ x, x.1 + HDR * x.2 ≤ bp) F1
}.

Definition join_up (bp n q : Z) : U unit :=
  if hplus bp n =? q then
    m ← hsize q;
    _ ← set_hsize bp (u32 (n + m));
    qq ← hptr q;
    set_hptr bp qq
  else set_hptr bp q.

Definition join_down (p m bp : Z) : U unit :=
  if hplus p m =? bp then
    n ← hsize bp;
    _ ← set_hsize p (u32 (m + n));
    q ← hptr bp;
    set_hptr p q
  else set_hptr p bp.

Definition same_space (s s' : um) : Prop := brk s' = brk s ∧ lim s' = lim s ∧ freep s' = freep s.

Lemma block_plus s x : space s → block_ok s x → hplus x.1 x.2 = x.1 + HDR * x.2 ∧ 0 ≤ x.2 < 2 ^ 28.
Proof.
  intros (H1 & H2 & H3 & _) (_ & H4 & H5 & H6). unfold hplus, HDR in *. rewrite u32_id by (unfold is_u32; lia). lia.
Qed.

Lemma is_hdr_in L x : x ∈ L → is_hdr L x.1.
Proof. intros Hx. right. apply list_elem_of_fmap. eauto. Qed.

Lemma hdrs_sub L L' x : L' ⊆ L → x ∈ BASE :: L'.*1 → is_hdr L x.
Proof. unfold is_hdr. rewrite !elem_of_cons, !list_elem_of_fmap. intros Hs [->|(y & -> & Hy)]; [by left|right; eauto]. Qed.

(** [F1] leads to the block *)
Lemma link_down s F1 bp n F2 A :
  slot s F1 bp n F2 A → (∀ F p m, F1 = F ++ [(p, m)] → p + HDR * m < bp) →
  arena (set_mem (word (node BASE F1.*1) bp) s) (F1 ++ (bp, n) :: F2) A.
Proof.
  intros [Hsp Hb [q0 Hlow] Hhigh Hg1 Hg2 Hord] Hgap. pose proof (blocks_NoDup _ _ Hb) as Hnd.
  assert (Hp : is_hdr (F1 ++ (bp, n) :: F2 ++ A) (node BASE F1.*1)) by (apply (hdrs_sub _ F1); [set_solver|apply node_elem]).
  rewrite fmap_app, fmap_cons, fmap_app, app_comm_cons in Hnd. apply NoDup_app in Hnd as (Hnd1 & Hx & Hnd2).
  constructor.
  - by eapply space_ptr.
  - rewrite <- app_assoc. cbn. by apply blocks_ptr.
  - rewrite fmap_app, fmap_cons. apply path_app. split; [by eapply path_set|]. apply path_word; [|done].
    intros Hin. apply (Hx _ (node_elem BASE F1.*1)). cbn. set_solver.
  - destruct F1 as [|[p m] F1 _] using rev_ind; [done|]. rewrite <- app_assoc. cbn [app]. apply gaps_app. split; [done|].
    split; [|done]. cbn. by eapply Hgap.
Qed.

Lemma gaps_last l p m m' : gaps (l ++ [(p, m)]) → gaps (l ++ [(p, m')]).
Proof. induction l as [|x l IH]; [done|]. destruct l as [|y l]; [done|]. intros [H1 H2]. split; [done|]. by apply IH. Qed.

Lemma gaps_first p n q m l : p + HDR * n = q + HDR * m → gaps ((q, m) :: l) → gaps ((p, n) :: l).
Proof. intros He. destruct l as [|y l]; [done|]. intros [H1 H2]. split; [|done]. cbn in *. lia. Qed.

(** the header at [p] takes over the size and the pointer of the next block *)
Lemma join_step s p n m L :
  space s → blocks s ((p, n) :: (p + HDR * n, m) :: L) →
  let s' := set_mem (word p (mem s (p + HDR * n))) (set_mem (word (p + 4) (n + m)) s) in
  space s' ∧ blocks s' ((p, n + m) :: L) ∧
  (∀ a l b, (∀ x, x ∈ a :: l → x ∈ BASE :: L.*1) → path (mem s) a l b → path (mem s') a l b) ∧
  (∀ l b, (∀ x, x ∈ l → x ∈ L.*1) → path (mem s) (p + HDR * n) l b → path (mem s') p l b).
Proof.
  intros Hsp Hb. cbn zeta. set (s1 := set_mem (word (p + 4) (n + m)) s). pose proof (blocks_join _ _ _ _ _ Hb) as Hb1. fold s1 in Hb1.
  assert (Hp : is_hdr ((p, n + m) :: L) p) by (right; apply list_elem_of_here).
  assert (Hp0 : is_hdr ((p, n) :: (p + HDR * n, m) :: L) p) by (right; apply list_elem_of_here).
  pose proof (blocks_NoDup _ _ Hb) as Hnd. cbn in Hnd. rewrite !NoDup_cons in Hnd. destruct Hnd as (Hn1 & Hn2 & _).
  split_and!.
  - eapply space_ptr; [|exact Hb1|exact Hp]. apply (space_size s _ (p, n) _ Hsp Hb). apply list_elem_of_here.
  - by apply blocks_ptr.
  - intros a l b Hl Hr. apply path_word; [set_solver|]. apply (path_size s _ _ _ _ _ _ Hb Hp0); [|done]. intros x Hx%Hl. unfold is_hdr. cbn. set_solver.
  - intros l b Hl Hr. apply (path_head (mem s1) _ (p + HDR * n)); [|intros x Hx; apply word_ne; set_solver|].
    + cbn. rewrite word_eq. symmetry. apply word_ne, not_eq_sym. apply (hdr_words s _ p _ Hb Hp0). right. cbn. set_solver.
    + apply (path_size s _ _ _ _ _ _ Hb Hp0); [|done]. intros x [->|Hx%Hl]%elem_of_cons; unfold is_hdr; cbn; set_solver.
Qed.

(** the block becomes part of the last of [F1] *)
Lemma merge_down s F1 p m n F2 A :
  slot s (F1 ++ [(p, m)]) (p + HDR * m) n F2 A →
  arena (set_mem (word p (mem s (p + HDR * m))) (set_mem (word (p + 4) (m + n)) s)) (F1 ++ (p, m + n) :: F2) A.
Proof.
  intros [Hsp Hb [q0 Hlow] Hhigh Hg1 Hg2 Hord].
  assert (HL : (F1 ++ [(p, m)]) ++ (p + HDR * m, n) :: F2 ++ A ≡ₚ (p, m) :: (p + HDR * m, n) :: F1 ++ F2 ++ A) by solve_Permutation.
  assert (HL' : (F1 ++ (p, m + n) :: F2) ++ A ≡ₚ (p, m + n) :: F1 ++ F2 ++ A) by solve_Permutation.
  rewrite HL in Hb. destruct (join_step _ _ _ _ _ Hsp Hb) as (Hsp' & Hb' & Hp1 & Hp2). rewrite !fmap_app in Hp1, Hp2.
  rewrite fmap_app in Hlow. apply path_app in Hlow as [Hlow _]. constructor; [done|by rewrite HL'| |].
  - rewrite fmap_app, fmap_cons. apply path_app. split; [apply Hp1; [set_solver|done]|apply Hp2; [set_solver|done]].
  - apply gaps_app. split; [by eapply gaps_last|]. eapply gaps_first; [|exact Hg2]. lia.
Qed.

(** the block has found its place in the ring after [p] *)
Definition placed (p n : Z) (len : nat) (A : list block) (s s' : um) : Prop :=
  same_space s s' ∧ kept A s s' ∧
  ∃ F, arena s' F A ∧ p ∈ BASE :: F.*1 ∧ (∃ x, x ∈ F ∧ n ≤ x.2) ∧ (length F ≤ len)%nat.

Lemma link_down_runs s F1 bp n F2 A :
  slot s F1 bp n F2 A → (∀ F p m, F1 = F ++ [(p, m)] → p + HDR * m < bp) →
  runs (set_hptr (node BASE F1.*1) bp) s (λ _, placed (node BASE F1.*1) n (length F1 + S (length F2)) A s).
Proof.
  intros Hsl Hgap. apply runs_modify. split_and!; [done| |].
  - eapply (kept_hdr s); [apply Hsl|set_solver| |by left]. apply (hdrs_sub _ F1); [set_solver|apply node_elem].
  - exists (F1 ++ (bp, n) :: F2). split_and!; [by apply link_down| |exists (bp, n); set_solver|rewrite length_app; cbn; lia].
    rewrite fmap_app, app_comm_cons. apply elem_of_app. left. apply node_elem.
Qed.

Lemma merge_down_runs s F1 p m n F2 A :
  slot s (F1 ++ [(p, m)]) (p + HDR * m) n F2 A →
  runs (n ← hsize (p + HDR * m); _ ← set_hsize p (u32 (m + n)); q ← hptr (p + HDR * m); set_hptr p q) s
    (λ _, placed p n (length (F1 ++ [(p, m)]) + S (length F2)) A s).
Proof.
  intros Hsl. pose proof Hsl as [(Hs1 & Hs2 & Hs3 & _) Hb _ _ _ _ _]. pose proof Hb as [Hok _]. rewrite Forall_forall in Hok.
  destruct (Hok (p, m)) as (_ & Hp & Hm & _); [set_solver|]. destruct (Hok (p + HDR * m, n)) as (Hn & Hq & Hn1 & Hn2); [set_solver|]. cbn in *.
  unfold hsize, set_hsize, hptr, set_hptr. do 3 rprim. apply runs_modify. cbn [mem set_mem].
  rewrite Hn, u32_id by (unfold is_u32, HDR in *; lia). rewrite (word_ne (p + 4)) by (unfold HDR in *; lia).
  assert (Hhdr : is_hdr ((F1 ++ [(p, m)]) ++ (p + HDR * m, n) :: F2 ++ A) p) by (apply (is_hdr_in _ (p, m)); set_solver).
  split_and!; [done| |].
  - eapply kept_trans; (eapply (kept_hdr s); [exact Hb|set_solver|exact Hhdr|auto]).
  - exists (F1 ++ (p, m + n) :: F2). split_and!; [by apply merge_down| |exists (p, m + n); cbn; split; [set_solver|lia]|rewrite !length_app; cbn; lia].
    rewrite fmap_app. set_solver.
Qed.

(** the second if of [free] *)
Lemma join_down_runs s F1 bp n F2 A :
  slot s F1 bp n F2 A → let p := node BASE F1.*1 in
  runs (join_down p (mem s (p + 4)) bp) s (λ _, placed p n (length F1 + S (length F2)) A s).
Proof.
  intros Hsl. pose proof Hsl as [Hsp [Hok _] _ _ _ _ Hord]. rewrite Forall_forall in Hok.
  destruct (Hok (bp, n)) as (Hbp1 & Hbp2 & Hbp3 & Hbp4); [set_solver|]. cbn zeta. unfold join_down.
  destruct F1 as [|[p m] F1 _] using rev_ind.
  - destruct Hsp as (Hs1 & Hs2 & Hs3 & Hz). cbn [fmap list_fmap node last default]. unfold node. cbn [last default from_option]. rewrite Hz.
    rewrite (proj2 (Z.eqb_neq _ _)); [apply (link_down_runs _ []); [done|by intros []]|].
    unfold hplus. rewrite Z.mul_0_r, Z.add_0_r, u32_id by (unfold is_u32, HDR in *; lia). unfold HDR in *. cbn in *. lia.
  - rewrite fmap_app. cbn [fmap list_fmap fst]. rewrite node_app.
    assert (Hp : block_ok s (p, m)) by (apply Hok; set_solver). pose proof (block_plus s _ Hsp Hp) as [Hpl Hm]. destruct Hp as (Hp1 & _).
    cbn [fst snd] in *. rewrite Hp1, Hpl. apply Forall_app in Hord as [_ Hord%Forall_inv]. cbn in Hord.
    destruct (Z.eqb_spec (p + HDR * m) bp) as [<-|E]; [by apply merge_down_runs|].
    pose proof (link_down_runs _ _ _ _ _ _ Hsl) as Hr. rewrite fmap_app in Hr. cbn [fmap list_fmap fst] in Hr. rewrite node_app in Hr.
    apply Hr. intros F p' m' [_ [= <- <-]]%app_inj_tail. lia.
Qed.

Definition after (F : list block) : Z := default BASE (head F.*1).

(** the ring is cut where the block belongs *)
Lemma open_slot s F1 F2 bp n A :
  arena s (F1 ++ F2) ((bp, n) :: A) → Forall (λ x, x < bp) F1.*1 → Forall (λ x, bp < x) F2.*1 →
  blocks s (F1 ++ (bp, n) :: F2 ++ A) ∧ path (mem s) BASE F1.*1 (after F2) ∧ gaps F1 ∧ gaps F2 ∧
  Forall (λ x, x.1 + HDR * x.2 ≤ bp) F1 ∧ Forall (λ x, bp + HDR * n ≤ x.1) F2.
Proof.
  intros [Hsp Hb Hr Hg] H1 H2. assert (HL : (F1 ++ F2) ++ (bp, n) :: A ≡ₚ F1 ++ (bp, n) :: F2 ++ A) by solve_Permutation.
  rewrite HL in Hb. pose proof Hb as [Hok Hd]. rewrite !Forall_fmap in *. rewrite !Forall_forall in *. split_and!; [done| | | | |].
  - rewrite fmap_app in Hr. unfold after. destruct F2 as [|y F2]; cbn in *; [by rewrite app_nil_r in Hr|]. by apply path_app in Hr as [Hr _].
  - destruct F1 as [|x F1 _] using rev_ind; [done|]. rewrite <- app_assoc in Hg. by apply gaps_app in Hg as [Hg _].
  - destruct F2 as [|y F2]; [done|]. by apply gaps_app in Hg as [_ Hg].
  - intros x Hx. specialize (H1 x Hx). destruct (Hok (bp, n)) as (_ & _ & Hn & _); [set_solver|].
    destruct (disjs_pair _ x (bp, n) Hd) as [->|[H|H]]; [set_solver..| | |]; cbn in *; unfold HDR in *; lia.
  - intros x Hx. specialize (H2 x Hx). destruct (Hok x) as (_ & _ & Hn & _); [set_solver|].
    destruct (disjs_pair _ x (bp, n) Hd) as [->|[H|H]]; [set_solver..| | |]; cbn in *; unfold HDR in *; lia.
Qed.

Lemma ring_high s F1 F2 A : arena s (F1 ++ F2) A → match F2 with [] => True | y :: F => path (mem s) y.1 F.*1 BASE end.
Proof. intros [_ _ Hr _]. destruct F2 as [|y F2]; [done|]. rewrite fmap_app in Hr. by apply path_app in Hr as [_ Hr]. Qed.

(** the block leads on to [F2] *)
Lemma link_up s F1 F2 bp n A :
  arena s (F1 ++ F2) ((bp, n) :: A) → Forall (λ x, x < bp) F1.*1 → Forall (λ x, bp < x) F2.*1 →
  (∀ y F, F2 = y :: F → bp + HDR * n ≠ y.1) → slot (set_mem (word bp (after F2)) s) F1 bp n F2 A.
Proof.
  intros Har H1 H2 Hgap. destruct (open_slot _ _ _ _ _ _ Har H1 H2) as (Hb & Hlow & Hg1 & Hg2 & Ho1 & Ho2).
  assert (Hhdr : is_hdr (F1 ++ (bp, n) :: F2 ++ A) bp) by (apply (is_hdr_in _ (bp, n)); set_solver).
  pose proof (blocks_NoDup _ _ Hb) as Hnd. rewrite fmap_app, fmap_cons, fmap_app in Hnd. cbn in Hnd. apply NoDup_cons in Hnd as [Hnb Hnd].
  apply NoDup_app in Hnd as (_ & Hn1 & [Hn2 _]%NoDup_cons).
  constructor; try done.
  - eapply space_ptr; [apply Har|done..].
  - by apply blocks_ptr.
  - eexists. apply path_word; [|exact Hlow]. intros [->|Hin]%elem_of_cons; [set_solver|]. apply (Hn1 bp Hin), list_elem_of_here.
  - pose proof (ring_high _ _ _ _ Har) as Hh. unfold after. destruct F2 as [|y F2]; cbn in *; [apply word_eq|].
    split; [apply word_eq|]. apply path_word; [set_solver|done].
  - split; [|done]. destruct F2 as [|y F2]; [done|]. apply Forall_inv in Ho2. specialize (Hgap y F2 eq_refl). cbn in *. lia.
Qed.

(** the first of [F2] becomes part of the block *)
Lemma merge_up s F1 F2 bp n m A :
  arena s (F1 ++ (bp + HDR * n, m) :: F2) ((bp, n) :: A) → Forall (λ x, x < bp) F1.*1 → Forall (λ x, bp < x) (bp + HDR * n :: F2.*1) →
  slot (set_mem (word bp (mem s (bp + HDR * n))) (set_mem (word (bp + 4) (n + m)) s)) F1 bp (n + m) F2 A.
Proof.
  intros Har H1 H2. destruct (open_slot _ _ _ _ _ _ Har H1 H2) as (Hb & Hlow & Hg1 & Hg2 & Ho1 & Ho2).
  assert (HL : F1 ++ (bp, n) :: ((bp + HDR * n, m) :: F2) ++ A ≡ₚ (bp, n) :: (bp + HDR * n, m) :: F1 ++ F2 ++ A) by solve_Permutation.
  assert (HL' : F1 ++ (bp, n + m) :: F2 ++ A ≡ₚ (bp, n + m) :: F1 ++ F2 ++ A) by solve_Permutation.
  rewrite HL in Hb. destruct (join_step _ _ _ _ _ (ar_space _ _ _ Har) Hb) as (Hsp' & Hb' & Hp1 & Hp2). rewrite !fmap_app in Hp1, Hp2.
  constructor; [done|by rewrite HL'| | |done| |done].
  - eexists. apply Hp1; [set_solver|exact Hlow].
  - apply Hp2; [set_solver|]. by pose proof (ring_high _ _ _ _ Har).
  - eapply gaps_first; [|exact Hg2]. cbn. lia.
Qed.

(** the first if of [free] *)
Lemma join_up_runs s F1 F2 bp n A :
  arena s (F1 ++ F2) ((bp, n) :: A) → Forall (λ x, x < bp) F1.*1 → Forall (λ x, bp < x) F2.*1 →
  runs (join_up bp n (after F2)) s (λ _ s', same_space s s' ∧ kept A s s' ∧
    ∃ n' F2', slot s' F1 bp n' F2' A ∧ n ≤ n' ∧ (length F2' ≤ length F2)%nat).
Proof.
  intros Har H1 H2. pose proof (open_slot _ _ _ _ _ _ Har H1 H2) as (Hb & _). pose proof Hb as [Hok _]. rewrite Forall_forall in Hok.
  assert (Hhdr : is_hdr (F1 ++ (bp, n) :: F2 ++ A) bp) by (apply (is_hdr_in _ (bp, n)); set_solver).
  assert (Hbp : block_ok s (bp, n)) by (apply Hok; set_solver). pose proof (ar_space _ _ _ Har) as Hsp.
  pose proof (block_plus s _ Hsp Hbp) as [Hpl Hn]. cbn [fst snd] in *. unfold join_up. rewrite Hpl.
  destruct (Z.eqb_spec (bp + HDR * n) (after F2)) as [E|E].
  - destruct F2 as [|[q m] F2]; [destruct Hbp as (_ & Hbp & _); cbn in *; unfold HDR in *; lia|]. cbn in E. subst q.
    destruct (Hok (bp + HDR * n, m)) as (Hm & Hm1 & Hm2 & Hm3); [set_solver|]. destruct Hbp as (_ & Hbp1 & _). destruct Hsp as (? & ? & ? & _). cbn in *.
    unfold hsize, set_hsize, hptr, set_hptr. do 3 rprim. apply runs_modify. cbn [mem set_mem].
    rewrite Hm, u32_id by (unfold is_u32, HDR in *; lia). rewrite (word_ne (bp + 4)) by (unfold HDR in *; lia). split_and!; [done| |].
    + eapply kept_trans; (eapply (kept_hdr s); [exact Hb|set_solver|exact Hhdr|auto]).
    + exists (n + m), F2. split_and!; [by apply merge_up|lia|lia].
  - apply runs_modify. split_and!; [done|eapply (kept_hdr s); [exact Hb|set_solver|exact Hhdr|auto]|].
    exists n, F2. split_and!; [|lia..]. apply link_up; try done. intros y F -> He. by apply E.
Qed.

(** [free] puts the block in its place *)
Lemma free_runs s F bp n A fuel :
  heap s F ((bp, n) :: A) → (length F + 2 ≤ fuel)%nat →
  runs (free fuel (bp + HDR)) s (λ _ s', brk s' = brk s ∧ lim s' = lim s ∧ kept A s s' ∧
    ∃ F', heap s' F' A ∧ (∃ x, x ∈ F' ∧ n ≤ x.2) ∧ (length F' ≤ S (length F))%nat).
Proof.
  intros [Har Hf] Hfuel. pose proof Har as [Hsp Hb Hr Hg]. pose proof Hb as [Hok _]. rewrite Forall_forall in Hok.
  destruct (Hok (bp, n)) as (Hn & Hbp & Hn1 & Hbrk); [set_solver|]. pose proof Hsp as (Hs1 & Hs2 & Hs3 & _). cbn in Hn, Hbp, Hn1, Hbrk.
  pose proof (blocks_NoDup _ _ Hb) as [_ Hnd]%NoDup_cons. rewrite fmap_app in Hnd. apply NoDup_app in Hnd as (_ & Hnd & _).
  pose proof (blocks_pos _ _ Hb) as [Hpos _]%Forall_app. pose proof (gaps_sorted _ Hg Hpos) as Hsort.
  destruct (sorted_split bp F Hsort) as (F1 & F2 & -> & H1 & H2).
  { intros Hin. apply (Hnd bp Hin). left. }
  unfold free. replace (u32 (bp + HDR - HDR)) with bp by (rewrite u32_id; unfold is_u32, HDR in *; lia). rprim.
  rewrite fmap_app in Hr, Hsort, Hf.
  assert (Hsort' : StronglySorted Z.lt (BASE :: F1.*1 ++ F2.*1)).
  { constructor; [done|]. rewrite <- fmap_app, Forall_fmap, Forall_forall. intros x Hx. destruct (Hok x) as (_ & H & _); [set_solver|]. cbn. unfold HDR in H. lia. }
  apply runs_bind. exists (node BASE F1.*1), s. split.
  { apply (find_slot_spec s bp BASE F1.*1 F2.*1); try done; [unfold HDR in *; lia|by rewrite <- fmap_app, length_fmap]. }
  pose proof (open_slot _ _ _ _ _ _ Har H1 H2) as (_ & Hlow & _). apply path_node in Hlow.
  unfold hsize at 1, hptr at 1. do 2 rprim. rewrite Hn, Hlow. eapply runs_bind_mono; [by apply join_up_runs|].
  intros [] s1 ((Hb1 & Hl1 & Hf1) & Hk1 & n' & F2' & Hsl & Hn' & Hlen). unfold hsize at 1. rprim.
  eapply runs_bind_mono; [by apply join_down_runs|]. intros [] s2 ((Hb2 & Hl2 & _) & Hk2 & F' & [] & Hp' & (x & Hx & Hxn) & Hlen').
  apply runs_modify. cbn. split_and!; [congruence..|by eapply kept_trans|]. exists F'. split_and!; [by split|exists x; split; [done|lia]|].
  rewrite length_app in *. lia.
Qed.
End heap.
