(* ===== verification/UmallocAlloc.v ===== *)
(** * Allocation

    [malloc] looks through the whole ring from [freep]; a block that is large enough is
    taken, and if there is none the kernel is asked for memory, [free] puts it into the
    ring and the search goes on with it. *)

From Stdlib Require Import Sorted.
From S2P Require Import Prelude Umalloc UmallocSpec.

(** ** Rings *)

Lemma path_rotate m a l X f Y : a :: l = X ++ f :: Y → path m a l a → path m f (Y ++ X) f.
Proof.
  destruct X as [|x X]; cbn; intros [= -> ->]; [by rewrite app_nil_r|]. intros [H1 H2]%path_app. by apply path_app.
Qed.

Lemma path_next m a l b x : path m a l b → x ∈ a :: l → m x ∈ l ++ [b].
Proof.
  revert a. induction l as [|y l IH]; intros a; cbn; [intros <- ->%list_elem_of_singleton; left|].
  intros [Ha Hp] [->|Hx]%elem_of_cons; [rewrite Ha; left|right; by apply (IH y)].
Qed.

(** each node of a ring has one predecessor *)
Lemma path_inj m a l b x y : path m a l b → NoDup (l ++ [b]) → x ∈ a :: l → y ∈ a :: l → m x = m y → x = y.
Proof.
  revert a. induction l as [|z l IH]; intros a; cbn; [intros _ _ ->%list_elem_of_singleton ->%list_elem_of_singleton; done|].
  intros [Ha Hp] [Hz Hnd]%NoDup_cons Hx Hy He. apply elem_of_cons in Hx as [->|Hx], Hy as [->|Hy]; [done| | |by apply (IH z)].
  - destruct Hz. rewrite <- Ha, He. by apply (path_next _ z).
  - destruct Hz. rewrite <- Ha, <- He. by apply (path_next _ z).
Qed.

Lemma first_split {T} (P : T → Prop) `{∀ x, Decision (P x)} l :
  Forall (λ x, ¬ P x) l ∨ ∃ l1 x l2, l = l1 ++ x :: l2 ∧ Forall (λ x, ¬ P x) l1 ∧ P x.
Proof.
  induction l as [|x l IH]; [by left|]. destruct (decide (P x)) as [Hx|Hx]; [right; by exists [], x, l|].
  destruct IH as [IH|(l1 & y & l2 & -> & H1 & H2)]; [left; by constructor|right]. exists (x :: l1), y, l2. split_and!; [done|by constructor|done].
Qed.

Section malloc.
  Context (BASE : Z).

Local Abbreviation arena := (arena BASE).
Local Abbreviation heap := (heap BASE).
Local Abbreviation blocks := (blocks BASE).

(** ** Taking a block *)

Definition take_block (nunits prevp p n : Z) : U Z :=
  p ← (if n =? nunits then
         q ← hptr p;
         _ ← set_hptr prevp q;
         mret p
       else
         _ ← set_hsize p (u32 (n - nunits));
         m ← hsize p;
         let p := hplus p m in
         _ ← set_hsize p nunits;
         mret p);
  _ ← set_freep prevp;
  mret (hplus p 1).

Lemma gaps_drop F1 x F2 : gaps (F1 ++ x :: F2) → Forall pos (F1 ++ x :: F2) → gaps (F1 ++ F2).
Proof.
  intros [H1 H2]%gaps_app [_ [Hx Hpos]%Forall_cons]%Forall_app. destruct F2 as [|y F2].
  - rewrite app_nil_r. destruct F1 as [|z F1 _] using rev_ind; [done|]. rewrite <- app_assoc in H1. by apply gaps_app in H1 as [H1 _].
  - destruct H2 as [H2 H3]. destruct F1 as [|z F1 _] using rev_ind; [done|]. rewrite <- app_assoc in *. cbn in *.
    apply gaps_app in H1 as [H1 [H4 _]]. apply gaps_app. split; [done|]. split; [|done]. unfold pos, HDR in *. lia.
Qed.

(** unlinking a block *)
Lemma take_all s F1 p n F2 A :
  arena s (F1 ++ (p, n) :: F2) A → arena (set_mem (word (node BASE F1.*1) (mem s p)) s) (F1 ++ F2) ((p, n) :: A).
Proof.
  intros [Hsp Hb Hr Hg]. assert (HL : (F1 ++ F2) ++ (p, n) :: A ≡ₚ (F1 ++ (p, n) :: F2) ++ A) by solve_Permutation.
  assert (Hhdr : is_hdr BASE ((F1 ++ (p, n) :: F2) ++ A) (node BASE F1.*1)) by (apply (hdrs_sub _ _ F1); [set_solver|apply node_elem]).
  pose proof (blocks_pos _ _ _ Hb) as [Hpos _]%Forall_app. pose proof (blocks_NoDup _ _ _ Hb) as Hnd.
  rewrite !fmap_app, <- app_assoc, app_comm_cons in Hnd. apply NoDup_app in Hnd as (Hnd1 & Hnd2 & _).
  rewrite fmap_app, fmap_cons in Hr. apply path_app in Hr as [Hr1 Hr2]. constructor.
  - by eapply space_ptr.
  - rewrite HL. by apply blocks_ptr.
  - pose proof (path_set _ _ _ _ (mem s p) Hnd1 Hr1) as Hset. rewrite fmap_app. cbn. destruct F2 as [|y F2]; cbn in *.
    + rewrite app_nil_r. by rewrite Hr2 in Hset |- *.
    + destruct Hr2 as [Hy Hr2]. apply path_app. split; [by rewrite Hy in Hset |- *|]. apply path_word; [|done].
      intros Hin. apply (Hnd2 _ (node_elem BASE F1.*1)). set_solver.
  - by apply gaps_drop in Hg.
Qed.

(** cutting the end off a block *)
Lemma take_part s F1 p n k F2 A :
  1 ≤ k → k < n → arena s (F1 ++ (p, n) :: F2) A →
  arena (set_mem (word (p + HDR * (n - k) + 4) k) (set_mem (word (p + 4) (n - k)) s)) (F1 ++ (p, n - k) :: F2) ((p + HDR * (n - k), k) :: A).
Proof.
  intros Hk Hkn [Hsp Hb Hr Hg]. assert (HL : (F1 ++ (p, n) :: F2) ++ A ≡ₚ (p, n) :: F1 ++ F2 ++ A) by solve_Permutation.
  assert (HL' : (F1 ++ (p, n - k) :: F2) ++ (p + HDR * (n - k), k) :: A ≡ₚ (p, n - k) :: (p + HDR * (n - k), k) :: F1 ++ F2 ++ A) by solve_Permutation.
  rewrite HL in Hb. pose proof (blocks_split _ _ _ _ _ _ Hk Hkn Hb) as Hb'. set (s' := set_mem _ (set_mem _ s)) in *.
  assert (Hok : block_ok BASE s' (p + HDR * (n - k), k)) by (destruct Hb' as [Hok _]; rewrite Forall_forall in Hok; apply Hok; set_solver).
  assert (Hout : ∀ x, x ∈ BASE :: (F1 ++ (p, n - k) :: F2).*1 → mem s' x = mem s x).
  { intros x Hx. assert (Hx' : is_hdr BASE ((p, n - k) :: (p + HDR * (n - k), k) :: F1 ++ F2 ++ A) x) by (unfold is_hdr; set_solver).
    cbn. rewrite !word_ne; [done| |]; intros ->.
    - eapply (hdr_words _ _ _ p _ Hb'); [right; left|exact Hx'|done].
    - eapply (hdr_words _ _ _ (p + HDR * (n - k)) _ Hb'); [right; right; left|exact Hx'|done]. }
  constructor.
  - apply space_word; [|destruct Hok as (_ & Hok & _); cbn in Hok; unfold HDR in *; lia].
    apply (space_size _ _ _ (p, n) _ Hsp Hb). apply list_elem_of_here.
  - by rewrite HL'.
  - apply (path_ext (mem s)); [exact Hout|]. rewrite fmap_app in *. exact Hr.
  - apply gaps_app in Hg as [Hg1 Hg2]. apply gaps_app. split; [by eapply gaps_last|].
    destruct F2 as [|y F2]; [done|]. destruct Hg2 as [Hg2 Hg3]. split; [|done]. cbn in *. unfold HDR in *. lia.
Qed.

(** a block of [nunits] headers has been handed out *)
Definition taken (nunits : Z) (len : nat) (A : list block) (s : um) (r : Z) (s' : um) : Prop :=
  brk s ≤ brk s' ∧ lim s' = lim s ∧ kept A s s' ∧
  ∃ F p, r = p + HDR ∧ heap s' F ((p, nunits) :: A) ∧ (length F ≤ len)%nat.

Lemma heap_freep s F A p : arena s F A → p ∈ BASE :: F.*1 → heap {| mem := mem s; freep := p; brk := brk s; lim := lim s |} F A.
Proof. intros [] Hp. by split. Qed.

Lemma take_block_runs s F1 p n F2 A nunits :
  arena s (F1 ++ (p, n) :: F2) A → 1 ≤ nunits ≤ n →
  runs (take_block nunits (node BASE F1.*1) p n) s (taken nunits (length (F1 ++ (p, n) :: F2)) A s).
Proof.
  intros Har Hk. pose proof Har as [(Hs1 & Hs2 & Hs3 & _) Hb _ _]. pose proof Hb as [Hok _]. rewrite Forall_forall in Hok.
  destruct (Hok (p, n)) as (Hn & Hp & Hn1 & Hbrk); [set_solver|]. cbn [fst snd] in Hn, Hp, Hn1, Hbrk.
  assert (Hu : ∀ z, 0 ≤ z ≤ n → hplus p z = p + HDR * z) by (intros z Hz; unfold hplus, HDR in *; rewrite u32_id; [done|unfold is_u32; lia]).
  assert (Hnode : ∀ F, node BASE F1.*1 ∈ BASE :: (F1 ++ F).*1).
  { intros F. rewrite fmap_app, app_comm_cons. apply elem_of_app. left. apply node_elem. }
  unfold take_block. destruct (Z.eqb_spec n nunits) as [<-|Hne].
  - apply runs_bind. unfold hptr, set_hptr, set_freep. do 2 rprim. apply runs_ret. rprim. apply runs_ret. unfold taken. cbn [brk lim set_mem]. split_and!; [lia|done| |].
    + eapply (kept_hdr BASE s); [exact Hb|set_solver| |by left]. apply (hdrs_sub _ _ F1); [set_solver|apply node_elem].
    + exists (F1 ++ F2), p. split_and!; [rewrite Hu by lia; unfold HDR; lia| |rewrite !length_app; cbn; lia].
      apply (heap_freep (set_mem (word (node BASE F1.*1) (mem s p)) s)); [by apply take_all|apply Hnode].
  - apply runs_bind. unfold hsize, set_hsize, set_freep. do 3 rprim. cbn zeta. cbn [mem set_mem]. rewrite word_eq, u32_id by (unfold is_u32, HDR in *; lia).
    rewrite Hu by lia. apply runs_ret. rprim. apply runs_ret. unfold taken. cbn [brk lim set_mem]. split_and!; [lia|done| |].
    + intros x k Hx Hxk. destruct Hb as [_ Hd]. destruct (Hok x) as (_ & Hx1 & Hx2 & _); [set_solver|]. cbn.
      assert (Hdx : disj (p, n) x).
      { assert (HL : (F1 ++ (p, n) :: F2) ++ A ≡ₚ (p, n) :: F1 ++ F2 ++ A) by solve_Permutation. rewrite HL in Hd. destruct Hd as [Hd _].
        rewrite Forall_forall in Hd. apply Hd. set_solver. }
      unfold disj, owned, HDR in *. cbn in *. rewrite !word_ne; [done|lia..].
    + exists (F1 ++ (p, n - nunits) :: F2), (p + HDR * (n - nunits)). split_and!; [| |rewrite !length_app; cbn; lia].
      * unfold hplus. rewrite u32_id; unfold is_u32, HDR in *; lia.
      * eapply (heap_freep (set_mem _ (set_mem _ s))); [by apply take_part; [lia..|]|apply Hnode].
Qed.

(** ** Looking for a block *)

(** the headers on [l] are too small and are not [freep] *)
Lemma scan s prevp l b fuel fuel0 nunits :
  path (mem s) prevp l b → Forall (λ x, mem s (x + 4) < nunits ∧ x ≠ freep s) l →
  malloc_loop (length l + fuel) fuel0 nunits prevp (mem s prevp) s = malloc_loop fuel fuel0 nunits (node prevp l) (mem s (node prevp l)) s.
Proof.
  revert prevp. induction l as [|x l IH]; intros prevp; [done|]. intros [Hx Hp] [[Hs Hf] Hl]%Forall_cons. rewrite node_cons, <- (IH x) by done.
  cbn [length Nat.add malloc_loop]. unfold hsize, hptr. rewrite Hx. mrun. rewrite (proj2 (Z.leb_gt _ _)) by lia. mrun.
  rewrite (proj2 (Z.eqb_neq _ _)) by done. by mrun.
Qed.

(** the whole ring, from the node after [freep] to [freep] *)
Lemma ring_tour s F A :
  heap s F A → ∃ R, path (mem s) (freep s) R (freep s) ∧ freep s :: R ≡ₚ BASE :: F.*1 ∧ NoDup (freep s :: R) ∧ length R = length F.
Proof.
  intros [[Hsp Hb Hr _] (X & Y & HX)%list_elem_of_split]. exists (Y ++ X).
  assert (Hperm : freep s :: Y ++ X ≡ₚ BASE :: F.*1) by (rewrite HX; solve_Permutation).
  split_and!; [by eapply path_rotate|done| |].
  - rewrite Hperm. pose proof (blocks_NoDup _ _ _ Hb) as Hnd. rewrite fmap_app, app_comm_cons in Hnd. by apply NoDup_app in Hnd as (Hnd & _).
  - apply Permutation_length in Hperm. cbn in Hperm. rewrite length_fmap in Hperm. lia.
Qed.

Lemma ring_size s F A x : heap s F A → x ∈ BASE :: F.*1 → (x = BASE ∧ mem s (x + 4) = 0) ∨ (x, mem s (x + 4)) ∈ F.
Proof.
  intros [[(_ & _ & _ & Hz) [Hok _] _ _] _] [->|(y & -> & Hy)%list_elem_of_fmap]%elem_of_cons; [by left|right].
  rewrite Forall_forall in Hok. destruct (Hok y) as (-> & _); [set_solver|]. by destruct y.
Qed.

(** if a block is large enough, one is taken *)
Lemma find_fit s F A nunits fuel fuel0 :
  heap s F A → 1 ≤ nunits → (∃ x, x ∈ F ∧ nunits ≤ x.2) → (S (length F) ≤ fuel)%nat →
  runs (malloc_loop fuel fuel0 nunits (freep s) (mem s (freep s))) s (taken nunits (length F) A s).
Proof.
  intros Hh Hk (x & Hx & Hxk) Hfuel. pose proof Hh as [Har _]. destruct (ring_tour _ _ _ Hh) as (R & Hp & Hperm & Hnd & Hlen).
  pose proof Har as [_ [Hok _] Hr _]. rewrite Forall_forall in Hok.
  assert (Htour : path (mem s) (freep s) (R ++ [freep s]) (mem s (freep s))) by by apply path_app.
  assert (HV : R ++ [freep s] ≡ₚ BASE :: F.*1) by (rewrite <- Hperm; solve_Permutation).
  destruct (first_split (λ v, nunits ≤ mem s (v + 4)) (R ++ [freep s])) as [Hnone|(V1 & p & V2 & HR & Hsmall & Hbig)].
  { exfalso. rewrite Forall_forall in Hnone. apply (Hnone x.1); [rewrite HV; set_solver|]. destruct (Hok x) as (-> & _); [set_solver|done]. }
  assert (HpF : p ∈ BASE :: F.*1) by (rewrite <- HV, HR; set_solver).
  destruct (ring_size _ _ _ _ Hh HpF) as [[_ Hz]|(F1 & F2 & HF)%list_elem_of_split]; [lia|].
  rewrite HR in Htour. apply path_app in Htour as [Hp1 _].
  assert (Hfp : freep s ∉ V1).
  { assert (Hnd' : NoDup (R ++ [freep s])) by (by rewrite <- Permutation_cons_append).
    rewrite HR in Hnd'. intros Hin. apply NoDup_app in Hnd' as (_ & Hd & _). apply (Hd _ Hin).
    assert (Hl : last (R ++ [freep s]) = Some (freep s)) by by rewrite last_snoc. rewrite HR, last_app_cons in Hl. by apply last_Some_elem_of. }
  assert (Hprev : node (freep s) V1 = node BASE F1.*1).
  { pose proof Hr as Hr'. rewrite HF, fmap_app in Hr'. apply path_app in Hr' as [Hr' _]. apply (path_inj _ _ _ _ _ _ Hr).
    - rewrite <- Permutation_cons_append, <- Hperm. done.
    - rewrite <- Hperm. destruct (elem_of_cons V1 (node (freep s) V1) (freep s)) as [[->|Hin] _]; [apply node_elem|left|].
      rewrite Permutation_cons_append, HR. set_solver.
    - rewrite HF, fmap_app, app_comm_cons. apply elem_of_app. left. apply node_elem.
    - by rewrite (path_node _ _ _ _ Hp1), (path_node _ _ _ _ Hr'). }
  assert (Hl1 : (length V1 ≤ length F)%nat).
  { assert (length (R ++ [freep s]) = length (V1 ++ p :: V2)) as Hl by by rewrite HR. rewrite !length_app in Hl. cbn in Hl. lia. }
  replace fuel with (length V1 + S (fuel - S (length V1)))%nat by lia. unfold runs.
  rewrite (scan s _ V1 p); [|done|]. 2:{ rewrite Forall_forall in *. intros v Hv. specialize (Hsmall v Hv). split; [lia|]. by intros ->. }
  rewrite (path_node _ _ _ _ Hp1), Hprev. rewrite HF. cbn [malloc_loop]. unfold hsize at 1. mrun.
  rewrite (proj2 (Z.leb_le _ _)) by done. apply take_block_runs; [by rewrite <- HF|lia].
Qed.

(** if none is, the search ends with [morecore] *)
Lemma find_none s F A nunits fuel fuel0 :
  heap s F A → 1 ≤ nunits → Forall (λ x, x.2 < nunits) F →
  malloc_loop (length F + S fuel) fuel0 nunits (freep s) (mem s (freep s)) s =
  (p ← morecore fuel0 nunits; if p =? 0 then mret 0 else q ← hptr p; malloc_loop fuel fuel0 nunits p q) s.
Proof.
  intros Hh Hk Hsmall. destruct (ring_tour _ _ _ Hh) as (R & Hp & Hperm & Hnd & <-). apply NoDup_cons in Hnd as [Hnf _].
  assert (Hlt : ∀ v, v ∈ freep s :: R → mem s (v + 4) < nunits).
  { intros v Hv. rewrite Hperm in Hv. destruct (ring_size _ _ _ _ Hh Hv) as [[_ ->]|Hin]; [lia|]. rewrite Forall_forall in Hsmall. apply (Hsmall _ Hin). }
  rewrite (scan s _ R (freep s)); [|done|]. 2:{ apply Forall_forall. intros v Hv. split; [apply Hlt; by right|]. by intros ->. }
  rewrite (path_node _ _ _ _ Hp). cbn [malloc_loop]. unfold hsize at 1. mrun. rewrite (proj2 (Z.leb_gt _ _)) by (apply Hlt; left). mrun.
  by rewrite Z.eqb_refl.
Qed.

(** ** More memory *)

Definition grown (s : um) (nu : Z) : um := {| mem := word (brk s + 4) nu (mem s); freep := freep s; brk := brk s + HDR * nu; lim := lim s |}.

(** the new memory is a block *)
Lemma grown_heap s F A nu : heap s F A → 1 ≤ nu → brk s + HDR * nu ≤ lim s → heap (grown s nu) F ((brk s, nu) :: A) ∧ kept A s (grown s nu).
Proof.
  intros [[(Hs1 & Hs2 & Hs3 & Hz) [Hok Hd] Hr Hg] Hf] Hnu Hlim. assert (HL : F ++ (brk s, nu) :: A ≡ₚ (brk s, nu) :: F ++ A) by solve_Permutation.
  rewrite Forall_forall in Hok. assert (Hw : ∀ k, k < brk s → mem (grown s nu) k = mem s k) by (intros k Hk; apply word_ne; lia).
  unfold HDR in *. split; [split; [|exact Hf]; constructor|].
  - split_and!; cbn [brk lim grown] in *; try done; [unfold HDR; lia..|]. rewrite Hw by lia. done.
  - rewrite HL. split; [constructor|].
    + unfold block_ok. cbn [fst snd mem grown brk]. rewrite word_eq. unfold HDR. split_and!; lia.
    + rewrite Forall_forall. intros x Hx. destruct (Hok x Hx) as (H1 & H2 & H3 & H4). unfold block_ok, HDR in *. rewrite Hw by lia. cbn [brk grown]. split_and!; try done. unfold HDR. lia.
    + split; [|done]. rewrite Forall_forall. intros x Hx. destruct (Hok x Hx) as (_ & _ & _ & H4). by right.
  - eapply path_ext; [|exact Hr]. intros x Hx. apply Hw. apply elem_of_cons in Hx as [->|(y & -> & Hy)%list_elem_of_fmap]; [lia|].
    destruct (Hok y) as (_ & H2 & H3 & H4); [set_solver|]. unfold HDR in *. lia.
  - done.
  - intros x k Hx Hk. apply Hw. destruct (Hok x) as (_ & _ & _ & H4); [set_solver|]. unfold owned, HDR in *. lia.
Qed.

Lemma sbrk_runs s n : 0 < n < 2 ^ 31 → 0 ≤ brk s ≤ lim s → lim s < 2 ^ 31 →
  sbrk n s = if lim s <? brk s + n then Ret (-1) s else Ret (brk s) {| mem := mem s; freep := freep s; brk := brk s + n; lim := lim s |}.
Proof.
  intros Hn Hb Hl. unfold sbrk. mrun. replace (i32 n) with n by (rewrite i32_id; [done|lia]).
  rewrite u32_id by (unfold is_u32; lia). rewrite (proj2 (Z.ltb_lt 0 n)) by lia. destruct (lim s <? brk s + n) eqn:E; [done|].
  rewrite (proj2 (Z.ltb_ge _ _)) by lia. done.
Qed.

Lemma morecore_runs s F A nu fuel :
  heap s F A → 1 ≤ nu → HDR * nu < 2 ^ 31 → (length F + 2 ≤ fuel)%nat →
  let need := HDR * Z.max 4096 nu in
  runs (morecore fuel nu) s (λ r s',
    (lim s < brk s + need ∧ r = 0 ∧ s' = s) ∨
    (r = freep s' ∧ r ≠ 0 ∧ brk s' = brk s + need ∧ lim s' = lim s ∧ kept A s s' ∧
     ∃ F', heap s' F' A ∧ (∃ x, x ∈ F' ∧ nu ≤ x.2) ∧ (length F' ≤ S (length F))%nat)).
Proof.
  intros Hh Hnu Hov Hfuel need. pose proof Hh as [[(Hs1 & Hs2 & Hs3 & _) _ _ _] _]. unfold morecore.
  replace (if nu <? 4096 then 4096 else nu) with (Z.max 4096 nu) by (destruct (Z.ltb_spec nu 4096); lia). set (nu' := Z.max 4096 nu) in *.
  replace (u32 (nu' * HDR)) with need by (unfold need, HDR in *; rewrite u32_id; unfold is_u32; lia).
  apply runs_bind. unfold runs at 1. rewrite sbrk_runs by (unfold need, HDR in *; lia). destruct (Z.ltb_spec (lim s) (brk s + need)) as [Hlt|Hge].
  { eexists _, _. split; [done|]. cbn. apply runs_ret. by left. }
  eexists _, _. split; [done|]. rewrite (proj2 (Z.eqb_neq _ _)) by (unfold HDR in *; lia). unfold set_hsize. rprim.
  change (runs (_ ← free fuel (hplus (brk s) 1); gets freep) (grown s nu') (λ r s', (lim s < brk s + need ∧ r = 0 ∧ s' = s) ∨ (r = freep s' ∧ r ≠ 0 ∧ brk s' = brk s + need ∧ lim s' = lim s ∧ kept A s s' ∧
     ∃ F', heap s' F' A ∧ (∃ x, x ∈ F' ∧ nu ≤ x.2) ∧ (length F' ≤ S (length F))%nat))).
  destruct (grown_heap s F A nu' Hh) as [Hg Hk]; [lia|done|].
  replace (hplus (brk s) 1) with (brk s + HDR) by (unfold hplus, need, HDR in *; rewrite u32_id; unfold is_u32; lia).
  eapply runs_bind_mono; [by apply (free_runs _ _ _ _ _ _ _ Hg)|]. intros [] s' (Hb & Hl & Hk' & F' & Hh' & (x & Hx & Hxn) & Hlen).
  apply runs_gets. right. split_and!; [done| |done|done|by eapply kept_trans|].
  - destruct Hh' as [[_ [Hok _] _ _] [->|(y & -> & Hy)%list_elem_of_fmap]%elem_of_cons]; [lia|]. rewrite Forall_forall in Hok.
    destruct (Hok y) as (_ & H & _); [set_solver|]. unfold HDR in *. lia.
  - exists F'. split_and!; [done|exists x; split; [done|lia]|done].
Qed.

(** ** malloc *)

(** before the first call, or with the ring set up *)
Definition ready (s : um) (F A : list block) : Prop :=
  heap s F A ∨ (freep s = 0 ∧ F = [] ∧ A = [] ∧ 0 < BASE ∧ BASE + HDR ≤ brk s ≤ lim s ∧ lim s < 2 ^ 31).

Definition refused (nunits : Z) (F A : list block) (s : um) (r : Z) (s' : um) : Prop :=
  r = 0 ∧ heap s' F A ∧ brk s' = brk s ∧ lim s' = lim s ∧ kept A s s' ∧
  Forall (λ x, x.2 < nunits) F ∧ lim s < brk s + HDR * Z.max 4096 nunits.

Lemma malloc_loop_runs s F A nunits fuel :
  heap s F A → 1 ≤ nunits → HDR * nunits < 2 ^ 31 → (2 * length F + 4 ≤ fuel)%nat →
  runs (malloc_loop fuel fuel nunits (freep s) (mem s (freep s))) s (λ r s', refused nunits F A s r s' ∨ taken nunits (S (length F)) A s r s').
Proof.
  intros Hh Hnu Hov Hfuel. destruct (first_split (λ x : block, nunits ≤ x.2) F) as [Hnone|(F1 & x & F2 & HF & _ & Hx)].
  - assert (Hsmall : Forall (λ x : block, x.2 < nunits) F) by (eapply Forall_impl; [exact Hnone|]; cbn; lia). set (fuel0 := fuel) at 2.
    replace fuel with (length F + S (fuel - S (length F)))%nat by lia. unfold runs. rewrite (find_none _ _ _ _ _ _ Hh) by done.
    apply (runs_bind_mono (morecore fuel0 nunits) _ _ _ _ (morecore_runs s F A nunits fuel0 Hh Hnu Hov ltac:(subst fuel0; lia))).
    intros r s' [(Hlim & -> & ->)|(-> & Hr & Hb & Hl & Hk & F' & Hh' & Hfit & Hlen)].
    + apply runs_ret. left. by split_and!.
    + rewrite (proj2 (Z.eqb_neq _ _)) by done. unfold hptr. rprim. eapply runs_mono; [apply (find_fit _ _ _ _ _ _ Hh'); [done|done|lia]|].
      intros r s2 (Hb2 & Hl2 & Hk2 & F2 & p & -> & Hh2 & Hlen2). right. split_and!; [unfold HDR in *; lia|congruence|by eapply kept_trans|].
      exists F2, p. split_and!; [done|done|lia].
  - eapply runs_mono; [apply (find_fit _ F A); [done|done|exists x; subst F; split; [set_solver|done]|lia]|].
    intros r s' (Hb & Hl & Hk & F' & p & -> & Hh' & Hlen). right. split_and!; [done..|]. exists F', p. split_and!; [done|done|lia].
Qed.

Lemma malloc_runs s F A nbytes fuel :
  ready s F A → 1 ≤ nunits_of nbytes → HDR * nunits_of nbytes < 2 ^ 31 → (2 * length F + 4 ≤ fuel)%nat →
  runs (malloc BASE fuel nbytes) s (λ r s', refused (nunits_of nbytes) F A s r s' ∨ taken (nunits_of nbytes) (S (length F)) A s r s').
Proof.
  intros Hready Hnu1 Hnu2 Hfuel. unfold malloc. rprim. destruct Hready as [Hh|(Hf & -> & -> & Hb & Hbrk & Hlim)].
  - pose proof Hh as [[(Hs1 & _) [Hok _] _ _] Hf]. rewrite (proj2 (Z.eqb_neq _ _)).
    2:{ apply elem_of_cons in Hf as [->|(y & -> & Hy)%list_elem_of_fmap]; [lia|]. rewrite Forall_forall in Hok.
        destruct (Hok y) as (_ & H & _); [set_solver|]. unfold HDR in *. lia. }
    unfold hptr. do 2 rprim. by apply malloc_loop_runs.
  - rewrite Hf. cbn [Z.eqb]. apply runs_bind. unfold set_hptr, set_freep, set_hsize. do 3 rprim. apply runs_ret. unfold hptr. rprim.
    set (s1 := set_mem _ _). assert (Hh : heap s1 [] []).
    { split; [|left]. constructor; [|by split|cbn; rewrite word_ne by lia; apply word_eq|done]. split_and!; try done; try apply Hbrk. apply word_eq. }
    eapply runs_mono; [by apply (malloc_loop_runs s1 [] [])|]. intros r s' [H|(H1 & H2 & _ & H3)]; [left|right].
    + destruct H as (-> & H1 & H2 & H3 & _ & H4 & H5). split_and!; try done. intros x k Hx. by apply not_elem_of_nil in Hx.
    + split_and!; try done. intros x k Hx. by apply not_elem_of_nil in Hx.
Qed.
End malloc.

(** the headers asked for hold the bytes, unless their number overflows *)
Lemma nunits_bound nbytes : 0 ≤ nbytes < 2 ^ 31 - 15 →
  1 ≤ nunits_of nbytes ∧ HDR * nunits_of nbytes < 2 ^ 31 ∧ nbytes ≤ HDR * (nunits_of nbytes - 1).
Proof.
  intros Hn. unfold nunits_of, HDR. rewrite (u32_id (nbytes + (8 - 1))) by (unfold is_u32; lia).
  assert (0 ≤ (nbytes + (8 - 1)) / 8 ∧ nbytes ≤ 8 * ((nbytes + (8 - 1)) / 8) ≤ nbytes + 7) as [H0 H1] by zdm.
  rewrite u32_id by (unfold is_u32; lia). lia.
Qed.

Lemma nunits_overflow nbytes : 2 ^ 32 - 7 ≤ nbytes < 2 ^ 32 → nunits_of nbytes = 1.
Proof.
  intros Hn. unfold nunits_of, HDR. replace (u32 (nbytes + (8 - 1))) with (nbytes - (2 ^ 32 - 7)).
  - rewrite Z.div_small by lia. done.
  - unfold u32. rewrite <- (Z.mod_small (nbytes - (2 ^ 32 - 7)) (2 ^ 32)) at 1 by lia. rewrite <- (Z.mod_add _ 1) by lia. f_equal. lia.
Qed.
