(* ===== verification/UmallocClient.v ===== *)
(** * A program that uses malloc and free

    What a program sees of the allocator: blocks of the size it asked for, apart from each
    other, whose words change only when the program stores to them.  Any program that
    keeps to its blocks runs on the allocator of umalloc.c as it does on this view. *)

From S2P Require Import Prelude Umalloc UmallocSpec UmallocAlloc.

(** ** The view of the program *)

Inductive op :=
  | Malloc (nbytes : Z)
  | Free (p : Z)
  | Store (p i v : Z)
  | Load (p i : Z).

(** the blocks with their sizes in bytes, and the words in them *)
Record client := { live : list (Z * Z); val : Z → Z }.

Definition apart (x y : Z * Z) : Prop := x.1 ≠ y.1 ∧ (x.1 + x.2 ≤ y.1 ∨ y.1 + y.2 ≤ x.1).

Definition inside (x : Z * Z) (k : Z) : Prop := x.1 ≤ k < x.1 + x.2.

Inductive cstep : op → Z → client → client → Prop :=
  | c_malloc nbytes p v c :
      p ≠ 0 → Forall (apart (p, nbytes)) (live c) → (∀ x k, x ∈ live c → inside x k → v k = val c k) →
      cstep (Malloc nbytes) p c {| live := (p, nbytes) :: live c; val := v |}
  | c_null nbytes c : cstep (Malloc nbytes) 0 c c
  | c_free p nbytes l1 l2 c :
      live c = l1 ++ (p, nbytes) :: l2 → cstep (Free p) 0 c {| live := l1 ++ l2; val := val c |}
  | c_store p i v c : cstep (Store p i v) 0 c {| live := live c; val := word (p + i) v (val c) |}
  | c_load p i c : cstep (Load p i) (val c (p + i)) c c.

(** the program frees its blocks, and uses the words in them *)
Definition word_of (c : client) (p i : Z) : Prop := ∃ n, (p, n) ∈ live c ∧ 0 ≤ i ∧ i + 4 ≤ n ∧ i mod 4 = 0.

Definition legal (o : op) (c : client) : Prop :=
  match o with
  | Malloc nbytes => 0 ≤ nbytes < 2 ^ 31 - 15
  | Free p => p ∈ (live c).*1
  | Store p i _ | Load p i => word_of c p i
  end.

(** a program: what it does next depends on the results so far *)
Inductive prog :=
  | Done (x : Z)
  | Step (o : op) (k : Z → prog).

(** it makes at most [n] steps, all of them legal whatever the allocator answers *)
Fixpoint safe (n : nat) (pr : prog) (c : client) : Prop :=
  match pr, n with
  | Done _, _ => True
  | Step _ _, O => False
  | Step o k, S n => legal o c ∧ ∀ r c', cstep o r c c' → safe n (k r) c'
  end.

Inductive cruns : prog → Z → client → client → Prop :=
  | r_done x c : cruns (Done x) x c c
  | r_step o k r x c c1 c2 : cstep o r c c1 → cruns (k r) x c1 c2 → cruns (Step o k) x c c2.

(** ** The program on the allocator *)

Section client.
  Context (BASE : Z).

Definition do_op (fuel : nat) (o : op) : U Z :=
  match o with
  | Malloc nbytes => malloc BASE fuel nbytes
  | Free p => _ ← free fuel p; mret 0
  | Store p i v => _ ← modify (set_mem (word (p + i) v)); mret 0
  | Load p i => gets (λ s, mem s (p + i))
  end.

Fixpoint do_prog (fuel : nat) (pr : prog) : U Z :=
  match pr with
  | Done x => mret x
  | Step o k => r ← do_op fuel o; do_prog fuel (k r)
  end.

(** a block of the allocator holds the block of the program *)
Definition holds (x : Z * Z) (b : block) : Prop := x.1 = b.1 + HDR ∧ 0 ≤ x.2 ≤ HDR * (b.2 - 1).

Record view (len : nat) (s : um) (c : client) (F A : list block) : Prop := {
  vw_ready : ready BASE s F A;
  vw_len : (length F ≤ len)%nat;
  vw_live : Forall2 holds (live c) A;
  vw_val x k : x ∈ live c → inside x k → mem s k = val c k
}.

Lemma holds_inside x b k : holds x b → inside x k → owned b k.
Proof. unfold holds, inside, owned. destruct b. unfold HDR. cbn. lia. Qed.

Lemma view_kept c s s' A : Forall2 holds (live c) A → kept A s s' → ∀ x k, x ∈ live c → inside x k → mem s' k = mem s k.
Proof.
  intros Hl Hk x k (i & Hi)%list_elem_of_lookup Hin. destruct (Forall2_lookup_l _ _ _ _ _ Hl Hi) as (b & Hb & Hxb).
  apply (Hk b k); [by eapply list_elem_of_lookup_2|by eapply holds_inside].
Qed.

Lemma ready_blocks s F A : ready BASE s F A → blocks BASE s (F ++ A).
Proof. intros [[[] _]|(_ & -> & -> & _)]; [done|by split]. Qed.

(** blocks of the allocator are apart for the program *)
Lemma holds_apart x y a b : disj a b → 1 ≤ a.2 → 1 ≤ b.2 → holds x a → holds y b → apart x y.
Proof. unfold disj, holds, apart, HDR. lia. Qed.

(** a word of a block can be changed *)
Lemma heap_store s F A b k v : heap BASE s F A → b ∈ A → owned b k → heap BASE (set_mem (word k v) s) F A.
Proof.
  intros [[Hsp [Hok Hd] Hr Hg] Hf] Hb Hk. rewrite Forall_forall in Hok. destruct (Hok b) as (_ & Hb1 & Hb2 & _); [set_solver|].
  assert (Hne : ∀ x, x ∈ F ++ A → k ≠ x.1 ∧ k ≠ x.1 + 4).
  { intros x Hx. destruct (Hok x Hx) as (_ & _ & Hx1 & _).
    destruct (disjs_pair _ x b Hd Hx) as [->|[H|H]]; [set_solver|unfold owned, HDR in *; lia..]. }
  split; [|done]. constructor; [apply space_word; [done|unfold owned, HDR in *; lia]| | |done].
  - split; [|done]. rewrite Forall_forall. intros x Hx. destruct (Hok x Hx) as (H1 & H2). split; [|done]. cbn. rewrite word_ne; [done|].
    apply not_eq_sym. by apply (Hne x Hx).
  - apply path_word; [|done]. intros [He|(y & He & Hy)%list_elem_of_fmap]%elem_of_cons; [unfold owned, HDR in *; lia|].
    by destruct (Hne y) as [H _]; [set_solver|].
Qed.

Lemma heap_perm s F A A' : A ≡ₚ A' → heap BASE s F A → heap BASE s F A'.
Proof. intros Hp [[Hsp Hb Hr Hg] Hf]. split; [|done]. constructor; try done. by rewrite <- Hp. Qed.

Lemma ready_heap s F A b : ready BASE s F A → b ∈ A → heap BASE s F A.
Proof. intros [H|(_ & _ & -> & _)] Hb; [done|by apply not_elem_of_nil in Hb]. Qed.

Lemma view_lookup len s c F A x : view len s c F A → x ∈ live c → ∃ b, b ∈ A ∧ holds x b ∧ heap BASE s F A.
Proof.
  intros [Hr _ Hl _] (i & Hi)%list_elem_of_lookup. destruct (Forall2_lookup_l _ _ _ _ _ Hl Hi) as (b & Hb & Hxb).
  apply list_elem_of_lookup_2 in Hb. exists b. split_and!; [done|done|by eapply ready_heap].
Qed.

Lemma malloc_refines len s c F A nbytes fuel :
  view len s c F A → legal (Malloc nbytes) c → (2 * len + 4 ≤ fuel)%nat →
  runs (malloc BASE fuel nbytes) s (λ r s', ∃ c' F' A', cstep (Malloc nbytes) r c c' ∧ view (S len) s' c' F' A').
Proof.
  intros [Hr Hlen Hl Hv] Hn Hfuel. destruct (nunits_bound nbytes Hn) as (Hnu1 & Hnu2 & Hnu3).
  eapply runs_mono; [apply (malloc_runs BASE s F A); [done..|lia]|]. intros r s' [(-> & Hh & _ & _ & Hk & _)|(_ & _ & Hk & F' & p & -> & Hh & Hlen')].
  - exists c, F, A. split; [constructor|]. constructor; [by left|lia|done|]. intros x k Hx Hin. rewrite (view_kept _ _ _ _ Hl Hk x k Hx Hin). by apply (Hv x).
  - pose proof Hh as [[(Hs1 & _) [Hok Hd] _ _] _].
    assert (HL : F' ++ (p, nunits_of nbytes) :: A ≡ₚ (p, nunits_of nbytes) :: F' ++ A) by solve_Permutation.
    rewrite HL in Hok, Hd. destruct Hd as [Hd _]. apply Forall_cons in Hok as [(_ & Hp & _) Hok]. cbn in Hp.
    assert (Hnew : holds (p + HDR, nbytes) (p, nunits_of nbytes)) by (split; cbn [fst snd legal] in *; lia).
    exists {| live := (p + HDR, nbytes) :: live c; val := mem s' |}, F', ((p, nunits_of nbytes) :: A). split; [constructor|constructor].
    + unfold HDR in *. lia.
    + rewrite Forall_forall in *. intros x (i & Hi)%list_elem_of_lookup. destruct (Forall2_lookup_l _ _ _ _ _ Hl Hi) as (b & Hb & Hxb).
      assert (HbA : b ∈ F' ++ A) by (apply elem_of_app; right; by eapply list_elem_of_lookup_2). destruct (Hok b HbA) as (_ & _ & Hb1 & _).
      apply (holds_apart _ _ (p, nunits_of nbytes) b); try done. by apply Hd.
    + intros x k Hx Hin. rewrite (view_kept _ _ _ _ Hl Hk x k Hx Hin). by apply (Hv x).
    + by left.
    + lia.
    + by constructor.
    + done.
Qed.

Lemma free_refines len s c F A p fuel :
  view len s c F A → legal (Free p) c → (2 * len + 4 ≤ fuel)%nat →
  runs (do_op fuel (Free p)) s (λ r s', ∃ c' F' A', cstep (Free p) r c c' ∧ view (S len) s' c' F' A').
Proof.
  intros [Hr Hlen Hl Hv] ([p' nb] & -> & (l1 & l2 & Hlive)%list_elem_of_split)%list_elem_of_fmap Hfuel. cbn [fst] in *.
  pose proof Hl as Hl'. rewrite Hlive in Hl'. apply Forall2_app_inv_l in Hl' as (A1 & A2' & Hl1 & Hl2 & HA).
  apply Forall2_cons_inv_l in Hl2 as ([a n] & A2 & [Hp Hnb] & Hl2 & ->). cbn [fst snd] in Hp. subst p'.
  assert (Hh : heap BASE s F ((a, n) :: A1 ++ A2)).
  { apply (heap_perm _ _ A); [rewrite HA; solve_Permutation|]. eapply ready_heap; [done|]. rewrite HA. apply elem_of_app. right. left. }
  cbn [do_op]. eapply runs_bind_mono; [apply (free_runs _ _ _ _ _ _ _ Hh); lia|]. intros [] s' (_ & _ & Hk & F' & Hh' & _ & Hlen').
  apply runs_ret. exists {| live := l1 ++ l2; val := val c |}, F', (A1 ++ A2). split; [by econstructor|].
  assert (Hl12 : Forall2 holds (l1 ++ l2) (A1 ++ A2)) by by apply Forall2_app.
  constructor; [by left|lia|done|]. intros x k Hx Hin.
  rewrite (view_kept {| live := l1 ++ l2; val := val c |} _ _ _ Hl12 Hk x k Hx Hin). apply (Hv x); [|done]. rewrite Hlive. cbn in Hx. set_solver.
Qed.

Lemma op_refines len s c F A o fuel :
  view len s c F A → legal o c → (2 * len + 4 ≤ fuel)%nat →
  runs (do_op fuel o) s (λ r s', ∃ c' F' A', cstep o r c c' ∧ view (S len) s' c' F' A').
Proof.
  intros Hview Hlegal Hfuel. destruct o as [nbytes|p|p i v|p i]; [by eapply malloc_refines|by eapply free_refines| |].
  - destruct Hlegal as (nb & Hin & Hi & Hinb & _). destruct (view_lookup _ _ _ _ _ _ Hview Hin) as (b & Hb & Hxb & Hh). destruct Hview as [Hr Hlen Hl Hv].
    cbn [do_op]. apply runs_bind, runs_modify, runs_ret. exists {| live := live c; val := word (p + i) v (val c) |}, F, A. split; [constructor|].
    constructor; [left; eapply heap_store; [done|done|eapply holds_inside; [done|]; unfold inside; cbn; lia]|lia|done|].
    intros x k Hx Hk. cbn. unfold word. destruct (k =? p + i); [done|by apply (Hv x)].
  - destruct Hlegal as (nb & Hin & Hi & Hinb & _). destruct Hview as [Hr Hlen Hl Hv]. apply runs_gets. exists c, F, A. split.
    + rewrite (Hv _ (p + i) Hin) by (unfold inside; cbn; lia). constructor.
    + constructor; [done|lia|done|done].
Qed.

Lemma prog_refines n pr len s c F A fuel :
  view len s c F A → safe n pr c → (2 * (len + n) + 4 ≤ fuel)%nat →
  runs (do_prog fuel pr) s (λ x s', ∃ c', cruns pr x c c').
Proof.
  revert pr len s c F A. induction n as [|n IH]; intros [x|o k] len s c F A Hv Hs Hf; cbn in Hs; try done.
  1,2: apply runs_ret; exists c; constructor.
  destruct Hs as [Hl Hs]. cbn [do_prog]. eapply runs_bind_mono; [by apply (op_refines _ _ _ _ _ _ _ Hv); [|lia]|].
  intros r s' (c' & F' & A' & Hc & Hv'). eapply runs_mono; [apply (IH _ (S len) s' c' F' A'); [done|by apply Hs|lia]|].
  intros x s2 (c2 & Hr). exists c2. by econstructor.
Qed.
End client.

(** ** What the allocator promises *)

(** a process that has not called [malloc] yet, with [base] in its memory *)
Definition fresh (BASE : Z) (s : um) : Prop := freep s = 0 ∧ 0 < BASE ∧ BASE + HDR ≤ brk s ≤ lim s ∧ lim s < 2 ^ 31.

(** C14: a program that frees only blocks it has, loads and stores only words of its
    blocks, and asks for less than 2^31 - 15 bytes at a time, runs on the [malloc] and
    [free] of umalloc.c as if it were given blocks of the size it asks for that are apart
    from each other and keep what is stored in them, or a null pointer (for larger requests
    the sizes overflow, [malloc_overflow]): every call returns, [free]'s walk of the ring included, and the result
    of the program is one it has on that simple memory. *)
Theorem umalloc_refines BASE s pr n fuel :
  let c := {| live := []; val := mem s |} in
  fresh BASE s → safe n pr c → (2 * n + 4 ≤ fuel)%nat →
  runs (do_prog BASE fuel pr) s (λ x _, ∃ c', cruns pr x c c').
Proof.
  intros c (Hf & Hb & Hbrk & Hlim) Hs Hfuel. apply (prog_refines BASE n pr 0 s c [] []); [|done|lia].
  constructor; [right; by destruct Hbrk; split_and!|cbn; lia|cbn; constructor|]. intros x k Hx. by apply not_elem_of_nil in Hx.
Qed.

(** [malloc] returns a null pointer only if no block on the free list is large enough
    and the kernel does not give the process the 4096 headers, or more, that it asks for;
    the heap is then as it was. *)
Theorem malloc_null BASE s F A nbytes fuel :
  heap BASE s F A → 0 ≤ nbytes < 2 ^ 31 - 15 → (2 * length F + 4 ≤ fuel)%nat →
  runs (malloc BASE fuel nbytes) s (λ r s', r = 0 →
    heap BASE s' F A ∧ kept A s s' ∧ Forall (λ x, x.2 < nunits_of nbytes) F ∧ lim s < brk s + HDR * Z.max 4096 (nunits_of nbytes)).
Proof.
  intros Hh Hn Hf. destruct (nunits_bound nbytes Hn) as (H1 & H2 & _).
  eapply runs_mono; [apply (malloc_runs BASE s F A); [by left|done..]|]. intros r s' [(_ & H3 & _ & _ & H4 & H5 & H6)|(_ & _ & _ & F' & p & -> & Hh' & _)] Hr; [done|].
  destruct Hh' as [[(Hb & _) [Hok _] _ _] _]. rewrite Forall_forall in Hok. destruct (Hok (p, nunits_of nbytes)) as (_ & Hp & _); [set_solver|].
  cbn in Hp. unfold HDR in *. lia.
Qed.

(** the number of headers that [malloc] computes overflows for the seven largest
    sizes: a program that asks for 4 GB gets a block that consists of its header, and the
    pointer it gets is the end of that block. *)
Theorem malloc_overflow BASE s F A nbytes fuel :
  heap BASE s F A → 2 ^ 32 - 7 ≤ nbytes < 2 ^ 32 → (2 * length F + 4 ≤ fuel)%nat → (∃ x, x ∈ F ∧ 1 ≤ x.2) →
  runs (malloc BASE fuel nbytes) s (λ r s', ∃ F' p, r = p + HDR * 1 ∧ heap BASE s' F' ((p, 1) :: A)).
Proof.
  intros Hh Hn Hf (x & Hx & Hx1). pose proof (nunits_overflow nbytes Hn) as Hnu.
  eapply runs_mono; [apply (malloc_runs BASE s F A); rewrite ?Hnu; [by left|unfold HDR; lia..]|]. rewrite Hnu.
  intros r s' [(_ & _ & _ & _ & _ & H & _)|(_ & _ & _ & F' & p & -> & Hh' & _)].
  - rewrite Forall_forall in H. specialize (H x Hx). cbn in H. lia.
  - exists F', p. unfold HDR. split; [lia|done].
Qed.

(** ** On a concrete heap *)

(** a free block of two headers after [base], and no more memory *)
Definition um0 : um := {| mem := λ _, 0; freep := 0; brk := 4096; lim := 65536 |}.

Definition um1 : um :=
  {| mem := λ k, if k =? 64 then 80 else if k =? 80 then 64 else if k =? 84 then 2 else 0; freep := 64; brk := 96; lim := 96 |}.

Definition one_block : prog :=
  Step (Malloc 16) (λ p, if p =? 0 then Done 0 else
  Step (Store p 4 7) (λ _,
  Step (Free p) (λ _, Done 1))).

Lemma um1_heap : heap 64 um1 [(80, 2)] [].
Proof.
  split; [|left]. constructor; [split_and!; vm_compute; congruence| |done|done].
  split; [|by split; constructor]. constructor; [|constructor]. split_and!; vm_compute; congruence.
Qed.

Lemma one_block_safe v : safe 3 one_block {| live := []; val := v |}.
Proof.
  split; [cbn; lia|]. intros r c1 Hc1. inversion Hc1; subst; [|done].
  rewrite (proj2 (Z.eqb_neq _ _)) by done. split; [exists 16; cbn; split; [left|done]|].
  intros r2 c2 Hc2. inversion Hc2; subst. split; [cbn; left|]. intros r3 c3 _. done.
Qed.

Lemma umalloc_refines_witness :
  runs (do_prog 64 10 one_block) um0 (λ x _, ∃ c', cruns one_block x {| live := []; val := mem um0 |} c').
Proof.
  apply (umalloc_refines 64 um0 one_block 3 10); [split_and!; cbn; unfold HDR; lia|apply one_block_safe|lia].
Defined.

Lemma malloc_null_witness :
  runs (malloc 64 6 9) um1 (λ r s', r = 0 →
    heap 64 s' [(80, 2)] [] ∧ kept [] um1 s' ∧ Forall (λ x, x.2 < nunits_of 9) [(80, 2)] ∧ 96 < 96 + HDR * Z.max 4096 (nunits_of 9)).
Proof. apply (malloc_null 64 um1 [(80, 2)] [] 9 6); [exact um1_heap|lia|cbn; lia]. Defined.

Lemma malloc_overflow_witness :
  runs (malloc 64 6 (2 ^ 32 - 1)) um1 (λ r s', ∃ F' p, r = p + HDR * 1 ∧ heap 64 s' F' [(p, 1)]).
Proof. apply (malloc_overflow 64 um1 [(80, 2)] [] (2 ^ 32 - 1) 6); [exact um1_heap|lia|cbn; lia|exists (80, 2); split; [left|cbn; lia]]. Defined.
