(* ===== verification/Sh.v ===== *)
(** * sh.c: the parser of the shell

    The line is the list of bytes before its terminator.  The cursor [*ps] is the
    list of bytes from it to the end of the line, and a pointer into the line is
    its offset; the calls return the new cursor ([M (list Z)]) and [panic] of sh.c
    is [Panic].  A command that is being built keeps its redirections in a list,
    to be wrapped around it in order, since sh.c goes on adding arguments to the
    innermost command.  [nulterminate] writes into the line. *)

From S2P Require Import Prelude.

Definition MAXARGS : Z := 10.
Definition O_RDONLY : Z := 0x000.
Definition O_WRONLY : Z := 0x001.
Definition O_CREATE : Z := 0x200.

Definition ch_lt : Z := 60.
Definition ch_gt : Z := 62.
Definition ch_bar : Z := 124.
Definition ch_amp : Z := 38.
Definition ch_semi : Z := 59.
Definition ch_open : Z := 40.
Definition ch_close : Z := 41.

(** " \t\r\n\v" and "<|>&;()" *)
Definition whitespace : list Z := [32; 9; 13; 10; 11].
Definition symbols : list Z := [ch_lt; ch_bar; ch_gt; ch_amp; ch_semi; ch_open; ch_close].

(** [strchr(s, c) != 0] *)
Definition is_in (s : list Z) (c : Z) : bool := bool_decide (c ∈ s).

(** a string of the line: the offsets of its first byte and of its end *)
Definition span : Type := nat * nat.
Record redir := { rd_file : span; rd_mode : Z; rd_fd : Z }.

Inductive cmd :=
| EXEC (argv : list span)
| REDIR (c : cmd) (r : redir)
| PIPE (left right : cmd)
| LIST (left right : cmd)
| BACK (c : cmd).

(** redirections around a command, the first innermost *)
Definition redircmd (c : cmd) (rs : list redir) : cmd := foldl REDIR c rs.

(** ** Tokens *)

Fixpoint skip_white (s : list Z) : list Z :=
  match s with
  | c :: r => if is_in whitespace c then skip_white r else s
  | [] => []
  end.

Definition wordchar (c : Z) : bool := negb (is_in whitespace c) && negb (is_in symbols c).

Fixpoint skip_word (s : list Z) : list Z :=
  match s with
  | c :: r => if wordchar c then skip_word r else s
  | [] => []
  end.

Inductive tok := Tend | Tsym (c : Z) | Tappend | Tword.
#[export] Instance tok_eq_dec : EqDecision tok.
Proof. solve_decision. Defined.

(** the token, what is left of the line at its start ([q]) and its end ([eq]), and
    the cursor after it *)
Definition gettoken_at (s : list Z) : tok * list Z * list Z * list Z :=
  let q := skip_white s in
  let '(ret, e) :=
    match q with
    | [] => (Tend, q)
    | c :: r =>
        if is_in [ch_bar; ch_open; ch_close; ch_semi; ch_amp; ch_lt] c then (Tsym c, r)
        else if c =? ch_gt then
          match r with
          | c' :: r' => if c' =? ch_gt then (Tappend, r') else (Tsym ch_gt, r)
          | [] => (Tsym ch_gt, r)
          end
        else (Tword, skip_word q)
    end in
  (ret, q, e, skip_white e).

Section parse.
  (** [es - buf]: the length of the line *)
  Context (len : nat).

Abbreviation P := (M (list Z)).

Definition off (s : list Z) : nat := len - length s.

Definition gettoken : P (tok * span) :=
  λ s, let '(ret, q, e, s') := gettoken_at s in Ret (ret, (off q, off e)) s'.

Definition peek (toks : list Z) : P bool :=
  λ s, let s' := skip_white s in
       Ret (match s' with c :: _ => is_in toks c | [] => false end) s'.

Definition nofuel {A} : P A := λ _, NoFuel.

(** ** Commands *)

Fixpoint parseredirs (fuel : nat) : P (list redir) :=
  match fuel with
  | O => nofuel
  | S fuel =>
      b ← peek [ch_lt; ch_gt];
      if (b : bool) then
        '(t, _) ← gettoken;
        '(w, f) ← gettoken;
        if negb (bool_decide (w = Tword)) then panic "missing file for redirection"
        else
          rs ← parseredirs fuel;
          mret ({| rd_file := f;
                   rd_mode := if bool_decide (t = Tsym ch_lt) then O_RDONLY else Z.lor O_WRONLY O_CREATE;
                   rd_fd := if bool_decide (t = Tsym ch_lt) then 0 else 1 |} :: rs)
      else mret []
  end.
Definition redirs : P (list redir) := λ s, parseredirs (S (length s)) s.

(** the loop of [parseexec], with [argc] arguments read *)
Fixpoint parse_args (fuel : nat) (argc : Z) : P (list span * list redir) :=
  match fuel with
  | O => nofuel
  | S fuel =>
      b ← peek [ch_bar; ch_close; ch_amp; ch_semi];
      if (b : bool) then mret ([], [])
      else
        '(t, w) ← gettoken;
        match (t : tok) with
        | Tend => mret ([], [])
        | Tword =>
            if MAXARGS <=? argc + 1 then panic "too many args"
            else
              rs ← redirs;
              '(ws, rs') ← parse_args fuel (argc + 1);
              mret (w :: ws, rs ++ rs')
        | _ => panic "syntax"
        end
  end.

Definition backcmds (k : nat) (c : cmd) : cmd := Nat.iter k BACK c.

(** [while(peek(ps, es, "&"))]: how many there are *)
Fixpoint parse_backs (fuel : nat) : P nat :=
  match fuel with
  | O => nofuel
  | S fuel =>
      b ← peek [ch_amp];
      if (b : bool) then _ ← gettoken; k ← parse_backs fuel; mret (S k) else mret O
  end.

Fixpoint parseline (n : nat) : P cmd :=
  match n with
  | O => nofuel
  | S n =>
      c ← parsepipe n;
      k ← (λ s, parse_backs (S (length s)) s) : P nat;
      let c := backcmds k c in
      b ← peek [ch_semi];
      if (b : bool) then
        _ ← gettoken;
        r ← parseline n;
        mret (LIST c r)
      else mret c
  end
with parsepipe (n : nat) : P cmd :=
  match n with
  | O => nofuel
  | S n =>
      c ← parseexec n;
      b ← peek [ch_bar];
      if (b : bool) then
        _ ← gettoken;
        r ← parsepipe n;
        mret (PIPE c r)
      else mret c
  end
with parseexec (n : nat) : P cmd :=
  match n with
  | O => nofuel
  | S n =>
      b ← peek [ch_open];
      if (b : bool) then parseblock n
      else
        rs ← redirs;
        '(ws, rs') ← ((λ s, parse_args (S (length s)) 0 s) : P _);
        mret (redircmd (EXEC ws) (rs ++ rs'))
  end
with parseblock (n : nat) : P cmd :=
  match n with
  | O => nofuel
  | S n =>
      b ← peek [ch_open];
      if negb b then panic "parseblock"
      else
        _ ← gettoken;
        c ← parseline n;
        b ← peek [ch_close];
        if negb b then panic "syntax - missing )"
        else
          _ ← gettoken;
          rs ← redirs;
          mret (redircmd c rs)
  end.

(** every fourth call eats at least one byte *)
Definition parse_fuel : nat := 4 * len + 4.

End parse.

(** ** nulterminate *)

(** [*e = 0]; at the end of the line there is a 0 already *)
Definition put_nul (b : list Z) (w : span) : list Z := <[w.2 := 0]> b.

Fixpoint nulterminate (c : cmd) (b : list Z) : list Z :=
  match c with
  | EXEC argv => foldl put_nul b argv
  | REDIR c r => put_nul (nulterminate c b) (rd_file r)
  | PIPE l r => nulterminate r (nulterminate l b)
  | LIST l r => nulterminate r (nulterminate l b)
  | BACK c => nulterminate c b
  end.

(** the command and the line with its strings terminated *)
Definition parsecmd (line : list Z) : outcome (list Z) cmd :=
  match parseline (length line) (parse_fuel (length line)) line with
  | Ret c s =>
      match skip_white s with
      | [] => Ret c (nulterminate c line)
      | _ => Panic "syntax"
      end
  | Panic m => Panic m
  | Asleep x y => Asleep x y
  | NoFuel => NoFuel
  end.

(** the C string at an offset of the line *)
Fixpoint cstring (b : list Z) : list Z :=
  match b with
  | c :: r => if c =? 0 then [] else c :: cstring r
  | [] => []
  end.
Definition string_at (b : list Z) (w : span) : list Z := cstring (drop w.1 b).

(** the command with its strings *)
Inductive scmd :=
| SExec (argv : list (list Z))
| SRedir (c : scmd) (file : list Z) (mode fd : Z)
| SPipe (left right : scmd)
| SList (left right : scmd)
| SBack (c : scmd).

Fixpoint strings (b : list Z) (c : cmd) : scmd :=
  match c with
  | EXEC argv => SExec (string_at b <$> argv)
  | REDIR c r => SRedir (strings b c) (string_at b (rd_file r)) (rd_mode r) (rd_fd r)
  | PIPE l r => SPipe (strings b l) (strings b r)
  | LIST l r => SList (strings b l) (strings b r)
  | BACK c => SBack (strings b c)
  end.
