(* ===== verification/ShSpec.v ===== *)
(** * The shell's parser: termination, and the strings of a command

    Every line is parsed or rejected, within the fuel.  The zeros that
    [nulterminate] writes hit no string of the command. *)

From S2P Require Import Prelude Sh.

(** ** Termination *)

Lemma skip_white_length s : (length (skip_white s) ≤ length s)%nat.
Proof. induction s as [|c s IH]; cbn; [lia|]. case_match; cbn; lia. Qed.
Lemma skip_word_length s : (length (skip_word s) ≤ length s)%nat.
Proof. induction s as [|c s IH]; cbn; [lia|]. case_match; cbn; lia. Qed.

Lemma gettoken_at_length s t q e r :
  gettoken_at s = (t, q, e, r) → (length r ≤ length s)%nat ∧ (t ≠ Tend → length r < length s)%nat.
Proof.
  pose proof (skip_white_length s) as H1. unfold gettoken_at. destruct (skip_white s) as [|c s'] eqn:Es.
  - intros [= <- <- <- <-]. cbn. split; [lia|done].
  - assert (Hw : wordchar c = false → is_in [ch_bar; ch_open; ch_close; ch_semi; ch_amp; ch_lt] c = false → c ≠ ch_gt → False).
    { assert (Hws : is_in whitespace c = false).
      { clear -Es. induction s as [|a s IH]; cbn in Es; [done|]. destruct (is_in whitespace a) eqn:E; [auto|]. by simplify_eq. }
      unfold wordchar. rewrite Hws. cbn [negb andb]. rewrite negb_false_iff. unfold is_in, symbols.
      rewrite bool_decide_eq_true, bool_decide_eq_false. set_solver. }
    destruct (is_in [ch_bar; ch_open; ch_close; ch_semi; ch_amp; ch_lt] c) eqn:Ei.
    { intros [= <- <- <- <-]. pose proof (skip_white_length s'). cbn in H1. lia. }
    destruct (Z.eqb_spec c ch_gt) as [->|Hg].
    { destruct s' as [|c' s'']; [intros [= <- <- <- <-]; cbn in *; lia|].
      destruct (c' =? ch_gt); intros [= <- <- <- <-].
      - pose proof (skip_white_length s''). cbn in *. lia.
      - pose proof (skip_white_length (c' :: s'')). cbn in *. lia. }
    intros [= <- <- <- <-]. cbn [skip_word]. destruct (wordchar c) eqn:Ew; [|by destruct Hw].
    pose proof (skip_white_length (skip_word s')). pose proof (skip_word_length s'). cbn in H1. lia.
Qed.

(** [m] returns with no more of the line than before, or panics *)
Definition total {A} (m : M (list Z) A) (s : list Z) : Prop :=
  match m s with
  | Ret _ s' => (length s' ≤ length s)%nat
  | Panic _ => True
  | _ => False
  end.

Lemma total_bind {A B} (m : M (list Z) A) (k : A → M (list Z) B) s :
  total m s → (∀ a s', m s = Ret a s' → (length s' ≤ length s)%nat → total (k a) s') → total (m ≫= k) s.
Proof.
  unfold total, mbind, M_bind. destruct (m s) as [a s'|msg| |] eqn:E; try done. intros Hl Hk.
  specialize (Hk a s' eq_refl Hl). destruct (k a s'); try done. lia.
Qed.

Lemma total_ret {A} (a : A) s : total (mret a) s.
Proof. unfold total, mret, M_ret. lia. Qed.
Lemma total_panic {A} msg s : total (A := A) (panic msg) s.
Proof. done. Qed.

Section total.
  Context (len : nat).

Lemma total_peek toks s : total (peek toks) s.
Proof. unfold total, peek. apply skip_white_length. Qed.
Lemma total_gettoken s : total (gettoken len) s.
Proof.
  unfold total, gettoken. destruct (gettoken_at s) as [[[t q] e] r] eqn:E. by apply gettoken_at_length in E as [? _].
Qed.

Lemma skip_white_idem s : skip_white (skip_white s) = skip_white s.
Proof. induction s as [|c s IH]; cbn; [done|]. destruct (is_in whitespace c) eqn:E; [done|]. cbn. by rewrite E. Qed.

(** after a successful [peek], [gettoken] eats something *)
Lemma peek_eats toks s s1 r t w :
  peek toks s = Ret true s1 → gettoken len s1 = Ret (t, w) r → (length r < length s1)%nat.
Proof.
  unfold peek, gettoken. intros [= H1 <-]. destruct (skip_white s) as [|c s'] eqn:Es; [done|].
  destruct (gettoken_at (c :: s')) as [[[t' q] e] r'] eqn:E. intros [= <- _ <-].
  apply gettoken_at_length in E as Hl. apply Hl. intros ->. unfold gettoken_at in E.
  assert (skip_white (c :: s') = c :: s') as Hc by (rewrite <- Es; apply skip_white_idem).
  rewrite Hc in E. repeat case_match; simplify_eq.
Qed.

Lemma total_parseredirs fuel : ∀ s, (length s < fuel)%nat → total (parseredirs len fuel) s.
Proof.
  induction fuel as [|fuel IH]; intros s Hf; [lia|]. cbn [parseredirs].
  apply total_bind; [apply total_peek|]. intros b s1 E1 L1. destruct b; [|apply total_ret].
  apply total_bind; [apply total_gettoken|]. intros [t w] s2 E2 L2.
  pose proof (peek_eats _ _ _ _ _ _ E1 E2).
  apply total_bind; [apply total_gettoken|]. intros [t' w'] s3 E3 L3. case_match; [apply total_panic|].
  apply total_bind; [apply IH; lia|]. intros rs s4 E4 L4. apply total_ret.
Qed.

Lemma total_redirs s : total (redirs len) s.
Proof. apply total_parseredirs. lia. Qed.

Lemma total_parse_args fuel : ∀ argc s, (length s < fuel)%nat → total (parse_args len fuel argc) s.
Proof.
  induction fuel as [|fuel IH]; intros argc s Hf; [lia|]. cbn [parse_args].
  apply total_bind; [apply total_peek|]. intros b s1 E1 L1. destruct b; [apply total_ret|].
  apply total_bind; [apply total_gettoken|]. intros [t w] s2 E2 L2.
  destruct t; try apply total_ret; try apply total_panic. case_match; [apply total_panic|].
  unfold gettoken in E2. destruct (gettoken_at s1) as [[[t q] e] r] eqn:E. simplify_eq.
  apply gettoken_at_length in E as [_ Hlt]. specialize (Hlt ltac:(done)).
  apply total_bind; [apply total_redirs|]. intros rs s3 E3 L3.
  apply total_bind; [apply IH; lia|]. intros [ws rs'] s4 _ _. apply total_ret.
Qed.

Lemma total_parse_backs fuel : ∀ s, (length s < fuel)%nat → total (parse_backs len fuel) s.
Proof.
  induction fuel as [|fuel IH]; intros s Hf; [lia|]. cbn [parse_backs].
  apply total_bind; [apply total_peek|]. intros b s1 E1 L1. destruct b; [|apply total_ret].
  apply total_bind; [apply total_gettoken|]. intros [t w] s2 E2 L2.
  pose proof (peek_eats _ _ _ _ _ _ E1 E2).
  apply total_bind; [apply IH; lia|]. intros k s3 _ _. apply total_ret.
Qed.

Lemma total_parse n : ∀ s,
  ((4 * length s + 4 ≤ n)%nat → total (parseline len n) s) ∧
  ((4 * length s + 3 ≤ n)%nat → total (parsepipe len n) s) ∧
  ((4 * length s + 2 ≤ n)%nat → total (parseexec len n) s) ∧
  ((4 * length s + 1 ≤ n)%nat → total (parseblock len n) s).
Proof.
  induction n as [|n IH]; intros s; [lia|]. split_and!; intros Hf.
  - cbn [parseline]. apply total_bind; [apply IH; lia|]. intros c s1 _ L1.
    apply total_bind; [apply total_parse_backs; lia|]. intros k s2 _ L2.
    apply total_bind; [apply total_peek|]. intros b s3 E3 L3. destruct b; [|apply total_ret].
    apply total_bind; [apply total_gettoken|]. intros [t w] s4 E4 L4. pose proof (peek_eats _ _ _ _ _ _ E3 E4).
    apply total_bind; [apply IH; lia|]. intros r s5 _ _. apply total_ret.
  - cbn [parsepipe]. apply total_bind; [apply IH; lia|]. intros c s1 _ L1.
    apply total_bind; [apply total_peek|]. intros b s3 E3 L3. destruct b; [|apply total_ret].
    apply total_bind; [apply total_gettoken|]. intros [t w] s4 E4 L4. pose proof (peek_eats _ _ _ _ _ _ E3 E4).
    apply total_bind; [apply IH; lia|]. intros r s5 _ _. apply total_ret.
  - cbn [parseexec]. apply total_bind; [apply total_peek|]. intros b s1 E1 L1. destruct b; [apply IH; lia|].
    apply total_bind; [apply total_redirs|]. intros rs s2 _ L2.
    apply total_bind; [apply total_parse_args; lia|]. intros [ws rs'] s3 _ _. apply total_ret.
  - cbn [parseblock]. apply total_bind; [apply total_peek|]. intros b s1 E1 L1.
    destruct b; cbn [negb]; [|apply total_panic].
    apply total_bind; [apply total_gettoken|]. intros [t w] s2 E2 L2. pose proof (peek_eats _ _ _ _ _ _ E1 E2).
    apply total_bind; [apply IH; lia|]. intros c s3 _ L3.
    apply total_bind; [apply total_peek|]. intros b s4 _ L4. destruct b; cbn [negb]; [|apply total_panic].
    apply total_bind; [apply total_gettoken|]. intros [t' w'] s5 _ L5.
    apply total_bind; [apply total_redirs|]. intros rs s6 _ _. apply total_ret.
Qed.
End total.

(** The parser stops on every line: it returns a command or reports an error,
    and the recursion never needs more than four calls per byte. *)
Theorem parsecmd_returns line : (∃ c b, parsecmd line = Ret c b) ∨ (∃ msg, parsecmd line = Panic msg).
Proof.
  unfold parsecmd, parse_fuel. destruct (total_parse (length line) (4 * length line + 4) line) as [H _].
  specialize (H ltac:(lia)). unfold total in H.
  destruct (parseline _ _ line) as [c s|msg| |]; try done; [|eauto]. destruct (skip_white s); eauto.
Qed.

(** ** Strings *)

Definition slice (line : list Z) (w : span) : list Z := take (w.2 - w.1) (drop w.1 line).

(** the command with the parts of the line that its strings are *)
Fixpoint slices (line : list Z) (c : cmd) : scmd :=
  match c with
  | EXEC argv => SExec (slice line <$> argv)
  | REDIR c r => SRedir (slices line c) (slice line (rd_file r)) (rd_mode r) (rd_fd r)
  | PIPE l r => SPipe (slices line l) (slices line r)
  | LIST l r => SList (slices line l) (slices line r)
  | BACK c => SBack (slices line c)
  end.

Fixpoint all_spans (Q : span → Prop) (c : cmd) : Prop :=
  match c with
  | EXEC argv => Forall Q argv
  | REDIR c r => all_spans Q c ∧ Q (rd_file r)
  | PIPE l r | LIST l r => all_spans Q l ∧ all_spans Q r
  | BACK c => all_spans Q c
  end.

Section spans.
  Context (line : list Z).

Abbreviation len := (length line).

Definition suffix (s : list Z) : Prop := ∃ p, line = p ++ s.

Definition nonword (s : list Z) : Prop := match s with c :: _ => wordchar c = false | [] => True end.

(** a maximal run of word characters *)
Definition word_span (w : span) : Prop :=
  ∃ p x r, line = p ++ x ++ r ∧ w = (length p, length p + length x)%nat ∧
    Forall (λ c, wordchar c = true) x ∧ nonword r.

Lemma skip_white_suffix s : suffix s → suffix (skip_white s).
Proof.
  intros [p Hp]. revert p Hp. induction s as [|c s IH]; intros p Hp; cbn; [by exists p|].
  case_match; [|by exists p]. apply (IH (p ++ [c])). by rewrite <- (assoc_L (++)).
Qed.

Lemma skip_word_split s : ∃ x, s = x ++ skip_word s ∧ Forall (λ c, wordchar c = true) x ∧ nonword (skip_word s).
Proof.
  induction s as [|c s (x & Hx & Hf & Hn)]; cbn; [by exists []|]. destruct (wordchar c) eqn:E.
  - exists (c :: x). split_and!; [by rewrite Hx at 1|by constructor|done].
  - by exists [].
Qed.

Lemma off_suffix p s : line = p ++ s → off len s = length p.
Proof. intros E. unfold off. rewrite E, length_app. lia. Qed.

Lemma gettoken_spec s t w s' :
  suffix s → gettoken len s = Ret (t, w) s' → suffix s' ∧ (t = Tword → word_span w).
Proof.
  intros Hs. apply skip_white_suffix in Hs as Hq. unfold gettoken, gettoken_at.
  destruct (skip_white s) as [|c q] eqn:Eq.
  { intros [= <- _ <-]. split; [|done]. by apply (skip_white_suffix []). }
  assert (Hrest : ∀ x r, c :: q = x ++ r → suffix (skip_white r)).
  { intros x r E. apply skip_white_suffix. destruct Hq as [p Hp]. exists (p ++ x). by rewrite Hp, E, (assoc_L (++)). }
  destruct (is_in _ c). { intros [= <- _ <-]. split; [by apply (Hrest [c])|done]. }
  destruct (c =? ch_gt).
  { destruct q as [|c' q']; [intros [= <- _ <-]; split; [exact (Hrest [c] [] eq_refl)|done]|].
    destruct (c' =? ch_gt); intros [= <- _ <-]; (split; [|done]); [exact (Hrest [c; c'] q' eq_refl)|exact (Hrest [c] (c' :: q') eq_refl)]. }
  destruct (skip_word_split (c :: q)) as (x & Hx & Hf & Hn). set (e := skip_word (c :: q)) in *. clearbody e.
  intros [= <- <- <-]. split; [by apply (Hrest x)|]. intros _. destruct Hq as [p Hp]. exists p, x, e.
  split_and!; [by rewrite <- Hx| |done|done]. f_equal.
  - by apply off_suffix.
  - rewrite (off_suffix (p ++ x)); [by rewrite length_app|]. by rewrite <- (assoc_L (++)), <- Hx.
Qed.

Lemma rets_peek toks s : suffix s → rets (peek toks) s (λ _ s', suffix s').
Proof. intros Hs b s' [= _ <-]. by apply skip_white_suffix. Qed.
Lemma rets_gettoken s : suffix s → rets (gettoken len) s (λ '(t, w) s', suffix s' ∧ (t = Tword → word_span w)).
Proof. intros Hs [t w] s' E. by eapply gettoken_spec. Qed.

Definition redirs_ok (rs : list redir) : Prop := Forall (λ r, word_span (rd_file r)) rs.

Ltac pk := eapply rets_bind, rets_mono; [by apply rets_peek|]; cbn beta; intros ? ? ?.
Ltac gt := eapply rets_bind, rets_mono; [by apply rets_gettoken|]; cbn beta; intros [? ?] ? [? ?].

Lemma rets_parseredirs fuel : ∀ s,
  suffix s → rets (parseredirs len fuel) s (λ rs s', redirs_ok rs ∧ suffix s').
Proof.
  induction fuel as [|fuel IH]; intros s Hs; cbn [parseredirs]; [by intros ? ?|].
  pk. case_match; [|apply rets_ret; split; [constructor|done]]. gt. gt.
  case_bool_decide; cbn [negb]; [|apply rets_panic].
  eapply rets_bind, rets_mono; [by apply IH|]. intros rs s8 [? ?]. apply rets_ret. split; [|done].
  constructor; [cbn; auto|done].
Qed.

Lemma rets_parse_args fuel : ∀ argc s,
  suffix s → rets (parse_args len fuel argc) s (λ '(ws, rs) s', Forall word_span ws ∧ redirs_ok rs ∧ suffix s').
Proof.
  induction fuel as [|fuel IH]; intros argc s Hs; cbn [parse_args]; [by intros ? ?|].
  assert (Hnil : ∀ s', suffix s' → Forall word_span [] ∧ redirs_ok [] ∧ suffix s') by (intros; split_and!; [constructor..|done]).
  pk. case_match; [apply rets_ret; auto|]. gt. case_match; try apply rets_panic; [apply rets_ret; auto|].
  case_match; [apply rets_panic|].
  eapply rets_bind, rets_mono; [by apply rets_parseredirs|]. intros rs s8 [? ?].
  eapply rets_bind, rets_mono; [by apply IH|]. intros [ws rs'] s9 (? & ? & ?). apply rets_ret.
  split_and!; [constructor; auto|by apply Forall_app|done].
Qed.

Lemma rets_parse_backs fuel : ∀ s, suffix s → rets (parse_backs len fuel) s (λ _ s', suffix s').
Proof.
  induction fuel as [|fuel IH]; intros s Hs; cbn [parse_backs]; [by intros ? ?|].
  pk. case_match; [|by apply rets_ret]. gt.
  eapply rets_bind, rets_mono; [by apply IH|]. intros k s8 ?. by apply rets_ret.
Qed.

Lemma redircmd_spans Q c rs :
  all_spans Q c → Forall (λ r, Q (rd_file r)) rs → all_spans Q (redircmd c rs).
Proof. intros Hc Hrs. revert c Hc. induction Hrs as [|r rs Hr _ IH]; intros c Hc; cbn; [done|]. by apply IH. Qed.

Lemma backcmds_spans Q k c : all_spans Q c → all_spans Q (backcmds k c).
Proof. intros Hc. by induction k. Qed.

Lemma rets_parse n : ∀ s, suffix s →
  let Post c s' := all_spans word_span c ∧ suffix s' in
  rets (parseline len n) s Post ∧ rets (parsepipe len n) s Post ∧
  rets (parseexec len n) s Post ∧ rets (parseblock len n) s Post.
Proof.
  induction n as [|n IH]; intros s Hs Post; [by split_and!; intros ? ?|].
  assert (Hline : ∀ s, suffix s → rets (parseline len n) s Post) by (intros; by apply IH).
  assert (Hpipe : ∀ s, suffix s → rets (parsepipe len n) s Post) by (intros; by apply IH).
  split_and!.
  - cbn [parseline]. eapply rets_bind, rets_mono; [by apply Hpipe|]. intros c s1 [? ?].
    eapply rets_bind, rets_mono; [by apply rets_parse_backs|]. intros k s2 ?. pk.
    case_match; [|apply rets_ret; split; [by apply backcmds_spans|done]]. gt.
    eapply rets_bind, rets_mono; [by apply Hline|]. intros r s3 [? ?]. apply rets_ret. split; [|done].
    split; [by apply backcmds_spans|done].
  - cbn [parsepipe]. eapply rets_bind, rets_mono; [by apply IH|]. intros c s1 [? ?]. pk.
    case_match; [|by apply rets_ret]. gt.
    eapply rets_bind, rets_mono; [by apply Hpipe|]. intros r s3 [? ?]. by apply rets_ret.
  - cbn [parseexec]. pk. case_match; [by apply IH|].
    eapply rets_bind, rets_mono; [by apply rets_parseredirs|]. intros rs s1 [? ?].
    eapply rets_bind, rets_mono; [by apply rets_parse_args|]. intros [ws rs'] s2 (? & ? & ?). apply rets_ret.
    split; [|done]. apply redircmd_spans; [done|]. by apply Forall_app.
  - cbn [parseblock]. pk. case_match; [apply rets_panic|]. gt.
    eapply rets_bind, rets_mono; [by apply Hline|]. intros c s2 [? ?]. pk. case_match; [apply rets_panic|]. gt.
    eapply rets_bind, rets_mono; [by apply rets_parseredirs|]. intros rs s9 [? ?]. apply rets_ret.
    split; [by apply redircmd_spans|done].
Qed.

(** ** The zeros *)

(** only bytes that are in no word have been changed, to 0 *)
Definition words_kept (b : list Z) : Prop :=
  length b = len ∧ ∀ i c, line !! i = Some c → wordchar c = true → b !! i = Some c.

Definition ended (b : list Z) (w : span) : Prop := (w.2 < len)%nat → b !! w.2 = Some 0.

Lemma put_nul_kept b w : words_kept b → word_span w → words_kept (put_nul b w) ∧ ended (put_nul b w) w.
Proof.
  intros [Hl Hk] (p & x & r & E & -> & Hx & Hr). unfold put_nul, ended. cbn [snd]. split; [split|].
  - by rewrite length_insert.
  - intros i c Hi Hc. rewrite list_lookup_insert_ne; [by apply Hk|]. intros <-.
    rewrite E, lookup_app_r, lookup_app_r in Hi by lia.
    destruct r as [|c' r]; [by rewrite lookup_nil in Hi|].
    replace (length p + length x - length p - length x)%nat with O in Hi by lia. cbn in Hi, Hr. congruence.
  - intros Hlt. apply list_lookup_insert_eq. lia.
Qed.

Lemma put_nul_ended b w w' : length b = len → ended b w → ended (put_nul b w') w.
Proof.
  intros Hl He Hlt. unfold put_nul. destruct (decide (w.2 = w'.2)) as [E|].
  - rewrite E. apply list_lookup_insert_eq. rewrite <- E. lia.
  - rewrite list_lookup_insert_ne by done. by apply He.
Qed.

Lemma fold_nul_kept ws : ∀ b,
  words_kept b → Forall word_span ws →
  words_kept (foldl put_nul b ws) ∧ Forall (ended (foldl put_nul b ws)) ws ∧
  ∀ w, ended b w → ended (foldl put_nul b ws) w.
Proof.
  induction ws as [|w ws IH]; intros b Hb Hws; cbn [foldl]; [split_and!; [done|constructor|done]|].
  apply Forall_cons in Hws as [Hw Hws]. destruct (put_nul_kept b w Hb Hw) as [Hb' He].
  destruct (IH _ Hb' Hws) as (H1 & H2 & H3). split_and!; [done|constructor; auto|].
  intros w' Hw'. apply H3, put_nul_ended; [apply Hb|done].
Qed.

Lemma all_spans_mono (Q R : span → Prop) c : (∀ w, Q w → R w) → all_spans Q c → all_spans R c.
Proof. intros HQR. induction c; cbn; try naive_solver. intros H; by eapply Forall_impl. Qed.

Lemma nulterminate_kept c : ∀ b,
  words_kept b → all_spans word_span c →
  words_kept (nulterminate c b) ∧ all_spans (ended (nulterminate c b)) c ∧
  ∀ w, ended b w → ended (nulterminate c b) w.
Proof.
  induction c as [argv|c IH r|l IHl r IHr|l IHl r IHr|c IH]; intros b Hb; cbn [all_spans nulterminate].
  - by apply fold_nul_kept.
  - intros [Hc Hr]. destruct (IH b Hb Hc) as (H1 & H2 & H3). destruct (put_nul_kept _ _ H1 Hr) as [H4 H5].
    assert (H6 : ∀ w, ended (nulterminate c b) w → ended (put_nul (nulterminate c b) (rd_file r)) w)
      by (intros w; apply put_nul_ended, H1).
    split_and!; [done|by eapply all_spans_mono|done|auto].
  - intros [Hl Hr]. destruct (IHl b Hb Hl) as (H1 & H2 & H3), (IHr _ H1 Hr) as (H4 & H5 & H6).
    split_and!; [done|by eapply all_spans_mono|done|auto].
  - intros [Hl Hr]. destruct (IHl b Hb Hl) as (H1 & H2 & H3), (IHr _ H1 Hr) as (H4 & H5 & H6).
    split_and!; [done|by eapply all_spans_mono|done|auto].
  - intros Hc. by apply IH.
Qed.

Lemma cstring_app x r : 0 ∉ x → cstring (x ++ r) = x ++ cstring r.
Proof.
  induction x as [|c x IH]; [done|]. intros [Hc Hx]%not_elem_of_cons. cbn. rewrite (proj2 (Z.eqb_neq _ _)) by done.
  by rewrite IH.
Qed.

Lemma string_slice b w :
  0 ∉ line → words_kept b → word_span w → ended b w → string_at b w = slice line w.
Proof.
  intros H0 [Hl Hk] (p & x & r & E & -> & Hx & Hr) He. unfold string_at, slice, ended in *. cbn [fst snd] in *.
  assert (Hdrop : drop (length p) line = x ++ r) by (rewrite E; by apply drop_app_length').
  rewrite Hdrop. replace (length p + length x - length p)%nat with (length x) by lia. rewrite take_app_length.
  assert (H0x : 0 ∉ x) by (rewrite E in H0; set_solver).
  assert (∃ r', drop (length p) b = x ++ r' ∧ cstring r' = []) as (r' & -> & Hr').
  2: { by rewrite cstring_app, Hr', app_nil_r. }
  exists (drop (length p + length x) b). split.
  - apply list_eq. intros i. rewrite lookup_drop. destruct (decide (i < length x)%nat) as [Hi|Hi].
    + rewrite lookup_app_l by done. destruct (lookup_lt_is_Some_2 x i Hi) as [c Hc]. rewrite Hc. apply Hk.
      * rewrite E, lookup_app_r, lookup_app_l by lia. by replace (length p + i - length p)%nat with i by lia.
      * by eapply Forall_lookup_1 in Hx.
    + rewrite lookup_app_r, lookup_drop by lia. f_equal. lia.
  - destruct (decide (length p + length x < len)%nat) as [Hlt|Hge].
    + rewrite (drop_S _ 0) by auto. done.
    + rewrite drop_ge by lia. done.
Qed.

Lemma strings_slices b c :
  0 ∉ line → words_kept b → all_spans word_span c → all_spans (ended b) c → strings b c = slices line c.
Proof.
  intros H0 Hb. induction c as [argv|c IH r|l IHl r IHr|l IHl r IHr|c IH]; cbn [all_spans strings slices];
    try (intros; f_equal; naive_solver).
  - intros Hw He. f_equal. apply list_fmap_ext. intros i w Hi. apply string_slice; try done.
    + by eapply Forall_lookup_1 in Hw.
    + by eapply Forall_lookup_1 in He.
  - intros [? ?] [? ?]. f_equal; [auto|]. by apply string_slice.
Qed.
End spans.

Lemma parsecmd_strings_ok line c b :
  0 ∉ line → parsecmd line = Ret c b → strings b c = slices line c ∧ all_spans (word_span line) c.
Proof.
  intros H0. unfold parsecmd. destruct (parseline _ _ line) as [c' s|msg| |] eqn:E; try done.
  destruct (rets_parse line (parse_fuel (length line)) line) as [H _]; [by exists []|].
  destruct (H _ _ E) as [Hsp _]. destruct (skip_white s); [|done]. intros [= <- <-].
  destruct (nulterminate_kept line c' line) as (H1 & H2 & _); [by split|done|].
  split; [|done]. by apply strings_slices.
Qed.

(** When a line is accepted, each string of the command, read from the line
    after the terminators have been written into it, is the word the parser found:
    terminating one string never cuts or overwrites another. *)
Theorem nulterminate_safe line c b :
  0 ∉ line → parsecmd line = Ret c b → strings b c = slices line c ∧ all_spans (word_span line) c.
Proof. apply parsecmd_strings_ok. Qed.

(** [a>b] *)
Lemma nulterminate_safe_witness :
  ∃ c b, parsecmd [97; 62; 98] = Ret c b ∧
    strings b c = slices [97; 62; 98] c ∧ all_spans (word_span [97; 62; 98]) c.
Proof.
  eexists _, _. split; [reflexivity|]. apply (nulterminate_safe [97; 62; 98]); [|reflexivity].
  rewrite !not_elem_of_cons. split_and!; [done..|apply not_elem_of_nil].
Defined.
