(* ===== verification/ShRound.v ===== *)
(** * Printing and parsing shell commands

    The commands the shell accepts, as trees of its grammar; [show] writes one as
    a line and [meaning] is the command it stands for.  The parser of [Sh] reads
    the line of a command back as that command. *)

From S2P Require Import Prelude Sh ShSpec.

(** ** The grammar *)

Inductive arrow := In | Out | Append.
Record sredir := { sr_arrow : arrow; sr_file : list Z }.

(** a pipe line with how many [&] follow it, alone or before a [;] *)
Inductive gline :=
| LLast (p : gpipe) (amps : nat)
| LThen (p : gpipe) (amps : nat) (l : gline)
with gpipe :=
| PLast (x : gexec)
| PBar (x : gexec) (p : gpipe)
with gexec :=
| XWords (first : list sredir) (args : list (list Z * list sredir))
| XBlock (l : gline) (after : list sredir).

Definition show_word (w : list Z) : list Z := w ++ [32].
Definition show_arrow (a : arrow) : list Z :=
  match a with In => [ch_lt; 32] | Out => [ch_gt; 32] | Append => [ch_gt; ch_gt; 32] end.
Definition show_redir (r : sredir) : list Z := show_arrow (sr_arrow r) ++ show_word (sr_file r).
Definition show_redirs (rs : list sredir) : list Z := rs ≫= show_redir.
Definition show_arg (a : list Z * list sredir) : list Z := show_word a.1 ++ show_redirs a.2.

Fixpoint show (l : gline) : list Z :=
  match l with
  | LLast p k => show_pipe p ++ replicate k ch_amp
  | LThen p k l => show_pipe p ++ replicate k ch_amp ++ ch_semi :: show l
  end
with show_pipe (p : gpipe) : list Z :=
  match p with
  | PLast x => show_exec x
  | PBar x p => show_exec x ++ ch_bar :: show_pipe p
  end
with show_exec (x : gexec) : list Z :=
  match x with
  | XWords first args => show_redirs first ++ (args ≫= show_arg)
  | XBlock l after => ch_open :: show l ++ ch_close :: show_redirs after
  end.

Definition is_input (a : arrow) : bool := match a with In => true | _ => false end.
Definition redir_of (r : sredir) : list Z * Z * Z :=
  if is_input (sr_arrow r) then (sr_file r, O_RDONLY, 0) else (sr_file r, Z.lor O_WRONLY O_CREATE, 1).
Definition around (c : scmd) (r : list Z * Z * Z) : scmd := let '(f, m, d) := r in SRedir c f m d.

Fixpoint meaning (l : gline) : scmd :=
  match l with
  | LLast p k => Nat.iter k SBack (meaning_pipe p)
  | LThen p k l => SList (Nat.iter k SBack (meaning_pipe p)) (meaning l)
  end
with meaning_pipe (p : gpipe) : scmd :=
  match p with
  | PLast x => meaning_exec x
  | PBar x p => SPipe (meaning_exec x) (meaning_pipe p)
  end
with meaning_exec (x : gexec) : scmd :=
  match x with
  | XWords first args => foldl around (SExec args.*1) (redir_of <$> first ++ concat args.*2)
  | XBlock l after => foldl around (meaning l) (redir_of <$> after)
  end.

(** ** Well-formed commands *)

Definition word_ok (w : list Z) : Prop := w ≠ [] ∧ Forall (λ c, wordchar c = true ∧ c ≠ 0) w.
Definition redirs_wf (rs : list sredir) : Prop := Forall (λ r, word_ok (sr_file r)) rs.

Fixpoint line_wf (l : gline) : Prop :=
  match l with
  | LLast p _ => pipe_wf p
  | LThen p _ l => pipe_wf p ∧ line_wf l
  end
with pipe_wf (p : gpipe) : Prop :=
  match p with
  | PLast x => exec_wf x
  | PBar x p => exec_wf x ∧ pipe_wf p
  end
with exec_wf (x : gexec) : Prop :=
  match x with
  | XWords first args =>
      redirs_wf first ∧ Forall (λ a, word_ok a.1 ∧ redirs_wf a.2) args ∧ Z.of_nat (length args) < MAXARGS
  | XBlock l after => line_wf l ∧ redirs_wf after
  end.

(** ** Steps of the parser that succeed unless they run out of fuel *)

Definition gives {A} (m : M (list Z) A) (s : list Z) (Q : A → list Z → Prop) : Prop :=
  match m s with Ret a s' => Q a s' | NoFuel => True | _ => False end.

Lemma gives_bind {A B} (m : M (list Z) A) (k : A → M (list Z) B) s (R : A → list Z → Prop) Q :
  gives m s R → (∀ a s', R a s' → gives (k a) s' Q) → gives (m ≫= k) s Q.
Proof. unfold gives, mbind, M_bind. intros Hm Hk. destruct (m s); try done. by apply Hk. Qed.

Lemma gives_ret {A} (a : A) s (Q : A → list Z → Prop) : Q a s → gives (mret a) s Q.
Proof. done. Qed.

(** the token a cursor is at *)
Definition next (s : list Z) : option Z := head (skip_white s).
Definition next_in (toks : list Z) (s : list Z) : bool :=
  match next s with Some c => is_in toks c | None => false end.

Lemma next_cons c r : is_in whitespace c = false → next (c :: r) = Some c.
Proof. intros Hc. unfold next. cbn. by rewrite Hc. Qed.

Lemma wordchar_spec c : wordchar c = true → is_in whitespace c = false ∧ is_in symbols c = false.
Proof. unfold wordchar. intros [H1 H2]%andb_true_iff. by destruct (is_in whitespace c), (is_in symbols c). Qed.

Lemma is_in_incl s s' c : s ⊆ s' → is_in s' c = false → is_in s c = false.
Proof. unfold is_in. intros Hs. rewrite !bool_decide_eq_false. set_solver. Qed.

Lemma skip_word_app w r : Forall (λ c, wordchar c = true) w → skip_word (w ++ 32 :: r) = 32 :: r.
Proof. induction 1 as [|c w Hc _ IH]; [done|]. cbn. by rewrite Hc. Qed.

Lemma gettoken_word w r :
  word_ok w → gettoken_at (show_word w ++ r) = (Tword, w ++ 32 :: r, 32 :: r, skip_white (32 :: r)).
Proof.
  intros [Hne Hw]. assert (Hf : Forall (λ c, wordchar c = true) w) by (eapply Forall_impl; [done|naive_solver]).
  destruct w as [|c w]; [done|]. pose proof (Forall_inv Hf) as Hc. cbn beta in Hc.
  apply wordchar_spec in Hc as [H1 H2].
  assert (is_in [ch_bar; ch_open; ch_close; ch_semi; ch_amp; ch_lt] c = false) as H3
    by (apply (is_in_incl _ symbols); [intros x; unfold symbols; rewrite !elem_of_cons; tauto|done]).
  assert (c =? ch_gt = false) as H4.
  { apply Z.eqb_neq. intros ->. by vm_compute in H2. }
  unfold show_word. rewrite <- (assoc_L (++)). change ([32] ++ r) with (32 :: r).
  unfold gettoken_at. cbn [app skip_white]. rewrite H1, H3, H4.
  change (c :: (w ++ 32 :: r)) with ((c :: w) ++ 32 :: r). by rewrite (skip_word_app (c :: w) r Hf).
Qed.

Lemma skip_white_word w r : word_ok w → skip_white (show_word w ++ r) = w ++ 32 :: r.
Proof.
  intros [Hne Hw]. destruct w as [|c w]; [done|]. apply Forall_inv in Hw as [Hc _].
  apply wordchar_spec in Hc as [H1 _]. cbn. rewrite H1. by rewrite <- (assoc_L (++)).
Qed.

Lemma next_word toks w r :
  word_ok w → toks ⊆ symbols → next_in toks (show_word w ++ r) = false.
Proof.
  intros [Hne Hw] Ht. destruct w as [|c w]; [done|]. apply Forall_inv in Hw as [Hc _].
  apply wordchar_spec in Hc as [H1 H2]. unfold next_in, next. cbn. rewrite H1. cbn. by eapply is_in_incl.
Qed.

Lemma arrows_symbols : [ch_lt; ch_gt] ⊆ symbols.
Proof. intros c. unfold symbols. rewrite !elem_of_cons. tauto. Qed.
Lemma bars_symbols : [ch_bar; ch_close; ch_amp; ch_semi] ⊆ symbols.
Proof. intros c. unfold symbols. rewrite !elem_of_cons. tauto. Qed.

Lemma show_args_cons x rs args r :
  (((x, rs) :: args) ≫= show_arg) ++ r = show_word x ++ show_redirs rs ++ (args ≫= show_arg) ++ r.
Proof.
  change (((x, rs) :: args) ≫= show_arg) with ((show_word x ++ show_redirs rs) ++ (args ≫= show_arg)).
  by rewrite <- !(assoc_L (++)).
Qed.

Section round.
  Context (line : list Z).

Abbreviation len := (length line).

(** the cursor is at [r], white space aside *)
Definition at_ (s r : list Z) : Prop := suffix line s ∧ skip_white s = skip_white r.

Lemma at_next s r : at_ s r → next s = next r.
Proof. unfold next. by intros [_ ->]. Qed.

Lemma gives_peek toks s r : at_ s r → gives (peek toks) s (λ b s', b = next_in toks r ∧ at_ s' r).
Proof.
  intros [Hs E]. unfold gives, peek. split.
  - unfold next_in, next. rewrite <- E. by destruct (skip_white s).
  - split; [by apply skip_white_suffix|]. by rewrite skip_white_idem.
Qed.

(** [gettoken] sees what the cursor is at, and leaves the cursor in the line *)
Lemma gives_gettoken s r t q e r' (Q : tok * span → list Z → Prop) :
  at_ s r → gettoken_at r = (t, q, e, r') → skip_white r' = skip_white e →
  (∀ s', at_ s' e → Q (t, (off len q, off len e)) s') → gives (gettoken len) s Q.
Proof.
  intros [Hs E] Er He HQ. assert (Hat : gettoken_at s = (t, q, e, r')).
  { rewrite <- Er. unfold gettoken_at. by rewrite E. }
  unfold gives, gettoken. rewrite Hat. apply HQ. split; [|done].
  refine (proj1 (gettoken_spec line s t _ r' Hs _)). unfold gettoken. by rewrite Hat.
Qed.

Lemma gives_symbol c s r :
  at_ s (c :: r) → is_in [ch_bar; ch_open; ch_close; ch_semi; ch_amp; ch_lt] c = true →
  gives (gettoken len) s (λ a s', a.1 = Tsym c ∧ at_ s' r).
Proof.
  intros Hs Hc. assert (Hw : is_in whitespace c = false).
  { unfold is_in in *. apply bool_decide_eq_true in Hc. apply bool_decide_eq_false. intros H. set_solver. }
  eapply gives_gettoken; [done|unfold gettoken_at; cbn [skip_white]; rewrite Hw, Hc; reflexivity|by rewrite skip_white_idem|done].
Qed.

Lemma gives_arrow a s r :
  at_ s (show_arrow a ++ r) →
  gives (gettoken len) s (λ b s', bool_decide (b.1 = Tsym ch_lt) = is_input a ∧ at_ s' r).
Proof.
  intros Hs. destruct a; (eapply gives_gettoken; [done|reflexivity|by rewrite skip_white_idem|]);
    (intros s' [Hs' E]; split; [done|]; split; [done|]; rewrite E; done).
Qed.

Lemma gives_word w s r :
  word_ok w → at_ s (show_word w ++ r) →
  gives (gettoken len) s (λ b s', b.1 = Tword ∧ slice line b.2 = w ∧ at_ s' r).
Proof.
  intros Hw Hs. eapply gives_gettoken; [done|by apply gettoken_word|by rewrite skip_white_idem|].
  intros s' [Hs' E]. split_and!; [done| |by split].
  assert (Hq : suffix line (w ++ 32 :: r)).
  { destruct Hs as [Hs Es]. replace (w ++ 32 :: r) with (skip_white s); [by apply skip_white_suffix|].
    rewrite Es. by apply skip_white_word. }
  destruct Hq as [p Hp]. unfold slice. cbn [fst snd].
  rewrite (off_suffix line p _ Hp), (off_suffix line (p ++ w)) by (by rewrite <- (assoc_L (++))).
  rewrite length_app, Hp, drop_app_length. replace (length p + length w - length p)%nat with (length w) by lia.
  apply take_app_length.
Qed.

(** ** The parser on the line of a command *)

Definition view (r : redir) : list Z * Z * Z := (slice line (rd_file r), rd_mode r, rd_fd r).

Lemma slices_redircmd c rs : slices line (redircmd c rs) = foldl around (slices line c) (view <$> rs).
Proof. revert c. induction rs as [|r rs IH]; intros c; [done|]. exact (IH (REDIR c r)). Qed.

Lemma slices_backcmds k c : slices line (backcmds k c) = Nat.iter k SBack (slices line c).
Proof. induction k; cbn; [done|]. by f_equal. Qed.

Lemma gives_parseredirs fuel : ∀ rs s r,
  redirs_wf rs → next_in [ch_lt; ch_gt] r = false → at_ s (show_redirs rs ++ r) →
  gives (parseredirs len fuel) s (λ rs' s', view <$> rs' = redir_of <$> rs ∧ at_ s' r).
Proof.
  induction fuel as [|fuel IH]; intros rs s r Hrs Hr Hs; [done|]. cbn [parseredirs].
  eapply gives_bind; [by apply gives_peek|]. intros b s1 [-> H1]. destruct rs as [|x rs].
  - cbn in *. rewrite Hr. by apply gives_ret.
  - apply Forall_cons in Hrs as [Hx Hrs].
    change (show_redirs (x :: rs)) with (show_redir x ++ show_redirs rs) in *.
    assert (next_in [ch_lt; ch_gt] ((show_redir x ++ show_redirs rs) ++ r) = true) as ->
      by (destruct x as [[] f]; reflexivity).
    unfold show_redir in H1. rewrite <- !(assoc_L (++)) in H1.
    eapply gives_bind; [by apply gives_arrow|]. intros [t w] s2 [E2 H2]. cbn [fst] in E2.
    eapply gives_bind; [by apply gives_word|]. intros [t' f] s3 (E3 & E4 & H3). cbn [fst snd] in E3, E4.
    rewrite (bool_decide_eq_true_2 _ E3). cbn [negb].
    eapply gives_bind; [by apply (IH rs)|]. intros rs' s4 [E5 H4]. apply gives_ret. split; [|done].
    cbn [fmap list_fmap]. rewrite E5. f_equal. unfold view, redir_of. cbn. rewrite E2, E4. by destruct (is_input _).
Qed.

(** what may follow a simple command or a block *)
Definition stops (r : list Z) : Prop :=
  next r = None ∨ next_in [ch_bar; ch_close; ch_amp; ch_semi] r = true.

Lemma stops_not r toks :
  stops r → (∀ c, c ∈ [ch_bar; ch_close; ch_amp; ch_semi] → is_in toks c = false) → next_in toks r = false.
Proof.
  intros [Hr|Hr] Ht; unfold next_in in *; [by rewrite Hr|]. destruct (next r); [|done].
  apply Ht. by apply bool_decide_eq_true in Hr.
Qed.

Lemma stops_arrows r : stops r → next_in [ch_lt; ch_gt] r = false.
Proof. intros Hr. apply stops_not; [done|]. intros c Hc. repeat (apply elem_of_cons in Hc as [->|Hc]; [done|]). by apply elem_of_nil in Hc. Qed.
Lemma stops_open r : stops r → next_in [ch_open] r = false.
Proof. intros Hr. apply stops_not; [done|]. intros c Hc. repeat (apply elem_of_cons in Hc as [->|Hc]; [done|]). by apply elem_of_nil in Hc. Qed.

Lemma gives_parse_args fuel : ∀ args argc s r,
  Forall (λ a, word_ok a.1 ∧ redirs_wf a.2) args → stops r → argc + Z.of_nat (length args) < MAXARGS →
  at_ s ((args ≫= show_arg) ++ r) →
  gives (parse_args len fuel argc) s
    (λ '(ws, rs) s', slice line <$> ws = args.*1 ∧ view <$> rs = redir_of <$> concat args.*2 ∧ at_ s' r).
Proof.
  induction fuel as [|fuel IH]; intros args argc s r Hargs Hr Hn Hs; [done|]. cbn [parse_args].
  eapply gives_bind; [by apply gives_peek|]. intros b s1 [-> H1]. destruct args as [|[x rs] args].
  - cbn [mbind list_bind app] in *. destruct (next_in _ r) eqn:En; [by apply gives_ret|].
    destruct Hr as [Hr|Hr]; [|congruence]. unfold next in Hr.
    eapply (gives_bind _ _ _ (λ a s', a.1 = Tend ∧ at_ s' r)).
    { destruct (skip_white r) eqn:Er; [|done].
      eapply gives_gettoken; [done|unfold gettoken_at; rewrite Er; reflexivity|done|].
      intros s' [Hs' E']. split; [done|]. split; [done|]. by rewrite E', Er. }
    intros [t w] s2 [E2 H2]. cbn [fst] in E2. subst t. by apply gives_ret.
  - apply Forall_cons in Hargs as [[Hx Hrs] Hargs]. cbn [fst snd] in Hx, Hrs.
    rewrite show_args_cons in *. rewrite next_word by (done || apply bars_symbols).
    eapply gives_bind; [by apply gives_word|]. intros [t w] s2 (E2 & E3 & H2). cbn [fst snd] in E2, E3. subst t.
    cbn [length] in Hn. rewrite (proj2 (Z.leb_gt _ _)) by lia.
    assert (Hnext : next_in [ch_lt; ch_gt] ((args ≫= show_arg) ++ r) = false).
    { destruct args as [|[y rs'] args]; [by apply stops_arrows|].
      apply Forall_cons in Hargs as [[Hy _] _]. cbn [fst] in Hy.
      rewrite show_args_cons. apply next_word; [done|apply arrows_symbols]. }
    eapply gives_bind; [by apply (gives_parseredirs _ rs)|]. intros rs1 s3 [E4 H3].
    eapply gives_bind; [apply (IH args); [done..|lia|done]|]. intros [ws rs2] s4 (E5 & E6 & H4). apply gives_ret.
    split_and!; [|rewrite fmap_app; cbn; rewrite fmap_app|done]; cbn; congruence.
Qed.

Lemma gives_parse_backs fuel : ∀ k s r,
  next_in [ch_amp] r = false → at_ s (replicate k ch_amp ++ r) →
  gives (parse_backs len fuel) s (λ k' s', k' = k ∧ at_ s' r).
Proof.
  induction fuel as [|fuel IH]; intros k s r Hr Hs; [done|]. cbn [parse_backs].
  eapply gives_bind; [by apply gives_peek|]. intros b s1 [-> H1]. destruct k as [|k]; cbn [replicate app] in *.
  - rewrite Hr. by apply gives_ret.
  - change (next_in [ch_amp] (ch_amp :: replicate k ch_amp ++ r)) with true. cbv iota.
    eapply gives_bind; [by apply gives_symbol|]. intros tw s2 [_ H2].
    eapply gives_bind; [by apply IH|]. intros k' s3 [-> H3]. by apply gives_ret.
Qed.

(** what may follow a line, and a pipe line *)
Definition line_end (r : list Z) : Prop := next r = None ∨ next r = Some ch_close.
Definition pipe_end (r : list Z) : Prop := line_end r ∨ next r = Some ch_amp ∨ next r = Some ch_semi.

Lemma pipe_end_stops r : pipe_end r → stops r ∧ next_in [ch_bar] r = false.
Proof. unfold pipe_end, line_end, stops, next_in. intros [[-> | ->]|[-> | ->]]; (split; [|done]); by (left + right). Qed.
Lemma line_end_not r : line_end r → next_in [ch_amp] r = false ∧ next_in [ch_semi] r = false.
Proof. unfold line_end, next_in. by intros [-> | ->]. Qed.
Lemma amps_end k r : line_end r ∨ next r = Some ch_semi → pipe_end (replicate k ch_amp ++ r).
Proof. unfold pipe_end. destruct k; cbn; [tauto|]. intros _. right. by left. Qed.

Definition line_ok n : Prop := ∀ l s r, line_wf l → line_end r → at_ s (show l ++ r) →
  gives (parseline len n) s (λ c s', slices line c = meaning l ∧ at_ s' r).
Definition pipe_ok n : Prop := ∀ p s r, pipe_wf p → pipe_end r → at_ s (show_pipe p ++ r) →
  gives (parsepipe len n) s (λ c s', slices line c = meaning_pipe p ∧ at_ s' r).
Definition exec_ok n : Prop := ∀ x s r, exec_wf x → stops r → at_ s (show_exec x ++ r) →
  gives (parseexec len n) s (λ c s', slices line c = meaning_exec x ∧ at_ s' r).
Definition block_ok n : Prop := ∀ l rs s r, line_wf l → redirs_wf rs → stops r →
  at_ s (show_exec (XBlock l rs) ++ r) →
  gives (parseblock len n) s (λ c s', slices line c = meaning_exec (XBlock l rs) ∧ at_ s' r).

(** a line is a pipe line, its [&]s and, after a [;], another line *)
Definition line_pipe (l : gline) : gpipe := match l with LLast p _ | LThen p _ _ => p end.
Definition line_amps (l : gline) : nat := match l with LLast _ k | LThen _ k _ => k end.
Definition line_rest (l : gline) (r : list Z) : list Z :=
  match l with LLast _ _ => r | LThen _ _ l => ch_semi :: show l ++ r end.

Lemma show_line l r : show l ++ r = show_pipe (line_pipe l) ++ replicate (line_amps l) ch_amp ++ line_rest l r.
Proof. destruct l; cbn; by rewrite <- !(assoc_L (++)). Qed.
Lemma line_rest_end l r :
  line_end r → next_in [ch_amp] (line_rest l r) = false ∧ (line_end (line_rest l r) ∨ next (line_rest l r) = Some ch_semi).
Proof. intros Hr. destruct l; cbn; [pose proof (line_end_not r Hr); naive_solver|by split; [|right]]. Qed.
Lemma line_wf_pipe l : line_wf l → pipe_wf (line_pipe l).
Proof. destruct l; cbn; tauto. Qed.

Lemma line_step n : line_ok n → pipe_ok n → line_ok (S n).
Proof.
  intros IHl IHp l s r Hl Hr Hs. cbn [parseline]. rewrite show_line in Hs.
  destruct (line_rest_end l r Hr) as [Hr1 Hr2].
  eapply gives_bind; [apply (IHp _ _ _ (line_wf_pipe l Hl) (amps_end _ _ Hr2) Hs)|]. intros c s1 [E1 H1].
  eapply gives_bind; [by apply gives_parse_backs, H1|]. intros k' s2 [-> H2].
  eapply gives_bind; [by apply gives_peek|]. intros b s3 [-> H3].
  destruct l as [p k|p k l']; cbn [line_rest line_amps line_pipe meaning] in *.
  - rewrite (proj2 (line_end_not r Hr)). apply gives_ret. split; [|done]. by rewrite slices_backcmds, E1.
  - change (next_in [ch_semi] (ch_semi :: show l' ++ r)) with true. cbv iota.
    eapply gives_bind; [by apply gives_symbol|]. intros tw s4 [_ H4].
    eapply gives_bind; [by apply (IHl l' _ r); [apply Hl|..]|]. intros c' s5 [E5 H5]. apply gives_ret. split; [|done].
    cbn [slices]. by rewrite slices_backcmds, E1, E5.
Qed.

Lemma pipe_step n : pipe_ok n → exec_ok n → pipe_ok (S n).
Proof.
  intros IHp IHx p s r Hp Hr Hs. cbn [parsepipe]. destruct (pipe_end_stops r Hr) as [Hr1 Hr2].
  destruct p as [x|x p]; cbn [show_pipe pipe_wf] in *; [|rewrite <- (assoc_L (++)) in Hs].
  - eapply gives_bind; [by apply (IHx x)|]. intros c s1 [E1 H1].
    eapply gives_bind; [by apply gives_peek|]. intros b s2 [-> H2]. rewrite Hr2. by apply gives_ret.
  - eapply gives_bind; [eapply (IHx x _ _ (proj1 Hp)); [|exact Hs]; by right|]. intros c s1 [E1 H1].
    eapply gives_bind; [by apply gives_peek|]. intros b s2 [-> H2].
    change (next_in [ch_bar] ((ch_bar :: show_pipe p) ++ r)) with true. cbv iota.
    eapply gives_bind; [by apply gives_symbol|]. intros tw s3 [_ H3].
    eapply gives_bind; [by apply (IHp p _ r (proj2 Hp))|]. intros c' s4 [E4 H4]. apply gives_ret.
    split; [|done]. cbn [slices meaning_pipe]. by rewrite E1, E4.
Qed.

Lemma words_start first args r :
  redirs_wf first → Forall (λ a, word_ok a.1 ∧ redirs_wf a.2) args → stops r →
  next_in [ch_lt; ch_gt] ((args ≫= show_arg) ++ r) = false ∧
  next_in [ch_open] (show_redirs first ++ (args ≫= show_arg) ++ r) = false.
Proof.
  intros Hf Hargs Hr. destruct args as [|[y rs] args].
  - split; [by apply stops_arrows|]. destruct first as [|[[] f] first]; [by apply stops_open|done..].
  - apply Forall_cons in Hargs as [[Hy _] _]. cbn [fst] in Hy. rewrite show_args_cons. split.
    + apply next_word; [done|apply arrows_symbols].
    + destruct first as [|[[] f] first]; [|done..]. apply next_word; [done|].
      intros c. unfold symbols. rewrite !elem_of_cons. tauto.
Qed.

Lemma exec_step n : block_ok n → exec_ok (S n).
Proof.
  intros IHb x s r Hx Hr Hs. cbn [parseexec].
  eapply gives_bind; [by apply gives_peek|]. intros b s1 [-> H1].
  destruct x as [first args|l after]; cbn [exec_wf] in Hx.
  - destruct Hx as (Hf & Hargs & Hn). destruct (words_start first args r Hf Hargs Hr) as [Hn1 Hn2].
    cbn [show_exec] in *. rewrite <- (assoc_L (++)) in *. rewrite Hn2.
    eapply gives_bind; [by apply (gives_parseredirs _ first)|]. intros rs s2 [E2 H2].
    eapply gives_bind; [by apply (gives_parse_args _ args)|]. intros [ws rs'] s3 (E3 & E4 & H3).
    apply gives_ret. split; [|done]. rewrite slices_redircmd, !fmap_app, E2, E4. cbn [slices meaning_exec].
    by rewrite E3, fmap_app.
  - change (next_in [ch_open] (show_exec (XBlock l after) ++ r)) with true. cbv iota.
    destruct Hx. by apply IHb.
Qed.

Lemma block_step n : line_ok n → block_ok (S n).
Proof.
  intros IHl l rs s r Hl Hrs Hr Hs. cbn [parseblock].
  eapply gives_bind; [by apply gives_peek|]. intros b s1 [-> H1].
  change (next_in [ch_open] (show_exec (XBlock l rs) ++ r)) with true. cbn [negb].
  cbn [show_exec app] in H1. rewrite <- (assoc_L (++)) in H1.
  eapply gives_bind; [by apply gives_symbol|]. intros tw s2 [_ H2].
  eapply gives_bind; [eapply (IHl l _ _ Hl); [|exact H2]; by right|]. intros c s3 [E3 H3].
  eapply gives_bind; [by apply gives_peek|]. intros b s4 [-> H4].
  change (next_in [ch_close] ((ch_close :: show_redirs rs) ++ r)) with true. cbn [negb].
  eapply gives_bind; [by apply gives_symbol|]. intros tw' s5 [_ H5].
  eapply gives_bind; [by apply (gives_parseredirs _ rs); [|apply stops_arrows|]|]. intros rs' s6 [E6 H6].
  apply gives_ret. split; [|done]. cbn [meaning_exec]. by rewrite slices_redircmd, E3, E6.
Qed.

Lemma gives_parse n : line_ok n ∧ pipe_ok n ∧ exec_ok n ∧ block_ok n.
Proof.
  induction n as [|n (IHl & IHp & IHx & IHb)]; [done|].
  split_and!; [by apply line_step|by apply pipe_step|by apply exec_step|by apply block_step].
Qed.
End round.

Scheme gline_rec2 := Induction for gline Sort Prop
with gpipe_rec2 := Induction for gpipe Sort Prop
with gexec_rec2 := Induction for gexec Sort Prop.
Combined Scheme grammar_ind from gline_rec2, gpipe_rec2, gexec_rec2.

(** no byte of a line is 0 or ends it *)
Abbreviation nz := (Forall (λ c : Z, c ≠ 0 ∧ c ≠ 10 ∧ c ≠ 13)).

Lemma show_word_nz w : word_ok w → nz (show_word w).
Proof.
  intros [_ Hw]. apply Forall_app. split; [|by repeat constructor]. eapply Forall_impl; [done|]. cbn beta. intros c [Hc ?].
  split_and!; [done| |]; intros ->; by vm_compute in Hc.
Qed.
Lemma show_redirs_nz rs : redirs_wf rs → nz (show_redirs rs).
Proof.
  induction 1 as [|[a f] rs Hf _ IH]; [constructor|]. cbn. apply Forall_app. split; [|done].
  apply Forall_app. split; [destruct a; by repeat constructor|by apply show_word_nz].
Qed.

Lemma show_nz :
  (∀ l, line_wf l → nz (show l)) ∧ (∀ p, pipe_wf p → nz (show_pipe p)) ∧ (∀ x, exec_wf x → nz (show_exec x)).
Proof.
  assert (Hr : ∀ k, nz (replicate k ch_amp)) by (intros; by apply Forall_replicate).
  apply grammar_ind; cbn; intros; rewrite ?Forall_app, ?Forall_cons, ?Forall_app, ?Forall_cons.
  - auto.
  - naive_solver.
  - auto.
  - naive_solver.
  - destruct H as (Hf & Ha & _). split; [by apply show_redirs_nz|]. induction Ha as [|[w rs] args [Hw Hrs] _ IH]; [constructor|].
    cbn. apply Forall_app. split; [|done]. apply Forall_app. split; [by apply show_word_nz|by apply show_redirs_nz].
  - destruct H0. split; [done|]. split; [auto|]. split; [done|by apply show_redirs_nz].
Qed.

(** white space *)
Abbreviation white := (Forall (λ c : Z, is_in whitespace c = true)).

Lemma skip_white_all ws : white ws → skip_white ws = [].
Proof. induction 1 as [|c ws Hc _ IH]; [done|]. cbn. by rewrite Hc. Qed.

Lemma parse_show l ws : line_wf l → white ws → ∃ c b, parsecmd (show l ++ ws) = Ret c b ∧ strings b c = meaning l.
Proof.
  intros Hl Hws. set (line := show l ++ ws). destruct (gives_parse line (parse_fuel (length line))) as (H & _).
  destruct (total_parse (length line) (parse_fuel (length line)) line) as [Ht _].
  assert (Hend : line_end ws) by (left; unfold next; by rewrite skip_white_all).
  specialize (H l line ws Hl Hend (conj (ex_intro _ [] eq_refl) eq_refl)). specialize (Ht (le_n _)). unfold gives, total in *.
  destruct (parseline _ _ line) as [c s|msg| |] eqn:E; try done. destruct H as [Hc [_ Hs]]. rewrite (skip_white_all ws Hws) in Hs.
  assert (Hp : parsecmd line = Ret c (nulterminate c line)) by (unfold parsecmd; by rewrite E, Hs).
  eexists _, _. split; [done|]. rewrite <- Hc. eapply parsecmd_strings_ok, Hp.
  intros [H0|H0]%elem_of_app.
  - apply (proj1 (Forall_forall _ _) (proj1 show_nz l Hl)) in H0 as [? _]. done.
  - by eapply (proj1 (Forall_forall _ _) Hws) in H0.
Qed.

(** C7: Printing a command of the shell's grammar and parsing the line gives the
    command back: the same program arguments, redirections in the same nesting and
    with the modes and descriptors of their arrows, pipes, lists and backgrounding,
    with every string read from the line that [nulterminate] wrote into.  White space
    may follow, as the end of a line that was typed. *)
Theorem parse_show_roundtrip l ws :
  line_wf l → white ws → ∃ c b, parsecmd (show l ++ ws) = Ret c b ∧ strings b c = meaning l.
Proof. apply parse_show. Qed.

(** [(a<b)&;c|d] *)
Definition example_line : gline :=
  LThen (PLast (XBlock (LLast (PLast (XWords [] [([97], [{| sr_arrow := In; sr_file := [98] |}])])) 0) [])) 1
        (LLast (PBar (XWords [] [([99], [])]) (PLast (XWords [] [([100], [])]))) 0).

Lemma parse_show_roundtrip_witness :
  ∃ c b, parsecmd (show example_line ++ [10]) = Ret c b ∧ strings b c = meaning example_line.
Proof.
  apply (parse_show_roundtrip example_line [10]); [|by repeat constructor].
  repeat split; try (by vm_compute); repeat constructor; by vm_compute.
Defined.
