(* ===== verification/ShRun.v ===== *)
(** * sh.c: running commands

    What the processes of a command do, with their tables of open files.  A process forks
    children, waits, executes a program or exits; the programs run concurrently, so that
    the behaviour is the tree of these actions, with the table of open files where it
    matters.  Pipes are numbered as they are made.  The environment says which files can be
    opened and which directories entered while a line is run; [fork] succeeds. *)

From S2P Require Import Prelude Printf Sh ShSpec ShRound.

(** ** Open files of a process *)

(** what a descriptor refers to *)
Inductive fref :=
  | Inherited (n : nat)
  | Opened (file : list Z) (mode : Z)
  | PipeR (n : nat)
  | PipeW (n : nat).

Definition NOFILE : nat := 16.
Abbreviation fdtable := (list (option fref)).

(** the lowest free descriptor, as the kernel allocates it *)
Fixpoint fdalloc (fds : fdtable) (r : fref) : option (nat * fdtable) :=
  match fds with
  | [] => None
  | None :: fds => Some (0%nat, Some r :: fds)
  | Some x :: fds =>
      match fdalloc fds r with
      | None => None
      | Some (i, fds) => Some (S i, Some x :: fds)
      end
  end.

(** it is the first free entry *)
Lemma fdalloc_first fds r :
  fdalloc fds r = (λ '(i, _), (i, <[i := Some r]> fds)) <$> list_find (λ x, x = None) fds.
Proof.
  induction fds as [|[x|] fds IH]; [done| |done]. cbn [fdalloc list_find]. rewrite decide_False by done. rewrite IH.
  by destruct (list_find _ fds) as [[]|].
Qed.

Definition close (fd : nat) (fds : fdtable) : fdtable := <[fd := None]> fds.

(** -1 where there is nothing to duplicate or no room; the callers do not look *)
Definition dup (fd : nat) (fds : fdtable) : fdtable :=
  match fds !! fd with
  | Some (Some r) => match fdalloc fds r with Some (_, fds') => fds' | None => fds end
  | _ => fds
  end.

Definition pipe (n : nat) (fds : fdtable) : option (nat * nat * fdtable) :=
  match fdalloc fds (PipeR n) with
  | None => None
  | Some (p0, fds1) =>
      match fdalloc fds1 (PipeW n) with
      | None => None
      | Some (p1, fds2) => Some (p0, p1, fds2)
      end
  end.

(** ** runcmd *)

Inductive behaviour :=
  | BExec (argv : list (list Z)) (fds : fdtable)
  | BExit
  | BMessage (text : string) (arg : list Z)   (* on descriptor 2, then exit *)
  | BFork (child parent : behaviour)
  | BWait (fds : fdtable) (k : behaviour).

Section run.
  (** the strings in the line, and the files that can be opened *)
  Context (str : span → list Z) (openable : list Z → Z → bool).

(** the pipes are numbered from [n]; the number of the next one comes back *)
Fixpoint runcmd (c : cmd) (fds : fdtable) (n : nat) : behaviour * nat :=
  match c with
  | EXEC [] => (BExit, n)
  | EXEC argv => (BExec (str <$> argv) fds, n)
  | REDIR c r =>
      let fds := close (Z.to_nat (rd_fd r)) fds in
      let file := str (rd_file r) in
      if openable file (rd_mode r) then
        match fdalloc fds (Opened file (rd_mode r)) with
        | Some (_, fds) => runcmd c fds n
        | None => (BMessage "open %s failed" file, n)
        end
      else (BMessage "open %s failed" file, n)
  | LIST lc rc =>
      let '(l, n) := runcmd lc fds n in
      let '(r, n) := runcmd rc fds n in
      (BFork l (BWait fds r), n)
  | PIPE lc rc =>
      match pipe n fds with
      | None => (BMessage "pipe" [], n)
      | Some (p0, p1, fds) =>
          let '(l, n) := runcmd lc (close p1 (close p0 (dup p1 (close 1 fds)))) (S n) in
          let '(r, n) := runcmd rc (close p1 (close p0 (dup p0 (close 0 fds)))) n in
          let fds := close p1 (close p0 fds) in
          (BFork l (BFork r (BWait fds (BWait fds BExit))), n)
      end
  | BACK c =>
      let '(b, n) := runcmd c fds n in
      (BFork b BExit, n)
  end.
End run.

(** ** main *)

Definition console : list Z := [99; 111; 110; 115; 111; 108; 101].
Definition O_RDWR : Z := 0x002.

(** the loop that opens the console until that fails or a descriptor above 2 comes back *)
Fixpoint open_console (openable : list Z → Z → bool) (fuel : nat) (fds : fdtable) : option fdtable :=
  match fuel with
  | O => None
  | S fuel =>
      if openable console O_RDWR then
        match fdalloc fds (Opened console O_RDWR) with
        | None => Some fds
        | Some (fd, fds) => if decide (3 ≤ fd)%nat then Some (close fd fds) else open_console openable fuel fds
        end
      else Some fds
  end.

(** a line of input: what the loop does with it *)
Inductive action :=
  | AChdir (path : list Z) (ok : bool)   (* with a message unless [ok] *)
  | ARun (b : behaviour).                (* in a child, for which the shell waits *)

Definition nbuf : Z := 100.

(** what can be read from descriptor 0 *)
Definition readable (fds : fdtable) (input : list Z) : list Z := match fds !! 0%nat with Some (Some _) => input | _ => [] end.

(** the line as a string, and the input that is left *)
Definition getcmd (fds : fdtable) (input : list Z) : option (list Z * list Z) :=
  let '(buf, rest) := gets_str nbuf (readable fds input) in
  match cstring buf with [] => None | line => Some (line, rest) end.

Section main.
  (** the files that can be opened and the directories that can be entered, at the start (0)
      and while line 1, 2, ... is run *)
  Context (openable : nat → list Z → Z → bool) (dirs : nat → list Z → bool).

(** no result where the parser does not return *)
Definition main_line (i : nat) (line : list Z) (fds : fdtable) (n : nat) : option (action * nat) :=
  if decide (take 3 line = [99; 100; 32]) then
    let path := drop 3 (removelast line) in Some (AChdir path (dirs i path), n)
  else
    match parsecmd line with
    | Ret c b => let '(r, n) := runcmd (string_at b) (openable i) c fds n in Some (ARun r, n)
    | Panic msg => Some (ARun (BMessage msg []), n)
    | _ => None
    end.

Fixpoint main_loop (fuel i : nat) (input : list Z) (fds : fdtable) (n : nat) : option (list action) :=
  match fuel with
  | O => None
  | S fuel =>
      match getcmd fds input with
      | None => Some []
      | Some (line, input) =>
          '(a, n) ← main_line i line fds n;
          l ← main_loop fuel (S i) input fds n;
          Some (a :: l)
      end
  end.

Definition main (input : list Z) (fds : fdtable) : option (list action) :=
  fds ← open_console (openable 0%nat) 4 fds;
  main_loop (S (length input)) 1 input fds 0.
End main.

(** the commands that a behaviour executes, and the tables with which a process waits *)
Fixpoint execs (b : behaviour) : list (list (list Z) * fdtable) :=
  match b with
  | BExec argv fds => [(argv, fds)]
  | BExit | BMessage _ _ => []
  | BFork c p => execs c ++ execs p
  | BWait _ k => execs k
  end.

Fixpoint waits (b : behaviour) : list fdtable :=
  match b with
  | BExec _ _ | BExit | BMessage _ _ => []
  | BFork c p => waits c ++ waits p
  | BWait fds k => fds :: waits k
  end.

(** ** Three descriptors *)

(** descriptors 0, 1 and 2 are open, the others are not *)
Definition three (fds : fdtable) : Prop := ∃ a b c, fds = [Some a; Some b; Some c] ++ replicate 13 None.

(** redirections are of the standard descriptors *)
Fixpoint std_redirs (c : cmd) : Prop :=
  match c with
  | EXEC _ => True
  | REDIR c r => 0 ≤ rd_fd r ≤ 2 ∧ std_redirs c
  | PIPE l r | LIST l r => std_redirs l ∧ std_redirs r
  | BACK c => std_redirs c
  end.

Lemma three_redir fds (fd : nat) r : three fds → (fd ≤ 2)%nat → ∃ fds', fdalloc (close fd fds) r = Some (fd, fds') ∧ fds' = <[fd := Some r]> fds ∧ three fds'.
Proof.
  intros (a & b & c & ->) Hfd. destruct fd as [|[|[|]]]; [..|lia]; (eexists; split; [reflexivity|split; [reflexivity|]]); by repeat eexists.
Qed.

(** the ends of a pipe are descriptors 3 and 4, and end up as the output and the input *)
Lemma three_pipe n fds : three fds → ∃ fds2, pipe n fds = Some (3%nat, 4%nat, fds2) ∧
  close 4 (close 3 (dup 4 (close 1 fds2))) = <[1%nat := Some (PipeW n)]> fds ∧
  close 4 (close 3 (dup 3 (close 0 fds2))) = <[0%nat := Some (PipeR n)]> fds ∧ close 4 (close 3 fds2) = fds.
Proof. intros (a & b & c & ->). eexists. split; [reflexivity|]. by split_and!. Qed.

Lemma three_insert fds (i : nat) r : three fds → (i ≤ 2)%nat → three (<[i := Some r]> fds).
Proof. intros (a & b & c & ->) Hi. destruct i as [|[|[|]]]; [..|lia]; by repeat eexists. Qed.

Section run.
  Context (str : span → list Z) (openable : list Z → Z → bool).

Lemma runcmd_three c : ∀ fds n, std_redirs c → three fds →
  let b := (runcmd str openable c fds n).1 in Forall (λ x, three x.2) (execs b) ∧ Forall three (waits b).
Proof.
  induction c as [argv|c IH r|l IHl r IHr|l IHl r IHr|c IH]; intros fds n Hc Hf; cbn [runcmd std_redirs] in *.
  - destruct argv; cbn; [done|]. split; [by constructor|done].
  - destruct Hc as [Hr Hc]. destruct (openable _ _); [|done]. destruct (three_redir fds (Z.to_nat (rd_fd r)) (Opened (str (rd_file r)) (rd_mode r)) Hf) as (fds' & -> & _ & Hf'); [lia|].
    by apply IH.
  - destruct Hc as [Hl Hr]. destruct (three_pipe n fds Hf) as (fds2 & -> & E1 & E2 & E3). rewrite E1, E2, E3.
    specialize (IHl (<[1%nat:=Some (PipeW n)]> fds) (S n) Hl (three_insert fds 1 _ Hf ltac:(lia))). destruct (runcmd _ _ l _ _) as [bl nl].
    specialize (IHr (<[0%nat:=Some (PipeR n)]> fds) nl Hr (three_insert fds 0 _ Hf ltac:(lia))). destruct (runcmd _ _ r _ _) as [br nr]. cbn in *.
    destruct IHl, IHr. split; repeat (apply Forall_app; split; [done|]); by repeat constructor.
  - destruct Hc as [Hl Hr]. specialize (IHl fds n Hl Hf). destruct (runcmd _ _ l _ _) as [bl nl]. specialize (IHr fds nl Hr Hf).
    destruct (runcmd _ _ r _ _) as [br nr]. cbn in *. rewrite !Forall_app, Forall_cons. tauto.
  - specialize (IH fds n Hc Hf). destruct (runcmd _ _ c _ _) as [b n']. cbn in *. rewrite !app_nil_r. tauto.
Qed.

(** a pipeline of simple commands *)
Fixpoint pipeline (argv : list span) (rest : list (list span)) : cmd :=
  match rest with
  | [] => EXEC argv
  | a :: rest => PIPE (EXEC argv) (pipeline a rest)
  end.

(** the commands with their input and output connected through pipes [n], [n + 1], ... *)
Fixpoint wired (argv : list span) (rest : list (list span)) (fds : fdtable) (n : nat) : list (list (list Z) * fdtable) :=
  match rest with
  | [] => [(str <$> argv, fds)]
  | a :: rest => (str <$> argv, <[1%nat := Some (PipeW n)]> fds) :: wired a rest (<[0%nat := Some (PipeR n)]> fds) (S n)
  end.

Lemma pipeline_execs rest : ∀ argv fds n, three fds → argv ≠ [] → Forall (λ a, a ≠ []) rest →
  execs (runcmd str openable (pipeline argv rest) fds n).1 = wired argv rest fds n.
Proof.
  induction rest as [|a rest IH]; intros argv fds n Hf Ha Hr; cbn [pipeline wired runcmd]; [by destruct argv|].
  apply Forall_cons in Hr as [Ha' Hr]. destruct (three_pipe n fds Hf) as (fds2 & -> & E1 & E2 & E3). rewrite E1, E2, E3.
  specialize (IH a (<[0%nat:=Some (PipeR n)]> fds) (S n) (three_insert fds 0 _ Hf ltac:(lia)) Ha' Hr).
  destruct argv as [|x argv]; [done|]. cbn [runcmd]. destruct (runcmd _ _ (pipeline a rest) _ _) as [b n']. cbn [fst] in IH. cbn [fst execs]. by rewrite IH, app_nil_r.
Qed.
End run.

(** ** The parser's redirections *)

Section parser.
  Context (len : nat).

Definition std_redir (r : redir) : Prop := 0 ≤ rd_fd r ≤ 2.

(** past an action whose result does not matter *)
Ltac skip := apply rets_bind, rets_any; intros.

Lemma std_parseredirs fuel : ∀ s, rets (parseredirs len fuel) s (λ rs _, Forall std_redir rs).
Proof.
  induction fuel as [|fuel IH]; intros s; cbn [parseredirs]; [by intros ? ?|]. skip. case_match; [|apply rets_ret; constructor].
  apply rets_bind, rets_any. intros [t w] ?. apply rets_bind, rets_any. intros [t' w'] ?. case_bool_decide; cbn [negb]; [|apply rets_panic].
  eapply rets_bind, rets_mono; [apply IH|]. intros rs ? Hrs. apply rets_ret. constructor; [|done]. unfold std_redir. cbn. case_bool_decide; lia.
Qed.

Lemma std_parse_args fuel : ∀ argc s, rets (parse_args len fuel argc) s (λ x _, Forall std_redir x.2).
Proof.
  induction fuel as [|fuel IH]; intros argc s; cbn [parse_args]; [by intros ? ?|]. skip. case_match; [apply rets_ret; constructor|].
  apply rets_bind, rets_any. intros [t w] ?. case_match; try apply rets_panic; [apply rets_ret; constructor|]. case_match; [apply rets_panic|].
  eapply rets_bind, rets_mono; [apply std_parseredirs|]. intros rs ? Hrs. eapply rets_bind, rets_mono; [apply IH|]. intros [ws rs'] ? Hrs'.
  apply rets_ret. by apply Forall_app.
Qed.

Lemma std_redircmd c rs : std_redirs c → Forall std_redir rs → std_redirs (redircmd c rs).
Proof. intros Hc Hrs. revert c Hc. induction Hrs as [|r rs Hr _ IH]; intros c Hc; cbn; [done|]. by apply IH. Qed.

Lemma std_backcmds k c : std_redirs c → std_redirs (backcmds k c).
Proof. intros Hc. by induction k. Qed.

Lemma std_parse n : ∀ s, let Post c (_ : list Z) := std_redirs c in
  rets (parseline len n) s Post ∧ rets (parsepipe len n) s Post ∧ rets (parseexec len n) s Post ∧ rets (parseblock len n) s Post.
Proof.
  induction n as [|n IH]; intros s Post; [by split_and!; intros ? ?|]. split_and!.
  - cbn [parseline]. eapply rets_bind, rets_mono; [apply IH|]. intros c ? Hc. skip. skip. case_match; [|by apply rets_ret, std_backcmds].
    skip. eapply rets_bind, rets_mono; [apply IH|]. intros r ? Hr. apply rets_ret. split; [by apply std_backcmds|done].
  - cbn [parsepipe]. eapply rets_bind, rets_mono; [apply IH|]. intros c ? Hc. skip. case_match; [|by apply rets_ret].
    skip. eapply rets_bind, rets_mono; [apply IH|]. intros r ? Hr. by apply rets_ret.
  - cbn [parseexec]. skip. case_match; [apply IH|]. eapply rets_bind, rets_mono; [apply std_parseredirs|]. intros rs ? Hrs.
    eapply rets_bind, rets_mono; [apply std_parse_args|]. intros [ws rs'] ? Hrs'. apply rets_ret, std_redircmd; [done|by apply Forall_app].
  - cbn [parseblock]. skip. case_match; [apply rets_panic|]. skip. eapply rets_bind, rets_mono; [apply IH|]. intros c ? Hc. skip.
    case_match; [apply rets_panic|]. skip. eapply rets_bind, rets_mono; [apply std_parseredirs|]. intros rs ? Hrs. by apply rets_ret, std_redircmd.
Qed.
End parser.

Lemma parsecmd_std line c b : parsecmd line = Ret c b → std_redirs c.
Proof.
  unfold parsecmd. destruct (parseline _ _ line) as [c' s| | |] eqn:E; try done. destruct (skip_white s); [|done]. intros [= <- _].
  destruct (std_parse (length line) (parse_fuel (length line)) line) as [H _]. by apply (H c' s).
Qed.

(** ** What the shell promises *)

(** the descriptors above 2 are closed *)
Definition low_fds (fds : fdtable) : Prop := ∃ x y z, fds = [x; y; z] ++ replicate 13 None.

(** the console can be opened, or is not needed *)
Definition has_three (openable : list Z → Z → bool) (fds : fdtable) : Prop := openable console O_RDWR = true ∨ three fds.

Lemma open_console_three openable fds : low_fds fds →
  ∃ fds', open_console openable 4 fds = Some fds' ∧ (has_three openable fds → three fds').
Proof.
  intros (x & y & z & ->). unfold has_three. cbn [open_console]. destruct (openable console O_RDWR).
  - destruct x, y, z; (eexists; split; [reflexivity|]); intros _; by repeat eexists.
  - eexists. split; [done|]. by intros [?|?].
Qed.

(** a program that the shell runs has exactly descriptors 0, 1 and 2 open, in any
    line of nested pipes, lists, background commands and redirections, and the shell's
    processes wait with no others: no end of a pipe stays open in a process that does not
    use it, so that a reader sees the end of its input when the writer exits.  It starts
    from any descriptors below 3 that the shell itself is started with. *)
Theorem runcmd_three_fds fds line c b str openable n :
  low_fds fds → has_three openable fds → parsecmd line = Ret c b →
  ∃ fds', open_console openable 4 fds = Some fds' ∧
    Forall (λ x, three x.2) (execs (runcmd str openable c fds' n).1) ∧ Forall three (waits (runcmd str openable c fds' n).1).
Proof.
  intros Hf H3 Hp. destruct (open_console_three openable fds Hf) as (fds' & Ho & Ht). exists fds'. split; [done|].
  apply runcmd_three; [by eapply parsecmd_std|by apply Ht].
Qed.

Lemma three_lookup fds (i : nat) : three fds → (i ≤ 2)%nat → ∃ r, fds !! i = Some (Some r).
Proof. intros (a & b & c & ->) Hi. destruct i as [|[|[|]]]; [..|lia]; by eexists. Qed.

Lemma wired_ends str rest : ∀ argv fds n, three fds →
  let ps := wired str argv rest fds n in
  ps.*1 = map (map str) (argv :: rest) ∧
  (∀ i p q, ps !! i = Some p → ps !! S i = Some q → p.2 !! 1%nat = Some (Some (PipeW (n + i))) ∧ q.2 !! 0%nat = Some (Some (PipeR (n + i)))) ∧
  (∀ p, head ps = Some p → p.2 !! 0%nat = fds !! 0%nat) ∧ (∀ p, last ps = Some p → p.2 !! 1%nat = fds !! 1%nat).
Proof.
  induction rest as [|a rest IH]; intros argv fds n Hf; cbn [wired]; cbn zeta.
  { split_and!; [done|by intros [|i]|by intros p [= <-]|by intros p [= <-]]. }
  assert (Hlen : (2 ≤ length fds)%nat) by (destruct Hf as (? & ? & ? & ->); cbn; lia).
  assert (E1 : <[1%nat := Some (PipeW n)]> fds !! 1%nat = Some (Some (PipeW n))) by (apply list_lookup_insert_eq; lia).
  destruct (IH a (<[0%nat := Some (PipeR n)]> fds) (S n) (three_insert fds 0 _ Hf ltac:(lia))) as (IH1 & IH2 & IH3 & IH4).
  destruct (wired str a rest _ (S n)) as [|q0 ps] eqn:E; [by destruct rest|]. split_and!.
  - cbn in *. by rewrite IH1.
  - intros [|i] p q; cbn.
    + intros [= <-] [= <-]. rewrite Nat.add_0_r. split; [done|]. rewrite (IH3 q0 eq_refl). apply list_lookup_insert_eq. lia.
    + intros Hp Hq. replace (n + S i)%nat with (S n + i)%nat by lia. by apply IH2.
  - intros p [= <-]. cbn. by apply list_lookup_insert_ne.
  - intros p Hp. rewrite last_cons_cons in Hp. rewrite (IH4 p Hp). by apply list_lookup_insert_ne.
Qed.

(** in a pipeline each program's output is the input of the next: the descriptors 1
    and 0 of neighbours are the two ends of the same pipe, and the first input and the
    last output are those of the shell. *)
Theorem pipeline_wired str openable argv rest fds n :
  three fds → argv ≠ [] → Forall (λ a, a ≠ []) rest →
  let ps := execs (runcmd str openable (pipeline argv rest) fds n).1 in
  ps.*1 = map (map str) (argv :: rest) ∧
  (∀ i p q, ps !! i = Some p → ps !! S i = Some q → p.2 !! 1%nat = Some (Some (PipeW (n + i))) ∧ q.2 !! 0%nat = Some (Some (PipeR (n + i)))) ∧
  (∀ p, head ps = Some p → p.2 !! 0%nat = fds !! 0%nat) ∧ (∀ p, last ps = Some p → p.2 !! 1%nat = fds !! 1%nat).
Proof. intros Hf Ha Hr. cbn zeta. rewrite (pipeline_execs _ _ _ _ _ _ Hf Ha Hr). by apply wired_ends. Qed.

(** ** A session *)

Section srun.
  Context (openable : list Z → Z → bool).

(** [runcmd] with the strings in place *)
Fixpoint srun (c : scmd) (fds : fdtable) (n : nat) : behaviour * nat :=
  match c with
  | SExec [] => (BExit, n)
  | SExec argv => (BExec argv fds, n)
  | SRedir c file mode fd =>
      let fds := close (Z.to_nat fd) fds in
      if openable file mode then
        match fdalloc fds (Opened file mode) with
        | Some (_, fds) => srun c fds n
        | None => (BMessage "open %s failed" file, n)
        end
      else (BMessage "open %s failed" file, n)
  | SList lc rc =>
      let '(l, n) := srun lc fds n in
      let '(r, n) := srun rc fds n in
      (BFork l (BWait fds r), n)
  | SPipe lc rc =>
      match pipe n fds with
      | None => (BMessage "pipe" [], n)
      | Some (p0, p1, fds) =>
          let '(l, n) := srun lc (close p1 (close p0 (dup p1 (close 1 fds)))) (S n) in
          let '(r, n) := srun rc (close p1 (close p0 (dup p0 (close 0 fds)))) n in
          let fds := close p1 (close p0 fds) in
          (BFork l (BFork r (BWait fds (BWait fds BExit))), n)
      end
  | SBack c =>
      let '(b, n) := srun c fds n in
      (BFork b BExit, n)
  end.

Lemma runcmd_strings b c fds n : runcmd (string_at b) openable c fds n = srun (strings b c) fds n.
Proof.
  revert fds n. induction c as [argv|c IH r|l IHl r IHr|l IHl r IHr|c IH]; intros fds n; cbn [runcmd strings srun].
  - by destruct argv.
  - destruct (openable _ _); [|done]. by destruct (fdalloc _ _) as [[? ?]|].
  - destruct (pipe n fds) as [[[p0 p1] fds']|]; [|done]. rewrite IHl. destruct (srun _ _ _). by rewrite IHr.
  - rewrite IHl. destruct (srun _ _ _). by rewrite IHr.
  - by rewrite IH.
Qed.

(** the programs of a command have three descriptors *)
Lemma srun_three l fds n : line_wf l → three fds → Forall (λ x, three x.2) (execs (srun (meaning l) fds n).1).
Proof.
  intros Hl Hf. destruct (parse_show l [] Hl) as (c & b & E & Hs); [constructor|]. rewrite <- Hs, <- runcmd_strings.
  apply runcmd_three; [by eapply parsecmd_std|done].
Qed.
End srun.

Section session.
  Context (openable : nat → list Z → Z → bool) (dirs : nat → list Z → bool).

(** a command that is typed as one line *)
Definition typed (l : gline) : list Z := show l ++ [10].

(** what the shell does for the commands typed from line [i] on: [cd] itself, the others in
    a child *)
Fixpoint session (i : nat) (ls : list gline) (fds : fdtable) (n : nat) : list action :=
  match ls with
  | [] => []
  | l :: ls =>
      if decide (take 3 (typed l) = [99; 100; 32]) then
        AChdir (drop 3 (show l)) (dirs i (drop 3 (show l))) :: session (S i) ls fds n
      else
        let '(b, n) := srun (openable i) (meaning l) fds n in ARun b :: session (S i) ls fds n
  end.

Definition fits (l : gline) : Prop := line_wf l ∧ Z.of_nat (length (typed l)) < nbuf.

Lemma gets_line room l rest : Forall (λ c, c ≠ 0 ∧ c ≠ 10 ∧ c ≠ 13) l → (length l < room)%nat → gets_loop room (l ++ 10 :: rest) = (l ++ [10], rest).
Proof.
  revert room. induction l as [|c l IH]; intros [|room] Hl Hr; cbn in Hr; try lia; [done|].
  apply Forall_cons in Hl as [(H0 & H1 & H2) Hl]. cbn [app gets_loop]. rewrite (proj2 (Z.eqb_neq c 10)), (proj2 (Z.eqb_neq c 13)) by done. cbn [orb].
  by rewrite IH by (done || lia).
Qed.

Lemma cstring_nz l : Forall (λ c, c ≠ 0) l → cstring l = l.
Proof. induction 1 as [|c l Hc _ IH]; [done|]. cbn. by rewrite (proj2 (Z.eqb_neq c 0)), IH. Qed.

Lemma readable_three fds input : three fds → readable fds input = input.
Proof. by intros (a & b & c & ->). Qed.

Lemma getcmd_typed l rest fds : fits l → three fds → getcmd fds (typed l ++ rest) = Some (typed l, rest).
Proof.
  intros (Hl & Hn) H3. pose proof (proj1 show_nz l Hl) as Hz. unfold getcmd, gets_str, typed in *. rewrite readable_three, <- app_assoc by done. cbn [app].
  rewrite length_app in Hn. cbn in Hn. unfold nbuf in *. rewrite gets_line by (done || lia). rewrite cstring_nz; [by destruct (show l)|].
  apply Forall_app. split; [|by repeat constructor]. eapply Forall_impl; [exact Hz|]. by intros c [? _].
Qed.

Lemma main_typed i l fds n : line_wf l → main_line openable dirs i (typed l) fds n =
  Some (if decide (take 3 (typed l) = [99; 100; 32]) then (AChdir (drop 3 (show l)) (dirs i (drop 3 (show l))), n)
        else let '(b, n) := srun (openable i) (meaning l) fds n in (ARun b, n)).
Proof.
  intros Hl. unfold main_line. case_decide; [unfold typed; by rewrite removelast_last|].
  destruct (parse_show l [10] Hl) as (c & b & E & Hs); [by repeat constructor|].
  unfold typed. rewrite E, runcmd_strings, Hs. by destruct (srun _ _ _ _).
Qed.

Lemma session_runs ls : ∀ i fds n fuel, Forall fits ls → three fds → (length ls < fuel)%nat →
  main_loop openable dirs fuel i (mjoin (typed <$> ls)) fds n = Some (session i ls fds n).
Proof.
  induction ls as [|l ls IH]; intros i fds n [|fuel] Hls H3 Hf; cbn in Hf; try lia.
  { cbn [main_loop fmap list_fmap mjoin list_join]. unfold getcmd. by rewrite readable_three. }
  apply Forall_cons in Hls as [Hl Hls]. cbn [main_loop fmap list_fmap mjoin list_join session]. rewrite getcmd_typed by done. rewrite main_typed by apply Hl.
  case_decide; [|destruct (srun _ _ _ _) as [b n']]; cbn [mbind option_bind]; by rewrite IH by (done || lia).
Qed.

Lemma session_three ls fds b : Forall fits ls → three fds → ∀ i n, ARun b ∈ session i ls fds n → Forall (λ x, three x.2) (execs b).
Proof.
  intros Hls Hf. induction Hls as [|l ls (Hl & _) _ IH]; intros i n; cbn [session]; [by intros ?%elem_of_nil|]. case_decide.
  { rewrite elem_of_cons. intros [?|Hb]; [done|by eapply IH]. }
  pose proof (srun_three (openable i) l fds n Hl Hf) as H3. destruct (srun _ (meaning l) fds n) as [b' n'] eqn:E.
  rewrite elem_of_cons. intros [[= ->]|Hb]; [done|]. by eapply IH.
Qed.

Lemma length_typed ls : (length ls ≤ length (mjoin (typed <$> ls)))%nat.
Proof.
  induction ls as [|l ls IH]; [done|]. change (mjoin (typed <$> l :: ls)) with (typed l ++ mjoin (typed <$> ls)).
  unfold typed at 1. rewrite !length_app. cbn [length]. lia.
Qed.

(** C8: A session with the shell.  It is started with any descriptors below 3, and can open
    the console where one of 0, 1 and 2 is missing.  With commands of its grammar typed one to
    a line, each shorter than the buffer, it enters the directory for a line that starts with
    "cd " and runs exactly the other commands, one after the other, each in a child for which
    it waits: their programs with their arguments, their redirections, pipes, lists and
    background commands, with exactly descriptors 0, 1 and 2 open in each program.  At the
    end of the input it exits. *)
Theorem shell_session fds ls : low_fds fds → has_three (openable 0%nat) fds → Forall fits ls →
  ∃ fds', open_console (openable 0%nat) 4 fds = Some fds' ∧ three fds' ∧
    main openable dirs (mjoin (typed <$> ls)) fds = Some (session 1 ls fds' 0) ∧
    ∀ b, ARun b ∈ session 1 ls fds' 0 → Forall (λ x, three x.2) (execs b).
Proof.
  intros Hf H3 Hls. destruct (open_console_three (openable 0%nat) fds Hf) as (fds' & Ho & Ht). specialize (Ht H3). exists fds'. split_and!; [done|done| |].
  - unfold main. rewrite Ho. cbn [mbind option_bind]. apply session_runs; [done|done|]. pose proof (length_typed ls). lia.
  - intros b. by apply session_three.
Qed.

(** the loop ends on every input *)
Lemma gets_shorter room input s rest : gets_loop room input = (s, rest) → (length rest + length s = length input)%nat.
Proof.
  revert input s. induction room as [|room IH]; intros input s; cbn [gets_loop]; [intros [= <- <-]; cbn; lia|].
  destruct input as [|c input]; [by intros [= <- <-]|]. destruct (_ || _); [intros [= <- <-]; cbn; lia|].
  destruct (gets_loop room input) as [s' r'] eqn:E. intros [= <- <-]. cbn. specialize (IH _ _ E). lia.
Qed.
Lemma getcmd_shorter fds input line rest : getcmd fds input = Some (line, rest) → (length rest < length input)%nat.
Proof.
  unfold getcmd, gets_str. destruct (gets_loop _ _) as [s r] eqn:E. destruct (cstring s) eqn:Ec; [done|]. intros [= <- <-].
  apply gets_shorter in E. destruct s; [done|]. assert (length (readable fds input) ≤ length input)%nat by (unfold readable; repeat case_match; cbn; lia). cbn in E. lia.
Qed.

Lemma main_line_returns i line fds n :
  ∃ a n', main_line openable dirs i line fds n = Some (a, n') ∧ (three fds → ∀ b, a = ARun b → Forall (λ x, three x.2) (execs b)).
Proof.
  unfold main_line. case_decide; [by eexists _, _|]. destruct (parsecmd_returns line) as [(c & b & E)|(msg & E)]; rewrite E.
  - pose proof (runcmd_three (string_at b) (openable i) c fds n (parsecmd_std _ _ _ E)) as H3.
    destruct (runcmd _ _ _ _ _) as [r n']. eexists _, _. split; [done|]. intros Hf ? [= <-]. by apply H3.
  - eexists _, _. split; [done|]. intros _ b [= <-]. constructor.
Qed.

Lemma main_loop_returns fuel : ∀ i input fds n, (length input < fuel)%nat →
  ∃ l, main_loop openable dirs fuel i input fds n = Some l ∧ (three fds → ∀ b, ARun b ∈ l → Forall (λ x, three x.2) (execs b)).
Proof.
  induction fuel as [|fuel IH]; intros i input fds n Hl; [lia|]. cbn [main_loop]. destruct (getcmd fds input) as [[line rest]|] eqn:Eg.
  - apply getcmd_shorter in Eg. destruct (main_line_returns i line fds n) as (a & n' & -> & Ha).
    destruct (IH (S i) rest fds n') as (l & E & Hb); [lia|]. cbn [mbind option_bind]. rewrite E. eexists. split; [done|].
    intros Hf b [Eb|Hin]%elem_of_cons; [by apply Ha|by apply Hb].
  - eexists. split; [done|]. by intros _ b ?%elem_of_nil.
Qed.

(** C28: The shell deals with every input, whatever its bytes: its parser returns or reports an
    error on every line, and its loop ends at the end of the input.  Where the console can be
    opened, or the shell is started with descriptors 0, 1 and 2, every program that it runs
    on the way, however pipes, lists, background commands and redirections are nested, has
    exactly descriptors 0, 1 and 2 open.  So no process keeps an end of a pipe that it does
    not use, and a reader sees the end of its input when the writer exits. *)
Theorem shell_total input fds : low_fds fds →
  ∃ l, main openable dirs input fds = Some l ∧
    (has_three (openable 0%nat) fds → ∀ b, ARun b ∈ l → Forall (λ x, three x.2) (execs b)).
Proof.
  intros Hf. destruct (open_console_three (openable 0%nat) fds Hf) as (fds' & Ho & H3). unfold main. rewrite Ho. cbn [mbind option_bind].
  destruct (main_loop_returns (S (length input)) 1 input fds' 0) as (l & E & Hl); [lia|]. exists l. split; [done|]. intros Hh. by apply Hl, H3.
Qed.
End session.

(** ** Witnesses *)

Definition fds0 : fdtable := [Some (Inherited 0); Some (Inherited 1); Some (Inherited 2)] ++ replicate 13 None.

(** "ls|wc" *)
Definition line0 : list Z := [108; 115; 124; 119; 99].

(** started with the keyboard only *)
Definition fds1 : fdtable := [Some (Inherited 0); None; None] ++ replicate 13 None.

Lemma runcmd_three_fds_witness :
  ∃ fds', open_console (λ _ _, true) 4 fds1 = Some fds' ∧
    Forall (λ x, three x.2) (execs (runcmd (λ _, []) (λ _ _, true) (PIPE (EXEC [(0, 2)%nat]) (EXEC [(3, 5)%nat])) fds' 0).1) ∧
    Forall three (waits (runcmd (λ _, []) (λ _ _, true) (PIPE (EXEC [(0, 2)%nat]) (EXEC [(3, 5)%nat])) fds' 0).1).
Proof.
  apply (runcmd_three_fds fds1 line0 _ [108; 115; 0; 119; 99]); [by repeat eexists|by left|vm_compute; reflexivity].
Defined.

Lemma pipeline_wired_witness :
  let ps := execs (runcmd (λ _, []) (λ _ _, true) (pipeline [(0, 2)%nat] [[(3, 5)%nat]]) fds0 0).1 in
  ps.*1 = [[[]]; [[]]] ∧
  (∀ i p q, ps !! i = Some p → ps !! S i = Some q → p.2 !! 1%nat = Some (Some (PipeW (0 + i))) ∧ q.2 !! 0%nat = Some (Some (PipeR (0 + i)))) ∧
  (∀ p, head ps = Some p → p.2 !! 0%nat = fds0 !! 0%nat) ∧ (∀ p, last ps = Some p → p.2 !! 1%nat = fds0 !! 1%nat).
Proof.
  apply (pipeline_wired (λ _, []) (λ _ _, true) [(0, 2)%nat] [[(3, 5)%nat]] fds0 0); [by repeat eexists|done|by repeat constructor].
Defined.

Lemma shell_total_witness :
  ∃ l, main (λ _ _ _, true) (λ _ _, true) (line0 ++ [10]) fds1 = Some l ∧
    (has_three (λ _ _, true) fds1 → ∀ b, ARun b ∈ l → Forall (λ x, three x.2) (execs b)).
Proof. apply (shell_total (λ _ _ _, true) (λ _ _, true) (line0 ++ [10]) fds1). by repeat eexists. Defined.

(** "cd a", then another line *)
Definition cd_line : gline := LLast (PLast (XWords [] [([99; 100], []); ([97], [])])) 0.

Lemma shell_session_witness :
  ∃ fds', open_console (λ _ _, true) 4 fds1 = Some fds' ∧ three fds' ∧
    main (λ _ _ _, true) (λ _ _, true) (mjoin (typed <$> [cd_line; example_line])) fds1 =
      Some (session (λ _ _ _, true) (λ _ _, true) 1 [cd_line; example_line] fds' 0) ∧
    ∀ b, ARun b ∈ session (λ _ _ _, true) (λ _ _, true) 1 [cd_line; example_line] fds' 0 → Forall (λ x, three x.2) (execs b).
Proof.
  apply (shell_session (λ _ _ _, true) (λ _ _, true) fds1 [cd_line; example_line]); [by repeat eexists|by left|].
  repeat (constructor; [split; [|by vm_compute]|]); [..|constructor]; repeat split; try (by vm_compute); repeat constructor; by vm_compute.
Defined.

(** [cd] drops the last byte of its line also when that is not the end of a line *)
Lemma cd_chops : main_line (λ _ _ _, true) (λ _ _, true) 1 [99; 100; 32; 97; 98] fds0 0 = Some (AChdir [97] true, 0%nat).
Proof. reflexivity. Qed.
