(* ===== verification/Ide.v ===== *)
(** * ide.c and memide.c: the disk drivers

    The driver's own state is the queue threaded through [qnext]; the buffers and the
    disk are those of the buffer cache ([core]).  The controller is what the driver uses
    of it: registers that keep what was written to them, a command in progress with the
    data sent for it, and the statuses that the next reads of port 0x1f7 give ([polls]).
    When the command is done ([device_done]) a write is on the disk, and the controller
    interrupts; the data of a read come from the sector in the registers.

    [iderw] holds [idelock] except while it sleeps, so that it is two operations:
    [iderw_start] up to the loop and [iderw_done], the condition of the loop. *)

From S2P Require Import Prelude Block Bio.
From Stdlib Require Import Btauto.

Definition SECTOR_SIZE : Z := 512.
Definition IDE_BSY : Z := 0x80.
Definition IDE_DRDY : Z := 0x40.
Definition IDE_DF : Z := 0x20.
Definition IDE_ERR : Z := 0x01.
Definition IDE_CMD_READ : Z := 0x20.
Definition IDE_CMD_WRITE : Z := 0x30.
Definition IDE_CMD_RDMUL : Z := 0xc4.
Definition IDE_CMD_WRMUL : Z := 0xc5.

Record ide := {
  core : bio;
  qnext : gmap nat nat; idequeue : option nat;
  regs : Z → Z; active : option (Z * list Z); polls : list Z;
  woken : list nat }.

Abbreviation I := (M ide).

Definition set_core v s := {| core := v; qnext := qnext s; idequeue := idequeue s; regs := regs s; active := active s; polls := polls s; woken := woken s |}.
Definition set_queue q h s := {| core := core s; qnext := q; idequeue := h; regs := regs s; active := active s; polls := polls s; woken := woken s |}.
Definition set_regs r a s := {| core := core s; qnext := qnext s; idequeue := idequeue s; regs := r; active := a; polls := polls s; woken := woken s |}.
Definition set_polls l s := {| core := core s; qnext := qnext s; idequeue := idequeue s; regs := regs s; active := active s; polls := l; woken := woken s |}.
Definition set_woken l s := {| core := core s; qnext := qnext s; idequeue := idequeue s; regs := regs s; active := active s; polls := polls s; woken := l |}.

Definition in_core {A} (m : M bio A) : I A := zoom core set_core m.

(** ** The controller *)

(** a command starts when it is written to port 0x1f7 *)
Definition outb (port v : Z) : I unit :=
  modify (λ s, set_regs (λ p, if p =? port then v else regs s p) (if port =? 0x1f7 then Some (v, []) else active s) s).

Definition outsl (data : list Z) : I unit :=
  modify (λ s, set_regs (regs s) (match active s with Some (c, _) => Some (c, data) | None => None end) s).

(** the disk and the sector that the registers select *)
Definition sel_dev (r : Z → Z) : Z := Z.land (Z.shiftr (r 0x1f6) 4) 1.
Definition sel_sector (r : Z → Z) : Z :=
  Z.lor (r 0x1f3) (Z.lor (Z.shiftl (r 0x1f4) 8) (Z.lor (Z.shiftl (r 0x1f5) 16) (Z.shiftl (Z.land (r 0x1f6) 0x0f) 24))).

Definition insl : I (list Z) := gets (λ s, dblock (disk (core s)) (sel_dev (regs s)) (sel_sector (regs s))).

Definition device_done : I unit :=
  modify (λ s,
    match active s with
    | Some (c, data) =>
        let k := (sel_dev (regs s), sel_sector (regs s)) in
        set_regs (regs s) None
          (if c =? IDE_CMD_WRITE then
             set_core {| bufs := bufs (core s); havedisk1 := havedisk1 (core s);
               disk := <[k := data]> (disk (core s)); writes := writes (core s) ++ [(k.1, k.2, data)] |} s
           else s)
    | None => s
    end).

(** ** ide.c *)

(** the loop on the statuses *)
Fixpoint wait_ready (l : list Z) : option (Z * list Z) :=
  match l with
  | [] => None
  | r :: l => if Z.land r (Z.lor IDE_BSY IDE_DRDY) =? IDE_DRDY then Some (r, l) else wait_ready l
  end.

Definition idewait (checkerr : bool) : I Z :=
  λ s, match wait_ready (polls s) with
       | None => NoFuel
       | Some (r, l) =>
           Ret (if checkerr && negb (Z.land r (Z.lor IDE_DF IDE_ERR) =? 0) then -1 else 0) (set_polls l s)
       end.

Definition idestart (b : option nat) : I unit :=
  match b with
  | None => panic "idestart"
  | Some i =>
      b ← in_core (buf_at i);
      if FSSIZE <=? b_blockno b then panic "incorrect blockno"
      else
        let sector_per_block := BSIZE / SECTOR_SIZE in
        let sector := i32 (b_blockno b * sector_per_block) in
        let read_cmd := if sector_per_block =? 1 then IDE_CMD_READ else IDE_CMD_RDMUL in
        let write_cmd := if sector_per_block =? 1 then IDE_CMD_WRITE else IDE_CMD_WRMUL in
        if 7 <? sector_per_block then panic "idestart"
        else
          _ ← idewait false;
          _ ← outb 0x3f6 0;
          _ ← outb 0x1f2 sector_per_block;
          _ ← outb 0x1f3 (Z.land sector 0xff);
          _ ← outb 0x1f4 (Z.land (Z.shiftr sector 8) 0xff);
          _ ← outb 0x1f5 (Z.land (Z.shiftr sector 16) 0xff);
          _ ← outb 0x1f6 (Z.lor 0xe0 (Z.lor (Z.shiftl (Z.land (b_dev b) 1) 4) (Z.land (Z.shiftr sector 24) 0x0f)));
          if negb (Z.land (b_flags b) B_DIRTY =? 0) then
            _ ← outb 0x1f7 write_cmd;
            outsl (b_data b)
          else outb 0x1f7 read_cmd
  end.

Definition ideintr : I unit :=
  h ← gets idequeue;
  match h with
  | None => mret ()
  | Some i =>
      _ ← modify (λ s, set_queue (qnext s) (qnext s !! i) s);
      b ← in_core (buf_at i);
      _ ← (if Z.land (b_flags b) B_DIRTY =? 0 then
             r ← idewait true;
             if 0 <=? r then d ← insl; in_core (bupd i (set_data d)) else mret ()
           else mret ());
      _ ← in_core (bupd i (λ b, set_flags (Z.land (Z.lor (b_flags b) B_VALID) (Z.lnot B_DIRTY)) b));
      _ ← modify (λ s, set_woken (i :: woken s) s);
      h ← gets idequeue;
      match h with
      | None => mret ()
      | Some _ => idestart h
      end
  end.

(** the end of the queue: the loop on [pp] *)
Fixpoint queue_end (fuel : nat) (q : gmap nat nat) (i : nat) : option nat :=
  match fuel with
  | O => None
  | S fuel => match q !! i with None => Some i | Some j => queue_end fuel q j end
  end.

Definition append (i : nat) : I unit :=
  λ s, let q := delete i (qnext s) in
       match idequeue s with
       | None => Ret () (set_queue q (Some i) s)
       | Some h =>
           match queue_end (S (size q)) q h with
           | None => NoFuel
           | Some e => Ret () (set_queue (<[e := i]> q) (Some h) s)
           end
       end.

Definition iderw_start (me : Z) (i : nat) : I unit :=
  h ← in_core (holdingsleep me i);
  b ← in_core (buf_at i);
  hd1 ← gets (λ s, havedisk1 (core s));
  if negb h then panic "iderw: buf not locked"
  else if Z.land (b_flags b) (Z.lor B_VALID B_DIRTY) =? B_VALID then panic "iderw: nothing to do"
  else if negb (b_dev b =? 0) && negb hd1 then panic "iderw: ide disk 1 not present"
  else
    _ ← append i;
    q ← gets idequeue;
    if decide (q = Some i) then idestart (Some i) else mret ().

(** the condition under which the loop of [iderw] ends *)
Definition iderw_done (i : nat) : I bool :=
  b ← in_core (buf_at i);
  mret (Z.land (b_flags b) (Z.lor B_VALID B_DIRTY) =? B_VALID).

(** the check for disk 1: up to 1000 reads of the status *)
Fixpoint probe (n : nat) (l : list Z) : bool * list Z :=
  match n, l with
  | O, _ => (false, l)
  | S n, [] => (false, [])
  | S n, r :: l => if negb (r =? 0) then (true, l) else probe n l
  end.

Definition ideinit : I unit :=
  _ ← idewait false;
  _ ← outb 0x1f6 (Z.lor 0xe0 (Z.shiftl 1 4));
  _ ← modify (λ s,
        let '(found, l) := probe 1000 (polls s) in
        set_polls l (if found then set_core {| bufs := bufs (core s); havedisk1 := true; disk := disk (core s); writes := writes (core s) |} s else s));
  outb 0x1f6 (Z.lor 0xe0 (Z.shiftl 0 4)).

(** ** The controller's interrupt *)

(** the statuses that the handler will see are [l] *)
Definition interrupt (l : list Z) : I unit :=
  _ ← device_done;
  _ ← modify (set_polls l);
  ideintr.

Definition request (me : Z) (i : nat) (l : list Z) : I unit :=
  _ ← modify (set_polls l);
  iderw_start me i.

(** ** memide.c: the disk is an image in memory *)

Definition mem_iderw (me : Z) (disksize : Z) (i : nat) : M bio unit :=
  h ← holdingsleep me i;
  b ← buf_at i;
  if negb h then panic "iderw: buf not locked"
  else if Z.land (b_flags b) (Z.lor B_VALID B_DIRTY) =? B_VALID then panic "iderw: nothing to do"
  else if negb (b_dev b =? 1) then panic "iderw: request not for disk 1"
  else if disksize <=? b_blockno b then panic "iderw: block out of range"
  else
    _ ← (if negb (Z.land (b_flags b) B_DIRTY =? 0) then
           _ ← bupd i (λ b, set_flags (Z.land (b_flags b) (Z.lnot B_DIRTY)) b);
           modify (λ s, {| bufs := bufs s; havedisk1 := havedisk1 s;
             disk := <[(b_dev b, b_blockno b) := b_data b]> (disk s);
             writes := writes s ++ [(b_dev b, b_blockno b, b_data b)] |})
         else
           d ← gets (λ s, dblock (disk s) (b_dev b) (b_blockno b));
           bupd i (set_data d));
    bupd i (λ b, set_flags (Z.lor (b_flags b) B_VALID) b).

(** ** The disk driver is the disk of the buffer cache

    The queue is a list without repetitions, and the controller works on the request at
    its head.  So each interrupt does at once what the buffer cache takes [iderw] to do,
    for the oldest request. *)

(** ** Registers *)

Lemma low_high k z : 0 ≤ k → Z.lor (Z.land z (Z.ones k)) (Z.shiftl (Z.shiftr z k) k) = z.
Proof.
  intros Hk. apply Z.bits_inj'. intros n Hn. rewrite Z.lor_spec, Z.land_spec, Z.shiftl_spec by done. destruct (Z.lt_ge_cases n k).
  - rewrite Z.ones_spec_low, (Z.testbit_neg_r _ (n - k)), andb_true_r by lia. apply orb_false_r.
  - rewrite Z.ones_spec_high, andb_false_r, Z.shiftr_spec by lia. cbn. f_equal. lia.
Qed.

(** the four registers hold the sector *)
Lemma sector_bytes z : 0 ≤ z < 2 ^ 28 →
  Z.lor (Z.land z 0xff) (Z.lor (Z.shiftl (Z.land (Z.shiftr z 8) 0xff) 8) (Z.lor (Z.shiftl (Z.land (Z.shiftr z 16) 0xff) 16) (Z.shiftl (Z.land (Z.shiftr z 24) 0x0f) 24))) = z.
Proof.
  intros Hz. change 0xff with (Z.ones 8). change 0x0f with (Z.ones 4).
  replace (Z.land (Z.shiftr z 24) (Z.ones 4)) with (Z.shiftr z 24).
  2:{ rewrite Z.land_ones, Z.mod_small; [done| |done]. rewrite Z.shiftr_div_pow2 by done. zdm. }
  replace (Z.shiftl (Z.shiftr z 24) 24) with (Z.shiftl (Z.shiftl (Z.shiftr (Z.shiftr z 16) 8) 8) 16) by (rewrite Z.shiftl_shiftl, Z.shiftr_shiftr by done; done).
  rewrite <- Z.shiftl_lor, (low_high 8 (Z.shiftr z 16)) by done.
  replace (Z.shiftl (Z.shiftr z 16) 16) with (Z.shiftl (Z.shiftl (Z.shiftr (Z.shiftr z 8) 8) 8) 8) by (rewrite Z.shiftl_shiftl, Z.shiftr_shiftr by done; done).
  rewrite <- Z.shiftl_lor, (low_high 8 (Z.shiftr z 8)) by done. by apply low_high.
Qed.

Lemma drive_byte d z : d = 0 ∨ d = 1 → 0 ≤ z < 2 ^ 24 →
  let r := Z.lor 0xe0 (Z.lor (Z.shiftl (Z.land d 1) 4) (Z.land (Z.shiftr z 24) 0x0f)) in
  Z.land (Z.shiftr r 4) 1 = d ∧ Z.land r 0x0f = Z.land (Z.shiftr z 24) 0x0f.
Proof.
  intros Hd Hz. rewrite (Z.shiftr_div_pow2 z 24), Z.div_small by done. by destruct Hd as [-> | ->].
Qed.

(** ** Flags *)

Definition done_flags (f : Z) : Z := Z.land (Z.lor f B_VALID) (Z.lnot B_DIRTY).

Lemma done_flags_done f : Z.land (done_flags f) (Z.lor B_VALID B_DIRTY) = B_VALID.
Proof.
  unfold done_flags. change B_VALID with (2 ^ 1). change B_DIRTY with (2 ^ 2). apply Z.bits_inj'. intros n Hn.
  rewrite !Z.land_spec, !Z.lor_spec, Z.lnot_spec, !Z.pow2_bits_eqb by lia. destruct (Z.eqb_spec 1 n), (Z.eqb_spec 2 n); try lia; cbn; rewrite ?orb_true_r, ?andb_false_r; done.
Qed.

(** ** The queue *)

Fixpoint chain (q : gmap nat nat) (l : list nat) : Prop :=
  match l with
  | [] => True
  | x :: r => q !! x = head r ∧ chain q r
  end.

Lemma chain_end q l x : last l = Some x → chain q l → ∀ h, head l = Some h → ∀ fuel, (length l ≤ fuel)%nat → queue_end fuel q h = Some x.
Proof.
  induction l as [|y l IH]; [done|]. intros Hl [Hy Hc] h [= <-] [|fuel] Hf; cbn in *; [lia|]. rewrite Hy. destruct l as [|z l]; cbn in *; [congruence|].
  by apply IH; [exact Hl| | |lia].
Qed.

Lemma chain_delete q l i : i ∉ l → chain q l → chain (delete i q) l.
Proof.
  induction l as [|y l IH]; [done|]. intros [Hy Hn]%not_elem_of_cons [H1 H2]. split; [by rewrite lookup_delete_ne|by apply IH].
Qed.

Lemma chain_snoc q l x i : NoDup (l ++ [x]) → i ∉ l ++ [x] → q !! i = None → chain q (l ++ [x]) → chain (<[x:=i]> q) (l ++ [x; i]).
Proof.
  intros Hnd Hi Hq. induction l as [|y l IH]; cbn in *.
  - intros _. rewrite lookup_insert_eq, lookup_insert_ne by set_solver. done.
  - intros [Hy Hc]. apply NoDup_cons in Hnd as [Hy' Hnd]. split; [|apply IH; [done|set_solver|done]].
    rewrite lookup_insert_ne by set_solver. rewrite Hy. by destruct l.
Qed.

(** the loop on [pp] visits no more than the linked buffers *)
Lemma chain_size q l x : NoDup (l ++ [x]) → chain q (l ++ [x]) → (length l ≤ size q)%nat.
Proof.
  intros Hnd Hc. rewrite <- size_dom. assert (Hsub : list_to_set l ⊆ dom q).
  { intros y Hy. apply elem_of_list_to_set in Hy. clear Hnd. induction l as [|z l IH]; [by apply not_elem_of_nil in Hy|]. destruct Hc as [Hz Hc].
    apply elem_of_cons in Hy as [->|Hy]; [|by apply IH]. apply elem_of_dom. rewrite Hz. by destruct l; eexists. }
  apply NoDup_app in Hnd as (Hnd & _). rewrite <- (size_list_to_set (C := gset nat) l Hnd). by apply subseteq_size.
Qed.

Lemma append_runs s l i :
  idequeue s = head l → chain (qnext s) l → NoDup l → i ∉ l →
  ∃ q, append i s = Ret () (set_queue q (head (l ++ [i])) s) ∧ chain q (l ++ [i]).
Proof.
  intros Hh Hc Hnd Hi. unfold append. rewrite Hh. pose proof (chain_delete _ _ _ Hi Hc) as Hd.
  destruct l as [|x l _] using rev_ind; [exists (delete i (qnext s)); split; [done|]; by split; [rewrite lookup_delete_eq|]|].
  destruct (l ++ [x]) as [|h t] eqn:E; [by destruct l|]. cbn [head]. rewrite <- E in *.
  rewrite (chain_end _ (l ++ [x]) x); [|apply last_snoc|done|by rewrite E|].
  2:{ pose proof (chain_size _ _ _ Hnd Hd). rewrite length_app. cbn. lia. }
  exists (<[x:=i]> (delete i (qnext s))). split; [by rewrite E|]. rewrite <- app_assoc. apply chain_snoc; try done. by rewrite lookup_delete_eq.
Qed.

(** ** The request at the head *)

(** a buffer that [iderw] waits for *)
Definition pending (hd1 : bool) (b : buf) : Prop :=
  b_locked b = true ∧ Z.land (b_flags b) (Z.lor B_VALID B_DIRTY) ≠ B_VALID ∧
  (b_dev b = 0 ∨ b_dev b = 1 ∧ hd1 = true) ∧ 0 ≤ b_blockno b < FSSIZE.

Definition dirty (b : buf) : bool := negb (Z.land (b_flags b) B_DIRTY =? 0).

(** the controller has been told to read or write it *)
Definition issued (s : ide) (b : buf) : Prop :=
  sel_dev (regs s) = b_dev b ∧ sel_sector (regs s) = b_blockno b ∧
  active s = Some (if dirty b then (IDE_CMD_WRITE, b_data b) else (IDE_CMD_READ, [])).

(** the statuses let the driver through [n] times *)
Fixpoint serves (n : nat) (l : list Z) : Prop :=
  match n with
  | O => True
  | S n => ∃ r l', wait_ready l = Some (r, l') ∧ serves n l'
  end.

(** the first of them reports an error *)
Definition error_in (l : list Z) : bool :=
  match wait_ready l with Some (r, _) => negb (Z.land r (Z.lor IDE_DF IDE_ERR) =? 0) | None => false end.

Lemma buf_at_core i b s : bufs (core s) !! i = Some b → in_core (buf_at i) s = Ret b s.
Proof. intros H. unfold in_core, zoom, buf_at, mbind, M_bind, gets. rewrite H. by destruct s. Qed.

Lemma idestart_runs s i b hd1 n :
  bufs (core s) !! i = Some b → pending hd1 b → serves (S n) (polls s) →
  ∃ s', idestart (Some i) s = Ret () s' ∧ issued s' b ∧ core s' = core s ∧ qnext s' = qnext s ∧ idequeue s' = idequeue s ∧ woken s' = woken s.
Proof.
  intros Hb (_ & _ & Hdev & Hn) (r & l & Hw & _). unfold idestart. rewrite (bind_Ret _ _ _ _ _ (buf_at_core i b s Hb)).
  rewrite (proj2 (Z.leb_gt _ _)) by lia. change (BSIZE / SECTOR_SIZE) with 1. cbn zeta. cbn [Z.eqb Z.ltb Z.compare Pos.compare Pos.compare_cont].
  rewrite i32_id, Z.mul_1_r by (unfold FSSIZE in *; lia).
  erewrite bind_Ret by (unfold idewait; rewrite Hw; reflexivity). unfold outb, outsl. mrun.
  pose proof (drive_byte (b_dev b) (b_blockno b) ltac:(tauto) ltac:(unfold FSSIZE in *; lia)) as [Hd1 Hd2].
  assert (Hs : 0 ≤ b_blockno b < 2 ^ 28) by (unfold FSSIZE in *; lia). apply sector_bytes in Hs.
  unfold issued, sel_dev, sel_sector, dirty. destruct (Z.land (b_flags b) B_DIRTY =? 0) eqn:E; cbn [negb].
  - eexists. split; [reflexivity|]. cbn. split_and!; [exact Hd1| |reflexivity..]. rewrite Hd2. exact Hs.
  - mrun. eexists. split; [reflexivity|]. cbn. split_and!; [exact Hd1| |reflexivity..]. rewrite Hd2. exact Hs.
Qed.

(** ** What an interrupt does *)

(** the buffer is marked valid, with the data that it has *)
Definition mark_valid (i : nat) (c : bio) : bio := with_bufs (alter (λ b, set_flags (done_flags (b_flags b)) b) i) c.

Definition done_core (i : nat) (b : buf) (c : bio) : bio :=
  let c := if dirty b then {| bufs := bufs c; havedisk1 := havedisk1 c; disk := <[(b_dev b, b_blockno b) := b_data b]> (disk c);
                              writes := writes c ++ [(b_dev b, b_blockno b, b_data b)] |}
           else with_bufs (alter (set_data (dblock (disk c) (b_dev b) (b_blockno b))) i) c in
  mark_valid i c.

(** a read that failed, and [done_core] otherwise *)
Definition failed (b : buf) (l : list Z) : bool := negb (dirty b) && error_in l.
Definition served_core (i : nat) (b : buf) (l : list Z) (c : bio) : bio := if failed b l then mark_valid i c else done_core i b c.

(** it is [iderw] of the buffer cache *)
Lemma iderw_done_core i b c : bufs c !! i = Some b → pending (havedisk1 c) b → iderw (b_pid b) i c = Ret () (done_core i b c).
Proof.
  intros Hb (Hl & Hf & Hdev & Hn).
  assert (Hbuf : buf_at i c = Ret b c) by (unfold buf_at, mbind, M_bind, gets; by rewrite Hb).
  unfold iderw, holdingsleep, done_core, dirty. rewrite bind_assoc, (bind_Ret _ _ _ _ _ Hbuf). mrun. rewrite (bind_Ret _ _ _ _ _ Hbuf). mrun.
  rewrite Hl, Z.eqb_refl. cbn [andb negb]. rewrite (proj2 (Z.eqb_neq _ _) Hf).
  assert (negb (b_dev b =? 0) && negb (havedisk1 c) = false) as -> by (destruct Hdev as [-> | [-> ->]]; done).
  rewrite (proj2 (Z.leb_gt _ _)) by lia. destruct (Z.land (b_flags b) B_DIRTY =? 0); reflexivity.
Qed.

Record inv (s : ide) (w : list nat) : Prop := {
  iv_head : idequeue s = head w;
  iv_chain : chain (qnext s) w;
  iv_nodup : NoDup w;
  iv_bufs i : i ∈ w → ∃ b, bufs (core s) !! i = Some b ∧ pending (havedisk1 (core s)) b;
  iv_active : match w with [] => active s = None | i :: _ => ∀ b, bufs (core s) !! i = Some b → issued s b end
}.

(** the handler up to the start of the next request *)
Lemma interrupt_finish s i w b l :
  inv s (i :: w) → bufs (core s) !! i = Some b → serves 2 l →
  ∃ s', interrupt l s = (match head w with None => mret () | Some _ => idestart (head w) end) s' ∧
    core s' = served_core i b l (core s) ∧ qnext s' = qnext s ∧ idequeue s' = head w ∧ active s' = None ∧ woken s' = i :: woken s ∧ serves 1 (polls s').
Proof.
  intros [Hh Hc _ _ Ha] Hb Hl. destruct (Ha b Hb) as (Hd & Hs & Hact). cbn in Hh. destruct Hc as [Hq _].
  unfold interrupt, device_done. mrun. rewrite Hact, Hd, Hs. unfold served_core, failed, done_core. destruct (dirty b) eqn:Ed; unfold dirty in Ed; cbn [negb andb].
  - change (IDE_CMD_WRITE =? IDE_CMD_WRITE) with true. cbn iota. unfold ideintr. mrun. cbn [idequeue set_polls set_regs set_core]. rewrite Hh. mrun.
    erewrite bind_Ret by (apply (buf_at_core i b); exact Hb). apply negb_true_iff in Ed. rewrite Ed. mrun.
    cbn [idequeue set_core set_queue set_woken qnext set_polls set_regs]. rewrite Hq.
    eexists. split; [reflexivity|]. cbn. split_and!; try done. destruct Hl as (r & l' & Hw & _). by exists r, l'.
  - change (IDE_CMD_READ =? IDE_CMD_WRITE) with false. cbn iota. unfold ideintr. mrun. cbn [idequeue set_polls set_regs set_core]. rewrite Hh. mrun.
    erewrite bind_Ret by (apply (buf_at_core i b); exact Hb). apply negb_false_iff in Ed. rewrite Ed.
    destruct Hl as (r & l' & Hw & Hl). unfold error_in. rewrite Hw, bind_assoc.
    erewrite bind_Ret by (unfold idewait; cbn [polls set_queue set_polls]; rewrite Hw; reflexivity). cbn [andb].
    destruct (negb (Z.land r _ =? 0)); cbn [Z.leb Z.compare]; unfold insl; mrun.
    all: cbn [idequeue set_core set_queue set_woken qnext set_polls set_regs regs core]; rewrite ?Hd, ?Hs, Hq.
    all: eexists; split; [reflexivity|]; cbn; split_and!; done.
Qed.

Lemma served_other i b l c j : j ≠ i → bufs (served_core i b l c) !! j = bufs c !! j.
Proof. intros Hj. unfold served_core, done_core, mark_valid, with_bufs. destruct (failed b l), (dirty b); cbn; by rewrite ?list_lookup_alter_ne by done. Qed.

Lemma served_disk1 i b l c : havedisk1 (served_core i b l c) = havedisk1 c.
Proof. unfold served_core, done_core. by destruct (failed b l), (dirty b). Qed.

Lemma served_done i b l c : bufs c !! i = Some b →
  ∃ b', bufs (served_core i b l c) !! i = Some b' ∧ Z.land (b_flags b') (Z.lor B_VALID B_DIRTY) = B_VALID.
Proof.
  intros Hb. unfold served_core, done_core, mark_valid, with_bufs.
  destruct (failed b l), (dirty b); cbn; rewrite !list_lookup_alter_eq, Hb; (eexists; split; [reflexivity|apply done_flags_done]).
Qed.

Lemma interrupt_runs s i w b l :
  inv s (i :: w) → bufs (core s) !! i = Some b → serves 2 l →
  ∃ s', interrupt l s = Ret () s' ∧ inv s' w ∧ core s' = served_core i b l (core s) ∧ woken s' = i :: woken s.
Proof.
  intros Hinv Hb Hl. destruct (interrupt_finish s i w b l Hinv Hb Hl) as (s1 & Hint & Hcore & Hq & Hh & Ha & Hwk & Hp).
  destruct Hinv as [_ [_ Hc] [Hi Hnd]%NoDup_cons Hbufs _].
  assert (Hw : ∀ j, j ∈ w → ∃ b, bufs (core s1) !! j = Some b ∧ pending (havedisk1 (core s1)) b).
  { intros j Hj. rewrite Hcore, served_disk1, served_other by (intros ->; done). apply Hbufs. by right. }
  rewrite Hint. destruct w as [|j w]; cbn [head].
  - exists s1. split_and!; [done| |done..]. by constructor.
  - destruct (Hw j (list_elem_of_here _ _)) as (bj & Hbj & Hpj). destruct (idestart_runs s1 j bj _ 0 Hbj Hpj Hp) as (s' & Hst & Hiss & Hcore' & Hq' & Hh' & Hwk').
    exists s'. split_and!; [done| |congruence..]. constructor.
    + congruence.
    + by rewrite Hq', Hq.
    + done.
    + intros k Hk. rewrite Hcore'. by apply Hw.
    + intros b' Hb'. rewrite Hcore' in Hb'. assert (b' = bj) as -> by congruence. done.
Qed.

Lemma spurious_interrupt s l : inv s [] → interrupt l s = Ret () (set_polls l s).
Proof. intros [Hh _ _ _ Ha]. unfold interrupt, device_done. mrun. rewrite Ha. unfold ideintr. mrun. cbn. by rewrite Hh. Qed.

Lemma request_runs s w me i b l :
  inv s w → i ∉ w → bufs (core s) !! i = Some b → pending (havedisk1 (core s)) b → b_pid b = me → serves 1 l →
  ∃ s', request me i l s = Ret () s' ∧ inv s' (w ++ [i]) ∧ core s' = core s ∧ woken s' = woken s.
Proof.
  intros [Hh Hc Hnd Hbufs Ha] Hi Hb Hpend <- Hl. pose proof Hpend as (Hlock & Hf & Hdev & Hn). unfold request. mrun. set (s1 := set_polls l s).
  unfold iderw_start. assert (in_core (holdingsleep (b_pid b) i) s1 = Ret true s1) as Hhold.
  { unfold in_core, zoom, holdingsleep, buf_at, mbind, M_bind, gets. cbn. rewrite Hb. cbn. by rewrite Hlock, Z.eqb_refl. }
  rewrite (bind_Ret _ _ _ _ _ Hhold), (bind_Ret _ _ _ _ _ (buf_at_core i b s1 Hb)). mrun. cbn [negb].
  rewrite (proj2 (Z.eqb_neq _ _) Hf).
  assert (negb (b_dev b =? 0) && negb (havedisk1 (core s1)) = false) as -> by (cbn; destruct Hdev as [-> | [-> ->]]; done).
  destruct (append_runs s1 w i Hh Hc Hnd Hi) as (q & Happ & Hchain). rewrite (bind_Ret _ _ _ _ _ Happ). mrun. cbn [idequeue set_queue].
  assert (Hnd' : NoDup (w ++ [i])) by (rewrite <- Permutation_cons_append; by constructor).
  assert (Hbufs' : ∀ j, j ∈ w ++ [i] → ∃ b, bufs (core s) !! j = Some b ∧ pending (havedisk1 (core s)) b).
  { intros j [Hj| ->%list_elem_of_singleton]%elem_of_app; [by apply Hbufs|by exists b]. }
  destruct w as [|h w]; cbn [app head].
  - rewrite decide_True by done. destruct (idestart_runs (set_queue q (Some i) s1) i b _ 0 Hb Hpend Hl) as (s' & Hst & Hiss & Hcore & Hq & Hh' & Hwk).
    exists s'. split_and!; [done| |done..]. constructor; [done|by rewrite Hq|done|by rewrite Hcore|]. intros b' Hb'. rewrite Hcore in Hb'.
    assert (b' = b) as -> by (cbn in Hb'; congruence). done.
  - rewrite decide_False by (intros [= ->]; apply Hi; left). eexists. split; [reflexivity|]. split; [|by split]. constructor; done.
Qed.

(** ** Traces *)

Inductive event :=
  | Requested (i : nat)
  | Completed (i : nat)
  | Failed (i : nat)
  | Other.

(** [w]: the buffers whose processes are in [iderw], in the order they called it.  A
    process waits for one buffer at a time, and the buffers in [w] are locked; the other
    processes change the others.  An interrupt fails a read when the status that the
    handler reads has an error bit. *)
Inductive istep : ide * list nat → event → ide * list nat → Prop :=
  | is_request s w me i b l s' :
      i ∉ w → bufs (core s) !! i = Some b → pending (havedisk1 (core s)) b → b_pid b = me → serves 1 l →
      request me i l s = Ret () s' → istep (s, w) (Requested i) (s', w ++ [i])
  | is_interrupt s w i b l s' :
      idequeue s = Some i → bufs (core s) !! i = Some b → serves 2 l → interrupt l s = Ret () s' →
      istep (s, w) (if failed b l then Failed i else Completed i) (s', filter (λ j, j ≠ i) w)
  | is_spurious s w l s' :
      idequeue s = None → interrupt l s = Ret () s' → istep (s, w) Other (s', w)
  | is_other s w f :
      (∀ i, i ∈ w → f (bufs (core s)) !! i = bufs (core s) !! i) →
      istep (s, w) Other (set_core (with_bufs f (core s)) s, w).

Inductive isteps : ide * list nat → list event → ide * list nat → Prop :=
  | is_nil x : isteps x [] x
  | is_snoc x y z tr e : isteps x tr y → istep y e z → isteps x (tr ++ [e]) z.

(** the same events on the disk that the buffer cache sees; a read that fails leaves the
    disk and the data in the buffer as they are, and the buffer becomes valid all the same *)
Inductive astep : bio → event → bio → Prop :=
  | as_request c i : astep c (Requested i) c
  | as_complete c i me c' : iderw me i c = Ret () c' → astep c (Completed i) c'
  | as_failed c i b : bufs c !! i = Some b → dirty b = false → astep c (Failed i) (mark_valid i c)
  | as_other c f : astep c Other (with_bufs f c).

Inductive asteps : bio → list event → bio → Prop :=
  | as_nil c : asteps c [] c
  | as_snoc c1 c2 c3 tr e : asteps c1 tr c2 → astep c2 e c3 → asteps c1 (tr ++ [e]) c3.

Definition requested (tr : list event) : list nat := omap (λ e, match e with Requested i => Some i | _ => None end) tr.
(** the requests that were answered *)
Definition served (tr : list event) : list nat := omap (λ e, match e with Completed i | Failed i => Some i | _ => None end) tr.

Lemma with_bufs_id c : with_bufs (λ l, l) c = c.
Proof. by destruct c. Qed.

Lemma filter_head (i : nat) w : NoDup (i :: w) → filter (λ j, j ≠ i) (i :: w) = w.
Proof.
  intros [Hi _]%NoDup_cons. rewrite filter_cons_False by (intros H; by apply H). clear - Hi. induction w as [|j w IH]; [done|].
  apply not_elem_of_cons in Hi as [Hij Hi]. rewrite filter_cons_True by congruence. by rewrite IH.
Qed.

Lemma istep_inv s w e s' w' : inv s w → istep (s, w) e (s', w') →
  inv s' w' ∧ astep (core s) e (core s') ∧ served [e] ++ w' = w ++ requested [e] ∧ woken s' = served [e] ++ woken s.
Proof.
  intros Hinv Hstep. inversion Hstep as [? ? me i b l ? Hi Hb Hp Hme Hl Hr|? ? i b l ? Hq Hb Hl Hr|? ? l ? Hq Hr|? ? f Hf]; subst.
  - destruct (request_runs _ _ _ _ _ _ Hinv Hi Hb Hp eq_refl Hl) as (s1 & Hr1 & Hinv1 & Hc & Hk). rewrite Hr in Hr1. injection Hr1 as <-.
    rewrite Hc. split_and!; [done|constructor|done|done].
  - destruct w as [|j w]; [by rewrite (iv_head _ _ Hinv) in Hq|]. assert (j = i) as -> by (rewrite (iv_head _ _ Hinv) in Hq; by injection Hq).
    destruct (iv_bufs _ _ Hinv i) as (b' & Hb' & Hp); [left|]. assert (b' = b) as -> by congruence.
    destruct (interrupt_runs _ _ _ _ _ Hinv Hb Hl) as (s1 & Hr1 & Hinv1 & Hc & Hk). rewrite Hr in Hr1. injection Hr1 as <-.
    rewrite (filter_head _ _ (iv_nodup _ _ Hinv)), Hc, Hk. unfold served_core. destruct (failed b l) eqn:Ef.
    + split_and!; [done| |by rewrite app_nil_r|done]. apply andb_true_iff in Ef as [Ef _]. apply negb_true_iff in Ef. by econstructor.
    + split_and!; [done| |by rewrite app_nil_r|done]. econstructor. by apply iderw_done_core.
  - destruct w' as [|j w]; [|by rewrite (iv_head _ _ Hinv) in Hq]. rewrite (spurious_interrupt _ _ Hinv) in Hr. injection Hr as <-.
    split_and!; [by destruct Hinv|cbn; rewrite <- (with_bufs_id (core s)) at 2; constructor|done|done].
  - split_and!; [|constructor|by rewrite app_nil_r|done]. destruct Hinv as [H1 H2 H3 H4 H5]. constructor; try done.
    + intros i Hi. cbn. rewrite Hf by done. by apply H4.
    + destruct w' as [|i w]; [done|]. intros b. cbn. rewrite Hf by left. apply H5.
Qed.

Lemma isteps_inv s w tr s' w' : inv s w → isteps (s, w) tr (s', w') →
  inv s' w' ∧ asteps (core s) tr (core s') ∧ served tr ++ w' = w ++ requested tr ∧ woken s' = reverse (served tr) ++ woken s.
Proof.
  intros Hinv H. remember (s, w) as x. remember (s', w') as z. revert s' w' Heqz. induction H as [|x [s1 w1] z tr e H IH Hstep]; intros s' w' Hz; subst.
  - injection Hz as <- <-. split_and!; [done|constructor|by rewrite app_nil_r|done].
  - destruct (IH eq_refl s1 w1 eq_refl) as (Hinv1 & Ha & Hw & Hk). destruct (istep_inv _ _ _ _ _ Hinv1 Hstep) as (Hinv2 & Ha2 & Hw2 & Hk2).
    split_and!; [done|by econstructor| |].
    + unfold served, requested in *. rewrite !omap_app, <- app_assoc, Hw2, app_assoc, Hw. by rewrite app_assoc.
    + rewrite Hk2, Hk. unfold served. rewrite omap_app, reverse_app, <- app_assoc. f_equal. by destruct e.
Qed.

(** ** What the driver promises *)

Definition idle (s : ide) : Prop := idequeue s = None ∧ active s = None.

Lemma idle_inv s : idle s → inv s [].
Proof. intros [H1 H2]. constructor; try done; [constructor|]. intros i Hi. by apply not_elem_of_nil in Hi. Qed.

(** C15: the disk driver implements the disk that the buffer cache and the log rely on:
    whatever the order of requests, interrupts and changes to other buffers, the buffers
    and the disk are as if each request were done at once when its interrupt arrives, but
    for a read whose status has an error bit: its buffer keeps the old data and becomes
    valid.  The requests are answered in the order in which they were made, each of them
    once, and [wakeup] was called for exactly the buffers answered. *)
Theorem ide_refines s0 tr s w :
  idle s0 → isteps (s0, []) tr (s, w) →
  asteps (core s0) tr (core s) ∧ requested tr = served tr ++ w ∧ woken s = reverse (served tr) ++ woken s0.
Proof. intros Hi Hs. destruct (isteps_inv _ _ _ _ _ (idle_inv _ Hi) Hs) as (_ & Ha & Hw & Hk). by rewrite Hw. Qed.

Fixpoint interrupts (ls : list (list Z)) : I unit :=
  match ls with
  | [] => mret ()
  | l :: ls => _ ← interrupt l; interrupts ls
  end.

Lemma interrupts_run k : ∀ s w i ls,
  inv s w → w !! k = Some i → length ls = S k → Forall (serves 2) ls →
  runs (interrupts ls) s (λ _ s', iderw_done i s' = Ret true s' ∧ woken s' = reverse (take (S k) w) ++ woken s).
Proof.
  induction k as [|k IH]; intros s w i ls Hinv Hi Hlen Hls; destruct w as [|j w], ls as [|l ls]; try done; cbn in Hi, Hlen.
  all: apply Forall_cons in Hls as [Hl Hls]; destruct (iv_bufs _ _ Hinv j) as (b & Hb & _); [left|].
  all: destruct (interrupt_runs _ _ _ _ _ Hinv Hb Hl) as (s1 & Hint & Hinv1 & Hc & Hk).
  all: cbn [interrupts]; apply runs_bind; exists (), s1; split; [done|].
  - injection Hi as ->. destruct ls; [|done]. apply runs_ret. split; [|done]. unfold iderw_done.
    destruct (served_done i b l _ Hb) as (b' & Hb' & Hf). rewrite <- Hc in Hb'. rewrite (bind_Ret _ _ _ _ _ (buf_at_core _ _ _ Hb')), Hf. done.
  - eapply runs_mono; [apply (IH s1 w i ls); [done|done|lia|done]|]. intros _ s' [Hd Hk']. split; [done|].
    rewrite Hk', Hk, (firstn_cons (S k) j w), reverse_cons, <- app_assoc. done.
Qed.

(** C30: no request is lost: a process that called [iderw] when [k] requests were ahead of
    it finds the loop's condition true after [k + 1] interrupts, whether they report errors
    or not, and none of the handlers panics or waits for the controller in vain.  The
    handlers have called [wakeup] for these [k + 1] buffers, in their order, its own last. *)
Theorem ide_progress s0 tr s w k i ls :
  idle s0 → isteps (s0, []) tr (s, w) → w !! k = Some i → length ls = S k → Forall (serves 2) ls →
  runs (interrupts ls) s (λ _ s', iderw_done i s' = Ret true s' ∧ woken s' = reverse (take (S k) w) ++ woken s).
Proof. intros Hi Hs. destruct (isteps_inv _ _ _ _ _ (idle_inv _ Hi) Hs) as (Hinv & _). by apply interrupts_run. Qed.

(** ** memide.c *)

Lemma flags_dirty f : Z.lor (Z.land f (Z.lnot B_DIRTY)) B_VALID = done_flags f.
Proof.
  unfold done_flags. change B_VALID with (2 ^ 1). change B_DIRTY with (2 ^ 2). apply Z.bits_inj'. intros n Hn.
  rewrite !Z.land_spec, !Z.lor_spec, !Z.land_spec, Z.lnot_spec, !Z.pow2_bits_eqb by lia. destruct (Z.eqb_spec 1 n), (Z.eqb_spec 2 n); try lia; cbn; btauto.
Qed.

Lemma flags_clean f : Z.land f B_DIRTY = 0 → Z.lor f B_VALID = done_flags f.
Proof.
  unfold done_flags. change B_VALID with (2 ^ 1). change B_DIRTY with (2 ^ 2). intros Hd. apply Z.bits_inj'. intros n Hn.
  pose proof (f_equal (λ z, Z.testbit z n) Hd) as H. cbn beta in H. rewrite Z.land_spec, Z.pow2_bits_eqb, Z.bits_0 in H by lia.
  rewrite !Z.land_spec, !Z.lor_spec, Z.lnot_spec, !Z.pow2_bits_eqb by lia. destruct (Z.eqb_spec 1 n), (Z.eqb_spec 2 n); try lia; cbn; rewrite ?andb_true_r in *; btauto || (rewrite H; done).
Qed.

Lemma alter_at {T} (f g h : T → T) (i : nat) (l : list T) x : l !! i = Some x → g (f x) = h x → alter g i (alter f i l) = alter h i l.
Proof.
  intros Hx He. apply list_eq. intros j. destruct (decide (j = i)) as [->|Hj]; [by rewrite !list_lookup_alter_eq, Hx; cbn; rewrite He|].
  by rewrite !list_lookup_alter_ne by done.
Qed.

(** the driver that keeps the disk in memory does for the blocks of disk 1 what the
    driver of the real disk does, with the same panics for a buffer that is not locked or
    has nothing to be done. *)
Theorem memide_agrees me i b c disksize :
  bufs c !! i = Some b → b_dev b = 1 → havedisk1 c = true → b_blockno b < FSSIZE → b_blockno b < disksize →
  mem_iderw me disksize i c = iderw me i c.
Proof.
  intros Hb Hd H1 Hn Hs. assert (Hbuf : buf_at i c = Ret b c) by (unfold buf_at, mbind, M_bind, gets; by rewrite Hb).
  unfold mem_iderw, iderw, holdingsleep. rewrite !bind_assoc. repeat (rewrite (bind_Ret _ _ _ _ _ Hbuf); mrun).
  rewrite Hd, H1. destruct (b_locked b && (b_pid b =? me)); [|done]. cbn [negb]. destruct (_ =? B_VALID); [done|]. cbn [Z.eqb andb negb Pos.eqb].
  rewrite !(proj2 (Z.leb_gt _ _)) by lia. destruct (Z.land (b_flags b) B_DIRTY =? 0) eqn:E; cbn [negb]; mrun.
  - apply Z.eqb_eq in E. unfold bupd, modify, with_bufs. cbn. f_equal. f_equal. rewrite !(alter_at _ _ (λ b, set_flags (done_flags (b_flags b)) (set_data (dblock (disk c) 1 (b_blockno b)) b)) i _ _ Hb); [done|..].
    + done.
    + cbn. by rewrite flags_clean.
  - unfold bupd, modify, with_bufs. cbn. f_equal. f_equal. apply (alter_at _ _ _ _ _ _ Hb). cbn. by rewrite flags_dirty.
Qed.

(** ** A disk with two requests *)

Definition buf0 : buf := {| b_flags := 0; b_dev := 1; b_blockno := 5; b_locked := true; b_pid := 7; b_refcnt := 1; b_prev := 0; b_next := 0; b_data := [] |}.
Definition buf1 : buf := {| b_flags := B_DIRTY; b_dev := 1; b_blockno := 6; b_locked := true; b_pid := 8; b_refcnt := 1; b_prev := 0; b_next := 0; b_data := [3] |}.

Definition ide0 : ide := {|
  core := {| bufs := [buf0; buf1]; havedisk1 := true; disk := ∅; writes := [] |};
  qnext := ∅; idequeue := None; regs := λ _, 0; active := None; polls := []; woken := [] |}.

Definition after {A} (m : I A) (s : ide) : ide := match m s with Ret _ s => s | _ => s end.

(** both are requested; the read fails, then the write is done *)
Definition ide1 : ide := after (request 7 0 [0x40]) ide0.
Definition ide2 : ide := after (request 8 1 [0x40]) ide1.
Definition ide3 : ide := after (interrupt [0x80; 0x41; 0x40]) ide2.
Definition ide4 : ide := after (interrupt [0x40; 0x40]) ide3.

Lemma ide2_steps : isteps (ide0, []) [Requested 0; Requested 1] (ide2, [0; 1]%nat).
Proof.
  apply (is_snoc _ (ide1, [0%nat]) _ [Requested 0] (Requested 1)).
  - apply (is_snoc _ (ide0, []) _ [] (Requested 0)); [constructor|].
    apply (is_request ide0 [] 7 0 buf0 [0x40]); [by intros ?%not_elem_of_nil|done| |done|by exists 0x40, []|reflexivity].
    split_and!; [done|done|by right|done..].
  - apply (is_request ide1 [0%nat] 8 1 buf1 [0x40]); [by intros ?%list_elem_of_singleton|vm_compute; reflexivity| |done|by exists 0x40, []|vm_compute; reflexivity].
    split_and!; [done|done|by right|done..].
Qed.

Lemma serves_two r1 r2 : wait_ready [r1; r2] = Some (r1, [r2]) → wait_ready [r2] = Some (r2, []) → serves 2 [r1; r2].
Proof. intros H1 H2. exists r1, [r2]. split; [done|]. by exists r2, []. Qed.

Lemma ide4_steps : isteps (ide0, []) [Requested 0; Requested 1; Failed 0; Completed 1] (ide4, []).
Proof.
  apply (is_snoc _ (ide3, [1%nat]) _ [Requested 0; Requested 1; Failed 0] (Completed 1)).
  - apply (is_snoc _ (ide2, [0; 1]%nat) _ [Requested 0; Requested 1] (Failed 0)); [exact ide2_steps|].
    apply (is_interrupt ide2 [0; 1]%nat 0 buf0 [0x80; 0x41; 0x40]); [vm_compute; reflexivity..| |vm_compute; reflexivity].
    exists 0x41, [0x40]. split; [done|]. by exists 0x40, [].
  - apply (is_interrupt ide3 [1%nat] 1 buf1 [0x40; 0x40]); [vm_compute; reflexivity..|by apply serves_two|vm_compute; reflexivity].
Qed.

Lemma ide_refines_witness :
  let tr := [Requested 0; Requested 1; Failed 0; Completed 1] in
  asteps (core ide0) tr (core ide4) ∧ requested tr = served tr ++ [] ∧ woken ide4 = reverse (served tr) ++ woken ide0.
Proof. apply (ide_refines ide0 [Requested 0; Requested 1; Failed 0; Completed 1] ide4 []); [by split|exact ide4_steps]. Defined.

Lemma ide_progress_witness :
  runs (interrupts [[0x80; 0x41; 0x40]; [0x40; 0x40]]) ide2 (λ _ s', iderw_done 1 s' = Ret true s' ∧ woken s' = [1; 0]%nat).
Proof.
  apply (ide_progress ide0 [Requested 0; Requested 1] ide2 [0; 1]%nat 1 1 [[0x80; 0x41; 0x40]; [0x40; 0x40]]); [by split|exact ide2_steps|done|done|].
  constructor; [exists 0x41, [0x40]; split; [done|]; by exists 0x40, []|constructor; [by apply serves_two|constructor]].
Defined.

Lemma memide_agrees_witness : mem_iderw 7 1000 0 (core ide0) = iderw 7 0 (core ide0).
Proof. apply (memide_agrees 7 0 buf0 (core ide0) 1000); done. Defined.
