(* ===== verification/Spinlock.v ===== *)
(** * spinlock.c

    Several CPUs share the locks.  A CPU has its count of [pushcli]s, the interrupt flag
    to restore, and its own interrupt flag.  What other CPUs can see between two shared
    accesses is a state: [acquire] and [release] are sequences of operations on the
    shared memory, each of which reads or writes one word, [xchg] both at once. *)

From S2P Require Import Prelude Mmu.

Record spinlock := { locked : Z; lcpu : option nat; pcs : list Z }.
Record cpu := { ncli : Z; intena : bool; IF : bool }.

Record smp := { locks : nat → spinlock; cpus : nat → cpu }.

Abbreviation P := (M smp).

Definition upd {T} (i : nat) (f : T → T) (m : nat → T) : nat → T := λ j, if decide (j = i) then f (m i) else m j.

Definition with_lock (l : nat) (f : spinlock → spinlock) : P unit :=
  modify (λ s, {| locks := upd l f (locks s); cpus := cpus s |}).
Definition with_cpu (c : nat) (f : cpu → cpu) : P unit :=
  modify (λ s, {| locks := locks s; cpus := upd c f (cpus s) |}).

Definition set_IF (v : bool) (x : cpu) : cpu := {| ncli := ncli x; intena := intena x; IF := v |}.
Definition set_locked v x := {| locked := v; lcpu := lcpu x; pcs := pcs x |}.
Definition set_lcpu v x := {| locked := locked x; lcpu := v; pcs := pcs x |}.
Definition set_pcs v x := {| locked := locked x; lcpu := lcpu x; pcs := v |}.

Definition initlock (l : nat) : P unit := with_lock l (λ x, {| locked := 0; lcpu := None; pcs := pcs x |}).

(** ** Interrupts *)

Definition pushcli (c : nat) : P unit :=
  x ← gets (λ s, cpus s c);
  let eflags_IF := IF x in
  _ ← with_cpu c (set_IF false);
  _ ← (if ncli x =? 0 then with_cpu c (λ x, {| ncli := ncli x; intena := eflags_IF; IF := IF x |}) else mret ());
  with_cpu c (λ x, {| ncli := ncli x + 1; intena := intena x; IF := IF x |}).

Definition popcli (c : nat) : P unit :=
  x ← gets (λ s, cpus s c);
  if IF x then panic "popcli - interruptible"
  else
    _ ← with_cpu c (λ x, {| ncli := ncli x - 1; intena := intena x; IF := IF x |});
    x ← gets (λ s, cpus s c);
    if ncli x <? 0 then panic "popcli"
    else if (ncli x =? 0) && intena x then with_cpu c (set_IF true) else mret ().

(** ** The call stack *)

Section pcs.
  (** the words of memory *)
  Context (word : Z → Z).

(** the loop: [n] entries are left *)
Fixpoint caller_loop (n : nat) (ebp : Z) : list Z :=
  match n with
  | O => []
  | S n => if (ebp =? 0) || (ebp <? KERNBASE) || (ebp =? 0xffffffff) then [] else word (ebp + 4) :: caller_loop n (word ebp)
  end.

Definition getcallerpcs (v : Z) : list Z :=
  let l := caller_loop 10 (u32 (v - 8)) in
  l ++ replicate (10 - length l) 0.
End pcs.

(** ** Locks *)

(** where a CPU is in [acquire] or [release]; [b] is the value of [locked] that [holding]
    has read *)
Inductive pc :=
  | Idle
  | AcqHold (l : nat)
  | AcqHold2 (l : nat) (b : Z)
  | AcqSpin (l : nat)
  | AcqSet (l : nat)
  | RelHold (l : nat)
  | RelHold2 (l : nat) (b : Z)
  | RelClear (l : nat)
  | RelUnlock (l : nat)
  | RelPop (l : nat).

#[export] Instance pc_eq_dec : EqDecision pc.
Proof. solve_decision. Defined.

(** the operation of CPU [c] at each point, and the next point; [stack] is what
    [getcallerpcs] finds *)
Definition pc_step (c : nat) (stack : list Z) (p : pc) : P pc :=
  match p with
  | Idle => mret Idle
  | AcqHold l =>
      _ ← pushcli c;
      b ← gets (λ s, locked (locks s l));
      mret (AcqHold2 l b)
  | AcqHold2 l b =>
      o ← gets (λ s, lcpu (locks s l));
      _ ← popcli c;
      if negb (b =? 0) && bool_decide (o = Some c) then panic "acquire" else mret (AcqSpin l)
  | AcqSpin l =>
      old ← gets (λ s, locked (locks s l));
      _ ← with_lock l (set_locked 1);
      if old =? 0 then mret (AcqSet l) else mret (AcqSpin l)
  | AcqSet l =>
      _ ← with_lock l (set_lcpu (Some c));
      _ ← with_lock l (set_pcs stack);
      mret Idle
  | RelHold l =>
      _ ← pushcli c;
      b ← gets (λ s, locked (locks s l));
      mret (RelHold2 l b)
  | RelHold2 l b =>
      o ← gets (λ s, lcpu (locks s l));
      _ ← popcli c;
      if negb (negb (b =? 0) && bool_decide (o = Some c)) then panic "release" else mret (RelClear l)
  | RelClear l =>
      _ ← with_lock l (λ x, set_pcs (<[0%nat := 0]> (pcs x)) x);
      _ ← with_lock l (set_lcpu None);
      mret (RelUnlock l)
  | RelUnlock l =>
      _ ← with_lock l (set_locked 0);
      mret (RelPop l)
  | RelPop l =>
      _ ← popcli c;
      mret Idle
  end.

(** the calls: [acquire] first disables interrupts *)
Definition acquire_call (c l : nat) : P pc :=
  _ ← pushcli c;
  mret (AcqHold l).
Definition release_call (l : nat) : P pc := mret (RelHold l).

(** ** Mutual exclusion

    Any number of CPUs run [acquire] and [release] of any locks, nested in any order, one
    shared access at a time. *)

(** ** The system *)

(** what the CPUs share, where each of them is, the locks it holds (a ghost of its code),
    and its interrupt flag when it last held none *)
Record sys := { shm : smp; at_pc : nat → pc; held : nat → list nat; saved : nat → bool }.

Definition set_at {T} (c : nat) (v : T) (m : nat → T) : nat → T := upd c (λ _, v) m.

Definition held_after (p : pc) (h : list nat) : list nat :=
  match p with
  | AcqSet l => l :: h
  | RelUnlock l => filter (λ k, k ≠ l) h
  | _ => h
  end.

(** a CPU acquires a lock that it does not hold and releases one that it holds; while it
    holds none, its interrupts are switched on and off *)
Inductive lstep : sys → sys → Prop :=
  | l_acquire s c l p m :
      at_pc s c = Idle → l ∉ held s c → acquire_call c l (shm s) = Ret p m →
      lstep s {| shm := m; at_pc := set_at c p (at_pc s); held := held s;
                 saved := if decide (held s c = []) then set_at c (IF (cpus (shm s) c)) (saved s) else saved s |}
  | l_release s c l p m :
      at_pc s c = Idle → l ∈ held s c → release_call l (shm s) = Ret p m →
      lstep s {| shm := m; at_pc := set_at c p (at_pc s); held := held s; saved := saved s |}
  | l_step s c stack p m :
      at_pc s c ≠ Idle → pc_step c stack (at_pc s c) (shm s) = Ret p m →
      lstep s {| shm := m; at_pc := set_at c p (at_pc s); held := set_at c (held_after (at_pc s c) (held s c)) (held s); saved := saved s |}
  | l_sti s c v m :
      at_pc s c = Idle → held s c = [] → with_cpu c (set_IF v) (shm s) = Ret () m →
      lstep s {| shm := m; at_pc := at_pc s; held := held s; saved := set_at c v (saved s) |}.

(** ** The invariant *)

(** the [pushcli]s that [acquire], [release] and [holding] have not undone, besides the
    one of each lock held *)
Definition extra (p : pc) : Z :=
  match p with
  | AcqHold _ | AcqSpin _ | AcqSet _ | RelHold2 _ _ | RelPop _ => 1
  | AcqHold2 _ _ => 2
  | _ => 0
  end.

Definition level (s : sys) (c : nat) : Z := Z.of_nat (length (held s c)) + extra (at_pc s c).

Definition cpu_ok (s : sys) (c : nat) : Prop :=
  let x := cpus (shm s) c in
  ncli x = level s c ∧ (0 < level s c → IF x = false ∧ intena x = saved s c) ∧ (level s c = 0 → IF x = saved s c).

(** where the CPU is fits the locks it holds *)
Definition pc_ok (p : pc) (h : list nat) : Prop :=
  match p with
  | Idle | RelPop _ => True
  | AcqHold l | AcqHold2 l _ | AcqSpin l | AcqSet l => l ∉ h
  | RelHold l | RelClear l | RelUnlock l => l ∈ h
  | RelHold2 l b => l ∈ h ∧ b = 1
  end.

Definition owns (s : sys) (c l : nat) : Prop := l ∈ held s c ∨ at_pc s c = AcqSet l.

Record linv (s : sys) : Prop := {
  li_cpu c : cpu_ok s c;
  li_pc c : pc_ok (at_pc s c) (held s c);
  li_nodup c : NoDup (held s c);
  li_free l : locked (locks (shm s) l) = 0 ∨ locked (locks (shm s) l) = 1;
  li_owner l c : owns s c l → locked (locks (shm s) l) = 1;
  li_one l c c' : owns s c l → owns s c' l → c = c';
  li_lcpu l c : lcpu (locks (shm s) l) = Some c ↔ l ∈ held s c ∧ at_pc s c ≠ RelUnlock l
}.

(** ** Interrupts *)

Lemma supd_eq {T} i (f : T → T) m : upd i f m i = f (m i).
Proof. unfold upd. by rewrite decide_True. Qed.

Lemma supd_ne {T} i j (f : T → T) m : j ≠ i → upd i f m j = m j.
Proof. intros H. unfold upd. by rewrite decide_False. Qed.

Definition only_cpu (c : nat) (x : cpu) (s m : smp) : Prop :=
  (∀ l, locks m l = locks s l) ∧ cpus m c = x ∧ ∀ c', c' ≠ c → cpus m c' = cpus s c'.

Lemma pushcli_eq c s :
  let x := cpus s c in
  ∃ m, pushcli c s = Ret () m ∧ only_cpu c {| ncli := ncli x + 1; intena := if ncli x =? 0 then IF x else intena x; IF := false |} s m.
Proof.
  cbn zeta. unfold pushcli. mrun. destruct (ncli (cpus s c) =? 0) eqn:E; mrun; (eexists; split; [reflexivity|]); split_and!; try done.
  all: cbn; try (rewrite !supd_eq; done); intros c' Hc; by rewrite !supd_ne by done.
Qed.

Lemma popcli_eq c s :
  let x := cpus s c in 1 ≤ ncli x → IF x = false →
  ∃ m, popcli c s = Ret () m ∧ only_cpu c {| ncli := ncli x - 1; intena := intena x; IF := (ncli x - 1 =? 0) && intena x |} s m.
Proof.
  cbn zeta. intros Hn Hi. unfold popcli. mrun. rewrite Hi. mrun. cbn [cpus]. rewrite supd_eq. cbn [ncli intena]. rewrite (proj2 (Z.ltb_ge _ _)) by lia.
  destruct ((ncli (cpus s c) - 1 =? 0) && intena (cpus s c)) eqn:E; (eexists; split; [reflexivity|]); split_and!; try done; cbn.
  all: try (rewrite !supd_eq; unfold set_IF; cbn; by rewrite ?Hi). all: intros c' Hc; by rewrite !supd_ne by done.
Qed.

(** ** Steps that leave the locks as they are *)

Definition quiet (p : pc) : Prop := match p with AcqSet _ | RelUnlock _ => False | _ => True end.

Definition elsewhere (c : nat) (s s' : sys) : Prop :=
  ∀ c', c' ≠ c → at_pc s' c' = at_pc s c' ∧ held s' c' = held s c' ∧ cpus (shm s') c' = cpus (shm s) c' ∧ saved s' c' = saved s c'.

Lemma cpu_ok_elsewhere c c' s s' : elsewhere c s s' → c' ≠ c → cpu_ok s c' → cpu_ok s' c'.
Proof. intros He Hc. destruct (He c' Hc) as (H1 & H2 & H3 & H4). unfold cpu_ok, level. by rewrite H1, H2, H3, H4. Qed.

Lemma linv_local c s s' :
  linv s → elsewhere c s s' → (∀ l, locks (shm s') l = locks (shm s) l) → held s' c = held s c →
  quiet (at_pc s c) → quiet (at_pc s' c) → cpu_ok s' c → pc_ok (at_pc s' c) (held s' c) → linv s'.
Proof.
  intros [H1 H2 H3 H4 H5 H6 H7] He Hl Hh Hq Hq' Hcpu Hpc.
  assert (Hheld : ∀ c', held s' c' = held s c') by (intros c'; destruct (decide (c' = c)) as [->|Hc]; [done|apply He, Hc]).
  assert (Hown : ∀ c' l, owns s' c' l ↔ owns s c' l).
  { intros c' l. unfold owns. rewrite Hheld. destruct (decide (c' = c)) as [->|Hc]; [|by destruct (He c' Hc) as (-> & _)].
    split; (intros [H|H]; [by left|]); [by rewrite H in Hq'|by rewrite H in Hq]. }
  assert (Hrel : ∀ c' l, at_pc s' c' ≠ RelUnlock l ↔ at_pc s c' ≠ RelUnlock l).
  { intros c' l. destruct (decide (c' = c)) as [->|Hc]; [|by destruct (He c' Hc) as (-> & _)].
    split; intros _ H; [by rewrite H in Hq|by rewrite H in Hq']. }
  constructor.
  - intros c'. destruct (decide (c' = c)) as [->|Hc]; [done|by eapply cpu_ok_elsewhere].
  - intros c'. destruct (decide (c' = c)) as [->|Hc]; [done|]. destruct (He c' Hc) as (-> & -> & _). apply H2.
  - intros c'. rewrite Hheld. apply H3.
  - intros l. rewrite Hl. apply H4.
  - intros l c'. rewrite Hown, Hl. apply H5.
  - intros l c1 c2. rewrite !Hown. apply H6.
  - intros l c'. by rewrite Hl, Hheld, Hrel, H7.
Qed.

(** ** Each step keeps the invariant *)

Definition moved (s : sys) (c : nat) (p : pc) (m : smp) : sys :=
  {| shm := m; at_pc := set_at c p (at_pc s); held := set_at c (held_after (at_pc s c) (held s c)) (held s); saved := saved s |}.

Lemma moved_at s c p m : at_pc (moved s c p m) c = p.
Proof. apply supd_eq. Qed.

Lemma moved_held s c p m : held (moved s c p m) c = held_after (at_pc s c) (held s c).
Proof. apply (supd_eq c (λ _, held_after (at_pc s c) (held s c)) (held s)). Qed.

Lemma moved_elsewhere s c p m : (∀ c', c' ≠ c → cpus m c' = cpus (shm s) c') → elsewhere c s (moved s c p m).
Proof. intros Hm c' Hc. cbn. unfold set_at. rewrite !supd_ne by done. by split_and!; [..|apply Hm|]. Qed.

Lemma quiet_step s c p m x :
  linv s → only_cpu c x (shm s) m → quiet (at_pc s c) → quiet p → pc_ok p (held s c) →
  (let n := Z.of_nat (length (held s c)) + extra p in ncli x = n ∧ (0 < n → IF x = false ∧ intena x = saved s c) ∧ (n = 0 → IF x = saved s c)) →
  linv (moved s c p m).
Proof.
  intros Hinv (Hl & Hx & Ho) Hq Hq' Hpc Hcpu.
  assert (Hh : held (moved s c p m) c = held s c) by (rewrite moved_held; by destruct (at_pc s c)).
  apply (linv_local c s); [done|by apply moved_elsewhere|done|done|done|by rewrite moved_at| |by rewrite moved_at, Hh].
  unfold cpu_ok, level. rewrite moved_at, Hh. cbn. rewrite Hx. exact Hcpu.
Qed.

(** [pushcli] where interrupts are off already *)
Lemma push_step s c : linv s → 0 < level s c →
  ∃ m x, pushcli c (shm s) = Ret () m ∧ only_cpu c x (shm s) m ∧ ncli x = level s c + 1 ∧ IF x = false ∧ intena x = saved s c.
Proof.
  intros Hinv Hl. destruct (li_cpu _ Hinv c) as (Hn & Hi & _). destruct (Hi Hl) as [_ Hin]. destruct (pushcli_eq c (shm s)) as (m & Hm & Ho).
  eexists m, _. split_and!; [done|exact Ho|cbn; lia|done|]. cbn. by rewrite (proj2 (Z.eqb_neq _ _)) by lia.
Qed.

Lemma pop_step s c : linv s → 0 < level s c →
  ∃ m x, popcli c (shm s) = Ret () m ∧ only_cpu c x (shm s) m ∧ ncli x = level s c - 1 ∧ intena x = saved s c ∧
    IF x = (level s c - 1 =? 0) && saved s c.
Proof.
  intros Hinv Hl. destruct (li_cpu _ Hinv c) as (Hn & Hi & _). destruct (Hi Hl) as [Hif Hin]. destruct (popcli_eq c (shm s)) as (m & Hm & Ho); [lia|done|].
  eexists m, _. split_and!; [done|exact Ho|cbn; lia|done|]. cbn. by rewrite Hn, Hin.
Qed.

Lemma held_pos (s : sys) c (l : nat) : l ∈ held s c → (1 ≤ length (held s c))%nat.
Proof. destruct (held s c); [by intros ?%not_elem_of_nil|cbn; lia]. Qed.

Lemma acq_hold_step s c l stack : linv s → at_pc s c = AcqHold l →
  ∃ p m, pc_step c stack (AcqHold l) (shm s) = Ret p m ∧ linv (moved s c p m).
Proof.
  intros Hinv Hat. pose proof (li_pc _ Hinv c) as Hpc. rewrite Hat in Hpc.
  destruct (push_step s c Hinv) as (m & x & Hm & Ho & Hx1 & Hx2 & Hx3); [unfold level; rewrite Hat; cbn; lia|].
  unfold pc_step. rewrite (bind_Ret _ _ _ _ _ Hm). mrun. eexists _, m. split; [reflexivity|].
  apply (quiet_step _ _ _ _ x); try done; [by rewrite Hat|]. unfold level in *. rewrite Hat in *. cbn in *. split_and!; [lia|done|lia].
Qed.

Lemma acq_hold2_step s c l b stack : linv s → at_pc s c = AcqHold2 l b →
  ∃ p m, pc_step c stack (AcqHold2 l b) (shm s) = Ret p m ∧ linv (moved s c p m).
Proof.
  intros Hinv Hat. pose proof (li_pc _ Hinv c) as Hpc. rewrite Hat in Hpc. cbn in Hpc.
  destruct (pop_step s c Hinv) as (m & x & Hm & Ho & Hx1 & Hx2 & Hx3); [unfold level; rewrite Hat; cbn; lia|].
  unfold pc_step. mrun. rewrite (bind_Ret _ _ _ _ _ Hm). rewrite bool_decide_false.
  2:{ intros [H _]%(li_lcpu _ Hinv). done. }
  rewrite andb_false_r. eexists _, m. split; [reflexivity|].
  apply (quiet_step _ _ _ _ x); try done; [by rewrite Hat|]. unfold level in *. rewrite Hat in *. cbn in *.
  rewrite (proj2 (Z.eqb_neq _ _)) in Hx3 by lia. split_and!; [lia|done|lia].
Qed.

Lemma rel_hold_step s c l stack : linv s → at_pc s c = RelHold l →
  ∃ p m, pc_step c stack (RelHold l) (shm s) = Ret p m ∧ linv (moved s c p m).
Proof.
  intros Hinv Hat. pose proof (li_pc _ Hinv c) as Hpc. rewrite Hat in Hpc. pose proof (held_pos _ _ _ Hpc) as Hlen.
  destruct (push_step s c Hinv) as (m & x & Hm & Ho & Hx1 & Hx2 & Hx3); [unfold level; rewrite Hat; cbn; lia|].
  unfold pc_step. rewrite (bind_Ret _ _ _ _ _ Hm). mrun. eexists _, m. split; [reflexivity|].
  apply (quiet_step _ _ _ _ x); try done; [by rewrite Hat| |].
  - split; [done|]. pose proof Ho as (-> & _). apply (li_owner _ Hinv l c). by left.
  - unfold level in *. rewrite Hat in *. cbn in *. split_and!; [lia|done|lia].
Qed.

Lemma rel_hold2_step s c l b stack : linv s → at_pc s c = RelHold2 l b →
  ∃ p m, pc_step c stack (RelHold2 l b) (shm s) = Ret p m ∧ linv (moved s c p m).
Proof.
  intros Hinv Hat. pose proof (li_pc _ Hinv c) as Hpc. rewrite Hat in Hpc. destruct Hpc as [Hpc ->]. pose proof (held_pos _ _ _ Hpc) as Hlen.
  destruct (pop_step s c Hinv) as (m & x & Hm & Ho & Hx1 & Hx2 & Hx3); [unfold level; rewrite Hat; cbn; lia|].
  unfold pc_step. mrun. rewrite (bind_Ret _ _ _ _ _ Hm). rewrite bool_decide_true by (apply (li_lcpu _ Hinv); by rewrite Hat).
  cbn [negb andb Z.eqb]. eexists _, m. split; [reflexivity|].
  apply (quiet_step _ _ _ _ x); try done; [by rewrite Hat|]. unfold level in *. rewrite Hat in *. cbn [extra] in *.
  rewrite (proj2 (Z.eqb_neq _ _)) in Hx3 by lia. split_and!; [lia|done|lia].
Qed.

Lemma rel_pop_step s c l stack : linv s → at_pc s c = RelPop l →
  ∃ p m, pc_step c stack (RelPop l) (shm s) = Ret p m ∧ linv (moved s c p m).
Proof.
  intros Hinv Hat. destruct (pop_step s c Hinv) as (m & x & Hm & Ho & Hx1 & Hx2 & Hx3); [unfold level; rewrite Hat; cbn; lia|].
  unfold pc_step. rewrite (bind_Ret _ _ _ _ _ Hm). eexists _, m. split; [reflexivity|].
  apply (quiet_step _ _ _ _ x); try done; [by rewrite Hat|]. unfold level in *. rewrite Hat in *. cbn [extra] in *. split_and!; [lia| |].
  - intros Hpos. rewrite (proj2 (Z.eqb_neq _ _)) in Hx3 by lia. done.
  - intros Hz. rewrite (proj2 (Z.eqb_eq _ _)) in Hx3 by lia. done.
Qed.

(** ** Steps on a lock *)

Definition only_lock (l : nat) (x : spinlock) (s m : smp) : Prop :=
  cpus m = cpus s ∧ locks m l = x ∧ ∀ k, k ≠ l → locks m k = locks s k.

(** the invariant after a step on lock [l] that keeps the level of the CPU *)
Lemma lock_step s c p m l x :
  linv s → only_lock l x (shm s) m →
  let s' := moved s c p m in
  level s' c = level s c → pc_ok p (held s' c) → NoDup (held s' c) →
  (∀ k, k ≠ l → (k ∈ held s' c ↔ k ∈ held s c)) → (∀ k, k ≠ l → at_pc s c ≠ AcqSet k ∧ p ≠ AcqSet k ∧ at_pc s c ≠ RelUnlock k ∧ p ≠ RelUnlock k) →
  (locked x = 0 ∨ locked x = 1) → (∀ c', owns s' c' l → c' = c ∧ locked x = 1) →
  (∀ c', lcpu x = Some c' ↔ l ∈ held s' c' ∧ at_pc s' c' ≠ RelUnlock l) → linv s'.
Proof.
  intros [H1 H2 H3 H4 H5 H6 H7] (Hcpus & Hx & Hl) s' Hlev Hpc Hnd Hheld Hq Hx01 Hown Hlcpu.
  assert (He : elsewhere c s s') by (apply moved_elsewhere; intros; by rewrite Hcpus).
  assert (Hown' : ∀ c' k, k ≠ l → owns s' c' k ↔ owns s c' k).
  { intros c' k Hk. unfold owns. destruct (decide (c' = c)) as [->|Hc]; [|by destruct (He c' Hc) as (-> & -> & _)].
    destruct (Hq k Hk) as (Hq1 & Hq2 & _). rewrite Hheld by done. unfold s'. rewrite moved_at. tauto. }
  constructor.
  - intros c'. destruct (decide (c' = c)) as [->|Hc]; [|by eapply cpu_ok_elsewhere]. specialize (H1 c). unfold cpu_ok in *. rewrite Hlev. unfold s'. cbn. by rewrite Hcpus.
  - intros c'. destruct (decide (c' = c)) as [->|Hc]; [unfold s'; by rewrite moved_at|]. destruct (He c' Hc) as (-> & -> & _). apply H2.
  - intros c'. destruct (decide (c' = c)) as [->|Hc]; [done|]. destruct (He c' Hc) as (_ & -> & _). apply H3.
  - intros k. cbn. destruct (decide (k = l)) as [->|Hk]; [by rewrite Hx|rewrite Hl by done; apply H4].
  - intros k c' Ho. cbn. destruct (decide (k = l)) as [->|Hk]; [rewrite Hx; by apply (Hown c')|]. rewrite Hl by done. apply (H5 k c'). by apply Hown'.
  - intros k c1 c2 Ho1 Ho2. destruct (decide (k = l)) as [->|Hk]; [destruct (Hown _ Ho1), (Hown _ Ho2); congruence|].
    apply (H6 k); by apply Hown'.
  - intros k c'. change (locks (shm s') k) with (locks m k). destruct (decide (k = l)) as [->|Hk]; [rewrite Hx; apply Hlcpu|]. rewrite Hl, H7 by done.
    destruct (decide (c' = c)) as [->|Hc]; [|by destruct (He c' Hc) as (-> & -> & _)]. rewrite Hheld by done. unfold s'. rewrite moved_at.
    destruct (Hq k Hk) as (_ & _ & Hq3 & Hq4). tauto.
Qed.

Lemma moved_other s c p m c' : c' ≠ c → at_pc (moved s c p m) c' = at_pc s c' ∧ held (moved s c p m) c' = held s c'.
Proof. intros Hc. cbn. unfold set_at. by rewrite !supd_ne. Qed.

Lemma upd_only l f s : only_lock l (f (locks s l)) s {| locks := upd l f (locks s); cpus := cpus s |}.
Proof. split_and!; [done|apply supd_eq|intros k Hk; by apply supd_ne]. Qed.

Lemma set_locked_id x : locked x = 1 → set_locked 1 x = x.
Proof. destruct x. by intros [= ->]. Qed.

Lemma acq_spin_step s c l stack : linv s → at_pc s c = AcqSpin l →
  ∃ p m, pc_step c stack (AcqSpin l) (shm s) = Ret p m ∧ linv (moved s c p m).
Proof.
  intros Hinv Hat. pose proof (li_pc _ Hinv c) as Hpc. rewrite Hat in Hpc. cbn in Hpc. unfold pc_step. mrun. cbn zeta.
  pose proof (upd_only l (set_locked 1) (shm s)) as Ho. set (m := {| locks := upd l _ _; cpus := _ |}) in *.
  destruct (li_free _ Hinv l) as [Hf|Hf]; rewrite Hf; cbn [Z.eqb].
  - eexists _, m. split; [reflexivity|].
    assert (Hno : ∀ c', ¬ owns s c' l) by (intros c' H%(li_owner _ Hinv); lia).
    apply (lock_step _ _ _ _ l _ Hinv Ho); rewrite ?moved_held, ?Hat; try done.
    + unfold level. by rewrite moved_at, moved_held, Hat.
    + apply (li_nodup _ Hinv).
    + intros k Hk. split_and!; try done. congruence.
    + by right.
    + intros c' H. split; [|done]. destruct (decide (c' = c)) as [|Hc]; [done|]. destruct (Hno c'). unfold owns in *. by destruct (moved_other s c (AcqSet l) m c' Hc) as [<- <-].
    + intros c'. cbn [lcpu set_locked]. rewrite (li_lcpu _ Hinv). destruct (decide (c' = c)) as [->|Hc].
      * rewrite moved_at, moved_held, Hat. cbn. tauto.
      * by destruct (moved_other s c (AcqSet l) m c' Hc) as [-> ->].
  - eexists _, m. split; [reflexivity|]. destruct Ho as (Hc & Hl & Hk). apply (quiet_step _ _ _ _ (cpus (shm s) c)); try done; [|by rewrite Hat|].
    + split_and!; [|by rewrite Hc|by rewrite Hc]. intros k. destruct (decide (k = l)) as [->|]; [rewrite Hl; by apply set_locked_id|by apply Hk].
    + pose proof (li_cpu _ Hinv c) as H. unfold cpu_ok, level in H. rewrite Hat in H. exact H.
Qed.

Lemma upd2_only l f g s : only_lock l (g (f (locks s l))) s {| locks := upd l g (upd l f (locks s)); cpus := cpus s |}.
Proof. split_and!; [done|cbn; by rewrite !supd_eq|intros k Hk; cbn; by rewrite !supd_ne]. Qed.

Lemma acq_set_step s c l stack : linv s → at_pc s c = AcqSet l →
  ∃ p m, pc_step c stack (AcqSet l) (shm s) = Ret p m ∧ linv (moved s c p m).
Proof.
  intros Hinv Hat. pose proof (li_pc _ Hinv c) as Hpc. rewrite Hat in Hpc. cbn in Hpc. unfold pc_step. mrun.
  pose proof (upd2_only l (set_lcpu (Some c)) (set_pcs stack) (shm s)) as Ho. set (m := {| locks := upd l _ _; cpus := _ |}) in *.
  eexists _, m. split; [reflexivity|]. assert (Hown : owns s c l) by by right. pose proof (li_owner _ Hinv _ _ Hown) as Hlk.
  assert (Hone : ∀ c', c' ≠ c → l ∉ held s c' ∧ at_pc s c' ≠ AcqSet l).
  { intros c' Hc. split; intros H; apply Hc, (li_one _ Hinv l); try done; [by left|by right]. }
  apply (lock_step _ _ _ _ l _ Hinv Ho); rewrite ?moved_held, ?Hat; cbn [held_after]; try done.
  - unfold level. rewrite moved_at, moved_held, Hat. cbn. lia.
  - apply NoDup_cons. split; [done|apply (li_nodup _ Hinv)].
  - intros k Hk. set_solver.
  - intros k Hk. split_and!; try done. congruence.
  - by right.
  - intros c' H. split; [|done]. destruct (decide (c' = c)) as [|Hc]; [done|]. destruct (Hone c' Hc). unfold owns in H. destruct (moved_other s c Idle m c' Hc) as [Ha Hh].
    rewrite Ha, Hh in H. tauto.
  - intros c'. cbn [lcpu set_lcpu set_pcs]. destruct (decide (c' = c)) as [->|Hc].
    + rewrite moved_at, moved_held, Hat. cbn. split; [|done]. intros _. split; [left|done].
    + destruct (moved_other s c Idle m c' Hc) as [-> ->]. destruct (Hone c' Hc). split; [congruence|tauto].
Qed.

Lemma rel_clear_step s c l stack : linv s → at_pc s c = RelClear l →
  ∃ p m, pc_step c stack (RelClear l) (shm s) = Ret p m ∧ linv (moved s c p m).
Proof.
  intros Hinv Hat. pose proof (li_pc _ Hinv c) as Hpc. rewrite Hat in Hpc. cbn in Hpc. unfold pc_step. mrun.
  pose proof (upd2_only l (λ x, set_pcs (<[0%nat:=0]> (pcs x)) x) (set_lcpu None) (shm s)) as Ho. set (m := {| locks := upd l _ _; cpus := _ |}) in *.
  eexists _, m. split; [reflexivity|]. assert (Hown : owns s c l) by by left. pose proof (li_owner _ Hinv _ _ Hown) as Hlk.
  assert (Hone : ∀ c', c' ≠ c → l ∉ held s c' ∧ at_pc s c' ≠ AcqSet l).
  { intros c' Hc. split; intros H; apply Hc, (li_one _ Hinv l); try done; [by left|by right]. }
  apply (lock_step _ _ _ _ l _ Hinv Ho); rewrite ?moved_held, ?Hat; cbn [held_after]; try done.
  - unfold level. by rewrite moved_at, moved_held, Hat.
  - apply (li_nodup _ Hinv).
  - intros k Hk. split_and!; try done. congruence.
  - by right.
  - intros c' H. split; [|done]. destruct (decide (c' = c)) as [|Hc]; [done|]. destruct (Hone c' Hc). unfold owns in H. destruct (moved_other s c (RelUnlock l) m c' Hc) as [Ha Hh].
    rewrite Ha, Hh in H. tauto.
  - intros c'. cbn [lcpu set_lcpu set_pcs]. split; [done|]. destruct (decide (c' = c)) as [->|Hc]; [rewrite moved_at; tauto|].
    destruct (moved_other s c (RelUnlock l) m c' Hc) as [-> ->]. destruct (Hone c' Hc). tauto.
Qed.

Lemma length_remove (l : nat) h : NoDup h → l ∈ h → length h = S (length (filter (λ k, k ≠ l) h)).
Proof.
  induction 1 as [|x h Hx Hnd IH]; [by intros ?%not_elem_of_nil|]. intros [->|Hin]%elem_of_cons.
  - rewrite filter_cons_False by (intros H; by apply H). cbn. f_equal. clear IH Hnd. induction h as [|y h IH]; [done|].
    apply not_elem_of_cons in Hx as [Hxy Hx]. rewrite filter_cons_True by congruence. cbn. f_equal. by apply IH.
  - rewrite filter_cons_True by (intros ->; done). cbn. f_equal. by apply IH.
Qed.

Lemma rel_unlock_step s c l stack : linv s → at_pc s c = RelUnlock l →
  ∃ p m, pc_step c stack (RelUnlock l) (shm s) = Ret p m ∧ linv (moved s c p m).
Proof.
  intros Hinv Hat. pose proof (li_pc _ Hinv c) as Hpc. rewrite Hat in Hpc. cbn in Hpc. unfold pc_step. mrun.
  pose proof (upd_only l (set_locked 0) (shm s)) as Ho. set (m := {| locks := upd l _ _; cpus := _ |}) in *. eexists _, m. split; [reflexivity|].
  assert (Hone : ∀ c', c' ≠ c → l ∉ held s c' ∧ at_pc s c' ≠ AcqSet l).
  { intros c' Hc. split; intros H; apply Hc, (li_one _ Hinv l); try (by left); by right. }
  assert (Hlen := length_remove _ _ (li_nodup _ Hinv c) Hpc).
  assert (Hnone : ∀ c', ¬ owns (moved s c (RelPop l) m) c' l).
  { intros c'. unfold owns. destruct (decide (c' = c)) as [->|Hc].
    - rewrite moved_at, moved_held, Hat. cbn [held_after]. rewrite list_elem_of_filter. intros [[H _]|H]; done.
    - destruct (moved_other s c (RelPop l) m c' Hc) as [-> ->]. destruct (Hone c' Hc). tauto. }
  apply (lock_step _ _ _ _ l _ Hinv Ho); rewrite ?moved_held, ?Hat; cbn [held_after]; try done.
  - unfold level. rewrite moved_at, moved_held, Hat. cbn [held_after extra]. lia.
  - apply NoDup_filter, (li_nodup _ Hinv).
  - intros k Hk. rewrite list_elem_of_filter. tauto.
  - intros k Hk. split_and!; try done. congruence.
  - by left.
  - intros c' H. by destruct (Hnone c').
  - intros c'. cbn [lcpu set_locked]. rewrite (li_lcpu _ Hinv). split.
    + intros [Hin Hne]. destruct (decide (c' = c)) as [->|Hc]; [done|]. by destruct (Hone c' Hc).
    + intros [Hin _]. destruct (Hnone c'). by left.
Qed.

Lemma pc_step_ok s c stack : linv s → at_pc s c ≠ Idle →
  ∃ p m, pc_step c stack (at_pc s c) (shm s) = Ret p m ∧ linv (moved s c p m).
Proof.
  intros Hinv Hne. destruct (at_pc s c) eqn:Hat; [done|..].
  - by apply acq_hold_step.
  - by apply acq_hold2_step.
  - by apply acq_spin_step.
  - by apply acq_set_step.
  - by apply rel_hold_step.
  - by apply rel_hold2_step.
  - by apply rel_clear_step.
  - by apply rel_unlock_step.
  - by apply rel_pop_step.
Qed.

Lemma acquire_call_ok s c l p m :
  linv s → at_pc s c = Idle → l ∉ held s c → acquire_call c l (shm s) = Ret p m →
  linv {| shm := m; at_pc := set_at c p (at_pc s); held := held s;
          saved := if decide (held s c = []) then set_at c (IF (cpus (shm s) c)) (saved s) else saved s |}.
Proof.
  intros Hinv Hat Hl Hr. destruct (pushcli_eq c (shm s)) as (m' & Hm & Hlk & Hx & Ho). unfold acquire_call in Hr.
  rewrite (bind_Ret _ _ _ _ _ Hm) in Hr. injection Hr as <- <-. destruct (li_cpu _ Hinv c) as (Hn & Hi & Hz). unfold level in *. rewrite Hat in *. cbn [extra] in *.
  apply (linv_local c s); cbn [shm at_pc held saved]; rewrite ?Hat; try done.
  - intros c' Hc. cbn. unfold set_at. rewrite supd_ne by done. split_and!; [done|done|by apply Ho|]. destruct (decide _); [by rewrite supd_ne|done].
  - unfold set_at. by rewrite supd_eq.
  - unfold cpu_ok, level. cbn. unfold set_at. rewrite supd_eq, Hx. cbn [extra ncli intena IF]. split_and!; [lia| |lia]. intros _. split; [done|].
    destruct (decide (held s c = [])) as [He|He].
    + rewrite supd_eq. rewrite (proj2 (Z.eqb_eq _ _)); [done|]. rewrite Hn, He. done.
    + assert (length (held s c) ≠ 0%nat) by (by destruct (held s c)). rewrite (proj2 (Z.eqb_neq _ _)) by lia. apply Hi. lia.
  - unfold set_at. by rewrite supd_eq.
Qed.

Lemma lstep_linv s s' : linv s → lstep s s' → linv s'.
Proof.
  intros Hinv Hstep. destruct Hstep as [s c l p m Hat Hl Hr|s c l p m Hat Hl Hr|s c stack p m Hat Hr|s c v m Hat Hh Hr].
  - by eapply acquire_call_ok.
  - injection Hr as <- <-. pose proof (li_cpu _ Hinv c) as Hcpu. unfold cpu_ok, level in Hcpu. rewrite Hat in Hcpu.
    apply (linv_local c s); cbn [shm at_pc held saved]; rewrite ?Hat; try done; unfold set_at.
    + intros c' Hc. cbn. by rewrite supd_ne.
    + by rewrite supd_eq.
    + unfold cpu_ok, level. cbn. rewrite supd_eq. exact Hcpu.
    + by rewrite supd_eq.
  - destruct (pc_step_ok s c stack Hinv Hat) as (p' & m' & Hr' & Hinv'). rewrite Hr in Hr'. injection Hr' as <- <-. exact Hinv'.
  - injection Hr as <-. destruct (li_cpu _ Hinv c) as (Hn & _). unfold level in Hn. rewrite Hat, Hh in Hn.
    apply (linv_local c s); cbn [shm at_pc held saved]; rewrite ?Hat; try done; unfold set_at.
    + intros c' Hc. cbn. by rewrite !supd_ne.
    + unfold cpu_ok, level. cbn. rewrite !supd_eq, Hat, Hh. cbn. split_and!; [exact Hn|lia|done].
Qed.

(** no lock is held, and no CPU is in [acquire] or [release] *)
Definition start (s : sys) : Prop :=
  (∀ c, at_pc s c = Idle ∧ held s c = [] ∧ ncli (cpus (shm s) c) = 0 ∧ IF (cpus (shm s) c) = saved s c) ∧
  (∀ l, locked (locks (shm s) l) = 0 ∧ lcpu (locks (shm s) l) = None).

Lemma start_linv s : start s → linv s.
Proof.
  intros [Hc Hl]. assert (Hno : ∀ c l, ¬ owns s c l).
  { intros c l [H|H]; destruct (Hc c) as (Ha & Hh & _); [rewrite Hh in H; by apply not_elem_of_nil in H|congruence]. }
  constructor.
  - intros c. destruct (Hc c) as (Ha & Hh & Hn & Hi). unfold cpu_ok, level. rewrite Ha, Hh, Hn. cbn. split_and!; [done|lia|done].
  - intros c. by destruct (Hc c) as (-> & _).
  - intros c. destruct (Hc c) as (_ & -> & _). constructor.
  - intros l. left. apply Hl.
  - intros l c H. by destruct (Hno c l).
  - intros l c c' H. by destruct (Hno c l).
  - intros l c. destruct (Hl l) as [_ ->]. split; [done|]. intros [H _]. destruct (Hno c l). by left.
Qed.

Lemma lsteps_linv s s' : linv s → rtc lstep s s' → linv s'.
Proof. intros Hinv H. induction H as [|s1 s2 s3 Hs _ IH]; [done|]. apply IH. by eapply lstep_linv. Qed.

(** C16: a lock excludes: whatever the interleaving of any number of CPUs that acquire and
    release locks, no two of them hold the same lock.  The check of [holding], which reads
    the two fields of the lock at different times while other CPUs change them, is right
    about the CPU's own locks, so that neither [acquire] nor [release] nor [popcli] panics. *)
Theorem spinlock_excludes s0 s :
  start s0 → rtc lstep s0 s →
  (∀ l c c', l ∈ held s c → l ∈ held s c' → c = c') ∧
  (∀ c stack, at_pc s c ≠ Idle → ∃ p m, pc_step c stack (at_pc s c) (shm s) = Ret p m).
Proof.
  intros H0 Hr. pose proof (lsteps_linv _ _ (start_linv _ H0) Hr) as Hinv. split.
  - intros l c c' H H'. apply (li_one _ Hinv l); by left.
  - intros c stack Hne. destruct (pc_step_ok s c stack Hinv Hne) as (p & m & H & _). eauto.
Qed.

(** C31: a CPU that holds a lock has its interrupts off, from [acquire] to the last
    [release]; when it has released its last lock they are as they were when it acquired
    the first one, in whatever order it released them. *)
Theorem spinlock_interrupts s0 s c :
  start s0 → rtc lstep s0 s →
  (held s c ≠ [] → IF (cpus (shm s) c) = false) ∧ (held s c = [] → at_pc s c = Idle → IF (cpus (shm s) c) = saved s c).
Proof.
  intros H0 Hr. pose proof (lsteps_linv _ _ (start_linv _ H0) Hr) as Hinv. destruct (li_cpu _ Hinv c) as (_ & Hpos & Hz). unfold level in *. split.
  - intros Hne. apply Hpos. assert (0 ≤ extra (at_pc s c)) by (destruct (at_pc s c); cbn; lia). destruct (held s c); [done|]. cbn. lia.
  - intros Hh Ha. apply Hz. by rewrite Hh, Ha.
Qed.

(** the walk up the stack reads words of the kernel only, and fills the ten entries *)
Lemma getcallerpcs_kernel word word' v :
  (∀ a, KERNBASE ≤ a → word a = word' a) → getcallerpcs word v = getcallerpcs word' v ∧ length (getcallerpcs word v) = 10%nat.
Proof.
  intros Hw. assert (Hloop : ∀ n ebp, caller_loop word n ebp = caller_loop word' n ebp ∧ (length (caller_loop word n ebp) ≤ n)%nat).
  { induction n as [|n IH]; intros ebp; [done|]. cbn [caller_loop]. destruct ((ebp =? 0) || (ebp <? KERNBASE) || _) eqn:E; [split; [done|cbn; lia]|].
    apply orb_false_iff in E as [E _]. apply orb_false_iff in E as [_ E]. apply Z.ltb_ge in E. destruct (IH (word ebp)) as [IH1 IH2].
    rewrite (Hw (ebp + 4)) by lia. rewrite <- (Hw ebp) by lia. rewrite IH1 in *. split; [done|cbn; lia]. }
  unfold getcallerpcs. destruct (Hloop 10%nat (u32 (v - 8))) as [<- H]. split; [done|]. rewrite length_app, length_replicate. lia.
Qed.

(** ** Running the CPUs

    A schedule says which CPU makes which step. *)

Inductive act := Acq (c l : nat) | Rel (c l : nat) | Go (c : nat).

Definition do_act (a : act) (s : sys) : option sys :=
  match a with
  | Acq c l =>
      if decide (at_pc s c = Idle ∧ l ∉ held s c) then
        match acquire_call c l (shm s) with
        | Ret p m => Some {| shm := m; at_pc := set_at c p (at_pc s); held := held s;
                             saved := if decide (held s c = []) then set_at c (IF (cpus (shm s) c)) (saved s) else saved s |}
        | _ => None
        end
      else None
  | Rel c l =>
      if decide (at_pc s c = Idle ∧ l ∈ held s c) then
        match release_call l (shm s) with
        | Ret p m => Some {| shm := m; at_pc := set_at c p (at_pc s); held := held s; saved := saved s |}
        | _ => None
        end
      else None
  | Go c =>
      if decide (at_pc s c = Idle) then None
      else
        match pc_step c [] (at_pc s c) (shm s) with
        | Ret p m => Some (moved s c p m)
        | _ => None
        end
  end.

Definition play (l : list act) (s : sys) : option sys := foldl (λ o a, o ≫= do_act a) (Some s) l.

Lemma do_act_step a s s' : do_act a s = Some s' → lstep s s'.
Proof.
  intros E. destruct a as [c l|c l|c]; cbn in E; case_decide as Hd; try discriminate E.
  - destruct Hd, (acquire_call c l (shm s)) as [p m| | |] eqn:Hp; [|discriminate E..]. injection E as <-. by eapply l_acquire.
  - destruct Hd. injection E as <-. by eapply l_release.
  - destruct (pc_step c [] (at_pc s c) (shm s)) as [p m| | |] eqn:Hp; [|discriminate E..]. injection E as <-. by eapply l_step.
Qed.

Lemma play_steps l : ∀ s s', play l s = Some s' → rtc lstep s s'.
Proof.
  induction l as [|a l IH] using rev_ind; intros s s' E; [by injection E as <-|].
  unfold play in E. rewrite foldl_app in E. apply bind_Some in E as (s1 & E1 & E2). eapply rtc_r; [by apply IH|by eapply do_act_step].
Qed.

(** ** Two CPUs and two locks *)

Definition sys0 : sys := {|
  shm := {| locks := λ _, {| locked := 0; lcpu := None; pcs := replicate 10 0 |}; cpus := λ _, {| ncli := 0; intena := false; IF := true |} |};
  at_pc := λ _, Idle; held := λ _, []; saved := λ _, true |}.

(** CPU 0 acquires lock 0; CPU 1 wants it too, interleaved, and spins *)
Definition contend : list act :=
  [Acq 0 0; Acq 1 0; Go 0; Go 1; Go 0; Go 1; Go 0; Go 1; Go 0; Go 1].

(** CPU 0 releases it and CPU 1 gets it *)
Definition hand_over : list act := [Rel 0 0; Go 0; Go 0; Go 0; Go 1; Go 0; Go 1; Go 0; Go 1].

Lemma spinlock_excludes_witness :
  (∃ s, play contend sys0 = Some s ∧ (held s 0%nat = [0%nat] ∧ at_pc s 1%nat = AcqSpin 0) ∧
     (∀ l c c', l ∈ held s c → l ∈ held s c' → c = c') ∧
     (∀ c stack, at_pc s c ≠ Idle → ∃ p m, pc_step c stack (at_pc s c) (shm s) = Ret p m)) ∧
  (∃ s, play (contend ++ hand_over) sys0 = Some s ∧ (held s 0%nat = [] ∧ held s 1%nat = [0%nat]) ∧
     (∀ l c c', l ∈ held s c → l ∈ held s c' → c = c') ∧
     (∀ c stack, at_pc s c ≠ Idle → ∃ p m, pc_step c stack (at_pc s c) (shm s) = Ret p m)).
Proof.
  split; (eexists; split; [vm_compute; reflexivity|]; split; [by vm_compute|]).
  - apply (spinlock_excludes sys0); [by split|]. apply (play_steps contend). vm_compute. reflexivity.
  - apply (spinlock_excludes sys0); [by split|]. apply (play_steps (contend ++ hand_over)). vm_compute. reflexivity.
Defined.

(** CPU 0 takes locks 0 and 1 and releases them in the same order *)
Definition nested : list act := [Acq 0 0; Go 0; Go 0; Go 0; Go 0; Acq 0 1; Go 0; Go 0; Go 0; Go 0].
Definition unnested : list act := [Rel 0 0; Go 0; Go 0; Go 0; Go 0; Go 0; Rel 0 1; Go 0; Go 0; Go 0; Go 0; Go 0].

Lemma spinlock_interrupts_witness :
  (∃ s, play nested sys0 = Some s ∧ held s 0%nat = [1; 0]%nat ∧
     (held s 0%nat ≠ [] → IF (cpus (shm s) 0%nat) = false) ∧ (held s 0%nat = [] → at_pc s 0%nat = Idle → IF (cpus (shm s) 0%nat) = saved s 0%nat)) ∧
  (∃ s, play (nested ++ unnested) sys0 = Some s ∧ (held s 0%nat = [] ∧ at_pc s 0%nat = Idle ∧ saved s 0%nat = true) ∧
     (held s 0%nat ≠ [] → IF (cpus (shm s) 0%nat) = false) ∧ (held s 0%nat = [] → at_pc s 0%nat = Idle → IF (cpus (shm s) 0%nat) = saved s 0%nat)).
Proof.
  split; (eexists; split; [vm_compute; reflexivity|]; split; [by vm_compute|]).
  - apply (spinlock_interrupts sys0); [by split|]. apply (play_steps nested). vm_compute. reflexivity.
  - apply (spinlock_interrupts sys0); [by split|]. apply (play_steps (nested ++ unnested)). vm_compute. reflexivity.
Defined.
