(* ===== verification/Mp.v ===== *)
(** * mp.c: finding the processors

    The BIOS tables in physical memory ([mem], a byte per address), searched and walked as
    mp.c does.  [mpinit] fills [cpus] (the ids of the local APICs, in order), [ioapicid] and
    [lapic], and writes to two ports. *)

From S2P Require Import Prelude.

Definition NCPU : nat := 8.
Definition MPPROC : Z := 0x00.
Definition MPBUS : Z := 0x01.
Definition MPIOAPIC : Z := 0x02.
Definition MPIOINTR : Z := 0x03.
Definition MPLINTR : Z := 0x04.

(** sizes of the structures *)
Definition sizeof_mp : Z := 16.
Definition sizeof_mpconf : Z := 44.
Definition sizeof_mpproc : Z := 20.
Definition sizeof_mpioapic : Z := 8.

Section mp.
  Context (mem : Z → Z).

Definition mem16 (a : Z) : Z := mem a + 2 ^ 8 * mem (a + 1).
Definition mem32 (a : Z) : Z := mem a + 2 ^ 8 * mem (a + 1) + 2 ^ 16 * mem (a + 2) + 2 ^ 24 * mem (a + 3).

Fixpoint sum_loop (n : nat) (a : Z) (acc : Z) : Z :=
  match n with
  | O => acc
  | S n => sum_loop n (a + 1) (i32 (acc + mem a))
  end.

Definition sum (addr len : Z) : Z := u8 (sum_loop (Z.to_nat len) addr 0).

(** [memcmp] with a signature of four bytes *)
Definition is_sig (a : Z) (sig : list Z) : bool := bool_decide ([mem a; mem (a + 1); mem (a + 2); mem (a + 3)] = sig).
Definition sig_mp : list Z := [95; 77; 80; 95].
Definition sig_pcmp : list Z := [80; 67; 77; 80].

(** [n] structures from [p] on *)
Fixpoint search_loop (n : nat) (p : Z) : option Z :=
  match n with
  | O => None
  | S n => if is_sig p sig_mp && (sum p sizeof_mp =? 0) then Some p else search_loop n (p + sizeof_mp)
  end.

Definition mpsearch1 (a len : Z) : option Z := search_loop (Z.to_nat ((len + (sizeof_mp - 1)) / sizeof_mp)) a.

Definition mpsearch : option Z :=
  let bda := 0x400 in
  let p := Z.shiftl (Z.lor (Z.shiftl (mem (bda + 0x0F)) 8) (mem (bda + 0x0E))) 4 in
  let rom := mpsearch1 0xF0000 0x10000 in
  if negb (p =? 0) then
    match mpsearch1 p 1024 with Some mp => Some mp | None => rom end
  else
    let p := Z.lor (Z.shiftl (mem (bda + 0x14)) 8) (mem (bda + 0x13)) * 1024 in
    match mpsearch1 (u32 (p - 1024)) 1024 with Some mp => Some mp | None => rom end.

(** the [struct mp] and the configuration table *)
Definition mpconfig : option (Z * Z) :=
  match mpsearch with
  | None => None
  | Some mp =>
      let conf := mem32 (mp + 4) in
      if conf =? 0 then None
      else if negb (is_sig conf sig_pcmp) then None
      else if negb (mem (conf + 6) =? 1) && negb (mem (conf + 6) =? 4) then None
      else if negb (sum conf (mem16 (conf + 4)) =? 0) then None
      else Some (mp, conf)
  end.

Record mpstate := { cpus : list Z; ioapicid : Z; lapic : Z; ismp : bool; ports : list (Z * Z) }.

(** the loop over the entries; in the default case [break] leaves the switch only *)
Fixpoint mp_loop (fuel : nat) (p e : Z) (s : mpstate) : outcome mpstate unit :=
  match fuel with
  | O => NoFuel
  | S fuel =>
      if p <? e then
        let t := mem p in
        if t =? MPPROC then
          mp_loop fuel (p + sizeof_mpproc) e
            (if decide (length (cpus s) < NCPU)%nat then
               {| cpus := cpus s ++ [mem (p + 1)]; ioapicid := ioapicid s; lapic := lapic s; ismp := ismp s; ports := ports s |}
             else s)
        else if t =? MPIOAPIC then
          mp_loop fuel (p + sizeof_mpioapic) e {| cpus := cpus s; ioapicid := mem (p + 1); lapic := lapic s; ismp := ismp s; ports := ports s |}
        else if (t =? MPBUS) || (t =? MPIOINTR) || (t =? MPLINTR) then mp_loop fuel (p + 8) e s
        else mp_loop fuel p e {| cpus := cpus s; ioapicid := ioapicid s; lapic := lapic s; ismp := false; ports := ports s |}
      else Ret () s
  end.

(** [imcr]: what port 0x23 reads *)
Definition mpinit (fuel : nat) (imcr : Z) : M mpstate unit := λ s,
  match mpconfig with
  | None => Panic "Expect to run on an SMP"
  | Some (mp, conf) =>
      let s := {| cpus := cpus s; ioapicid := ioapicid s; lapic := mem32 (conf + 36); ismp := true; ports := ports s |} in
      match mp_loop fuel (conf + sizeof_mpconf) (conf + mem16 (conf + 4)) s with
      | Ret _ s =>
          if negb (ismp s) then Panic "Didn't find a suitable machine"
          else if negb (mem (mp + 12) =? 0) then
            Ret () {| cpus := cpus s; ioapicid := ioapicid s; lapic := lapic s; ismp := ismp s; ports := ports s ++ [(0x22, 0x70); (0x23, Z.lor imcr 1)] |}
          else Ret () s
      | o => o
      end
  end.

(** ** The entries of a table *)

Inductive entry :=
  | Proc (apicid : Z)
  | Ioapic (apicno : Z)
  | Skipped (t : Z).

Definition entry_size (x : entry) : Z := match x with Proc _ => sizeof_mpproc | Ioapic _ => sizeof_mpioapic | Skipped _ => 8 end.

(** the bytes at [p] are the entry *)
Definition entry_at (p : Z) (x : entry) : Prop :=
  match x with
  | Proc id => mem p = MPPROC ∧ mem (p + 1) = id
  | Ioapic no => mem p = MPIOAPIC ∧ mem (p + 1) = no
  | Skipped t => mem p = t ∧ (t = MPBUS ∨ t = MPIOINTR ∨ t = MPLINTR)
  end.

Fixpoint entries_at (p : Z) (l : list entry) (e : Z) : Prop :=
  match l with
  | [] => p = e
  | x :: l => entry_at p x ∧ entries_at (p + entry_size x) l e
  end.

Definition apicids (l : list entry) : list Z := omap (λ x, match x with Proc id => Some id | _ => None end) l.
Definition ioapics (l : list entry) : list Z := omap (λ x, match x with Ioapic no => Some no | _ => None end) l.

Lemma entries_end p l e : entries_at p l e → p ≤ e.
Proof. revert p. induction l as [|x l IH]; intros p; cbn; [lia|]. intros [_ H%IH]. destruct x; cbn in H; unfold sizeof_mpproc, sizeof_mpioapic in H; lia. Qed.

Lemma mp_loop_entries l : ∀ p e s fuel, entries_at p l e → (length l < fuel)%nat → (length (cpus s) ≤ NCPU)%nat →
  ∃ s', mp_loop fuel p e s = Ret () s' ∧ cpus s' = take NCPU (cpus s ++ apicids l) ∧
    ioapicid s' = default (ioapicid s) (last (ioapics l)) ∧ lapic s' = lapic s ∧ ismp s' = ismp s ∧ ports s' = ports s.
Proof.
  induction l as [|x l IH]; intros p e s [|fuel] Hl Hf Hc; cbn [length] in Hf; try lia; cbn [entries_at] in Hl; cbn [mp_loop].
  - subst. rewrite Z.ltb_irrefl. exists s. split_and!; try done. cbn. rewrite app_nil_r. by rewrite take_ge.
  - destruct Hl as [Hx Hl]. pose proof (entries_end _ _ _ Hl) as He.
    assert (Hlt : p < e) by (destruct x; cbn in He; unfold sizeof_mpproc, sizeof_mpioapic in He; lia). rewrite (proj2 (Z.ltb_lt p e) Hlt). destruct x as [id|no|t]; cbn [entry_at entry_size] in *.
    + destruct Hx as [-> ->]. cbn [Z.eqb MPPROC]. destruct (decide _) as [Hd|Hd].
      * destruct (IH _ _ {| cpus := cpus s ++ [id]; ioapicid := ioapicid s; lapic := lapic s; ismp := ismp s; ports := ports s |} fuel Hl) as (s' & -> & H1 & H2); [lia|cbn; rewrite length_app; cbn; lia|].
        exists s'. split; [done|]. split; [|exact H2]. rewrite H1. cbn. by rewrite <- app_assoc.
      * destruct (IH _ _ s fuel Hl) as (s' & -> & H1 & H2); [lia|done|]. exists s'. split; [done|]. split; [|exact H2]. rewrite H1.
        rewrite !take_app_le by lia. done.
    + destruct Hx as [-> ->]. cbn [Z.eqb MPPROC MPIOAPIC].
      destruct (IH _ _ {| cpus := cpus s; ioapicid := no; lapic := lapic s; ismp := ismp s; ports := ports s |} fuel Hl) as (s' & -> & H1 & H2 & H3); [lia|done|].
      exists s'. split_and!; [done|exact H1| |apply H3..]. rewrite H2. cbn. rewrite last_cons. by destruct (last _).
    + destruct Hx as [-> Ht]. destruct (IH _ _ s fuel Hl) as (s' & Hs & H); [lia|done|]. exists s'. split; [|exact H].
      destruct Ht as [-> | [-> | ->]]; exact Hs.
Qed.

(** an entry of another type *)
Lemma mp_loop_stuck p e : p < e → mem p ∉ [MPPROC; MPBUS; MPIOAPIC; MPIOINTR; MPLINTR] → ∀ fuel s, mp_loop fuel p e s = NoFuel.
Proof.
  intros Hp Ht. induction fuel as [|fuel IH]; intros s; [done|]. cbn [mp_loop]. rewrite (proj2 (Z.ltb_lt p e) Hp).
  rewrite !not_elem_of_cons in Ht. destruct Ht as (H1 & H2 & H3 & H4 & H5 & _). rewrite !(proj2 (Z.eqb_neq _ _)) by done. apply IH.
Qed.
End mp.

(** [mpinit] finds the machine that a well-formed table describes: the first eight
    processors in the order of the table, the last I/O APIC and the address of the local
    APIC. *)
Theorem mpinit_spec mem mp conf l imcr s fuel :
  mpconfig mem = Some (mp, conf) → cpus s = [] → mem (mp + 12) = 0 → (length l < fuel)%nat →
  entries_at mem (conf + sizeof_mpconf) l (conf + mem16 mem (conf + 4)) →
  ∃ s', mpinit mem fuel imcr s = Ret () s' ∧ cpus s' = take NCPU (apicids l) ∧ ioapicid s' = default (ioapicid s) (last (ioapics l)) ∧
    lapic s' = mem32 mem (conf + 36) ∧ ports s' = ports s.
Proof.
  intros Hc Hs Hi Hf Hl. unfold mpinit. rewrite Hc.
  destruct (mp_loop_entries mem l _ _ {| cpus := cpus s; ioapicid := ioapicid s; lapic := mem32 mem (conf + 36); ismp := true; ports := ports s |} fuel Hl Hf) as (s' & -> & H1 & H2 & H3 & H4 & H5);
    [cbn; rewrite Hs; cbn; unfold NCPU; lia|].
  rewrite H4, Hi. cbn [negb Z.eqb]. exists s'. split_and!; try done. rewrite H1. cbn. by rewrite Hs.
Qed.

(** an entry of an unknown type is meant to end in the panic after the loop, but the
    [break] of its case only leaves the switch: [mpinit] never returns. *)
Theorem mpinit_hangs mem mp conf imcr s fuel :
  mpconfig mem = Some (mp, conf) → sizeof_mpconf < mem16 mem (conf + 4) →
  mem (conf + sizeof_mpconf) ∉ [MPPROC; MPBUS; MPIOAPIC; MPIOINTR; MPLINTR] → mpinit mem fuel imcr s = NoFuel.
Proof. intros Hc Hlt Ht. unfold mpinit. rewrite Hc. by rewrite mp_loop_stuck by (try done; lia). Qed.

(** ** Two tables *)

Fixpoint bytes_at (l : list (Z * Z)) (a : Z) : Z :=
  match l with
  | [] => 0
  | (k, v) :: l => if a =? k then v else bytes_at l a
  end.

(** the floating pointer in the extended BIOS area, and a table with one entry *)
Definition bios (len ck t id : Z) : Z → Z := bytes_at
  [(0x40F, 1); (0x1000, 95); (0x1001, 77); (0x1002, 80); (0x1003, 95); (0x1005, 0x20); (0x100A, 133);
   (0x2000, 80); (0x2001, 67); (0x2002, 77); (0x2003, 80); (0x2004, len); (0x2006, 4); (0x2007, ck); (0x202C, t); (0x202D, id)].

Definition mp0 : mpstate := {| cpus := []; ioapicid := 0; lapic := 0; ismp := false; ports := [] |}.

Lemma mpinit_spec_witness :
  ∃ s', mpinit (bios 64 137 0 3) 2 0 mp0 = Ret () s' ∧ cpus s' = [3] ∧ ioapicid s' = 0 ∧ lapic s' = mem32 (bios 64 137 0 3) (0x2000 + 36) ∧ ports s' = [].
Proof.
  apply (mpinit_spec (bios 64 137 0 3) 0x1000 0x2000 [Proc 3] 0 mp0 2); [vm_compute; reflexivity|reflexivity|reflexivity|cbn; lia|].
  vm_compute. done.
Defined.

Lemma mpinit_hangs_witness : mpinit (bios 45 150 9 0) 1000 0 mp0 = NoFuel.
Proof.
  apply (mpinit_hangs (bios 45 150 9 0) 0x1000 0x2000); [vm_compute; reflexivity|reflexivity|].
  rewrite !not_elem_of_cons. vm_compute. by split_and!; [..|intros ?%not_elem_of_nil].
Defined.
