(* ===== verification/Lapic.v ===== *)
(** * lapic.c, ioapic.c, picirq.c and main.c: interrupt controllers, the clock, and the start of the processors

    The registers are modelled as far as the sources use them.  The local APIC keeps the
    writes to it in order; [ID] and [VER] read as constants, and the next reads of [ICRLO] are
    given.  A STARTUP command makes the processor it is sent to start at the page in the
    command, where entryother.S takes its stack, its entry point and its page directory from
    the three words below the page.  The I/O APIC has an index and a data register.  The
    clock shows at its [n]th reading what [clock n] gives for each register. *)

From S2P Require Import Prelude Mmu CString Kalloc Vm Proc Trap.

Definition IRQ_ERROR : Z := 19.

(** ** The local APIC *)

Definition ID : Z := 0x20 / 4.
Definition VER : Z := 0x30 / 4.
Definition TPR : Z := 0x80 / 4.
Definition EOI : Z := 0xB0 / 4.
Definition SVR : Z := 0xF0 / 4.
Definition ENABLE : Z := 0x100.
Definition ESR : Z := 0x280 / 4.
Definition ICRLO : Z := 0x300 / 4.
Definition INIT : Z := 0x500.
Definition STARTUP : Z := 0x600.
Definition DELIVS : Z := 0x1000.
Definition ASSERT : Z := 0x4000.
Definition LEVEL : Z := 0x8000.
Definition BCAST : Z := 0x80000.
Definition ICRHI : Z := 0x310 / 4.
Definition TIMER : Z := 0x320 / 4.
Definition X1 : Z := 0xB.
Definition PERIODIC : Z := 0x20000.
Definition PCINT : Z := 0x340 / 4.
Definition LINT0 : Z := 0x350 / 4.
Definition LINT1 : Z := 0x360 / 4.
Definition ERROR : Z := 0x370 / 4.
Definition MASKED : Z := 0x10000.
Definition TICR : Z := 0x380 / 4.
Definition TDCR : Z := 0x3E0 / 4.

(** a processor as it starts: its APIC, the address of its first instruction, and what
    entryother.S loads from the words below *)
Record ap := { ap_id : Z; ap_code : Z; ap_stack : Z; ap_entry : Z; ap_pgdir : Z }.

Record machine := {
  m_phys : phys;
  m_lapic : list (Z * Z);  (* the writes, in order *)
  m_polls : list Z;        (* what the next reads of [ICRLO] give *)
  m_ports : list (Z * Z);  (* the writes to ports *)
  m_aps : list ap }.       (* the processors that were told to start *)

Definition set_phys s m := {| m_phys := s; m_lapic := m_lapic m; m_polls := m_polls m; m_ports := m_ports m; m_aps := m_aps m |}.
Definition set_lapic l m := {| m_phys := m_phys m; m_lapic := l; m_polls := m_polls m; m_ports := m_ports m; m_aps := m_aps m |}.
Definition set_polls p m := {| m_phys := m_phys m; m_lapic := m_lapic m; m_polls := p; m_ports := m_ports m; m_aps := m_aps m |}.
Definition set_ports p m := {| m_phys := m_phys m; m_lapic := m_lapic m; m_polls := m_polls m; m_ports := p; m_aps := m_aps m |}.
Definition set_aps a m := {| m_phys := m_phys m; m_lapic := m_lapic m; m_polls := m_polls m; m_ports := m_ports m; m_aps := a |}.

Definition in_ram {A} : M phys A → M machine A := zoom m_phys set_phys.

Definition outb (port v : Z) : M machine unit := modify (λ m, set_ports (m_ports m ++ [(port, u8 v)]) m).

(** the value that was last written to a register *)
Definition last_write (index : Z) (l : list (Z * Z)) : Z :=
  from_option snd 0 (last (filter (λ w, w.1 = index) l)).

(** the processor that a STARTUP command is sent to *)
Definition start_ap (cmd : Z) (m : machine) : ap :=
  let code := Z.shiftl (Z.land cmd 0xff) 12 in
  let word a := load32 (mem (m_phys m)) (P2V code + a) in
  {| ap_id := Z.shiftr (last_write ICRHI (m_lapic m)) 24; ap_code := code; ap_stack := word (-4); ap_entry := word (-8); ap_pgdir := word (-12) |}.

Definition lapicw (index value : Z) : M machine unit :=
  modify (λ m, set_aps (if (index =? ICRLO) && (Z.land value 0x700 =? STARTUP) then m_aps m ++ [start_ap value m] else m_aps m)
                 (set_lapic (m_lapic m ++ [(index, u32 value)]) m)).

(** [lapic], [lapic[ID]] and [lapic[VER]] *)
Section lapic.
  Context (lapic : Z) (id ver : Z).

(** [while(lapic[ICRLO] & DELIVS) ;] *)
Fixpoint wait_delivs (polls : list Z) : M machine unit :=
  match polls with
  | [] => λ _, NoFuel
  | v :: polls => _ ← modify (set_polls polls); if Z.land v DELIVS =? 0 then mret () else wait_delivs polls
  end.

Definition lapicinit : M machine unit :=
  if lapic =? 0 then mret ()
  else
    _ ← lapicw SVR (Z.lor ENABLE (T_IRQ0 + IRQ_SPURIOUS));
    _ ← lapicw TDCR X1;
    _ ← lapicw TIMER (Z.lor PERIODIC (T_IRQ0 + IRQ_TIMER));
    _ ← lapicw TICR 10000000;
    _ ← lapicw LINT0 MASKED;
    _ ← lapicw LINT1 MASKED;
    _ ← (if 4 <=? Z.land (Z.shiftr ver 16) 0xFF then lapicw PCINT MASKED else mret ());
    _ ← lapicw ERROR (T_IRQ0 + IRQ_ERROR);
    _ ← lapicw ESR 0;
    _ ← lapicw ESR 0;
    _ ← lapicw EOI 0;
    _ ← lapicw ICRHI 0;
    _ ← lapicw ICRLO (Z.lor (Z.lor BCAST INIT) LEVEL);
    polls ← gets m_polls;
    _ ← wait_delivs polls;
    lapicw TPR 0.

Definition lapicid : Z := if lapic =? 0 then 0 else Z.shiftr id 24.

Definition lapiceoi : M machine unit := if lapic =? 0 then mret () else lapicw EOI 0.
End lapic.

Definition CMOS_PORT : Z := 0x70.

(** a 16-bit store *)
Definition store16 (a v : Z) (m : ram) : ram := store8 (a + 1) (Z.shiftr v 8) (store8 a v m).

Fixpoint startup_loop (n : nat) (apicid addr : Z) : M machine unit :=
  match n with
  | O => mret ()
  | S n =>
      _ ← lapicw ICRHI (Z.shiftl apicid 24);
      _ ← lapicw ICRLO (Z.lor STARTUP (Z.shiftr addr 12));
      startup_loop n apicid addr
  end.

Definition lapicstartap (apicid addr : Z) : M machine unit :=
  _ ← outb CMOS_PORT 0xF;
  _ ← outb (CMOS_PORT + 1) 0x0A;
  let wrv := P2V (Z.lor (Z.shiftl 0x40 4) 0x67) in
  _ ← in_ram (on_mem (store16 wrv 0));
  _ ← in_ram (on_mem (store16 (wrv + 2) (Z.shiftr addr 4)));
  _ ← lapicw ICRHI (Z.shiftl apicid 24);
  _ ← lapicw ICRLO (Z.lor (Z.lor INIT LEVEL) ASSERT);
  _ ← lapicw ICRLO (Z.lor INIT LEVEL);
  startup_loop 2 apicid addr.

(** ** main.c: the other processors *)

(** addresses and sizes that the linker chose *)
Class StartImage := {
  entryother_start : Z;
  entryother_size : Z;
  mpenter_addr : Z;
  entrypgdir_addr : Z }.

(** as recorded in kernel.sym *)
#[export] Instance start_sym : StartImage | 100 :=
  {| entryother_start := 0x8010a48c; entryother_size := 0x8a; mpenter_addr := 0x80103020; entrypgdir_addr := 0x80109000 |}.

Section startothers.
  Context `{KernelImage} `{StartImage}.
  (** whether the processor with this APIC reaches [mpmain] *)
  Context (started : Z → bool).

Definition spin : M machine unit := λ _, NoFuel.

(** the body of the loop, for a processor that does not run yet; the wait for it does not
    end if it does not come up *)
Definition start_one (apicid code : Z) : M machine unit :=
  stack ← in_ram kalloc;
  _ ← in_ram (wr32 (code - 4) (stack + KSTACKSIZE));
  _ ← in_ram (wr32 (code - 8) mpenter_addr);
  _ ← in_ram (wr32 (code - 12) (V2P entrypgdir_addr));
  _ ← lapicstartap apicid (V2P code);
  if started apicid then mret () else spin.

(** the processors from number [c] on; [me] is the one that runs *)
Fixpoint start_loop (cpus : list Z) (c me : nat) (code : Z) : M machine unit :=
  match cpus with
  | [] => mret ()
  | apicid :: cpus =>
      _ ← (if (c =? me)%nat then mret () else start_one apicid code);
      start_loop cpus (S c) me code
  end.

Definition startothers (cpus : list Z) (me : nat) : M machine unit :=
  let code := P2V 0x7000 in
  _ ← in_ram (on_mem (memmove code entryother_start entryother_size));
  start_loop cpus 0 me code.
End startothers.

(** the page directory that the processors start with *)
Definition entrypgdir : list Z :=
  imap (λ i _, if (Z.of_nat i =? 0) || (Z.of_nat i =? Z.shiftr KERNBASE PDXSHIFT) then Z.lor (Z.lor PTE_P PTE_W) PTE_PS else 0)
    (replicate (Z.to_nat NPDENTRIES) ()).

(** ** ioapic.c *)

Definition REG_ID : Z := 0x00.
Definition REG_VER : Z := 0x01.
Definition REG_TABLE : Z := 0x10.
Definition INT_DISABLED : Z := 0x10000.

Record ioapic := { io_reg : Z; io_regs : Z → Z }.

Definition io_select (reg : Z) (s : ioapic) : ioapic := {| io_reg := reg; io_regs := io_regs s |}.
Definition io_store (v : Z) (s : ioapic) : ioapic :=
  {| io_reg := io_reg s; io_regs r := if r =? io_reg s then v else io_regs s r |}.

Definition ioapicread (reg : Z) : M ioapic Z :=
  _ ← modify (io_select reg);
  gets (λ s, io_regs s (io_reg s)).

Definition ioapicwrite (reg data : Z) : M ioapic unit :=
  _ ← modify (io_select reg);
  modify (io_store (u32 data)).

Fixpoint ioapic_loop (n : nat) (i : Z) : M ioapic unit :=
  match n with
  | O => mret ()
  | S n =>
      _ ← ioapicwrite (REG_TABLE + 2 * i) (Z.lor INT_DISABLED (T_IRQ0 + i));
      _ ← ioapicwrite (REG_TABLE + 2 * i + 1) 0;
      ioapic_loop n (i + 1)
  end.

(** the result says whether the message is printed *)
Definition ioapicinit (ioapicid : Z) : M ioapic bool :=
  ver ← ioapicread REG_VER;
  let maxintr := Z.land (Z.shiftr ver 16) 0xFF in
  r ← ioapicread REG_ID;
  let id := Z.shiftr r 24 in
  _ ← ioapic_loop (Z.to_nat (maxintr + 1)) 0;
  mret (negb (id =? ioapicid)).

Definition ioapicenable (irq cpunum : Z) : M ioapic unit :=
  _ ← ioapicwrite (REG_TABLE + 2 * irq) (T_IRQ0 + irq);
  ioapicwrite (REG_TABLE + 2 * irq + 1) (Z.shiftl cpunum 24).

(** ** picirq.c *)

Definition IO_PIC1 : Z := 0x20.
Definition IO_PIC2 : Z := 0xA0.

Definition picinit : M machine unit :=
  _ ← outb (IO_PIC1 + 1) 0xFF;
  outb (IO_PIC2 + 1) 0xFF.

(** ** The clock *)

Record rtcdate := { second : Z; minute : Z; hour : Z; day : Z; month : Z; year : Z }.
#[export] Instance rtcdate_eq_dec : EqDecision rtcdate.
Proof. solve_decision. Defined.

Definition CMOS_STATA : Z := 0x0a.
Definition CMOS_STATB : Z := 0x0b.
Definition CMOS_UIP : Z := Z.shiftl 1 7.
Definition SECS : Z := 0x00.
Definition MINS : Z := 0x02.
Definition HOURS : Z := 0x04.
Definition DAY : Z := 0x07.
Definition MONTH : Z := 0x08.
Definition YEAR : Z := 0x09.

Definition CONV (x : Z) : Z := Z.shiftr x 4 * 10 + Z.land x 0xf.

Section rtc.
  (** what the registers read as, from one reading to the next *)
  Context (clock : nat → Z → Z).

(** the register that is selected, and the number of readings made *)
Record rtc := { rt_reg : Z; rt_time : nat }.

Definition cmos_read (reg : Z) : M rtc Z :=
  _ ← modify (λ s, {| rt_reg := u8 reg; rt_time := rt_time s |});
  v ← gets (λ s, u8 (clock (rt_time s) (rt_reg s)));
  _ ← modify (λ s, {| rt_reg := rt_reg s; rt_time := S (rt_time s) |});
  mret v.

Definition fill_rtcdate : M rtc rtcdate :=
  second ← cmos_read SECS;
  minute ← cmos_read MINS;
  hour ← cmos_read HOURS;
  day ← cmos_read DAY;
  month ← cmos_read MONTH;
  year ← cmos_read YEAR;
  mret {| second := second; minute := minute; hour := hour; day := day; month := month; year := year |}.

(** the loop that reads until two dates agree *)
Fixpoint cmostime_loop (fuel : nat) : M rtc rtcdate :=
  match fuel with
  | O => λ _, NoFuel
  | S fuel =>
      t1 ← fill_rtcdate;
      a ← cmos_read CMOS_STATA;
      if negb (Z.land a CMOS_UIP =? 0) then cmostime_loop fuel
      else
        t2 ← fill_rtcdate;
        if decide (t1 = t2) then mret t1 else cmostime_loop fuel
  end.

Definition convert (t : rtcdate) : rtcdate :=
  {| second := CONV (second t); minute := CONV (minute t); hour := CONV (hour t);
     day := CONV (day t); month := CONV (month t); year := CONV (year t) |}.

Definition cmostime (fuel : nat) : M rtc rtcdate :=
  sb ← cmos_read CMOS_STATB;
  let bcd := Z.land sb (Z.shiftl 1 2) =? 0 in
  t1 ← cmostime_loop fuel;
  let t1 := if bcd then convert t1 else t1 in
  mret {| second := second t1; minute := minute t1; hour := hour t1; day := day t1; month := month t1; year := year t1 + 2000 |}.

(** *** What it returns *)

(** the date that the registers show at a reading *)
Definition shows (n : nat) : rtcdate :=
  let r i := u8 (clock n i) in
  {| second := r SECS; minute := r MINS; hour := r HOURS; day := r DAY; month := r MONTH; year := r YEAR |}.

(** the clock ticks at most once during the thirteen readings from [n] on *)
Definition one_tick (n : nat) : Prop :=
  ∃ k, (∀ i, (n ≤ i < k)%nat → shows i = shows n) ∧ (∀ i, (k ≤ i ≤ n + 12)%nat → shows i = shows (n + 12)).

Lemma cmos_read_eq reg s : is_u8 reg → cmos_read reg s = Ret (u8 (clock (rt_time s) reg)) {| rt_reg := reg; rt_time := S (rt_time s) |}.
Proof. intros Hr. assert (Hu : u8 reg = reg) by (by apply Z.mod_small). unfold cmos_read. mrun. cbn [rt_reg rt_time]. by rewrite Hu. Qed.

(** each register of a date is read at its own time *)
Definition mixed (n : nat) : rtcdate :=
  {| second := second (shows n); minute := minute (shows (n + 1)); hour := hour (shows (n + 2)); day := day (shows (n + 3));
     month := month (shows (n + 4)); year := year (shows (n + 5)) |}.

Lemma fill_eq s : fill_rtcdate s = Ret (mixed (rt_time s)) {| rt_reg := YEAR; rt_time := rt_time s + 6 |}.
Proof.
  destruct s as [r n]. unfold fill_rtcdate. do 6 (erewrite bind_Ret by (by rewrite cmos_read_eq)); cbn [rt_time].
  unfold mixed. cbn. by rewrite !Nat.add_succ_r, Nat.add_0_r.
Qed.

Lemma mixed_at n d : (∀ i, (n ≤ i < n + 6)%nat → shows i = d) → mixed n = d.
Proof. intros Hd. unfold mixed. rewrite !Hd by lia. by destruct d. Qed.

(** one round of the loop *)
Lemma round_eq fuel s :
  let n := rt_time s in
  cmostime_loop (S fuel) s =
    (if negb (Z.land (u8 (clock (n + 6) CMOS_STATA)) CMOS_UIP =? 0) then cmostime_loop fuel {| rt_reg := CMOS_STATA; rt_time := n + 7 |}
     else if decide (mixed n = mixed (n + 7)) then Ret (mixed n) {| rt_reg := YEAR; rt_time := n + 13 |}
     else cmostime_loop fuel {| rt_reg := YEAR; rt_time := n + 13 |}).
Proof.
  cbv zeta. cbn [cmostime_loop]. erewrite bind_Ret by apply fill_eq. erewrite bind_Ret by (by rewrite cmos_read_eq). cbn [rt_time].
  replace (S (rt_time s + 6))%nat with (rt_time s + 7)%nat by lia. case_match; [done|]. erewrite bind_Ret by apply fill_eq. cbn [rt_time].
  replace (rt_time s + 7 + 6)%nat with (rt_time s + 13)%nat by lia. by case_decide.
Qed.

Lemma loop_consistent fuel s : (∀ n, one_tick n) → rets (cmostime_loop fuel) s (λ r s', ∃ n, (rt_time s ≤ n < rt_time s')%nat ∧ r = shows n).
Proof.
  intros Ht. revert s. induction fuel as [|fuel IH]; intros s r s'; [done|]. rewrite round_eq. cbv zeta.
  destruct (negb _); [|case_decide as Hd].
  - intros (n & Hn & ->)%IH. cbn in Hn. exists n. split; [lia|done].
  - intros [= <- <-]. cbn. destruct (Ht (rt_time s)) as (k & H1 & H2). destruct (decide (rt_time s + 6 < k)%nat) as [Hk|Hk].
    + exists (rt_time s). split; [lia|]. apply mixed_at. intros i Hi. apply H1. lia.
    + exists (rt_time s + 12)%nat. split; [lia|]. rewrite Hd. apply mixed_at. intros i Hi. apply H2. lia.
  - intros (n & Hn & ->)%IH. cbn in Hn. exists n. split; [lia|done].
Qed.

(** nothing changes during the readings from [n] on *)
Definition quiet (n : nat) : Prop :=
  ∀ i, (n ≤ i < n + 26)%nat → shows i = shows n ∧ Z.land (u8 (clock i CMOS_STATA)) CMOS_UIP = 0.

Lemma loop_returns fuel n s : quiet n → (rt_time s ≤ n + 12)%nat → (n - rt_time s < fuel)%nat → ∃ r s', cmostime_loop fuel s = Ret r s'.
Proof.
  intros Hq. revert s. induction fuel as [|fuel IH]; intros s Hs Hf; [lia|]. rewrite round_eq. cbv zeta.
  destruct (decide (rt_time s < n)%nat) as [Hl|Hl].
  - destruct (negb _); [|case_decide; [eauto|]]; apply IH; cbn; lia.
  - rewrite (proj2 (Hq (rt_time s + 6)%nat ltac:(lia))). cbn [Z.eqb negb].
    rewrite decide_True; [eauto|]. rewrite !(mixed_at _ (shows n)); [done| |]; intros i Hi; apply Hq; lia.
Qed.

(** the registers hold a date in the encoding that the status register B tells *)
Definition encode (bcd : bool) (v : Z) : Z := if bcd then 16 * (v / 10) + v mod 10 else v.
Definition encode_date (bcd : bool) (d : rtcdate) : rtcdate :=
  {| second := encode bcd (second d); minute := encode bcd (minute d); hour := encode bcd (hour d);
     day := encode bcd (day d); month := encode bcd (month d); year := encode bcd (year d) |}.

Lemma CONV_encode v : 0 ≤ v → CONV (encode true v) = v.
Proof.
  intros Hv. unfold CONV, encode. change 0xf with (Z.ones 4). rewrite Z.land_ones, Z.shiftr_div_pow2 by lia.
  change (2 ^ 4) with 16. zdm.
Qed.

(** C34: The time read from the CMOS clock.  Suppose that the registers always show a date, in
    BCD or in binary as bit 2 of status register B says, that the clock ticks at most once
    during any thirteen consecutive readings, and that at some time 26 readings find it
    unchanged with no update in progress.  Then [cmostime] returns, and the date it returns
    is one that the clock showed while the call ran, with the century added -- never a
    mixture of the registers from before and after a tick, although each register is read
    on its own and the clock may tick in between. *)
Theorem cmostime_consistent (bcd : bool) (date : nat → rtcdate) n s :
  (∀ i, shows i = encode_date bcd (date i) ∧
     Forall (λ v, 0 ≤ v) [second (date i); minute (date i); hour (date i); day (date i); month (date i); year (date i)]) →
  bcd = (Z.land (u8 (clock (rt_time s) CMOS_STATB)) 4 =? 0) → (∀ i, one_tick i) → quiet n → (rt_time s < n)%nat →
  runs (cmostime n) s (λ r s', ∃ i, (rt_time s ≤ i < rt_time s')%nat ∧
    r = {| second := second (date i); minute := minute (date i); hour := hour (date i); day := day (date i);
           month := month (date i); year := year (date i) + 2000 |}).
Proof.
  intros Hd Hb Ht Hq Hn. unfold cmostime. apply runs_bind. eexists _, _. split; [by apply cmos_read_eq|]. cbv zeta. change (Z.shiftl 1 2) with 4. rewrite <- Hb.
  set (s1 := {| rt_reg := CMOS_STATB; rt_time := S (rt_time s) |}).
  destruct (loop_returns n n s1 Hq) as (t & s2 & E); [cbn; lia..|].
  destruct (loop_consistent n s1 Ht t s2 E) as (i & Hi & ->). cbn in Hi. apply runs_bind. eexists _, _. split; [exact E|]. apply runs_ret.
  exists i. split; [lia|]. destruct (Hd i) as [-> Hf]. rewrite !Forall_cons in Hf. destruct bcd; [|done].
  unfold convert, encode_date. cbn [second minute hour day month year]. rewrite !CONV_encode by apply Hf. done.
Qed.
End rtc.

(** a clock that moves from 23:59:59 to midnight at its tenth reading *)
Definition eve : rtcdate := {| second := 59; minute := 59; hour := 23; day := 31; month := 12; year := 18 |}.
Definition newyear : rtcdate := {| second := 0; minute := 0; hour := 0; day := 1; month := 1; year := 19 |}.
Definition date1 (n : nat) : rtcdate := if (n <? 10)%nat then eve else newyear.
Definition clock1 (n : nat) (r : Z) : Z :=
  let d := encode_date true (date1 n) in
  if r =? SECS then second d else if r =? MINS then minute d else if r =? HOURS then hour d
  else if r =? DAY then day d else if r =? MONTH then month d else if r =? YEAR then year d else 0.

Lemma shows1 n : shows clock1 n = encode_date true (date1 n).
Proof. unfold shows, clock1, date1. by destruct (n <? 10)%nat. Qed.

Example cmostime_consistent_witness :
  runs (cmostime clock1 11) {| rt_reg := 0; rt_time := 0 |} (λ r _, ∃ i, year r = year (date1 i) + 2000 ∧ second r = second (date1 i)).
Proof.
  eapply runs_mono; [apply (cmostime_consistent clock1 true date1 11 {| rt_reg := 0; rt_time := 0 |})|].
  - intros i. split; [apply shows1|]. unfold date1. destruct (i <? 10)%nat; repeat constructor; cbn; lia.
  - reflexivity.
  - intros n. exists 10%nat. rewrite !shows1. unfold date1. split; intros i Hi; rewrite !shows1; unfold date1.
    + rewrite !(proj2 (Nat.ltb_lt _ _)) by lia. done.
    + rewrite !(proj2 (Nat.ltb_ge _ _)) by lia. done.
  - intros i Hi. rewrite !shows1. unfold date1, clock1. rewrite !(proj2 (Nat.ltb_ge _ _)) by lia. done.
  - cbn. lia.
  - cbn beta. intros r s' (i & _ & ->). by exists i.
Defined.

(** ** The redirection table *)

(** what the I/O APIC is told about an interrupt *)
Definition io_low (irq : Z) (s : ioapic) : Z := io_regs s (REG_TABLE + 2 * irq).
Definition io_high (irq : Z) (s : ioapic) : Z := io_regs s (REG_TABLE + 2 * irq + 1).

Lemma ioapicwrite_eq reg data s :
  ioapicwrite reg data s = Ret () {| io_reg := reg; io_regs r := if r =? reg then u32 data else io_regs s r |}.
Proof. unfold ioapicwrite. by mrun. Qed.

Lemma ioapicread_eq reg s : ioapicread reg s = Ret (io_regs s reg) (io_select reg s).
Proof. unfold ioapicread. by mrun. Qed.

Lemma ioapic_loop_runs n i s : 0 ≤ i → runs (ioapic_loop n i) s (λ _ s',
  (∀ r, r < REG_TABLE → io_regs s' r = io_regs s r) ∧
  ∀ j, 0 ≤ j → if decide (i ≤ j < i + Z.of_nat n) then io_low j s' = u32 (Z.lor INT_DISABLED (T_IRQ0 + j)) ∧ io_high j s' = 0
    else io_low j s' = io_low j s ∧ io_high j s' = io_high j s).
Proof.
  revert i s. induction n as [|n IH]; intros i s Hi; cbn [ioapic_loop].
  { apply runs_ret. split; [done|]. intros j Hj. rewrite decide_False by lia. done. }
  do 2 (apply runs_bind; eexists _, _; split; [apply ioapicwrite_eq|]). eapply runs_mono; [by apply IH; lia|].
  intros [] s' [Hr Hs]. unfold io_low, io_high, REG_TABLE in *. cbn [io_regs] in *. split.
  - intros r Hlt. rewrite Hr by done. rewrite !(proj2 (Z.eqb_neq _ _)) by lia. done.
  - intros j Hj. specialize (Hs j Hj). destruct (decide (j = i)) as [->|Hne].
    + rewrite decide_False in Hs by lia. rewrite decide_True by lia. destruct Hs as [-> ->].
      rewrite (proj2 (Z.eqb_neq (16 + 2 * i) (16 + 2 * i + 1))), !Z.eqb_refl by lia. done.
    + assert (Hd : (i + 1 ≤ j < i + 1 + Z.of_nat n) ↔ (i ≤ j < i + Z.of_nat (S n))) by lia.
      rewrite (decide_ext _ _ _ _ Hd) in Hs. case_decide; [done|].
      rewrite !(proj2 (Z.eqb_neq _ _)) in Hs by lia. done.
Qed.

(** where an interrupt goes: its vector and the processor, if it is not masked *)
Definition delivers (s : ioapic) (irq : Z) : option (Z * Z) :=
  if Z.testbit (io_low irq s) 16 then None else Some (Z.land (io_low irq s) 0xff, Z.shiftr (io_high irq s) 24).

Fixpoint enable_all (es : list (Z * Z)) : M ioapic unit :=
  match es with
  | [] => mret ()
  | (irq, cpu) :: es => _ ← ioapicenable irq cpu; enable_all es
  end.

Lemma vector_bits i : 0 ≤ i < 224 → Z.testbit (T_IRQ0 + i) 16 = false ∧ Z.land (u32 (T_IRQ0 + i)) 0xff = T_IRQ0 + i ∧ u32 (T_IRQ0 + i) = T_IRQ0 + i.
Proof.
  intros Hi. unfold T_IRQ0 in *. rewrite u32_id by (unfold is_u32; lia). change 0xff with (Z.ones 8). rewrite Z.land_ones by lia. change (2 ^ 8) with 256. split_and!; [|zdm|done].
  destruct (Z.eq_dec (32 + i) 0); [lia|]. apply Z.bits_above_log2; [lia|]. assert (Z.log2 (32 + i) < 8); [|lia]. apply Z.log2_lt_pow2; lia.
Qed.
Lemma cpu_bits c : is_u8 c → Z.shiftr (u32 (Z.shiftl c 24)) 24 = c.
Proof. unfold is_u8, u32. intros Hc. rewrite Z.shiftl_mul_pow2, Z.shiftr_div_pow2 by lia. change (2 ^ 24) with 16777216. change (2 ^ 32) with 4294967296. zdm. Qed.

Lemma ioapicenable_runs irq cpu s : 0 ≤ irq < 224 → is_u8 cpu → runs (ioapicenable irq cpu) s (λ _ s',
  ∀ i, 0 ≤ i → delivers s' i = if decide (i = irq) then Some (T_IRQ0 + irq, cpu) else delivers s i).
Proof.
  intros Hi Hc. unfold ioapicenable. apply runs_bind. eexists _, _. split; [apply ioapicwrite_eq|]. eexists _, _. split; [apply ioapicwrite_eq|].
  intros i Hi0. unfold delivers, io_low, io_high, REG_TABLE. cbn [io_regs]. case_decide as Hd.
  - subst i. rewrite (proj2 (Z.eqb_neq (16 + 2 * irq) (16 + 2 * irq + 1))), !Z.eqb_refl by lia.
    destruct (vector_bits irq Hi) as (B1 & B2 & B3). rewrite B2, B3, B1, cpu_bits by done. done.
  - by rewrite !(proj2 (Z.eqb_neq _ _)) by lia.
Qed.

Lemma enable_all_runs es s : Forall (λ e, 0 ≤ e.1 < 224 ∧ is_u8 e.2) es → runs (enable_all es) s (λ _ s',
  ∀ i, 0 ≤ i → delivers s' i = match last (filter (λ e, e.1 = i) es) with Some e => Some (T_IRQ0 + i, e.2) | None => delivers s i end).
Proof.
  revert s. induction es as [|[irq cpu] es IH]; intros s Hes; cbn [enable_all]; [by apply runs_ret|].
  apply Forall_cons in Hes as [[Hi Hc] Hes]. apply runs_bind. eapply runs_mono; [by apply ioapicenable_runs|]. intros [] s1 H1.
  eapply runs_mono; [by apply IH|]. cbn beta. intros [] s2 H2 i Hi0. rewrite H2, H1, filter_cons by done. cbn.
  destruct (last (filter _ es)) as [e|] eqn:El.
  - case_decide; [|by rewrite El]. by rewrite last_cons, El.
  - repeat case_decide; simplify_eq; [|by rewrite El]. by rewrite last_cons, El.
Qed.

(** Routing of interrupts.  After [ioapicinit], on a controller with fewer than 224
    lines, and any sequence of calls of [ioapicenable], an interrupt line is masked if it was
    not enabled, and otherwise goes to the processor it was last enabled for, with the vector
    that trap.c expects for it. *)
Theorem ioapic_routes ioapicid es s :
  let maxintr := Z.land (Z.shiftr (io_regs s REG_VER) 16) 0xff in
  maxintr < 224 → Forall (λ e, 0 ≤ e.1 ≤ maxintr ∧ is_u8 e.2) es →
  runs (_ ← ioapicinit ioapicid; enable_all es) s (λ _ s', ∀ irq, 0 ≤ irq ≤ maxintr →
    delivers s' irq = (λ e, (T_IRQ0 + irq, e.2)) <$> last (filter (λ e, e.1 = irq) es)).
Proof.
  cbv zeta. set (maxintr := Z.land _ 0xff). intros Hm Hes. assert (Hm0 : 0 ≤ maxintr) by (apply Z.land_nonneg; right; lia).
  apply runs_bind. unfold ioapicinit. do 2 (apply runs_bind; eexists _, _; split; [apply ioapicread_eq|]; cbv zeta). fold maxintr. apply runs_bind.
  eapply runs_mono; [by apply ioapic_loop_runs|]. intros [] s1 [_ H1]. apply runs_ret.
  eapply runs_mono; [apply enable_all_runs; eapply Forall_impl; [exact Hes|]; intros e [? ?]; split; [lia|done]|].
  cbn beta. intros [] s2 H2 irq Hi. rewrite H2 by lia. destruct (last _) as [e|]; [done|]. cbn.
  specialize (H1 irq ltac:(lia)). rewrite decide_True in H1 by lia. unfold delivers. destruct H1 as [-> _].
  unfold u32. rewrite <- Z.land_ones by lia. rewrite Z.land_spec, Z.lor_spec. done.
Qed.

Example ioapic_routes_witness :
  runs (_ ← ioapicinit 2; enable_all [(1, 0); (4, 0); (14, 3)]) {| io_reg := 0; io_regs _ := Z.shiftl 23 16 |}
    (λ _ s', delivers s' 14 = Some (46, 3) ∧ delivers s' 2 = None).
Proof.
  eapply runs_mono; [apply (ioapic_routes 2 [(1, 0); (4, 0); (14, 3)])|].
  - by vm_compute.
  - repeat constructor; cbn; try lia; by vm_compute.
  - cbn beta. intros [] s' Hs. split; rewrite Hs; [done|split; by vm_compute|done|split; by vm_compute].
Defined.

(** ** The start of the processors *)

Lemma last_write_snoc i l j v : last_write i (l ++ [(j, v)]) = if decide (j = i) then v else last_write i l.
Proof. unfold last_write. rewrite filter_app, filter_cons. cbn. case_decide; [by rewrite last_snoc|by rewrite app_nil_r]. Qed.

Lemma lapicw_eq index value m : lapicw index value m =
  Ret () (set_aps (if (index =? ICRLO) && (Z.land value 0x700 =? STARTUP) then m_aps m ++ [start_ap value m] else m_aps m)
    (set_lapic (m_lapic m ++ [(index, u32 value)]) m)).
Proof. done. Qed.

Definition wrv_ram (addr : Z) (m : ram) : ram :=
  let wrv := P2V 0x467 in store16 (wrv + 2) (Z.shiftr addr 4) (store16 wrv 0 m).

(** the processor that [lapicstartap] starts, for the memory it has then *)
Definition started_ap (apicid : Z) (m : ram) : ap :=
  let word a := load32 m (P2V 0x7000 + a) in
  {| ap_id := apicid; ap_code := 0x7000; ap_stack := word (-4); ap_entry := word (-8); ap_pgdir := word (-12) |}.

Lemma start_ap_eq apicid m : is_u8 apicid → last_write ICRHI (m_lapic m) = u32 (Z.shiftl apicid 24) →
  start_ap (Z.lor STARTUP (Z.shiftr 0x7000 12)) m = started_ap apicid (mem (m_phys m)).
Proof. intros Ha Hl. unfold start_ap, started_ap. rewrite Hl, cpu_bits by done. done. Qed.

Lemma startup_runs n apicid m : is_u8 apicid → runs (startup_loop n apicid 0x7000) m (λ _ m',
  m_phys m' = m_phys m ∧ m_aps m' = m_aps m ++ replicate n (started_ap apicid (mem (m_phys m)))).
Proof.
  intros Ha. revert m. induction n as [|n IH]; intros m; cbn [startup_loop]; [apply runs_ret; by rewrite app_nil_r|].
  do 2 (apply runs_bind; eexists _, _; split; [apply lapicw_eq|]). eapply runs_mono; [apply IH|]. intros [] m' [E1 E2]. split; [by rewrite E1|].
  rewrite E2. change ((ICRLO =? ICRLO) && _) with true. change ((ICRHI =? ICRLO) && _) with false. cbv iota. cbn [m_aps set_aps].
  rewrite (start_ap_eq apicid); [|done|cbn [m_lapic set_aps set_lapic]; by rewrite last_write_snoc, decide_True].
  cbn [m_phys set_aps set_lapic replicate]. by rewrite <- app_assoc.
Qed.

Lemma lapicstartap_runs apicid m : is_u8 apicid → runs (lapicstartap apicid 0x7000) m (λ _ m',
  m_phys m' = set_mem (wrv_ram 0x7000 (mem (m_phys m))) (m_phys m) ∧
  m_aps m' = m_aps m ++ replicate 2 (started_ap apicid (wrv_ram 0x7000 (mem (m_phys m))))).
Proof.
  intros Ha. unfold lapicstartap. cbv zeta. do 4 (apply runs_bind; eexists _, _; split; [reflexivity|]).
  do 3 (apply runs_bind; eexists _, _; split; [apply lapicw_eq|]). eapply runs_mono; [by apply startup_runs|]. intros [] m' [E1 E2]. by split.
Qed.

Section startspec.
  Context `{KernelImage} `{StartImage} (started : Z → bool).
  Context (Hentry : is_u32 mpenter_addr).

(** memory from [code] on stays as it is *)
Lemma wrv_same m b : P2V 0x7000 - 12 ≤ b → load8 (wrv_ram 0x7000 m) b = load8 m b.
Proof.
  intros Hb. unfold wrv_ram, store16. rewrite !load8_store8. change (P2V 0x7000) with 0x80007000 in Hb. change (P2V 0x467) with 0x80000467.
  by rewrite !decide_False by lia.
Qed.

Lemma kmem_low s fl m' : (∀ b, KERNLINK ≤ b → load8 m' b = load8 (mem s) b) → kmem_ok s fl → kmem_ok (set_mem m' s) fl.
Proof.
  intros Hs [Hc Hp Hn]. split; [|done..]. cbn. eapply chain_same; [|exact Hc]. intros p Hin. rewrite Forall_forall in Hp.
  pose proof (is_page_range p (Hp p Hin)). apply load32_ext. intros b Hb. apply Hs. lia.
Qed.

Definition other_ap (apicid page : Z) : ap :=
  {| ap_id := apicid; ap_code := 0x7000; ap_stack := page + KSTACKSIZE; ap_entry := mpenter_addr; ap_pgdir := V2P entrypgdir_addr |}.

Lemma kalloc_head s fl : kmem_ok s fl → ∃ s', kalloc s = Ret (default 0 (head fl)) s' ∧ mem s' = mem s ∧ kmem_ok s' (tail fl) ∧
  is_u32 (default 0 (head fl) + KSTACKSIZE).
Proof.
  intros Hs. destruct fl as [|p fl].
  - exists s. rewrite kalloc_nil by done. done.
  - destruct (kalloc_cons s p fl Hs) as (E & Hk & Hp & _). eexists. split; [exact E|]. split_and!; [done|done|].
    pose proof (is_page_range p Hp). cbn. unfold KSTACKSIZE. mmu_consts. lia.
Qed.

Lemma start_one_runs apicid m fl : kmem_ok (m_phys m) fl → is_u8 apicid → started apicid = true →
  runs (start_one started apicid (P2V 0x7000)) m (λ _ m', kmem_ok (m_phys m') (tail fl) ∧
    m_aps m' = m_aps m ++ replicate 2 (other_ap apicid (default 0 (head fl))) ∧
    ∀ b, P2V 0x7000 ≤ b → load8 (mem (m_phys m')) b = load8 (mem (m_phys m)) b).
Proof.
  intros Hk Ha Hst. destruct (kalloc_head _ _ Hk) as (s1 & E & Em & Hk1 & Hu). unfold start_one. apply runs_bind.
  eexists _, (set_phys s1 m). split; [unfold in_ram, zoom; by rewrite E|]. do 3 (apply runs_bind; eexists _, _; split; [reflexivity|]).
  change (V2P (P2V 0x7000)) with 0x7000. apply runs_bind. eapply runs_mono; [by apply lapicstartap_runs|]. intros [] m' [E1 E2]. rewrite Hst.
  apply runs_ret. cbn [m_phys set_phys mem set_mem] in E1, E2. change (P2V 0x7000) with 0x80007000 in *.
  set (m1 := store32 (0x80007000 - 12) _ _) in *.
  assert (Hm1 : ∀ b, 0x80007000 ≤ b → load8 m1 b = load8 (mem (m_phys m)) b).
  { intros b Hb. unfold m1. rewrite !load8_store32, Em, !decide_False by lia. done. }
  assert (Hw : ∀ b, 0x80007000 - 12 ≤ b → load8 (wrv_ram 0x7000 m1) b = load8 m1 b) by (intros b Hb; by apply wrv_same).
  rewrite E1, E2. split_and!.
  - apply (kmem_low s1); [|done]. intros b Hb. mmu_consts. rewrite Hw, Hm1, Em by lia. done.
  - assert (Hl : ∀ a, -12 ≤ a → load32 (wrv_ram 0x7000 m1) (0x80007000 + a) = load32 m1 (0x80007000 + a)).
    { intros a Ha'. apply load32_ext. intros b Hb. apply Hw. lia. }
    assert (started_ap apicid (wrv_ram 0x7000 m1) = other_ap apicid (default 0 (head fl))) as ->; [|done].
    unfold started_ap, other_ap. change (P2V 0x7000) with 0x80007000. rewrite !Hl by lia. unfold m1. f_equal.
    + rewrite !load32_store32_ne by lia. rewrite load32_store32. by apply u32_id.
    + rewrite load32_store32_ne by lia. rewrite load32_store32. by apply u32_id.
    + rewrite load32_store32. apply u32_id, u32_range.
  - intros b Hb. cbn [mem set_mem]. rewrite Hw, Hm1 by lia. done.
Qed.

(** the processors other than the one that runs, in order *)
Definition others (c me : nat) (cpus : list Z) : list Z :=
  mjoin (imap (λ i apicid, if decide ((c + i)%nat = me) then [] else [apicid]) cpus).

Lemma others_cons c me apicid cpus :
  others c me (apicid :: cpus) = (if decide (c = me) then [] else [apicid]) ++ others (S c) me cpus.
Proof.
  unfold others. rewrite imap_cons. cbn [mjoin list_join]. rewrite Nat.add_0_r. f_equal. f_equal. apply imap_ext. intros i x _. cbn. by rewrite Nat.add_succ_r.
Qed.

(** what is started: twice each, since the command is sent twice *)
Fixpoint ap_list (ids fl : list Z) : list ap :=
  match ids with
  | [] => []
  | apicid :: ids => replicate 2 (other_ap apicid (default 0 (head fl))) ++ ap_list ids (tail fl)
  end.

Lemma start_loop_runs cpus c me m fl : kmem_ok (m_phys m) fl → Forall (λ id, is_u8 id ∧ started id = true) cpus →
  runs (start_loop started cpus c me (P2V 0x7000)) m (λ _ m', kmem_ok (m_phys m') (drop (length (others c me cpus)) fl) ∧
    m_aps m' = m_aps m ++ ap_list (others c me cpus) fl ∧
    ∀ b, P2V 0x7000 ≤ b → load8 (mem (m_phys m')) b = load8 (mem (m_phys m)) b).
Proof.
  revert c m fl. induction cpus as [|apicid cpus IH]; intros c m fl Hk Hc; cbn [start_loop].
  { apply runs_ret. by rewrite app_nil_r. }
  apply Forall_cons in Hc as [[Ha Hs] Hc]. rewrite others_cons. apply runs_bind. destruct (Nat.eqb_spec c me) as [->|Hne].
  - apply runs_ret. rewrite decide_True by done. by apply IH.
  - rewrite decide_False by done. eapply runs_mono; [by apply start_one_runs|]. intros [] m1 (Hk1 & E1 & Hm1).
    eapply runs_mono; [by apply (IH _ _ (tail fl))|]. intros [] m2 (Hk2 & E2 & Hm2). cbn [app length ap_list].
    split_and!; [by destruct fl; cbn in *; rewrite ?drop_nil in *|by rewrite E2, E1, <- app_assoc|]. intros b Hb. by rewrite Hm2, Hm1.
Qed.

(** C33: The other processors are started, each with a stack of its own.  If all of them come
    up, [startothers] returns; every processor other than the running one, in the order of
    the table, has been sent to the code at 0x7000, where it finds its entry point, the
    boot page directory and the top of a page taken from the free list for it alone (or,
    since the result of [kalloc] is not tested, the address [KSTACKSIZE] once the list is
    empty); the code there is the image of entryother.S; and the pages that were not used
    are still free. *)
Theorem startothers_spec cpus me m fl :
  kmem_ok (m_phys m) fl → Forall (λ id, is_u8 id ∧ started id = true) cpus →
  0 ≤ entryother_size → P2V 0x7000 + entryother_size ≤ KERNLINK →
  runs (startothers started cpus me) m (λ _ m',
    m_aps m' = m_aps m ++ ap_list (others 0 me cpus) fl ∧
    kmem_ok (m_phys m') (drop (length (others 0 me cpus)) fl) ∧
    ∀ i, 0 ≤ i < entryother_size → load8 (mem (m_phys m')) (P2V 0x7000 + i) = load8 (mem (m_phys m)) (entryother_start + i)).
Proof.
  intros Hk Hc H0' H1. unfold startothers. cbv zeta. apply runs_bind. eexists _, _. split; [reflexivity|].
  eapply runs_mono; [apply (start_loop_runs cpus 0 me _ fl); [|done]|].
  - cbn [m_phys set_phys]. apply kmem_low; [|done]. intros b Hb. rewrite memmove_ok, decide_False by lia. done.
  - intros [] m' (Hk' & E & Hm). split_and!; [done|done|]. intros i Hi. rewrite Hm by lia. cbn [m_phys set_phys mem set_mem].
    rewrite memmove_ok, decide_True by lia. f_equal. lia.
Qed.
End startspec.

(** two processors and one free page *)
Definition page1 : Z := 0x80400000.
Definition machine1 : machine :=
  {| m_phys := {| mem := ∅; use_lock := false; freelist := page1 |}; m_lapic := []; m_polls := []; m_ports := []; m_aps := [] |}.

Example startothers_spec_witness :
  runs (startothers (λ _, true) [0; 1] 0) machine1 (λ _ m', m_aps m' = replicate 2 (other_ap 1 page1) ∧ kmem_ok (m_phys m') []).
Proof.
  assert (He : is_u32 mpenter_addr) by (cbn; mmu_consts; lia).
  assert (Hk : kmem_ok (m_phys machine1) [page1]).
  { split; [done| |apply NoDup_singleton]. apply Forall_singleton. split_and!; by vm_compute. }
  assert (Hc : Forall (λ id, is_u8 id ∧ true = true) [0; 1]) by (repeat constructor; cbn; lia).
  assert (H0 : 0 ≤ entryother_size) by (cbn; lia).
  assert (H1 : P2V 0x7000 + entryother_size ≤ KERNLINK) by (change (P2V 0x7000) with 0x80007000; cbn; mmu_consts; lia).
  destruct (startothers_spec (λ _, true) He [0; 1] 0 machine1 [page1] Hk Hc H0 H1) as ([] & m' & E & E1 & E2 & _).
  exists (), m'. split; [exact E|]. split; [exact E1|exact E2].
Defined.

(** [lapicinit] returns when the command it sends is delivered at last, and starts nobody *)
Lemma wait_delivs_runs polls v m : v ∈ polls → Z.land v DELIVS = 0 →
  runs (wait_delivs polls) m (λ _ m', m_phys m' = m_phys m ∧ m_aps m' = m_aps m).
Proof.
  intros Hin Hv. revert m. induction polls as [|w polls IH]; intros m; [by apply elem_of_nil in Hin|]. cbn [wait_delivs].
  apply runs_bind, runs_modify. destruct (Z.eqb_spec (Z.land w DELIVS) 0) as [Hz|Hz]; [by apply runs_ret|].
  apply elem_of_cons in Hin as [->|Hin]; [done|]. eapply runs_mono; [by apply IH|]. done.
Qed.

Lemma lapicw_runs index value m Q : (index =? ICRLO) && (Z.land value 0x700 =? STARTUP) = false →
  (∀ m', m_phys m' = m_phys m → m_aps m' = m_aps m → m_polls m' = m_polls m → Q () m') → runs (lapicw index value) m Q.
Proof. intros Hs HQ. eexists _, _. split; [apply lapicw_eq|]. rewrite Hs. by apply HQ. Qed.

Lemma lapicinit_runs lapic ver m v : v ∈ m_polls m → Z.land v DELIVS = 0 →
  runs (lapicinit lapic ver) m (λ _ m', m_phys m' = m_phys m ∧ m_aps m' = m_aps m).
Proof.
  intros Hin Hv. unfold lapicinit. destruct (lapic =? 0); [by apply runs_ret|].
  do 6 (apply runs_bind; apply lapicw_runs; [reflexivity|]; intros ? ? ? ?).
  apply runs_bind. assert (Hp : ∀ (b : bool) m1 (Q : unit → machine → Prop),
    (∀ m', m_phys m' = m_phys m1 → m_aps m' = m_aps m1 → m_polls m' = m_polls m1 → Q () m') → runs (if b then lapicw PCINT MASKED else mret ()) m1 Q).
  { intros [] m1 Q HQ; [by apply lapicw_runs|]. apply runs_ret. by apply HQ. }
  apply Hp. intros ? ? ? ?. do 6 (apply runs_bind; apply lapicw_runs; [reflexivity|]; intros ? ? ? ?).
  apply runs_bind, runs_gets, runs_bind. eapply runs_mono; [by apply (wait_delivs_runs _ v); [congruence|]|]. intros [] m2 [E1 E2].
  apply lapicw_runs; [reflexivity|]. intros m3 E3 E4 _. split; congruence.
Qed.

(** the boot page directory maps the first 4 megabytes, where they are and at [KERNBASE] *)
Definition big_page (pgdir : list Z) (va : Z) : option Z :=
  pde ← pgdir !! Z.to_nat (PDX va);
  if (Z.land pde PTE_P =? 0) || (Z.land pde PTE_PS =? 0) then None else Some (Z.land pde 0xFFC00000 + va mod 2 ^ 22).

Lemma entrypgdir_maps va : is_u32 va →
  big_page entrypgdir va = if decide (va < 2 ^ 22) then Some va else if decide (KERNBASE ≤ va < KERNBASE + 2 ^ 22) then Some (va - KERNBASE) else None.
Proof.
  intros Hva. unfold big_page, entrypgdir. rewrite list_lookup_imap. assert (Ep : PDX va = va / 2 ^ 22).
  { unfold PDX, PDXSHIFT. rewrite u32_id by done. change 0x3FF with (Z.ones 10). rewrite Z.land_ones, Z.shiftr_div_pow2 by lia.
    mmu_consts. change (2 ^ 22) with 4194304 in *. change (2 ^ 10) with 1024. change (2 ^ 32) with 4294967296 in *. zdm. }
  mmu_consts. change (2 ^ 22) with 4194304 in *. change (2 ^ 32) with 4294967296 in *. rewrite lookup_replicate_2 by zdm.
  cbn [fmap option_fmap option_map mbind option_bind]. rewrite Z2Nat.id by zdm. rewrite Ep. change (Z.shiftr 2147483648 22) with 512.
  destruct (Z.eqb_spec (va / 4194304) 0) as [E|E]; [|destruct (Z.eqb_spec (va / 4194304) 512) as [E'|E']]; repeat case_decide; try (exfalso; zdm); try done.
  all: change (Z.lor (Z.lor 1 2) PTE_PS) with 131; cbn [orb]; change (Z.land 131 4290772992) with 0; change (Z.land 131 1 =? 0) with false;
    change (Z.land 131 PTE_PS =? 0) with false; cbn [orb]; f_equal; zdm.
Qed.
