(* ===== verification/Boot.v ===== *)
(** * bootmain.c: loading the kernel

    The boot loader copies the ELF image that starts at sector 1 of the disk to physical
    memory and returns the entry point.  [disk] and memory are bytes at addresses; the
    sector that is read is the one that the registers of the disk select (Ide.v). *)

From S2P Require Import Prelude Bio Ide.

Definition SECTSIZE : Z := 512.

Abbreviation memory := (Z → Z).



Section boot.
  Context (disk : memory).








(** ** Reading *)




(** ** Loading *)


Record seg := { s_off : Z; s_paddr : Z; s_filesz : Z; s_memsz : Z }.




(** a header with nothing to load, as the one that describes the stack *)
Definition seg_empty (x : seg) : Prop :=
  s_filesz x = 0 ∧ s_memsz x = 0 ∧ s_off x mod SECTSIZE = 0 ∧ is_u32 (s_paddr x).

#[export] Instance seg_empty_dec x : Decision (seg_empty x).
Proof. unfold seg_empty, is_u32. apply _. Defined.











End boot.

(** ** The kernel of the repository

    The ELF header and the three program headers of src/mmap/xv6/kernel, at sector 1: code,
    data and the stack's header, which has address and size 0. *)






