(* ===== verification/UserProgs.v ===== *)
(** * cat, wc, echo and ls

    What these programs print.  The [read] calls on a file return its bytes in pieces of
    any sizes ([reads]), and then 0 or an error ([last]). *)

From S2P Require Import Prelude.

Abbreviation bytes := (list Z).

(** ** cat.c *)

Inductive ending := Done | ReadError | WriteError.

(** [wr b]: what [write(1, b, n)] returns; the output is what was written before an error *)
Fixpoint cat (wr : bytes → Z) (reads : list bytes) (last : Z) : bytes * ending :=
  match reads with
  | [] => ([], if last <? 0 then ReadError else Done)
  | b :: reads =>
      if negb (wr b =? Z.of_nat (length b)) then ([], WriteError)
      else let '(out, e) := cat wr reads last in (b ++ out, e)
  end.

Lemma cat_copies wr reads last : (∀ b, wr b = Z.of_nat (length b)) → 0 ≤ last → cat wr reads last = (concat reads, Done).
Proof.
  intros Hw Hl. induction reads as [|b reads IH]; cbn; [by rewrite (proj2 (Z.ltb_ge _ _)) by lia|]. by rewrite Hw, Z.eqb_refl, IH.
Qed.

(** ** wc.c *)

Record counts := { wl : Z; ww : Z; wcc : Z; inword : bool }.

(** [strchr(" \r\t\n\v", c)] *)
Definition blank (c : Z) : bool := bool_decide (c ∈ [32; 13; 9; 10; 11]).

Definition wc_byte (s : counts) (c : Z) : counts :=
  let s := {| wl := wl s; ww := ww s; wcc := i32 (wcc s + 1); inword := inword s |} in
  let s := if c =? 10 then {| wl := i32 (wl s + 1); ww := ww s; wcc := wcc s; inword := inword s |} else s in
  if blank c then {| wl := wl s; ww := ww s; wcc := wcc s; inword := false |}
  else if negb (inword s) then {| wl := wl s; ww := i32 (ww s + 1); wcc := wcc s; inword := true |}
  else s.

Definition wc (reads : list bytes) (last : Z) : option counts :=
  let s := foldl (foldl wc_byte) {| wl := 0; ww := 0; wcc := 0; inword := false |} reads in
  if last <? 0 then None else Some s.

(** the words of a text: its longest runs of bytes that are not blanks *)
Fixpoint words_from (w : bytes) (t : bytes) : list bytes :=
  match t with
  | [] => if decide (w = []) then [] else [w]
  | c :: t => if blank c then (if decide (w = []) then words_from [] t else w :: words_from [] t) else words_from (w ++ [c]) t
  end.

Definition newlines (t : bytes) : nat := length (filter (λ c, c = 10) t).

Lemma wc_fold t : ∀ s w,
  inword s = negb (bool_decide (w = [])) → 0 ≤ wl s → 0 ≤ ww s → 0 ≤ wcc s →
  wl s + Z.of_nat (length t) < 2 ^ 31 → ww s + Z.of_nat (length t) < 2 ^ 31 → wcc s + Z.of_nat (length t) < 2 ^ 31 →
  let s' := foldl wc_byte s t in
  wl s' = wl s + Z.of_nat (newlines t) ∧ wcc s' = wcc s + Z.of_nat (length t) ∧
  ww s' = ww s + Z.of_nat (length (words_from w t)) - (if inword s then 1 else 0).
Proof.
  induction t as [|c t IH]; intros s w Hi H1 H2 H3 B1 B2 B3; cbn [foldl length words_from] in *.
  { cbn. rewrite Hi. destruct (decide (w = [])) as [->|Hw]; [cbn; lia|]. rewrite bool_decide_false by done. cbn. lia. }
  set (nl := if c =? 10 then 1 else 0). assert (Hnl : newlines (c :: t) = (Z.to_nat nl + newlines t)%nat).
  { unfold newlines, nl. destruct (Z.eqb_spec c 10) as [->|Hc]; [by rewrite filter_cons_True|by rewrite filter_cons_False]. }
  assert (Hnl01 : 0 ≤ nl ≤ 1) by (unfold nl; destruct (c =? 10); lia). rewrite Hnl.
  assert (Hstep : wl (wc_byte s c) = wl s + nl ∧ wcc (wc_byte s c) = wcc s + 1 ∧
    inword (wc_byte s c) = negb (blank c) ∧ ww (wc_byte s c) = ww s + if negb (blank c) && negb (inword s) then 1 else 0).
  { unfold wc_byte, nl. destruct (c =? 10), (blank c); cbn; destruct (inword s) eqn:E; cbn; rewrite ?E, ?i32_id by lia; split_and!; lia || done. }
  destruct Hstep as (S1 & S2 & S3 & S4). destruct (blank c) eqn:Eb; cbn [negb andb] in *.
  - destruct (IH (wc_byte s c) []) as (I1 & I2 & I3); [done|lia..|]. rewrite I1, I2, I3, S3, S1, S2, S4. split_and!; [lia..|].
    rewrite Hi. destruct (decide (w = [])) as [->|Hw]; [cbn; lia|]. rewrite bool_decide_false by done. cbn. lia.
  - destruct (IH (wc_byte s c) (w ++ [c])) as (I1 & I2 & I3); [rewrite S3, bool_decide_false; [done|by destruct w]|lia| |lia|lia| |lia|].
    1,2: rewrite S4; destruct (inword s); cbn; lia.
    rewrite I1, I2, I3, S3, S1, S2, S4. split_and!; [lia..|]. destruct (inword s); cbn; lia.
Qed.

Lemma foldl_concat {A B} (f : A → B → A) l a : foldl (foldl f) a l = foldl f a (concat l).
Proof. revert a. induction l as [|x l IH]; intros a; cbn; [done|]. by rewrite foldl_app. Qed.

(** wc counts the lines, the words and the bytes of the text, however the reads cut
    it up: a word that is split between two reads is counted once. *)
Theorem wc_counts reads :
  Z.of_nat (length (concat reads)) < 2 ^ 31 →
  ∃ s, wc reads 0 = Some s ∧ wl s = Z.of_nat (newlines (concat reads)) ∧
    ww s = Z.of_nat (length (words_from [] (concat reads))) ∧ wcc s = Z.of_nat (length (concat reads)).
Proof.
  intros Hlen. unfold wc. rewrite foldl_concat. cbn [Z.ltb Z.compare]. destruct (wc_fold (concat reads) {| wl := 0; ww := 0; wcc := 0; inword := false |} []) as (H1 & H2 & H3); cbn; try done; try lia.
  cbn in *. eexists. split_and!; [reflexivity|lia..].
Qed.

Lemma wc_counts_witness :
  ∃ s, wc [[97; 98]; [99; 10; 100]] 0 = Some s ∧ wl s = 1 ∧ ww s = 2 ∧ wcc s = 5.
Proof. apply (wc_counts [[97; 98]; [99; 10; 100]]). cbn. lia. Defined.

(** ** echo.c *)

Fixpoint echo (args : list bytes) : bytes :=
  match args with
  | [] => []
  | [a] => a ++ [10]
  | a :: args => a ++ [32] ++ echo args
  end.

(** ** ls.c: fmtname *)

Definition DIRSIZ : nat := 14.

(** [p] runs back from the terminator to the last slash, or past the first byte *)
Fixpoint after_slash (path : bytes) (p : nat) : nat :=
  if decide (path !! p = Some 47) then S p
  else match p with O => O | S p => after_slash path p end.

Definition fmtname (path : bytes) : bytes :=
  let p := drop (after_slash path (length path)) path in
  if decide (DIRSIZ ≤ length p)%nat then p else p ++ replicate (DIRSIZ - length p) 32.

(** the columns line up: a name of a directory entry takes 14 places *)
Lemma fmtname_width dir name : 47 ∉ name → (length name ≤ DIRSIZ)%nat →
  fmtname (dir ++ 47 :: name) = name ++ replicate (DIRSIZ - length name) 32.
Proof.
  intros Hn Hl. assert (∀ n, (n ≤ S (length name))%nat → after_slash (dir ++ 47 :: name) (length dir + n) = S (length dir)) as Ha.
  { induction n as [|n IH]; intros Hle.
    - rewrite Nat.add_0_r. assert ((dir ++ 47 :: name) !! length dir = Some 47) as E by (by rewrite list_lookup_middle).
      destruct (length dir) eqn:El; cbn [after_slash]; by rewrite decide_True.
    - rewrite Nat.add_succ_r. cbn [after_slash]. rewrite decide_False; [apply IH; lia|].
      replace (S (length dir + n)) with (length dir + S n)%nat by lia. rewrite lookup_app_r by lia.
      replace (length dir + S n - length dir)%nat with (S n) by lia. cbn. intros E. by apply list_elem_of_lookup_2 in E. }
  unfold fmtname. rewrite length_app, Ha by (cbn; lia). rewrite (cons_middle 47), app_assoc, drop_app_length' by (rewrite length_app; cbn; lia). destruct (decide _) as [Hd|Hd]; [|done]. replace (DIRSIZ - length name)%nat with 0%nat by lia. by rewrite app_nil_r.
Qed.
