(* ===== verification/MyShell.v ===== *)
(** * The small shell of src/shell

    [tokenize] with its buffers of 64 bytes and 64 pointers: no result where the C code
    writes outside of them.  [main] reads a line into 1024 bytes, splits it, and forks a
    child that executes the command while the shell waits for it.  The bytes of a line
    are not zero. *)

From S2P Require Import Prelude.

Abbreviation str := (list Z).

Definition MAX_INPUT_SIZE : nat := 1024.
Definition MAX_TOKEN_SIZE : nat := 64.
Definition MAX_NUM_TOKENS : nat := 64.

Definition white (c : Z) : bool := (c =? 32) || (c =? 10) || (c =? 9).

(** [token[i] = c] in a buffer of [MAX_TOKEN_SIZE] *)
Definition put_byte (i : nat) (c : Z) (token : str) : option str :=
  if decide (i < MAX_TOKEN_SIZE)%nat then Some (<[i:=c]> token) else None.

(** the string in a buffer, as [strcpy] copies it *)
Fixpoint c_str (b : str) : str :=
  match b with
  | [] => []
  | c :: b => if c =? 0 then [] else c :: c_str b
  end.

Record tokenizer := { token : str; tokenIndex : nat; tokens : list str }.

Definition token_step (readChar : Z) (s : tokenizer) : option tokenizer :=
  if white readChar then
    match put_byte (tokenIndex s) 0 (token s) with
    | None => None
    | Some t =>
        if decide (tokenIndex s = 0%nat) then Some {| token := t; tokenIndex := 0; tokens := tokens s |}
        else if decide (length (tokens s) < MAX_NUM_TOKENS)%nat then
          Some {| token := t; tokenIndex := 0; tokens := tokens s ++ [c_str t] |}
        else None
    end
  else
    match put_byte (tokenIndex s) readChar (token s) with
    | None => None
    | Some t => Some {| token := t; tokenIndex := S (tokenIndex s); tokens := tokens s |}
    end.

Fixpoint token_loop (line : str) (s : tokenizer) : option tokenizer :=
  match line with
  | [] => Some s
  | c :: line =>
      match token_step c s with
      | None => None
      | Some s => token_loop line s
      end
  end.

(** [buf]: what [malloc] leaves in the token *)
Definition tokenize (buf : str) (line : str) : option (list str) :=
  match token_loop line {| token := buf; tokenIndex := 0; tokens := [] |} with
  | None => None
  | Some s => if decide (length (tokens s) < MAX_NUM_TOKENS)%nat then Some (tokens s) else None
  end.

Inductive action :=
  | Quit
  | Run (argv : list str)
  | Nothing.

Definition exit_str : str := [101; 120; 105; 116].

(** one round of [main] on the line that [scanf] and [getchar] read; there must be room
    for the newline and the zero after it *)
Definition main_line (buf : str) (input : str) : option action :=
  if decide (S (length input) < MAX_INPUT_SIZE)%nat then
    match tokenize buf (input ++ [10]) with
    | None => None
    | Some [] => Some Nothing
    | Some (t :: ts) => if decide (t = exit_str) then Some Quit else Some (Run (t :: ts))
    end
  else None.

(** the commands that the shell executes, until [exit] or until the input is used up;
    [bufs] are what [malloc] leaves in each round *)
Fixpoint main_loop (bufs : nat → str) (n : nat) (lines : list str) : option (list (list str)) :=
  match lines with
  | [] => Some []
  | l :: lines =>
      match main_line (bufs n) l with
      | None => None
      | Some Quit => Some []
      | Some (Run argv) => option_map (cons argv) (main_loop bufs (S n) lines)
      | Some Nothing => main_loop bufs (S n) lines
      end
  end.

(** ** The words of a line *)

(** [w] is the part of a word already read *)
Fixpoint words (w : str) (line : str) : list str :=
  match line with
  | [] => []
  | c :: line => if white c then (if decide (w = []) then words [] line else w :: words [] line) else words (w ++ [c]) line
  end.

(** the words and their number leave room for the terminators *)
Definition fits (ws : list str) : bool := forallb (λ w, (length w <? MAX_TOKEN_SIZE)%nat) ws && (length ws <? MAX_NUM_TOKENS)%nat.

(** ** tokenize returns the words *)

Record tok_ok (s : tokenizer) (w : str) (ws : list str) : Prop := {
  tk_len : length (token s) = MAX_TOKEN_SIZE;
  tk_idx : tokenIndex s = length w;
  tk_fit : (length w ≤ MAX_TOKEN_SIZE)%nat;
  tk_word : take (length w) (token s) = w;
  tk_nz : Forall (λ c, c ≠ 0) w;
  tk_done : tokens s = ws;
  tk_num : (length ws ≤ MAX_NUM_TOKENS)%nat
}.

(** [line] leaves no word unfinished *)
Fixpoint complete (w line : str) : Prop :=
  match line with
  | [] => w = []
  | c :: line => complete (if white c then [] else w ++ [c]) line
  end.

Definition room (ws ws' : list str) : bool :=
  forallb (λ w, (length w <? MAX_TOKEN_SIZE)%nat) ws' && (length ws + length ws' <=? MAX_NUM_TOKENS)%nat.

Lemma c_str_app w b : Forall (λ c, c ≠ 0) w → c_str (w ++ 0 :: b) = w.
Proof. induction 1 as [|c w Hc _ IH]; [done|]. cbn. rewrite (proj2 (Z.eqb_neq c 0)) by done. by rewrite IH. Qed.

Lemma complete_newline w line : complete w (line ++ [10]).
Proof. revert w. induction line as [|c line IH]; intros w; [done|]. cbn. apply IH. Qed.

Lemma words_first w line : w ≠ [] → complete w line → ∃ v r, words w line = (w ++ v) :: r.
Proof.
  revert w. induction line as [|c line IH]; intros w Hw Hc; [done|]. cbn in *. destruct (white c).
  - rewrite decide_False by done. exists [], (words [] line). by rewrite app_nil_r.
  - destruct (IH (w ++ [c])) as (v & r & ->); [by destruct w|done|]. exists (c :: v), r. by rewrite <- app_assoc.
Qed.

Lemma room_cons ws w r : room ws (w :: r) = (length w <? MAX_TOKEN_SIZE)%nat && room (ws ++ [w]) r.
Proof.
  unfold room. cbn [forallb]. rewrite length_app. cbn [length]. replace (length ws + 1 + length r)%nat with (length ws + S (length r))%nat by lia.
  by rewrite andb_assoc.
Qed.

(** a byte after the word *)
Lemma tok_put s w ws c : tok_ok s w ws →
  match put_byte (tokenIndex s) c (token s) with
  | None => length w = MAX_TOKEN_SIZE
  | Some t => (length w < MAX_TOKEN_SIZE)%nat ∧ length t = MAX_TOKEN_SIZE ∧ take (S (length w)) t = w ++ [c] ∧ ∃ b, t = w ++ c :: b
  end.
Proof.
  intros [Hl Hi Hf Hw _ _]. unfold put_byte. rewrite Hi. destruct (decide _) as [H|H]; [|lia].
  assert (Ht : <[length w:=c]> (token s) = w ++ c :: drop (S (length w)) (token s)).
  { rewrite insert_take_drop by lia. by rewrite Hw. }
  rewrite Ht. split_and!; [done|rewrite length_app; cbn; rewrite length_drop; lia| |by eexists].
  rewrite (cons_middle c w), app_assoc. apply take_app_length'. rewrite length_app. cbn. lia.
Qed.

Lemma token_loop_spec line : ∀ s w ws,
  tok_ok s w ws → Forall (λ c, c ≠ 0) line → complete w line →
  match token_loop line s with
  | Some s' => room ws (words w line) = true ∧ tok_ok s' [] (ws ++ words w line)
  | None => room ws (words w line) = false
  end.
Proof.
  induction line as [|c line IH]; intros s w ws Hok Hnz Hc.
  { cbn in Hc. subst w. cbn. rewrite app_nil_r. split; [|done]. unfold room. cbn. rewrite Nat.add_0_r. apply Nat.leb_le, Hok. }
  apply Forall_cons in Hnz as [Hcz Hnz]. cbn [token_loop words complete] in *. unfold token_step. destruct (white c) eqn:Ew.
  - pose proof (tok_put s w ws 0 Hok) as Hput. destruct (put_byte _ 0 _) as [t|].
    2:{ rewrite decide_False by (intros ->; done). by rewrite room_cons, Hput. }
    destruct Hput as (Hlt & Hlen & Htk & b & Ht). rewrite (tk_idx _ _ _ Hok). destruct w as [|a w]; cbn [length].
    + cbn. apply IH; [|done..]. constructor; cbn; try done; apply Hok.
    + rewrite (decide_False (P := S (length w) = 0%nat)), (decide_False (P := a :: w = [])), (tk_done _ _ _ Hok), room_cons, (proj2 (Nat.ltb_lt _ _) Hlt) by first [done|lia]. destruct (decide _) as [Hn|Hn].
      * cbn [andb]. replace (ws ++ (a :: w) :: words [] line) with ((ws ++ [a :: w]) ++ words [] line) by (by rewrite <- app_assoc). apply IH; [|done..]. constructor; cbn [token tokenIndex tokens]; try done; [cbn; lia| |rewrite length_app; cbn; lia].
        by rewrite Ht, c_str_app by apply Hok.
      * unfold room. rewrite length_app. cbn [length]. rewrite (proj2 (Nat.leb_gt _ _)) by lia. by rewrite andb_false_r.
  - pose proof (tok_put s w ws c Hok) as Hput. destruct (put_byte _ c _) as [t|].
    + destruct Hput as (Hlt & Hlen & Htk & _). apply IH; [|done..]. constructor; cbn [token tokenIndex tokens]; try apply Hok; rewrite ?length_app; cbn [length].
      * done.
      * rewrite (tk_idx _ _ _ Hok). lia.
      * lia.
      * by rewrite Nat.add_1_r.
      * apply Forall_app. split; [apply Hok|by constructor].
    + destruct (words_first (w ++ [c]) line) as (v & r & ->); [by destruct w|done|]. rewrite room_cons, (proj2 (Nat.ltb_ge _ _)); [done|].
      rewrite !length_app. lia.
Qed.

Lemma tokenize_spec buf line :
  length buf = MAX_TOKEN_SIZE → Forall (λ c, c ≠ 0) line →
  tokenize buf (line ++ [10]) = if fits (words [] (line ++ [10])) then Some (words [] (line ++ [10])) else None.
Proof.
  intros Hb Hnz. unfold tokenize.
  pose proof (token_loop_spec (line ++ [10]) {| token := buf; tokenIndex := 0; tokens := [] |} [] []) as H.
  specialize (H ltac:(constructor; cbn; try done; lia) ltac:(apply Forall_app; split; [done|by constructor]) (complete_newline [] line)).
  destruct (token_loop _ _) as [s'|].
  - destruct H as [H [_ _ _ _ _ Ht Hn]]. rewrite Ht. unfold fits, room in *. apply andb_true_iff in H as [-> H]. cbn [andb app].
    destruct (decide _) as [Hd|Hd]; [by rewrite (proj2 (Nat.ltb_lt _ _) Hd)|]. by rewrite (proj2 (Nat.ltb_ge _ _)) by lia.
  - unfold room, fits in *. apply andb_false_iff in H as [->|H]; [done|]. apply Nat.leb_gt in H. cbn in H.
    rewrite (proj2 (Nat.ltb_ge _ _)) by (unfold MAX_NUM_TOKENS in *; lia). by rewrite andb_false_r.
Qed.

(** ** The shell runs the lines *)

Fixpoint until_exit (cmds : list (list str)) : list (list str) :=
  match cmds with
  | [] => []
  | argv :: cmds => if decide (head argv = Some exit_str) then [] else argv :: until_exit cmds
  end.

Definition argv_of (line : str) : list str := words [] (line ++ [10]).

(** a line that fits: it has room for the newline and the zero in [line], and its words and
    their number have room in the arrays of [tokenize] *)
Definition line_fits (line : str) : bool := (S (length line) <? MAX_INPUT_SIZE)%nat && fits (argv_of line).

Lemma main_line_spec buf line :
  length buf = MAX_TOKEN_SIZE → Forall (λ c, c ≠ 0) line →
  main_line buf line = if line_fits line then
    Some (match argv_of line with [] => Nothing | t :: ts => if decide (t = exit_str) then Quit else Run (t :: ts) end) else None.
Proof.
  intros Hb Hnz. unfold main_line, line_fits. rewrite tokenize_spec by done. fold (argv_of line).
  destruct (decide _) as [Hl|Hl]; [rewrite (proj2 (Nat.ltb_lt _ _) Hl)|by rewrite (proj2 (Nat.ltb_ge _ _)) by lia].
  cbn [andb]. destruct (fits (argv_of line)); [|done]. destruct (argv_of line); [done|]. by destruct (decide _).
Qed.

(** C38: the small shell executes exactly the lines that have a word, in order, up to a
    line that starts with [exit], each as the words between its blanks and tabs, when every
    line is shorter than 1023 bytes and has at most 63 words of at most 63 bytes each.  A
    line that is longer, or has a longer word or more words, makes the shell write outside
    its arrays. *)
Theorem my_shell_runs bufs n lines :
  (∀ i, length (bufs i) = MAX_TOKEN_SIZE) → Forall (Forall (λ c, c ≠ 0)) lines →
  (Forall (λ l, line_fits l = true) lines →
   main_loop bufs n lines = Some (until_exit (filter (λ argv, argv ≠ []) (argv_of <$> lines)))) ∧
  (∀ l, l ∈ lines → line_fits l = false → ∀ i, main_line (bufs i) l = None).
Proof.
  intros Hb Hl. split.
  - intros Hfit. revert n. induction lines as [|l lines IH]; intros n; [done|]. apply Forall_cons in Hl as [Hnz Hl].
    apply Forall_cons in Hfit as [Hf Hfit]. cbn [main_loop fmap list_fmap]. rewrite main_line_spec, Hf by done. specialize (IH Hl Hfit).
    rewrite filter_cons. destruct (argv_of l) as [|t ts]; [rewrite decide_False by (intros H; by apply H); apply IH|].
    rewrite (decide_True (P := t :: ts ≠ [])) by done. cbn [until_exit head]. destruct (decide (t = exit_str)) as [->|Hne]; [by rewrite decide_True|].
    rewrite decide_False by congruence. by rewrite IH.
  - intros l Hin Hf i. rewrite Forall_forall in Hl. by rewrite main_line_spec, Hf by auto.
Qed.

Lemma my_shell_runs_witness :
  main_loop (λ _, replicate 64 0) 0 [[108; 115; 32; 32; 97]; []; exit_str] = Some [[[108; 115]; [97]]].
Proof.
  apply (my_shell_runs (λ _, replicate 64 0) 0 [[108; 115; 32; 32; 97]; []; exit_str]).
  - intros _. reflexivity.
  - repeat constructor; lia.
  - repeat constructor.
Defined.
