(* ===== verification/Alu.v ===== *)
(** * The 16-bit ALU

    The netlist of Part A: the Kogge-Stone adder and subtractor of comp_add.vhd and
    comp_sub.vhd, the gates and multiplexers, and their composition in ALU.vhd.  A
    [STD_LOGIC_VECTOR] is the function from its indices to bits, and a bit is '0' or '1';
    a signal that no line drives is not read by any other. *)

From S2P Require Import Prelude.

Abbreviation bits := (nat → bool).

(** ** Cells *)

Definition GG (Gk Pk Gj : bool) : bool := Gk || (Pk && Gj).
Definition GPGG (Gk Pk Gj Pj : bool) : bool * bool := (Gk || (Pk && Gj), Pk && Pj).

(** ** The prefix tree of comp_add.vhd, which comp_sub.vhd repeats *)

Section tree.
  Context (G P : bits) (G0 : bool).

(** Level 1 *)

Definition GPlevel1 (i : nat) : bool * bool :=
  match i with
  | 2%nat => GPGG (G 2) (P 2) (G 1) (P 1)
  | 3%nat => GPGG (G 3) (P 3) (G 2) (P 2)
  | 4%nat => GPGG (G 4) (P 4) (G 3) (P 3)
  | 5%nat => GPGG (G 5) (P 5) (G 4) (P 4)
  | 6%nat => GPGG (G 6) (P 6) (G 5) (P 5)
  | 7%nat => GPGG (G 7) (P 7) (G 6) (P 6)
  | 8%nat => GPGG (G 8) (P 8) (G 7) (P 7)
  | 9%nat => GPGG (G 9) (P 9) (G 8) (P 8)
  | 10%nat => GPGG (G 10) (P 10) (G 9) (P 9)
  | 11%nat => GPGG (G 11) (P 11) (G 10) (P 10)
  | 12%nat => GPGG (G 12) (P 12) (G 11) (P 11)
  | 13%nat => GPGG (G 13) (P 13) (G 12) (P 12)
  | 14%nat => GPGG (G 14) (P 14) (G 13) (P 13)
  | 15%nat => GPGG (G 15) (P 15) (G 14) (P 14)
  | _ => (false, false)
  end.

Definition Glevel1 (i : nat) : bool :=
  match i with
  | 1%nat => GG (G 1%nat) (P 1%nat) G0
  | _ => (GPlevel1 i).1
  end.
Definition Plevel1 (i : nat) : bool := (GPlevel1 i).2.

(** Level 2 *)

Definition GPlevel2 (i : nat) : bool * bool :=
  match i with
  | 4%nat => GPGG (Glevel1 4) (Plevel1 4) (Glevel1 2) (Plevel1 2)
  | 5%nat => GPGG (Glevel1 5) (Plevel1 5) (Glevel1 3) (Plevel1 3)
  | 6%nat => GPGG (Glevel1 6) (Plevel1 6) (Glevel1 4) (Plevel1 4)
  | 7%nat => GPGG (Glevel1 7) (Plevel1 7) (Glevel1 5) (Plevel1 5)
  | 8%nat => GPGG (Glevel1 8) (Plevel1 8) (Glevel1 6) (Plevel1 6)
  | 9%nat => GPGG (Glevel1 9) (Plevel1 9) (Glevel1 7) (Plevel1 7)
  | 10%nat => GPGG (Glevel1 10) (Plevel1 10) (Glevel1 8) (Plevel1 8)
  | 11%nat => GPGG (Glevel1 11) (Plevel1 11) (Glevel1 9) (Plevel1 9)
  | 12%nat => GPGG (Glevel1 12) (Plevel1 12) (Glevel1 10) (Plevel1 10)
  | 13%nat => GPGG (Glevel1 13) (Plevel1 13) (Glevel1 11) (Plevel1 11)
  | 14%nat => GPGG (Glevel1 14) (Plevel1 14) (Glevel1 12) (Plevel1 12)
  | 15%nat => GPGG (Glevel1 15) (Plevel1 15) (Glevel1 13) (Plevel1 13)
  | _ => (false, false)
  end.

Definition Glevel2 (i : nat) : bool :=
  match i with
  | 2%nat => GG (Glevel1 2) (Plevel1 2) G0
  | 3%nat => GG (Glevel1 3) (Plevel1 3) (Glevel1 1)
  | _ => (GPlevel2 i).1
  end.
Definition Plevel2 (i : nat) : bool := (GPlevel2 i).2.

(** Level 3 *)

Definition GPlevel3 (i : nat) : bool * bool :=
  match i with
  | 8%nat => GPGG (Glevel2 8) (Plevel2 8) (Glevel2 4) (Plevel2 4)
  | 9%nat => GPGG (Glevel2 9) (Plevel2 9) (Glevel2 5) (Plevel2 5)
  | 10%nat => GPGG (Glevel2 10) (Plevel2 10) (Glevel2 6) (Plevel2 6)
  | 11%nat => GPGG (Glevel2 11) (Plevel2 11) (Glevel2 7) (Plevel2 7)
  | 12%nat => GPGG (Glevel2 12) (Plevel2 12) (Glevel2 8) (Plevel2 8)
  | 13%nat => GPGG (Glevel2 13) (Plevel2 13) (Glevel2 9) (Plevel2 9)
  | 14%nat => GPGG (Glevel2 14) (Plevel2 14) (Glevel2 10) (Plevel2 10)
  | 15%nat => GPGG (Glevel2 15) (Plevel2 15) (Glevel2 11) (Plevel2 11)
  | _ => (false, false)
  end.

Definition Glevel3 (i : nat) : bool :=
  match i with
  | 4%nat => GG (Glevel2 4) (Plevel2 4) G0
  | 5%nat => GG (Glevel2 5) (Plevel2 5) (Glevel1 1)
  | 6%nat => GG (Glevel2 6) (Plevel2 6) (Glevel2 2)
  | 7%nat => GG (Glevel2 7) (Plevel2 7) (Glevel2 3)
  | _ => (GPlevel3 i).1
  end.
Definition Plevel3 (i : nat) : bool := (GPlevel3 i).2.

(** Level 4 *)

Definition Glevel4 (i : nat) : bool :=
  match i with
  | 8%nat => GG (Glevel3 8) (Plevel3 8) G0
  | 9%nat => GG (Glevel3 9) (Plevel3 9) (Glevel1 1)
  | 10%nat => GG (Glevel3 10) (Plevel3 10) (Glevel2 2)
  | 11%nat => GG (Glevel3 11) (Plevel3 11) (Glevel2 3)
  | 12%nat => GG (Glevel3 12) (Plevel3 12) (Glevel3 4)
  | 13%nat => GG (Glevel3 13) (Plevel3 13) (Glevel3 5)
  | 14%nat => GG (Glevel3 14) (Plevel3 14) (Glevel3 6)
  | 15%nat => GG (Glevel3 15) (Plevel3 15) (Glevel3 7)
  | _ => false
  end.

(** Outputs *)

Definition O_out (i : nat) : bool :=
  match i with
  | 0%nat => xorb (P 1%nat) G0
  | 1%nat => xorb (P 2) (Glevel1 1)
  | 2%nat => xorb (P 3) (Glevel2 2)
  | 3%nat => xorb (P 4) (Glevel2 3)
  | 4%nat => xorb (P 5) (Glevel3 4)
  | 5%nat => xorb (P 6) (Glevel3 5)
  | 6%nat => xorb (P 7) (Glevel3 6)
  | 7%nat => xorb (P 8) (Glevel3 7)
  | 8%nat => xorb (P 9) (Glevel4 8)
  | 9%nat => xorb (P 10) (Glevel4 9)
  | 10%nat => xorb (P 11) (Glevel4 10)
  | 11%nat => xorb (P 12) (Glevel4 11)
  | 12%nat => xorb (P 13) (Glevel4 12)
  | 13%nat => xorb (P 14) (Glevel4 13)
  | 14%nat => xorb (P 15) (Glevel4 14)
  | 15%nat => xorb (P 16) (Glevel4 15)
  | _ => false
  end.

Definition Carryout : bool := G 16%nat || (P 16%nat && Glevel4 15).
End tree.

(** ** Components *)

(** the ports [X, Y (16 downto 1)] are associated with vectors [15 downto 0] *)
Definition port1 (v : bits) : bits := λ i, v (i - 1)%nat.

Definition comp_add (A B : bits) : bits * bool :=
  let X := port1 A in
  let Y := port1 B in
  let G := λ i, X i && Y i in
  let P := λ i, xorb (X i) (Y i) in
  (O_out G P false, Carryout G P false).

Definition comp_sub (A B : bits) : bits * bool :=
  let X := port1 A in
  let Y := port1 B in
  let G := λ i, X i && negb (Y i) in
  let P := λ i, xorb (X i) (negb (Y i)) in
  (O_out G P true, Carryout G P true).

Definition comp_nand (X Y : bits) : bits := λ i, negb (X i && Y i).
Definition comp_xor (X Y : bits) : bits := λ i, xorb (X i) (Y i).

Definition mux (X1 X2 X3 X4 : bits) (Sel1 Sel0 : bool) : bits :=
  if negb Sel1 && negb Sel0 then X1
  else if negb Sel1 && Sel0 then X2
  else if Sel1 && negb Sel0 then X3
  else X4.

Definition mux2 (X1 X2 X3 X4 Sel1 Sel0 : bool) : bool :=
  if negb Sel1 then if negb Sel0 then X1 else X2
  else if negb Sel0 then X3 else X4.

(** the number that the bits [n - 1 downto 0] stand for *)
Fixpoint unsigned (n : nat) (v : bits) : Z :=
  match n with
  | O => 0
  | S n => unsigned n v + 2 ^ Z.of_nat n * Z.b2z (v n)
  end.

(** [=] of STD_LOGIC_UNSIGNED compares the numbers *)
Definition comp_zero (X : bits) : bool := unsigned 16 X =? 0.

(** R, C and Z *)
Definition ALU (A B : bits) (S1 S0 : bool) : bits * bool * bool :=
  let '(add_r, add_c) := comp_add A B in
  let '(sub_r, sub_c) := comp_add A B in
  let sigN := comp_nand A B in
  let sigX := comp_xor A B in
  let R := mux add_r sub_r sigN sigX S1 S0 in
  let C := mux2 add_c sub_c false false S1 S0 in
  (R, C, comp_zero R).

(** ** What the ALU computes

    The carries of the prefix tree are those of a ripple-carry adder, because the cells
    compose associatively; and ripple-carry addition is addition. *)

Section tree.
  Context (G P : bits) (G0 : bool).

(** the carry into bit [n], one bit at a time *)
Fixpoint ripple (n : nat) : bool :=
  match n with
  | O => G0
  | S n => GG (G (S n)) (P (S n)) (ripple n)
  end.

Lemma GG_GPGG gk pk gj pj x : GG (GPGG gk pk gj pj).1 (GPGG gk pk gj pj).2 x = GG gk pk (GG gj pj x).
Proof. by destruct gk, pk, gj, pj, x. Qed.

(** a cell spans the bits of its two inputs *)
Lemma level1_spans i x : (2 ≤ i ≤ 15)%nat → GG (Glevel1 G P G0 i) (Plevel1 G P i) x = GG (G i) (P i) (GG (G (i - 1)) (P (i - 1)) x).
Proof. intros Hi. do 16 (destruct i as [|i]; [try lia; apply GG_GPGG|]). lia. Qed.

Lemma level2_spans i x : (4 ≤ i ≤ 15)%nat →
  GG (Glevel2 G P G0 i) (Plevel2 G P G0 i) x = GG (Glevel1 G P G0 i) (Plevel1 G P i) (GG (Glevel1 G P G0 (i - 2)) (Plevel1 G P (i - 2)) x).
Proof. intros Hi. do 16 (destruct i as [|i]; [try lia; apply GG_GPGG|]). lia. Qed.

Lemma level3_spans i x : (8 ≤ i ≤ 15)%nat →
  GG (Glevel3 G P G0 i) (Plevel3 G P G0 i) x = GG (Glevel2 G P G0 i) (Plevel2 G P G0 i) (GG (Glevel2 G P G0 (i - 4)) (Plevel2 G P G0 (i - 4)) x).
Proof. intros Hi. do 16 (destruct i as [|i]; [try lia; apply GG_GPGG|]). lia. Qed.

Lemma ripple_step i : (1 ≤ i)%nat → ripple i = GG (G i) (P i) (ripple (i - 1)).
Proof. destruct i as [|i]; [lia|]. intros _. cbn. by rewrite Nat.sub_0_r. Qed.

Lemma span1 i : (2 ≤ i ≤ 15)%nat → GG (Glevel1 G P G0 i) (Plevel1 G P i) (ripple (i - 2)) = ripple i.
Proof.
  intros Hi. rewrite level1_spans, (ripple_step i), (ripple_step (i - 1)) by lia. by replace (i - 1 - 1)%nat with (i - 2)%nat by lia.
Qed.

Lemma span2 i : (4 ≤ i ≤ 15)%nat → GG (Glevel2 G P G0 i) (Plevel2 G P G0 i) (ripple (i - 4)) = ripple i.
Proof.
  intros Hi. rewrite level2_spans by lia. replace (i - 4)%nat with (i - 2 - 2)%nat by lia. by rewrite !span1 by lia.
Qed.

Lemma span3 i : (8 ≤ i ≤ 15)%nat → GG (Glevel3 G P G0 i) (Plevel3 G P G0 i) (ripple (i - 8)) = ripple i.
Proof.
  intros Hi. rewrite level3_spans by lia. replace (i - 8)%nat with (i - 4 - 4)%nat by lia. by rewrite !span2 by lia.
Qed.

(** the carries that the outputs use *)
Lemma carry2 i : (2 ≤ i ≤ 3)%nat → Glevel2 G P G0 i = ripple i.
Proof. intros Hi. rewrite <- span1 by lia. do 4 (destruct i as [|i]; [first [lia|reflexivity]|]). lia. Qed.

Lemma carry3 i : (4 ≤ i ≤ 7)%nat → Glevel3 G P G0 i = ripple i.
Proof.
  intros Hi. rewrite <- span2 by lia.
  do 6 (destruct i as [|i]; [first [lia|reflexivity]|]). do 2 (destruct i as [|i]; [by rewrite <- carry2 by (cbn; lia)|]). lia.
Qed.

Lemma carry4 i : (8 ≤ i ≤ 15)%nat → Glevel4 G P G0 i = ripple i.
Proof.
  intros Hi. rewrite <- span3 by lia.
  do 10 (destruct i as [|i]; [first [lia|reflexivity]|]). do 2 (destruct i as [|i]; [by rewrite <- carry2 by (cbn; lia)|]).
  do 4 (destruct i as [|i]; [by rewrite <- carry3 by (cbn; lia)|]). lia.
Qed.

Lemma O_out_ripple i : (i < 16)%nat → O_out G P G0 i = xorb (P (S i)) (ripple i).
Proof.
  intros Hi. do 2 (destruct i as [|i]; [reflexivity|]). do 2 (destruct i as [|i]; [by rewrite <- carry2 by lia|]).
  do 4 (destruct i as [|i]; [by rewrite <- carry3 by lia|]). do 8 (destruct i as [|i]; [by rewrite <- carry4 by lia|]). lia.
Qed.

Lemma Carryout_ripple : Carryout G P G0 = ripple 16.
Proof. unfold Carryout. by rewrite carry4 by lia. Qed.
End tree.

(** ** Addition *)

Lemma unsigned_ext n v w : (∀ i, (i < n)%nat → v i = w i) → unsigned n v = unsigned n w.
Proof. intros H. induction n as [|n IH]; [done|]. cbn. rewrite IH, H by (intros; auto with lia). done. Qed.

Lemma unsigned_range n v : 0 ≤ unsigned n v < 2 ^ Z.of_nat n.
Proof.
  induction n as [|n IH]; [done|]. cbn [unsigned]. rewrite Nat2Z.inj_succ, Z.pow_succ_r by lia. destruct (v n); cbn; lia.
Qed.

(** ripple-carry addition *)
Lemma ripple_adds X Y G0 n :
  let G := λ i, X i && Y i in let P := λ i, xorb (X i) (Y i) in
  unsigned n (λ i, xorb (P (S i)) (ripple G P G0 i)) + 2 ^ Z.of_nat n * Z.b2z (ripple G P G0 n) =
  unsigned n (λ i, X (S i)) + unsigned n (λ i, Y (S i)) + Z.b2z G0.
Proof.
  cbn zeta. induction n as [|n IH]; [cbn; lia|]. cbn [unsigned ripple]. rewrite Nat2Z.inj_succ, Z.pow_succ_r by lia.
  set (p := 2 ^ Z.of_nat n) in *. unfold GG at 1. destruct (X (S n)), (Y (S n)), (ripple _ _ G0 n); cbn [xorb andb orb Z.b2z negb] in *; lia.
Qed.

Lemma unsigned_not n v : unsigned n (λ i, negb (v i)) = 2 ^ Z.of_nat n - 1 - unsigned n v.
Proof.
  induction n as [|n IH]; [done|]. cbn [unsigned]. rewrite IH, Nat2Z.inj_succ, Z.pow_succ_r by lia. destruct (v n); cbn [negb Z.b2z]; lia.
Qed.

Lemma unsigned_port n v : unsigned n (λ i, port1 v (S i)) = unsigned n v.
Proof. apply unsigned_ext. intros i _. unfold port1. cbn. by rewrite Nat.sub_0_r. Qed.

Lemma tree_adds A B G0 :
  let X := port1 A in
  let G := λ i, X i && B i in let P := λ i, xorb (X i) (B i) in
  unsigned 16 (O_out G P G0) + 2 ^ 16 * Z.b2z (Carryout G P G0) = unsigned 16 A + unsigned 16 (λ i, B (S i)) + Z.b2z G0.
Proof.
  cbn zeta. rewrite Carryout_ripple, (unsigned_ext 16 (O_out _ _ _) _ (O_out_ripple _ _ _)).
  change (2 ^ 16) with (2 ^ Z.of_nat 16). rewrite (ripple_adds (port1 A) B G0 16). by rewrite unsigned_port.
Qed.

Lemma comp_add_adds A B : unsigned 16 (comp_add A B).1 + 2 ^ 16 * Z.b2z (comp_add A B).2 = unsigned 16 A + unsigned 16 B.
Proof.
  pose proof (tree_adds A (port1 B) false) as H. cbn zeta in H. cbn [comp_add fst snd]. rewrite H, unsigned_port. apply Z.add_0_r.
Qed.

Lemma comp_sub_subtracts A B :
  unsigned 16 (comp_sub A B).1 + 2 ^ 16 * Z.b2z (comp_sub A B).2 = 2 ^ 16 + unsigned 16 A - unsigned 16 B.
Proof.
  pose proof (tree_adds A (λ i, negb (port1 B i)) true) as H. cbn zeta in H. cbn [comp_sub fst snd]. rewrite H.
  rewrite (unsigned_not 16 (λ i, port1 B (S i))), unsigned_port. cbn [Z.b2z]. lia.
Qed.

(** ** The ALU *)

(** C20: the Kogge-Stone trees add and subtract: the 16 bits of the result with the carry
    out are the sum of the two numbers, and the subtractor's are the difference modulo
    [2 ^ 16] with the carry set when nothing is borrowed. *)
Theorem kogge_stone_correct A B :
  unsigned 16 (comp_add A B).1 = (unsigned 16 A + unsigned 16 B) mod 2 ^ 16 ∧
  (comp_add A B).2 = (2 ^ 16 <=? unsigned 16 A + unsigned 16 B) ∧
  unsigned 16 (comp_sub A B).1 = (unsigned 16 A - unsigned 16 B) mod 2 ^ 16 ∧
  (comp_sub A B).2 = (unsigned 16 B <=? unsigned 16 A).
Proof.
  pose proof (comp_add_adds A B) as Ha. pose proof (comp_sub_subtracts A B) as Hs.
  pose proof (unsigned_range 16 (comp_add A B).1) as H1. pose proof (unsigned_range 16 (comp_sub A B).1) as H2.
  pose proof (unsigned_range 16 A) as H3. pose proof (unsigned_range 16 B) as H4. change (2 ^ Z.of_nat 16) with 65536 in *. change (2 ^ 16) with 65536 in *.
  split_and!.
  - destruct (comp_add A B).2; cbn [Z.b2z] in *; zdm.
  - destruct (comp_add A B).2; cbn [Z.b2z] in *; symmetry; [apply Z.leb_le|apply Z.leb_gt]; lia.
  - destruct (comp_sub A B).2; cbn [Z.b2z] in *; zdm.
  - destruct (comp_sub A B).2; cbn [Z.b2z] in *; symmetry; [apply Z.leb_le|apply Z.leb_gt]; lia.
Qed.

(** C36: what the ALU puts out for each setting of the control inputs: the sum with its
    carry for 00, the NAND for 10 and the exclusive or for 11 with no carry, the zero bit
    exactly when the result is zero; for 01, which is documented as the subtraction, it
    is the sum again, since the instance [Substep] is of [comp_add]. *)
Theorem alu_spec A B S1 S0 :
  let '(R, C, Z) := ALU A B S1 S0 in
  Z = (unsigned 16 R =? 0) ∧
  match S1, S0 with
  | false, _ => unsigned 16 R + 2 ^ 16 * Z.b2z C = unsigned 16 A + unsigned 16 B
  | true, false => C = false ∧ ∀ i, R i = negb (A i && B i)
  | true, true => C = false ∧ ∀ i, R i = xorb (A i) (B i)
  end.
Proof.
  pose proof (comp_add_adds A B) as H. unfold ALU. destruct (comp_add A B) as [r c]. destruct S1, S0; by split.
Qed.
