(* ===== verification/Gear.v ===== *)
(** * The gear shifter

    project.ino on the ATmega: [int] and [short] have 16 bits, [long] has 32, and [float]
    and [double] are both IEEE single precision, given by the standard library's
    [SpecFloat] with 24 bits of precision.  The state is the sketch's global variables.
    The readings of the sensor and of [millis()] are inputs of [loop], [RPMCount] is the
    interrupt of the wheel, and [servo] are the angles written to the servo motor.  What
    is printed on the serial line is left out, and [atan] and [pow] are parameters. *)

From Stdlib Require Import SpecFloat.
From S2P Require Import Prelude.

Abbreviation float := spec_float.

Definition f_of (z : Z) : float := binary_normalize 24 128 z 0 false.
Definition f_add : float → float → float := SFadd 24 128.
Definition f_sub : float → float → float := SFsub 24 128.
Definition f_mul : float → float → float := SFmul 24 128.
Definition f_div : float → float → float := SFdiv 24 128.
Definition f_gt (x y : float) : bool := SFltb y x.
Definition f_le (x y : float) : bool := SFleb x y.

(** a decimal constant: the nearest float *)
Definition dec (n d : Z) : float := f_div (f_of n) (f_of d).

Definition i16 (z : Z) : Z := (z + 2 ^ 15) mod 2 ^ 16 - 2 ^ 15.

Section sketch.
  Context (atan : float → float) (pow : float → Z → float).

Record sketch := {
  REV : Z; tmpRPM : Z; RPM : Z; st : Z; time_t : Z; time_since_change : Z; RPMlen : Z;
  weight : float; gear : Z; acc : list (list float); accAvg : list float; spdAvg : float; rho : float; slope : float;
  flag : Z; flag1 : Z; servo : list Z
}.

Definition radius : float := dec 4 100.
Definition Threshold : float := f_of 1.
Definition Buffer : float := f_of 3.
Definition n_avg : nat := 10.

Definition sketch0 : sketch := {|
  REV := 0; tmpRPM := 0; RPM := 0; st := 0; time_t := 0; time_since_change := 0; RPMlen := 0;
  weight := f_of 0; gear := 1; acc := replicate n_avg (replicate 3 (f_of 0)); accAvg := replicate 3 (f_of 0);
  spdAvg := f_of 0; rho := f_of 0; slope := f_of 0; flag := 0; flag1 := 1; servo := [] |}.

Definition set_gear v s := {| REV := REV s; tmpRPM := tmpRPM s; RPM := RPM s; st := st s; time_t := time_t s; time_since_change := time_since_change s; RPMlen := RPMlen s;
  weight := weight s; gear := v; acc := acc s; accAvg := accAvg s; spdAvg := spdAvg s; rho := rho s; slope := slope s; flag := flag s; flag1 := flag1 s; servo := servo s |}.
Definition set_weight v s := {| REV := REV s; tmpRPM := tmpRPM s; RPM := RPM s; st := st s; time_t := time_t s; time_since_change := time_since_change s; RPMlen := RPMlen s;
  weight := v; gear := gear s; acc := acc s; accAvg := accAvg s; spdAvg := spdAvg s; rho := rho s; slope := slope s; flag := flag s; flag1 := flag1 s; servo := servo s |}.
Definition set_REV v s := {| REV := v; tmpRPM := tmpRPM s; RPM := RPM s; st := st s; time_t := time_t s; time_since_change := time_since_change s; RPMlen := RPMlen s;
  weight := weight s; gear := gear s; acc := acc s; accAvg := accAvg s; spdAvg := spdAvg s; rho := rho s; slope := slope s; flag := flag s; flag1 := flag1 s; servo := servo s |}.
Definition set_accAvg v s := {| REV := REV s; tmpRPM := tmpRPM s; RPM := RPM s; st := st s; time_t := time_t s; time_since_change := time_since_change s; RPMlen := RPMlen s;
  weight := weight s; gear := gear s; acc := acc s; accAvg := v; spdAvg := spdAvg s; rho := rho s; slope := slope s; flag := flag s; flag1 := flag1 s; servo := servo s |}.
Definition set_acc v s := {| REV := REV s; tmpRPM := tmpRPM s; RPM := RPM s; st := st s; time_t := time_t s; time_since_change := time_since_change s; RPMlen := RPMlen s;
  weight := weight s; gear := gear s; acc := v; accAvg := accAvg s; spdAvg := spdAvg s; rho := rho s; slope := slope s; flag := flag s; flag1 := flag1 s; servo := servo s |}.
Definition set_spdAvg v s := {| REV := REV s; tmpRPM := tmpRPM s; RPM := RPM s; st := st s; time_t := time_t s; time_since_change := time_since_change s; RPMlen := RPMlen s;
  weight := weight s; gear := gear s; acc := acc s; accAvg := accAvg s; spdAvg := v; rho := rho s; slope := slope s; flag := flag s; flag1 := flag1 s; servo := servo s |}.
Definition set_slope r v s := {| REV := REV s; tmpRPM := tmpRPM s; RPM := RPM s; st := st s; time_t := time_t s; time_since_change := time_since_change s; RPMlen := RPMlen s;
  weight := weight s; gear := gear s; acc := acc s; accAvg := accAvg s; spdAvg := spdAvg s; rho := r; slope := v; flag := flag s; flag1 := flag1 s; servo := servo s |}.
Definition set_changed angle now s := {| REV := REV s; tmpRPM := tmpRPM s; RPM := RPM s; st := st s; time_t := time_t s; time_since_change := now; RPMlen := RPMlen s;
  weight := weight s; gear := gear s; acc := acc s; accAvg := accAvg s; spdAvg := spdAvg s; rho := rho s; slope := slope s; flag := flag s; flag1 := flag1 s; servo := servo s ++ [angle] |}.

(** ** Shifting *)

Definition ShiftUp (s : sketch) : sketch := if gear s <? 6 then set_gear (u16 (gear s + 1)) s else s.
Definition ShiftDown (s : sketch) : sketch := if 1 <? gear s then set_gear (u16 (gear s - 1)) s else s.

Definition CheckToShift (s : sketch) : sketch :=
  let s := set_weight (f_sub (f_div (spdAvg s) (dec 8 100)) (f_div (slope s) (f_of 10))) s in
  if f_gt (weight s) (f_mul (f_of (gear s)) Threshold) then ShiftUp s
  else if f_le (weight s) (f_sub (f_mul (f_of (u16 (gear s - 1))) Threshold) Buffer) then ShiftDown s
  else s.

(** ** Sensors *)

(** the number of times [x = x/10] until [x] is zero *)
Fixpoint digits10 (fuel : nat) (x : Z) : Z :=
  match fuel with
  | O => 0
  | S fuel => if x =? 0 then 0 else 1 + digits10 fuel (Z.quot x 10)
  end.

(** [t1], [t2] and [t3] are the three readings of [millis()]; no result where the
    division by [millis() - time_t] is one by zero *)
Definition readRPM (t1 t2 t3 : Z) (s : sketch) : option sketch :=
  if u32 (t1 - time_t s) =? 0 then None
  else
    let r := u32 (u32 (60 / 2 * (1000 / u32 (t1 - time_t s))) * REV s) in
    Some {| REV := 0; tmpRPM := r; RPM := r; st := t3; time_t := t2; time_since_change := time_since_change s;
            RPMlen := i16 (RPMlen s + digits10 5 (i16 r));
            weight := weight s; gear := gear s; acc := acc s; accAvg := accAvg s; spdAvg := spdAvg s; rho := rho s; slope := slope s;
            flag := 1; flag1 := 1; servo := servo s |}.

(** the sum of column [j] over the rows, then the division by their number *)
Definition MovingAverageFilter (arr : list (list float)) (s : sketch) : sketch :=
  let sum j := foldl (λ x row, f_add x (default (f_of 0) (row !! j))) (f_of 0) (take n_avg arr) in
  set_accAvg [f_div (sum 0%nat) (f_of 10); f_div (sum 1%nat) (f_of 10); f_div (sum 2%nat) (f_of 10)] s.

Definition axis (j : nat) (v : list float) : float := default (f_of 0) (v !! j).

Definition findSlope (s : sketch) : sketch :=
  let x := axis 0 (accAvg s) in
  let y := axis 1 (accAvg s) in
  let rho := SFabs (SFsqrt 24 128 (f_add (pow x 2) (pow y 2))) in
  let slope := f_div (f_mul (atan (f_div rho (SFabs (axis 2 (accAvg s))))) (f_of 180)) (dec 314 100) in
  set_slope rho (if SFltb y (f_of 0) then f_mul slope (f_of (-1)) else slope) s.

(** ** The sketch *)

Definition RPMCount (s : sketch) : sketch := set_REV (u8 (REV s + 1)) s.

(** the readings in one round of [loop]: five of [millis()], one of the accelerometer *)
Record readings := { ms1 : Z; ms2 : Z; ms3 : Z; ms4 : Z; ms5 : Z; normAccel : list float }.

Definition loop (r : readings) (s : sketch) : option sketch :=
  match readRPM (ms1 r) (ms2 r) (ms3 r) s with
  | None => None
  | Some s =>
      let s := set_spdAvg (f_mul (f_div (f_of (RPM s)) (f_of 60)) (f_mul (f_mul (f_of 2) (dec 314 100)) radius)) s in
      let s := set_acc (<[(n_avg - 1)%nat := normAccel r]> (acc s)) s in
      let s := MovingAverageFilter (acc s) s in
      let s := set_accAvg (normAccel r) s in
      let s := findSlope s in
      Some (if 3000 <? u32 (ms4 r - time_since_change s) then
              let s := CheckToShift s in
              set_changed (u16 (180 - gear s * (150 / 6))) (ms5 r) s
            else s)
  end.

(** an interrupt or a round of [loop] *)
Inductive sstep : sketch → sketch → Prop :=
  | st_tick s : sstep s (RPMCount s)
  | st_loop r s s' : loop r s = Some s' → sstep s s'.

(** ** test.cpp: the shifting rule and its written-out form *)

Record rider := { t_slope : float; t_spd : float; t_gear : Z }.

Definition threshold : float := f_of 10.
Definition buffer : float := f_of 3.

Definition t_weight (s : rider) : float := f_sub (f_div (t_spd s) (f_of 1)) (f_div (t_slope s) (f_of 2)).

Definition shift_up (s : rider) : rider :=
  if t_gear s <? 6 then {| t_slope := t_slope s; t_spd := t_spd s; t_gear := u16 (t_gear s + 1) |} else s.
Definition shift_down (s : rider) : rider :=
  if 1 <? t_gear s then {| t_slope := t_slope s; t_spd := t_spd s; t_gear := u16 (t_gear s - 1) |} else s.

(** [weight > gear * threshold] and [weight <= (gear - 1) * threshold - buffer] *)
Definition too_fast (s : rider) : bool := f_gt (t_weight s) (f_mul (f_of (t_gear s)) threshold).
Definition too_slow (s : rider) : bool := f_le (t_weight s) (f_sub (f_mul (f_of (t_gear s - 1)) threshold) buffer).

Definition check_to_shift (s : rider) : rider :=
  if too_fast s then shift_up s else if too_slow s then shift_down s else s.

Definition check_to_shift_brute (s : rider) : rider :=
  let both := if too_fast s then shift_up s else if too_slow s then shift_down s else s in
  match t_gear s with
  | 1 => if too_fast s then shift_up s else s
  | 2 => both
  | 3 => both
  | 4 => both
  | 5 => both
  | 6 => if too_slow s then shift_down s else s
  | _ => s
  end.
End sketch.

(** ** The gears stay in range, and the two forms of the shifting rule agree *)

Section sketch.
  Context (atan : float → float) (pow : float → Z → float).

(** the angles from 155 to 30 degrees are those of gears 1 to 6 *)
Definition in_gear (s : sketch) : Prop := 1 ≤ gear s ≤ 6 ∧ Forall (λ a, ∃ g, 1 ≤ g ≤ 6 ∧ a = 180 - 25 * g) (servo s).

Lemma u16_id z : 0 ≤ z < 2 ^ 16 → u16 z = z.
Proof. intros H. unfold u16. by rewrite Z.mod_small. Qed.

Lemma CheckToShift_gear s : in_gear s → in_gear (CheckToShift s) ∧ Z.abs (gear (CheckToShift s) - gear s) ≤ 1.
Proof.
  intros [Hg Hs]. unfold CheckToShift, ShiftUp, ShiftDown. cbn [set_weight gear servo weight].
  destruct (f_gt _ _).
  - destruct (Z.ltb_spec (gear s) 6); unfold in_gear; cbn; rewrite ?u16_id by lia; split_and!; try done; lia.
  - destruct (f_le _ _); [|unfold in_gear; cbn; split_and!; try done; lia].
    destruct (Z.ltb_spec 1 (gear s)); unfold in_gear; cbn; rewrite ?u16_id by lia; split_and!; try done; lia.
Qed.

Lemma readRPM_gear t1 t2 t3 s s' : readRPM t1 t2 t3 s = Some s' → gear s' = gear s ∧ servo s' = servo s.
Proof. unfold readRPM. destruct (_ =? 0); [done|]. intros H. apply (inj Some) in H. subst s'. split; reflexivity. Qed.

Lemma loop_gear r s s' : in_gear s → loop atan pow r s = Some s' → in_gear s' ∧ Z.abs (gear s' - gear s) ≤ 1.
Proof.
  intros Hin. unfold loop. destruct (readRPM _ _ _ s) as [s1|] eqn:E; [|done]. apply readRPM_gear in E as [Eg Es]. intros H. apply (inj Some) in H. subst s'.
  set (s2 := findSlope _ _ _). assert (Hin2 : in_gear s2) by (unfold in_gear, s2 in *; cbn; by rewrite Eg, Es).
  replace (gear s) with (gear s2) by exact Eg. clearbody s2. destruct (3000 <? _); [|split; [done|lia]].
  destruct (CheckToShift_gear s2 Hin2) as [[Hg Hs] Hd]. set (s3 := CheckToShift s2) in *. split; [|exact Hd]. split; [exact Hg|].
  cbn [servo set_changed]. apply Forall_app. split; [exact Hs|]. apply Forall_singleton. exists (gear s3). change (150 / 6) with 25.
  rewrite u16_id by lia. lia.
Qed.

(** a round has no result only when it divides by zero *)
Lemma loop_None r s : loop atan pow r s = None ↔ u32 (ms1 r - time_t s) = 0.
Proof. unfold loop, readRPM. destruct (Z.eqb_spec (u32 (ms1 r - time_t s)) 0); by split. Qed.

(** C37: in every state that the sketch reaches, through any readings of the clock and the
    accelerometer and any interleaving with the interrupts of the wheel, the gear is one
    of 1 to 6, each round of [loop] changes it by one at most, and the servo motor has
    only been sent the six angles of the gears.  A round returns, unless the clock has not
    moved since the last one, when it divides by zero. *)
Theorem gear_in_range s :
  rtc (sstep atan pow) sketch0 s →
  in_gear s ∧ (∀ r s', loop atan pow r s = Some s' → Z.abs (gear s' - gear s) ≤ 1) ∧
  ∀ r, loop atan pow r s = None ↔ u32 (ms1 r - time_t s) = 0.
Proof.
  intros Hr. assert (Hin : in_gear s).
  { assert (Hin0 : in_gear sketch0) by (split; [cbn; lia|constructor]). induction Hr as [|s1 s2 s3 Hs _ IH]; [exact Hin0|]. apply IH.
    destruct Hs as [s1|r s1 s2 Hl]; [exact Hin0|]. exact (proj1 (loop_gear r s1 s2 Hin0 Hl)). }
  split; [exact Hin|]. split; [|intros r; apply loop_None]. intros r s' Hl. exact (proj2 (loop_gear r s s' Hin Hl)).
Qed.

(** interrupts, and then a round with the readings *)
Fixpoint ride (l : list (nat * readings)) (s : sketch) : option sketch :=
  match l with
  | [] => Some s
  | (n, r) :: l => match loop atan pow r (Nat.iter n RPMCount s) with Some s => ride l s | None => None end
  end.

Lemma ticks_steps n s : rtc (sstep atan pow) s (Nat.iter n RPMCount s).
Proof. induction n as [|n IH]; [constructor|]. eapply rtc_r; [exact IH|constructor]. Qed.

Lemma ride_steps l : ∀ s s', ride l s = Some s' → rtc (sstep atan pow) s s'.
Proof.
  induction l as [|[n r] l IH]; cbn [ride]; intros s s' E; [apply (inj Some) in E; subst; constructor|].
  destruct (loop atan pow r _) as [s1|] eqn:El; [|done]. etrans; [apply ticks_steps|]. eapply rtc_l; [by eapply st_loop|by apply IH].
Qed.

(** the factor in the speed is an integer, so that the speed is half or all of what it
    should be, and nothing if a round of [loop] takes more than a second *)
Lemma rpm_steps t1 t2 t3 s s' :
  readRPM t1 t2 t3 s = Some s' → 0 ≤ REV s < 256 → 500 ≤ u32 (t1 - time_t s) →
  RPM s' = if u32 (t1 - time_t s) =? 500 then 60 * REV s else if u32 (t1 - time_t s) <=? 1000 then 30 * REV s else 0.
Proof.
  unfold readRPM. set (d := u32 (t1 - time_t s)). intros H HR Hd. rewrite (proj2 (Z.eqb_neq d 0)) in H by lia. apply (inj Some) in H. subst s'. cbn [RPM].
  change (60 / 2) with 30. assert (Hq : 1000 / d = if d =? 500 then 2 else if d <=? 1000 then 1 else 0).
  { destruct (Z.eqb_spec d 500) as [->|]; [done|]. destruct (Z.leb_spec d 1000); [|apply Z.div_small; lia]. symmetry. apply (Z.div_unique _ _ _ (1000 - d)); lia. }
  rewrite Hq. destruct (d =? 500), (d <=? 1000); rewrite !u32_id; unfold is_u32; rewrite ?u32_id; unfold is_u32; lia.
Qed.
End sketch.

(** ** test.cpp *)

Lemma above_above p q k w : (q < p)%positive → SFltb (S754_finite false p k) w = true → SFleb w (S754_finite false q k) = false.
Proof.
  intros Hqp. unfold SFltb, SFleb, SFcompare. destruct w as [sg|sg| |sg m e]; [by destruct sg..|done|]. destruct sg; [done|].
  rewrite (Z.compare_antisym e k). destruct (e ?= k); cbn [CompOpp]; [|done|done].
  change (PosDef.Pos.compare_cont Eq p m) with (p ?= m)%positive. change (PosDef.Pos.compare_cont Eq m q) with (m ?= q)%positive.
  destruct (Pos.compare_spec p m); [done| |done]. intros _. destruct (Pos.compare_spec m q); [lia|lia|done].
Qed.

(** the thresholds of gear 6 are 60 and 47 *)
Lemma fast_not_slow s : t_gear s = 6 → too_fast s = true → too_slow s = false.
Proof.
  unfold too_fast, too_slow. intros ->.
  assert (f_mul (f_of 6) threshold = S754_finite false 15728640 (-18)) as -> by (vm_compute; reflexivity).
  assert (f_sub (f_mul (f_of (6 - 1)) threshold) buffer = S754_finite false 12320768 (-18)) as -> by (vm_compute; reflexivity).
  by apply above_above.
Qed.

(** the rule of the gear shifter as one comparison for all gears does the same as the
    case distinction over the gears in every gear from 1 to 6, for all speeds and slopes,
    the ones that are not numbers included. *)
Theorem brute_agrees s : 1 ≤ t_gear s ≤ 6 → check_to_shift s = check_to_shift_brute s.
Proof.
  intros Hg. unfold check_to_shift, check_to_shift_brute.
  assert (t_gear s = 1 ∨ t_gear s = 6 ∨ 2 ≤ t_gear s ≤ 5) as [H|[H|H]] by lia.
  - rewrite H. destruct (too_fast s), (too_slow s); try done. unfold shift_down. by rewrite H.
  - rewrite H. destruct (too_fast s) eqn:Ef; [|done]. rewrite (fast_not_slow s H Ef). unfold shift_up. by rewrite H.
  - assert (t_gear s = 2 ∨ t_gear s = 3 ∨ t_gear s = 4 ∨ t_gear s = 5) as [->|[->|[->| ->]]] by lia; done.
Qed.

(** ** Witnesses *)

(** the wheel turns ten times in half a second, and later stands on a slope *)
Definition away : readings := {| ms1 := 3500; ms2 := 3500; ms3 := 3500; ms4 := 3500; ms5 := 3500; normAccel := [f_of 0; f_of 0; f_of 1] |}.
Definition fast : readings := {| ms1 := 4000; ms2 := 4000; ms3 := 4000; ms4 := 7000; ms5 := 7000; normAccel := [f_of 0; f_of 0; f_of 1] |}.
Definition stand : readings := {| ms1 := 11000; ms2 := 11000; ms3 := 11000; ms4 := 11000; ms5 := 11000; normAccel := [f_of 1; f_of 0; f_of 1] |}.

Definition trip : list (nat * readings) := [(0%nat, away); (10%nat, fast); (0%nat, stand)].

Lemma gear_in_range_witness :
  ∃ s, ride (λ x, x) (λ x _, f_mul x x) trip sketch0 = Some s ∧ (gear s = 1 ∧ servo s = [155; 130; 155]) ∧
    in_gear s ∧ (∀ r s', loop (λ x, x) (λ x _, f_mul x x) r s = Some s' → Z.abs (gear s' - gear s) ≤ 1) ∧
    ∀ r, loop (λ x, x) (λ x _, f_mul x x) r s = None ↔ u32 (ms1 r - time_t s) = 0.
Proof.
  eexists. split; [vm_compute; reflexivity|]. split; [by vm_compute|].
  apply (gear_in_range (λ x, x) (λ x _, f_mul x x)). apply (ride_steps _ _ trip). vm_compute. reflexivity.
Defined.

Lemma brute_agrees_witness :
  check_to_shift {| t_slope := f_of 0; t_spd := f_of 90; t_gear := 6 |} = check_to_shift_brute {| t_slope := f_of 0; t_spd := f_of 90; t_gear := 6 |}.
Proof. apply (brute_agrees {| t_slope := f_of 0; t_spd := f_of 90; t_gear := 6 |}). cbn. lia. Defined.
