(* ===== verification/SensorGraph.v ===== *)
(** * The graph of the accelerometer

    sensorgraph.cpp keeps the last hundred samples of the sensor, smoothed, in an array of
    twice the length in which every sample is stored twice, so that the samples to draw are
    always contiguous.  Floats are IEEE single precision ([SpecFloat]).  [update] is given
    the events that are in the queue of the sensor; [render] gives the three lines that it
    has OpenGL draw, as lists of points, and no result if it reads outside of the array.  The
    object is global, so that its memory is zero at first. *)

From Stdlib Require Import SpecFloat.
From S2P Require Import Prelude Gear.

Definition SENSOR_HISTORY_LENGTH : nat := 100.
(** 0.1f *)
Definition SENSOR_FILTER_ALPHA : float := S754_finite false 13421773 (-27).

Record AccelerometerData := { ax : float; ay : float; az : float }.

Record sensorgraph := {
  xPos : list float;
  sensorData : list AccelerometerData;
  sensorDataFilter : AccelerometerData;
  sensorDataIndex : nat }.

Definition zero_data : AccelerometerData := {| ax := S754_zero false; ay := S754_zero false; az := S754_zero false |}.

Definition sensorgraph0 : sensorgraph :=
  {| xPos := replicate SENSOR_HISTORY_LENGTH (S754_zero false); sensorData := replicate (SENSOR_HISTORY_LENGTH * 2) zero_data;
     sensorDataFilter := zero_data; sensorDataIndex := 0 |}.

(** [xPos[i]] *)
Definition xpos (i : nat) : float :=
  let t := f_div (f_of (Z.of_nat i)) (f_of (Z.of_nat SENSOR_HISTORY_LENGTH - 1)) in
  f_add (f_mul (f_of (-1)) (f_sub (f_of 1) t)) (f_mul (f_of 1) t).

Definition generateXPos (s : sensorgraph) : sensorgraph :=
  {| xPos := xpos <$> seq 0 SENSOR_HISTORY_LENGTH; sensorData := sensorData s;
     sensorDataFilter := sensorDataFilter s; sensorDataIndex := sensorDataIndex s |}.

(** the loop over the events *)
Definition smooth (f e : AccelerometerData) : AccelerometerData :=
  let a := SENSOR_FILTER_ALPHA in
  let mix e f := f_add (f_mul a e) (f_mul (f_sub (f_of 1) a) f) in
  {| ax := mix (ax e) (ax f); ay := mix (ay e) (ay f); az := mix (az e) (az f) |}.

Definition update (events : list AccelerometerData) (s : sensorgraph) : sensorgraph :=
  let f := foldl smooth (sensorDataFilter s) events in
  let i := sensorDataIndex s in
  {| xPos := xPos s; sensorData := <[(SENSOR_HISTORY_LENGTH + i)%nat := f]> (<[i := f]> (sensorData s));
     sensorDataFilter := f; sensorDataIndex := (i + 1) mod SENSOR_HISTORY_LENGTH |}.

(** [glDrawArrays] with the array of positions and that of a field of the samples, which
    starts at [sensorDataIndex] *)
Definition draw (field : AccelerometerData → float) (s : sensorgraph) : option (list (float * float)) :=
  mapM (λ i, x ← xPos s !! i; d ← sensorData s !! (sensorDataIndex s + i)%nat; Some (x, field d)) (seq 0 SENSOR_HISTORY_LENGTH).

Definition render (s : sensorgraph) : option (list (list (float * float))) :=
  mapM (λ field, draw field s) [ax; ay; az].

(** [drawFrame]: the calls of the user interface, each with the events that arrived *)
Definition drawFrame (events : list AccelerometerData) (s : sensorgraph) : sensorgraph * option (list (list (float * float))) :=
  let s := update events s in (s, render s).

(** the state after the frames *)
Definition frames (l : list (list AccelerometerData)) : sensorgraph :=
  foldl (λ s events, (drawFrame events s).1) (generateXPos sensorgraph0) l.

(** ** The window of samples *)

(** the value of the filter after each frame *)
Fixpoint samples (f : AccelerometerData) (l : list (list AccelerometerData)) : list AccelerometerData :=
  match l with
  | [] => []
  | events :: l => let f := foldl smooth f events in f :: samples f l
  end.

(** the last hundred of them, after zeros *)
Definition history (l : list (list AccelerometerData)) : list AccelerometerData :=
  drop (length l) (replicate SENSOR_HISTORY_LENGTH zero_data ++ samples zero_data l).

Record window (s : sensorgraph) (h : list AccelerometerData) : Prop := {
  w_len : length (sensorData s) = 200%nat;
  w_idx : (sensorDataIndex s < 100)%nat;
  w_twice : ∀ j, (j < 100)%nat → sensorData s !! (j + 100)%nat = sensorData s !! j;
  w_hist : ∀ i, (i < 100)%nat → sensorData s !! (sensorDataIndex s + i)%nat = h !! i;
  w_hlen : length h = 100%nat }.

Lemma update_window events s h : window s h →
  let f := foldl smooth (sensorDataFilter s) events in window (update events s) (drop 1 h ++ [f]).
Proof.
  intros [L I T W H]. cbv zeta. set (f := foldl _ _ _). set (i := sensorDataIndex s) in *.
  assert (Hd : ∀ j, sensorData (update events s) !! j = if decide (j = i ∨ j = (100 + i)%nat) then Some f else sensorData s !! j).
  { intros j. cbn [update sensorData]. fold f i. unfold SENSOR_HISTORY_LENGTH. destruct (decide (j = (100 + i)%nat)) as [->|H1].
    - rewrite list_lookup_insert_eq by (rewrite length_insert; lia). rewrite decide_True by auto. done.
    - rewrite list_lookup_insert_ne by done. destruct (decide (j = i)) as [->|H2].
      + rewrite list_lookup_insert_eq by lia. rewrite decide_True by auto. done.
      + rewrite list_lookup_insert_ne by done. rewrite decide_False by lia. done. }
  assert (Hi : sensorDataIndex (update events s) = if decide (i = 99%nat) then 0%nat else (i + 1)%nat).
  { cbn [update sensorDataIndex]. fold i. unfold SENSOR_HISTORY_LENGTH. case_decide as Hc; [by rewrite Hc|]. apply Nat.mod_small. lia. }
  split.
  - cbn. by rewrite !length_insert.
  - rewrite Hi. case_decide; lia.
  - intros j Hj. rewrite !Hd. destruct (decide (j = i)) as [->|Hne]; [by rewrite !decide_True by lia|]. rewrite !decide_False by lia. by apply T.
  - intros k Hk. assert (Hold : ∀ j, (j < 99)%nat → (drop 1 h ++ [f]) !! j = sensorData s !! (i + (j + 1))%nat).
    { intros j Hj. rewrite lookup_app_l by (rewrite length_drop; lia). rewrite lookup_drop, W by lia. f_equal. lia. }
    destruct (decide (k = 99%nat)) as [->|Hk9].
    + rewrite lookup_app_r, length_drop, H by (rewrite length_drop; lia). rewrite Hd, Hi. by case_decide; rewrite decide_True by lia.
    + rewrite Hold, Hd, Hi by lia. case_decide as H9; rewrite decide_False by lia; [|f_equal; lia].
      rewrite H9. replace (99 + (k + 1))%nat with (k + 100)%nat by lia. symmetry. apply T. lia.
  - rewrite length_app, length_drop. cbn. lia.
Qed.

Lemma length_samples f l : length (samples f l) = length l.
Proof. revert f. induction l as [|e l IH]; intros f; [done|]. cbn. by rewrite IH. Qed.
Lemma samples_snoc f l e : samples f (l ++ [e]) = samples f l ++ [foldl smooth (foldl (foldl smooth) f l) e].
Proof. revert f. induction l as [|x l IH]; intros f; [reflexivity|]. change (foldl smooth f x :: samples (foldl smooth f x) (l ++ [e]) = foldl smooth f x :: (samples (foldl smooth f x) l ++ [foldl smooth (foldl (foldl smooth) (foldl smooth f x) l) e])). by rewrite IH. Qed.

Lemma history_snoc l e : history (l ++ [e]) = drop 1 (history l) ++ [foldl smooth (foldl (foldl smooth) zero_data l) e].
Proof.
  unfold history. rewrite samples_snoc, length_app, app_assoc. cbn [length]. rewrite <- drop_drop. unfold SENSOR_HISTORY_LENGTH.
  rewrite (drop_app_le _ _ (length l)) by (rewrite length_app, length_samples; lia).
  rewrite (drop_app_le _ _ 1); [done|]. rewrite length_drop, length_app, length_samples, length_replicate. lia.
Qed.

Lemma frames_window l : window (frames l) (history l) ∧ sensorDataFilter (frames l) = foldl (foldl smooth) zero_data l ∧
  xPos (frames l) = xpos <$> seq 0 SENSOR_HISTORY_LENGTH.
Proof.
  unfold frames. induction l as [|e l (W & F & X)] using rev_ind.
  - split_and!; [|done|done]. unfold history. cbn [length samples foldl]. rewrite app_nil_r, drop_0. unfold SENSOR_HISTORY_LENGTH. split; cbn [generateXPos sensorgraph0 sensorData sensorDataIndex].
    + apply length_replicate.
    + lia.
    + intros j Hj. rewrite !lookup_replicate_2 by (unfold SENSOR_HISTORY_LENGTH; lia). done.
    + intros i Hi. rewrite !lookup_replicate_2 by (unfold SENSOR_HISTORY_LENGTH; lia). done.
    + apply length_replicate.
  - rewrite !foldl_snoc. cbn [drawFrame fst]. rewrite history_snoc, <- F. split_and!; [by apply update_window|done|done].
Qed.

Lemma draw_window field s h : window s h → length (xPos s) = SENSOR_HISTORY_LENGTH → draw field s = Some (zip (xPos s) (field <$> h)).
Proof.
  intros [L I T W H] Hx. unfold draw. apply mapM_Some. apply Forall2_same_length_lookup_2.
  { rewrite length_seq, length_zip_with, length_fmap, Hx, H. done. }
  intros i x y Hi Hy. apply lookup_seq in Hi as [-> Hi]. cbn [Nat.add]. apply lookup_lt_Some in Hy as Hl. rewrite lookup_zip_with in Hy.
  destruct (xPos s !! i) as [xi|] eqn:Ex; [|done]. cbn in Hy. rewrite list_lookup_fmap in Hy. unfold SENSOR_HISTORY_LENGTH in Hi.
  cbn [mbind option_bind]. rewrite W by lia. destruct (h !! i) as [d|]; [|done]. by injection Hy as <-.
Qed.

(** C35: The graph shows the last hundred samples.  Whatever events arrive between the frames,
    each frame draws, for each of the three axes, a line through a hundred points: the
    smoothed samples of the last hundred frames, from the oldest to the newest (zeros before
    the first frame), at the positions of [generateXPos].  It never reads outside of the
    array, although it reads a hundred samples from [sensorDataIndex] on without wrapping. *)
Theorem graph_shows_history l events :
  (drawFrame events (frames l)).2 =
    Some ((λ field, zip (xpos <$> seq 0 SENSOR_HISTORY_LENGTH) (field <$> history (l ++ [events]))) <$> [ax; ay; az]).
Proof.
  destruct (frames_window (l ++ [events])) as (W & _ & X). unfold frames in W, X. rewrite foldl_snoc in W, X. fold (frames l) in W, X.
  cbn [drawFrame fst snd] in *. unfold render. cbn [mapM]. rewrite !(draw_window _ _ _ W) by (by rewrite X). by rewrite X.
Qed.

(** the positions go from -1 to 1, from left to right *)
Lemma xpos_increasing : xpos 0 = f_of (-1) ∧ xpos 99 = f_of 1 ∧ forallb (λ i, SFltb (xpos i) (xpos (S i))) (seq 0 99) = true.
Proof. vm_compute. done. Qed.
